(* ===== verification/_CoqProject ===== *)
-Q . S2P
Prelude.v
EscapeSQL.v
EscapeSQLFacts.v
Steps.v
NormalCollector.v
NormalCollectorFacts.v
CircularCollector.v
SplitCollectors.v
SplitCollectorsFacts.v
LlmChunk.v
LlmUrl.v
LlmPack.v
LlmState.v
LlmStateFacts.v
LlmSender.v
Hmap.v
Accumulator.v
MeterLLM.v
MeterLLMFacts.v
Meters.v
MeterService.v
MeterServiceFacts.v
MeterActiveX.v
CounterTasks.v
CounterTasksFacts.v
UrlPattern.v
TraceCtx.v
TraceCtxFacts.v
DataPack.v
DataText.v
Stat.v
StatError.v
StatFacts.v
ParsedSql.v
TraceContext.v
TraceApi.v
TraceSteps.v
TraceSamples.v
TraceStepsFacts.v
TraceMain.v
TraceMainFacts.v
TraceManager.v
TraceManagerFacts.v
AppState.v
AppTrace.v
AppCalls.v
AppFacts.v
AppCtx.v
NetCypher.v
NetFrame.v
NetSession.v
NetSender.v
NetSamples.v
NetFacts.v
NetReceiverFacts.v
ZipSend.v
LogSink.v
Watch.v
WatchFacts.v
WatchManager.v
CounterLLM.v
CounterActive.v
MeterSelf.v
InstSql.v
InstFacts.v
InstSqlFacts.v
InstHttp.v
InstHttpFacts.v
Conf.v
ConfApply.v
ConfApplyFacts.v
ConfBounds.v
ConfFile.v
LogPaths.v
Logger.v
LoggerFacts.v
LogRead.v
Control.v
Stacks.v
ActiveDump.v
