(* ===== verification/Prelude.v ===== *)
(** * The WhaTap Go agent: a verification library

    The program is an application-performance agent linked into the program it watches.
    An application (or the instrumentation of its libraries) reports the start and the end
    of transactions, statements, HTTP calls and methods through the packages [src/trace],
    [src/sql], [src/httpc], [src/method] and [src/llm]; the agent below them
    ([src/agent/agent]) collects the steps of a transaction, normalises its statements and
    URLs, counts it in the meters of the last five seconds and in the statistics of the
    last five minutes, sends each text once, and sends the profiles of some transactions.
    The same operations can come as datagrams of another process.

    ** How the code is read

    A Go function is a definition of the same name, where the language allows it; a
    helper of a few lines of a longer function has a name of its own.  Structs are
    records, updated as [r <| f := v |>]; integers are [Z], wrapped where the code's
    width shows ([int32], [int64], [add64], [inc32]); strings are lists of bytes.  A call
    that may panic returns [res] (here), a loop whose end is to be proved takes fuel,
    and [OutOfFuel] is excluded by a theorem; on the application's side a program is a
    function of the state that keeps the state reached by a panic ([AppState.prog]).
    Pointers that are shared are locations: profile steps ([Steps]), contexts of
    transactions ([TraceManager], [AppState]), records of LLM calls ([LlmState]).  Clocks,
    goroutine ids, choices of pools and of [range] over a map are arguments.

    Code that is not in the repository is an interface: golib's linked maps ([Hmap],
    with the laws the code relies on and an implementation, [ListMap]), request queues
    ([DataPack], with [ListQueue]), hit maps, path trees, string and URL functions, step
    structs.  Theorems that need laws of them take the laws as hypotheses; the witnesses
    apply the theorems to implementations ([TraceSamples] and the ends of the files).

    ** The parts

    Statements.  [EscapeSQL] is [util/sqlutil/EscapeLiteralSQL.go], a byte-at-a-time
    machine that splits a statement into a text without literals and the literals.
    [EscapeSQLFacts]: it returns, with fuel the length of the statement (each round
    reads a byte); statements that differ only in what it takes for literals in the state
    it is in have the same text; comments are erased.  [ParsedSql] is the identity of a statement with its two caches
    ([trace/ParsedSql.go]), the same for cached and new statements, and the cipher of the
    parameters ([secure/ParamSecurity.go]), a round trip.

    Collectors of steps ([trace/Profile*Collector.go]).  [NormalCollector] admits steps
    by two bounds, [CircularCollector] keeps the last ones, [SplitCollectors] sends full
    chunks away, as parts of the profile or as child transactions.  The facts refine
    each to a list: what is kept, in which order ([NormalCollectorFacts],
    [CircularCollector]); no step is lost or sent twice, the children follow each
    other on the parent's time line ([SplitCollectorsFacts]).

    Meters ([counter/meter]).  [Accumulator] states what a meter promises to the task
    that drains it: consecutive buckets summarise consecutive segments of the samples.
    [Meters] (SQL, HTTP calls, statuses), [MeterService] (transactions, by caller, with
    the hit map and the alerts of [alert/Alert.go]), [MeterLLM] and [MeterActiveX]
    implement it; [CounterTasks] is the client ([counter/Task*.go]).  The facts: each
    meter is exact, overflow of its table included; a tick counts every transaction
    once; draining and adding lose nothing; publishing a call balances the active counts.
    [CounterLLM] is the task that sends the meter of LLM calls every five minutes and the
    totals of the hour, [CounterActive] the counts of running transactions, by their age
    and by what they wait for, and the table of users, [MeterSelf] the agent's meter of
    its own packs and the loop that runs every task each tick; each file ends with its
    theorems (the totals of an hour are the sum of its calls; a running transaction is
    counted once by its status, and once by its age if it is not lost).

    LLM calls ([llm]).  [LlmState] is a call from its start to its publication over a
    shared world of packs and slots, [LlmPack] its records, [LlmUrl] the recognition of
    providers, [LlmChunk] the splitting of texts, [LlmSender] the records sent.  The
    facts: a call is published once, with the texts and tokens it accumulated; totals of
    a transaction; chunks are whole characters and give the text back.  The loop of
    [SplitContent] has fuel the length of the text and one; on text that is not UTF-8 no
    fuel is enough ([SplitContent_diverges]).

    Texts and statistics.  [DataText] ([data/DataText.go]) queues a text the first time
    its hash is seen, [DataPack] chooses how a pack is sent; its facts: between two
    resets each text is queued once as long as the caches have room, nothing waiting is
    lost, and all of it leaves.
    [Stat] and [StatError] ([stat]) are the five-minute tables and [TimingSender.go];
    [StatFacts]: the tables are the sums of their samples over the keys that fit.
    [UrlPattern] normalises URLs ([URLPatternDetector.go],
    [ServiceURLPatternDetector.go]).

    Transactions.  [TraceContext] is the agent's record of a transaction with its steps
    and the settings read; [TraceApi] and [TraceSteps] are [trace/api]: start, end,
    messages, errors; connections, statements, HTTP calls, methods, on a [World] of all
    the components they change.  [TraceStepsFacts]: transaction, meter and statistics
    count the same calls; the one-shot forms agree with start and end.  [TraceMain] is
    the sender of finished transactions ([trace/TraceMain.go]); [TraceMainFacts]: every
    service has a profile in each round, every slow or failed transaction has its own,
    the table of services is exact, and the record sent is the one the meter counted.
    [TraceManager] is [trace/TraceContextManager.go]: every handler of a datagram, on a
    heap of contexts with the table of running transactions, the queue and the pool;
    [TraceManagerFacts]: in every run each context has one owner, and a datagram changes
    no other transaction, but that the start of one displaces another from a full table.

    The application's side.  [TraceCtx] is its record of a transaction and the headers
    that carry it to another process; [TraceCtxFacts]: what is written is what is read,
    and which header panics.  [AppState], [AppTrace] and [AppCalls] are the public
    packages over the agent; [AppFacts]: a wrapped handler always ends its transaction,
    what ends one too early, and what a connection string shows.  [AppCtx] is the
    statistics by application context ([appctx]: the extractor of names, the counters
    and their task); its facts: each table sums its samples, the names found are
    those of the patterns.

    Instrumented libraries.  A driver or a handler of another package is wrapped by one
    that reports to the agent and calls it.  [InstSql] ([database/sql/whatapsql]) and
    [InstHttp] ([net/http/whataphttp]) are programs ([iprog]) over the state of the agent
    with the application, the state of the wrapped library and the clock; the library's
    methods are interface records of such programs, the optional ones optional fields as
    Go's type assertions find them.  [InstFacts] has the rules of such programs;
    [InstSqlFacts]: a wrapped connector gives the results of the connector it wraps and
    leaves its state as it would, in every method the driver has, and what the methods it
    adds answer ([WrapConnector_refines]); it has no [Close]; the registration of a
    second driver can wait for its own lock; [InstHttpFacts]: the headers a client sends
    are those the server reads, so both transactions have one trace.

    The connection ([agent/net]).  [NetCypher] is the cipher of [util/crypto] over AES as
    an interface, [NetFrame] the frames and the exchange of keys over golib's streams,
    [NetSession] the session ([TcpSession.go]: opening, sending, the queue of data sent
    again, reading), [NetSender] the two queues with their sender and the receiver.
    Goroutines are events of a run.  The facts: a frame is read as it was written
    ([NetFrame]); what the receiver takes and what it gives, and what it reads of a stream
    that breaks ([NetReceiverFacts]); no pack
    is lost when a connection breaks ([NetFacts], over the instances of [NetSamples]), and
    the runs in which one is.

    Log lines ([agent/logsink], [src/logsink]).  [LogSink] joins lines, limits them and
    puts them in packs, for the captured streams and the writer of transactions;
    [Watch] reads files as they grow, with the buffer and the position of Go's scanner,
    and [WatchManager] keeps the table of files.  Their facts: what the line buffer
    keeps, and when a long line panics; [WatchFacts]: whole lines without tags are
    sent once each (or once for each of the words in them), under the limits of a poll and
    of the scanner; [WatchManager]: the table follows the settings.  [ZipSend] is
    the body of the four senders that compress, with the array of the buffer as a
    location and the two bounded queues of the network; its facts: the packs that are not
    refused hold the records, unless one is written late.

    Settings ([agent/config]).  [Conf] is the struct of settings as a function of its
    fields, with the readers of one setting; an assignment is a statement, and [ConfApply]
    is [apply] with the parts of the struct as lists of them.  [ConfApplyFacts] has the
    rules of such lists (what they write, what their expressions read) and shows that the
    settings are a function of the environment and the file; [ConfBounds] that they are
    within their bounds, and off when the agent is disabled.  [ConfFile] is the start, the
    polls of the file and the writing of values; its theorems: the settings follow the
    file, and a plain setting that is written is read.  The other components have records of the settings
    they read, with the same names.

    The log ([util/logutil/Logger.go]).  [Logger] has a model of the operating system
    (names, contents by number, handles, the standard streams) and every operation of the
    logger on it.  [LoggerFacts]: the lines of an id are spaced, the old files of the
    logger are removed and no other, every line lands in the file of the day.  [LogRead]:
    the pages of a log give it back, which files a page can be asked of, and when the list
    of logs panics.  [LogPaths] has what these need of cleaned paths and of floats.  Bounds:
    files and pages below 2^51 bytes, where a float of a length is exact; a thousand ids;
    one reading of the clock for an operation; a write to an open file succeeds.

    Commands ([control/ControlHandler.go]).  [Control] is the switch of the commands with
    its panics and the loop around it; its theorems: which commands get no answer, and
    that the plain settings answered are those that were set.

    Stacks ([agent/active]).  [Stacks] is the parsing of a dump of all goroutines and the
    pool of buffers, whose strings are views of them: a dump is read block by block, the
    loop has fuel the length of the text and needs no more ([parse_all_total]), and a view
    follows what is written into its buffer later.  [ActiveDump] sends the stacks of the
    running transactions and lists the transactions; what a round sends is given exactly.

    ** What is not modelled

    - Sockets, goroutines and their wiring ([boot], the [Start] functions of
      the senders), the names an agent takes from its environment
      ([secure/SecurityMaster.go]): input, output and calls of other libraries.
    - The remaining counter tasks, topology and process status.
    - The other packages of [src/instrumentation]: the same wrapping over the types of
      packages that are not in the repository.

    Next in the plan: the remaining counter tasks. *)

From Stdlib Require Export ZArith Lia Ascii.
From Stdlib Require Import SpecFloat.
From coqutil Require Export Datatypes.RecordSettersUsingExistingGetters.
From stdpp Require Export functions base gmap strings list sorting pretty.

(** A struct assignment [r.f = v] is [r <| f := v |>], [r.f op= v] is
    [r <| f ::= g |>]. *)
Arguments RecordSettersUsingExistingGetters.const {E} newValue _ /.
Arguments RecordSettersUsingExistingGetters.set {R E} getter {Setter} fieldUpdater r /.

#[global] Set Default Goal Selector "!".

(** * Results of Go code

    A Go call returns, panics, or (in a fuelled translation of an unbounded
    loop) is cut off.  The development proves for every fuelled loop that some
    stated fuel is enough, or that no fuel is: then the program itself does not
    terminate. *)

Inductive res (A : Type) : Type :=
| Ret (a : A)
| Panic
| OutOfFuel.
Arguments Ret {A} a.
Arguments Panic {A}.
Arguments OutOfFuel {A}.

#[export] Instance res_ret : MRet res := fun A a => Ret a.
#[export] Instance res_bind : MBind res := fun A B f m =>
  match m with Ret a => f a | Panic => Panic | OutOfFuel => OutOfFuel end.

Definition returns {A} (m : res A) : Prop := exists a, m = Ret a.

(** A Go panic that a deferred [recover] swallows. *)
Definition recovered {A} (m : res A) (dflt : A) : res A :=
  match m with Panic => Ret dflt | _ => m end.

Lemma bind_ret_inv {A B} (m : res A) (f : A -> res B) b :
  m ≫= f = Ret b -> exists a, m = Ret a /\ f a = Ret b.
Proof. destruct m; simpl; intros; simplify_eq; eauto. Qed.

Lemma bind_panic {A B} (m : res A) (f : A -> res B) :
  (forall a, f a <> Panic) -> m ≫= f = Panic <-> m = Panic.
Proof. intros Hf. destruct m; simpl; [|done..]. split; [intros H; by apply Hf in H|done]. Qed.

Lemma bind_returns {A B} (m : res A) (f : A -> res B) :
  returns m -> (forall a, m = Ret a -> returns (f a)) -> returns (m ≫= f).
Proof. intros [a ->] Hf. by apply Hf. Qed.

(** Two computations that fail alike, or return related values. *)
Inductive res_rel {A B} (R : A -> B -> Prop) : res A -> res B -> Prop :=
| rel_ret a b : R a b -> res_rel R (Ret a) (Ret b)
| rel_panic : res_rel R Panic Panic
| rel_fuel : res_rel R OutOfFuel OutOfFuel.

Lemma res_rel_bind {A B C D} (R : A -> B -> Prop) (Q : C -> D -> Prop) m n f g :
  res_rel R m n -> (forall a b, R a b -> res_rel Q (f a) (g b)) ->
  res_rel Q (m ≫= f) (n ≫= g).
Proof. intros Hm Hf; destruct Hm; simpl; [by apply Hf | constructor..]. Qed.

Lemma res_rel_refl {A} (R : A -> A -> Prop) `{!Reflexive R} m : res_rel R m m.
Proof. destruct m; constructor; reflexivity. Qed.

(** Folding a fallible operation over a list: [for _, x := range xs]. *)
Fixpoint foldM {S A} (f : S -> A -> res S) (s : S) (xs : list A) : res S :=
  match xs with
  | [] => Ret s
  | x :: xs => s' ← f s x; foldM f s' xs
  end.

Lemma foldM_app {S A} (f : S -> A -> res S) s xs ys :
  foldM f s (xs ++ ys) = (s' ← foldM f s xs; foldM f s' ys).
Proof.
  revert s; induction xs as [|x xs IH]; intros s; simpl; [done|].
  destruct (f s x); simpl; auto.
Qed.

(** * Machine integers

    Go integers wrap around; a value of width [w] is kept as its signed (or
    unsigned) representative in [Z]. *)

Definition wrap_s (w z : Z) : Z := (z + 2 ^ (w - 1)) mod 2 ^ w - 2 ^ (w - 1).
Definition wrap_u (w z : Z) : Z := z mod 2 ^ w.
Abbreviation int32 := (wrap_s 32).
Abbreviation int64 := (wrap_s 64).
Abbreviation uint8 := (wrap_u 8).

Definition in_s (w z : Z) : Prop := (- 2 ^ (w - 1) <= z < 2 ^ (w - 1))%Z.

Lemma wrap_s_id w z : (0 < w)%Z -> in_s w z -> wrap_s w z = z.
Proof.
  unfold in_s, wrap_s; intros Hw Hz.
  assert (2 ^ w = 2 * 2 ^ (w - 1))%Z by (rewrite <- Z.pow_succ_r by lia; f_equal; lia).
  rewrite Z.mod_small; lia.
Qed.

Lemma wrap_s_range w z : (0 < w)%Z -> in_s w (wrap_s w z).
Proof.
  unfold in_s, wrap_s; intros Hw.
  assert (2 ^ w = 2 * 2 ^ (w - 1))%Z by (rewrite <- Z.pow_succ_r by lia; f_equal; lia).
  pose proof (Z.mod_pos_bound (z + 2 ^ (w - 1)) (2 ^ w)).
  pose proof (Z.pow_pos_nonneg 2 (w - 1)). lia.
Qed.

Lemma int32_id z : (- 2 ^ 31 <= z < 2 ^ 31)%Z -> int32 z = z.
Proof. intros; apply wrap_s_id; [lia | exact H]. Qed.
Lemma int64_id z : (- 2 ^ 63 <= z < 2 ^ 63)%Z -> int64 z = z.
Proof. intros; apply wrap_s_id; [lia | exact H]. Qed.

(** Wrapped integers are equal when they agree modulo the width. *)
Lemma wrap_s_eq w a b : (0 < w)%Z -> (a mod 2 ^ w = b mod 2 ^ w)%Z -> wrap_s w a = wrap_s w b.
Proof.
  intros Hw H. unfold wrap_s. f_equal.
  by rewrite (Zplus_mod a), (Zplus_mod b), H.
Qed.
Lemma wrap_s_mod w z : (0 < w)%Z -> (wrap_s w z mod 2 ^ w = z mod 2 ^ w)%Z.
Proof.
  intros Hw. unfold wrap_s. rewrite Zminus_mod_idemp_l. f_equal. lia.
Qed.
(** Narrowing a wider wrapped integer. *)
Lemma wrap_s_narrow v w z : (0 < v <= w)%Z -> wrap_s v (wrap_s w z) = wrap_s v z.
Proof.
  intros H. apply wrap_s_eq; [lia|].
  assert ((2 ^ w) = (2 ^ (w - v)) * 2 ^ v)%Z as E
    by (rewrite <- Z.pow_add_r by lia; f_equal; lia).
  assert (forall x, x mod 2 ^ v = (x mod 2 ^ w) mod 2 ^ v)%Z as Hm.
  { intros x. rewrite Z.mod_mod_divide; [done|]. exists (2 ^ (w - v))%Z. lia. }
  by rewrite (Hm (wrap_s w z)), wrap_s_mod, <- Hm by lia.
Qed.
Lemma wrap_s_add w a b : (0 < w)%Z -> wrap_s w (wrap_s w a + wrap_s w b) = wrap_s w (a + b).
Proof.
  intros Hw. apply wrap_s_eq; [done|].
  by rewrite Zplus_mod, !wrap_s_mod, <- Zplus_mod by done.
Qed.

(** * IEEE binary64, Go's [float64], as the executable specification of the
      Standard Library. *)

Definition float64 : Type := spec_float.
Definition f64_zero : float64 := S754_zero false.
Definition f64_add : float64 -> float64 -> float64 := SFadd 53 1024.
Definition f64_of_Z (z : Z) : float64 := binary_normalize 53 1024 z 0 false.
Definition f64_eqb : float64 -> float64 -> bool := SFeqb.
Definition f64_leb : float64 -> float64 -> bool := SFleb.
Definition f64_sub : float64 -> float64 -> float64 := SFsub 53 1024.
Definition f64_mul : float64 -> float64 -> float64 := SFmul 53 1024.
Definition f64_div : float64 -> float64 -> float64 := SFdiv 53 1024.
Definition f64_ltb : float64 -> float64 -> bool := SFltb.
(** [math.Round]: half away from zero. *)
Definition f64_round (x : float64) : float64 :=
  match x with
  | S754_finite s m e =>
      if (0 <=? e)%Z then x
      else
        let q := Z.div (Z.pos m + Z.pow 2 (- e - 1)) (Z.pow 2 (- e)) in
        if (q =? 0)%Z then S754_zero s
        else binary_normalize 53 1024 (if s then - q else q) 0 s
  | _ => x
  end.
(** [x != 0]: also true of a NaN, as in Go. *)
Definition f64_nonzero (x : float64) : bool := negb (f64_eqb x f64_zero).

(** * Go strings and byte slices: lists of bytes *)

Abbreviation bytes := (list ascii).
Definition str : string -> bytes := String.list_ascii_of_string.

Definition byteZ (c : ascii) : Z := Z.of_N (N_of_ascii c).

(** [x ^ y] of bytes. *)
Definition xor_byte (a b : ascii) : ascii :=
  let '(Ascii a0 a1 a2 a3 a4 a5 a6 a7) := a in
  let '(Ascii b0 b1 b2 b3 b4 b5 b6 b7) := b in
  Ascii (xorb a0 b0) (xorb a1 b1) (xorb a2 b2) (xorb a3 b3) (xorb a4 b4) (xorb a5 b5) (xorb a6 b6) (xorb a7 b7).
Lemma xor_byte_invol x k : xor_byte (xor_byte x k) k = x.
Proof. destruct x, k. simpl. by rewrite !xorb_assoc, !xorb_nilpotent, !xorb_false_r. Qed.

(** [s[i]]: out of range is a run-time panic. *)
Definition index_ {A} (s : list A) (i : nat) : res A :=
  match s !! i with Some c => Ret c | None => Panic end.

(** [s[lo:hi]] of a string: panics unless [lo <= hi <= len(s)]. *)
Definition slice {A} (s : list A) (lo hi : nat) : res (list A) :=
  if decide (lo <= hi <= length s) then Ret (take (hi - lo) (drop lo s)) else Panic.

Definition nonempty {A} (s : list A) : bool := match s with [] => false | _ => true end.

(** [strings.HasPrefix], [strings.HasSuffix], [strings.Index]. *)
Fixpoint HasPrefix (s p : bytes) {struct p} : bool :=
  match p, s with
  | [], _ => true
  | a :: p, b :: s => bool_decide (a = b) && HasPrefix s p
  | _ :: _, [] => false
  end.
Definition HasSuffix (s p : bytes) : bool := HasPrefix (rev s) (rev p).
Fixpoint Index (s p : bytes) : option nat :=
  if HasPrefix s p then Some 0
  else match s with [] => None | _ :: s => S <$> Index s p end.
Definition Contains (s p : bytes) : bool := bool_decide (is_Some (Index s p)).

Lemma HasPrefix_spec s p : HasPrefix s p = true <-> exists t, s = p ++ t.
Proof.
  revert s; induction p as [|a p IH]; intros s; simpl.
  { split; eauto. }
  destruct s as [|b s]; simpl.
  - split; [done|]. intros [t Ht]; discriminate.
  - rewrite andb_true_iff, bool_decide_eq_true, IH. split.
    + intros [-> [t ->]]; eauto.
    + intros [t Ht]; simplify_eq; eauto.
Qed.

Lemma HasSuffix_spec s p : HasSuffix s p = true <-> exists t, s = t ++ p.
Proof.
  unfold HasSuffix. rewrite HasPrefix_spec. split; intros [t Ht].
  - exists (rev t). by rewrite <- (rev_involutive s), Ht, rev_app_distr, rev_involutive.
  - exists (rev t). by rewrite Ht, rev_app_distr.
Qed.

Lemma Index_Some s p i :
  Index s p = Some i -> i + length p <= length s /\ HasPrefix (drop i s) p = true.
Proof.
  revert i; induction s as [|b s IH]; intros i; simpl.
  - destruct (HasPrefix [] p) eqn:E; [|done]. intros [= <-]. apply HasPrefix_spec in E as [t Ht].
    destruct p; simplify_eq/=. split; [lia|done].
  - destruct (HasPrefix (b :: s) p) eqn:E.
    + intros [= <-]. split; [|done]. apply HasPrefix_spec in E as [t Ht].
      change (S (length s)) with (length (b :: s)). rewrite Ht, length_app. lia.
    + destruct (Index s p) as [j|]; simpl; [|done]. intros [= <-].
      destruct (IH j eq_refl). split; [lia|done].
Qed.

(** ASCII lower/upper case, the fragment of [strings.ToLower] and
    [strings.ToUpper] that acts on single bytes. *)
Definition is_upper (c : ascii) : bool := (65 <=? byteZ c)%Z && (byteZ c <=? 90)%Z.
Definition is_lower (c : ascii) : bool := (97 <=? byteZ c)%Z && (byteZ c <=? 122)%Z.
Definition to_lower (c : ascii) : ascii :=
  if is_upper c then ascii_of_N (N_of_ascii c + 32) else c.
Definition to_upper (c : ascii) : ascii :=
  if is_lower c then ascii_of_N (N_of_ascii c - 32) else c.

Definition is_ascii (c : ascii) : bool := (byteZ c <? 128)%Z.

(** [sort.Strings]: the order of the bytes. *)
Fixpoint bytes_leb (s t : bytes) : bool :=
  match s, t with
  | [], _ => true
  | _ :: _, [] => false
  | a :: s, b :: t => (byteZ a <? byteZ b)%Z || (bool_decide (a = b) && bytes_leb s t)
  end.
Definition bytes_le (s t : bytes) : Prop := bytes_leb s t = true.
#[export] Instance bytes_le_dec : RelDecision bytes_le.
Proof. intros s t. apply bool_eq_dec. Defined.

(** [strings.TrimSpace] on the ASCII white space bytes. *)
Definition is_space (c : ascii) : bool :=
  bool_decide (byteZ c = 32)%Z || ((9 <=? byteZ c)%Z && (byteZ c <=? 13)%Z).
Fixpoint trim_left (s : bytes) : bytes :=
  match s with [] => [] | c :: s' => if is_space c then trim_left s' else s end.
Definition TrimSpace (s : bytes) : bytes := rev (trim_left (rev (trim_left s))).

(** [strings.Join]. *)
Fixpoint Join (xs : list bytes) (sep : bytes) : bytes :=
  match xs with [] => [] | [x] => x | x :: xs => x ++ sep ++ Join xs sep end.

(** [strconv.FormatInt(z, 10)]. *)
Definition FormatInt (z : Z) : bytes := str (pretty z).

(** * Lists *)

Lemma drop_lookup_cons {A} (l : list A) i x k :
  drop i l = x :: k -> l !! i = Some x /\ drop (S i) l = k.
Proof.
  intros H. split.
  - rewrite <- (Nat.add_0_r i), <- lookup_drop. by rewrite H.
  - replace (S i) with (i + 1) by lia. by rewrite <- drop_drop, H.
Qed.

Lemma lookup_drop_cons {A} (l : list A) i x :
  l !! i = Some x -> drop i l = x :: drop (S i) l.
Proof. intros H. by apply drop_S. Qed.

Lemma drop_nil_length {A} (l : list A) i : drop i l = [] -> length l <= i.
Proof. intros H. apply (f_equal length) in H. rewrite length_drop in H. simpl in H. lia. Qed.

(** [for i := 0; i < n; i++ { out[i] = xs[x+i] }] *)
Lemma index_range {A} (xs : list A) x n :
  x + n <= length xs ->
  mapM (fun i => index_ xs (x + i)) (seq 0 n) = Ret (take n (drop x xs)).
Proof.
  intros Hx. assert (forall k, k + n <= length (drop x xs) ->
    mapM (fun i => index_ xs (x + i)) (seq k n) = Ret (take n (drop k (drop x xs)))) as Hk.
  { clear Hx. induction n as [|n IH]; intros k Hk; [done|].
    cbn [seq mapM]. destruct (lookup_lt_is_Some_2 (drop x xs) k) as [l Hlk]; [lia|].
    assert (index_ xs (x + k) = Ret l) as -> by (unfold index_; by rewrite <- lookup_drop, Hlk).
    simpl. rewrite IH by lia. simpl. by rewrite (drop_S _ _ _ Hlk). }
  rewrite Hk; [by rewrite drop_0|]. rewrite length_drop. lia.
Qed.

Lemma Sorted_weaken {A} (R Q : relation A) l :
  (forall x y, R x y -> Q x y) -> Sorted R l -> Sorted Q l.
Proof.
  intros H; induction 1 as [|x l Hl IH Hh]; constructor; [done|].
  destruct Hh; constructor; auto.
Qed.

(** The sum of the values of a map. *)
Definition map_sum `{Countable K} (m : gmap K Z) : Z := map_fold (fun _ v n => (v + n)%Z) 0%Z m.
Lemma map_sum_empty `{Countable K} : map_sum (∅ : gmap K Z) = 0%Z.
Proof. apply map_fold_empty. Qed.
Lemma map_sum_insert `{Countable K} (m : gmap K Z) k v :
  map_sum (<[k := v]> m) = (map_sum m - default 0%Z (m !! k) + v)%Z.
Proof.
  assert (forall m : gmap K Z, m !! k = None -> map_sum (<[k := v]> m) = (v + map_sum m)%Z) as H1.
  { intros m' Hn. unfold map_sum. rewrite map_fold_insert_L; [done|intros; lia|done]. }
  destruct (m !! k) as [w|] eqn:E; simpl; [|rewrite H1 by done; lia].
  assert (map_sum m = (w + map_sum (delete k m))%Z) as ->.
  { unfold map_sum. by rewrite (map_fold_delete_L _ _ k w m); [|intros; lia|]. }
  rewrite <- insert_delete_eq, H1 by apply lookup_delete_eq. lia.
Qed.

(** * Automation shared by the components *)

Create HintDb go discriminated.
#[export] Hint Resolve wrap_s_range : go.
#[export] Hint Extern 4 (_ <= _)%Z => lia : go.
#[export] Hint Extern 4 (_ < _)%Z => lia : go.
#[export] Hint Extern 4 (_ <= _)%nat => lia : go.
#[export] Hint Extern 4 (_ < _)%nat => lia : go.

(** Invert every [m ≫= f = Ret b] of the context. *)
Ltac inv_bind :=
  repeat match goal with
  | H : _ ≫= _ = Ret _ |- _ =>
      let a := fresh "a" in let Ha := fresh "Ha" in
      apply bind_ret_inv in H as (a & Ha & H)
  | H : Ret _ = Ret _ |- _ => injection H as H; subst
  | H : mret _ = Ret _ |- _ => injection H as H; subst
  end.

(** Split on the tests of an [if] or [match] in the goal and simplify. *)
Ltac cases :=
  repeat (case_match; simplify_eq/=; try done).
