(* ===== verification/EscapeSQL.v ===== *)
(** The SQL literal escaper, [src/agent/util/sqlutil/EscapeLiteralSQL.go]: a
    byte-at-a-time state machine that splits a statement into a normalised text
    ([parsedSql], literals replaced by a substitute) and the literals
    ([param]).  The record [t] is the Go struct; every handler of the Go type
    is a definition of the same name. *)

From S2P Require Import Prelude.

Module EscapeLiteralSQL.

(** The seven constants of the source, and the zero value a fresh struct has
    before [Process] sets [NORMAL]. *)
Inductive status_t :=
| UNSET | NORMAL | COMMENT | ALPABET | NUMBER | QUTATION | COLON | DQUTATION.
#[export] Instance status_eq_dec : EqDecision status_t.
Proof. solve_decision. Defined.

Record t := mk {
  substitute : bytes;
  substitute_num : bytes;
  substitute_str_mode : bool;
  sql : bytes;
  pos : nat;
  len_ : nat;
  parsedSql : bytes;
  param : bytes;
  status : status_t;
  SqlType : ascii;
  inclueComment : bool
}.

Definition NewEscapeLiteralSQL (sql : bytes) : t :=
  mk (str "#") (str "#") false sql 0 (length sql) [] [] UNSET "000" true.

(** ** Field updates *)

Definition emit (e : t) (b : bytes) : t :=
  mk (substitute e) (substitute_num e) (substitute_str_mode e) (sql e) (pos e) (len_ e)
     (parsedSql e ++ b) (param e) (status e) (SqlType e) (inclueComment e).
Definition to_param (e : t) (b : bytes) : t :=
  mk (substitute e) (substitute_num e) (substitute_str_mode e) (sql e) (pos e) (len_ e)
     (parsedSql e) (param e ++ b) (status e) (SqlType e) (inclueComment e).
Definition goto (e : t) (s : status_t) : t :=
  mk (substitute e) (substitute_num e) (substitute_str_mode e) (sql e) (pos e) (len_ e)
     (parsedSql e) (param e) s (SqlType e) (inclueComment e).
Definition set_pos (e : t) (p : nat) : t :=
  mk (substitute e) (substitute_num e) (substitute_str_mode e) (sql e) p (len_ e)
     (parsedSql e) (param e) (status e) (SqlType e) (inclueComment e).
Definition set_type (e : t) (c : ascii) : t :=
  mk (substitute e) (substitute_num e) (substitute_str_mode e) (sql e) (pos e) (len_ e)
     (parsedSql e) (param e) (status e) c (inclueComment e).
(** [this.pos++] *)
Definition adv (e : t) : t := set_pos e (S (pos e)).

Definition set_substitutes (e : t) (m : bool) (s n : bytes) : t :=
  mk s n m (sql e) (pos e) (len_ e) (parsedSql e) (param e) (status e) (SqlType e)
     (inclueComment e).

Definition Setsubstitute (e : t) (chr : bytes) : t :=
  if substitute_str_mode e
  then set_substitutes e true chr (str "'" ++ chr ++ str "'")
  else set_substitutes e false chr chr.

Definition SetSubstituteStringMode (e : t) (b : bool) : t :=
  if bool_decide (substitute_str_mode e = b) then e
  else if b
  then set_substitutes e b (substitute e) (str "'" ++ substitute e ++ str "'")
  else set_substitutes e b (substitute e) (substitute e).

Definition SetIncludeComment (e : t) (b : bool) : t :=
  mk (substitute e) (substitute_num e) (substitute_str_mode e) (sql e) (pos e) (len_ e)
     (parsedSql e) (param e) (status e) (SqlType e) b.

(** ** Reading the statement *)

(** [this.sql[this.pos]] *)
Definition cur (e : t) : res ascii := index_ (sql e) (pos e).

Definition getNext (e : t) (x : nat) : res ascii :=
  if (Z.of_nat x <? Z.of_nat (len_ e) - 1)%Z then index_ (sql e) (x + 1) else Ret "000"%char.

Definition isProgLetter (ch : ascii) : bool :=
  is_upper ch || is_lower ch || bool_decide (ch = "_"%char).

Definition define_crud (e : t) : res t :=
  c ← cur e;
  let ty := to_upper c in
  if bool_decide (ty ∈ ["S"; "U"; "D"; "I"]%char) then Ret (set_type e ty)
  else Ret (set_type e "*").

(** ** The handlers, one per class of byte *)

Definition in_comment (e : t) (c : ascii) : t :=
  if inclueComment e then emit e [c] else e.

Definition _others (e : t) : res t :=
  c ← cur e;
  match status e with
  | COMMENT => Ret (in_comment e c)
  | ALPABET =>
      let e := emit e [c] in
      Ret (if isProgLetter c then e else goto e NORMAL)
  | NUMBER => Ret (goto (emit e [c]) NORMAL)
  | QUTATION | DQUTATION => Ret (to_param e [c])
  | _ =>
      e ← (if isProgLetter c
           then let e := goto e ALPABET in
                if bool_decide (SqlType e = "000"%char) then define_crud e else Ret e
           else Ret (goto e NORMAL));
      Ret (emit e [c])
  end.

Definition _colon (e : t) : res t :=
  c ← cur e;
  match status e with
  | COMMENT => Ret (in_comment e c)
  | QUTATION | DQUTATION => Ret (to_param e [c])
  | _ => Ret (goto (emit e [c]) COLON)
  end.

(** [if this.param.Len() > 0 { this.param.WriteByte(',') }] *)
Definition param_comma (e : t) : t :=
  if nonempty (param e) then to_param e [","%char] else e.

Definition _qutation (e : t) : res t :=
  c ← cur e;
  match status e with
  | NORMAL => Ret (goto (to_param (param_comma e) [c]) QUTATION)
  | COMMENT => Ret (in_comment e c)
  | ALPABET | NUMBER => Ret (goto (emit e [c]) QUTATION)
  | QUTATION =>
      n ← getNext e (pos e);
      if bool_decide (n = "'"%char)
      then Ret (adv (to_param (to_param e ["'"%char]) ["'"%char]))
      else
        let e := to_param e ["'"%char] in
        let e := emit (emit (emit e ["'"%char]) (substitute e)) ["'"%char] in
        Ret (goto e NORMAL)
  | DQUTATION => Ret (to_param e [c])
  | UNSET | COLON => Ret e
  end.

Definition _dqutation (e : t) : res t :=
  c ← cur e;
  match status e with
  | NORMAL => Ret (goto (to_param (param_comma e) [c]) DQUTATION)
  | COMMENT => Ret (in_comment e c)
  | ALPABET | NUMBER => Ret (goto (emit e [c]) DQUTATION)
  | QUTATION => Ret (to_param e [c])
  | DQUTATION =>
      let e := to_param e ["034"%char] in
      Ret (goto (emit e (substitute e)) NORMAL)
  | UNSET | COLON => Ret e
  end.

Definition _astar (e : t) : res t :=
  c ← cur e;
  match status e with
  | COMMENT =>
      let e := in_comment e c in
      n ← getNext e (pos e);
      if bool_decide (n = "/"%char)
      then Ret (goto (adv (in_comment e "/")) NORMAL)
      else Ret e
  | QUTATION | DQUTATION => Ret (to_param e [c])
  | _ => Ret (goto (emit e [c]) NORMAL)
  end.

Definition _slash (e : t) : res t :=
  c ← cur e;
  match status e with
  | COMMENT => Ret (in_comment e c)
  | QUTATION | DQUTATION => Ret (to_param e [c])
  | _ =>
      n ← getNext e (pos e);
      if bool_decide (n = "*"%char)
      then Ret (goto (adv (in_comment (in_comment e c) "*")) COMMENT)
      else Ret e
  end.

Definition _backslash (e : t) : res t :=
  c ← cur e;
  match status e with
  | COMMENT => Ret (in_comment e c)
  | QUTATION | DQUTATION =>
      n ← getNext e (pos e);
      if bool_decide (n = "000"%char) then Ret e
      else let e := to_param (adv e) ["\"%char] in
           c ← cur e; Ret (to_param e [c])
  | _ =>
      n ← getNext e (pos e);
      if bool_decide (n = "000"%char) then Ret e
      else
        n ← index_ (sql e) (pos e + 1);
        if bool_decide (n = "'"%char) then Ret (goto (to_param (adv e) ["'"%char]) QUTATION)
        else if bool_decide (n = "034"%char)
        then Ret (goto (to_param (adv e) ["034"%char]) DQUTATION)
        else let e := adv e in c ← cur e; Ret (emit e [c])
  end.

(** The line-comment loop of [_minus]; [fuel] bounds the bytes left. *)
Fixpoint minus_loop (fuel : nat) (e : t) : res t :=
  c ← cur e;
  if bool_decide (c = "010"%char) then Ret e
  else
    let e := adv e in
    if bool_decide (pos e < len_ e) then
      e ← (if inclueComment e then c ← cur e; Ret (emit e [c]) else Ret e);
      match fuel with 0 => OutOfFuel | S fuel => minus_loop fuel e end
    else Ret e.

Definition _minus (e : t) : res t :=
  c ← cur e;
  match status e with
  | COMMENT => Ret (in_comment e c)
  | QUTATION | DQUTATION => Ret (to_param e [c])
  | _ =>
      n ← getNext e (pos e);
      e ← (if bool_decide (n = "-"%char) then minus_loop (len_ e) (in_comment e c)
           else Ret (emit e [c]));
      Ret (goto e NORMAL)
  end.

Definition _dot (e : t) : res t :=
  c ← cur e;
  match status e with
  | NORMAL => Ret (emit e [c])
  | COMMENT => Ret (in_comment e c)
  | ALPABET => Ret (goto (emit e [c]) NORMAL)
  | NUMBER | QUTATION | DQUTATION => Ret (to_param e [c])
  | UNSET | COLON => Ret e
  end.

Definition _number (e : t) : res t :=
  c ← cur e;
  match status e with
  | NORMAL =>
      let e := to_param (param_comma e) [c] in
      Ret (goto (emit e (substitute_num e)) NUMBER)
  | COMMENT => Ret (in_comment e c)
  | COLON | ALPABET => Ret (emit e [c])
  | NUMBER | QUTATION | DQUTATION => Ret (to_param e [c])
  | UNSET => Ret e
  end.

(** ** The driver *)

(** [config.GetConfig().AppType] against the two PHP application types of
    golib's [lang] package, which is not part of the repository. *)
Record AppConf := { AppType : Z; APP_TYPE_PHP : Z; APP_TYPE_BSM_PHP : Z }.
Definition php (a : AppConf) : bool :=
  (AppType a =? APP_TYPE_PHP a)%Z || (AppType a =? APP_TYPE_BSM_PHP a)%Z.

Definition is_digit (c : ascii) : bool := (48 <=? byteZ c)%Z && (byteZ c <=? 57)%Z.

(** The [switch] of [Process]. *)
Definition dispatch (a : AppConf) (e : t) : res t :=
  c ← cur e;
  if is_digit c then _number e
  else if bool_decide (c = ":"%char) then _colon e
  else if bool_decide (c = "."%char) then _dot e
  else if bool_decide (c = "-"%char) then _minus e
  else if bool_decide (c = "/"%char) then _slash e
  else if bool_decide (c = "*"%char) then _astar e
  else if bool_decide (c = "'"%char) then _qutation e
  else if bool_decide (c = "\"%char) then (if php a then _backslash e else _others e)
  else if bool_decide (c = "034"%char) then (if php a then _dqutation e else _others e)
  else _others e.

(** [for ; this.pos < this.length; this.pos++] *)
Fixpoint loop (fuel : nat) (a : AppConf) (e : t) : res t :=
  if bool_decide (pos e < len_ e) then
    match fuel with
    | 0 => OutOfFuel
    | S fuel => e ← dispatch a e; loop fuel a (adv e)
    end
  else Ret e.

Definition Process (a : AppConf) (e : t) : res t :=
  let e := set_pos (goto e NORMAL) 0 in
  loop (len_ e) a e.

Definition GetParsedSql (e : t) : bytes := parsedSql e.
Definition GetParameter (e : t) : bytes := param e.

End EscapeLiteralSQL.
