(* ===== verification/EscapeSQLFacts.v ===== *)
(** Correctness of the SQL literal escaper: it always terminates without an
    index panic, and its normalised text does not depend on the contents of
    the literals of the statement. *)

From S2P Require Import Prelude EscapeSQL.
Import EscapeLiteralSQL.

(** * Termination and absence of panics *)

(** What every handler guarantees: it returns, leaves the statement alone and
    never moves the cursor back. *)
Definition steps_to (e e' : t) : Prop :=
  sql e' = sql e /\ len_ e' = len_ e /\ pos e <= pos e'.
Definition safe_step (e : t) (m : res t) : Prop :=
  exists e', m = Ret e' /\ steps_to e e'.

Definition wf (e : t) : Prop := len_ e = length (sql e).

Lemma wf_steps e e' : wf e -> steps_to e e' -> wf e'.
Proof. unfold wf, steps_to. intros H (-> & -> & _); done. Qed.

Lemma safe_ret e e' : steps_to e e' -> safe_step e (Ret e').
Proof. intros; eexists; eauto. Qed.

Lemma safe_trans e e' m : steps_to e e' -> safe_step e' m -> safe_step e m.
Proof.
  intros (Hs & Hl & Hp) (e'' & -> & Hs' & Hl' & Hp').
  exists e''. split; [done|]. repeat split; [congruence..|lia].
Qed.

Lemma safe_bind e m f :
  safe_step e m -> (forall e', m = Ret e' -> steps_to e e' -> safe_step e (f e')) ->
  safe_step e (m ≫= f).
Proof. intros (e' & -> & Hs) Hf. simpl. by apply Hf. Qed.

Lemma cur_ret e : wf e -> pos e < len_ e -> exists c, cur e = Ret c.
Proof.
  unfold wf, cur, index_. intros Hw Hp.
  destruct (lookup_lt_is_Some_2 (sql e) (pos e)) as [c ->]; [lia|eauto].
Qed.

Lemma getNext_ret e x : wf e -> exists c, getNext e x = Ret c /\ (c <> "000"%char -> x + 1 < len_ e).
Proof.
  unfold wf, getNext, index_. intros Hw.
  destruct (Z.ltb_spec (Z.of_nat x) (Z.of_nat (len_ e) - 1)).
  - destruct (lookup_lt_is_Some_2 (sql e) (x + 1)) as [c ->]; [lia|].
    exists c; split; [done|lia].
  - exists "000"%char; split; done.
Qed.

Lemma steps_to_spec e e' :
  sql e' = sql e -> len_ e' = len_ e -> pos e <= pos e' -> steps_to e e'.
Proof. by repeat split. Qed.

Ltac by_incl := unfold in_comment; by destruct (inclueComment _).

Lemma in_comment_pos e c : pos (in_comment e c) = pos e.
Proof. by_incl. Qed.
Lemma in_comment_sql e c : sql (in_comment e c) = sql e.
Proof. by_incl. Qed.
Lemma in_comment_len e c : len_ (in_comment e c) = len_ e.
Proof. by_incl. Qed.
Lemma in_comment_steps e c : steps_to e (in_comment e c).
Proof. apply steps_to_spec; by rewrite ?in_comment_sql, ?in_comment_len, ?in_comment_pos. Qed.

Ltac wf_tac := unfold wf in *; simpl in *; lia.
Ltac read_cur :=
  match goal with
  | |- context [cur ?e] =>
      let c := fresh "c" in let Hc := fresh "Hc" in
      destruct (cur_ret e) as [c Hc]; [wf_tac..|]; rewrite Hc; simpl
  end.
Ltac read_next :=
  match goal with
  | |- context [getNext ?e ?x] =>
      let n := fresh "n" in let Hn := fresh "Hn" in let Hl := fresh "Hl" in
      destruct (getNext_ret e x) as (n & Hn & Hl); [wf_tac|]; rewrite Hn; simpl
  end.
(** A handler that only writes, moves the cursor by a constant and returns. *)
Ltac safe :=
  unfold in_comment, param_comma;
  repeat first [ case_match; simpl | progress read_next ];
  try (apply safe_ret, steps_to_spec; simpl; first [done | lia]).

Section Safety.
Context (e : t) (Hwf : wf e) (Hpos : pos e < len_ e).

Lemma others_safe : safe_step e (_others e).
Proof. unfold _others, define_crud. change (cur (goto e ALPABET)) with (cur e). read_cur. safe. Qed.
Lemma colon_safe : safe_step e (_colon e).
Proof. unfold _colon. read_cur. safe. Qed.
Lemma qutation_safe : safe_step e (_qutation e).
Proof. unfold _qutation. read_cur. safe. Qed.
Lemma dqutation_safe : safe_step e (_dqutation e).
Proof. unfold _dqutation. read_cur. safe. Qed.
Lemma astar_safe : safe_step e (_astar e).
Proof. unfold _astar. read_cur. safe. Qed.
Lemma slash_safe : safe_step e (_slash e).
Proof. unfold _slash. read_cur. safe. Qed.
Lemma dot_safe : safe_step e (_dot e).
Proof. unfold _dot. read_cur. safe. Qed.
Lemma number_safe : safe_step e (_number e).
Proof. unfold _number. read_cur. safe. Qed.

Lemma index_next c : getNext e (pos e) = Ret c -> c <> "000"%char -> index_ (sql e) (pos e + 1) = Ret c.
Proof. unfold getNext. case_match; intros; simplify_eq; done. Qed.

Lemma cur_adv_next (f : t -> t) c :
  (forall e, sql (f e) = sql e /\ pos (f e) = pos e) ->
  getNext e (pos e) = Ret c -> c <> "000"%char -> cur (f (adv e)) = Ret c.
Proof.
  intros Hf Hn Hc. unfold cur. destruct (Hf (adv e)) as [-> ->]; simpl.
  rewrite <- Nat.add_1_r. by apply index_next.
Qed.

Lemma backslash_safe : safe_step e (_backslash e).
Proof.
  unfold _backslash. read_cur.
  assert (forall c0, getNext e (pos e) = Ret c0 -> c0 <> "000"%char ->
            cur (adv e) = Ret c0 /\ cur (to_param (adv e) ["\"%char]) = Ret c0) as Hadv.
  { intros c0 Hn0 Hc0. split.
    - by apply (cur_adv_next (fun e => e)).
    - by apply (cur_adv_next (fun e => to_param e ["\"%char])). }
  destruct (getNext_ret e (pos e) Hwf) as (n & Hn & Hl); rewrite Hn; simpl.
  destruct (bool_decide_reflect (n = "000"%char)) as [|Hz]; [safe|].
  destruct (Hadv n Hn Hz) as [H1 H2]. rewrite (index_next n Hn Hz); simpl.
  rewrite H1; simpl. safe; rewrite H2; simpl; safe.
Qed.

End Safety.

Lemma minus_loop_safe fuel e :
  wf e -> pos e < len_ e -> len_ e <= fuel + pos e -> safe_step e (minus_loop fuel e).
Proof.
  revert e; induction fuel as [|fuel IH]; intros e Hw Hp Hf; [lia|]. simpl.
  read_cur. case_bool_decide as Hnl; [safe|].
  case_bool_decide as Hlt; [|safe].
  destruct (inclueComment e) eqn:Hi.
  - read_cur. eapply safe_trans; [|apply IH]; [apply steps_to_spec|..];
      unfold wf in *; simpl in *; first [done | lia].
  - simpl. eapply safe_trans; [|apply IH]; [apply steps_to_spec|..];
      unfold wf in *; simpl in *; first [done | lia].
Qed.

Lemma minus_safe e : wf e -> pos e < len_ e -> safe_step e (_minus e).
Proof.
  intros Hw Hp. unfold _minus. read_cur.
  assert (safe_step e
    (n ← getNext e (pos e);
     e ← (if bool_decide (n = "-"%char) then minus_loop (len_ e) (in_comment e c)
          else Ret (emit e [c]));
     Ret (goto e NORMAL))) as Hd.
  { read_next. case_bool_decide.
    - eapply safe_bind with (m := minus_loop _ _).
      + eapply safe_trans; [apply in_comment_steps|].
        apply minus_loop_safe; unfold wf in *; rewrite ?in_comment_sql, ?in_comment_len, ?in_comment_pos; lia.
      + intros e' _ Hs. apply safe_ret. destruct Hs as (?&?&?); by apply steps_to_spec.
    - safe. }
  destruct (status e); first [exact Hd | safe].
Qed.

Lemma dispatch_safe a e : wf e -> pos e < len_ e -> safe_step e (dispatch a e).
Proof.
  intros Hw Hp. unfold dispatch. read_cur.
  repeat case_match; auto using others_safe, colon_safe, qutation_safe, dqutation_safe,
    astar_safe, slash_safe, dot_safe, number_safe, backslash_safe, minus_safe.
Qed.

Lemma loop_safe fuel a e : wf e -> len_ e <= fuel + pos e -> safe_step e (loop fuel a e).
Proof.
  revert e; induction fuel as [|fuel IH]; intros e Hw Hf; simpl;
    case_bool_decide; try (apply safe_ret, steps_to_spec; done); [lia|].
  destruct (dispatch_safe a e) as (e' & He' & Hs); [done..|]. rewrite He'; simpl.
  pose proof (wf_steps _ _ Hw Hs) as Hw'. destruct Hs as (Hsq & Hl & Hpp).
  eapply safe_trans; [|apply IH].
  - apply steps_to_spec; simpl; [done..|lia].
  - exact Hw'.
  - simpl. lia.
Qed.

(** * The normalised text does not depend on what goes to [param]

    Two states agree when they have the same text output and options and the
    same bytes still to read; what is behind the cursor and what was written to
    [param] are unconstrained. *)

Record agree (e1 e2 : t) : Prop := {
  ag_status : status e1 = status e2;
  ag_parsed : parsedSql e1 = parsedSql e2;
  ag_type : SqlType e1 = SqlType e2;
  ag_sub : substitute e1 = substitute e2;
  ag_num : substitute_num e1 = substitute_num e2;
  ag_incl : inclueComment e1 = inclueComment e2;
  ag_wf1 : wf e1;
  ag_wf2 : wf e2;
  ag_rest : drop (pos e1) (sql e1) = drop (pos e2) (sql e2)
}.

Create HintDb esql discriminated.

Lemma index_drop {A} (s : list A) i : index_ s i = index_ (drop i s) 0.
Proof. unfold index_. by rewrite lookup_drop, Nat.add_0_r. Qed.

Section Agree.
Context (e1 e2 : t) (H : agree e1 e2).

Lemma agree_cur : cur e1 = cur e2.
Proof. unfold cur. rewrite index_drop, (ag_rest _ _ H), <- index_drop. done. Qed.

Lemma agree_len : len_ e1 - pos e1 = len_ e2 - pos e2.
Proof.
  destruct H as [_ _ _ _ _ _ W1 W2 R]. unfold wf in *.
  apply (f_equal length) in R. rewrite !length_drop in R. lia.
Qed.

Lemma agree_next : getNext e1 (pos e1) = getNext e2 (pos e2).
Proof.
  pose proof agree_len as L. unfold getNext.
  destruct (Z.ltb_spec (Z.of_nat (pos e1)) (Z.of_nat (len_ e1) - 1));
    destruct (Z.ltb_spec (Z.of_nat (pos e2)) (Z.of_nat (len_ e2) - 1)); try lia; [|done].
  rewrite (index_drop (sql e1)), (index_drop (sql e2)), <- !drop_drop.
  by rewrite (ag_rest _ _ H).
Qed.

Lemma agree_index1 : index_ (sql e1) (pos e1 + 1) = index_ (sql e2) (pos e2 + 1).
Proof.
  rewrite (index_drop (sql e1)), (index_drop (sql e2)), <- !drop_drop.
  by rewrite (ag_rest _ _ H).
Qed.

Lemma agree_lt : bool_decide (pos e1 < len_ e1) = bool_decide (pos e2 < len_ e2).
Proof. pose proof agree_len. apply bool_decide_ext. lia. Qed.

Lemma agree_emit b : agree (emit e1 b) (emit e2 b).
Proof. destruct H; constructor; simpl; try done. by f_equal. Qed.
Lemma agree_param b1 b2 : agree (to_param e1 b1) (to_param e2 b2).
Proof. destruct H; constructor; simpl; done. Qed.
Lemma agree_goto s : agree (goto e1 s) (goto e2 s).
Proof. destruct H; constructor; simpl; done. Qed.
Lemma agree_type c : agree (set_type e1 c) (set_type e2 c).
Proof. destruct H; constructor; simpl; done. Qed.
Lemma agree_adv : agree (adv e1) (adv e2).
Proof.
  destruct H; constructor; simpl; try done.
  rewrite <- (Nat.add_1_r (pos e1)), <- (Nat.add_1_r (pos e2)), <- !drop_drop. by f_equal.
Qed.
End Agree.
#[export] Hint Resolve agree_emit agree_param agree_goto agree_type agree_adv : esql.

Lemma agree_in_comment e1 e2 c : agree e1 e2 -> agree (in_comment e1 c) (in_comment e2 c).
Proof. intros H. unfold in_comment. rewrite (ag_incl _ _ H). case_match; auto with esql. Qed.
Lemma param_comma_num e : substitute_num (param_comma e) = substitute_num e.
Proof. unfold param_comma. by destruct (nonempty (param e)). Qed.
Lemma agree_param_comma e1 e2 : agree e1 e2 -> agree (param_comma e1) (param_comma e2).
Proof.
  intros H. unfold param_comma.
  destruct (nonempty (param e1)), (nonempty (param e2)); auto with esql;
    destruct H; by constructor.
Qed.
#[export] Hint Resolve agree_in_comment agree_param_comma : esql.
#[export] Hint Constructors res_rel : esql.

(** Rewrite every observation of the left state into one of the right state. *)
Ltac sync :=
  repeat match goal with
  | H : agree ?x ?y |- context [cur ?x] => rewrite (agree_cur x y H)
  | H : agree ?x ?y |- context [status ?x] => rewrite (ag_status x y H)
  | H : agree ?x ?y |- context [SqlType ?x] => rewrite (ag_type x y H)
  | H : agree ?x ?y |- context [substitute ?x] => rewrite (ag_sub x y H)
  | H : agree ?x ?y |- context [substitute_num ?x] => rewrite (ag_num x y H)
  | H : agree ?x ?y |- context [inclueComment ?x] => rewrite (ag_incl x y H)
  | H : agree ?x ?y |- context [getNext ?x (pos ?x)] => rewrite (agree_next x y H)
  | H : agree ?x ?y |- context [index_ (sql ?x) (pos ?x + 1)] => rewrite (agree_index1 x y H)
  end.
(** Derive the agreement of the states about to be read. *)
Ltac relate :=
  match goal with
  | |- res_rel _ (Ret _) (Ret _) => constructor; auto 10 with esql
  | |- res_rel _ Panic Panic => constructor
  | |- res_rel _ OutOfFuel OutOfFuel => constructor
  | |- res_rel _ (?m ≫= _) (?m ≫= _) => destruct m; simpl
  | |- res_rel _ (cur ?x ≫= _) (cur ?y ≫= _) =>
      let Hxy := fresh "Hxy" in
      assert (agree x y) as Hxy by (auto 10 with esql);
      rewrite (agree_cur x y Hxy); clear Hxy; destruct (cur y); simpl
  | |- res_rel _ (getNext ?x (pos ?x) ≫= _) (getNext ?y (pos ?y) ≫= _) =>
      let Hxy := fresh "Hxy" in
      assert (agree x y) as Hxy by (auto 10 with esql);
      rewrite (agree_next x y Hxy); clear Hxy; destruct (getNext y (pos y)); simpl
  | |- res_rel _ (match ?x with _ => _ end) (match ?x with _ => _ end) =>
      destruct x eqn:?; simpl
  end.

Lemma agree_define_crud e1 e2 :
  agree e1 e2 -> res_rel agree (define_crud e1) (define_crud e2).
Proof. intros H. unfold define_crud. repeat relate. Qed.

Section AgreeHandlers.
Context (e1 e2 : t) (H : agree e1 e2).

Lemma agree_others : res_rel agree (_others e1) (_others e2).
Proof.
  unfold _others. relate; [|by constructor..]. simpl. sync.
  assert (res_rel agree
    (e ← (if isProgLetter a then
            if bool_decide (SqlType e2 = "000"%char) then define_crud (goto e1 ALPABET)
            else Ret (goto e1 ALPABET) else Ret (goto e1 NORMAL)); Ret (emit e [a]))
    (e ← (if isProgLetter a then
            if bool_decide (SqlType e2 = "000"%char) then define_crud (goto e2 ALPABET)
            else Ret (goto e2 ALPABET) else Ret (goto e2 NORMAL)); Ret (emit e [a]))) as Hd.
  { apply (res_rel_bind agree).
    - repeat case_match; auto using agree_define_crud with esql.
    - intros; auto with esql. }
  destruct (status e2); simpl; try exact Hd; repeat case_match; auto with esql.
Qed.
Lemma agree_colon : res_rel agree (_colon e1) (_colon e2).
Proof. unfold _colon. relate; [|by constructor..]. sync. repeat relate. Qed.
Lemma agree_qutation : res_rel agree (_qutation e1) (_qutation e2).
Proof. unfold _qutation. relate; [|by constructor..]. simpl. sync. repeat relate. Qed.
Lemma agree_dqutation : res_rel agree (_dqutation e1) (_dqutation e2).
Proof. unfold _dqutation. relate; [|by constructor..]. simpl. sync. repeat relate. Qed.
Lemma agree_astar : res_rel agree (_astar e1) (_astar e2).
Proof. unfold _astar. relate; [|by constructor..]. sync. repeat relate. Qed.
Lemma agree_slash : res_rel agree (_slash e1) (_slash e2).
Proof. unfold _slash. relate; [|by constructor..]. sync. repeat relate. Qed.
Lemma agree_backslash : res_rel agree (_backslash e1) (_backslash e2).
Proof. unfold _backslash. relate; [|by constructor..]. sync. repeat relate. Qed.
Lemma agree_dot : res_rel agree (_dot e1) (_dot e2).
Proof. unfold _dot. relate; [|by constructor..]. sync. repeat relate. Qed.
Lemma agree_number : res_rel agree (_number e1) (_number e2).
Proof.
  unfold _number. relate; [|by constructor..]. simpl. rewrite !param_comma_num. sync.
  repeat relate.
Qed.
End AgreeHandlers.

Lemma agree_minus_loop fuel1 fuel2 e1 e2 :
  agree e1 e2 -> pos e1 < len_ e1 ->
  len_ e1 <= fuel1 + pos e1 -> len_ e2 <= fuel2 + pos e2 ->
  res_rel agree (minus_loop fuel1 e1) (minus_loop fuel2 e2).
Proof.
  revert fuel2 e1 e2; induction fuel1 as [|f1 IH]; intros fuel2 e1 e2 H Hp H1 H2; [lia|].
  pose proof (agree_len _ _ H) as HL.
  destruct fuel2 as [|f2]; [lia|]. simpl.
  rewrite (agree_cur _ _ H). destruct (cur e2) as [c| |]; simpl; [|constructor..].
  case_bool_decide; [by constructor|].
  pose proof (agree_adv _ _ H) as Ha.
  pose proof (agree_lt _ _ Ha) as Hlt. simpl in Hlt. rewrite Hlt. clear Hlt.
  case_bool_decide as Hd; [|by constructor].
  pose proof (agree_len _ _ Ha) as HL'; simpl in HL'.
  rewrite (ag_incl _ _ H).
  destruct (inclueComment e2); simpl.
  - rewrite (agree_cur _ _ Ha). destruct (cur (adv e2)); simpl; [|constructor..].
    apply IH; simpl; auto with esql; lia.
  - apply IH; simpl; auto; lia.
Qed.

Lemma agree_minus e1 e2 :
  agree e1 e2 -> pos e1 < len_ e1 -> res_rel agree (_minus e1) (_minus e2).
Proof.
  intros H Hp. unfold _minus. relate; [|by constructor..]. sync.
  pose proof (agree_len _ _ H) as HL.
  assert (res_rel agree
    (n ← getNext e2 (pos e2);
     e ← (if bool_decide (n = "-"%char) then minus_loop (len_ e1) (in_comment e1 a)
          else Ret (emit e1 [a])); Ret (goto e NORMAL))
    (n ← getNext e2 (pos e2);
     e ← (if bool_decide (n = "-"%char) then minus_loop (len_ e2) (in_comment e2 a)
          else Ret (emit e2 [a])); Ret (goto e NORMAL))) as Hd.
  { destruct (getNext e2 (pos e2)) as [n| |]; simpl; [|constructor..].
    apply (res_rel_bind agree); [|intros; auto with esql].
    case_bool_decide; [|auto with esql].
    apply agree_minus_loop; auto with esql;
      rewrite ?in_comment_pos, ?in_comment_len; lia. }
  destruct (status e2); simpl; try exact Hd; auto with esql.
Qed.

Lemma agree_dispatch a e1 e2 :
  agree e1 e2 -> pos e1 < len_ e1 -> res_rel agree (dispatch a e1) (dispatch a e2).
Proof.
  intros H Hp. unfold dispatch. relate; [|by constructor..].
  repeat case_match; auto using agree_others, agree_colon, agree_qutation, agree_dqutation,
    agree_astar, agree_slash, agree_backslash, agree_dot, agree_number, agree_minus.
Qed.

Lemma agree_loop a fuel1 fuel2 e1 e2 :
  agree e1 e2 -> len_ e1 <= fuel1 + pos e1 -> len_ e2 <= fuel2 + pos e2 ->
  res_rel agree (loop fuel1 a e1) (loop fuel2 a e2).
Proof.
  revert fuel2 e1 e2; induction fuel1 as [|f1 IH]; intros fuel2 e1 e2 H H1 H2.
  - assert (bool_decide (pos e1 < len_ e1) = false) as Hb by (apply bool_decide_eq_false; lia).
    pose proof (agree_lt _ _ H) as Hlt.
    destruct fuel2; simpl; rewrite <- Hlt, Hb; by constructor.
  - pose proof (agree_len _ _ H) as HL. pose proof (agree_lt _ _ H) as Hlt.
    destruct (decide (pos e1 < len_ e1)) as [Hp|Hp].
    + destruct fuel2 as [|f2]; [lia|]. simpl. rewrite <- Hlt, bool_decide_eq_true_2 by done.
      assert (pos e2 < len_ e2) as Hp2 by lia.
      destruct (dispatch_safe a e1) as (e1' & Hd1 & _ & L1 & P1); [apply H|done|].
      destruct (dispatch_safe a e2) as (e2' & Hd2 & _ & L2 & P2); [apply H|done|].
      pose proof (agree_dispatch a _ _ H Hp) as HR. rewrite Hd1, Hd2 in *. simpl.
      inversion HR; subst. apply IH; simpl; auto with esql; lia.
    + rewrite (bool_decide_eq_false_2 _ Hp) in Hlt.
      destruct fuel2; simpl; rewrite <- Hlt, bool_decide_eq_false_2 by done; by constructor.
Qed.

(** * Runs of the driver *)

(** One iteration of [Process]'s loop. *)
Definition iter (a : AppConf) (e e' : t) : Prop :=
  pos e < len_ e /\ exists e1, dispatch a e = Ret e1 /\ e' = adv e1.

Lemma loop_fuel a f1 f2 e :
  wf e -> len_ e <= f1 + pos e -> len_ e <= f2 + pos e -> loop f1 a e = loop f2 a e.
Proof.
  revert f2 e; induction f1 as [|f1 IH]; intros f2 e Hw H1 H2; simpl.
  - rewrite bool_decide_eq_false_2 by lia. destruct f2; simpl; rewrite bool_decide_eq_false_2 by lia; done.
  - case_bool_decide as Hp.
    + destruct f2 as [|f2]; [lia|]. simpl. rewrite bool_decide_eq_true_2 by done.
      destruct (dispatch_safe a e) as (e' & -> & Hs); [done..|]. simpl.
      pose proof (wf_steps _ _ Hw Hs). destruct Hs as (_ & L & P).
      apply IH; simpl; [done|lia..].
    + destruct f2; simpl; rewrite bool_decide_eq_false_2 by done; done.
Qed.

Lemma iter_wf a e e' : wf e -> iter a e e' -> wf e' /\ len_ e' = len_ e /\ pos e < pos e'.
Proof.
  intros Hw (Hp & e1 & Hd & ->).
  destruct (dispatch_safe a e) as (e2 & Hd2 & Hs); [done..|].
  assert (e2 = e1) as -> by congruence. pose proof (wf_steps _ _ Hw Hs).
  destruct Hs as (_ & L & P). repeat split; simpl; [done|done|lia].
Qed.

Lemma runs_loop a e e' f f' :
  rtc (iter a) e e' -> wf e -> len_ e <= f + pos e -> len_ e' <= f' + pos e' ->
  loop f a e = loop f' a e'.
Proof.
  intros Hr; revert f; induction Hr as [e|e e1 e' Hi Hr IH]; intros f Hw H1 H2.
  - by apply loop_fuel.
  - destruct (iter_wf _ _ _ Hw Hi) as (Hw1 & L & P).
    destruct Hi as (Hp & e2 & Hd & ->). simpl in *.
    rewrite <- (IH (len_ e)) by (done || lia).
    destruct f as [|f]; [lia|]. simpl. rewrite bool_decide_eq_true_2 by done.
    rewrite Hd; simpl. apply loop_fuel; simpl; [done|lia..].
Qed.

(** What the text output and the options of a state are. *)
Definition text_of (e : t) :=
  (status e, parsedSql e, SqlType e, substitute e, substitute_num e, inclueComment e).

Definition rest (e : t) : bytes := drop (pos e) (sql e).

Lemma rest_cur e c k : rest e = c :: k -> cur e = Ret c.
Proof. intros H. unfold cur. rewrite index_drop. unfold rest in H. by rewrite H. Qed.

Lemma rest_lt e c k : wf e -> rest e = c :: k -> pos e < len_ e.
Proof.
  unfold rest, wf. intros Hw H. apply (f_equal length) in H.
  rewrite length_drop in H. simpl in H. lia.
Qed.

Lemma rest_adv e c k : rest e = c :: k -> rest (adv e) = k.
Proof. intros H. by apply (drop_lookup_cons _ _ _ _ H). Qed.

Lemma rest_next e c k :
  wf e -> rest e = c :: k -> getNext e (pos e) = Ret (default "000"%char (head k)).
Proof.
  unfold rest, wf, getNext, index_. intros Hw H.
  destruct (drop_lookup_cons _ _ _ _ H) as [_ Hk].
  pose proof (f_equal length Hk) as Hl. rewrite length_drop in Hl.
  pose proof (f_equal length H) as Hl0. rewrite length_drop in Hl0. simpl in Hl0.
  rewrite Nat.add_1_r. destruct k as [|d k]; simpl in *.
  - destruct (Z.ltb_spec (Z.of_nat (pos e)) (Z.of_nat (len_ e) - 1)); [lia|done].
  - destruct (Z.ltb_spec (Z.of_nat (pos e)) (Z.of_nat (len_ e) - 1)); [|lia].
    by destruct (drop_lookup_cons _ _ _ _ Hk) as [-> _].
Qed.

(** One iteration that consumes [c], moving from [e] to [e']. *)
Lemma iter_one a e e1 c k :
  wf e -> rest e = c :: k -> dispatch a e = Ret e1 -> iter a e (adv e1).
Proof. intros Hw Hr Hd. split; [by eapply rest_lt|eauto]. Qed.

(** ** String literals *)

(** The bytes between the quotes of a literal: no quote but doubled ones and,
    for a PHP application, backslash escapes of one byte. *)
Inductive lit_body (p : bool) : bytes -> Prop :=
| lit_nil : lit_body p []
| lit_char c x :
    c <> "'"%char -> (p = true -> c <> "\"%char) -> lit_body p x -> lit_body p (c :: x)
| lit_quote x : lit_body p x -> lit_body p ("'"%char :: "'"%char :: x)
| lit_escape c x :
    p = true -> c <> "000"%char -> lit_body p x -> lit_body p ("\"%char :: c :: x).

Lemma quoted_char a e c :
  status e = QUTATION -> cur e = Ret c -> c <> "'"%char -> (php a = true -> c <> "\"%char) ->
  dispatch a e = Ret (to_param e [c]).
Proof.
  intros Hs Hc Hq Hb. unfold dispatch. rewrite Hc; simpl.
  rewrite (bool_decide_eq_false_2 (c = "'"%char)) by done.
  unfold _number, _colon, _dot, _minus, _slash, _astar, _backslash, _dqutation, _others.
  rewrite Hs, Hc; simpl.
  repeat case_match; try done; case_bool_decide; naive_solver.
Qed.

Lemma quoted_quote a e n :
  status e = QUTATION -> cur e = Ret "'"%char -> getNext e (pos e) = Ret n ->
  dispatch a e =
    if bool_decide (n = "'"%char)
    then Ret (adv (to_param (to_param e ["'"%char]) ["'"%char]))
    else Ret (goto (emit (emit (emit (to_param e ["'"%char]) ["'"%char]) (substitute e))
                         ["'"%char]) NORMAL).
Proof.
  intros Hs Hc Hn. unfold dispatch. rewrite Hc; simpl. unfold _qutation.
  rewrite Hc, Hs; simpl. rewrite Hn; simpl. by case_match.
Qed.

Lemma quoted_escape a e c :
  php a = true -> status e = QUTATION -> cur e = Ret "\"%char ->
  getNext e (pos e) = Ret c -> c <> "000"%char ->
  dispatch a e = Ret (to_param (to_param (adv e) ["\"%char]) [c]).
Proof.
  intros Hp Hs Hc Hn H0. unfold dispatch. rewrite Hc; simpl. rewrite Hp. unfold _backslash.
  rewrite Hc, Hs; simpl. rewrite Hn; simpl. rewrite bool_decide_eq_false_2 by done.
  by rewrite (cur_adv_next e (fun e => to_param e ["\"%char]) c).
Qed.

(** A literal body goes to [param]; the text output is untouched. *)
Lemma run_body a x e k :
  lit_body (php a) x -> wf e -> status e = QUTATION -> rest e = x ++ k ->
  exists e', rtc (iter a) e e' /\ text_of e' = text_of e /\ wf e' /\ rest e' = k.
Proof.
  intros Hx; revert e; induction Hx as [|c x Hq Hb Hx IH|x Hx IH|c x Hp H0 Hx IH];
    intros e Hw Hs Hr; simpl in Hr.
  - exists e; by repeat split.
  - pose proof (quoted_char a e c Hs (rest_cur _ _ _ Hr) Hq Hb) as Hd.
    destruct (IH (adv (to_param e [c]))) as (e' & Hrun & Ht & Hw' & Hr'); eauto.
    { change (rest (adv e) = x ++ k). by eapply rest_adv. }
    exists e'. split; [|by rewrite Ht].
    eapply rtc_l; [by eapply iter_one|done].
  - pose proof (quoted_quote a e _ Hs (rest_cur _ _ _ Hr) (rest_next _ _ _ Hw Hr)) as Hd.
    simpl in Hd.
    destruct (IH (adv (adv (to_param (to_param e ["'"%char]) ["'"%char]))))
      as (e' & Hrun & Ht & Hw' & Hr'); eauto.
    { change (rest (adv (adv e)) = x ++ k). eapply rest_adv, rest_adv, Hr. }
    exists e'. split; [|by rewrite Ht].
    eapply rtc_l; [by eapply iter_one|done].
  - pose proof (quoted_escape a e c Hp Hs (rest_cur _ _ _ Hr) (rest_next _ _ _ Hw Hr) H0) as Hd.
    destruct (IH (adv (to_param (to_param (adv e) ["\"%char]) [c])))
      as (e' & Hrun & Ht & Hw' & Hr'); eauto.
    { change (rest (adv (adv e)) = x ++ k). eapply rest_adv, rest_adv, Hr. }
    exists e'. split; [|by rewrite Ht].
    eapply rtc_l; [by eapply iter_one|done].
Qed.

(** The states in which a quote opens a literal, and what it writes there: the
    quote of [N'...'] and the like, behind a letter or a number, is text. *)
Definition opens_quoted (st : status_t) : bool := bool_decide (st ∈ [NORMAL; ALPABET; NUMBER]).
Definition quote_mark (st : status_t) : bytes :=
  if bool_decide (st = NORMAL) then [] else str "'".

Lemma quote_opens a e :
  opens_quoted (status e) = true -> cur e = Ret "'"%char ->
  exists e1, dispatch a e = Ret e1 /\ rest (adv e1) = rest (adv e) /\ len_ e1 = len_ e /\
    sql e1 = sql e /\
    text_of e1 = (QUTATION, parsedSql e ++ quote_mark (status e), SqlType e, substitute e,
                  substitute_num e, inclueComment e).
Proof.
  unfold opens_quoted. rewrite bool_decide_eq_true. intros Hs Hc.
  unfold dispatch, _qutation, param_comma. rewrite Hc; simpl.
  destruct (status e) eqn:E; try (exfalso; set_solver);
    repeat case_match; eexists; repeat split; unfold text_of; simpl; by rewrite ?app_nil_r.
Qed.

(** A quoted literal in front of bytes that do not continue it. *)
Lemma run_quoted a x e s :
  lit_body (php a) x -> wf e -> opens_quoted (status e) = true ->
  rest e = str "'" ++ x ++ str "'" ++ s -> HasPrefix s (str "'") = false ->
  exists e', rtc (iter a) e e' /\ wf e' /\ rest e' = s /\
    text_of e' = (NORMAL, parsedSql e ++ quote_mark (status e) ++ str "'" ++ substitute e ++ str "'",
                  SqlType e, substitute e, substitute_num e, inclueComment e).
Proof.
  intros Hx Hw Hs Hr Hq. simpl in Hr.
  destruct (quote_opens a e Hs (rest_cur _ _ _ Hr)) as (e1 & Hd1 & Hr1 & Hl1 & Hq1 & Ht1).
  rewrite (rest_adv _ _ _ Hr) in Hr1.
  assert (wf (adv e1)) as Hw1 by (unfold wf in *; simpl; congruence).
  destruct (run_body a x (adv e1) ("'"%char :: s)) as (e2 & Hrun & Ht2 & Hw2 & Hr2);
    [done|done|unfold text_of in *; simpl in *; congruence|done|].
  assert (status e2 = QUTATION) as Hs2 by (unfold text_of in *; simpl in *; congruence).
  pose proof (quoted_quote a e2 _ Hs2 (rest_cur _ _ _ Hr2) (rest_next _ _ _ Hw2 Hr2)) as Hd2.
  rewrite bool_decide_eq_false_2 in Hd2.
  2:{ destruct s as [|d s]; [done|]. simpl in *. intros ->. simpl in Hq. done. }
  eexists. split; [|split; [|split]].
  - eapply rtc_l; [by eapply iter_one|].
    eapply rtc_r; [exact Hrun|by eapply iter_one].
  - done.
  - by eapply rest_adv.
  - unfold text_of in *; simpl in *.
    assert (parsedSql e2 = parsedSql e ++ quote_mark (status e)) as -> by congruence.
    rewrite <- !app_assoc; simpl. congruence.
Qed.

(** A numeral: a digit and then digits and dots. *)
Definition numeral (d : bytes) : Prop :=
  match d with
  | [] => False
  | c :: d => is_digit c = true /\ Forall (fun c => is_digit c = true \/ c = "."%char) d
  end.

Lemma run_number_tail a d e s :
  Forall (fun c => is_digit c = true \/ c = "."%char) d ->
  wf e -> status e = NUMBER -> rest e = d ++ s ->
  exists e', rtc (iter a) e e' /\ wf e' /\ rest e' = s /\ text_of e' = text_of e.
Proof.
  intros Hd; revert e; induction Hd as [|c d Hc Hd IH]; intros e Hw Hs Hr; [by exists e|].
  simpl in Hr.
  assert (dispatch a e = Ret (to_param e [c])) as Hdi.
  { unfold dispatch, _number, _dot. rewrite (rest_cur _ _ _ Hr), Hs; simpl.
    destruct Hc as [->| ->]; done. }
  destruct (IH (adv (to_param e [c]))) as (e' & Hrun & Hw' & Hr' & Ht); auto.
  { change (rest (adv e) = d ++ s). by eapply rest_adv. }
  exists e'. split; [|done]. eapply rtc_l; [by eapply iter_one|done].
Qed.

Lemma run_numeral a d e s :
  numeral d -> wf e -> status e = NORMAL -> rest e = d ++ s ->
  exists e', rtc (iter a) e e' /\ wf e' /\ rest e' = s /\
    text_of e' = (NUMBER, parsedSql e ++ substitute_num e, SqlType e,
                  substitute e, substitute_num e, inclueComment e).
Proof.
  destruct d as [|c d]; [done|]. intros [Hc Hd] Hw Hs Hr. simpl in Hr.
  set (e1 := goto (emit (to_param (param_comma e) [c]) (substitute_num (param_comma e))) NUMBER).
  assert (dispatch a e = Ret e1) as Hd1.
  { unfold dispatch, _number. rewrite (rest_cur _ _ _ Hr), Hs; simpl. by rewrite Hc. }
  assert (text_of e1 = (NUMBER, parsedSql e ++ substitute_num e, SqlType e, substitute e,
            substitute_num e, inclueComment e) /\ rest (adv e1) = d ++ s /\ wf (adv e1))
    as (Ht1 & Hr1 & Hw1).
  { subst e1. pose proof (rest_adv _ _ _ Hr) as Ha. unfold param_comma.
    by destruct (nonempty (param e)). }
  destruct (run_number_tail a d (adv e1) s Hd Hw1) as (e2 & Hrun & Hw2 & Hr2 & Ht2); auto.
  exists e2. split; [|split; [done|split; [done|by rewrite Ht2]]].
  eapply rtc_l; [by eapply iter_one|done].
Qed.

(** ** Plain text in front of a literal *)

(** Bytes that neither open a literal or a comment nor look ahead. *)
Definition plain_char (c : ascii) : bool :=
  negb (is_digit c) && bool_decide (c ∉ [":"; "-"; "/"; "'"; "\"; "034"]%char).

Definition plain_step (x : status_t * ascii) (c : ascii) : status_t * ascii :=
  let '(s, ty) := x in
  if isProgLetter c
  then (ALPABET, if bool_decide (s = NORMAL) && bool_decide (ty = "000"%char)
                 then if bool_decide (to_upper c ∈ ["S"; "U"; "D"; "I"]%char)
                      then to_upper c else "*"%char
                 else ty)
  else (NORMAL, ty).

Lemma plain_dispatch a e c k :
  plain_char c = true -> status e = NORMAL \/ status e = ALPABET -> rest e = c :: k ->
  exists e1, dispatch a e = Ret e1 /\ sql e1 = sql e /\ pos e1 = pos e /\ len_ e1 = len_ e /\
    (status e1, SqlType e1) = plain_step (status e, SqlType e) c /\
    parsedSql e1 = parsedSql e ++ [c] /\ substitute e1 = substitute e /\
    substitute_num e1 = substitute_num e /\ inclueComment e1 = inclueComment e.
Proof.
  unfold plain_char. rewrite andb_true_iff, negb_true_iff, bool_decide_eq_true.
  intros [Hdg Hnot] Hs Hr. pose proof (rest_cur _ _ _ Hr) as Hc.
  rewrite !not_elem_of_cons in Hnot. destruct Hnot as (N1&N2&N3&N4&N5&N6&_).
  unfold dispatch. rewrite Hc; simpl. rewrite Hdg.
  rewrite (bool_decide_eq_false_2 _ N1), (bool_decide_eq_false_2 _ N2),
    (bool_decide_eq_false_2 _ N3), (bool_decide_eq_false_2 _ N4),
    (bool_decide_eq_false_2 _ N5), (bool_decide_eq_false_2 _ N6).
  case_bool_decide as Hdot; [|case_bool_decide as Hstar].
  - subst. unfold _dot. rewrite Hc; simpl. destruct Hs as [Hs | Hs]; rewrite Hs;
      eexists; repeat split; simpl; by rewrite ?Hs.
  - subst. unfold _astar. rewrite Hc; simpl. destruct Hs as [Hs | Hs]; rewrite Hs;
      eexists; repeat split; simpl; by rewrite ?Hs.
  - unfold _others, define_crud, plain_step. rewrite Hc; simpl.
    change (cur (goto e ALPABET)) with (cur e). rewrite Hc; simpl.
    destruct Hs as [Hs | Hs]; rewrite Hs; simpl; repeat case_match; simplify_eq;
      eexists; repeat split; simpl; rewrite ?Hs; done.
Qed.

Lemma run_plain a p e k :
  Forall (fun c => plain_char c = true) p -> wf e ->
  status e = NORMAL \/ status e = ALPABET -> rest e = p ++ k ->
  exists e', rtc (iter a) e e' /\ wf e' /\ rest e' = k /\
    (status e', SqlType e') = foldl plain_step (status e, SqlType e) p /\
    parsedSql e' = parsedSql e ++ p /\ substitute e' = substitute e /\
    substitute_num e' = substitute_num e /\ inclueComment e' = inclueComment e.
Proof.
  intros Hp; revert e; induction Hp as [|c p Hc Hp IH]; intros e Hw Hs Hr.
  { exists e. rewrite app_nil_r. by repeat split. }
  simpl in Hr.
  destruct (plain_dispatch a e c (p ++ k)) as
    (e1 & Hd & Q1 & Q2 & Q3 & Q4 & Q5 & Q6 & Q7 & Q8); [done..|].
  destruct (IH (adv e1)) as (e' & Hrun & Hw' & Hr' & R1 & R2 & R3 & R4 & R5).
  - unfold wf in *; simpl; congruence.
  - simpl. unfold plain_step in Q4. destruct (isProgLetter c); simplify_eq; auto.
  - unfold rest; simpl. rewrite Q1, Q2. by apply (rest_adv e c).
  - simpl in *. exists e'. split.
    { eapply rtc_l; [by eapply iter_one|done]. }
    rewrite R1, R2, R3, R4, R5, Q4, Q5, Q6, Q7, Q8, <- app_assoc. by repeat split.
Qed.

(** A prefix after which the machine is back in state [NORMAL]. *)
Definition plain_prefix (p : bytes) : Prop :=
  Forall (fun c => plain_char c = true) p /\
  match last p with Some c => isProgLetter c = false | None => True end.

Lemma plain_prefix_normal p ty :
  plain_prefix p -> (foldl plain_step (NORMAL, ty) p).1 = NORMAL.
Proof.
  intros [_ Hl]. destruct p as [|c p _] using rev_ind; [done|].
  rewrite last_snoc in Hl. rewrite foldl_snoc. destruct (foldl _ _ p). simpl. by rewrite Hl.
Qed.

(** * The statement in front of a literal

    Up to a literal the escaper reads the same bytes of two statements that
    differ in it, but for the one byte a look-ahead shows of the literal: a
    quote on both sides, or a digit on both sides. *)

Definition same_class (c1 c2 : ascii) : Prop := c1 = c2 \/ is_digit c1 = true /\ is_digit c2 = true.

Definition forks (p s1 s2 : bytes) : Prop :=
  exists c1 c2 k1 k2, s1 = p ++ c1 :: k1 /\ s2 = p ++ c2 :: k2 /\ same_class c1 c2.

(** Two states in step as long as one of them is in front of the fork. *)
Record near (p : bytes) (e1 e2 : t) : Prop := {
  nr_wf1 : wf e1;
  nr_wf2 : wf e2;
  nr_forks : forks p (sql e1) (sql e2);
  nr_text : pos e1 < length p \/ pos e2 < length p ->
            pos e1 = pos e2 /\ text_of e1 = text_of e2
}.

(** Two states right before or at the fork, with the same text. *)
Record in_step (p : bytes) (e1 e2 : t) : Prop := {
  is_near : near p e1 e2;
  is_pos : pos e1 = pos e2;
  is_text : text_of e1 = text_of e2
}.

Lemma same_class_refl c : same_class c c.
Proof. by left. Qed.

Lemma forks_lookup p s1 s2 i :
  forks p s1 s2 -> i <= length p ->
  exists c1 c2, s1 !! i = Some c1 /\ s2 !! i = Some c2 /\ same_class c1 c2 /\
    (i < length p -> c1 = c2).
Proof.
  intros (c1 & c2 & k1 & k2 & -> & -> & Hc) Hi.
  destruct (decide (i < length p)) as [Hl|Hl].
  - destruct (lookup_lt_is_Some_2 p i Hl) as [c Hp].
    exists c, c. rewrite !lookup_app_l by done. repeat split; auto using same_class_refl.
  - assert (i = length p) as -> by lia.
    exists c1, c2. rewrite !lookup_app_r, Nat.sub_diag by lia. repeat split; auto with lia.
Qed.

Lemma forks_long p s1 s2 : forks p s1 s2 -> length p < length s1 /\ length p < length s2.
Proof. intros (c1 & c2 & k1 & k2 & -> & -> & _). rewrite !length_app; simpl; lia. Qed.

Section Near.
Context (p : bytes) (e1 e2 : t) (H : near p e1 e2).

Lemma near_emit b : near p (emit e1 b) (emit e2 b).
Proof.
  destruct H as [? ? ? T]; constructor; [done..|]. intros Hp.
  destruct (T Hp) as [? Ht]. split; [done|]. unfold text_of in *; simpl. congruence.
Qed.
Lemma near_param b1 b2 : near p (to_param e1 b1) (to_param e2 b2).
Proof. by destruct H; constructor. Qed.
Lemma near_comma : near p (param_comma e1) (param_comma e2).
Proof. unfold param_comma. destruct H; by repeat case_match; constructor. Qed.
Lemma near_goto s : near p (goto e1 s) (goto e2 s).
Proof.
  destruct H as [? ? ? T]; constructor; [done..|]. intros Hp.
  destruct (T Hp) as [? Ht]. split; [done|]. unfold text_of in *; simpl. congruence.
Qed.
Lemma near_type c : near p (set_type e1 c) (set_type e2 c).
Proof.
  destruct H as [? ? ? T]; constructor; [done..|]. intros Hp.
  destruct (T Hp) as [? Ht]. split; [done|]. unfold text_of in *; simpl. congruence.
Qed.
(** At or behind the fork on both sides the text does not matter any more. *)
Lemma near_past b1 b2 :
  length p <= pos e1 -> length p <= pos e2 -> near p (emit e1 b1) (emit e2 b2).
Proof. intros P1 P2. destruct H as [? ? ? T]; constructor; [done..|]. simpl. intros; exfalso; lia. Qed.
End Near.
#[export] Hint Resolve near_emit near_param near_comma near_goto near_type near_past : esql.

Lemma near_adv p e1 e2 : near p e1 e2 -> pos e1 = pos e2 -> near p (adv e1) (adv e2).
Proof.
  intros [? ? ? T] Hp; constructor; [done..|]. simpl. intros Hl.
  destruct T as [? Ht]; [lia|]. by rewrite Hp.
Qed.
#[export] Hint Resolve near_adv : esql.

Section InStep.
Context (p : bytes) (e1 e2 : t) (H : in_step p e1 e2) (Hp : pos e1 < length p).

Lemma step_cur : cur e1 = cur e2.
Proof.
  destruct H as [[_ _ F _] Hq _]. unfold cur, index_. rewrite <- Hq.
  destruct (forks_lookup p (sql e1) (sql e2) (pos e1) F) as (c1 & c2 & -> & -> & _ & Hc); [lia|].
  by rewrite Hc.
Qed.
Lemma step_next : exists n1 n2,
  getNext e1 (pos e1) = Ret n1 /\ getNext e2 (pos e2) = Ret n2 /\
  index_ (sql e1) (pos e1 + 1) = Ret n1 /\ index_ (sql e2) (pos e2 + 1) = Ret n2 /\
  cur (adv e1) = Ret n1 /\ cur (adv e2) = Ret n2 /\ same_class n1 n2 /\
  (pos e1 + 1 < length p -> n1 = n2).
Proof.
  destruct H as [[W1 W2 F _] Hq _]. unfold cur, getNext, index_, wf in *. simpl. rewrite <- Hq.
  destruct (forks_long _ _ _ F).
  destruct (forks_lookup p (sql e1) (sql e2) (pos e1 + 1) F) as (c1 & c2 & L1 & L2 & Hc & Hi); [lia|].
  destruct (Z.ltb_spec (Z.of_nat (pos e1)) (Z.of_nat (len_ e1) - 1)); [|lia].
  destruct (Z.ltb_spec (Z.of_nat (pos e1)) (Z.of_nat (len_ e2) - 1)); [|lia].
  replace (S (pos e1)) with (pos e1 + 1) by lia. rewrite L1, L2. exists c1, c2. repeat split; auto.
Qed.
Lemma step_fields : status e1 = status e2 /\ SqlType e1 = SqlType e2 /\
  substitute e1 = substitute e2 /\ substitute_num e1 = substitute_num e2 /\
  inclueComment e1 = inclueComment e2.
Proof. pose proof (is_text _ _ _ H) as Ht. unfold text_of in Ht. by simplify_eq. Qed.
End InStep.

Lemma near_in_comment p e1 e2 c :
  near p e1 e2 -> inclueComment e1 = inclueComment e2 ->
  near p (in_comment e1 c) (in_comment e2 c).
Proof. intros H Hi. unfold in_comment. rewrite Hi. case_match; auto with esql. Qed.
#[export] Hint Resolve near_in_comment : esql.
Lemma in_comment_incl e c : inclueComment (in_comment e c) = inclueComment e.
Proof. unfold in_comment. by destruct (inclueComment e) eqn:E. Qed.
#[export] Hint Extern 1 (inclueComment _ = inclueComment _) =>
  rewrite ?in_comment_incl; simpl; assumption : esql.
#[export] Hint Extern 1 (pos _ = pos _) => rewrite ?in_comment_pos; simpl; congruence : esql.

Lemma in_comment_getNext e c x : getNext (in_comment e c) x = getNext e x.
Proof. by_incl. Qed.

Section NearHandlers.
Context (p : bytes) (e1 e2 : t) (H : in_step p e1 e2) (Hp : pos e1 < length p).

Let N : near p e1 e2 := is_near _ _ _ H.

(** Read the common byte and the next one, and go through the common state. *)
Ltac in_step :=
  let F := fresh "F" in
  pose proof (step_fields _ _ _ H) as F; destruct F as (?S & ?T & ?Sb & ?Sn & ?In);
  let n1 := fresh "n1" in let n2 := fresh "n2" in
  destruct (step_next _ _ _ H Hp) as (n1 & n2 & ?N1 & ?N2 & ?I1 & ?I2 & ?C1 & ?C2 & ?Hsame & ?Hnext);
  pose proof (is_pos _ _ _ H) as ?Hpos.

(** A look-ahead that compares the next byte with one that is not a digit gives
    the same answer on both sides. *)
Lemma same_class_test n1 n2 d :
  same_class n1 n2 -> is_digit d = false -> bool_decide (n1 = d) = bool_decide (n2 = d).
Proof. intros [->|[H1 H2]] Hd; [done|]. rewrite !bool_decide_eq_false_2; congruence. Qed.

Ltac read_both :=
  in_step; rewrite (step_cur _ _ _ H Hp); destruct (cur e2); simpl; [|constructor..].
Ltac near_done :=
  repeat first [ rewrite_next | case_match ]; auto 10 with esql
with rewrite_next :=
  match goal with
  | Hs : same_class ?n1 ?n2 |- context [bool_decide (?n1 = ?d)] =>
      rewrite (same_class_test n1 n2 d Hs eq_refl)
  end.
Ltac near_status :=
  match goal with S : status e1 = status e2 |- _ => rewrite <- S end; destruct (status e1); simpl.

Lemma near_colon : res_rel (near p) (_colon e1) (_colon e2).
Proof. unfold _colon. read_both. near_status; near_done. Qed.
Lemma near_dot : res_rel (near p) (_dot e1) (_dot e2).
Proof. unfold _dot. read_both. near_status; near_done. Qed.
Lemma near_number : res_rel (near p) (_number e1) (_number e2).
Proof. unfold _number. read_both. rewrite !param_comma_num, Sn. near_status; near_done. Qed.
Lemma near_others : res_rel (near p) (_others e1) (_others e2).
Proof.
  unfold _others, define_crud.
  change (cur (goto e1 ALPABET)) with (cur e1); change (cur (goto e2 ALPABET)) with (cur e2).
  pose proof (step_cur _ _ _ H Hp) as Hc. read_both. rewrite T.
  near_status; repeat (case_match; simpl); auto 10 with esql.
Qed.
Lemma near_qutation : res_rel (near p) (_qutation e1) (_qutation e2).
Proof. unfold _qutation. read_both. rewrite N1, N2; simpl. rewrite Sb. near_status; near_done. Qed.
Lemma near_dqutation : res_rel (near p) (_dqutation e1) (_dqutation e2).
Proof. unfold _dqutation. read_both. rewrite Sb. near_status; near_done. Qed.
Lemma near_astar : res_rel (near p) (_astar e1) (_astar e2).
Proof.
  unfold _astar. read_both. rewrite !in_comment_getNext, !in_comment_pos, N1, N2; simpl. near_status; near_done.
Qed.
Lemma near_slash : res_rel (near p) (_slash e1) (_slash e2).
Proof. unfold _slash. read_both. rewrite N1, N2; simpl. near_status; near_done. Qed.
Lemma near_backslash : res_rel (near p) (_backslash e1) (_backslash e2).
Proof.
  unfold _backslash. read_both. rewrite N1, N2, I1, I2; simpl.
  change (cur (to_param (adv e1) ["\"%char])) with (cur (adv e1)).
  change (cur (to_param (adv e2) ["\"%char])) with (cur (adv e2)).
  rewrite C1, C2; simpl.
  assert (near p (emit (adv e1) [n1]) (emit (adv e2) [n2])) as He.
  { destruct (decide (pos e1 + 1 < length p)) as [Hl|Hl].
    - rewrite (Hnext Hl). auto with esql.
    - apply near_past; simpl; auto with esql; lia. }
  near_status; near_done.
Qed.
End NearHandlers.

Lemma near_behind p e1 e2 e1' e2' :
  near p e1 e2 -> steps_to e1 e1' -> steps_to e2 e2' ->
  length p <= pos e1 -> length p <= pos e2 -> near p e1' e2'.
Proof.
  intros [W1 W2 F _] H1 H2 P1 P2. pose proof (wf_steps _ _ W1 H1). pose proof (wf_steps _ _ W2 H2).
  destruct H1 as (S1 & _ & Q1), H2 as (S2 & _ & Q2).
  constructor; [done|done|by rewrite S1, S2|lia].
Qed.

Lemma in_step_in_comment p e1 e2 c :
  in_step p e1 e2 -> in_step p (in_comment e1 c) (in_comment e2 c).
Proof.
  intros H. pose proof (is_text _ _ _ H) as Ht. destruct H as [N Hq _].
  assert (inclueComment e1 = inclueComment e2) as Hi by (unfold text_of in Ht; congruence).
  constructor; [auto with esql|by rewrite !in_comment_pos|].
  unfold in_comment. rewrite Hi. case_match; [|done]. unfold text_of in *; simpl; congruence.
Qed.

Lemma near_in_step p e1 e2 :
  near p e1 e2 -> pos e1 = pos e2 -> pos e1 < length p -> in_step p e1 e2.
Proof. intros N Hq Hp. constructor; [done..|]. by destruct (nr_text _ _ _ N) as [_ ?]; [left|]. Qed.

Lemma near_minus_past p f1 f2 e1 e2 :
  near p e1 e2 -> length p <= pos e1 < len_ e1 -> length p <= pos e2 < len_ e2 ->
  len_ e1 <= f1 + pos e1 -> len_ e2 <= f2 + pos e2 ->
  res_rel (near p) (minus_loop f1 e1) (minus_loop f2 e2).
Proof.
  intros N [P1 Q1] [P2 Q2] L1 L2.
  destruct (minus_loop_safe f1 e1) as (r1 & -> & S1); [apply N|done..|].
  destruct (minus_loop_safe f2 e2) as (r2 & -> & S2); [apply N|done..|].
  constructor. by eapply near_behind.
Qed.

(** The state of the line-comment loop after one more byte [c]. *)
Definition minus_next (e : t) (c : ascii) : t :=
  if inclueComment e then emit (adv e) [c] else adv e.

Lemma minus_loop_next f e c d :
  cur e = Ret c -> c <> "010"%char -> cur (adv e) = Ret d -> S (pos e) < len_ e ->
  minus_loop (S f) e = minus_loop f (minus_next e d).
Proof.
  intros Hc Hn Hd Hl. unfold minus_next. cbn [minus_loop]. rewrite Hc; simpl.
  rewrite bool_decide_eq_false_2, bool_decide_eq_true_2 by done.
  destruct (inclueComment e); simpl; [|done]. by rewrite Hd.
Qed.

Lemma minus_next_pos e c : pos (minus_next e c) = S (pos e).
Proof. unfold minus_next. by case_match. Qed.
Lemma minus_next_len e c : len_ (minus_next e c) = len_ e.
Proof. unfold minus_next. by case_match. Qed.

Lemma near_minus_next p e1 e2 n1 n2 :
  in_step p e1 e2 -> pos e1 < length p -> (pos e1 + 1 < length p -> n1 = n2) ->
  near p (minus_next e1 n1) (minus_next e2 n2).
Proof.
  intros H Hp Hn. destruct (step_fields _ _ _ H) as (_ & _ & _ & _ & Hi).
  destruct H as [N Hq _]. unfold minus_next. rewrite Hi. case_match; [|auto with esql].
  destruct (decide (pos e1 + 1 < length p)) as [Hl|Hl].
  - rewrite (Hn Hl). auto with esql.
  - apply near_past; simpl; auto with esql; lia.
Qed.

Lemma near_minus_loop p f1 f2 e1 e2 :
  in_step p e1 e2 -> pos e1 < length p ->
  len_ e1 <= f1 + pos e1 -> len_ e2 <= f2 + pos e2 ->
  res_rel (near p) (minus_loop f1 e1) (minus_loop f2 e2).
Proof.
  revert f2 e1 e2; induction f1 as [|f1 IH]; intros f2 e1 e2 H Hp L1 L2;
    destruct (forks_long _ _ _ (nr_forks _ _ _ (is_near _ _ _ H))) as [B1 B2];
    pose proof (nr_wf1 _ _ _ (is_near _ _ _ H)) as W1;
    pose proof (nr_wf2 _ _ _ (is_near _ _ _ H)) as W2;
    pose proof (is_pos _ _ _ H) as Hq; unfold wf in *; [lia|].
  destruct f2 as [|f2]; [lia|].
  destruct (step_next _ _ _ H Hp) as (n1 & n2 & _ & _ & _ & _ & C1 & C2 & _ & Hn).
  pose proof (step_cur _ _ _ H Hp) as Hc.
  destruct (cur_ret e1) as [c Hc1]; [done|lia|].
  destruct (decide (c = "010"%char)) as [->|Hnl].
  { simpl. rewrite <- Hc, Hc1; simpl. constructor. apply H. }
  rewrite (minus_loop_next f1 e1 c n1) by (done || lia).
  rewrite (minus_loop_next f2 e2 c n2) by (congruence || lia).
  pose proof (near_minus_next _ _ _ n1 n2 H Hp Hn) as N.
  destruct (decide (S (pos e1) < length p)) as [Hl|Hl].
  - apply IH; rewrite ?minus_next_pos, ?minus_next_len; try lia.
    apply near_in_step; rewrite ?minus_next_pos; [done|congruence|done].
  - apply near_minus_past; rewrite ?minus_next_pos, ?minus_next_len; try lia; done.
Qed.

Lemma near_minus p e1 e2 :
  in_step p e1 e2 -> pos e1 < length p -> res_rel (near p) (_minus e1) (_minus e2).
Proof.
  intros H Hp. pose proof (is_near _ _ _ H) as N.
  destruct (step_fields _ _ _ H) as (S & _ & _ & _ & Hi).
  destruct (step_next _ _ _ H Hp) as (n1 & n2 & N1 & N2 & _ & _ & _ & _ & Hs & _).
  unfold _minus. rewrite (step_cur _ _ _ H Hp), N1, N2.
  destruct (cur e2) as [c| |]; simpl; [|constructor..].
  rewrite (same_class_test n1 n2 "-" Hs eq_refl).
  assert (res_rel (near p)
    (e ← (if bool_decide (n2 = "-"%char) then minus_loop (len_ e1) (in_comment e1 c)
          else Ret (emit e1 [c])); Ret (goto e NORMAL))
    (e ← (if bool_decide (n2 = "-"%char) then minus_loop (len_ e2) (in_comment e2 c)
          else Ret (emit e2 [c])); Ret (goto e NORMAL))) as Hd.
  { apply (res_rel_bind (near p)); [|intros; auto with esql].
    case_bool_decide; [|auto with esql].
    apply near_minus_loop; auto using in_step_in_comment;
      rewrite ?in_comment_pos, ?in_comment_len; lia. }
  rewrite <- S. destruct (status e1); simpl; try exact Hd; auto with esql.
Qed.

Lemma near_dispatch a p e1 e2 :
  in_step p e1 e2 -> pos e1 < length p -> res_rel (near p) (dispatch a e1) (dispatch a e2).
Proof.
  intros H Hp. unfold dispatch. rewrite (step_cur _ _ _ H Hp).
  destruct (cur e2); simpl; [|constructor..].
  repeat case_match; auto using near_others, near_colon, near_qutation, near_dqutation,
    near_astar, near_slash, near_backslash, near_dot, near_number, near_minus.
Qed.

(** ** Seeking a place of the statement *)

(** Run the driver until the cursor is at or behind [n]. *)
Fixpoint seek (fuel : nat) (a : AppConf) (n : nat) (e : t) : res t :=
  if bool_decide (pos e < n) then
    match fuel with
    | 0 => OutOfFuel
    | S fuel => e ← dispatch a e; seek fuel a n (adv e)
    end
  else Ret e.

Lemma seek_rtc a n f e e' :
  seek f a n e = Ret e' -> wf e -> n <= len_ e -> rtc (iter a) e e' /\ wf e'.
Proof.
  revert e; induction f as [|f IH]; intros e; simpl; case_bool_decide as Hp;
    intros Hs Hw Hn; simplify_eq; try done.
  inv_bind. assert (iter a e (adv a0)) as Hi by (split; [lia|eauto]).
  destruct (iter_wf _ _ _ Hw Hi) as (Hw' & Hl & _).
  destruct (IH (adv a0)) as [Hr ?]; [done|done|simpl in *; lia|].
  split; [|done]. by eapply rtc_l.
Qed.

Lemma seek_near a p f e1 e2 e1' :
  in_step p e1 e2 -> pos e1 <= length p -> seek f a (length p) e1 = Ret e1' ->
  pos e1' = length p -> exists e2', seek f a (length p) e2 = Ret e2' /\ in_step p e1' e2'.
Proof.
  revert e1 e2; induction f as [|f IH]; intros e1 e2 H Hl Hs Hp; simpl in *;
    rewrite <- (is_pos _ _ _ H); case_bool_decide as Hlt; simplify_eq; eauto.
  inv_bind. pose proof (near_dispatch a _ _ _ H Hlt) as HR.
  match goal with Hd : dispatch a e1 = Ret _ |- _ => rewrite Hd in HR end.
  inversion HR as [x b2 N| |]; subst; simpl.
  destruct (decide (length p <= pos a0)) as [Hb|Hb].
  { destruct f; simpl in *; rewrite bool_decide_eq_false_2 in Hs by lia;
      simplify_eq; simpl in *; lia. }
  destruct (nr_text _ _ _ N) as [Hq Ht]; [lia|].
  apply (IH (adv a0) (adv b2)); [|simpl; lia|done..].
  constructor; [auto with esql|simpl; congruence|exact Ht].
Qed.

Lemma iter_sql a e e' : wf e -> rtc (iter a) e e' -> sql e' = sql e.
Proof.
  intros Hw Hr; induction Hr as [e|e e1 e2 Hi _ IH]; [done|].
  destruct (iter_wf _ _ _ Hw Hi) as (Hw1 & _). rewrite (IH Hw1).
  destruct Hi as (Hp & x & Hd & ->). destruct (dispatch_safe a e Hw Hp) as (y & Hd' & S & _).
  simpl. congruence.
Qed.

(** * The properties *)

(** A fresh escaper after the three setters of the API. *)
Definition configured (sub : bytes) (mode incl : bool) (s : bytes) : t :=
  SetIncludeComment (SetSubstituteStringMode (Setsubstitute (NewEscapeLiteralSQL s) sub) mode) incl.

(** Two literals of the same kind, met in state [st] and in front of the same
    bytes [s]: two quoted strings, or two numbers. *)
Inductive literal_pair (p : bool) (st : status_t) (s : bytes) : bytes -> bytes -> Prop :=
| pair_quoted x y :
    opens_quoted st = true -> lit_body p x -> lit_body p y -> HasPrefix s (str "'") = false ->
    literal_pair p st s (str "'" ++ x ++ str "'") (str "'" ++ y ++ str "'")
| pair_numeral d1 d2 :
    st = NORMAL -> numeral d1 -> numeral d2 -> literal_pair p st s d1 d2.

Lemma configured_fields sub mode incl s :
  let e := configured sub mode incl s in
  sql e = s /\ len_ e = length s /\ parsedSql e = [] /\ SqlType e = "000"%char /\
  substitute e = sub /\ inclueComment e = incl /\
  substitute_num e = (if mode then str "'" ++ sub ++ str "'" else sub).
Proof. destruct mode; by repeat split. Qed.

Definition started (e : t) : t := set_pos (goto e NORMAL) 0.

Lemma run_prefix a sub mode incl p k :
  plain_prefix p ->
  let e := started (configured sub mode incl (p ++ k)) in
  exists e', rtc (iter a) e e' /\ wf e /\ wf e' /\ rest e' = k /\
    text_of e' = (NORMAL, p, (foldl plain_step (NORMAL, "000"%char) p).2, sub,
                  (if mode then str "'" ++ sub ++ str "'" else sub), incl).
Proof.
  intros Hp. pose proof (configured_fields sub mode incl (p ++ k)) as F.
  cbv zeta in *. set (e0 := configured sub mode incl (p ++ k)) in *. clearbody e0.
  destruct F as (F1 & F2 & F3 & F4 & F5 & F6 & F7). set (e := started e0).
  assert (wf e) as Hw by (unfold wf, e; simpl; by rewrite F1, F2).
  destruct (run_plain a p e k) as (e' & Hrun & Hw' & Hr & R1 & R2 & R3 & R4 & R5);
    [apply Hp|done|by left| |].
  { unfold rest, e; simpl. by rewrite F1. }
  exists e'. split; [done|]. repeat split; [done..|].
  subst e; simpl in *. rewrite F4 in R1. pose proof (plain_prefix_normal p "000" Hp) as HN.
  destruct (foldl _ _ p) as [st ty]. simpl in *. unfold text_of.
  injection R1 as R1a R1b.
  by rewrite R1a, R1b, HN, R2, R3, R4, R5, F3, F5, F6, F7.
Qed.

Lemma run_literal a l1 l2 s e1 e2 :
  literal_pair (php a) (status e1) s l1 l2 -> wf e1 -> wf e2 -> text_of e1 = text_of e2 ->
  rest e1 = l1 ++ s -> rest e2 = l2 ++ s ->
  exists e1' e2', rtc (iter a) e1 e1' /\ rtc (iter a) e2 e2' /\ agree e1' e2'.
Proof.
  intros Hl W1 W2 Ht R1 R2.
  assert (exists e1' e2', rtc (iter a) e1 e1' /\ rtc (iter a) e2 e2' /\ wf e1' /\ wf e2' /\
            rest e1' = rest e2' /\ text_of e1' = text_of e2') as
    (e1' & e2' & Q1 & Q2 & Q3 & Q4 & Q5 & Q6).
  { assert (status e2 = status e1) as Hs2 by (injection Ht; congruence).
    destruct Hl as [x y Hs Hx Hy Hq | d1 d2 Hs H1 H2]; rewrite <- ?app_assoc in *.
    - destruct (run_quoted a x e1 s Hx W1 Hs R1 Hq) as (f1 & A1 & A2 & A3 & A4).
      destruct (run_quoted a y e2 s Hy W2 ltac:(by rewrite Hs2) R2 Hq) as (f2 & B1 & B2 & B3 & B4).
      exists f1, f2. repeat split; [done..|congruence|].
      rewrite A4, B4. injection Ht; congruence.
    - destruct (run_numeral a d1 e1 s H1 W1 Hs R1) as (f1 & A1 & A2 & A3 & A4).
      destruct (run_numeral a d2 e2 s H2 W2 ltac:(congruence) R2) as (f2 & B1 & B2 & B3 & B4).
      exists f1, f2. repeat split; [done..|congruence|].
      rewrite A4, B4. injection Ht; congruence. }
  exists e1', e2'. split; [done|split; [done|]].
  injection Q6; intros. by constructor.
Qed.

Lemma Process_run a e e' :
  wf e -> rtc (iter a) (started e) e' -> Process a e = loop (len_ e') a e'.
Proof.
  intros Hw Hr. unfold Process. fold (started e).
  apply (runs_loop a (started e)); [done|exact Hw|simpl; lia|lia].
Qed.

Lemma Process_agree a e1 e2 f1 f2 :
  wf e1 -> wf e2 -> rtc (iter a) (started e1) f1 -> rtc (iter a) (started e2) f2 ->
  agree f1 f2 ->
  exists r1 r2, Process a e1 = Ret r1 /\ Process a e2 = Ret r2 /\
    GetParsedSql r1 = GetParsedSql r2 /\ SqlType r1 = SqlType r2.
Proof.
  intros W1 W2 H1 H2 Ha.
  rewrite (Process_run a e1 f1 W1 H1), (Process_run a e2 f2 W2 H2).
  destruct (loop_safe (len_ f1) a f1) as (r1 & E1 & _); [apply Ha|lia|].
  destruct (loop_safe (len_ f2) a f2) as (r2 & E2 & _); [apply Ha|lia|].
  pose proof (agree_loop a (len_ f1) (len_ f2) f1 f2 Ha ltac:(lia) ltac:(lia)) as HR.
  rewrite E1, E2 in *. assert (agree r1 r2) as Hr by (by inversion HR).
  exists r1, r2. repeat split; apply Hr.
Qed.

(** Where the escaper stands when it has read [p] and the byte [c] is next:
    [None] when it never stops there, because a look-ahead takes [c] with the
    bytes in front of it. *)
Definition state_before (a : AppConf) (sub : bytes) (mode incl : bool) (p : bytes) (c : ascii)
    : option status_t :=
  match seek (length p) a (length p) (started (configured sub mode incl (p ++ [c]))) with
  | Ret e => if bool_decide (pos e = length p) then Some (status e) else None
  | _ => None
  end.

Lemma started_fields sub mode incl s :
  let e := started (configured sub mode incl s) in
  wf e /\ sql e = s /\ pos e = 0 /\ len_ e = length s /\
  text_of e = (NORMAL, [], "000"%char, sub, (if mode then str "'" ++ sub ++ str "'" else sub), incl).
Proof.
  destruct (configured_fields sub mode incl s) as (F1 & F2 & F3 & F4 & F5 & F6 & F7).
  cbv zeta. set (e := configured sub mode incl s) in *. clearbody e.
  unfold wf, text_of; simpl. rewrite F1, F2, F3, F4, F5, F6, F7. by repeat split.
Qed.

Lemma started_in_step sub mode incl p c1 c2 k1 k2 :
  same_class c1 c2 ->
  in_step p (started (configured sub mode incl (p ++ c1 :: k1)))
            (started (configured sub mode incl (p ++ c2 :: k2))).
Proof.
  intros Hc.
  destruct (started_fields sub mode incl (p ++ c1 :: k1)) as (W1 & S1 & P1 & _ & T1).
  destruct (started_fields sub mode incl (p ++ c2 :: k2)) as (W2 & S2 & P2 & _ & T2).
  constructor; [constructor|congruence|congruence]; [done|done| |intros _; split; congruence].
  rewrite S1, S2. unfold forks. eauto 10.
Qed.

(** What [state_before] says of the whole statement. *)
Lemma state_before_run a sub mode incl p c st :
  state_before a sub mode incl p c = Some st ->
  exists t0, forall c' k, same_class c c' ->
    exists e', rtc (iter a) (started (configured sub mode incl (p ++ c' :: k))) e' /\
      wf e' /\ rest e' = c' :: k /\ status e' = st /\ text_of e' = t0.
Proof.
  unfold state_before. destruct (seek _ _ _ _) as [e0| |] eqn:Hs; [|done..].
  case_bool_decide as Hp; [|done]. intros [= <-]. exists (text_of e0). intros c' k Hc.
  pose proof (started_in_step sub mode incl p c c' [] k Hc) as H.
  destruct (started_fields sub mode incl (p ++ [c])) as (_ & _ & P1 & _).
  destruct (started_fields sub mode incl (p ++ c' :: k)) as (W2 & S2 & _ & L2 & _).
  destruct (seek_near a p _ _ _ _ H ltac:(lia) Hs Hp) as (e' & He' & [_ Hq Ht]).
  destruct (seek_rtc _ _ _ _ _ He' W2) as [Hr Hw]; [rewrite L2, length_app; simpl; lia|].
  exists e'. split; [done|]. split; [done|]. split; [|split].
  - unfold rest. rewrite (iter_sql _ _ _ W2 Hr), S2, <- Hq, Hp. by rewrite drop_app_length.
  - unfold text_of in Ht. congruence.
  - done.
Qed.

Lemma literal_pair_heads p st s l1 l2 c :
  literal_pair p st s l1 l2 -> head l1 = Some c ->
  exists k1 c2 k2, l1 = c :: k1 /\ l2 = c2 :: k2 /\ same_class c c2.
Proof.
  intros [x y _ _ _ _|d1 d2 _ H1 H2] Hh; simpl in *; simplify_eq.
  - eexists _, _, _. repeat split. by left.
  - destruct d1, d2; simpl in *; try done; simplify_eq. eexists _, _, _. repeat split.
    right. split; [apply H1|apply H2].
Qed.

(** Two statements that differ in one literal the escaper takes for one: it
    stands in front of it in a state that opens it. *)
Inductive differ (a : AppConf) (sub : bytes) (mode incl : bool) : bytes -> bytes -> Prop :=
| differ_literal p c l1 l2 s st :
    head l1 = Some c -> state_before a sub mode incl p c = Some st ->
    literal_pair (php a) st s l1 l2 ->
    differ a sub mode incl (p ++ l1 ++ s) (p ++ l2 ++ s).

Definition same_text (a : AppConf) (sub : bytes) (mode incl : bool) (q1 q2 : bytes) : Prop :=
  exists r1 r2,
    Process a (configured sub mode incl q1) = Ret r1 /\
    Process a (configured sub mode incl q2) = Ret r2 /\
    GetParsedSql r1 = GetParsedSql r2 /\ SqlType r1 = SqlType r2.

Lemma configured_wf sub mode incl s : wf (configured sub mode incl s).
Proof. destruct (configured_fields sub mode incl s) as (F1 & F2 & _). unfold wf. congruence. Qed.

Lemma differ_same_text a sub mode incl q1 q2 :
  differ a sub mode incl q1 q2 -> same_text a sub mode incl q1 q2.
Proof.
  intros [p c l1 l2 s st Hh Hst Hl].
  destruct (state_before_run _ _ _ _ _ _ _ Hst) as (t0 & Hrun).
  destruct (literal_pair_heads _ _ _ _ _ _ Hl Hh) as (k1 & c2 & k2 & -> & -> & Hc).
  destruct (Hrun c (k1 ++ s) (same_class_refl c)) as (e1 & A1 & A2 & A3 & A4 & A5).
  destruct (Hrun c2 (k2 ++ s) Hc) as (e2 & B1 & B2 & B3 & B4 & B5).
  rewrite <- A4 in Hl.
  destruct (run_literal a _ _ s e1 e2 Hl A2 B2) as (f1 & f2 & C1 & C2 & Hf); [congruence|done..|].
  apply (Process_agree a _ _ f1 f2); auto using configured_wf; etrans; eauto.
Qed.

Lemma same_text_refl a sub mode incl q : same_text a sub mode incl q q.
Proof.
  destruct (loop_safe (len_ (configured sub mode incl q)) a (started (configured sub mode incl q)))
    as (r & Hr & _); [apply configured_wf|simpl; lia|].
  exists r, r. by repeat split.
Qed.

(** C1. The normalised statement and the statement type do not depend on the
    values of the literals: two statements that differ in the contents of any
    number of literals, each a single-quoted string for a single-quoted string
    or a number for a number, get the same [GetParsedSql] and [SqlType], whatever
    the options and the application type are.  A literal counts when the escaper,
    having read what is in front of it, takes it for one ([state_before]): a
    string behind a quote in state NORMAL, ALPABET or NUMBER, a number in state
    NORMAL.  The digits behind a colon or a letter (a slice bound, a bind
    variable, a name) are text to it, and so is a quote directly behind a
    colon. *)
Theorem Process_hides_literals a sub mode incl q1 q2 :
  rtc (differ a sub mode incl) q1 q2 -> same_text a sub mode incl q1 q2.
Proof.
  induction 1 as [q|q1 q2 q3 Hd _ (r2 & r3 & E2 & E3 & P23 & T23)]; [apply same_text_refl|].
  destruct (differ_same_text _ _ _ _ _ _ Hd) as (r1 & r2' & E1 & E2' & P12 & T12).
  rewrite E2 in E2'. simplify_eq. exists r1, r3. repeat split; congruence.
Qed.

(** A witness of C1: the leak the escaper exists to prevent, with a comment, a
    slice and a number in front of the string. *)
Definition no_php : AppConf := {| AppType := 1; APP_TYPE_PHP := 2; APP_TYPE_BSM_PHP := 3 |}.

Ltac by_lit := repeat (apply lit_nil || (apply lit_char; [done|done|])).

Lemma Process_hides_literals_witness :
  same_text no_php (str "#") false true
    (str "select a[1:2] /* id */ where id = 42 and pw = N's3cret' -- x")
    (str "select a[1:2] /* id */ where id = 7 and pw = N'x' -- x").
Proof.
  apply (Process_hides_literals no_php (str "#") false true).
  eapply rtc_l; [|apply rtc_once].
  - apply (differ_literal no_php (str "#") false true (str "select a[1:2] /* id */ where id = ")
             "4" (str "42") (str "7") (str " and pw = N's3cret' -- x") NORMAL);
      [done|reflexivity|by apply pair_numeral; repeat constructor].
  - apply (differ_literal no_php (str "#") false true (str "select a[1:2] /* id */ where id = 7 and pw = N")
             "'" (str "'s3cret'") (str "'x'") (str " -- x") ALPABET);
      [done|reflexivity|].
    apply (pair_quoted _ _ _ (str "s3cret") (str "x")); [done|simpl; by_lit..|done].
Defined.

Lemma loop_end f a e r : wf e -> loop f a e = Ret r -> len_ r <= pos r.
Proof.
  revert e; induction f as [|f IH]; intros e Hw; simpl; case_bool_decide as Hp;
    intros Hr; simplify_eq; try lia.
  inv_bind. destruct (iter_wf a e (adv a0)) as (Hw' & _); [done|by split; eauto|].
  by apply (IH (adv a0)).
Qed.

(** C2. [Process] returns on every statement, with every option and on every
    application type: none of the handlers' look-aheads indexes out of range,
    the line-comment loop ends, and the whole statement is consumed. *)
Theorem Process_returns a sub mode incl s :
  exists r, Process a (configured sub mode incl s) = Ret r /\
    sql r = s /\ length s <= pos r.
Proof.
  destruct (configured_fields sub mode incl s) as (F1 & F2 & _).
  set (e := configured sub mode incl s) in *. clearbody e.
  assert (wf (started e)) as Hw by (unfold wf; simpl; congruence).
  unfold Process. fold (started e).
  destruct (loop_safe (len_ e) a (started e) Hw) as (r & Hr & H1 & H2 & H3); [simpl; lia|].
  exists r. split; [exact Hr|]. split; [simpl in H1; congruence|].
  pose proof (loop_end _ _ _ _ Hw Hr). simpl in H2; lia.
Qed.

(** ** Comments *)

Lemma comment_char a e c :
  status e = COMMENT -> inclueComment e = false -> cur e = Ret c -> c <> "*"%char ->
  dispatch a e = Ret e.
Proof.
  intros Hs Hi Hc Hn. unfold dispatch. rewrite Hc; simpl.
  rewrite (bool_decide_eq_false_2 _ Hn).
  unfold _number, _colon, _dot, _minus, _slash, _qutation, _backslash, _dqutation, _others,
    in_comment.
  rewrite Hs, Hc, Hi; simpl. by repeat case_match.
Qed.

Lemma comment_star a e n :
  status e = COMMENT -> inclueComment e = false -> cur e = Ret "*"%char ->
  getNext e (pos e) = Ret n ->
  dispatch a e = Ret (if bool_decide (n = "/"%char) then goto (adv e) NORMAL else e).
Proof.
  intros Hs Hi Hc Hn. unfold dispatch, _astar, in_comment. rewrite Hc; simpl.
  rewrite Hs, Hi; simpl. rewrite Hn; simpl. rewrite Hi. by case_match.
Qed.

(** A comment body, the first [*/] of which is the one that closes it. *)
Definition comment_body (b : bytes) : Prop := Index (b ++ str "*/") (str "*/") = Some (length b).

Lemma comment_body_cons c b :
  comment_body (c :: b) ->
  comment_body b /\ (c = "*"%char -> head (b ++ str "*/") <> Some "/"%char).
Proof.
  unfold comment_body. cbn [app Index length]. generalize (b ++ str "*/"). intros k.
  destruct (HasPrefix (c :: k) (str "*/")) eqn:E; [done|].
  destruct (Index k (str "*/")) as [j|]; simpl; [|done].
  intros [= ->]. split; [done|]. intros -> Hh.
  destruct k as [|d k]; [done|]. injection Hh as ->. done.
Qed.

Lemma run_comment_body a b e s :
  comment_body b -> wf e -> status e = COMMENT -> inclueComment e = false ->
  rest e = b ++ str "*/" ++ s ->
  exists e', rtc (iter a) e e' /\ wf e' /\ rest e' = s /\
    text_of e' = (NORMAL, parsedSql e, SqlType e, substitute e, substitute_num e, false).
Proof.
  revert e; induction b as [|c b IH]; intros e Hb Hw Hs Hi Hr; simpl in Hr.
  - pose proof (comment_star a e _ Hs Hi (rest_cur _ _ _ Hr) (rest_next _ _ _ Hw Hr)) as Hd.
    simpl in Hd. eexists. split; [by eapply rtc_once, iter_one|].
    split; [done|]. split; [eapply rest_adv, rest_adv, Hr|].
    unfold text_of; simpl. by rewrite Hi.
  - apply comment_body_cons in Hb as [Hb Hh].
    assert (dispatch a e = Ret e) as Hd.
    { destruct (decide (c = "*"%char)) as [->|Hc].
      - rewrite (comment_star a e _ Hs Hi (rest_cur _ _ _ Hr) (rest_next _ _ _ Hw Hr)).
        rewrite bool_decide_eq_false_2; [done|]. intros Hz. apply (Hh eq_refl).
        destruct b; simpl in *; congruence.
      - by apply (comment_char a e c Hs Hi (rest_cur _ _ _ Hr)). }
    destruct (IH (adv e)) as (e' & Hrun & R); auto; [by eapply rest_adv|].
    exists e'. split; [|done]. eapply rtc_l; [by eapply iter_one|done].
Qed.

(** With comments excluded, a block comment behind a plain prefix leaves no
    trace in the normalised statement: the result is that of the statement with
    the comment cut out. *)
Theorem Process_erases_comments a sub mode p b s :
  plain_prefix p -> comment_body b ->
  exists r1 r2,
    Process a (configured sub mode false (p ++ str "/*" ++ b ++ str "*/" ++ s)) = Ret r1 /\
    Process a (configured sub mode false (p ++ s)) = Ret r2 /\
    GetParsedSql r1 = GetParsedSql r2 /\ SqlType r1 = SqlType r2.
Proof.
  intros Hp Hb. set (k := str "/*" ++ b ++ str "*/" ++ s).
  destruct (run_prefix a sub mode false p k Hp) as (e1 & A1 & A2 & A3 & A4 & A5).
  destruct (run_prefix a sub mode false p s Hp) as (e2 & B1 & B2 & B3 & B4 & B5).
  injection A5 as T1 T2 T3 T4 T5 T6. injection B5 as U1 U2 U3 U4 U5 U6.
  subst k; simpl in A4.
  set (e3 := adv (goto (adv e1) COMMENT)).
  assert (iter a e1 e3) as Hi.
  { eapply iter_one; [done..|]. unfold dispatch, _slash, in_comment.
    rewrite (rest_cur _ _ _ A4); simpl. rewrite T1, T6; simpl.
    rewrite (rest_next _ _ _ A3 A4); simpl. by rewrite T6. }
  destruct (run_comment_body a b e3 s) as (f1 & D1 & D2 & D3 & D4);
    [done|exact A3|done|done|by apply (rest_adv (adv e1) "*"), (rest_adv e1 "/")|].
  apply (Process_agree a _ _ f1 e2); [done..| |done|].
  - etrans; [done|]. eapply rtc_l; done.
  - injection D4 as V1 V2 V3 V4 V5 V6. simpl in *.
    constructor; try congruence. unfold rest in *; congruence.
Qed.

Lemma Process_erases_comments_witness :
  exists r1 r2,
    Process no_php (configured (str "#") false false
      (str "select " ++ str "/*" ++ str " it's * me " ++ str "*/" ++ str "1")) = Ret r1 /\
    Process no_php (configured (str "#") false false (str "select " ++ str "1")) = Ret r2 /\
    GetParsedSql r1 = GetParsedSql r2 /\ SqlType r1 = SqlType r2.
Proof.
  apply (Process_erases_comments no_php (str "#") false (str "select ") (str " it's * me ") (str "1")).
  - split; [repeat constructor|done].
  - reflexivity.
Defined.

(** A division operator is lost: outside literals and comments a slash that
    does not open a comment is written to neither output, so [a/b] and [ab]
    normalise to the same statement. *)
Theorem Process_drops_division a sub mode incl p c s :
  plain_prefix p -> c <> "*"%char ->
  exists r1 r2,
    Process a (configured sub mode incl (p ++ "/"%char :: c :: s)) = Ret r1 /\
    Process a (configured sub mode incl (p ++ c :: s)) = Ret r2 /\
    GetParsedSql r1 = GetParsedSql r2 /\ SqlType r1 = SqlType r2.
Proof.
  intros Hp Hc.
  destruct (run_prefix a sub mode incl p ("/"%char :: c :: s) Hp) as (e1 & A1 & A2 & A3 & A4 & A5).
  destruct (run_prefix a sub mode incl p (c :: s) Hp) as (e2 & B1 & B2 & B3 & B4 & B5).
  injection A5 as T1 T2 T3 T4 T5 T6. injection B5 as U1 U2 U3 U4 U5 U6.
  assert (iter a e1 (adv e1)) as Hi.
  { eapply iter_one; [done..|]. unfold dispatch, _slash.
    rewrite (rest_cur _ _ _ A4); simpl. rewrite T1; simpl.
    rewrite (rest_next _ _ _ A3 A4); simpl. by rewrite bool_decide_eq_false_2 by done. }
  apply (Process_agree a _ _ (adv e1) e2); [done..| |done|].
  - etrans; [done|by apply rtc_once].
  - pose proof (rest_adv _ _ _ A4) as Hr.
    constructor; simpl; try congruence; [done|]. unfold rest in *; simpl in *; congruence.
Qed.

Lemma Process_drops_division_witness :
  exists r1 r2,
    Process no_php (configured (str "#") false true (str "f(total )" ++ "/"%char :: "c"%char :: str "nt")) = Ret r1 /\
    Process no_php (configured (str "#") false true (str "f(total )" ++ "c"%char :: str "nt")) = Ret r2 /\
    GetParsedSql r1 = GetParsedSql r2 /\ SqlType r1 = SqlType r2.
Proof.
  apply (Process_drops_division no_php (str "#") false true (str "f(total )") "c" (str "nt")).
  - split; [repeat constructor|done].
  - done.
Defined.
