(* ===== verification/Steps.v ===== *)
(** The profile steps of golib and the memory they live in.

    [step.Step] is an interface of golib, outside the repository: the class
    [StepI] names the accessors the collectors use, and [StepLaws] the
    documented behaviour of getters and setters.  The collectors keep and hand
    out step pointers, and [GetSteps] renumbers the steps other holders still
    point to, so a step is a location of a shared [heap]. *)

From S2P Require Import Prelude.

Class StepI := {
  Step : Type;
  GetIndex : Step -> Z;      SetIndex : Z -> Step -> Step;
  GetParent : Step -> Z;     SetParent : Z -> Step -> Step;
  GetStartTime : Step -> Z;  SetStartTime : Z -> Step -> Step;
  GetDrop : Step -> bool;    SetDrop : bool -> Step -> Step;
  GetElapsed : Step -> Z
}.

Class StepLaws (S : StepI) : Prop := {
  index_index i s : GetIndex (SetIndex i s) = i;
  index_parent p s : GetIndex (SetParent p s) = GetIndex s;
  parent_parent p s : GetParent (SetParent p s) = p;
  parent_index i s : GetParent (SetIndex i s) = GetParent s;
  start_start x s : GetStartTime (SetStartTime x s) = x;
  start_index i s : GetStartTime (SetIndex i s) = GetStartTime s;
  start_parent p s : GetStartTime (SetParent p s) = GetStartTime s;
  elapsed_index i s : GetElapsed (SetIndex i s) = GetElapsed s;
  elapsed_parent p s : GetElapsed (SetParent p s) = GetElapsed s;
  elapsed_start x s : GetElapsed (SetStartTime x s) = GetElapsed s
}.

(** A concrete step, for the witnesses. *)
Module PlainStep.
Record t := mk { index : Z; parent : Z; start : Z; elapsed : Z; drop_ : bool }.
#[export] Instance plain : StepI := {|
  Step := t;
  GetIndex := index;      SetIndex i s := mk i (parent s) (start s) (elapsed s) (drop_ s);
  GetParent := parent;    SetParent p s := mk (index s) p (start s) (elapsed s) (drop_ s);
  GetStartTime := start;  SetStartTime x s := mk (index s) (parent s) x (elapsed s) (drop_ s);
  GetDrop := drop_;       SetDrop d s := mk (index s) (parent s) (start s) (elapsed s) d;
  GetElapsed := elapsed
|}.
#[export] Instance plain_laws : StepLaws plain.
Proof. split; done. Qed.
End PlainStep.

(** Step pointers; a [nil] interface is [None] in the collectors' arrays. *)
Abbreviation loc := nat.
Abbreviation heap := (gmap nat Step).

Section Heap.
Context `{SI : StepI}.

(** A method call through a step pointer. *)
Definition upd (h : heap) (l : loc) (f : Step -> Step) : res heap :=
  match h !! l with Some s => Ret (<[l := f s]> h) | None => Panic end.
Definition read {A} (h : heap) (l : loc) (f : Step -> A) : res A :=
  match h !! l with Some s => Ret (f s) | None => Panic end.

(** [st.SetIndex(i); st.SetParent(p)] *)
Definition stamp (i p : Z) (s : Step) : Step := SetParent p (SetIndex i s).
Definition set_index_parent (h : heap) (l : loc) (i p : Z) : res heap :=
  h ← upd h l (SetIndex i); upd h l (SetParent p).

Lemma set_index_parent_spec h l i p s :
  h !! l = Some s -> set_index_parent h l i p = Ret (<[l := stamp i p s]> h).
Proof.
  intros H. unfold set_index_parent, upd. rewrite H; simpl.
  by rewrite lookup_insert_eq, insert_insert_eq.
Qed.

(** The step table [f] applied to location [l]; used to state what a heap
    update leaves alone. *)
Definition field {A} (f : Step -> A) (h : heap) (l : loc) : option A := f <$> h !! l.

(** [for i, it := range steps { it.SetIndex(int32(i)) }] from index [i]. *)
Fixpoint renumber (h : heap) (i : Z) (ls : list loc) : res heap :=
  match ls with
  | [] => Ret h
  | l :: ls => h ← upd h l (SetIndex (int32 i)); renumber h (i + 1) ls
  end.

Lemma upd_field {A} (f : Step -> A) h l g h' k :
  upd h l g = Ret h' -> (forall s, f (g s) = f s) -> field f h' k = field f h k.
Proof.
  unfold upd, field. intros Hu Hf. destruct (h !! l) as [s|] eqn:E; simplify_eq.
  destruct (decide (l = k)) as [->|Hn].
  - by rewrite lookup_insert_eq, E; simpl; rewrite Hf.
  - by rewrite lookup_insert_ne.
Qed.

Lemma upd_ret h l g : is_Some (h !! l) -> exists h', upd h l g = Ret h' /\ dom h' = dom h.
Proof.
  intros [s Hs]. unfold upd. rewrite Hs. eexists; split; [done|].
  rewrite dom_insert_L. apply elem_of_dom_2 in Hs. set_solver.
Qed.

(** Renumbering succeeds on live steps, changes only indexes and numbers
    distinct steps by their position. *)
Lemma renumber_spec `{!StepLaws SI} h i ls :
  Forall (fun l => is_Some (h !! l)) ls -> NoDup ls ->
  exists h', renumber h i ls = Ret h' /\ dom h' = dom h /\
    (forall A (f : Step -> A), (forall j s, f (SetIndex j s) = f s) ->
       forall l, field f h' l = field f h l) /\
    (forall l, l ∉ ls -> h' !! l = h !! l) /\
    (forall k l, ls !! k = Some l -> field GetIndex h' l = Some (int32 (i + Z.of_nat k))).
Proof.
  revert h i; induction ls as [|l ls IH]; intros h i Hl Hn.
  { exists h. by repeat split. }
  inversion Hl as [|? ? Hs Hls]; inversion Hn as [|? ? Hni Hnd]; subst.
  destruct Hs as [s Hs]. cbn [renumber]. unfold upd at 1. rewrite Hs; simpl.
  destruct (IH (<[l := SetIndex (int32 i) s]> h) (i + 1)%Z) as (h' & Hr & D & F & O & K); [|done|].
  { eapply Forall_impl; [exact Hls|]. intros l' [s' Hs'].
    destruct (decide (l = l')) as [->|]; [rewrite lookup_insert_eq; eauto|].
    rewrite lookup_insert_ne; eauto. }
  exists h'. split; [done|]. split; [|split; [|split]].
  - rewrite D, dom_insert_L. apply elem_of_dom_2 in Hs. set_solver.
  - intros A f Hf k. rewrite F by done.
    apply (upd_field f h l (SetIndex (int32 i))); [|by intros; apply Hf].
    unfold upd. by rewrite Hs.
  - intros k Hk. rewrite not_elem_of_cons in Hk. destruct Hk.
    rewrite O by done. by rewrite lookup_insert_ne.
  - intros [|k] l' Hk; simpl in Hk; simplify_eq.
    + unfold field. rewrite O, lookup_insert_eq by done; simpl.
      by rewrite index_index, Z.add_0_r.
    + rewrite (K k l' Hk). f_equal. f_equal. lia.
Qed.
End Heap.

(** * A fixed array filled from the front

    [b] is an array of [n] slots of which the first [pos] hold [xs] and the rest
    are [nil]. *)
Definition filled (n : nat) (b : list (option loc)) (pos : nat) (xs : list loc) : Prop :=
  b = (Some <$> xs) ++ replicate (n - pos) None /\ pos = length xs /\ pos <= n.

Lemma filled_empty n : filled n (replicate n None) 0 [].
Proof. unfold filled. rewrite Nat.sub_0_r. repeat split; simpl; lia. Qed.

Lemma filled_length n b pos xs : filled n b pos xs -> length b = n.
Proof. intros (-> & -> & H). rewrite length_app, length_fmap, length_replicate. lia. Qed.

Lemma filled_store n b pos xs l :
  filled n b pos xs -> pos < n -> filled n (<[pos := Some l]> b) (S pos) (xs ++ [l]).
Proof.
  intros (-> & Hp & Hle) Hlt. split; [|rewrite length_app; simpl; lia].
  rewrite insert_app_r_alt by (rewrite length_fmap; lia).
  rewrite length_fmap, <- Hp, Nat.sub_diag, fmap_app, <- app_assoc. f_equal.
  replace (n - pos) with (S (n - S pos)) by lia. done.
Qed.

Lemma filled_slice n b pos xs : filled n b pos xs -> slice b 0 pos = Ret (Some <$> xs).
Proof.
  intros Hf. pose proof (filled_length _ _ _ _ Hf) as HL. destruct Hf as (-> & Hp & Hle).
  unfold slice. rewrite decide_True by lia. f_equal.
  by rewrite Nat.sub_0_r, drop_0, take_app_length' by (rewrite length_fmap; lia).
Qed.

Lemma filled_full n b xs : filled n b n xs -> b = Some <$> xs.
Proof. intros (-> & _ & _). by rewrite Nat.sub_diag, app_nil_r. Qed.

(** [chunks] are full arrays cut off the front of [log], [cur] is the rest. *)
Definition chunked (n : nat) (chunks : list (list (option loc))) (cur log : list loc) : Prop :=
  Forall (fun ch => length ch = n) chunks /\ concat chunks ++ (Some <$> cur) = Some <$> log.

Lemma chunked_store n chunks cur log l :
  chunked n chunks cur log -> chunked n chunks (cur ++ [l]) (log ++ [l]).
Proof.
  intros [Hf Hc]. split; [done|]. by rewrite !fmap_app, app_assoc, Hc.
Qed.

Lemma chunked_cut n chunks b cur log :
  chunked n chunks cur log -> filled n b n cur -> chunked n (chunks ++ [b]) [] log.
Proof.
  intros [Hf Hc] Hb. pose proof (filled_length _ _ _ _ Hb).
  split; [apply Forall_app; auto|].
  rewrite concat_app; simpl. by rewrite !app_nil_r, (filled_full _ _ _ Hb).
Qed.

(** [sort.Slice(xs, less)] of the standard library is not stable: any sorted
    permutation may result, so sorting is an operation with this contract. *)
Class SortSlice (A : Type) := {
  sort_slice : (A -> Z) -> list A -> list A;
  sort_slice_perm key l : sort_slice key l ≡ₚ l;
  sort_slice_sorted key l : Sorted (fun x y => (key x <= key y)%Z) (sort_slice key l)
}.

(** Merge sort satisfies it. *)
Section MergeSort.
Context {A : Type} (key : A -> Z).
Definition by_key (x y : A) : Prop := (key x <= key y)%Z.
#[export] Instance by_key_dec : RelDecision by_key.
Proof. intros x y. apply Z_le_dec. Defined.
#[export] Instance by_key_total : Total by_key.
Proof. intros x y. unfold by_key. lia. Qed.
End MergeSort.
#[export] Instance merge_sort_slice A : SortSlice A := {|
  sort_slice key l := merge_sort (by_key key) l;
  sort_slice_perm key l := merge_sort_Permutation (by_key key) l;
  sort_slice_sorted key l := Sorted_merge_sort (by_key key) l
|}.
