(* ===== verification/NormalCollector.v ===== *)
(** The default step collector of a transaction,
    [src/agent/agent/trace/ProfileNormalCollector.go]: a growing buffer with an
    admission rule in two tiers, every step below [normal_len], then only slow
    steps below [heavy_len].  [ProfileCollector.go] holds the same methods on
    the same fields. *)

From S2P Require Import Prelude Steps.

Module ProfileNormalCollector.
Section Ops.
Context `{SI : StepI} `{SS : SortSlice loc}.

(** The capacity [append] chooses when it has to grow a slice of the given
    capacity to the given length: the language only promises enough. *)
Context (append_cap : nat -> nat -> nat).

Record conf := {
  ProfileStepMaxCount : Z;
  ProfileStepNormalCount : Z;
  ProfileStepHeavyCount : Z;
  ProfileStepHeavyTime : Z
}.

Record t := mk {
  buffer : list loc;
  cap_ : nat;
  position : Z;
  parent_index : Z;
  buffer_len : Z;
  normal_len : Z;
  heavy_len : Z;
  heavy_time : Z
}.

(** [make([]step.Step, 0, n)] panics on a negative [n]. *)
Definition NewProfileNormalCollector (c : conf) : res t :=
  if (ProfileStepMaxCount c <? 0)%Z then Panic
  else Ret (mk [] (Z.to_nat (ProfileStepMaxCount c)) 0 (-1) (ProfileStepMaxCount c)
               (ProfileStepNormalCount c) (ProfileStepHeavyCount c) (ProfileStepHeavyTime c)).

Definition HasStep (c : t) : bool := (0 <? position c)%Z.

(** [this.buffer = append(this.buffer, st); this.position++] *)
Definition append_step (c : t) (st : loc) : t :=
  let n := S (length (buffer c)) in
  mk (buffer c ++ [st]) (if bool_decide (n <= cap_ c) then cap_ c else append_cap (cap_ c) n)
     (int32 (position c + 1)) (parent_index c) (buffer_len c) (normal_len c) (heavy_len c)
     (heavy_time c).
Definition set_parent_index (c : t) (p : Z) : t :=
  mk (buffer c) (cap_ c) (position c) p (buffer_len c) (normal_len c) (heavy_len c)
     (heavy_time c).

Definition put (h : heap) (c : t) (st : loc) : res (heap * t) :=
  h ← set_index_parent h st (position c) (parent_index c);
  Ret (h, append_step c st).

Definition Add (h : heap) (c : t) (st : loc) : res (heap * t) :=
  if (position c <? normal_len c)%Z then put h c st
  else if (position c <? heavy_len c)%Z then
    e ← read h st GetElapsed;
    if (heavy_time c <=? e)%Z then put h c st else Ret (h, c)
  else Ret (h, c).

Definition AddHeavy (h : heap) (c : t) (st : loc) : res (heap * t) :=
  if (position c <? buffer_len c)%Z then put h c st else Ret (h, c).

Definition AddTail (h : heap) (c : t) (st : loc) : res (heap * t) :=
  if (position c <? Z.of_nat (cap_ c))%Z then put h c st else Ret (h, c).

(** [this.buffer[this.position] = st] writes below the length of the slice or
    panics. *)
Definition Push (h : heap) (c : t) (st : loc) : res (heap * t) :=
  if (position c <? normal_len c)%Z then
    h ← set_index_parent h st (position c) (parent_index c);
    if (0 <=? position c)%Z && (position c <? Z.of_nat (length (buffer c)))%Z then
      Ret (h, mk (<[Z.to_nat (position c) := st]> (buffer c)) (cap_ c)
                 (int32 (position c + 1)) (position c) (buffer_len c) (normal_len c)
                 (heavy_len c) (heavy_time c))
    else Panic
  else h ← upd h st (SetDrop true); Ret (h, c).

Definition Pop (h : heap) (c : t) (st : loc) : res (heap * t) :=
  d ← read h st GetDrop;
  if d : bool then
    if (position c <? heavy_len c)%Z then
      e ← read h st GetElapsed;
      if (heavy_time c <=? e)%Z then put h c st else Ret (h, c)
    else Ret (h, c)
  else p ← read h st GetParent; Ret (h, set_parent_index c p).

Definition start_of (h : heap) (l : loc) : Z := default 0%Z (field GetStartTime h l).

(** The steps in order of start time, renumbered from 0 through the shared
    pointers.  [position <= len(buffer)] always holds, so the slice
    expression never reaches into the spare capacity. *)
Definition GetSteps (h : heap) (c : t) : res (heap * list loc) :=
  tmp ← (if (buffer_len c <=? position c)%Z then Ret (buffer c)
         else slice (buffer c) 0 (Z.to_nat (position c)));
  let tmp := sort_slice (start_of h) tmp in
  h ← renumber h 0 tmp;
  Ret (h, tmp).

(** [make] of a negative length panics. *)
Definition GetLastSteps (c : t) (n : Z) : res (list loc) :=
  let cnt := if (n <? position c)%Z then n else position c in
  if (cnt <? 0)%Z then Panic
  else
    let x := Z.to_nat (position c - cnt) in
    mapM (fun i => index_ (buffer c) (x + i)) (seq 0 (Z.to_nat cnt)).

Definition GetStep4Error (c : t) : res (list loc) := GetLastSteps c 5.

Definition IsReal (_ : t) : bool := true.

Definition Append (h : heap) (c : t) (steps : list loc) : res (heap * t) :=
  foldM (fun hc st => Add hc.1 hc.2 st) (h, c) steps.

Definition AppendParentOffsetTime (h : heap) (c : t) (parentOffsetTime : Z)
    (steps : list loc) : res (heap * t) :=
  foldM (fun hc st => h ← upd hc.1 st (SetStartTime (int32 parentOffsetTime)); Add h hc.2 st)
        (h, c) steps.

Definition GetSplitCount (_ : t) : Z := 0.
Definition Length (c : t) : Z := position c.

(** ** Invariant

    [position] is the length of the buffer and never leaves the range of
    [int32]; the capacity is an upper bound of the length. *)
Definition inv (c : t) : Prop :=
  position c = Z.of_nat (length (buffer c)) /\ length (buffer c) <= cap_ c /\
  (position c < 2 ^ 31)%Z /\ in_s 32 (buffer_len c) /\ in_s 32 (normal_len c) /\
  in_s 32 (heavy_len c).
End Ops.
End ProfileNormalCollector.
