(* ===== verification/NormalCollectorFacts.v ===== *)
(** Correctness of the default step collector: its invariant, the admission
    rule in closed form, and what its two readers return. *)

From S2P Require Import Prelude Steps NormalCollector.
Import ProfileNormalCollector.

Section Facts.
Context `{SI : StepI} {SL : StepLaws SI} `{SS : SortSlice loc}.
Context (append_cap : nat -> nat -> nat).
Hypothesis append_cap_ok : forall c n, n <= append_cap c n.

Abbreviation put := (put append_cap).
Abbreviation Add := (Add append_cap).

(** ** Invariant *)

Lemma append_step_inv c st :
  inv c -> (position c < 2 ^ 31 - 1)%Z -> inv (append_step append_cap c st).
Proof.
  unfold inv, append_step; simpl. intros (Hp & Hc & Hb & R) Hlt.
  rewrite length_app, Nat.add_1_r. rewrite int32_id by lia.
  repeat split; try apply R; [lia| |lia].
  case_bool_decide; [lia|apply append_cap_ok].
Qed.

Lemma put_inv h c st h' c' :
  inv c -> (position c < 2 ^ 31 - 1)%Z -> put h c st = Ret (h', c') -> inv c'.
Proof.
  intros Hi Hlt Hp. unfold ProfileNormalCollector.put in Hp. inv_bind. simplify_eq.
  by apply append_step_inv.
Qed.

(** The operations of the collector that write. *)
Inductive op :=
| OAdd (st : loc) | OAddHeavy (st : loc) | OAddTail (st : loc) | OPush (st : loc)
| OPop (st : loc) | OAppend (sts : list loc) | OAppendOffset (off : Z) (sts : list loc).

Definition exec (o : op) (h : heap) (c : t) : res (heap * t) :=
  match o with
  | OAdd st => Add h c st
  | OAddHeavy st => AddHeavy append_cap h c st
  | OAddTail st => AddTail append_cap h c st
  | OPush st => Push h c st
  | OPop st => Pop append_cap h c st
  | OAppend sts => Append append_cap h c sts
  | OAppendOffset off sts => AppendParentOffsetTime append_cap h c off sts
  end.

Lemma in_s_31 z : in_s 32 z -> (- 2 ^ 31 <= z < 2 ^ 31)%Z.
Proof. done. Qed.

Lemma Add_inv h c st h' c' : inv c -> Add h c st = Ret (h', c') -> inv c'.
Proof.
  intros Hi. pose proof Hi as (_ & _ & _ & _ & Hn%in_s_31 & Hh%in_s_31).
  unfold ProfileNormalCollector.Add.
  destruct (Z.ltb_spec (position c) (normal_len c)); [|destruct (Z.ltb_spec (position c) (heavy_len c))].
  - apply put_inv; [done|lia].
  - intros Ha. inv_bind. case_match; [|by simplify_eq]. eapply put_inv; [done|lia|done].
  - by intros [= <- <-].
Qed.

Lemma foldM_inv {A} (f : heap * t -> A -> res (heap * t)) hc xs hc' :
  (forall hc x hc', inv hc.2 -> f hc x = Ret hc' -> inv hc'.2) ->
  inv hc.2 -> foldM f hc xs = Ret hc' -> inv hc'.2.
Proof.
  intros Hf; revert hc; induction xs as [|x xs IH]; intros hc Hi Hx; simpl in Hx;
    [by simplify_eq|].
  inv_bind. eapply IH; [|done]. by eapply Hf.
Qed.

Lemma exec_inv o h c h' c' :
  inv c -> (forall st, o = OAddTail st -> (Z.of_nat (cap_ c) < 2 ^ 31)%Z) ->
  exec o h c = Ret (h', c') -> inv c'.
Proof.
  intros Hi Hcap. pose proof Hi as (Hp & _ & _ & Hb%in_s_31 & Hn%in_s_31 & Hh%in_s_31).
  destruct o as [st|st|st|st|st|sts|off sts]; simpl.
  - by apply Add_inv.
  - unfold AddHeavy. destruct (Z.ltb_spec (position c) (buffer_len c)); [|by intros [= <- <-]].
    apply put_inv; [done|lia].
  - specialize (Hcap st eq_refl). unfold AddTail.
    destruct (Z.ltb_spec (position c) (Z.of_nat (cap_ c))); [|by intros [= <- <-]].
    apply put_inv; [done|lia].
  - unfold Push. rewrite Hp, Z.ltb_irrefl, andb_false_r.
    case_match; intros Hx; inv_bind; simplify_eq/=; done.
  - unfold Pop. intros Hx. inv_bind. repeat (case_match; inv_bind); simplify_eq; try done.
    eapply put_inv; [done|lia|done].
  - intros Hx. eapply (foldM_inv _ (h, c) _ (h', c')) in Hx; [exact Hx| |done].
    intros [h1 c1] x [h2 c2]; simpl. apply Add_inv.
  - intros Hx. eapply (foldM_inv _ (h, c) _ (h', c')) in Hx; [exact Hx| |done].
    intros [h1 c1] x [h2 c2]; simpl. intros Hi1 Ha. inv_bind. by eapply Add_inv.
Qed.

(** ** The admission rule in closed form *)

Definition live (h : heap) (ls : list loc) : Prop := Forall (fun l => is_Some (h !! l)) ls.

(** Whether a step is slow enough for the second tier. *)
Definition slow (h : heap) (c : t) (l : loc) : bool :=
  default false (field (fun s => (heavy_time c <=? GetElapsed s)%Z) h l).

(** [n] steps are free, then slow ones up to [m] steps in all. *)
Definition admitted (n m k : nat) (P : loc -> bool) (sts : list loc) : list loc :=
  take (n - k) sts ++ take (m - k `max` n) (filter (fun l => P l = true) (drop (n - k) sts)).

Lemma admitted_free n m k P st sts :
  k < n -> admitted n m k P (st :: sts) = st :: admitted n m (S k) P sts.
Proof.
  intros Hk. unfold admitted. replace (n - k) with (S (n - S k)) by lia.
  replace (S k `max` n) with (k `max` n) by lia. done.
Qed.

Lemma admitted_slow n m k P st sts :
  n <= k < m -> P st = true -> admitted n m k P (st :: sts) = st :: admitted n m (S k) P sts.
Proof.
  intros Hk HP. unfold admitted. replace (n - k) with 0 by lia. replace (n - S k) with 0 by lia.
  cbn [take drop app]. rewrite filter_cons_True by done.
  replace (m - k `max` n) with (S (m - S k `max` n)) by lia. done.
Qed.

Lemma admitted_drop n m k P st sts :
  n <= k -> m <= k \/ P st = false -> admitted n m k P (st :: sts) = admitted n m k P sts.
Proof.
  intros Hk HP. unfold admitted. replace (n - k) with 0 by lia. cbn [take drop app].
  destruct HP as [Hm|HP].
  - replace (m - k `max` n) with 0 by lia. done.
  - rewrite filter_cons_False; [done|by rewrite HP].
Qed.

Lemma put_spec h c st s :
  h !! st = Some s ->
  put h c st = Ret (<[st := stamp (position c) (parent_index c) s]> h, append_step append_cap c st).
Proof.
  intros Hs. unfold ProfileNormalCollector.put. by rewrite (set_index_parent_spec _ _ _ _ _ Hs).
Qed.

(** What stamping leaves alone: liveness, start and elapsed times. *)
Definition stable (h h' : heap) : Prop :=
  dom h' = dom h /\ forall l, field GetElapsed h' l = field GetElapsed h l /\
                             field GetStartTime h' l = field GetStartTime h l.

Lemma stable_refl h : stable h h.
Proof. done. Qed.

Lemma stable_trans h1 h2 h3 : stable h1 h2 -> stable h2 h3 -> stable h1 h3.
Proof.
  intros [D1 F1] [D2 F2]. split; [congruence|]. intros l.
  destruct (F1 l), (F2 l). split; congruence.
Qed.

Lemma stable_stamp h st s i p : h !! st = Some s -> stable h (<[st := stamp i p s]> h).
Proof.
  intros Hs. split.
  - rewrite dom_insert_L. apply elem_of_dom_2 in Hs. set_solver.
  - intros l. unfold field. destruct (decide (st = l)) as [->|]; [|by rewrite lookup_insert_ne].
    rewrite lookup_insert_eq, Hs. unfold stamp; simpl.
    by rewrite elapsed_parent, elapsed_index, start_parent, start_index.
Qed.

Lemma stable_live h h' ls : stable h h' -> live h ls -> live h' ls.
Proof.
  intros [D _] Hl. eapply Forall_impl; [exact Hl|]. intros l. by rewrite <- !elem_of_dom, D.
Qed.

Lemma field_compose {A B} (f : A -> B) (g : Step -> A) h l :
  field (fun s => f (g s)) h l = f <$> field g h l.
Proof. unfold field. by destruct (h !! l). Qed.

Lemma stable_slow h h' c c' l :
  stable h h' -> heavy_time c' = heavy_time c -> slow h' c' l = slow h c l.
Proof.
  intros [_ F] Hc. unfold slow.
  rewrite !(field_compose (fun e => (_ <=? e)%Z)). rewrite Hc. by destruct (F l) as [-> _].
Qed.

(** One [Add], case by case. *)
Lemma Add_spec h c st s :
  inv c -> h !! st = Some s ->
  let ok := (position c <? normal_len c)%Z
            || ((position c <? heavy_len c)%Z && slow h c st) in
  exists h' c', Add h c st = Ret (h', c') /\ stable h h' /\
    buffer c' = (if ok then buffer c ++ [st] else buffer c) /\
    normal_len c' = normal_len c /\ heavy_len c' = heavy_len c /\
    heavy_time c' = heavy_time c.
Proof.
  intros Hi Hs. unfold ProfileNormalCollector.Add, slow, field, read.
  rewrite Hs, (put_spec _ _ _ _ Hs); simpl.
  destruct (Z.ltb_spec (position c) (normal_len c)); simpl;
    [|destruct (Z.ltb_spec (position c) (heavy_len c)); simpl; [destruct (_ <=? _)%Z; simpl|]];
    do 2 eexists; (split; [done|]); split; first [by apply stable_stamp | by repeat split].
Qed.

Lemma Append_admitted h c sts :
  inv c -> live h sts ->
  exists h' c', Append append_cap h c sts = Ret (h', c') /\ inv c' /\ stable h h' /\
    buffer c' = buffer c ++ admitted (Z.to_nat (normal_len c)) (Z.to_nat (heavy_len c))
                              (length (buffer c)) (slow h c) sts.
Proof.
  revert h c; induction sts as [|st sts IH]; intros h c Hi Hl.
  { exists h, c. unfold Append; simpl. repeat split; try apply Hi.
    unfold admitted. by rewrite take_nil, drop_nil, filter_nil, take_nil, !app_nil_r. }
  inversion Hl as [|? ? [s Hs] Hls]; subst.
  destruct (Add_spec h c st s Hi Hs) as (h1 & c1 & HA & Hst & Hb & N1 & N2 & N3).
  pose proof (Add_inv _ _ _ _ _ Hi HA) as Hi1.
  destruct (IH h1 c1 Hi1 (stable_live _ _ _ Hst Hls)) as (h2 & c2 & HA2 & Hi2 & Hst2 & Hb2).
  exists h2, c2. unfold Append in *; simpl. rewrite HA; simpl.
  split; [exact HA2|]. split; [done|]. split; [by eapply stable_trans|].
  rewrite Hb2, Hb, N1, N2.
  assert (filter_ext : forall xs : list loc, filter (fun l => slow h1 c1 l = true) xs
                       = filter (fun l => slow h c l = true) xs).
  { intros xs. apply list_filter_iff. intros l. by rewrite (stable_slow h h1 c c1). }
  assert (forall n m k, admitted n m k (slow h1 c1) sts = admitted n m k (slow h c) sts) as Hadm.
  { intros n m k. unfold admitted. by rewrite filter_ext. }
  rewrite Hadm. destruct Hi as (Hp & _).
  destruct (Z.ltb_spec (position c) (normal_len c)); cbn [orb].
  { rewrite length_app, Nat.add_1_r, <- app_assoc, admitted_free by lia. done. }
  destruct (Z.ltb_spec (position c) (heavy_len c)); cbn [andb].
  - destruct (slow h c st) eqn:E; cbn [orb].
    + rewrite length_app, Nat.add_1_r, <- app_assoc, admitted_slow by (done || lia). done.
    + by rewrite admitted_drop by (auto || lia).
  - rewrite admitted_drop by (auto || lia). done.
Qed.

Definition conf_ok (k : conf) : Prop :=
  (0 <= ProfileStepMaxCount k)%Z /\ in_s 32 (ProfileStepMaxCount k) /\
  in_s 32 (ProfileStepNormalCount k) /\ in_s 32 (ProfileStepHeavyCount k).

Lemma New_inv k :
  conf_ok k -> exists c, NewProfileNormalCollector k = Ret c /\ inv c /\ buffer c = [] /\
    normal_len c = ProfileStepNormalCount k /\ heavy_len c = ProfileStepHeavyCount k /\
    heavy_time c = ProfileStepHeavyTime k.
Proof.
  intros (H0 & H1 & H2 & H3). unfold NewProfileNormalCollector.
  destruct (Z.ltb_spec (ProfileStepMaxCount k) 0); [lia|].
  eexists. split; [done|]. by repeat split; simpl; try apply H1; try apply H2; try apply H3; try lia.
Qed.

Lemma field_live (h h' : heap) (ls : list loc) : dom h' = dom h -> live h ls -> live h' ls.
Proof.
  intros D Hl. eapply Forall_impl; [exact Hl|]. intros l. by rewrite <- !elem_of_dom, D.
Qed.

Lemma GetSteps_spec h c :
  inv c -> live h (buffer c) -> NoDup (buffer c) ->
  exists h' out, GetSteps h c = Ret (h', out) /\
    out ≡ₚ buffer c /\
    Sorted (fun x y => (start_of h' x <= start_of h' y)%Z) out /\
    (forall k l, out !! k = Some l -> field GetIndex h' l = Some (int32 (Z.of_nat k))) /\
    (forall A (f : Step -> A), (forall j s, f (SetIndex j s) = f s) ->
       forall l, field f h' l = field f h l).
Proof.
  intros (Hp & Hcap & Hb & _) Hl Hn. unfold GetSteps.
  assert ((if (buffer_len c <=? position c)%Z then Ret (buffer c)
           else slice (buffer c) 0 (Z.to_nat (position c))) = Ret (buffer c)) as ->.
  { destruct (_ <=? _)%Z; [done|]. unfold slice. rewrite decide_True by lia.
    rewrite Hp, Nat2Z.id, Nat.sub_0_r, drop_0. by rewrite take_ge by lia. }
  simpl. set (out := sort_slice (start_of h) (buffer c)).
  assert (out ≡ₚ buffer c) as Hperm by apply sort_slice_perm.
  destruct (renumber_spec h 0 out) as (h' & Hr & D & F & O & K).
  { by rewrite Hperm. }
  { by rewrite Hperm. }
  exists h', out. rewrite Hr; simpl. split; [done|]. split; [done|].
  assert (forall l, start_of h' l = start_of h l) as Hs.
  { intros l. unfold start_of. rewrite F; [done|]. intros; apply start_index. }
  split; [|split; [|exact F]].
  - pose proof (sort_slice_sorted (start_of h) (buffer c)) as HS. fold out in HS.
    eapply Sorted_weaken; [|exact HS]. intros x y. by rewrite !Hs.
  - intros k l Hk. by apply K.
Qed.

Lemma GetLastSteps_spec c n :
  inv c -> (0 <= n)%Z ->
  GetLastSteps c n = Ret (drop (length (buffer c) - Z.to_nat n) (buffer c)).
Proof.
  intros (Hp & _) Hn. unfold GetLastSteps.
  set (cnt := if (n <? position c)%Z then n else position c).
  assert (0 <= cnt <= position c)%Z by (subst cnt; destruct (Z.ltb_spec n (position c)); lia).
  destruct (Z.ltb_spec cnt 0); [lia|].
  rewrite index_range by lia. rewrite take_ge by (rewrite length_drop; lia).
  f_equal. f_equal. subst cnt. destruct (Z.ltb_spec n (position c)); lia.
Qed.
End Facts.

(** * The properties *)

Section Props.
Context `{SI : StepI} {SL : StepLaws SI} `{SS : SortSlice loc}.
Context (append_cap : nat -> nat -> nat).

(** The collector's invariant ([position] is the length of the buffer, the
    capacity bounds it, no [int32] counter overflows) holds initially for every
    admissible configuration and is preserved by every operation that returns. *)
Theorem Normal_collector_invariant k o h c h' c' :
  (forall a b, b <= append_cap a b) ->
  conf_ok k -> inv c ->
  (forall st, o = OAddTail st -> (Z.of_nat (cap_ c) < 2 ^ 31)%Z) ->
  exec append_cap o h c = Ret (h', c') ->
  (exists c0, NewProfileNormalCollector k = Ret c0 /\ inv c0) /\ inv c'.
Proof.
  intros Hcap Hk Hi Ht He. split.
  - destruct (New_inv k Hk) as (c0 & H0 & Hi0 & _). eauto.
  - by eapply exec_inv.
Qed.

(** The admission rule in closed form: appending any live steps to a fresh
    collector returns, and keeps the first [normal_len] of them plus, of the
    rest, the slow ones ([heavy_time] or longer) up to [heavy_len] in all. *)
Theorem Append_admission k h sts :
  (forall a b, b <= append_cap a b) ->
  conf_ok k -> live h sts ->
  exists c0 h' c', NewProfileNormalCollector k = Ret c0 /\
    Append append_cap h c0 sts = Ret (h', c') /\
    let n := Z.to_nat (ProfileStepNormalCount k) in
    let m := Z.to_nat (ProfileStepHeavyCount k) in
    buffer c' = take n sts ++ take (m - n) (filter (fun l => slow h c0 l = true) (drop n sts)).
Proof.
  intros Hcap Hk Hl.
  destruct (New_inv k Hk) as (c0 & H0 & Hi & Hb & Hn & Hh & _).
  destruct (Append_admitted append_cap Hcap h c0 sts Hi Hl) as (h' & c' & HA & _ & _ & Hb').
  exists c0, h', c'. split; [done|]. split; [done|]. cbv zeta.
  rewrite Hb', Hb, Hn, Hh. unfold admitted. cbn [length app].
  by rewrite Nat.sub_0_r, Nat.max_0_l.
Qed.

(** [GetSteps] returns the collected steps in order of start time,
    renumbered from 0 through the shared pointers, and changes nothing but step
    indexes, provided no step was collected twice. *)
Theorem GetSteps_sorted h c :
  inv c -> live h (buffer c) -> NoDup (buffer c) ->
  exists h' out, GetSteps h c = Ret (h', out) /\
    out ≡ₚ buffer c /\
    Sorted (fun x y => (start_of h' x <= start_of h' y)%Z) out /\
    (forall k l, out !! k = Some l -> field GetIndex h' l = Some (int32 (Z.of_nat k))) /\
    (forall A (f : Step -> A), (forall j s, f (SetIndex j s) = f s) ->
       forall l, field f h' l = field f h l).
Proof. apply GetSteps_spec. Qed.

(** [Push] never stores a step: the buffer is created with length 0 and
    only grows by [append], so whenever the step would be admitted the indexed
    write is out of range and the call panics. *)
Theorem Push_panics h c st :
  inv c -> is_Some (h !! st) -> (position c < normal_len c)%Z -> Push h c st = Panic.
Proof.
  intros (Hp & _) [s Hs] Hlt. unfold Push.
  destruct (Z.ltb_spec (position c) (normal_len c)); [|lia].
  rewrite (set_index_parent_spec _ _ _ _ _ Hs); simpl.
  by rewrite Hp, Z.ltb_irrefl, andb_false_r.
Qed.
End Props.

Section Witness.
Import PlainStep.
#[local] Existing Instance plain.
Definition conf1 : conf :=
  {| ProfileStepMaxCount := 4; ProfileStepNormalCount := 1;
     ProfileStepHeavyCount := 2; ProfileStepHeavyTime := 50 |}.
Definition st_ (s e : Z) : Step := PlainStep.mk 0 0 s e false.
Definition heap1 : heap := list_to_map [(1, st_ 30 10); (2, st_ 20 5); (3, st_ 10 70)].
Definition c1 : ProfileNormalCollector.t :=
  ProfileNormalCollector.mk [1; 3] 4 2 (-1) 4 1 2 50.
Lemma c1_inv : inv c1.
Proof. unfold inv, in_s, c1; simpl; lia. Qed.
Lemma conf1_ok : conf_ok conf1.
Proof. unfold conf_ok, in_s, conf1; simpl; lia. Qed.
Lemma heap1_live : live heap1 [1; 2; 3].
Proof. repeat constructor; eexists; vm_compute; reflexivity. Qed.

Lemma Normal_collector_invariant_witness :
  exists h' c', exec (fun _ n => n) (OAdd 1) heap1 c1 = Ret (h', c') /\ inv c'.
Proof.
  do 2 eexists. split; [reflexivity|].
  refine (proj2 (Normal_collector_invariant (fun _ n => n) conf1 (OAdd 1) heap1 c1 _ _
                   _ conf1_ok c1_inv _ _)).
  - lia.
  - intros st Hst; discriminate.
  - reflexivity.
Defined.

Lemma Append_admission_witness :
  exists c0 h' c', NewProfileNormalCollector conf1 = Ret c0 /\
    Append (fun _ n => n) heap1 c0 [1; 2; 3] = Ret (h', c') /\ buffer c' = [1; 3].
Proof.
  destruct (Append_admission (fun _ n => n) conf1 heap1 [1; 2; 3]) as (c0 & h' & c' & H0 & HA & Hb).
  - lia.
  - exact conf1_ok.
  - exact heap1_live.
  - exists c0, h', c'. split; [exact H0|]. split; [exact HA|].
    vm_compute in H0. injection H0 as <-. rewrite Hb. vm_compute. reflexivity.
Defined.

Lemma GetSteps_sorted_witness :
  exists h' out, GetSteps heap1 c1 = Ret (h', out) /\ out ≡ₚ [1; 3].
Proof.
  destruct (GetSteps_sorted heap1 c1) as (h' & out & HG & Hp & _).
  - exact c1_inv.
  - repeat constructor; eexists; vm_compute; reflexivity.
  - apply (bool_decide_unpack _). vm_compute. exact I.
  - exists h', out. split; [exact HG|exact Hp].
Defined.

Lemma Push_panics_witness :
  Push heap1 (ProfileNormalCollector.mk [] 4 0 (-1) 4 1 2 50) 1 = Panic.
Proof.
  apply Push_panics.
  - unfold inv, in_s; simpl; lia.
  - eexists; vm_compute; reflexivity.
  - simpl; lia.
Defined.
End Witness.
