(* ===== verification/CircularCollector.v ===== *)
(** The circular step collector,
    [src/agent/agent/trace/ProfileCircularCollector.go]: a fixed array written
    round and round, and its refinement of "the last [BUFFER_LEN] steps". *)

From S2P Require Import Prelude Steps.

Module ProfileCircularCollector.
Section Ops.
Context `{SI : StepI}.

(** [loop] and [position] are Go [int]s that start at 0 and only count up, so
    they are kept in [nat]; the step index is an [int32]. *)
Record t := mk {
  BUFFER_LEN : nat;
  buffer : list (option loc);
  loop : nat;
  position : nat;
  thisIndex : Z;
  parentIndex : Z
}.

(** [TraceStepMaxCount] is a Go [int]; [make] of a negative length panics. *)
Definition NewProfileCircularCollector (TraceStepMaxCount : Z) : res t :=
  if (TraceStepMaxCount <? 0)%Z then Panic
  else Ret (mk (Z.to_nat TraceStepMaxCount) (replicate (Z.to_nat TraceStepMaxCount) None) 0 0 0 (-1)).

Definition HasStep (c : t) : bool := bool_decide (0 < position c).

(** [if this.position >= this.BUFFER_LEN { this.loop++; this.position = 0 }] *)
Definition wrap (c : t) : t :=
  if bool_decide (BUFFER_LEN c <= position c)
  then mk (BUFFER_LEN c) (buffer c) (S (loop c)) 0 (thisIndex c) (parentIndex c)
  else c.

(** [this.buffer[this.position] = st; this.position++; this.thisIndex++] *)
Definition store (c : t) (st : loc) : res t :=
  if bool_decide (position c < length (buffer c))
  then Ret (mk (BUFFER_LEN c) (<[position c := Some st]> (buffer c)) (loop c)
               (S (position c)) (int32 (thisIndex c + 1)) (parentIndex c))
  else Panic.

Definition set_parentIndex (c : t) (p : Z) : t :=
  mk (BUFFER_LEN c) (buffer c) (loop c) (position c) (thisIndex c) p.

Definition Push (h : heap) (c : t) (st : loc) : res (heap * t) :=
  let c := wrap c in
  h ← set_index_parent h st (thisIndex c) (parentIndex c);
  let c := set_parentIndex c (thisIndex c) in
  c ← store c st; Ret (h, c).

Definition Add (h : heap) (c : t) (st : loc) : res (heap * t) :=
  let c := wrap c in
  h ← set_index_parent h st (thisIndex c) (parentIndex c);
  c ← store c st; Ret (h, c).

Definition AddHeavy (h : heap) (c : t) (st : loc) : res (heap * t) :=
  let c := wrap c in
  h ← set_index_parent h st (thisIndex c) (parentIndex c);
  c ← store c st; Ret (h, c).

Definition JustAdd (h : heap) (c : t) (st : loc) : res (heap * t) :=
  let c := wrap c in
  c ← store c st; Ret (h, c).

Definition AddTail (h : heap) (c : t) (st : loc) : res (heap * t) :=
  let c := wrap c in
  h ← set_index_parent h st (thisIndex c) (parentIndex c);
  c ← store c st; Ret (h, c).

Definition Pop (h : heap) (c : t) (st : loc) : res (heap * t) :=
  p ← read h st GetParent; Ret (h, set_parentIndex c p).

(** The loop [for y >= 0] of [GetLastSteps]: [k] entries are left to fill,
    from the back. *)
Fixpoint back (c : t) (k : nat) (x : Z) (acc : list (option loc)) : res (list (option loc)) :=
  match k with
  | 0 => Ret acc
  | S k =>
      let x := if (x <? 0)%Z then (Z.of_nat (BUFFER_LEN c) - 1)%Z else x in
      v ← (if (x <? 0)%Z then Panic else index_ (buffer c) (Z.to_nat x));
      back c k (x - 1) (v :: acc)
  end.

Definition GetLastSteps (c : t) (n : Z) : res (list (option loc)) :=
  if bool_decide (loop c = 0) then
    let cnt := if (n <? Z.of_nat (position c))%Z then n else Z.of_nat (position c) in
    if (cnt <? 0)%Z then Panic
    else
      let x := Z.to_nat (Z.of_nat (position c) - cnt) in
      mapM (fun i => index_ (buffer c) (x + i)) (seq 0 (Z.to_nat cnt))
  else if (n <? 0)%Z then Panic
  else back c (Z.to_nat n) (Z.of_nat (position c) - 1) [].

Definition GetSteps (c : t) : res (list (option loc)) :=
  if bool_decide (loop c = 0) then
    if bool_decide (length (buffer c) <= position c) then Ret (buffer c)
    else slice (buffer c) 0 (position c)
  else if bool_decide (position c = 0) then Ret (buffer c)
  else
    a ← slice (buffer c) (position c) (position c + BUFFER_LEN c - position c);
    b ← slice (buffer c) 0 (position c);
    Ret (a ++ b).

Definition GetStep4Error (c : t) : res (list (option loc)) := GetLastSteps c 5.
Definition IsReal (_ : t) : bool := true.

Definition Append (h : heap) (c : t) (steps : list loc) : res (heap * t) :=
  foldM (fun hc st => Add hc.1 hc.2 st) (h, c) steps.

Definition AppendParentOffsetTime (h : heap) (c : t) (parentOffsetTime : Z)
    (steps : list loc) : res (heap * t) :=
  foldM (fun hc st =>
           s ← read hc.1 st GetStartTime;
           h ← upd hc.1 st (SetStartTime (int32 (s + int32 parentOffsetTime)));
           Add h hc.2 st) (h, c) steps.

Definition GetSplitCount (_ : t) : Z := 0.
Definition Length (c : t) : nat := loop c * BUFFER_LEN c + position c.
End Ops.

(** * Refinement of "the last [BUFFER_LEN] steps" *)

Definition lastn {A} (n : nat) (l : list A) : list A := drop (length l - n) l.

(** The array holds the newest lap in front and, past the cursor, what the
    previous lap left there ([nil] on the first lap). *)
Definition older (n loop pos : nat) (log : list loc) : list (option loc) :=
  match loop with
  | 0 => replicate (n - pos) None
  | S k => Some <$> drop (k * n + pos) (take (S k * n) log)
  end.

Definition ring (c : t) (log : list loc) : Prop :=
  0 < BUFFER_LEN c /\ position c <= BUFFER_LEN c /\
  length log = loop c * BUFFER_LEN c + position c /\
  (loop c = 0 \/ 0 < position c) /\
  buffer c = (Some <$> drop (loop c * BUFFER_LEN c) log)
             ++ older (BUFFER_LEN c) (loop c) (position c) log.

Lemma older_length n l p log :
  p <= n -> length log = l * n + p -> length (older n l p log) = n - p.
Proof.
  intros Hp Hl. destruct l as [|k]; simpl; [by rewrite length_replicate|].
  rewrite length_fmap, length_drop, length_take. simpl in *. lia.
Qed.

Lemma ring_length c log : ring c log -> length (buffer c) = BUFFER_LEN c.
Proof.
  intros (Hn & Hp & Hl & _ & ->). rewrite length_app, length_fmap, length_drop.
  rewrite older_length by done. lia.
Qed.

Lemma older_step n l p log st :
  p < n -> length log = l * n + p ->
  drop 1 (older n l p log) = older n l (S p) (log ++ [st]).
Proof.
  intros Hp Hl. destruct l as [|k]; simpl.
  - replace (n - p) with (S (n - S p)) by lia. done.
  - rewrite <- fmap_drop, drop_drop. f_equal.
    rewrite take_app_le by (simpl in Hl; lia). f_equal. lia.
Qed.

Lemma older_wrap n l log st :
  0 < n -> length log = S l * n ->
  drop 1 (Some <$> drop (l * n) log) = older n (S l) 1 (log ++ [st]).
Proof.
  intros Hn Hl. simpl. rewrite <- fmap_drop, drop_drop.
  rewrite take_app_le by (simpl in Hl; lia). f_equal. f_equal.
  rewrite take_ge; [done|simpl in Hl; lia].
Qed.

(** Writing at the cursor, wrapping first when it is at the end, appends to the
    log. *)
Lemma store_ring c log st :
  ring c log -> exists c', store (wrap c) st = Ret c' /\ ring c' (log ++ [st]) /\
    thisIndex c' = int32 (thisIndex c + 1) /\ BUFFER_LEN c' = BUFFER_LEN c.
Proof.
  intros Hr. pose proof (ring_length c log Hr) as HL.
  destruct Hr as (Hn & Hp & Hl & Hz & Hb). unfold wrap.
  destruct (bool_decide_reflect (BUFFER_LEN c <= position c)) as [Hw|Hw]; unfold store; simpl.
  - assert (position c = BUFFER_LEN c) as Hpe by lia.
    rewrite bool_decide_eq_true_2 by lia. eexists. split; [done|]. split; [|done].
    assert (older (BUFFER_LEN c) (loop c) (position c) log = []) as Ho.
    { apply nil_length_inv. rewrite older_length by done. lia. }
    unfold ring; simpl. split; [done|]. split; [lia|].
    split; [rewrite length_app; simpl; lia|]. split; [right; lia|].
    rewrite Hb, Ho, app_nil_r.
    assert (length log = S (loop c) * BUFFER_LEN c) as Hl' by (simpl; lia).
    pose proof (older_wrap _ _ _ st Hn Hl') as Ho'. simpl in Ho'. rewrite <- Ho'.
    rewrite drop_app_length' by (simpl; lia).
    destruct (drop (loop c * BUFFER_LEN c) log) as [|x xs] eqn:E; [|done].
    apply drop_nil_length in E. lia.
  - rewrite bool_decide_eq_true_2 by lia. eexists. split; [done|]. split; [|done].
    unfold ring; simpl. split; [done|]. split; [lia|].
    split; [rewrite length_app; simpl; lia|]. split; [right; lia|].
    rewrite Hb. rewrite insert_app_r_alt; rewrite length_fmap, length_drop; [|lia].
    replace (position c - (length log - loop c * BUFFER_LEN c)) with 0 by lia.
    rewrite drop_app_le, fmap_app by lia. rewrite <- app_assoc. f_equal.
    rewrite <- (older_step _ _ _ log st) by lia.
    pose proof (older_length (BUFFER_LEN c) (loop c) (position c) log Hp Hl) as Hol.
    destruct (older _ _ _ _) as [|x xs]; simpl in *; [lia|done].
Qed.

Lemma New_ring n :
  (0 < n)%Z -> exists c, NewProfileCircularCollector n = Ret c /\ ring c [] /\
    BUFFER_LEN c = Z.to_nat n.
Proof.
  intros Hn. unfold NewProfileCircularCollector. destruct (Z.ltb_spec n 0); [lia|].
  eexists. split; [done|]. split; [|done]. unfold ring; simpl.
  rewrite Nat.sub_0_r. repeat split; [lia|lia|by left].
Qed.

(** What is at index [i] of the array after the first lap. *)
Lemma ring_lookup c log i :
  ring c log -> 0 < loop c -> i < BUFFER_LEN c ->
  exists l, buffer c !! i = Some (Some l) /\
    log !! ((if bool_decide (i < position c) then loop c else pred (loop c)) * BUFFER_LEN c + i)
    = Some l.
Proof.
  intros Hr Hl Hi. pose proof (ring_length c log Hr) as HL.
  destruct Hr as (Hn & Hp & Hll & _ & Hb). destruct (loop c) as [|k]; [lia|]. simpl in *.
  case_bool_decide as Hip.
  - destruct (lookup_lt_is_Some_2 log (BUFFER_LEN c + k * BUFFER_LEN c + i)) as [l Hlog]; [lia|].
    exists l. split; [|done]. rewrite Hb, lookup_app_l by (rewrite length_fmap, length_drop; lia).
    by rewrite list_lookup_fmap, lookup_drop, Hlog.
  - destruct (lookup_lt_is_Some_2 log (k * BUFFER_LEN c + i)) as [l Hlog]; [lia|].
    exists l. split; [|done]. rewrite Hb, lookup_app_r by (rewrite length_fmap, length_drop; lia).
    rewrite length_fmap, length_drop, list_lookup_fmap, lookup_drop, lookup_take_lt by lia.
    replace (k * BUFFER_LEN c + position c
             + (i - (length log - (BUFFER_LEN c + k * BUFFER_LEN c)))) with (k * BUFFER_LEN c + i) by lia.
    by rewrite Hlog.
Qed.

Lemma lastn_S {A} (l : list A) j x :
  l !! (length l - S j) = Some x -> j < length l -> lastn (S j) l = x :: lastn j l.
Proof.
  intros Hx Hj. unfold lastn. rewrite (drop_S _ _ _ Hx). f_equal. f_equal. lia.
Qed.

Lemma back_spec c log k j acc x :
  ring c log -> 0 < loop c -> j + k <= BUFFER_LEN c ->
  x = (if bool_decide (j <= position c)%nat then Z.of_nat (position c) - 1 - Z.of_nat j
       else Z.of_nat (BUFFER_LEN c) - 1 - Z.of_nat (j - position c))%Z ->
  acc = Some <$> lastn j log ->
  back c k x acc = Ret (Some <$> lastn (j + k) log).
Proof.
  intros Hr Hl. revert j acc x; induction k as [|k IH]; intros j acc x Hjk Hx Hacc.
  { subst acc. simpl. by rewrite Nat.add_0_r. }
  pose proof Hr as (Hn & Hp & Hll & [Hz|Hz] & _); [lia|].
  assert (loop c * BUFFER_LEN c >= BUFFER_LEN c) as Hge by nia.
  cbn [back].
  set (i := if bool_decide (j < position c) then position c - 1 - j
            else BUFFER_LEN c - 1 - (j - position c)).
  assert ((if (x <? 0)%Z then (Z.of_nat (BUFFER_LEN c) - 1)%Z else x) = Z.of_nat i) as ->.
  { subst x i. destruct (decide (j < position c)).
    - rewrite !bool_decide_eq_true_2 by lia. destruct (Z.ltb_spec
        (Z.of_nat (position c) - 1 - Z.of_nat j) 0); lia.
    - rewrite (bool_decide_eq_false_2 (j < position c)) by lia.
      destruct (decide (j = position c)).
      + rewrite bool_decide_eq_true_2 by lia.
        destruct (Z.ltb_spec (Z.of_nat (position c) - 1 - Z.of_nat j) 0); lia.
      + rewrite bool_decide_eq_false_2 by lia.
        destruct (Z.ltb_spec (Z.of_nat (BUFFER_LEN c) - 1 - Z.of_nat (j - position c)) 0); lia. }
  destruct (Z.ltb_spec (Z.of_nat i) 0); [lia|]. rewrite Nat2Z.id.
  assert (i < BUFFER_LEN c) as Hi by (subst i; case_bool_decide; lia).
  destruct (ring_lookup c log i Hr Hl Hi) as (l & Hb & Hlog).
  unfold index_. rewrite Hb; simpl.
  replace (j + S k) with (S j + k) by lia.
  assert (log !! (length log - S j) = Some l) as Hlast.
  { rewrite <- Hlog. f_equal. subst i. destruct (loop c) as [|q]; [lia|].
    repeat case_bool_decide; simpl in *; lia. }
  apply IH; [lia| |].
  - subst i. repeat case_bool_decide; lia.
  - subst acc. rewrite (lastn_S _ _ _ Hlast) by lia. done.
Qed.

Lemma GetSteps_ring c log :
  ring c log -> GetSteps c = Ret (Some <$> lastn (BUFFER_LEN c) log).
Proof.
  intros Hr. pose proof (ring_length c log Hr) as HL.
  destruct Hr as (Hn & Hp & Hl & Hz & Hb). unfold GetSteps, slice, lastn.
  destruct (bool_decide_reflect (loop c = 0)) as [H0|H0].
  - rewrite H0 in *. simpl in *. replace (length log - BUFFER_LEN c) with 0 by lia.
    rewrite drop_0 in Hb. rewrite drop_0. case_bool_decide as Hf.
    + f_equal. rewrite Hb. replace (BUFFER_LEN c - position c) with 0 by lia.
      by rewrite app_nil_r.
    + rewrite decide_True by lia. f_equal. rewrite Nat.sub_0_r, drop_0, Hb.
      rewrite take_app_le by (rewrite length_fmap; lia).
      by rewrite take_ge by (rewrite length_fmap; lia).
  - destruct Hz as [Hz|Hz]; [lia|]. rewrite bool_decide_eq_false_2 by lia.
    rewrite !decide_True by lia. simpl. f_equal.
    rewrite Nat.sub_0_r, drop_0.
    rewrite (take_ge (drop (position c) (buffer c))) by (rewrite length_drop; lia).
    rewrite Hb, drop_app_length', take_app_length'
      by (rewrite length_fmap, length_drop; lia).
    destruct (loop c) as [|k]; [lia|]. simpl in *.
    rewrite <- fmap_app. f_equal.
    replace (length log - BUFFER_LEN c) with (k * BUFFER_LEN c + position c) by lia.
    set (m := BUFFER_LEN c + k * BUFFER_LEN c).
    rewrite <- (take_drop m log) at 3. rewrite drop_app_le; [done|].
    rewrite length_take. lia.
Qed.

Lemma GetLastSteps_ring c log n :
  ring c log -> (0 <= n)%Z -> loop c = 0 \/ (n <= Z.of_nat (BUFFER_LEN c))%Z ->
  GetLastSteps c n = Ret (Some <$> lastn (Z.to_nat n) log).
Proof.
  intros Hr Hn Hor. unfold GetLastSteps.
  destruct (bool_decide_reflect (loop c = 0)) as [H0|H0].
  - pose proof (ring_length c log Hr) as HL.
    destruct Hr as (Hbn & Hp & Hl & _ & Hb). rewrite H0 in *. simpl in *.
    set (cnt := if (n <? Z.of_nat (position c))%Z then n else Z.of_nat (position c)).
    assert (0 <= cnt <= Z.of_nat (position c))%Z as Hc
      by (subst cnt; destruct (Z.ltb_spec n (Z.of_nat (position c))); lia).
    destruct (Z.ltb_spec cnt 0); [lia|].
    rewrite index_range by lia. f_equal. unfold lastn.
    rewrite Hb, drop_0, drop_app_le, <- fmap_drop by (rewrite length_fmap; lia).
    rewrite take_app_le by (rewrite length_fmap, length_drop; lia).
    rewrite take_ge by (rewrite length_fmap, length_drop; lia).
    f_equal. f_equal. subst cnt. destruct (Z.ltb_spec n (Z.of_nat (position c))); lia.
  - destruct Hor as [?|Hle]; [done|]. destruct (Z.ltb_spec n 0); [lia|].
    rewrite (back_spec c log _ 0); [done|done|lia|lia| |].
    + rewrite bool_decide_eq_true_2 by lia. lia.
    + unfold lastn. by rewrite Nat.sub_0_r, drop_all.
Qed.
End ProfileCircularCollector.

(** The circular collector implements "keep the last [BUFFER_LEN] steps". *)

Import ProfileCircularCollector.

Section Facts.
Context `{SI : StepI} {SL : StepLaws SI}.

Inductive op :=
| OPush (st : loc) | OAdd (st : loc) | OAddHeavy (st : loc) | OJustAdd (st : loc)
| OAddTail (st : loc) | OPop (st : loc) | OAppend (sts : list loc).

Definition exec (hc : heap * t) (o : op) : res (heap * t) :=
  match o with
  | OPush st => Push hc.1 hc.2 st
  | OAdd st => Add hc.1 hc.2 st
  | OAddHeavy st => AddHeavy hc.1 hc.2 st
  | OJustAdd st => JustAdd hc.1 hc.2 st
  | OAddTail st => AddTail hc.1 hc.2 st
  | OPop st => Pop hc.1 hc.2 st
  | OAppend sts => Append hc.1 hc.2 sts
  end.

(** The abstract collector: the list of everything ever stored. *)
Definition stored (o : op) : list loc :=
  match o with
  | OPush st | OAdd st | OAddHeavy st | OJustAdd st | OAddTail st => [st]
  | OPop _ => []
  | OAppend sts => sts
  end.
Definition mentions (o : op) : list loc :=
  match o with OPop st => [st] | _ => stored o end.

Definition live (h : heap) (ls : list loc) : Prop := Forall (fun l => is_Some (h !! l)) ls.

Lemma stamp_live h l i p ls s :
  h !! l = Some s -> live h ls -> live (<[l := stamp i p s]> h) ls.
Proof.
  intros Hs Hl. eapply Forall_impl; [exact Hl|]. intros k Hk. destruct (decide (l = k)) as [->|].
  - rewrite lookup_insert_eq; eauto.
  - by rewrite lookup_insert_ne.
Qed.

(** Every storing operation stamps the step, appends it to the log and keeps
    steps alive. *)
Definition stores (h : heap) (c : t) (log new : list loc) (m : res (heap * t)) : Prop :=
  exists h' c', m = Ret (h', c') /\ ring c' (log ++ new) /\ BUFFER_LEN c' = BUFFER_LEN c /\
    forall ls, live h ls -> live h' ls.

Lemma Add_stores h c log st :
  ring c log -> is_Some (h !! st) -> stores h c log [st] (Add h c st).
Proof.
  intros Hr [s Hs]. unfold Add. rewrite (set_index_parent_spec _ _ _ _ _ Hs); simpl.
  destruct (store_ring c log st Hr) as (c' & -> & Hr' & _ & HB); simpl.
  do 2 eexists. split; [done|]. split; [done|]. split; [done|].
  intros ls. by apply stamp_live.
Qed.

Lemma ring_parent c log p : ring c log -> ring (set_parentIndex c p) log.
Proof. done. Qed.

Lemma Push_stores h c log st :
  ring c log -> is_Some (h !! st) -> stores h c log [st] (Push h c st).
Proof.
  intros Hr [s Hs]. unfold Push. rewrite (set_index_parent_spec _ _ _ _ _ Hs); simpl.
  assert (set_parentIndex (wrap c) (thisIndex (wrap c)) =
          wrap (set_parentIndex c (thisIndex (wrap c)))) as ->.
  { unfold wrap; simpl. by case_bool_decide. }
  destruct (store_ring _ log st (ring_parent c log (thisIndex (wrap c)) Hr))
    as (c' & -> & Hr' & _ & HB); simpl.
  do 2 eexists. split; [done|]. split; [done|]. split; [done|].
  intros ls. by apply stamp_live.
Qed.

Lemma Append_stores sts h c log :
  ring c log -> live h sts -> stores h c log sts (Append h c sts).
Proof.
  revert h c log; induction sts as [|st sts IH]; intros h c log Hr Hl.
  { exists h, c. by rewrite app_nil_r. }
  inversion Hl as [|? ? Hs Hls]; subst. unfold Append; simpl.
  destruct (Add_stores h c log st Hr Hs) as (h1 & c1 & -> & Hr1 & HB1 & HL1); simpl.
  destruct (IH h1 c1 (log ++ [st]) Hr1 (HL1 _ Hls)) as (h2 & c2 & HA & Hr2 & HB2 & HL2).
  exists h2, c2. unfold Append in HA. rewrite HA.
  split; [done|]. rewrite <- app_assoc in Hr2. split; [done|]. split; [congruence|auto].
Qed.

Lemma exec_stores o h c log :
  ring c log -> live h (mentions o) -> stores h c log (stored o) (exec (h, c) o).
Proof.
  intros Hr Hl. destruct o as [st|st|st|st|st|st|sts]; simpl in *;
    try (match type of Hl with live _ [_] => inversion Hl as [|? ? Hs _]; subst end).
  - by apply Push_stores.
  - by apply Add_stores.
  - by apply Add_stores.
  - unfold JustAdd. destruct (store_ring c log st Hr) as (c' & -> & Hr' & _ & HB); simpl.
    by exists h, c'.
  - by apply Add_stores.
  - destruct Hs as [s Hs]. unfold Pop, read. rewrite Hs; simpl.
    do 2 eexists. split; [done|]. rewrite app_nil_r. by split; [apply ring_parent|].
  - by apply Append_stores.
Qed.

Lemma run_stores os h c log :
  ring c log -> live h (concat (mentions <$> os)) ->
  stores h c log (concat (stored <$> os)) (foldM exec (h, c) os).
Proof.
  revert h c log; induction os as [|o os IH]; intros h c log Hr Hl.
  { exists h, c. by rewrite app_nil_r. }
  simpl in Hl. apply Forall_app in Hl as [Hl1 Hl2].
  destruct (exec_stores o h c log Hr Hl1) as (h1 & c1 & E1 & Hr1 & HB1 & HL1).
  destruct (IH h1 c1 _ Hr1 (HL1 _ Hl2)) as (h2 & c2 & E2 & Hr2 & HB2 & HL2).
  exists h2, c2. cbn [foldM]. rewrite E1; simpl. rewrite E2. split; [done|].
  rewrite <- app_assoc in Hr2. split; [done|]. split; [congruence|auto].
Qed.
End Facts.

(** * The properties *)

(** C5. The circular collector refines "remember the last [BUFFER_LEN] stored
    steps": after any sequence of operations on a fresh collector of positive
    size, no operation has failed, [GetSteps] is the tail of everything stored, in
    storing order, and [Length] is the number of steps ever stored. *)
Theorem Circular_keeps_last `{SI : StepI} (SL : StepLaws SI) n os h :
  (0 < n)%Z -> live h (concat (mentions <$> os)) ->
  exists c0 h' c', NewProfileCircularCollector n = Ret c0 /\
    foldM exec (h, c0) os = Ret (h', c') /\
    let log := concat (stored <$> os) in
    GetSteps c' = Ret (Some <$> lastn (Z.to_nat n) log) /\ Length c' = length log.
Proof.
  intros Hn Hl. destruct (New_ring n Hn) as (c0 & H0 & Hr0 & HB0).
  destruct (run_stores os h c0 [] Hr0 Hl) as (h' & c' & E & Hr & HB & _).
  exists c0, h', c'. split; [done|]. split; [done|]. cbv zeta. simpl in Hr.
  rewrite (GetSteps_ring _ _ Hr), HB, HB0. split; [done|].
  destruct Hr as (_ & _ & Hlen & _). unfold Length. by rewrite Hlen.
Qed.

(** [GetLastSteps n] (and [GetStep4Error], its instance at 5) returns the
    last [n] stored steps whenever [n] does not exceed the buffer, or the buffer
    has not wrapped yet. *)
Theorem Circular_last_steps `{SI : StepI} (SL : StepLaws SI) n os h k :
  (0 < n)%Z -> live h (concat (mentions <$> os)) -> (0 <= k <= n)%Z ->
  exists c0 h' c', NewProfileCircularCollector n = Ret c0 /\
    foldM exec (h, c0) os = Ret (h', c') /\
    GetLastSteps c' k = Ret (Some <$> lastn (Z.to_nat k) (concat (stored <$> os))).
Proof.
  intros Hn Hl Hk. destruct (New_ring n Hn) as (c0 & H0 & Hr0 & HB0).
  destruct (run_stores os h c0 [] Hr0 Hl) as (h' & c' & E & Hr & HB & _).
  exists c0, h', c'. split; [done|]. split; [done|]. simpl in Hr.
  apply (GetLastSteps_ring c' _ k Hr); [lia|right; lia].
Qed.

Section Witness.
Import PlainStep.
Definition st0 : PlainStep.t := PlainStep.mk 0 0 0 0 false.
Definition heap2 : gmap nat PlainStep.t := list_to_map [(1, st0); (2, st0); (3, st0); (4, st0)].
Definition ops2 : list op := [OPush 1; OAdd 2; OPop 1; OAddTail 3; OJustAdd 4].

Lemma ops2_live : @live PlainStep.plain heap2 (concat (mentions <$> ops2)).
Proof. repeat constructor; eexists; vm_compute; reflexivity. Qed.

Lemma Circular_keeps_last_witness :
  exists c0 h' c', NewProfileCircularCollector 3 = Ret c0 /\
    foldM (@exec PlainStep.plain) (heap2, c0) ops2 = Ret (h', c') /\
    GetSteps c' = Ret [Some 2; Some 3; Some 4] /\ Length c' = 4.
Proof.
  destruct (@Circular_keeps_last PlainStep.plain PlainStep.plain_laws 3 ops2 heap2)
    as (c0 & h' & c' & H0 & E & HG & HL); [lia|exact ops2_live|].
  by exists c0, h', c'.
Defined.

Lemma Circular_last_steps_witness :
  exists c0 h' c', NewProfileCircularCollector 3 = Ret c0 /\
    foldM (@exec PlainStep.plain) (heap2, c0) ops2 = Ret (h', c') /\
    GetLastSteps c' 2 = Ret [Some 3; Some 4].
Proof.
  destruct (@Circular_last_steps PlainStep.plain PlainStep.plain_laws 3 ops2 heap2 2)
    as (c0 & h' & c' & H0 & E & HG); [lia|exact ops2_live|lia|].
  by exists c0, h', c'.
Defined.
End Witness.
