(* ===== verification/SplitCollectors.v ===== *)
(** The two step collectors that split long transactions,
    [ProfileLargeCollector.go] and [ProfileSplitTxCollector.go] of
    [src/agent/agent/trace], and the records they put on the queues of
    [ProfileStepThread.go] and [ProfileVirtualTxThread.go].

    The queues are golib's; a [Put] is recorded as an event of the [world]. *)

From S2P Require Import Prelude Steps.

(** [step.NewMessageStep] of golib and the fields [send] fills in: start time,
    hash, description and time. *)
Class MessageStepI (SI : StepI) := {
  NewMessageStep : forall (StartTime Hash : Z) (Desc : bytes) (Time : Z), Step
}.

Record StepSplit := NewStepSplit {
  ss_Time : Z; ss_Txid : Z; ss_Inx : nat; ss_Steps : list (option loc)
}.

Record ChildTx := mkChildTx {
  etime : Z; childStart_ : Z; parentTxid : Z; childTxid_ : Z;
  steps : list (option loc); service : bytes; childElapsed_ : Z;
  sqlCount : Z; sqlTime : Z; rsCount : Z; rsTime : Z;
  httpcCount : Z; httpcTime : Z; dbcTime : Z
}.

Inductive event :=
| PutStepSplit (s : StepSplit)
| PutChildTx (x : ChildTx)
| SendHashText (hash : Z) (text : bytes).

(** What a collector reads of its transaction's [TraceContext]. *)
Record TraceContext := {
  Txid : Z; StartTime : Z; ServiceName : bytes;
  SqlCount : Z; SqlTime : Z; RsCount : Z; RsTime : Z;
  HttpcCount : Z; HttpcTime : Z; DbcTime : Z
}.

(** The clock and key generator at the time of a call; [lang.MESSAGE_VIRTUAL_TX]
    and [hash.HashStr] belong to golib. *)
Record env := {
  parent : TraceContext;
  SystemNow : Z;
  Now : Z;
  keygen_Next : Z;
  HashStr : bytes -> Z;
  MESSAGE_VIRTUAL_TX : bytes
}.

(** [TraceContext.GetElapsedTime] *)
Definition GetElapsedTime (e : env) : Z := int64 (SystemNow e - StartTime (parent e)).

(** [fmt.Sprintf("%s-%d", name, inx)] and [fmt.Sprintf("%s <%d>", name, txid)] *)
Definition child_name (name : bytes) (inx : nat) : bytes := name ++ str "-" ++ FormatInt (Z.of_nat inx).
Definition child_desc (name : bytes) (txid : Z) : bytes := name ++ str " <" ++ FormatInt txid ++ str ">".

Section World.
Context `{SI : StepI}.
Record world := { hp : heap; out : list event }.
Definition emit (w : world) (e : event) : world := {| hp := hp w; out := out w ++ [e] |}.
Definition with_heap (w : world) (h : heap) : world := {| hp := h; out := out w |}.

(** [ProfileStepThread.Add] *)
Definition ProfileStepThread_Add (w : world) (t txid : Z) (inx : nat)
    (steps : list (option loc)) : world :=
  emit w (PutStepSplit (NewStepSplit t txid inx steps)).

(** [ProfileVirtualTxThread.Add] *)
Definition ProfileVirtualTxThread_Add (w : world) (curTime : Z) (childName : bytes)
    (childTxid childStart childElapsed : Z) (p : TraceContext) (steps : list (option loc)) : world :=
  emit w (PutChildTx (mkChildTx curTime (int32 childStart) (Txid p) childTxid steps childName
    (int32 childElapsed) (SqlCount p) (SqlTime p) (RsCount p) (int32 (RsTime p))
    (HttpcCount p) (HttpcTime p) (DbcTime p))).
End World.

Module ProfileLargeCollector.
Section Ops.
Context `{SI : StepI}.

Record t := mk {
  BUFFER_MAX : nat;
  buffer : list (option loc);
  bufferPos : nat;
  splitCount : nat;
  position : Z;
  parentIndex : Z
}.

Definition NewProfileLargeCollector (TraceStepMaxCount : Z) : res t :=
  if (TraceStepMaxCount <? 0)%Z then Panic
  else let n := Z.to_nat TraceStepMaxCount in Ret (mk n (replicate n None) 0 0 0 (-1)).

Definition HasStep (c : t) : bool := (0 <? position c)%Z.

Definition Push (w : world) (c : t) (st : loc) : res (world * t) :=
  h ← set_index_parent (hp w) st (position c) (parentIndex c);
  Ret (with_heap w h,
       mk (BUFFER_MAX c) (buffer c) (bufferPos c) (splitCount c) (int32 (position c + 1)) (position c)).

Definition send (e : env) (w : world) (inx : nat) (buff : list (option loc)) : world :=
  ProfileStepThread_Add w (Now e) (Txid (parent e)) inx buff.

(** [if this.bufferPos >= this.BUFFER_MAX { this.send(...); ... }] *)
Definition split (e : env) (w : world) (c : t) : world * t :=
  if bool_decide (BUFFER_MAX c <= bufferPos c)
  then (send e w (splitCount c) (buffer c),
        mk (BUFFER_MAX c) (replicate (BUFFER_MAX c) None) 0 (S (splitCount c))
           (position c) (parentIndex c))
  else (w, c).

(** [this.buffer[this.bufferPos] = st; this.bufferPos++] *)
Definition store (c : t) (st : loc) : res t :=
  if bool_decide (bufferPos c < length (buffer c))
  then Ret (mk (BUFFER_MAX c) (<[bufferPos c := Some st]> (buffer c)) (S (bufferPos c))
               (splitCount c) (position c) (parentIndex c))
  else Panic.
Definition next_position (c : t) : t :=
  mk (BUFFER_MAX c) (buffer c) (bufferPos c) (splitCount c) (int32 (position c + 1)) (parentIndex c).
Definition set_parentIndex (c : t) (p : Z) : t :=
  mk (BUFFER_MAX c) (buffer c) (bufferPos c) (splitCount c) (position c) p.

Definition Add (e : env) (w : world) (c : t) (st : loc) : res (world * t) :=
  let '(w, c) := split e w c in
  h ← set_index_parent (hp w) st (position c) (parentIndex c);
  c ← store c st; Ret (with_heap w h, next_position c).

Definition AddHeavy (e : env) (w : world) (c : t) (st : loc) : res (world * t) :=
  let '(w, c) := split e w c in
  h ← set_index_parent (hp w) st (position c) (parentIndex c);
  c ← store c st; Ret (with_heap w h, next_position c).

Definition JustAdd (e : env) (w : world) (c : t) (st : loc) : res (world * t) :=
  let '(w, c) := split e w c in
  c ← store c st; Ret (w, next_position c).

Definition AppendStep := Add.
Definition AddTail := Add.

Definition Pop (e : env) (w : world) (c : t) (st : loc) : res (world * t) :=
  let '(w, c) := split e w c in
  c ← store c st;
  p ← read (hp w) st GetParent;
  Ret (w, set_parentIndex c p).

Definition GetLastSteps (c : t) (n : Z) : res (list (option loc)) :=
  let cnt := if (n <? Z.of_nat (bufferPos c))%Z then n else Z.of_nat (bufferPos c) in
  if (cnt <? 0)%Z then Panic
  else
    let x := Z.to_nat (Z.of_nat (bufferPos c) - cnt) in
    mapM (fun i => index_ (buffer c) (x + i)) (seq 0 (Z.to_nat cnt)).

Definition GetSteps (c : t) : res (list (option loc)) :=
  if bool_decide (length (buffer c) < bufferPos c) then Ret (buffer c)
  else if bool_decide (0 < bufferPos c) then slice (buffer c) 0 (bufferPos c)
  else Ret [].

Definition GetStep4Error (c : t) : res (list (option loc)) := GetLastSteps c 5.
Definition IsReal (_ : t) : bool := true.

Definition Append (e : env) (w : world) (c : t) (sts : list loc) : res (world * t) :=
  foldM (fun wc st => Add e wc.1 wc.2 st) (w, c) sts.

Definition AppendParentOffsetTime (e : env) (w : world) (c : t) (parentOffsetTime : Z)
    (sts : list loc) : res (world * t) :=
  foldM (fun wc st =>
           h ← upd (hp wc.1) st (SetStartTime (int32 parentOffsetTime));
           Add e (with_heap wc.1 h) wc.2 st) (w, c) sts.

Definition GetSplitCount (c : t) : nat := splitCount c.
Definition Length (c : t) : Z := int64 (Z.of_nat (splitCount c * BUFFER_MAX c) + position c).
End Ops.
End ProfileLargeCollector.

Module ProfileSplitTxCollector.
Section Ops.
Context {SI : StepI} {MI : MessageStepI SI}.

Record t := mk {
  BUFFER_MAX : nat;
  bufferParent : list (option loc);
  bufferChild : list (option loc);
  bufferParentPos : nat;
  bufferChildPos : nat;
  parentStepSplitCount : nat;
  childSplitTxNum : nat;
  parentIndex : Z;
  childIndex : Z;
  childStart : Z;
  virtualTxHash : Z
}.

Definition NewProfileSplitTxCollector (TraceStepMaxCount : Z) : res t :=
  if (TraceStepMaxCount <? 0)%Z then Panic
  else let n := Z.to_nat TraceStepMaxCount in
       Ret (mk n (replicate n None) (replicate n None) 0 0 0 1 (-1) 0 0 0).

Definition HasStep (c : t) : bool :=
  bool_decide (0 < bufferChildPos c) || bool_decide (0 < bufferParentPos c).

(** *** Field updates *)
Definition set_index (c : t) (p i : Z) : t :=
  mk (BUFFER_MAX c) (bufferParent c) (bufferChild c) (bufferParentPos c) (bufferChildPos c)
     (parentStepSplitCount c) (childSplitTxNum c) p i (childStart c) (virtualTxHash c).
Definition set_parent_buffer (c : t) (b : list (option loc)) (pos cnt : nat) : t :=
  mk (BUFFER_MAX c) b (bufferChild c) pos (bufferChildPos c)
     cnt (childSplitTxNum c) (parentIndex c) (childIndex c) (childStart c) (virtualTxHash c).
Definition set_child_buffer (c : t) (b : list (option loc)) (pos num : nat) : t :=
  mk (BUFFER_MAX c) (bufferParent c) b (bufferParentPos c) pos
     (parentStepSplitCount c) num (parentIndex c) (childIndex c) (childStart c) (virtualTxHash c).
Definition set_start_hash (c : t) (s hash : Z) : t :=
  mk (BUFFER_MAX c) (bufferParent c) (bufferChild c) (bufferParentPos c) (bufferChildPos c)
     (parentStepSplitCount c) (childSplitTxNum c) (parentIndex c) (childIndex c) s hash.

Definition Push (w : world) (c : t) (st : loc) : res (world * t) :=
  h ← upd (hp w) st (SetParent (parentIndex c));
  h ← upd h st (SetIndex (childIndex c));
  p ← read h st GetIndex;
  Ret (with_heap w h, set_index c p (int32 (childIndex c + 1))).

Definition sendParent (e : env) (w : world) (inx : nat) (buff : list (option loc)) : world :=
  ProfileStepThread_Add w (SystemNow e) (Txid (parent e)) inx buff.

(** A full child buffer leaves as a virtual transaction, and a message step
    that names it takes its place in the parent buffer. *)
Definition send (e : env) (w : world) (c : t) (inx : nat) (buff : list (option loc)) :
    res (world * t) :=
  let txElapsed := GetElapsedTime e in
  let childElapsed := int64 (txElapsed - childStart c) in
  let childName := child_name (ServiceName (parent e)) inx in
  let childTxid := keygen_Next e in
  let w := ProfileVirtualTxThread_Add w (SystemNow e) childName childTxid (childStart c)
             childElapsed (parent e) buff in
  let '(w, c) :=
    if bool_decide (BUFFER_MAX c <= bufferParentPos c)
    then (sendParent e w (parentStepSplitCount c) (bufferParent c),
          set_parent_buffer c (replicate (BUFFER_MAX c) None) 0 (S (parentStepSplitCount c)))
    else (w, c) in
  let '(w, c) :=
    if bool_decide (virtualTxHash c = 0%Z)
    then let h := HashStr e (MESSAGE_VIRTUAL_TX e) in
         (emit w (SendHashText h (MESSAGE_VIRTUAL_TX e)), set_start_hash c (childStart c) h)
    else (w, c) in
  let st := fresh (dom (hp w)) in
  let msg := NewMessageStep (int32 (childStart c)) (virtualTxHash c)
               (child_desc childName childTxid) (int32 childElapsed) in
  let w := with_heap w (<[st := msg]> (hp w)) in
  if bool_decide (bufferParentPos c < length (bufferParent c)) then
    let c := set_parent_buffer c (<[bufferParentPos c := Some st]> (bufferParent c))
               (S (bufferParentPos c)) (parentStepSplitCount c) in
    Ret (w, set_start_hash c txElapsed (virtualTxHash c))
  else Panic.

(** [if this.bufferChildPos >= this.BUFFER_MAX { this.send(...); ... }] *)
Definition split (e : env) (w : world) (c : t) : res (world * t) :=
  if bool_decide (BUFFER_MAX c <= bufferChildPos c) then
    '(w, c) ← send e w c (childSplitTxNum c) (bufferChild c);
    Ret (w, set_child_buffer c (replicate (BUFFER_MAX c) None) 0 (S (childSplitTxNum c)))
  else Ret (w, c).

Definition store (c : t) (st : loc) : res t :=
  if bool_decide (bufferChildPos c < length (bufferChild c))
  then Ret (set_child_buffer c (<[bufferChildPos c := Some st]> (bufferChild c))
              (S (bufferChildPos c)) (childSplitTxNum c))
  else Panic.

Definition Add (e : env) (w : world) (c : t) (st : loc) : res (world * t) :=
  '(w, c) ← split e w c;
  h ← upd (hp w) st (SetParent (parentIndex c));
  h ← upd h st (SetIndex (childIndex c));
  let c := set_index c (parentIndex c) (int32 (childIndex c + 1)) in
  c ← store c st; Ret (with_heap w h, c).

Definition AddHeavy (e : env) (w : world) (c : t) (st : loc) : res (world * t) :=
  '(w, c) ← split e w c;
  h ← upd (hp w) st (SetParent (parentIndex c));
  h ← upd h st (SetIndex (childIndex c));
  let c := set_index c (parentIndex c) (int32 (childIndex c + 1)) in
  c ← store c st; Ret (with_heap w h, c).

Definition JustAdd (e : env) (w : world) (c : t) (st : loc) : res (world * t) :=
  '(w, c) ← split e w c;
  c ← store c st; Ret (w, c).

Definition AppendStep := Add.
Definition AddTail := Add.

Definition Pop (e : env) (w : world) (c : t) (st : loc) : res (world * t) :=
  '(w, c) ← split e w c;
  c ← store c st;
  p ← read (hp w) st GetParent;
  Ret (w, set_index c p (childIndex c)).

Definition GetLastSteps (c : t) (n : Z) : res (list (option loc)) :=
  let cnt := if (n <? Z.of_nat (bufferChildPos c))%Z then n else Z.of_nat (bufferChildPos c) in
  if (cnt <? 0)%Z then Panic
  else
    let x := Z.to_nat (Z.of_nat (bufferChildPos c) - cnt) in
    mapM (fun i => index_ (bufferChild c) (x + i)) (seq 0 (Z.to_nat cnt)).

Definition GetSteps (c : t) : res (list (option loc)) :=
  if bool_decide (bufferParentPos c = 0) && bool_decide (bufferChildPos c = 0) then Ret []
  else if bool_decide (bufferParentPos c = 0) then
    if bool_decide (length (bufferChild c) <= bufferChildPos c) then Ret (bufferChild c)
    else if bool_decide (0 < bufferChildPos c) then slice (bufferChild c) 0 (bufferChildPos c)
    else Ret []
  else if bool_decide (bufferChildPos c = 0) then
    if bool_decide (0 < bufferParentPos c) then slice (bufferParent c) 0 (bufferParentPos c)
    else Ret []
  else
    a ← slice (bufferParent c) 0 (bufferParentPos c);
    b ← slice (bufferChild c) 0 (bufferChildPos c);
    Ret (a ++ b).

Definition GetStep4Error (c : t) : res (list (option loc)) := GetLastSteps c 5.
Definition IsReal (_ : t) : bool := true.

Definition Append (e : env) (w : world) (c : t) (sts : list loc) : res (world * t) :=
  foldM (fun wc st => Add e wc.1 wc.2 st) (w, c) sts.

Definition AppendParentOffsetTime (e : env) (w : world) (c : t) (parentOffsetTime : Z)
    (sts : list loc) : res (world * t) :=
  foldM (fun wc st =>
           s ← read (hp wc.1) st GetStartTime;
           h ← upd (hp wc.1) st (SetStartTime (int32 (s + int32 parentOffsetTime)));
           Add e (with_heap wc.1 h) wc.2 st) (w, c) sts.

Definition GetSplitCount (c : t) : nat := parentStepSplitCount c.
Definition Length (c : t) : nat := parentStepSplitCount c * BUFFER_MAX c + bufferChildPos c.
End Ops.
End ProfileSplitTxCollector.

(** [GetInstanceProfileStepThread] and [GetInstanceProfileVirtualTxThread]: the
    state is the package variable and the number of goroutines started.  The
    second declares a local variable of the same name ([:=]), so the package
    variable is never written. *)
Module Singletons.
Record t := { profileStepThread : option nat; profileVirtualTxThread : option nat;
              goroutines : nat }.

Definition GetInstanceProfileStepThread (s : t) : t * nat :=
  match profileStepThread s with
  | Some p => (s, p)
  | None => let p := goroutines s in
            ({| profileStepThread := Some p;
                profileVirtualTxThread := profileVirtualTxThread s;
                goroutines := S p |}, p)
  end.

Definition GetInstanceProfileVirtualTxThread (s : t) : t * nat :=
  match profileVirtualTxThread s with
  | Some p => (s, p)
  | None => let p := goroutines s in
            ({| profileStepThread := profileStepThread s;
                profileVirtualTxThread := profileVirtualTxThread s;
                goroutines := S p |}, p)
  end.
End Singletons.
