(* ===== verification/SplitCollectorsFacts.v ===== *)
(** The splitting collectors lose no step: what left in full chunks, followed by
    what is still buffered, is everything that was stored, in order. *)

From S2P Require Import Prelude Steps SplitCollectors.

Section Live.
Context `{SI : StepI}.
Definition live (h : heap) (ls : list loc) : Prop := Forall (fun l => is_Some (h !! l)) ls.
Definition keeps (h h' : heap) : Prop := forall l, is_Some (h !! l) -> is_Some (h' !! l).

Lemma keeps_refl h : keeps h h.
Proof. by intros l. Qed.
Lemma keeps_trans h1 h2 h3 : keeps h1 h2 -> keeps h2 h3 -> keeps h1 h3.
Proof. intros H1 H2 l Hl. auto. Qed.
Lemma keeps_insert h l s : keeps h (<[l := s]> h).
Proof.
  intros k Hk. destruct (decide (l = k)) as [->|]; [rewrite lookup_insert_eq; eauto|].
  by rewrite lookup_insert_ne.
Qed.
Lemma keeps_live h h' ls : keeps h h' -> live h ls -> live h' ls.
Proof. intros Hk Hl. eapply Forall_impl; eauto. Qed.

Lemma upd_keeps h l f : is_Some (h !! l) -> exists h', upd h l f = Ret h' /\ keeps h h'.
Proof. intros [s Hs]. unfold upd. rewrite Hs. eexists; split; [done|]. apply keeps_insert. Qed.
Lemma stamp_keeps h l i p :
  is_Some (h !! l) -> exists h', set_index_parent h l i p = Ret h' /\ keeps h h'.
Proof.
  intros [s Hs]. rewrite (set_index_parent_spec _ _ _ _ _ Hs).
  eexists; split; [done|]. apply keeps_insert.
Qed.
End Live.
#[export] Hint Resolve keeps_refl keeps_insert : go.

(** The calls of either collector, each with the clock it runs at. *)
Inductive op :=
| OPush (st : loc) | OAdd (st : loc) | OAddHeavy (st : loc) | OJustAdd (st : loc)
| OPop (st : loc).
(** What the call stores; [Pop] stores too, [Push] does not. *)
Definition stored (o : op) : list loc :=
  match o with OPush _ => [] | OAdd st | OAddHeavy st | OJustAdd st | OPop st => [st] end.
Definition mentions (o : op) : loc :=
  match o with OPush st | OAdd st | OAddHeavy st | OJustAdd st | OPop st => st end.

Module LargeFacts.
Import ProfileLargeCollector.
Section Facts.
Context {SI : StepI}.

Definition exec (wc : world * t) (eo : env * op) : res (world * t) :=
  match eo.2 with
  | OPush st => Push wc.1 wc.2 st
  | OAdd st => Add eo.1 wc.1 wc.2 st
  | OAddHeavy st => AddHeavy eo.1 wc.1 wc.2 st
  | OJustAdd st => JustAdd eo.1 wc.1 wc.2 st
  | OPop st => Pop eo.1 wc.1 wc.2 st
  end.

(** The chunk numbers and contents put on the step queue. *)
Definition sent (evs : list event) : list (nat * list (option loc)) :=
  omap (fun e => match e with PutStepSplit s => Some (ss_Inx s, ss_Steps s) | _ => None end) evs.

Definition state (n : nat) (w : world) (c : t) (log : list loc) : Prop :=
  exists chunks cur, 0 < n /\ BUFFER_MAX c = n /\ filled n (buffer c) (bufferPos c) cur /\
    chunked n chunks cur log /\ splitCount c = length chunks /\
    sent (out w) = imap pair chunks.

Lemma sent_snoc evs t x i b : sent (evs ++ [PutStepSplit (NewStepSplit t x i b)]) = sent evs ++ [(i, b)].
Proof. unfold sent. by rewrite omap_app. Qed.

Lemma split_state n e w c log :
  state n w c log -> exists w' c', split e w c = (w', c') /\ state n w' c' log /\
    bufferPos c' < n /\ hp w' = hp w /\ position c' = position c /\ parentIndex c' = parentIndex c.
Proof.
  intros (chunks & cur & Hn & HB & Hf & Hc & Hs & Ho). unfold split.
  case_bool_decide as Hb.
  - do 2 eexists. split; [done|]. simpl. split; [|by repeat split].
    assert (bufferPos c = n) as Hpos by (destruct Hf as (_ & _ & Hf); lia).
    exists (chunks ++ [buffer c]), []. simpl. rewrite HB. split; [done|]. split; [done|].
    split; [apply filled_empty|]. split.
    + eapply chunked_cut; [done|]. by rewrite <- Hpos at 2.
    + split; [rewrite length_app; simpl; lia|].
      by rewrite sent_snoc, Ho, imap_app, Hs; simpl; rewrite Nat.add_0_r.
  - do 2 eexists. split; [done|]. split; [by exists chunks, cur|]. split; [lia|done].
Qed.

Lemma store_state n w c log st :
  state n w c log -> bufferPos c < n ->
  exists c', store c st = Ret c' /\ state n w c' (log ++ [st]) /\
    position c' = position c /\ parentIndex c' = parentIndex c.
Proof.
  intros (chunks & cur & Hn & HB & Hf & Hc & Hs & Ho) Hlt. unfold store.
  pose proof (filled_length _ _ _ _ Hf) as HL. rewrite bool_decide_eq_true_2 by lia.
  eexists. split; [done|]. split; [|done]. exists chunks, (cur ++ [st]). simpl.
  split; [done|]. split; [done|]. split; [by apply filled_store|].
  split; [by apply chunked_store|done].
Qed.

Definition steps_to (n : nat) (w : world) (log new : list loc) (m : res (world * t)) : Prop :=
  exists w' c', m = Ret (w', c') /\ state n w' c' (log ++ new) /\ keeps (hp w) (hp w').

Lemma exec_state n e o w c log :
  state n w c log -> is_Some (hp w !! mentions o) ->
  steps_to n w log (stored o) (exec (w, c) (e, o)).
Proof.
  intros Hst Hl. unfold steps_to.
  destruct (split_state n e w c log Hst) as (w1 & c1 & Hsp & H1 & Hlt & Hh & _).
  assert (forall st, is_Some (hp w !! st) ->
    exists h c2, set_index_parent (hp w1) st (position c1) (parentIndex c1) = Ret h /\
      keeps (hp w) h /\ store c1 st = Ret c2 /\ state n (with_heap w1 h) c2 (log ++ [st])) as HA.
  { intros st Hst'. rewrite <- Hh in Hst'.
    destruct (stamp_keeps (hp w1) st (position c1) (parentIndex c1) Hst') as (h & E & K).
    destruct (store_state n w1 c1 log st H1 Hlt) as (c2 & E2 & H2 & _).
    exists h, c2. rewrite Hh in K. repeat split; done. }
  destruct o as [st|st|st|st|st]; unfold exec; simpl in *.
  - unfold Push. destruct (stamp_keeps (hp w) st (position c) (parentIndex c) Hl) as (h & -> & K).
    simpl. do 2 eexists. split; [done|]. rewrite app_nil_r. by split.
  - destruct (HA st Hl) as (h & c2 & E1 & K & E2 & H2). unfold Add. rewrite Hsp, E1; simpl.
    rewrite E2; simpl. by do 2 eexists.
  - destruct (HA st Hl) as (h & c2 & E1 & K & E2 & H2). unfold AddHeavy. rewrite Hsp, E1; simpl.
    rewrite E2; simpl. by do 2 eexists.
  - unfold JustAdd. rewrite Hsp. destruct (store_state n w1 c1 log st H1 Hlt) as (c2 & -> & H2 & _).
    simpl. do 2 eexists. split; [done|]. split; [done|]. rewrite Hh. apply keeps_refl.
  - unfold Pop. rewrite Hsp. destruct (store_state n w1 c1 log st H1 Hlt) as (c2 & -> & H2 & _).
    simpl. destruct Hl as [s Hs]. unfold read. rewrite Hh, Hs; simpl.
    do 2 eexists. split; [done|]. split; [done|]. rewrite Hh. apply keeps_refl.
Qed.

Lemma run_state n eos w c log :
  state n w c log -> live (hp w) (mentions <$> eos.*2) ->
  steps_to n w log (concat (stored <$> eos.*2)) (foldM exec (w, c) eos).
Proof.
  revert w c log; induction eos as [|[e o] eos IH]; intros w c log Hs Hl; cbn [foldM].
  { exists w, c. rewrite app_nil_r. auto with go. }
  inversion Hl as [|? ? Ho Hls]; subst.
  destruct (exec_state n e o w c log Hs Ho) as (w1 & c1 & -> & H1 & K1). simpl.
  destruct (IH w1 c1 _ H1) as (w2 & c2 & -> & H2 & K2); [by eapply keeps_live|].
  exists w2, c2. split; [done|]. rewrite <- app_assoc in H2. split; [done|].
  by eapply keeps_trans.
Qed.
End Facts.

(** C4. The large collector loses nothing: after any calls on a fresh collector
    of positive size, none has failed, and the full chunks sent on the step queue
    (numbered 0, 1, 2, ...) followed by what [GetSteps] still returns are exactly
    the stored steps in order. *)
Theorem Large_loses_nothing {SI : StepI} (n : Z) eos h :
  (0 < n)%Z -> live h (mentions <$> eos.*2) ->
  exists c0 w c chunks cur, NewProfileLargeCollector n = Ret c0 /\
    foldM exec ({| hp := h; out := [] |}, c0) eos = Ret (w, c) /\
    sent (out w) = imap pair chunks /\ GetSplitCount c = length chunks /\
    Forall (fun ch => length ch = Z.to_nat n) chunks /\
    GetSteps c = Ret (Some <$> cur) /\
    concat chunks ++ (Some <$> cur) = Some <$> concat (stored <$> eos.*2).
Proof.
  intros Hn Hl. unfold NewProfileLargeCollector. destruct (Z.ltb_spec n 0); [lia|].
  set (c0 := mk _ _ _ _ _ _).
  assert (state (Z.to_nat n) {| hp := h; out := [] |} c0 []) as H0.
  { exists [], []. split; [lia|]. split; [done|]. split; [apply filled_empty|]. by repeat split. }
  destruct (run_state _ eos _ _ _ H0 Hl) as (w & c & E & (chunks & cur & Hp & HB & Hf & Hc & Hs & Ho) & _).
  exists c0, w, c, chunks, cur. split; [done|]. split; [done|]. split; [done|]. split; [done|].
  split; [apply Hc|]. split; [|apply Hc].
  pose proof (filled_length _ _ _ _ Hf) as HL. unfold GetSteps.
  rewrite bool_decide_eq_false_2 by (destruct Hf as (_ & _ & Hf); lia).
  case_bool_decide; [by eapply filled_slice|].
  destruct Hf as (_ & Hf & _). destruct cur; [done|simpl in Hf; lia].
Qed.

Definition ctx1 : TraceContext :=
  {| Txid := 77; StartTime := 1000; ServiceName := str "/pay"; SqlCount := 0; SqlTime := 0;
     RsCount := 0; RsTime := 0; HttpcCount := 0; HttpcTime := 0; DbcTime := 0 |}.
Definition env1 (now : Z) : env :=
  {| parent := ctx1; SystemNow := now; Now := now; keygen_Next := 9;
     HashStr := fun s => Z.of_nat (length s); MESSAGE_VIRTUAL_TX := str "VIRTUAL" |}.
Definition st0 : PlainStep.t := PlainStep.mk 0 0 0 0 false.
Definition heap3 : gmap nat PlainStep.t := list_to_map [(1, st0); (2, st0); (3, st0)].
Definition calls3 : list (env * op) :=
  [(env1 1010, OPush 1); (env1 1020, OAdd 1); (env1 1030, OAdd 2); (env1 1040, OPop 3)].

Lemma heap3_live : @live PlainStep.plain heap3 (mentions <$> calls3.*2).
Proof. repeat constructor; eexists; vm_compute; reflexivity. Qed.

Lemma Large_loses_nothing_witness :
  exists c0 w c chunks cur, @NewProfileLargeCollector 2 = Ret c0 /\
    foldM (@exec PlainStep.plain) (@Build_world PlainStep.plain heap3 [], c0) calls3 = Ret (w, c) /\
    sent (out w) = imap pair chunks /\ GetSteps c = Ret (Some <$> cur) /\
    concat chunks ++ (Some <$> cur) = [Some 1; Some 2; Some 3].
Proof.
  destruct (@Large_loses_nothing PlainStep.plain 2 calls3 heap3)
    as (c0 & w & c & chunks & cur & H0 & E & Ho & _ & _ & HG & Hc); [lia|exact heap3_live|].
  exists c0, w, c, chunks, cur. done.
Defined.
End LargeFacts.

(** The split-transaction collector: the virtual child transactions partition the
    stored steps, follow one another on the parent's time line, and each is named
    by one message step of the parent. *)

Module SplitTxFacts.
Import ProfileSplitTxCollector.
Section Facts.
Context {SI : StepI} {MI : MessageStepI SI}.

Definition exec (wc : world * t) (eo : env * op) : res (world * t) :=
  match eo.2 with
  | OPush st => Push wc.1 wc.2 st
  | OAdd st => Add eo.1 wc.1 wc.2 st
  | OAddHeavy st => AddHeavy eo.1 wc.1 wc.2 st
  | OJustAdd st => JustAdd eo.1 wc.1 wc.2 st
  | OPop st => Pop eo.1 wc.1 wc.2 st
  end.

(** The child transactions put on the virtual-transaction queue. *)
Definition kids_of (evs : list event) : list ChildTx :=
  omap (fun e => match e with PutChildTx x => Some x | _ => None end) evs.

(** Where the next child starts: at the end of the last one. *)
Definition ends (kids : list ChildTx) : Z :=
  match last kids with None => 0 | Some k => int32 (childStart_ k + childElapsed_ k) end.
Definition contiguous (kids : list ChildTx) : Prop :=
  forall i k, kids !! i = Some k -> childStart_ k = ends (take i kids).

(** Message step [m] of the heap names child [k]. *)
Definition names (h : heap) (H : Z) (m : loc) (k : ChildTx) : Prop :=
  h !! m = Some (NewMessageStep (childStart_ k) H (child_desc (service k) (childTxid_ k))
                   (childElapsed_ k)).
Definition numbered (kids : list ChildTx) : Prop :=
  forall i k, kids !! i = Some k -> exists name, service k = child_name name (S i).

(** The virtual-message hash does not depend on the call. *)
Definition hash_is (H : Z) (e : env) : Prop := HashStr e (MESSAGE_VIRTUAL_TX e) = H.

Record state (n : nat) (H : Z) (h0 : heap) (w : world) (c : t) (log : list loc)
    (kids : list ChildTx) (pch : list (list (option loc))) (pcur cur ms : list loc) : Prop := {
  s_pos : 0 < n;
  s_max : BUFFER_MAX c = n;
  s_child : filled n (bufferChild c) (bufferChildPos c) cur;
  s_log : chunked n (steps <$> kids) cur log;
  s_num : childSplitTxNum c = S (length kids);
  s_parent : filled n (bufferParent c) (bufferParentPos c) pcur;
  s_msgs : chunked n pch pcur ms;
  s_split : parentStepSplitCount c = length pch;
  s_sent : LargeFacts.sent (out w) = imap pair pch;
  s_names : Forall2 (names (hp w) H) ms kids;
  s_fresh : Forall (fun m => h0 !! m = None) ms;
  s_keeps : keeps h0 (hp w);
  s_hash : virtualTxHash c = 0%Z \/ virtualTxHash c = H;
  s_numbered : numbered kids;
  s_line : contiguous kids;
  s_next : int32 (childStart c) = ends kids
}.

(** The slots of the parent and child buffers do not matter to the rest. *)
Lemma state_ext n H h0 w c c' log kids pch pcur cur ms :
  state n H h0 w c log kids pch pcur cur ms ->
  BUFFER_MAX c' = BUFFER_MAX c -> bufferChild c' = bufferChild c ->
  bufferChildPos c' = bufferChildPos c -> childSplitTxNum c' = childSplitTxNum c ->
  bufferParent c' = bufferParent c -> bufferParentPos c' = bufferParentPos c ->
  parentStepSplitCount c' = parentStepSplitCount c -> virtualTxHash c' = virtualTxHash c ->
  childStart c' = childStart c ->
  state n H h0 w c' log kids pch pcur cur ms.
Proof. intros [] E1 E2 E3 E4 E5 E6 E7 E8 E9. split; rewrite ?E1, ?E2, ?E3, ?E4, ?E5, ?E6, ?E7, ?E8, ?E9; done. Qed.

Lemma names_insert h H ms kids l s :
  Forall2 (names h H) ms kids -> Forall (fun m => m <> l) ms ->
  Forall2 (names (<[l := s]> h) H) ms kids.
Proof.
  induction 1; intros Hn; inversion Hn; subst; constructor; auto.
  unfold names. by rewrite lookup_insert_ne.
Qed.

(** A step of the initial heap is changed. *)
Lemma state_insert n H h0 w c log kids pch pcur cur ms l s :
  state n H h0 w c log kids pch pcur cur ms -> is_Some (h0 !! l) ->
  state n H h0 (with_heap w (<[l := s]> (hp w))) c log kids pch pcur cur ms.
Proof.
  intros [] [s0 Hl]. split; try done; simpl.
  - apply names_insert; [done|]. eapply Forall_impl; [done|]. simpl. intros m Hm ->. congruence.
  - eapply keeps_trans; [done|apply keeps_insert].
Qed.

Lemma numbered_snoc kids k name :
  numbered kids -> service k = child_name name (S (length kids)) -> numbered (kids ++ [k]).
Proof.
  intros Hn Hk i k' Hi. apply lookup_app_Some in Hi as [Hi|[Hle Hi]]; [eauto|].
  apply list_lookup_singleton_Some in Hi as [Hi ->].
  exists name. replace i with (length kids) by lia. done.
Qed.

Lemma contiguous_snoc kids k :
  contiguous kids -> childStart_ k = ends kids -> contiguous (kids ++ [k]).
Proof.
  intros Hn Hk i k' Hi. apply lookup_app_Some in Hi as [Hi|[Hle Hi]].
  - rewrite take_app_le by (apply lookup_lt_Some in Hi; lia). eauto.
  - apply list_lookup_singleton_Some in Hi as [Hi ->].
    by rewrite take_app_length' by lia.
Qed.

(** *** [send] in three parts *)

(** The parent buffer is cut when it is full. *)
Lemma state_cut_parent n H h0 w c log kids pch pcur cur ms t txid :
  state n H h0 w c log kids pch pcur cur ms -> n <= bufferParentPos c ->
  state n H h0 (emit w (PutStepSplit (NewStepSplit t txid (parentStepSplitCount c) (bufferParent c))))
    (set_parent_buffer c (replicate (BUFFER_MAX c) None) 0 (S (parentStepSplitCount c)))
    log kids (pch ++ [bufferParent c]) [] cur ms.
Proof.
  intros [] Hf.
  assert (bufferParentPos c = n) as Hp by (destruct s_parent0 as (_ & _ & ?); lia).
  split; simpl; try done.
  - rewrite s_max0. apply filled_empty.
  - eapply chunked_cut; [done|]. by rewrite <- Hp at 2.
  - rewrite length_app; simpl; lia.
  - by rewrite LargeFacts.sent_snoc, s_sent0, imap_app, s_split0; simpl; rewrite Nat.add_0_r.
Qed.

(** Events of other kinds do not matter. *)
Lemma state_event n H h0 w c log kids pch pcur cur ms ev :
  state n H h0 w c log kids pch pcur cur ms -> LargeFacts.sent [ev] = [] ->
  state n H h0 (emit w ev) c log kids pch pcur cur ms.
Proof.
  intros [] He. split; simpl; try done.
  unfold LargeFacts.sent in *. by rewrite omap_app, He, app_nil_r.
Qed.

Lemma kids_of_snoc evs ev : kids_of (evs ++ [ev]) = kids_of evs ++ kids_of [ev].
Proof. apply omap_app. Qed.

Definition child_of (e : env) (c : t) (inx : nat) (b : list (option loc)) : ChildTx :=
  let p := parent e in
  mkChildTx (SystemNow e) (int32 (childStart c)) (Txid p) (keygen_Next e) b
    (child_name (ServiceName p) inx) (int32 (int64 (GetElapsedTime e - childStart c)))
    (SqlCount p) (SqlTime p) (RsCount p) (int32 (RsTime p)) (HttpcCount p) (HttpcTime p) (DbcTime p).

(** The buffers and the queues after a full child buffer has left, before its
    message step is stored: room for the message, the hash set. *)
Definition after_parent (e : env) (w : world) (c : t) : world * t :=
  let '(w, c) :=
    if bool_decide (BUFFER_MAX c <= bufferParentPos c)
    then (sendParent e w (parentStepSplitCount c) (bufferParent c),
          set_parent_buffer c (replicate (BUFFER_MAX c) None) 0 (S (parentStepSplitCount c)))
    else (w, c) in
  if bool_decide (virtualTxHash c = 0%Z)
  then let h := HashStr e (MESSAGE_VIRTUAL_TX e) in
       (emit w (SendHashText h (MESSAGE_VIRTUAL_TX e)), set_start_hash c (childStart c) h)
  else (w, c).

Lemma after_parent_state n H h0 e w c log kids pch pcur cur ms :
  hash_is H e -> state n H h0 w c log kids pch pcur cur ms ->
  exists w' c' pch' pcur', after_parent e w c = (w', c') /\
    state n H h0 w' c' log kids pch' pcur' cur ms /\ bufferParentPos c' < n /\
    kids_of (out w') = kids_of (out w) /\ hp w' = hp w /\
    virtualTxHash c' = H /\ childStart c' = childStart c /\ bufferChild c' = bufferChild c /\
    bufferChildPos c' = bufferChildPos c /\ childSplitTxNum c' = childSplitTxNum c.
Proof.
  intros He Hs. unfold after_parent. pose proof (s_max _ _ _ _ _ _ _ _ _ _ _ Hs) as Hm.
  pose proof (s_pos _ _ _ _ _ _ _ _ _ _ _ Hs) as Hn.
  assert (exists w1 c1 pch' pcur',
    (w1, c1) = ((if bool_decide (BUFFER_MAX c <= bufferParentPos c)
     then (sendParent e w (parentStepSplitCount c) (bufferParent c),
           set_parent_buffer c (replicate (BUFFER_MAX c) None) 0 (S (parentStepSplitCount c)))
     else (w, c)) : world * t) /\
     kids_of (out w1) = kids_of (out w) /\ hp w1 = hp w /\
     state n H h0 w1 c1 log kids pch' pcur' cur ms /\ bufferParentPos c1 < n /\
     childStart c1 = childStart c /\ bufferChild c1 = bufferChild c /\
     bufferChildPos c1 = bufferChildPos c /\ childSplitTxNum c1 = childSplitTxNum c)
    as (w1 & c1 & pch' & pcur' & <- & Hk & Hh & H1 & Hlt & Hst & Hb & Hbp & Hnum).
  { destruct (bool_decide_reflect (BUFFER_MAX c <= bufferParentPos c)) as [Hle|Hle].
    - do 4 eexists. split; [done|]. split; [by simpl; rewrite kids_of_snoc; simpl; rewrite app_nil_r|].
      split; [done|]. split; [|by repeat split]. eapply state_cut_parent; [done|lia].
    - exists w, c, pch, pcur. do 3 (split; [done|]). split; [done|]. split; [lia|done]. }
  destruct (bool_decide_reflect (virtualTxHash c1 = 0%Z)) as [Hz|Hz].
  - do 2 eexists. exists pch', pcur'. split; [done|]. simpl. rewrite kids_of_snoc; simpl.
    rewrite app_nil_r. split; [|by repeat split].
    apply state_event; [|done]. rewrite He. destruct H1. split; simpl; auto.
  - exists w1, c1, pch', pcur'. split; [done|]. split; [done|]. do 3 (split; [done|]).
    split; [|done]. destruct (s_hash _ _ _ _ _ _ _ _ _ _ _ H1); congruence.
Qed.

Lemma send_eq e w c inx b :
  send e w c inx b =
  let k := child_of e c inx b in
  let '(w, c1) := after_parent e (emit w (PutChildTx k)) c in
  let st := fresh (dom (hp w)) in
  let msg := NewMessageStep (childStart_ k) (virtualTxHash c1)
               (child_desc (service k) (childTxid_ k)) (childElapsed_ k) in
  let w := with_heap w (<[st := msg]> (hp w)) in
  if bool_decide (bufferParentPos c1 < length (bufferParent c1)) then
    Ret (w, set_start_hash
              (set_parent_buffer c1 (<[bufferParentPos c1 := Some st]> (bufferParent c1))
                 (S (bufferParentPos c1)) (parentStepSplitCount c1))
              (GetElapsedTime e) (virtualTxHash c1))
  else Panic.
Proof.
  unfold send, after_parent, child_of, ProfileVirtualTxThread_Add.
  destruct (bool_decide (BUFFER_MAX c <= bufferParentPos c)); simpl;
    destruct (bool_decide (virtualTxHash c = 0%Z)); done.
Qed.

Lemma line_next e s :
  int32 (int32 s + int32 (int64 (GetElapsedTime e - s))) = int32 (GetElapsedTime e).
Proof. rewrite wrap_s_add by lia. apply wrap_s_eq; [lia|].
  rewrite Zplus_mod, <- (wrap_s_mod 32 (int64 _)), wrap_s_narrow, wrap_s_mod, <- Zplus_mod by lia.
  f_equal. lia.
Qed.

(** A full child buffer leaves. *)
Lemma split_ok n H h0 e w c log kids pch pcur cur ms :
  hash_is H e -> state n H h0 w c log kids pch pcur cur ms ->
  exists w' c' new pch' pcur' cur' ms', split e w c = Ret (w', c') /\
    state n H h0 w' c' log (kids ++ new) pch' pcur' cur' ms' /\ bufferChildPos c' < n /\
    kids_of (out w') = kids_of (out w) ++ new.
Proof.
  intros He Hs. pose proof (s_max _ _ _ _ _ _ _ _ _ _ _ Hs) as Hm. unfold split.
  destruct (bool_decide_reflect (BUFFER_MAX c <= bufferChildPos c)) as [Hle|Hle].
  2:{ exists w, c, [], pch, pcur, cur, ms. rewrite !app_nil_r.
      split; [done|]. split; [done|]. split; [lia|done]. }
  rewrite send_eq. cbv zeta. set (k := child_of _ _ _ _).
  destruct (after_parent_state n H h0 e (emit w (PutChildTx k)) c log kids pch pcur cur ms)
    as (w1 & c1 & pch' & pcur' & -> & H1 & Hlt & Hk & Hh & Hv & Hst & Hb & Hbp & Hnum);
    [done|by apply state_event|].
  set (l := fresh _). destruct H1.
  pose proof (filled_length _ _ _ _ s_parent0) as HL.
  rewrite bool_decide_eq_true_2 by lia. simpl.
  assert (bufferChildPos c = n) as Hpos by (rewrite <- Hbp; destruct s_child0 as (_ & _ & ?); lia).
  assert (hp w1 !! l = None) as Hl by (apply not_elem_of_dom, is_fresh).
  do 2 eexists. exists [k], pch', (pcur' ++ [l]), [], (ms ++ [l]).
  split; [done|]. simpl in Hk.
  split; [|split; [simpl; lia|simpl; by rewrite Hk, kids_of_snoc]].
  split; simpl; try done.
  - rewrite s_max0. apply filled_empty.
  - rewrite fmap_app. simpl. rewrite <- Hb. eapply chunked_cut; [done|].
    by rewrite Hbp, Hpos in s_child0.
  - rewrite length_app, s_num0. simpl. lia.
  - by apply filled_store.
  - by apply chunked_store.
  - apply Forall2_app.
    + apply names_insert; [done|]. apply Forall_forall. intros m Hm' ->.
      apply list_elem_of_lookup in Hm' as [i Hi].
      destruct (Forall2_lookup_l _ _ _ _ _ s_names0 Hi) as (? & _ & Hn). unfold names in Hn. congruence.
    + constructor; [|done]. unfold names. rewrite lookup_insert_eq, Hv. done.
  - apply Forall_app. split; [done|]. constructor; [|done].
    destruct (h0 !! l) eqn:E; [|done]. destruct (s_keeps0 l) as [? ?]; [eauto|congruence].
  - eapply keeps_trans; [done|apply keeps_insert].
  - apply (numbered_snoc _ _ (ServiceName (parent e))); [done|].
    unfold k. simpl. by rewrite <- Hnum, s_num0.
  - apply contiguous_snoc; [done|]. unfold k. simpl. by rewrite <- Hst.
  - unfold ends. rewrite last_snoc. unfold k. simpl. by rewrite line_next.
Qed.

Lemma store_ok n H h0 w c log kids pch pcur cur ms st :
  state n H h0 w c log kids pch pcur cur ms -> bufferChildPos c < n ->
  exists c', store c st = Ret c' /\ state n H h0 w c' (log ++ [st]) kids pch pcur (cur ++ [st]) ms.
Proof.
  intros [] Hlt. unfold store. pose proof (filled_length _ _ _ _ s_child0) as HL.
  rewrite bool_decide_eq_true_2 by lia. eexists. split; [done|].
  split; simpl; try done; [by apply filled_store|by apply chunked_store].
Qed.

Definition good (n : nat) (H : Z) (h0 : heap) (w : world) (c : t) (log : list loc) : Prop :=
  exists pch pcur cur ms, state n H h0 w c log (kids_of (out w)) pch pcur cur ms.
Definition goes (n : nat) (H : Z) (h0 : heap) (log : list loc) (m : res (world * t)) : Prop :=
  exists w c, m = Ret (w, c) /\ good n H h0 w c log.

(** [st.SetParent(p); st.SetIndex(i)] on a step of the initial heap. *)
Lemma mark_ok n H h0 w c log kids pch pcur cur ms st p i :
  state n H h0 w c log kids pch pcur cur ms -> is_Some (h0 !! st) ->
  exists s, (upd (hp w) st (SetParent p) ≫= fun h => upd h st (SetIndex i)) =
    Ret (<[st := SetIndex i (SetParent p s)]> (hp w)).
Proof.
  intros Hs Hl. destruct (s_keeps _ _ _ _ _ _ _ _ _ _ _ Hs st Hl) as [s E].
  exists s. unfold upd. rewrite E; simpl. by rewrite lookup_insert_eq, insert_insert_eq.
Qed.

Lemma push_ok n H h0 w c log st :
  good n H h0 w c log -> is_Some (h0 !! st) -> goes n H h0 log (Push w c st).
Proof.
  intros (pch & pcur & cur & ms & Hs) Hl. unfold Push.
  destruct (s_keeps _ _ _ _ _ _ _ _ _ _ _ Hs st Hl) as [s E].
  unfold upd, read. rewrite E; simpl. rewrite lookup_insert_eq; simpl.
  rewrite insert_insert_eq, lookup_insert_eq; simpl. do 2 eexists. split; [done|].
  exists pch, pcur, cur, ms. eapply state_ext; [by apply state_insert|done..].
Qed.

Lemma add_ok n H h0 e w c log st :
  hash_is H e -> good n H h0 w c log -> is_Some (h0 !! st) ->
  goes n H h0 (log ++ [st]) (Add e w c st).
Proof.
  intros He (pch & pcur & cur & ms & Hs) Hl. unfold Add.
  destruct (split_ok _ _ _ _ _ _ _ _ _ _ _ _ He Hs)
    as (w1 & c1 & new & pch1 & pcur1 & cur1 & ms1 & -> & H1 & Hlt & Hk). simpl.
  destruct (s_keeps _ _ _ _ _ _ _ _ _ _ _ H1 st Hl) as [s E].
  unfold upd. rewrite E; simpl. rewrite lookup_insert_eq; simpl. rewrite insert_insert_eq.
  destruct (store_ok n H h0 (with_heap w1 (<[st := SetIndex (childIndex c1) (SetParent (parentIndex c1) s)]> (hp w1)))
     (set_index c1 (parentIndex c1) (int32 (childIndex c1 + 1))) log (kids_of (out w) ++ new)
     pch1 pcur1 cur1 ms1 st) as (c2 & -> & H2); [|done|].
  { eapply state_ext; [by apply state_insert|done..]. }
  simpl. do 2 eexists. split; [done|]. unfold good. simpl. rewrite Hk. eauto.
Qed.

Lemma justadd_ok n H h0 e w c log st :
  hash_is H e -> good n H h0 w c log -> goes n H h0 (log ++ [st]) (JustAdd e w c st).
Proof.
  intros He (pch & pcur & cur & ms & Hs). unfold JustAdd.
  destruct (split_ok _ _ _ _ _ _ _ _ _ _ _ _ He Hs)
    as (w1 & c1 & new & pch1 & pcur1 & cur1 & ms1 & -> & H1 & Hlt & Hk). simpl.
  destruct (store_ok _ _ _ _ _ _ _ _ _ _ _ st H1 Hlt) as (c2 & -> & H2). simpl.
  do 2 eexists. split; [done|]. unfold good. rewrite Hk. eauto.
Qed.

(** [Pop] is [JustAdd] and then takes the parent index of the step. *)
Lemma pop_ok n H h0 e w c log st :
  hash_is H e -> good n H h0 w c log -> is_Some (h0 !! st) ->
  goes n H h0 (log ++ [st]) (Pop e w c st).
Proof.
  intros He Hg Hl. destruct (justadd_ok n H h0 e w c log st He Hg) as (w1 & c1 & E & H1).
  assert (Pop e w c st = JustAdd e w c st ≫= fun '(w, c) =>
            p ← read (hp w) st GetParent; Ret (w, set_index c p (childIndex c))) as ->.
  { unfold Pop, JustAdd. destruct (split e w c) as [[w2 c2]| |]; simpl; [|done..].
    by destruct (store c2 st). }
  rewrite E; simpl. destruct H1 as (pch & pcur & cur & ms & H1).
  destruct (s_keeps _ _ _ _ _ _ _ _ _ _ _ H1 st Hl) as [s Es]. unfold read. rewrite Es; simpl.
  do 2 eexists. split; [done|]. exists pch, pcur, cur, ms. by eapply state_ext.
Qed.

Lemma exec_ok n H h0 eo w c log :
  hash_is H eo.1 -> good n H h0 w c log -> is_Some (h0 !! mentions eo.2) ->
  goes n H h0 (log ++ stored eo.2) (exec (w, c) eo).
Proof.
  destruct eo as [e []]; unfold exec; simpl; intros He Hg Hl.
  - rewrite app_nil_r. by apply push_ok.
  - by apply add_ok.
  - by apply (add_ok n H h0 e w c log st).
  - by apply justadd_ok.
  - by apply pop_ok.
Qed.

Lemma run_ok n H h0 eos w c log :
  Forall (fun eo => hash_is H eo.1) eos -> live h0 (mentions <$> eos.*2) ->
  good n H h0 w c log -> goes n H h0 (log ++ concat (stored <$> eos.*2)) (foldM exec (w, c) eos).
Proof.
  revert w c log; induction eos as [|eo eos IH]; intros w c log He Hl Hg; cbn [foldM].
  { simpl. rewrite app_nil_r. by exists w, c. }
  inversion He; inversion Hl; subst.
  destruct (exec_ok n H h0 eo w c log) as (w1 & c1 & -> & H1); [done..|]. simpl.
  rewrite app_assoc. by apply IH.
Qed.

Lemma New_ok (n : Z) (H : Z) h0 :
  (0 < n)%Z -> exists c, NewProfileSplitTxCollector n = Ret c /\
    good (Z.to_nat n) H h0 {| hp := h0; out := [] |} c [].
Proof.
  intros Hn. unfold NewProfileSplitTxCollector. destruct (Z.ltb_spec n 0); [lia|].
  eexists. split; [done|]. exists [], [], [], [].
  split; simpl; try done; try apply filled_empty; try (by split); auto with go; lia.
Qed.

(** What is still buffered is the current parent steps, then the current steps. *)
Lemma GetSteps_ok n H h0 w c log kids pch pcur cur ms :
  state n H h0 w c log kids pch pcur cur ms -> GetSteps c = Ret (Some <$> (pcur ++ cur)).
Proof.
  intros []. unfold GetSteps. rewrite fmap_app.
  pose proof (filled_length _ _ _ _ s_child0) as Lc. pose proof (filled_length _ _ _ _ s_parent0) as Lp.
  pose proof (filled_slice _ _ _ _ s_child0) as Gc. pose proof (filled_slice _ _ _ _ s_parent0) as Gp.
  assert (bufferParentPos c = length pcur) as Hp by apply s_parent0.
  assert (bufferChildPos c = length cur) as Hc by apply s_child0.
  destruct (bool_decide_reflect (bufferParentPos c = 0)) as [Zp|Zp],
    (bool_decide_reflect (bufferChildPos c = 0)) as [Zc|Zc]; simpl.
  - destruct pcur, cur; simpl in *; done || lia.
  - destruct pcur; [|simpl in *; lia]. simpl.
    destruct (bool_decide_reflect (length (bufferChild c) <= bufferChildPos c)) as [Hf|Hf].
    + assert (bufferChildPos c = n) as E by (destruct s_child0 as (_ & _ & ?); lia).
      rewrite E in s_child0. by rewrite (filled_full _ _ _ s_child0).
    + rewrite bool_decide_eq_true_2 by lia. done.
  - destruct cur; [|simpl in *; lia]. rewrite bool_decide_eq_true_2 by lia.
    by rewrite app_nil_r.
  - rewrite Gp; simpl. by rewrite Gc.
Qed.
End Facts.

(** C3. The split-transaction collector partitions the profile: after any calls on
    a fresh collector of positive size none has failed, and the steps of the child
    transactions it queued (all full, named 1, 2, 3, ...) followed by the current
    ones are exactly the stored steps in order; each child starts where the one
    before it ended; and the parent's own time line, the chunks queued for it and
    what it still holds, has exactly one message step per child, in order, with
    that child's start, name, id and elapsed time.  [GetSteps] returns what is
    still buffered of both. *)
Theorem SplitTx_partitions {SI : StepI} {MI : MessageStepI SI} (n H : Z) eos h :
  (0 < n)%Z -> live h (mentions <$> eos.*2) -> Forall (fun eo => hash_is H eo.1) eos ->
  exists c0 w c pch pcur cur ms, NewProfileSplitTxCollector n = Ret c0 /\
    foldM exec ({| hp := h; out := [] |}, c0) eos = Ret (w, c) /\
    let kids := kids_of (out w) in
    Forall (fun k => length (steps k) = Z.to_nat n) kids /\
    concat (steps <$> kids) ++ (Some <$> cur) = Some <$> concat (stored <$> eos.*2) /\
    numbered kids /\ contiguous kids /\
    LargeFacts.sent (out w) = imap pair pch /\
    concat pch ++ (Some <$> pcur) = Some <$> ms /\ Forall2 (names (hp w) H) ms kids /\
    GetSteps c = Ret (Some <$> (pcur ++ cur)).
Proof.
  intros Hn Hl He. destruct (New_ok n H h Hn) as (c0 & H0 & Hg).
  destruct (run_ok _ H h eos _ c0 [] He Hl Hg) as (w & c & E & (pch & pcur & cur & ms & Hs)).
  exists c0, w, c, pch, pcur, cur, ms. split; [done|]. split; [done|]. cbv zeta.
  pose proof (GetSteps_ok _ _ _ _ _ _ _ _ _ _ _ Hs). destruct Hs as [? ? ? [Hf Hc] ? ? [Hpf Hpc]].
  split; [by apply Forall_fmap in Hf|]. done.
Qed.

Module Examples.
#[local] Existing Instance PlainStep.plain.
Definition plain_msg : MessageStepI PlainStep.plain :=
  {| NewMessageStep start hash desc time := PlainStep.mk 0 0 start time false |}.
#[local] Existing Instance plain_msg.
Definition heap4 : gmap nat (@Step PlainStep.plain) := LargeFacts.heap3.
Definition calls4 : list (env * op) :=
  [(LargeFacts.env1 1010, OAdd 1); (LargeFacts.env1 1020, OAdd 2); (LargeFacts.env1 1030, OJustAdd 3)].

Lemma SplitTx_partitions_witness :
  exists c0 w c, NewProfileSplitTxCollector 1 = Ret c0 /\
    foldM exec ({| hp := heap4; out := [] |}, c0) calls4 = Ret (w, c) /\
    concat (steps <$> kids_of (out w)) = [Some 1; Some 2] /\
    (childStart_ <$> kids_of (out w)) = [0; 20]%Z /\ contiguous (kids_of (out w)).
Proof.
  destruct (SplitTx_partitions 1 7 calls4 heap4)
    as (c0 & w & c & pch & pcur & cur & ms & H0 & E & _ & _ & _ & Hc & _).
  - lia.
  - repeat constructor; eexists; vm_compute; reflexivity.
  - repeat constructor.
  - exists c0, w, c. split; [done|]. split; [done|].
    vm_compute in H0. injection H0 as <-. revert Hc. vm_compute in E. injection E as <- <-.
    intros Hc. split; [reflexivity|]. split; [reflexivity|]. exact Hc.
Defined.
End Examples.
End SplitTxFacts.

(** The two consumer threads. *)
Module SingletonFacts.
Import Singletons.

(** [n] calls of a getter: the instances returned. *)
Fixpoint calls (get : t -> t * nat) (n : nat) (s : t) : t * list nat :=
  match n with
  | 0 => (s, [])
  | S n => let '(s, p) := get s in let '(s, ps) := calls get n s in (s, p :: ps)
  end.

Lemma step_thread_known n s p :
  profileStepThread s = Some p -> calls GetInstanceProfileStepThread n s = (s, replicate n p).
Proof.
  intros H. induction n as [|n IH]; [done|]. simpl.
  unfold GetInstanceProfileStepThread at 1. by rewrite H, IH.
Qed.

(** The step thread is a singleton, the virtual-transaction thread is not: the
    first getter starts one goroutine and hands it out for ever, while every call
    of the second returns a new thread with a goroutine of its own, because it
    assigns a local variable that shadows the package variable. *)
Theorem GetInstance_singleton_or_not n g :
  let s := {| profileStepThread := None; profileVirtualTxThread := None; goroutines := g |} in
  (let '(s', ps) := calls GetInstanceProfileStepThread (S n) s in
   goroutines s' = S g /\ ps = replicate (S n) g) /\
  (let '(s', ps) := calls GetInstanceProfileVirtualTxThread n s in
   goroutines s' = n + g /\ ps = seq g n /\ profileVirtualTxThread s' = None).
Proof.
  intros s. split.
  - cbn -[s]. unfold GetInstanceProfileStepThread at 1. simpl.
    by rewrite (step_thread_known n _ g).
  - unfold s. clear s. revert g. induction n as [|n IH]; intros g; [done|]. simpl.
    specialize (IH (S g)).
    destruct (calls GetInstanceProfileVirtualTxThread n _) as [s' ps].
    destruct IH as (? & -> & ?). split; [lia|done].
Qed.
End SingletonFacts.
