(* ===== verification/LlmChunk.v ===== *)
(** Splitting message texts into bounded chunks, [src/agent/agent/llm/chunk.go],
    and its correctness: on text whose characters are encoded as UTF-8 does, the
    chunks are groups of whole characters and give the text back; on a long run
    of continuation bytes the loop does not end. *)

From S2P Require Import Prelude.

(** [MaxContentBytes] *)
Definition MaxContentBytes : nat := N.to_nat 20000.

(** [b & 0xC0 == 0x80] *)
Definition is_cont (c : ascii) : bool := (Z.land (byteZ c) 0xC0 =? 0x80)%Z.

(** [for end > i && (b[end] & 0xC0) == 0x80 { end-- }]; the fuel is [end]. *)
Fixpoint retreat (b : bytes) (i fin : nat) : res nat :=
  match fin with
  | 0 => Ret 0
  | S fin' =>
      if bool_decide (i < fin) then
        c ← index_ b fin;
        if is_cont c then retreat b i fin' else Ret fin
      else Ret fin
  end.

Section Split.
Context (Max : nat).

(** The end of the chunk that starts at [i]. *)
Definition chunk_end (b : bytes) (i : nat) : res nat :=
  let fin := i + Max in
  let fin := if bool_decide (length b < fin) then length b else fin in
  if bool_decide (fin < length b) then retreat b i fin else Ret fin.

Fixpoint chunk_loop (fuel : nat) (b : bytes) (i : nat) (chunks : list bytes) : res (list bytes) :=
  match fuel with
  | 0 => OutOfFuel
  | S fuel =>
      if bool_decide (i < length b) then
        fin ← chunk_end b i;
        chunk ← slice b i fin;
        chunk_loop fuel b fin (chunks ++ [chunk])
      else Ret chunks
  end.

Definition split_content (fuel : nat) (content : bytes) : res (list bytes) :=
  if negb (nonempty content) then Ret []
  else if bool_decide (length content <= Max) then Ret [content]
  else chunk_loop fuel content 0 [].
End Split.

Definition SplitContent (fuel : nat) (content : bytes) : res (list bytes) :=
  split_content MaxContentBytes fuel content.

(** * Characters *)

(** A character: a byte that is no continuation byte and at most three that are. *)
Definition char (p : bytes) : Prop :=
  exists c t, p = c :: t /\ is_cont c = false /\ Forall (fun d => is_cont d = true) t /\ length t <= 3.

Lemma char_length p : char p -> 1 <= length p <= 4.
Proof. intros (c & t & -> & _ & _ & H). simpl. lia. Qed.

(** Going back over continuation bytes stops at the last character boundary. *)
Lemma retreat_stop b i fin :
  i <= fin -> fin < length b -> exists j, retreat b i fin = Ret j /\ i <= j <= fin /\
    (forall k, j < k <= fin -> exists c, b !! k = Some c /\ is_cont c = true) /\
    (i < j -> exists c, b !! j = Some c /\ is_cont c = false).
Proof.
  induction fin as [|fin IH]; intros Hi Hf.
  { exists 0. split; [done|]. split; [lia|]. split; intros; lia. }
  cbn [retreat]. destruct (bool_decide_reflect (i < S fin)) as [Hlt|Hge].
  2:{ exists (S fin). split; [done|]. split; [lia|]. split; intros; lia. }
  destruct (lookup_lt_is_Some_2 b (S fin) Hf) as [c Hc]. unfold index_. rewrite Hc; simpl.
  destruct (is_cont c) eqn:Ec.
  - destruct (IH ltac:(lia) ltac:(lia)) as (j & -> & Hj & Hk & Hn).
    exists j. split; [done|]. split; [lia|]. split; [|done].
    intros k Hkj. destruct (decide (k = S fin)) as [->|]; [eauto|]. apply Hk. lia.
  - exists (S fin). split; [done|]. split; [lia|]. split; [intros; lia|]. eauto.
Qed.

(** A prefix of characters, cut at the boundary at or before [n]. *)
Lemma chars_cut cs n :
  Forall char cs -> n < length (concat cs) ->
  exists g r p, cs = g ++ p :: r /\ length (concat g) <= n < length (concat g) + length p.
Proof.
  revert n; induction cs as [|p cs IH]; intros n Hf Hn; [simpl in Hn; lia|].
  inversion Hf as [|? ? Hp Hcs]; subst. simpl in Hn. rewrite length_app in Hn.
  destruct (decide (n < length p)) as [Hlt|Hge].
  - exists [], cs, p. split; [done|]. simpl. lia.
  - destruct (IH (n - length p) Hcs) as (g & r & q & -> & Hg); [lia|].
    exists (p :: g), r, q. split; [done|]. simpl. rewrite length_app. lia.
Qed.

(** The byte at an offset inside a character is a continuation byte exactly when
    the offset is not 0. *)
Lemma char_byte p k c : char p -> p !! k = Some c -> is_cont c = bool_decide (k <> 0).
Proof.
  intros (d & t & -> & Hd & Ht & _). destruct k as [|k]; simpl; intros H; simplify_eq; [done|].
  rewrite Forall_lookup in Ht. by rewrite (Ht k c H).
Qed.

(** The bytes of a group of characters. *)
Abbreviation joined := (@concat ascii).

Section Correct.
Context (Max : nat).
Hypothesis Max_4 : 4 <= Max.

(** The chunk that starts on a character boundary ends on the next ones. *)
Lemma chunk_end_char (b pre : bytes) cs :
  b = pre ++ concat cs -> Forall char cs -> concat cs <> [] ->
  exists g r, cs = g ++ r /\ concat g <> [] /\ length (concat g) <= Max /\
    chunk_end Max b (length pre) = Ret (length pre + length (concat g)).
Proof.
  intros -> Hf Hne. unfold chunk_end. rewrite length_app.
  set (n := length (concat cs)). assert (0 < n) by (unfold n; destruct (concat cs); [done|simpl; lia]).
  destruct (bool_decide_reflect (length pre + n < length pre + Max)) as [Hlt|Hge].
  { rewrite bool_decide_eq_false_2 by lia. exists cs, []. rewrite app_nil_r.
    split; [done|]. split; [done|]. split; [unfold n in *; lia|done]. }
  destruct (bool_decide_reflect (length pre + Max < length pre + n)) as [Hlt|Hge'].
  2:{ assert (Max = n) as -> by lia. exists cs, []. rewrite app_nil_r. repeat split; done. }
  destruct (chars_cut cs Max Hf ltac:(lia)) as (g & r & p & Hcs & Hp).
  assert (char p) as Hcp by (subst cs; apply Forall_app in Hf as [_ Hf]; by inversion Hf).
  pose proof (char_length _ Hcp).
  assert (forall k, k < length p ->
    (pre ++ concat cs) !! (length pre + (length (concat g) + k)) = p !! k) as Hlk.
  { intros k Hk. rewrite lookup_app_r by lia. rewrite Nat.add_comm, Nat.add_sub.
    rewrite Hcs, concat_app, lookup_app_r by lia. rewrite Nat.add_comm, Nat.add_sub. simpl.
    by rewrite lookup_app_l by lia. }
  destruct (retreat_stop (pre ++ concat cs) (length pre) (length pre + Max))
    as (j & -> & Hj & Hk & Hn); [lia|rewrite length_app; lia|].
  assert (j = length pre + length (concat g)) as ->.
  { destruct (lt_eq_lt_dec j (length pre + length (concat g))) as [[Hl|He]|Hg]; [|done|].
    - destruct (Hk (length pre + length (concat g))) as (c & Hc & Ec); [lia|].
      specialize (Hlk 0 ltac:(lia)). rewrite Nat.add_0_r, Hc in Hlk.
      by rewrite (char_byte p 0 c Hcp) in Ec.
    - destruct Hn as (c & Hc & Ec); [lia|].
      specialize (Hlk (j - length pre - length (concat g)) ltac:(lia)).
      replace (length pre + (length (concat g) + (j - length pre - length (concat g)))) with j in Hlk by lia.
      rewrite Hc in Hlk. rewrite (char_byte p _ c Hcp (eq_sym Hlk)) in Ec.
      rewrite bool_decide_eq_true_2 in Ec by lia. done. }
  exists g, (p :: r). split; [done|]. split; [|split; [lia|done]].
  intros E. rewrite E in Hp. simpl in Hp. lia.
Qed.

(** The loop from a character boundary on: groups of the remaining characters. *)
Lemma chunk_loop_chars fuel b pre cs acc :
  b = pre ++ concat cs -> Forall char cs -> length (concat cs) < fuel ->
  exists gs, chunk_loop Max fuel b (length pre) acc = Ret (acc ++ (joined <$> gs)) /\
    concat gs = cs /\ Forall (fun g => 1 <= length (concat g) <= Max) gs.
Proof.
  revert pre cs acc. induction fuel as [|fuel IH]; intros pre cs acc Hb Hf Hl; [lia|].
  cbn [chunk_loop]. destruct (concat cs) as [|x l] eqn:E.
  - rewrite bool_decide_eq_false_2 by (rewrite Hb, app_nil_r; lia).
    exists []. rewrite app_nil_r. split; [done|]. split; [|done].
    destruct cs as [|p cs]; [done|]. inversion Hf as [|? ? Hp]; subst.
    apply char_length in Hp. simpl in E. destruct p; simpl in *; [lia|done].
  - rewrite bool_decide_eq_true_2 by (rewrite Hb, length_app; simpl; lia).
    rewrite <- E in *.
    destruct (chunk_end_char b pre cs Hb Hf) as (g & r & -> & Hg & HM & ->); [by rewrite E|]. simpl.
    rewrite concat_app in Hb.
    assert (slice b (length pre) (length pre + length (concat g)) = Ret (concat g)) as ->.
    { unfold slice. rewrite decide_True by (rewrite Hb, !length_app; lia).
      rewrite Nat.add_comm, Nat.add_sub, Hb, drop_app_length.
      by rewrite take_app_length. }
    simpl. apply Forall_app in Hf as [Hfg Hfr].
    destruct (IH (pre ++ concat g) r (acc ++ [concat g])) as (gs & Hgs & Hc & Hgl).
    + by rewrite <- app_assoc.
    + done.
    + rewrite concat_app, length_app in Hl. destruct (concat g); [done|simpl in *; lia].
    + rewrite length_app in Hgs. exists (g :: gs). rewrite Hgs, <- app_assoc. split; [done|].
      simpl. split; [by rewrite Hc|]. constructor; [|done].
      destruct (concat g); [done|simpl in *; lia].
Qed.

Lemma split_content_chars fuel cs :
  Forall char cs -> length (concat cs) < fuel ->
  exists gs, split_content Max fuel (concat cs) = Ret (joined <$> gs) /\
    concat gs = cs /\ Forall (fun g => 1 <= length (concat g) <= Max) gs.
Proof.
  intros Hf Hl. unfold split_content. destruct (concat cs) as [|x l] eqn:E; cbn [nonempty negb].
  { exists []. split; [done|]. destruct cs as [|p cs]; [done|]. inversion Hf as [|? ? Hp]; subst.
    apply char_length in Hp. simpl in E. destruct p; simpl in *; [lia|done]. }
  rewrite <- E. destruct (bool_decide_reflect (length (concat cs) <= Max)) as [Hle|Hgt].
  { exists [cs]. simpl. rewrite app_nil_r. split; [done|]. split; [done|].
    constructor; [|done]. rewrite E in *. simpl in *. lia. }
  rewrite <- E in Hl.
  destruct (chunk_loop_chars fuel (concat cs) [] cs []) as (gs & H1 & H2 & H3); [done..|].
  by exists gs.
Qed.

(** ** Non-termination *)
Lemma chunk_loop_stuck fuel b i acc :
  Max < length b - i -> (forall k, i < k <= i + Max -> exists c, b !! k = Some c /\ is_cont c = true) ->
  chunk_loop Max fuel b i acc = OutOfFuel.
Proof.
  intros Hl Hc. revert acc. induction fuel as [|fuel IH]; intros acc; [done|]. cbn [chunk_loop].
  rewrite bool_decide_eq_true_2 by lia. unfold chunk_end.
  rewrite (bool_decide_eq_false_2 (length b < i + Max)) by lia. rewrite bool_decide_eq_true_2 by lia.
  destruct (retreat_stop b i (i + Max)) as (j & -> & Hj & _ & Hn); [lia..|]. simpl.
  assert (j = i) as ->.
  { destruct (decide (i < j)) as [Hlt|]; [|lia]. destruct (Hn Hlt) as (c & E & Ec).
    destruct (Hc j) as (d & E' & Ed); [lia|]. congruence. }
  unfold slice. rewrite decide_True by lia. simpl. apply IH.
Qed.
End Correct.

Lemma Max_at_least_4 : 4 <= MaxContentBytes.
Proof. unfold MaxContentBytes. lia. Qed.

(** * The properties *)

(** C27. Chunking is lossless and respects characters: on a text made of UTF-8
    framed characters, [SplitContent] returns (fuel of one more than the length
    is enough), its chunks concatenate to the text, each has between 1 and
    [MaxContentBytes] bytes, and no character is torn: the chunks are
    consecutive groups of the text's characters. *)
Theorem SplitContent_chars fuel cs :
  Forall char cs -> length (concat cs) < fuel ->
  exists gs, SplitContent fuel (concat cs) = Ret (joined <$> gs) /\
    concat (joined <$> gs) = concat cs /\
    Forall (fun ch => 1 <= length ch <= MaxContentBytes) (joined <$> gs) /\ concat gs = cs.
Proof.
  intros Hf Hl.
  destruct (split_content_chars _ Max_at_least_4 fuel cs Hf Hl) as (gs & H1 & H2 & H3).
  exists gs. split; [done|]. split; [|split; [by apply Forall_fmap|done]].
  rewrite <- H2. clear. induction gs as [|g gs IH]; [done|]. simpl. rewrite concat_app. f_equal. exact IH.
Qed.

(** [SplitContent] does not terminate on a text that continues with more than
    [MaxContentBytes] continuation bytes after its first byte: the end of the
    chunk retreats to its start and the loop appends empty chunks for ever,
    whatever the fuel. *)
Theorem SplitContent_diverges fuel c t s :
  Forall (fun d => is_cont d = true) t -> MaxContentBytes <= length t ->
  SplitContent fuel (c :: t ++ s) = OutOfFuel.
Proof.
  intros Ht Hl. unfold SplitContent, split_content. cbn [nonempty negb].
  destruct (bool_decide_reflect (length (c :: t ++ s) <= MaxContentBytes)) as [Hle|Hgt].
  { exfalso. cbn [length] in Hle. rewrite length_app in Hle. lia. }
  apply (chunk_loop_stuck _ Max_at_least_4); [lia|].
  intros k Hk. destruct k as [|k]; [lia|]. cbn [lookup list_lookup].
  destruct (lookup_lt_is_Some_2 t k) as [d Hd]; [lia|]. exists d.
  split; [by apply lookup_app_l_Some|]. rewrite Forall_lookup in Ht. eauto.
Qed.

(** A two-byte character, 10000 times and once more. *)
Definition e_acute : bytes := [ascii_of_N 195; ascii_of_N 169].
Lemma e_acute_char : char e_acute.
Proof. exists (ascii_of_N 195), [ascii_of_N 169]. repeat constructor. Qed.

Lemma SplitContent_chars_witness :
  exists gs, let cs := replicate (N.to_nat 10001) e_acute in
    SplitContent (N.to_nat 20003) (concat cs) = Ret (joined <$> gs) /\ concat gs = cs.
Proof.
  destruct (SplitContent_chars (N.to_nat 20003) (replicate (N.to_nat 10001) e_acute))
    as (gs & H1 & _ & _ & H2).
  - apply Forall_replicate, e_acute_char.
  - assert (forall n, length (concat (replicate n e_acute)) = 2 * n) as ->.
    { clear. induction n as [|n IH]; [done|]. simpl. rewrite IH. lia. }
    lia.
  - exists gs. split; assumption.
Defined.

Lemma SplitContent_diverges_witness :
  let t := replicate MaxContentBytes (ascii_of_N 128) in
  SplitContent (N.to_nat 1000000) ("a"%char :: t ++ []) = OutOfFuel.
Proof.
  intros t. apply (SplitContent_diverges (N.to_nat 1000000) "a"%char t []).
  - apply Forall_replicate. reflexivity.
  - unfold t. rewrite length_replicate. lia.
Defined.
