(* ===== verification/LlmUrl.v ===== *)
(** Recognising LLM API calls by their URL, [src/agent/agent/llm/url_match.go] and
    [InferProviderURL] of [pack.go], with what the two tables promise. *)

From S2P Require Import Prelude.

Record URLMatch := mkURLMatch { Provider : bytes; OperationType : bytes; URL : bytes }.
Definition no_match : URLMatch := mkURLMatch [] [] [].

Record pathOp := mkPathOp { pathPrefix : bytes; op : bytes }.
Record hostPattern := mkHostPattern { host : bytes; opPaths : list pathOp }.

Definition pattern (h : string) (ps : list (string * string)) : hostPattern :=
  mkHostPattern (str h) ((fun p => mkPathOp (str p.1) (str p.2)) <$> ps).

Definition builtinHosts : list hostPattern :=
  [ pattern "api.openai.com"
      [("/v1/chat/completions", "chat"); ("/v1/responses", "responses");
       ("/v1/embeddings", "embeddings"); ("/v1/completions", "completions")];
    pattern "api.anthropic.com" [("/v1/messages", "messages"); ("/v1/complete", "completions")];
    pattern "generativelanguage.googleapis.com"
      [("/v1beta/models", "chat"); ("/v1/models", "chat")];
    pattern "api.x.ai" [("/v1/chat/completions", "chat")];
    pattern "api.cohere.com"
      [("/v1/chat", "chat"); ("/v1/embed", "embeddings"); ("/v1/generate", "completions")];
    pattern "api.together.xyz"
      [("/v1/chat/completions", "chat"); ("/v1/completions", "completions");
       ("/v1/embeddings", "embeddings")];
    pattern "api.mistral.ai" [("/v1/chat/completions", "chat"); ("/v1/embeddings", "embeddings")];
    pattern "api.groq.com" [("/openai/v1/chat/completions", "chat")];
    pattern "api.deepseek.com" [("/v1/chat/completions", "chat")];
    pattern "api.perplexity.ai" [("/chat/completions", "chat")] ]%string.

Definition ToLower (s : bytes) : bytes := to_lower <$> s.

(** The package variable [customHosts] is passed around; a Go map is ranged over
    in an unspecified order, so [AddHostPattern] takes the pairs of the map in the
    order of the iteration. *)
Definition AddHostPattern (customHosts : list hostPattern) (h : bytes)
    (opByPath : list (bytes * bytes)) : list hostPattern :=
  let h := ToLower (TrimSpace h) in
  if negb (nonempty h) then customHosts
  else
    let ops := if bool_decide (length opByPath = 0) then [mkPathOp [] (str "chat")]
               else (fun p => mkPathOp p.1 p.2) <$> opByPath in
    customHosts ++ [mkHostPattern h ops].

(** [for _, po := range hp.opPaths] *)
Fixpoint match_path (ops : list pathOp) (path : bytes) : option bytes :=
  match ops with
  | [] => None
  | po :: ops =>
      if negb (nonempty (pathPrefix po)) || HasPrefix path (pathPrefix po) then Some (op po)
      else match_path ops path
  end.

Fixpoint matchInTable (tbl : list hostPattern) (h path : bytes) : option URLMatch :=
  match tbl with
  | [] => None
  | hp :: tbl =>
      if bool_decide (host hp <> h) then matchInTable tbl h path
      else
        match match_path (opPaths hp) path with
        | Some o => Some (mkURLMatch (host hp) o [])
        | None => Some (mkURLMatch (host hp) (str "unknown") [])
        end
  end.

(** The part behind the first ["://"], if any. *)
Definition after_scheme (url : bytes) : bytes :=
  match Index url (str "://") with Some i => drop (i + 3) url | None => url end.

Definition splitHostPath (url : bytes) : bytes * bytes :=
  let s := after_scheme url in
  match Index s (str "/") with Some i => (take i s, drop i s) | None => (s, []) end.

Definition set_URL (m : URLMatch) (url : bytes) : URLMatch :=
  mkURLMatch (Provider m) (OperationType m) url.

Definition MatchURL (customHosts : list hostPattern) (url : bytes) : URLMatch * bool :=
  if negb (nonempty url) then (no_match, false)
  else
    let '(h, path) := splitHostPath url in
    if negb (nonempty h) then (no_match, false)
    else
      let hostLower := ToLower h in
      match matchInTable builtinHosts hostLower path with
      | Some m => (set_URL m url, true)
      | None =>
          match matchInTable customHosts hostLower path with
          | Some m => (set_URL m url, true)
          | None => (no_match, false)
          end
      end.

Definition InferProviderURL (httpcURL : bytes) : bytes * bytes :=
  if negb (nonempty httpcURL) then ([], [])
  else
    let s := after_scheme httpcURL in
    match Index s (str "/") with Some i => (take i s, drop i s) | None => (s, []) end.

(** * Splitting *)

Lemma Index_HasPrefix s p : HasPrefix s p = true -> Index s p = Some 0.
Proof. intros H. destruct s; simpl in *; by rewrite H. Qed.

(** The first slash of [h ++ "/" ++ p] when [h] has none. *)
Lemma Index_slash h p :
  "/"%char ∉ h -> Index (h ++ "/"%char :: p) (str "/") = Some (length h).
Proof.
  induction h as [|c h IH]; intros Hn; [done|].
  rewrite not_elem_of_cons in Hn. destruct Hn as [Hc Hh]. cbn [app Index].
  assert (HasPrefix (c :: h ++ "/"%char :: p) (str "/") = false) as ->.
  { simpl. by rewrite bool_decide_eq_false_2. }
  by rewrite IH.
Qed.
Lemma Index_no_slash h : "/"%char ∉ h -> Index h (str "/") = None.
Proof.
  induction h as [|c h IH]; intros Hn; [done|].
  rewrite not_elem_of_cons in Hn. destruct Hn as [Hc Hh]. cbn [Index].
  assert (HasPrefix (c :: h) (str "/") = false) as ->.
  { simpl. by rewrite bool_decide_eq_false_2. }
  by rewrite IH.
Qed.

(** The first ["://"] of [scheme ++ "://" ++ s] when [scheme] has no colon. *)
Lemma Index_scheme scheme s :
  ":"%char ∉ scheme -> Index (scheme ++ str "://" ++ s) (str "://") = Some (length scheme).
Proof.
  induction scheme as [|c h IH]; intros Hn; [apply Index_HasPrefix, HasPrefix_spec; by exists s|].
  rewrite not_elem_of_cons in Hn. destruct Hn as [Hc Hh]. cbn [app Index].
  assert (HasPrefix (c :: h ++ str "://" ++ s) (str "://") = false) as ->.
  { simpl. by rewrite bool_decide_eq_false_2. }
  by rewrite IH.
Qed.

Lemma after_scheme_spec scheme s :
  ":"%char ∉ scheme -> after_scheme (scheme ++ str "://" ++ s) = s.
Proof.
  intros H. unfold after_scheme. rewrite Index_scheme by done.
  rewrite app_assoc. replace (length scheme + 3) with (length (scheme ++ str "://"))
    by (rewrite length_app; simpl; lia).
  by rewrite drop_app_length.
Qed.

(** A URL with a scheme is split at the first slash of its rest. *)
Definition a_path (p : bytes) : Prop := p = [] \/ exists q, p = "/"%char :: q.
Lemma splitHostPath_spec scheme h p :
  ":"%char ∉ scheme -> "/"%char ∉ h -> a_path p ->
  splitHostPath (scheme ++ str "://" ++ h ++ p) = (h, p).
Proof.
  intros Hs Hh Hp. unfold splitHostPath. rewrite after_scheme_spec by done.
  destruct Hp as [->|[q ->]].
  - by rewrite app_nil_r, Index_no_slash.
  - rewrite Index_slash by done. by rewrite take_app_length, drop_app_length.
Qed.

Lemma InferProviderURL_split url : url <> [] -> InferProviderURL url = splitHostPath url.
Proof. by destruct url. Qed.

(** * Lookup *)

(** The first pattern of the table for a host decides, whatever its paths. *)
Lemma matchInTable_None tbl h p : matchInTable tbl h p = None <-> h ∉ host <$> tbl.
Proof.
  induction tbl as [|hp tbl IH]; simpl; [split; [intros _; apply not_elem_of_nil|done]|].
  rewrite not_elem_of_cons. destruct (bool_decide_reflect (host hp <> h)) as [Hn|He].
  - rewrite IH. naive_solver.
  - split; [by destruct (match_path _ _)|]. intros [Hn _]. exfalso. apply He. congruence.
Qed.

Lemma matchInTable_app tbl1 tbl2 h p :
  matchInTable (tbl1 ++ tbl2) h p =
  match matchInTable tbl1 h p with Some m => Some m | None => matchInTable tbl2 h p end.
Proof.
  induction tbl1 as [|hp tbl IH]; [done|]. simpl.
  destruct (bool_decide (host hp <> h)); [done|]. by destruct (match_path _ _).
Qed.

Lemma matchInTable_host tbl h p m : matchInTable tbl h p = Some m -> Provider m = h.
Proof.
  induction tbl as [|hp tbl IH]; simpl; [done|].
  destruct (bool_decide_reflect (host hp <> h)) as [|He]; [done|].
  assert (host hp = h) by (destruct (decide (host hp = h)); tauto).
  destruct (match_path _ _); intros; by simplify_eq/=.
Qed.

(** One table lookup does for both. *)
Lemma MatchURL_lookup tbl scheme h p :
  ":"%char ∉ scheme -> "/"%char ∉ h -> h <> [] -> a_path p ->
  let url := scheme ++ str "://" ++ h ++ p in
  MatchURL tbl url =
  match matchInTable (builtinHosts ++ tbl) (ToLower h) p with
  | Some m => (set_URL m url, true) | None => (no_match, false) end.
Proof.
  intros Hs Hh Hne Hp url. unfold MatchURL.
  assert (nonempty url = true) as -> by (unfold url; destruct scheme; done).
  unfold url at 1. rewrite splitHostPath_spec by done. cbn [negb].
  assert (nonempty h = true) as -> by (by destruct h). cbn [negb].
  rewrite matchInTable_app. by destruct (matchInTable builtinHosts _ _).
Qed.

(** * The properties *)

(** [MatchURL] finds exactly the known hosts: an absolute URL
    with an ASCII host is recognised precisely when the host, whatever its case, is in the
    built-in table or has been added; the provider is then the lower-case host,
    the URL is passed on, and the operation is the first one in the first pattern
    of that host whose prefix fits the path, or ["unknown"]. *)
Theorem MatchURL_spec tbl scheme h p :
  ":"%char ∉ scheme -> "/"%char ∉ h -> h <> [] -> forallb is_ascii h = true -> a_path p ->
  let url := scheme ++ str "://" ++ h ++ p in
  ((MatchURL tbl url).2 = true <-> ToLower h ∈ host <$> builtinHosts ++ tbl) /\
  (forall t1 hp t2, builtinHosts ++ tbl = t1 ++ hp :: t2 -> host hp = ToLower h ->
     ToLower h ∉ host <$> t1 ->
     (MatchURL tbl url).1 =
       mkURLMatch (ToLower h) (default (str "unknown") (match_path (opPaths hp) p)) url).
Proof.
  intros Hs Hh Hne _ Hp url. unfold url. rewrite (MatchURL_lookup tbl _ _ _ Hs Hh Hne Hp).
  split.
  - destruct (matchInTable _ _ _) eqn:E; simpl.
    + split; [intros _|done]. destruct (decide (ToLower h ∈ host <$> builtinHosts ++ tbl)) as [|Hn]; [done|].
      by apply (matchInTable_None _ _ p) in Hn; rewrite E in Hn.
    + apply matchInTable_None in E. split; [done|]. intros Hi. by destruct E.
  - intros t1 hp t2 -> Hhp Hn. rewrite matchInTable_app.
    apply (matchInTable_None _ _ p) in Hn as ->. simpl. rewrite bool_decide_eq_false_2 by tauto.
    rewrite <- Hhp. by destruct (match_path _ _).
Qed.

(** Adding a pattern never takes a match away and never changes one: a host
    that is built in, or that was added before, keeps its operation table, and
    the added paths of such a host are never consulted. *)
Theorem AddHostPattern_monotone tbl h ops url :
  (MatchURL tbl url).2 = true ->
  MatchURL (AddHostPattern tbl h ops) url = MatchURL tbl url.
Proof.
  unfold MatchURL. destruct (negb (nonempty url)); [done|].
  destruct (splitHostPath url) as [hu p]. destruct (negb (nonempty hu)); [done|].
  destruct (matchInTable builtinHosts (ToLower hu) p); [done|].
  destruct (matchInTable tbl (ToLower hu) p) as [m|] eqn:E; [|done]. intros _.
  unfold AddHostPattern. destruct (negb (nonempty _)); [by rewrite E|].
  by rewrite matchInTable_app, E.
Qed.

Definition https : bytes := str "https".
Definition openai : bytes := str "API.OpenAI.com".
Lemma MatchURL_spec_witness :
  MatchURL [] (https ++ str "://" ++ openai ++ str "/v1/embeddings/x") =
  (mkURLMatch (str "api.openai.com") (str "embeddings") (str "https://API.OpenAI.com/v1/embeddings/x"), true).
Proof.
  destruct (MatchURL_spec [] https openai (str "/v1/embeddings/x")) as [H1 H2].
  - vm_compute. set_solver.
  - vm_compute. set_solver.
  - done.
  - reflexivity.
  - right. by eexists.
  - specialize (H2 [] _ _ eq_refl eq_refl (not_elem_of_nil _)).
    destruct (MatchURL [] _) as [m b]. simpl in *. rewrite H2.
    assert (b = true) as -> by (apply H1; vm_compute; set_solver). reflexivity.
Defined.

Lemma AddHostPattern_monotone_witness :
  MatchURL (AddHostPattern [] (str " Api.OpenAI.com ") [(str "/v1", str "mine")])
    (str "http://api.openai.com/v1/chat/completions") =
  MatchURL [] (str "http://api.openai.com/v1/chat/completions").
Proof. apply AddHostPattern_monotone. vm_compute. reflexivity. Defined.
