(* ===== verification/LlmPack.v ===== *)
(** The records of an LLM call, [src/agent/agent/llm/pack.go]: the step status of
    one call and the summary of a transaction that accumulates them. *)

From S2P Require Import Prelude.

(** The nullable [*int64] fields of [LlmStepStatus], one constructor per field; a
    struct of them is a function to [option Z]. *)
Inductive token_field :=
| InputTokens | OutputTokens | TotalTokensCount | CachedTokens | ReasoningTokens
| AudioInputTokens | AudioOutputTokens | AcceptedPredictionTokens | RejectedPredictionTokens
| EmbeddingCount | Dimensions | CacheCreationInputTokens | CacheReadInputTokens.
#[export] Instance token_field_eq_dec : EqDecision token_field.
Proof. solve_decision. Defined.

(** The nullable [*float64] cost fields. *)
Inductive cost_field := Cost | InputCost | OutputCost | CachedCost | CacheCreationCost.
#[export] Instance cost_field_eq_dec : EqDecision cost_field.
Proof. solve_decision. Defined.

Definition token_name (f : token_field) : bytes :=
  str match f with
  | InputTokens => "input_tokens" | OutputTokens => "output_tokens"
  | TotalTokensCount => "total_tokens_count" | CachedTokens => "cached_tokens"
  | ReasoningTokens => "reasoning_tokens" | AudioInputTokens => "audio_input_tokens"
  | AudioOutputTokens => "audio_output_tokens"
  | AcceptedPredictionTokens => "accepted_prediction_tokens"
  | RejectedPredictionTokens => "rejected_prediction_tokens"
  | EmbeddingCount => "embedding_count" | Dimensions => "dimensions"
  | CacheCreationInputTokens => "cache_creation_input_tokens"
  | CacheReadInputTokens => "cache_read_input_tokens"
  end%string.

Definition cost_name (f : cost_field) : bytes :=
  str match f with
  | Cost => "cost" | InputCost => "input_cost" | OutputCost => "output_cost"
  | CachedCost => "cached_cost" | CacheCreationCost => "cache_creation_cost"
  end%string.

(** [case "input_tokens": ...] of the two switches on names. *)
Definition all_token_fields : list token_field :=
  [InputTokens; OutputTokens; TotalTokensCount; CachedTokens; ReasoningTokens;
   AudioInputTokens; AudioOutputTokens; AcceptedPredictionTokens; RejectedPredictionTokens;
   CacheCreationInputTokens; CacheReadInputTokens; EmbeddingCount; Dimensions].
Definition field_named (fs : list token_field) (k : bytes) : option token_field :=
  list_find (fun f => token_name f = k) fs ≫= fun p => Some p.2.

Definition Category : bytes := str "#LlmCallLog".
Definition LogTypeStepStatus : bytes := str "llm_step_status".
Definition LogTypeTxStatus : bytes := str "llm_tx_status".
Definition LogTypeSystemMessage : bytes := str "system_message".
Definition LogTypeInputMessage : bytes := str "input_message".
Definition LogTypeOutputMessage : bytes := str "output_message".
Definition LogTypeTool : bytes := str "tool".
Definition LogTypeToolResult : bytes := str "tool_result".

Definition summary_fields : list token_field :=
  [InputTokens; OutputTokens; TotalTokensCount; CachedTokens; ReasoningTokens;
   AudioInputTokens; AudioOutputTokens; AcceptedPredictionTokens; RejectedPredictionTokens;
   CacheCreationInputTokens; CacheReadInputTokens; EmbeddingCount].
Definition txSummaryTokenFields : list bytes := token_name <$> summary_fields.

Record LlmLogSinkPack := mkLlmLogSinkPack {
  LLMLogType : bytes; Txid : bytes; StepID : bytes; Index_ : Z;
  Provider : bytes; URL : bytes; OperationType : bytes
}.

Record LlmStepStatus := mkLlmStepStatus {
  base : LlmLogSinkPack;
  Model : bytes; Stream : bool; Success : bool; FinishReason : bytes; Features : bytes;
  Temperature : option float64; Error : bytes; ErrorType : bytes;
  tokens : token_field -> option Z;
  Similarity : option float64;
  costs : cost_field -> option float64;
  StartTime : Z; Ttft : option float64; Latency : option float64;
  SystemTexts : list bytes; PromptText : bytes; CompletionText : bytes;
  ReasoningText : bytes; ToolCallsText : bytes; ToolResultsText : bytes
}.

Definition NewLlmStepStatus : LlmStepStatus :=
  mkLlmStepStatus (mkLlmLogSinkPack LogTypeStepStatus [] [] 0 [] [] (str "unknown"))
    [] false false [] [] None [] [] (fun _ => None) None (fun _ => None) 0 None None
    [] [] [] [] [] [].

(** [SetError] *)
Definition StepStatus_SetError (p : LlmStepStatus) (errMsg errType : bytes) : LlmStepStatus :=
  p <| Error := errMsg |> <| ErrorType := errType |>.

(** [SetTokens]: the map is ranged over; an unknown name is ignored. *)
Definition set_token (p : LlmStepStatus) (kv : bytes * Z) : LlmStepStatus :=
  match field_named all_token_fields kv.1 with
  | Some f => p <| tokens := <[f := Some kv.2]> (tokens p) |>
  | None => p
  end.
Definition StepStatus_SetTokens (p : LlmStepStatus) (m : gmap bytes Z) : LlmStepStatus :=
  foldl set_token p (map_to_list m).

Definition tokenByName (p : LlmStepStatus) (name : bytes) : option Z :=
  match field_named summary_fields name with Some f => tokens p f | None => None end.

Record LlmTxStatus := mkLlmTxStatus {
  tbase : LlmLogSinkPack;
  FirstStepID : bytes; LastStepID : bytes; CallCount : Z; ErrorCount : Z;
  TxLatency : float64; TxCost : float64; TxInputCost : float64; TxOutputCost : float64;
  Models : gset bytes; OperationTypes : gset bytes; Providers : gset bytes;
  TokenSums : gmap bytes Z
}.

Definition NewLlmTxStatus : LlmTxStatus :=
  mkLlmTxStatus (mkLlmLogSinkPack LogTypeTxStatus [] [] 0 [] [] (str "unknown"))
    [] [] 0 0 f64_zero f64_zero f64_zero f64_zero ∅ ∅ ∅ ∅.

(** [if v := pk.tokenByName(f); v != nil { this.TokenSums[f] += *v }] *)
Definition add_token (p : LlmStepStatus) (m : gmap bytes Z) (f : bytes) : gmap bytes Z :=
  match tokenByName p f with
  | Some v => <[f := int64 (default 0%Z (m !! f) + v)]> m
  | None => m
  end.
Definition add_opt (x : float64) (v : option float64) : float64 :=
  match v with Some v => f64_add x v | None => x end.
Definition insert_if (b : bool) (x : bytes) (s : gset bytes) : gset bytes :=
  if b then {[x]} ∪ s else s.

Definition Accumulate (t : LlmTxStatus) (pk : LlmStepStatus) : LlmTxStatus :=
  let b := base pk in
  let op := OperationType b in
  t <| CallCount ::= fun n => int64 (n + 1) |>
    <| ErrorCount ::= fun n => if negb (Success pk) then int64 (n + 1) else n |>
    <| TokenSums ::= fun m => foldl (add_token pk) m txSummaryTokenFields |>
    <| TxLatency ::= fun x => add_opt x (Latency pk) |>
    <| TxCost ::= fun x => add_opt x (costs pk Cost) |>
    <| TxInputCost ::= fun x => add_opt x (costs pk InputCost) |>
    <| TxOutputCost ::= fun x => add_opt x (costs pk OutputCost) |>
    <| FirstStepID ::= fun s =>
         if nonempty (StepID b) && negb (nonempty s) then StepID b else s |>
    <| LastStepID ::= fun s => if nonempty (StepID b) then StepID b else s |>
    <| Providers ::= insert_if (nonempty (Provider b)) (Provider b) |>
    <| Models ::= insert_if (nonempty (Model pk)) (Model pk) |>
    <| OperationTypes ::=
         insert_if (nonempty op && bool_decide (op <> str "unknown")) op |>.

(** * Facts *)

Lemma token_name_inj f g : token_name f = token_name g -> f = g.
Proof. by destruct f, g. Qed.

Lemma field_named_elem fs k f :
  field_named fs k = Some f <-> f ∈ fs /\ token_name f = k.
Proof.
  unfold field_named. split.
  - destruct (list_find _ fs) as [[i g]|] eqn:E; simpl; [|done]. intros; simplify_eq.
    apply list_find_Some in E as (Hi & Hk & _). split; [|done].
    by eapply list_elem_of_lookup_2.
  - intros [Hf <-]. destruct (list_find _ fs) as [[i g]|] eqn:E; simpl.
    + apply list_find_Some in E as (_ & Hk & _). by apply token_name_inj in Hk as ->.
    + apply list_find_None in E. rewrite Forall_forall in E. by destruct (E f Hf).
Qed.

Lemma tokenByName_spec p f :
  tokenByName p (token_name f) = if bool_decide (f = Dimensions) then None else tokens p f.
Proof.
  unfold tokenByName. destruct (field_named summary_fields (token_name f)) as [g|] eqn:E.
  - apply field_named_elem in E as [Hg He]. apply token_name_inj in He as ->.
    destruct (bool_decide_reflect (f = Dimensions)) as [->|]; [|done].
    by apply list_elem_of_lookup in Hg as [i Hi]; repeat (destruct i as [|i]; simplify_eq/=).
  - destruct (bool_decide_reflect (f = Dimensions)) as [->|Hn]; [done|].
    assert (field_named summary_fields (token_name f) = Some f) as E'; [|congruence].
    apply field_named_elem. split; [|done]. destruct f; set_solver.
Qed.

(** The names of the summary are distinct. *)
Lemma summary_NoDup : NoDup txSummaryTokenFields.
Proof.
  apply NoDup_fmap; [intros ? ?; apply token_name_inj|].
  repeat constructor; set_solver.
Qed.

(** [SetTokens] sets exactly the named fields, whatever the order of the range. *)
Lemma SetTokens_lookup p m f :
  tokens (StepStatus_SetTokens p m) f =
  match m !! token_name f with Some v => Some v | None => tokens p f end.
Proof.
  unfold StepStatus_SetTokens. assert (forall l (q : LlmStepStatus), NoDup l.*1 ->
    tokens (foldl set_token q l) f =
      match (list_to_map l : gmap bytes Z) !! token_name f with
      | Some v => Some v | None => tokens q f end) as H.
  { induction l as [|[k v] l IH]; intros q Hn; [done|]. cbn [fmap list_fmap] in Hn.
    inversion Hn as [|? ? Hk Hl]; subst. cbn [foldl list_to_map foldr]. rewrite IH by done.
    destruct (decide (k = token_name f)) as [->|Hne].
    - rewrite lookup_insert_eq, (not_elem_of_list_to_map_1 l) by done.
      unfold set_token. cbn [fst snd].
      assert (field_named all_token_fields (token_name f) = Some f) as ->.
      { apply field_named_elem. split; [destruct f; set_solver|done]. }
      simpl. by rewrite fn_lookup_insert.
    - rewrite lookup_insert_ne by done. destruct (list_to_map l !! token_name f); [done|].
      unfold set_token. cbn [fst snd]. destruct (field_named _ k) as [g|] eqn:E; [|done].
      apply field_named_elem in E as [_ <-]. simpl. rewrite fn_lookup_insert_ne; [done|congruence]. }
  rewrite H by apply NoDup_fst_map_to_list. by rewrite list_to_map_to_list.
Qed.

(** What the transaction summary of LLM calls adds up to. *)

Definition summary (ps : list LlmStepStatus) : LlmTxStatus := foldl Accumulate NewLlmTxStatus ps.

Lemma summary_snoc ps p : summary (ps ++ [p]) = Accumulate (summary ps) p.
Proof. unfold summary. by rewrite foldl_app. Qed.

(** The sum of a token over the calls, on 64 bits. *)
Definition token_total (name : bytes) (ps : list LlmStepStatus) : Z :=
  int64 (foldr (fun p n => default 0%Z (tokenByName p name) + n)%Z 0%Z ps).
Definition failures (ps : list LlmStepStatus) : nat :=
  length (filter (fun p => Success p = false) ps).

Lemma add_tokens_other p fs m f :
  f ∉ fs -> foldl (add_token p) m fs !! f = m !! f.
Proof.
  revert m; induction fs as [|g fs IH]; intros m Hn; [done|].
  rewrite not_elem_of_cons in Hn. destruct Hn as [Hg Hfs]. cbn [foldl]. rewrite IH by done.
  unfold add_token. destruct (tokenByName p g); [|done]. by rewrite lookup_insert_ne.
Qed.

Lemma add_tokens p fs m f :
  NoDup fs -> f ∈ fs ->
  foldl (add_token p) m fs !! f =
  match tokenByName p f with Some v => Some (int64 (default 0%Z (m !! f) + v)) | None => m !! f end.
Proof.
  revert m; induction fs as [|g fs IH]; intros m Hn Hf; [by apply not_elem_of_nil in Hf|].
  inversion Hn as [|? ? Hg Hfs]; subst. cbn [foldl].
  destruct (decide (f = g)) as [->|Hne].
  - rewrite add_tokens_other by done. unfold add_token. destruct (tokenByName p g); [|done].
    by rewrite lookup_insert_eq.
  - rewrite IH; [|done|set_solver]. unfold add_token.
    destruct (tokenByName p g); [|done]. by rewrite !lookup_insert_ne by congruence.
Qed.

Lemma int64_wrap_add a b : int64 (int64 a + b) = int64 (a + b).
Proof.
  apply wrap_s_eq; [lia|]. by rewrite Zplus_mod, wrap_s_mod, <- Zplus_mod by lia.
Qed.

Lemma summary_tokens ps f :
  f ∈ txSummaryTokenFields -> default 0%Z (TokenSums (summary ps) !! f) = token_total f ps.
Proof.
  intros Hf. unfold token_total. induction ps as [|p ps IH] using rev_ind; [done|].
  rewrite summary_snoc, foldr_app. cbn [foldr].
  assert (forall ps a, foldr (fun p n => default 0%Z (tokenByName p f) + n)%Z a ps =
    (foldr (fun p n => default 0%Z (tokenByName p f) + n) 0 ps + a)%Z) as Hadd.
  { clear. induction ps as [|p ps IH]; intros a; simpl; [lia|]. rewrite IH. lia. }
  rewrite Hadd. set (g := tokenByName p f).
  assert (TokenSums (Accumulate (summary ps) p) = foldl (add_token p) (TokenSums (summary ps)) txSummaryTokenFields)
    as -> by (by destruct (summary ps)).
  rewrite (add_tokens p _ _ f summary_NoDup Hf). fold g. destruct g as [v|]; simpl.
  - rewrite IH, int64_wrap_add. f_equal. lia.
  - rewrite IH. f_equal. lia.
Qed.

Lemma summary_counts ps :
  CallCount (summary ps) = int64 (Z.of_nat (length ps)) /\
  ErrorCount (summary ps) = int64 (Z.of_nat (failures ps)).
Proof.
  induction ps as [|p ps [IH1 IH2]] using rev_ind; [done|]. rewrite summary_snoc.
  unfold failures in *. rewrite filter_app, !length_app.
  assert (CallCount (Accumulate (summary ps) p) = int64 (CallCount (summary ps) + 1)) as ->
    by (by destruct (summary ps)).
  assert (ErrorCount (Accumulate (summary ps) p) =
    if negb (Success p) then int64 (ErrorCount (summary ps) + 1) else ErrorCount (summary ps)) as ->
    by (by destruct (summary ps)).
  rewrite IH1, IH2. split.
  - rewrite int64_wrap_add. f_equal. simpl. lia.
  - rewrite filter_cons, filter_nil. destruct (Success p); simpl.
    + by rewrite Nat.add_0_r.
    + rewrite int64_wrap_add. f_equal. lia.
Qed.

Definition step_ids (ps : list LlmStepStatus) : list bytes :=
  filter (fun s => s <> []) ((fun p => StepID (base p)) <$> ps).

Lemma nonempty_spec {A} (s : list A) : nonempty s = bool_decide (s <> []).
Proof. by destruct s. Qed.

Lemma summary_steps ps :
  FirstStepID (summary ps) = default [] (head (step_ids ps)) /\
  LastStepID (summary ps) = default [] (last (step_ids ps)).
Proof.
  induction ps as [|p ps [IH1 IH2]] using rev_ind; [done|]. rewrite summary_snoc.
  unfold step_ids in *. rewrite fmap_app, filter_app.
  set (l := filter _ _) in *. assert (Forall (fun s => s <> []) l) as Hl.
  { apply Forall_forall. intros x Hx. by apply list_elem_of_filter in Hx as [? _]. }
  assert (FirstStepID (Accumulate (summary ps) p) =
    if nonempty (StepID (base p)) && negb (nonempty (FirstStepID (summary ps)))
    then StepID (base p) else FirstStepID (summary ps)) as -> by (by destruct (summary ps)).
  assert (LastStepID (Accumulate (summary ps) p) =
    if nonempty (StepID (base p)) then StepID (base p) else LastStepID (summary ps)) as ->
    by (by destruct (summary ps)).
  rewrite IH1, IH2. cbn [fmap list_fmap]. rewrite filter_cons, filter_nil.
  destruct (StepID (base p)) as [|c s] eqn:E; simpl.
  - by rewrite app_nil_r.
  - rewrite last_snoc. split; [|done]. destruct l as [|x l]; simpl; [done|].
    inversion Hl; subst. by destruct x.
Qed.

Lemma elem_of_insert_if b x y s : y ∈ insert_if b x s <-> (b = true /\ y = x) \/ y ∈ s.
Proof. destruct b; simpl; set_solver. Qed.

Lemma summary_sets ps x :
  (x ∈ Providers (summary ps) <-> x <> [] /\ exists p, p ∈ ps /\ Provider (base p) = x) /\
  (x ∈ Models (summary ps) <-> x <> [] /\ exists p, p ∈ ps /\ Model p = x) /\
  (x ∈ OperationTypes (summary ps) <->
     x <> [] /\ x <> str "unknown" /\ exists p, p ∈ ps /\ OperationType (base p) = x).
Proof.
  induction ps as [|p ps (IH1 & IH2 & IH3)] using rev_ind.
  { simpl. setoid_rewrite elem_of_nil. rewrite !elem_of_empty. split; [|split]; naive_solver. }
  rewrite summary_snoc.
  assert (Providers (Accumulate (summary ps) p) =
    insert_if (nonempty (Provider (base p))) (Provider (base p)) (Providers (summary ps))) as ->
    by (by destruct (summary ps)).
  assert (Models (Accumulate (summary ps) p) =
    insert_if (nonempty (Model p)) (Model p) (Models (summary ps))) as -> by (by destruct (summary ps)).
  assert (OperationTypes (Accumulate (summary ps) p) =
    insert_if (nonempty (OperationType (base p)) && bool_decide (OperationType (base p) <> str "unknown"))
      (OperationType (base p)) (OperationTypes (summary ps))) as -> by (by destruct (summary ps)).
  rewrite !elem_of_insert_if, andb_true_iff, !nonempty_spec, !bool_decide_eq_true, IH1, IH2, IH3.
  setoid_rewrite elem_of_app. setoid_rewrite list_elem_of_singleton. split; [|split]; naive_solver.
Qed.

Lemma summary_floats ps :
  TxLatency (summary ps) = foldl add_opt f64_zero (Latency <$> ps) /\
  TxCost (summary ps) = foldl add_opt f64_zero ((fun p => costs p Cost) <$> ps).
Proof.
  induction ps as [|p ps [IH1 IH2]] using rev_ind; [done|].
  rewrite summary_snoc, !fmap_app, !foldl_app, <- IH1, <- IH2. by destruct (summary ps).
Qed.

(** The transaction summary: after accumulating any calls, the call and error
    counts are the number of calls and of unsuccessful calls, every summary token
    is the sum over the calls that report it (all on 64 bits), the first and last
    step ids are those of the first and last call that has one, the latency and
    cost are the sums in call order, and the three sets hold exactly the
    non-empty providers and models and the known operations. *)
Theorem Accumulate_totals ps :
  let t := summary ps in
  CallCount t = int64 (Z.of_nat (length ps)) /\ ErrorCount t = int64 (Z.of_nat (failures ps)) /\
  (forall f, f ∈ summary_fields ->
     default 0%Z (TokenSums t !! token_name f) = token_total (token_name f) ps) /\
  FirstStepID t = default [] (head (step_ids ps)) /\ LastStepID t = default [] (last (step_ids ps)) /\
  TxLatency t = foldl add_opt f64_zero (Latency <$> ps) /\
  TxCost t = foldl add_opt f64_zero ((fun p => costs p Cost) <$> ps) /\
  (forall x, x ∈ Providers t <-> x <> [] /\ exists p, p ∈ ps /\ Provider (base p) = x) /\
  (forall x, x ∈ Models t <-> x <> [] /\ exists p, p ∈ ps /\ Model p = x) /\
  (forall x, x ∈ OperationTypes t <->
     x <> [] /\ x <> str "unknown" /\ exists p, p ∈ ps /\ OperationType (base p) = x).
Proof.
  cbv zeta. destruct (summary_counts ps), (summary_steps ps), (summary_floats ps).
  do 2 (split; [done|]). split; [intros f Hf; by apply summary_tokens, list_elem_of_fmap_2|].
  do 4 (split; [done|]). split; [|split]; intros x; apply summary_sets.
Qed.
