(* ===== verification/LlmState.v ===== *)
(** One LLM call from start to publication: [src/agent/agent/llm/state.go],
    [handler.go] and [pending.go].

    A state points to its step status ([pack]), which [Publish] puts on the
    sender's queue while the caller may still hold the state, and to the slot of
    its trace; both live in the [world], next to the calls made on the meter and
    the queue. *)

From S2P Require Import Prelude LlmUrl LlmPack.

Record Config := mkConfig {
  cfg_Provider : bytes; cfg_Model : bytes; cfg_OperationType : bytes; cfg_URL : bytes
}.

Record Tokens := mkTokens {
  tok_Input : Z; tok_Output : Z; tok_Total : Z; tok_Cached : Z; tok_Reasoning : Z;
  tok_AudioInput : Z; tok_AudioOutput : Z; tok_AcceptedPrediction : Z;
  tok_RejectedPrediction : Z; tok_CacheCreationInput : Z; tok_CacheReadInput : Z;
  tok_EmbeddingCount : Z; tok_Dimensions : Z; tok_Similarity : float64
}.

(** [Cost] of [state.go]: Total, Input, Output, Cached, CacheCreation. *)
Record CostConf := mkCostConf {
  co_Total : float64; co_Input : float64; co_Output : float64; co_Cached : float64;
  co_CacheCreation : float64
}.

Definition ErrorTypeAPI : bytes := str "api_error".
Definition ErrorTypeProgram : bytes := str "program_error".

(** An [error] is its message. *)
Record LLMState := mkLLMState {
  disabled : bool;
  pack : nat;
  startMs : Z; firstTokenMs : Z; streamRequest : bool;
  statusCode : Z; terminalErr : option bytes;
  manualPublish : bool; txSlot : option nat;
  systemTexts : list bytes; promptText : bytes; completionText : bytes;
  reasoningText : bytes; toolCallsText : bytes; toolResultsText : bytes;
  endOnce : bool
}.

(** * The meter calls of [publishMeters] *)

Definition meter_key : Type := bytes * bytes * bytes * bytes.
Inductive meter_call :=
| OnStart (k : meter_key)
| AddPerf (k : meter_key) (latencyMs : float64) (ttftMs : option float64)
    (outputTokens : option Z) (streaming isError : bool)
| AddFeature (k : meter_key) (names : list bytes) (isError : bool)
| AddApiStatus (k : meter_key) (code : Z)
| AddApiError (k : meter_key)
| AddProgramError (k : meter_key)
| AddTokenUsage (k : meter_key) (tokens : gmap bytes Z) (costs : gmap bytes float64)
    (isError isStream : bool)
| IncrementMeter
| IncrementMeterError
| OnEnd (k : meter_key).

(** The slot [*interface{}] of a trace. *)
Inductive iface := INil | ITx (t : LlmTxStatus) | IOther.

Record world := mkWorld {
  packs : gmap nat LlmStepStatus;
  slots : gmap nat iface;
  meters : list meter_call;
  queue : list nat
}.

(** * State construction and mutators *)

Definition NewLLMState (now : Z) (w : world) (cfg : Config) : LLMState * world :=
  let p := NewLlmStepStatus in
  let b := (base p) <| Provider := cfg_Provider cfg |> <| URL := cfg_URL cfg |> in
  let b := if nonempty (cfg_OperationType cfg)
           then b <| OperationType := cfg_OperationType cfg |> else b in
  let b :=
    if negb (nonempty (Provider b)) && nonempty (cfg_URL cfg) then
      let '(h, path) := InferProviderURL (cfg_URL cfg) in
      let b := b <| Provider := h |> in
      if bool_decide (URL b = cfg_URL cfg) then b <| URL := path |> else b
    else b in
  let p := p <| base := b |> <| Model := cfg_Model cfg |> <| StartTime := now |> in
  let l := fresh (dom (packs w)) in
  (mkLLMState false l now 0 false 0 None false None [] [] [] [] [] [] false,
   w <| packs ::= <[l := p]> |>).

(** [if x == "" { x = text } else { x += "\n" + text }] *)
Definition newline : bytes := [ascii_of_N 10].
Definition append_line (x text : bytes) : bytes :=
  if nonempty x then x ++ newline ++ text else text.
Definition skip (s : LLMState) (text : bytes) : bool := disabled s || negb (nonempty text).

Definition AddSystemMessage (s : LLMState) (text : bytes) : LLMState :=
  if skip s text then s else s <| systemTexts ::= fun ts => ts ++ [text] |>.
Definition AddInputMessage (s : LLMState) (text : bytes) : LLMState :=
  if skip s text then s else s <| promptText ::= fun x => append_line x text |>.
Definition AddOutputMessage (s : LLMState) (text : bytes) : LLMState :=
  if skip s text then s else s <| completionText ::= fun x => append_line x text |>.
Definition AddReasoning (s : LLMState) (text : bytes) : LLMState :=
  if skip s text then s else s <| reasoningText ::= fun x => append_line x text |>.

Definition dq : bytes := ["034"%char].
Definition tool_entry (name argumentsJSON : bytes) : bytes :=
  str "[{" ++ dq ++ str "function" ++ dq ++ str ":{" ++ dq ++ str "name" ++ dq ++ str ":" ++
  dq ++ name ++ dq ++ str "," ++ dq ++ str "arguments" ++ dq ++ str ":" ++
  dq ++ argumentsJSON ++ dq ++ str "}}]".
Definition AddTool (s : LLMState) (payload name argumentsJSON : bytes) : LLMState :=
  if disabled s then s
  else
    let s := if nonempty (toolCallsText s) then s <| toolCallsText ::= fun x => x ++ newline |> else s in
    if nonempty payload then s <| toolCallsText ::= fun x => x ++ payload |>
    else s <| toolCallsText ::= fun x => x ++ tool_entry name argumentsJSON |>.
Definition AddToolResult (s : LLMState) (text : bytes) : LLMState :=
  if skip s text then s else s <| toolResultsText ::= fun x => append_line x text |>.

(** A change of the step status the state points to. *)
Definition on_pack (s : LLMState) (w : world) (f : LlmStepStatus -> LlmStepStatus) : res world :=
  match packs w !! pack s with
  | Some p => Ret (w <| packs ::= <[pack s := f p]> |>)
  | None => Panic
  end.
Definition get_pack (s : LLMState) (w : world) : res LlmStepStatus :=
  match packs w !! pack s with Some p => Ret p | None => Panic end.

Definition put_nonzero (m : gmap bytes Z) (nv : token_field * Z) : gmap bytes Z :=
  if bool_decide (nv.2 <> 0%Z) then <[token_name nv.1 := nv.2]> m else m.
Definition token_values (t : Tokens) : list (token_field * Z) :=
  [(InputTokens, tok_Input t); (OutputTokens, tok_Output t); (TotalTokensCount, tok_Total t);
   (CachedTokens, tok_Cached t); (ReasoningTokens, tok_Reasoning t);
   (AudioInputTokens, tok_AudioInput t); (AudioOutputTokens, tok_AudioOutput t);
   (AcceptedPredictionTokens, tok_AcceptedPrediction t);
   (RejectedPredictionTokens, tok_RejectedPrediction t);
   (CacheCreationInputTokens, tok_CacheCreationInput t);
   (CacheReadInputTokens, tok_CacheReadInput t);
   (EmbeddingCount, tok_EmbeddingCount t); (Dimensions, tok_Dimensions t)].
Definition tokensToMap (t : Tokens) : gmap bytes Z := foldl put_nonzero ∅ (token_values t).

Definition SetTokens (s : LLMState) (w : world) (t : Tokens) : res world :=
  if disabled s then Ret w
  else on_pack s w (fun p =>
    let p := StepStatus_SetTokens p (tokensToMap t) in
    if f64_nonzero (tok_Similarity t) then p <| Similarity := Some (tok_Similarity t) |> else p).

Definition set_cost (p : LlmStepStatus) (cv : cost_field * float64) : LlmStepStatus :=
  if f64_nonzero cv.2 then p <| costs ::= <[cv.1 := Some cv.2]> |> else p.
Definition SetCost (s : LLMState) (w : world) (c : CostConf) : res world :=
  if disabled s then Ret w
  else on_pack s w (fun p =>
    foldl set_cost p [(Cost, co_Total c); (InputCost, co_Input c); (OutputCost, co_Output c);
                      (CachedCost, co_Cached c); (CacheCreationCost, co_CacheCreation c)]).

Definition SetTemperature (s : LLMState) (w : world) (t : float64) : res world :=
  if disabled s then Ret w else on_pack s w (fun p => p <| Temperature := Some t |>).
Definition SetFinishReason (s : LLMState) (w : world) (reason : bytes) : res world :=
  if disabled s then Ret w else on_pack s w (fun p => p <| FinishReason := reason |>).
Definition SetFeatures (s : LLMState) (w : world) (features : bytes) : res world :=
  if disabled s then Ret w else on_pack s w (fun p => p <| Features := features |>).
Definition SetStatusCode (s : LLMState) (code : Z) : LLMState :=
  if disabled s then s else s <| statusCode := code |>.

Definition SetError (s : LLMState) (w : world) (err : option bytes) (errorType : bytes) :
    res (LLMState * world) :=
  match err with
  | None => Ret (s, w)
  | Some msg =>
      if disabled s then Ret (s, w)
      else
        w ← on_pack s w (fun p => StepStatus_SetError p msg errorType);
        Ret (s <| terminalErr := Some msg |>, w)
  end.

Definition MarkStream (s : LLMState) (w : world) : res (LLMState * world) :=
  if disabled s then Ret (s, w)
  else w ← on_pack s w (fun p => p <| Stream := true |>); Ret (s <| streamRequest := true |>, w).

Definition RecordFirstToken (now : Z) (s : LLMState) : LLMState :=
  if disabled s || bool_decide (firstTokenMs s <> 0%Z) then s else s <| firstTokenMs := now |>.

Definition Disabled (s : LLMState) : bool := disabled s.
Definition StatusCode (s : LLMState) : Z := statusCode s.
Definition TerminalErr (s : LLMState) : option bytes := terminalErr s.
Definition IsStream (s : LLMState) : bool := streamRequest s.
Definition MarkManualPublish (s : LLMState) : LLMState :=
  if disabled s then s else s <| manualPublish := true |>.
Definition IsManualPublish (s : option LLMState) : bool :=
  match s with None => false | Some s => manualPublish s end.

Definition SetURL (customHosts : list hostPattern) (s : LLMState) (w : world) (url : bytes) : res world :=
  if skip s url then Ret w
  else on_pack s w (fun p =>
    let '(h, path) := InferProviderURL url in
    let b := base p in
    let b := if negb (nonempty (Provider b)) then b <| Provider := h |> else b in
    let b := if negb (nonempty (URL b)) then b <| URL := path |>
             else if bool_decide (URL b = url) then b <| URL := path |> else b in
    let b :=
      if negb (nonempty (OperationType b)) || bool_decide (OperationType b = str "unknown") then
        let '(m, ok) := MatchURL customHosts url in
        if ok && nonempty (LlmUrl.OperationType m)
        then b <| OperationType := LlmUrl.OperationType m |> else b
      else b in
    p <| base := b |>).

(** * Publication *)

Fixpoint split_features (s cur : bytes) (out : list bytes) : list bytes :=
  match s with
  | [] => if nonempty cur then out ++ [cur] else out
  | c :: s =>
      if bool_decide (c = ","%char)
      then split_features s [] (if nonempty cur then out ++ [cur] else out)
      else split_features s (cur ++ [c]) out
  end.
Definition splitFeatures (joined : bytes) : list bytes :=
  if negb (nonempty joined) then [] else split_features joined [] [].

Definition put_count (p : LlmStepStatus) (m : gmap bytes Z) (f : token_field) : gmap bytes Z :=
  match tokens p f with
  | Some v => if bool_decide (v <> 0%Z) then <[token_name f := v]> m else m
  | None => m
  end.
Definition nonZeroTokenCounts (p : LlmStepStatus) : gmap bytes Z :=
  foldl (put_count p) ∅ summary_fields.

Definition put_cost (p : LlmStepStatus) (m : gmap bytes float64) (f : cost_field) : gmap bytes float64 :=
  match costs p f with
  | Some v => if f64_nonzero v then <[cost_name f := v]> m else m
  | None => m
  end.
Definition nonZeroCosts (p : LlmStepStatus) : gmap bytes float64 :=
  foldl (put_cost p) ∅ [Cost; InputCost; OutputCost; CachedCost; CacheCreationCost].

Definition pack_key (p : LlmStepStatus) : meter_key :=
  (Provider (base p), Model p, OperationType (base p), URL (base p)).

Definition publishMeters (s : LLMState) (p : LlmStepStatus) : list meter_call :=
  let k := pack_key p in
  let isError := negb (Success p) in
  let tokens_ := nonZeroTokenCounts p in
  let costs_ := nonZeroCosts p in
  [OnStart k] ++
  match Latency p with
  | Some l => [AddPerf k l (Ttft p) (tokens p OutputTokens) (streamRequest s) isError]
  | None => [] end ++
  (if nonempty (Features p) then [AddFeature k (splitFeatures (Features p)) isError] else []) ++
  (if bool_decide (statusCode s <> 0%Z) then [AddApiStatus k (statusCode s)] else []) ++
  (if bool_decide (ErrorType p = ErrorTypeAPI) then [AddApiError k]
   else if bool_decide (ErrorType p = ErrorTypeProgram) then [AddProgramError k] else []) ++
  (if bool_decide (tokens_ <> ∅) || bool_decide (costs_ <> ∅)
   then [AddTokenUsage k tokens_ costs_ isError (streamRequest s)] else []) ++
  [IncrementMeter] ++ (if isError then [IncrementMeterError] else []) ++ [OnEnd k].

Definition DispatchStep (LLMMode : bool) (w : world) (l : nat) : world :=
  if negb LLMMode then w else w <| queue ::= fun q => q ++ [l] |>.

(** The texts and timings [Publish] writes into the step status. *)
Definition flush (now : Z) (s : LLMState) (p : LlmStepStatus) : LlmStepStatus :=
  let p := if bool_decide (firstTokenMs s <> 0%Z) && negb (bool_decide (is_Some (Ttft p)))
           then p <| Ttft := Some (f64_of_Z (int64 (firstTokenMs s - startMs s))) |> else p in
  let p :=
    match Ttft p with
    | Some ttft =>
        if streamRequest s then
          let recompute := match Latency p with None => true | Some l => f64_leb l ttft end in
          if recompute then p <| Latency := Some (f64_of_Z (int64 (now - startMs s))) |> else p
        else p
    | None => p
    end in
  p <| SystemTexts := systemTexts s |> <| PromptText := promptText s |>
    <| CompletionText := completionText s |> <| ReasoningText := reasoningText s |>
    <| ToolCallsText := toolCallsText s |> <| ToolResultsText := toolResultsText s |>
    <| Success := negb (nonempty (Error p)) |>.

(** [tx.Txid = s.pack.Txid if empty; tx.Accumulate(s.pack)] in the slot; a slot of
    another type is left alone. *)
Definition accumulate_slot (w : world) (l : option nat) (p : LlmStepStatus) : res world :=
  match l with
  | None => Ret w
  | Some l =>
      match slots w !! l with
      | None => Panic
      | Some IOther => Ret w
      | Some i =>
          let tx := match i with ITx tx => tx | _ => NewLlmTxStatus end in
          let tx := if nonempty (Txid (tbase tx)) then tx
                    else tx <| tbase ::= fun b => b <| Txid := Txid (base p) |> |> in
          Ret (w <| slots ::= <[l := ITx (Accumulate tx p)]> |>)
      end
  end.

Definition Publish (LLMMode : bool) (now : Z) (s : LLMState) (w : world) : res (LLMState * world) :=
  if disabled s || endOnce s then Ret (s, w)
  else
    w ← on_pack s w (flush now s);
    p ← get_pack s w;
    let w := w <| meters ::= fun m => m ++ publishMeters s p |> in
    w ← accumulate_slot w (txSlot s) p;
    Ret (s <| endOnce := true |>, DispatchStep LLMMode w (pack s)).

(** [if httpcElapsed >= 0 { Latency = ... }; if firstTokenMs != 0 { Ttft = ... }] *)
Definition httpc_timings (httpcElapsed : Z) (s : LLMState) (p : LlmStepStatus) : LlmStepStatus :=
  let p := if (0 <=? httpcElapsed)%Z then p <| Latency := Some (f64_of_Z httpcElapsed) |> else p in
  if bool_decide (firstTokenMs s <> 0%Z)
  then p <| Ttft := Some (f64_of_Z (int64 (firstTokenMs s - startMs s))) |> else p.
(** [strconv.FormatInt(id, 10)] when the id is not 0. *)
Definition httpc_ids (txid httpcStepID : Z) (p : LlmStepStatus) : LlmStepStatus :=
  let p := if bool_decide (httpcStepID <> 0%Z)
           then p <| base ::= fun b => b <| StepID := FormatInt httpcStepID |> |> else p in
  if bool_decide (txid <> 0%Z) then p <| base ::= fun b => b <| Txid := FormatInt txid |> |> else p.

Definition HandleHttpcEnd (LLMMode : bool) (now : Z) (s : LLMState) (w : world)
    (txid : Z) (txLLMTxSlot : option nat) (httpcStepID httpcElapsed statusCode_ : Z)
    (err : option bytes) : res (LLMState * world) :=
  if disabled s || negb LLMMode then Ret (s, w)
  else
    w ← on_pack s w (httpc_timings httpcElapsed s);
    let s := if bool_decide (statusCode s = 0%Z) then s <| statusCode := statusCode_ |> else s in
    '(s, w) ← match terminalErr s with
              | None => SetError s w err ErrorTypeAPI
              | Some _ => Ret (s, w)
              end;
    w ← on_pack s w (httpc_ids txid httpcStepID);
    let s := s <| txSlot := txLLMTxSlot |> in
    if negb (manualPublish s) then Publish LLMMode now s w else Ret (s, w).

#[global] Arguments flush : simpl never.
#[global] Arguments publishMeters : simpl never.
#[global] Arguments httpc_timings : simpl never.
#[global] Arguments httpc_ids : simpl never.
#[global] Arguments Accumulate : simpl never.

(** * Attaching a state to a call *)

(** [url.Parse(raw)]'s host, [None] on a parse error. *)
Section Attach.
Context (url_Parse_Host : bytes -> option bytes).

Definition hostFromURL (raw : bytes) : bytes := default [] (url_Parse_Host raw).

Definition MaybeAttachAuto (LLMMode : bool) (now : Z) (customHosts : list hostPattern)
    (w : world) (url : bytes) : option LLMState * world :=
  if negb LLMMode || negb (nonempty url) then (None, w)
  else
    let '(m, ok) := MatchURL customHosts url in
    if negb ok then (None, w)
    else
      let '(s, w) := NewLLMState now w
        (mkConfig (LlmUrl.Provider m) [] (LlmUrl.OperationType m) (LlmUrl.URL m)) in
      (Some s, w).

Definition AttachForced (LLMMode : bool) (now : Z) (customHosts : list hostPattern)
    (w : world) (url : bytes) : option LLMState * world :=
  if negb LLMMode || negb (nonempty url) then (None, w)
  else
    let '(m, ok) := MatchURL customHosts url in
    let cfg :=
      if ok then mkConfig (LlmUrl.Provider m) [] (LlmUrl.OperationType m) (LlmUrl.URL m)
      else if nonempty (hostFromURL url) then mkConfig (hostFromURL url) [] [] url
      else mkConfig [] [] [] url in
    let '(s, w) := NewLLMState now w cfg in (Some s, w).
End Attach.

(** * The pending state of a context, as far as one key goes *)

(** A [context.Context] is the list of the states attached under [pendingKey], the
    innermost first. *)
Definition Context_ : Type := list LLMState.
Definition TakePending (ctx : option Context_) : option LLMState :=
  match ctx with Some (s :: _) => Some s | _ => None end.
Definition RegisterPending (ctx : option Context_) (state : option LLMState) : option Context_ :=
  match ctx, state with
  | Some c, Some s =>
      if disabled s then ctx
      else match c with [] => Some [s] | _ => ctx end
  | _, _ => ctx
  end.
