(* ===== verification/LlmStateFacts.v ===== *)
(** A call is published once, with the texts and tokens it accumulated. *)

From S2P Require Import Prelude LlmUrl LlmPack LlmState.

(** * The operations on one state *)

Inductive op :=
| OAddSystemMessage (t : bytes) | OAddInputMessage (t : bytes) | OAddOutputMessage (t : bytes)
| OAddReasoning (t : bytes) | OAddTool (payload name args : bytes) | OAddToolResult (t : bytes)
| OSetTokens (t : Tokens) | OSetCost (c : CostConf) | OSetTemperature (x : float64)
| OSetFinishReason (t : bytes) | OSetFeatures (t : bytes) | OSetStatusCode (code : Z)
| OSetError (err : option bytes) (ty : bytes) | OMarkStream | ORecordFirstToken (now : Z)
| OMarkManualPublish | OSetURL (hosts : list hostPattern) (url : bytes)
| OPublish (now : Z)
| OHttpcEnd (now txid : Z) (slot : option nat) (stepID elapsed code : Z) (err : option bytes).

Section Ops.
Context (mode : bool).

Definition on_world (s : LLMState) (m : res world) : res (LLMState * world) := w ← m; Ret (s, w).

Definition exec (sw : LLMState * world) (o : op) : res (LLMState * world) :=
  let '(s, w) := sw in
  match o with
  | OAddSystemMessage t => Ret (AddSystemMessage s t, w)
  | OAddInputMessage t => Ret (AddInputMessage s t, w)
  | OAddOutputMessage t => Ret (AddOutputMessage s t, w)
  | OAddReasoning t => Ret (AddReasoning s t, w)
  | OAddTool p n a => Ret (AddTool s p n a, w)
  | OAddToolResult t => Ret (AddToolResult s t, w)
  | OSetTokens t => on_world s (SetTokens s w t)
  | OSetCost c => on_world s (SetCost s w c)
  | OSetTemperature x => on_world s (SetTemperature s w x)
  | OSetFinishReason t => on_world s (SetFinishReason s w t)
  | OSetFeatures t => on_world s (SetFeatures s w t)
  | OSetStatusCode code => Ret (SetStatusCode s code, w)
  | OSetError err ty => SetError s w err ty
  | OMarkStream => MarkStream s w
  | ORecordFirstToken now => Ret (RecordFirstToken now s, w)
  | OMarkManualPublish => Ret (MarkManualPublish s, w)
  | OSetURL hosts url => on_world s (SetURL hosts s w url)
  | OPublish now => Publish mode now s w
  | OHttpcEnd now txid slot stepID elapsed code err =>
      HandleHttpcEnd mode now s w txid slot stepID elapsed code err
  end.

(** Whether a sequence of calls publishes: a [Publish], or the end of the HTTP call
    of a state that is not published by hand. *)
Fixpoint fires (manual : bool) (os : list op) : bool :=
  match os with
  | [] => false
  | OPublish _ :: _ => true
  | OHttpcEnd _ _ _ _ _ _ _ :: os => if mode && negb manual then true else fires manual os
  | OMarkManualPublish :: os => fires true os
  | _ :: os => fires manual os
  end.

Definition slot_ok (w : world) (o : op) : Prop :=
  match o with OHttpcEnd _ _ (Some l) _ _ _ _ => is_Some (slots w !! l) | _ => True end.
Definition state_slot_ok (s : LLMState) (w : world) : Prop :=
  match txSlot s with Some l => is_Some (slots w !! l) | None => True end.

(** How often the pack of [s] was queued, and calls counted on the meter. *)
Definition queued (s : LLMState) (w : world) : nat := length (filter (fun l => l = pack s) (queue w)).
Definition is_count (c : meter_call) : bool := match c with IncrementMeter => true | _ => false end.
Definition counted (w : world) : nat := length (filter (fun c => is_count c = true) (meters w)).

Record live (s : LLMState) (w : world) : Prop := {
  l_enabled : disabled s = false;
  l_pack : is_Some (packs w !! pack s);
  l_slot : state_slot_ok s w
}.

(** What a call that does not publish leaves alone. *)
Record same (s s' : LLMState) (w w' : world) : Prop := {
  same_pack : pack s' = pack s;
  same_once : endOnce s' = endOnce s;
  same_queue : queue w' = queue w;
  same_meters : meters w' = meters w;
  same_slots : slots w' = slots w
}.

Lemma on_pack_ret s w f :
  is_Some (packs w !! pack s) ->
  exists p, packs w !! pack s = Some p /\ on_pack s w f = Ret (w <| packs ::= <[pack s := f p]> |>).
Proof. intros [p Hp]. exists p. unfold on_pack. by rewrite Hp. Qed.

Lemma live_pack s w p :
  live s w -> live s (w <| packs ::= <[pack s := p]> |>).
Proof.
  intros []. split; [done| |done]. simpl. rewrite lookup_insert_eq. by eexists.
Qed.

(** A mutator that only edits the step status. *)
Lemma on_world_same s w f m :
  live s w -> m = on_pack s w f ->
  exists w', on_world s m = Ret (s, w') /\ live s w' /\ same s s w w'.
Proof.
  intros Hl ->. destruct (on_pack_ret s w f (l_pack _ _ Hl)) as (p & _ & ->).
  eexists. split; [done|]. split; [by apply live_pack|]. by split.
Qed.

Lemma accumulate_ok w l p :
  match l with Some l => is_Some (slots w !! l) | None => True end ->
  exists w', accumulate_slot w l p = Ret w' /\ packs w' = packs w /\ queue w' = queue w /\
    meters w' = meters w /\ (forall l', is_Some (slots w !! l') -> is_Some (slots w' !! l')).
Proof.
  destruct l as [l|]; simpl; [|by exists w]. intros [i Hi]. rewrite Hi.
  destruct i; [|destruct (nonempty _)|by exists w]; (eexists; split; [done|]); simpl;
    repeat (split; [done|]); intros l' Hl';
    (destruct (decide (l = l')) as [->|]; [rewrite lookup_insert_eq; by eexists|by rewrite lookup_insert_ne]).
Qed.

(** A publication counts the call once on the meter. *)
Lemma publishMeters_count s p :
  length (filter (fun c => is_count c = true) (publishMeters s p)) = 1.
Proof.
  unfold publishMeters. rewrite !filter_app, !length_app.
  destruct (Latency p), (nonempty (Features p)), (bool_decide (statusCode s <> 0%Z)),
    (bool_decide (ErrorType p = ErrorTypeAPI)), (bool_decide (ErrorType p = ErrorTypeProgram)),
    (bool_decide (nonZeroTokenCounts p <> ∅) || bool_decide (nonZeroCosts p <> ∅)),
    (negb (Success p)); reflexivity.
Qed.

Lemma publish_ret now s w :
  live s w -> endOnce s = false ->
  exists s' w', Publish mode now s w = Ret (s', w') /\ live s' w' /\ endOnce s' = true /\
    pack s' = pack s /\ queue w' = queue w ++ (if mode then [pack s] else []) /\
    counted w' = S (counted w) /\ (forall l, is_Some (slots w !! l) -> is_Some (slots w' !! l)).
Proof.
  intros [H1 H2 H3] He. unfold Publish. rewrite H1, He. cbn [orb].
  destruct (on_pack_ret s w (flush now s) H2) as (p & Hp & ->). generalize (flush now s p) as p'.
  intros p'. unfold get_pack. simpl. rewrite lookup_insert_eq. simpl.
  match goal with |- context [accumulate_slot ?x _ _] => set (w1 := x) end.
  destruct (accumulate_ok w1 (txSlot s) p' H3) as (w2 & -> & Ep & Eq & Em & Es). simpl.
  assert (counted w2 = S (counted w)) as Hc.
  { unfold counted. rewrite Em. simpl. rewrite filter_app, length_app, publishMeters_count. fold (counted w). lia. }
  do 2 eexists. split; [done|]. unfold DispatchStep. destruct mode; simpl.
  all: split; [split; simpl; [done|rewrite Ep; simpl; by rewrite lookup_insert_eq|]|].
  2,4: (split; [done|]); (split; [done|]); (split; [by rewrite Eq, ?app_nil_r|by split]).
  all: unfold state_slot_ok in *; simpl; destruct (txSlot s); [by apply Es|done].
Qed.

(** The calls that never publish. *)
Definition quiet (s : LLMState) (w : world) (m : res (LLMState * world)) (manual : bool) : Prop :=
  exists s' w', m = Ret (s', w') /\ live s' w' /\ same s s' w w' /\ manualPublish s' = manual.

Lemma quiet_state s w s' m :
  live s w -> manualPublish s' = m -> disabled s' = disabled s -> pack s' = pack s -> txSlot s' = txSlot s ->
  endOnce s' = endOnce s -> quiet s w (Ret (s', w)) m.
Proof.
  intros [] <- E1 E2 E3 E4. exists s', w. split; [done|]. split; [|by split].
  split; [congruence|by rewrite E2|unfold state_slot_ok in *; by rewrite E3].
Qed.

Lemma quiet_pack s w f m :
  live s w -> m = on_pack s w f -> quiet s w (on_world s m) (manualPublish s).
Proof. intros Hl Hm. destruct (on_world_same s w f m Hl Hm) as (w' & -> & H1 & H2). by exists s, w'. Qed.

Lemma quiet_error s w err ty : live s w -> quiet s w (SetError s w err ty) (manualPublish s).
Proof.
  intros Hl. unfold SetError. destruct err as [msg|]; [|by apply quiet_state].
  rewrite (l_enabled _ _ Hl).
  destruct (on_pack_ret s w (fun p => StepStatus_SetError p msg ty) (l_pack _ _ Hl)) as (p & _ & ->).
  simpl. do 2 eexists. split; [done|]. split; [|by split].
  by destruct (live_pack s w (StepStatus_SetError p msg ty) Hl).
Qed.

(** [HandleHttpcEnd] records, and then publishes unless the state is manual. *)
Lemma httpc_end_ret now s w txid slot stepID elapsed code err :
  live s w -> slot_ok w (OHttpcEnd now txid slot stepID elapsed code err) ->
  exists s1 w1, live s1 w1 /\ same s s1 w w1 /\ manualPublish s1 = manualPublish s /\
    HandleHttpcEnd mode now s w txid slot stepID elapsed code err =
    (if mode && negb (manualPublish s) then Publish mode now s1 w1 else Ret (s1, w1)).
Proof.
  intros Hl Hs. unfold HandleHttpcEnd. rewrite (l_enabled _ _ Hl). destruct mode; simpl.
  2:{ exists s, w. split; [done|]. by split. }
  destruct (on_pack_ret s w (httpc_timings elapsed s) (l_pack _ _ Hl)) as (p & _ & ->). simpl.
  set (w1 := mkWorld _ _ _ _). set (s1 := if bool_decide (statusCode s = 0%Z) then _ else _).
  assert (live s1 w1) as H1.
  { destruct (live_pack s w (httpc_timings elapsed s p) Hl). unfold s1. by destruct (bool_decide _). }
  assert (same s s1 w w1 /\ manualPublish s1 = manualPublish s) as [H2 Hm]
    by (unfold s1; by destruct (bool_decide _)).
  assert (quiet s1 w1 (match terminalErr s1 with
                       | Some _ => Ret (s1, w1) | None => SetError s1 w1 err ErrorTypeAPI end)
            (manualPublish s1)) as (s2 & w2 & -> & H3 & H4 & Hm2).
  { destruct (terminalErr s1); [by apply quiet_state|by apply quiet_error]. }
  simpl. destruct (on_pack_ret s2 w2 (httpc_ids txid stepID) (l_pack _ _ H3)) as (p2 & _ & ->). simpl.
  match goal with |- context [Publish true now ?a ?b] => set (s3 := a); set (w3 := b) end.
  assert (live s3 w3) as H5.
  { destruct (live_pack s2 w2 (httpc_ids txid stepID p2) H3). split; [done..|].
    unfold state_slot_ok, s3, w3. simpl. rewrite (same_slots _ _ _ _ H4), (same_slots _ _ _ _ H2).
    by destruct slot. }
  exists s3, w3. split; [done|]. split; [|split; [unfold s3; simpl; congruence|]].
  - destruct H2, H4. split; simpl; congruence.
  - assert (manualPublish s2 = manualPublish s) as -> by congruence. by destruct (manualPublish s).
Qed.

Lemma exec_quiet s w o :
  live s w ->
  match o with OPublish _ | OHttpcEnd _ _ _ _ _ _ _ => False | _ => True end ->
  quiet s w (exec (s, w) o) (match o with OMarkManualPublish => true | _ => manualPublish s end).
Proof.
  intros Hl Ho. pose proof (l_enabled _ _ Hl) as Hd.
  destruct o; cbn [exec]; try (by destruct Ho).
  all: unfold AddSystemMessage, AddInputMessage, AddOutputMessage, AddReasoning, AddTool,
    AddToolResult, SetTokens, SetCost, SetTemperature, SetFinishReason, SetFeatures,
    SetStatusCode, MarkStream, RecordFirstToken, MarkManualPublish, SetURL; unfold skip; rewrite ?Hd.
  all: try (by eapply quiet_pack).
  all: try (by repeat case_match; apply quiet_state).
  - by apply quiet_error.
  - destruct (on_pack_ret s w (fun p => p <| Stream := true |>) (l_pack _ _ Hl)) as (p & _ & ->).
    simpl. do 2 eexists. split; [done|]. split; [|by split]. by destruct (live_pack s w (p <| Stream := true |>) Hl).
  - simpl. destruct (negb (nonempty url)); [exists s, w; by split|]. by eapply quiet_pack.
Qed.

(** A published state stays as it is: nothing is queued or counted again. *)
Lemma publish_done now s w : endOnce s = true -> Publish mode now s w = Ret (s, w).
Proof. intros He. unfold Publish. by rewrite He, orb_true_r. Qed.

Lemma slots_ok_mono w w' os :
  (forall l, is_Some (slots w !! l) -> is_Some (slots w' !! l)) ->
  Forall (slot_ok w) os -> Forall (slot_ok w') os.
Proof.
  intros Hs Ho. eapply Forall_impl; [done|]. intros o; destruct o as [| | | | | | | | | | | | | | | | | |? ? [l|]]; simpl; auto.
Qed.

(** One call in general: it returns, and publishes exactly when it should. *)
Definition fires1 (s : LLMState) (o : op) : bool :=
  negb (endOnce s) &&
  match o with
  | OPublish _ => true
  | OHttpcEnd _ _ _ _ _ _ _ => mode && negb (manualPublish s)
  | _ => false
  end.

Record stepped (s s' : LLMState) (w w' : world) (o : op) : Prop := {
  st_live : live s' w';
  st_pack : pack s' = pack s;
  st_once : endOnce s' = endOnce s || fires1 s o;
  st_queue : queue w' = queue w ++ (if mode && fires1 s o then [pack s] else []);
  st_count : counted w' = counted w + (if fires1 s o then 1 else 0);
  st_slots : forall l, is_Some (slots w !! l) -> is_Some (slots w' !! l);
  st_manual : endOnce s' = false ->
    manualPublish s' = match o with OMarkManualPublish => true | _ => manualPublish s end
}.

Lemma same_stepped s s' w w' o :
  live s' w' -> same s s' w w' -> fires1 s o = false ->
  manualPublish s' = match o with OMarkManualPublish => true | _ => manualPublish s end ->
  stepped s s' w w' o.
Proof.
  intros Hl [] Hf Hm. split; rewrite ?Hf, ?andb_false_r, ?app_nil_r, ?orb_false_r; try done.
  - unfold counted. rewrite same_meters0. lia.
  - by rewrite same_slots0.
Qed.

Lemma publish_stepped now s w s0 w0 o :
  live s w -> same s0 s w0 w -> fires1 s0 o = negb (endOnce s0) ->
  manualPublish s = match o with OMarkManualPublish => true | _ => manualPublish s0 end ->
  exists s' w', Publish mode now s w = Ret (s', w') /\ stepped s0 s' w0 w' o.
Proof.
  intros Hl Hs Hf Hm. destruct (endOnce s) eqn:He.
  - exists s, w. split; [by apply publish_done|]. apply same_stepped; [done..| |done].
    destruct Hs. rewrite Hf. by rewrite <- same_once0, He.
  - destruct (publish_ret now s w Hl He) as (s' & w' & -> & H1 & H2 & H3 & H4 & H5 & H6).
    exists s', w'. split; [done|]. destruct Hs. rewrite same_once0 in He.
    split; rewrite ?Hf, ?He; simpl; try congruence.
    + by rewrite H4, same_queue0, andb_true_r, same_pack0.
    + rewrite H5. unfold counted. rewrite same_meters0. lia.
    + by rewrite <- same_slots0.
Qed.

Lemma exec_stepped s w o :
  live s w -> slot_ok w o -> exists s' w', exec (s, w) o = Ret (s', w') /\ stepped s s' w w' o.
Proof.
  intros Hl Ho.
  assert (match o with OPublish _ | OHttpcEnd _ _ _ _ _ _ _ => False | _ => True end ->
          exists s' w', exec (s, w) o = Ret (s', w') /\ stepped s s' w w' o) as Hq.
  { intros Hn. destruct (exec_quiet s w o Hl Hn) as (s' & w' & E & H1 & H2 & H3).
    exists s', w'. split; [done|]. apply same_stepped; [done..| |done].
    unfold fires1. destruct o; simpl; try by rewrite andb_false_r. all: by destruct Hn. }
  destruct o as [| | | | | | | | | | | | | | | | |now|now txid slot stepID elapsed code err]; try by apply Hq.
  - by apply publish_stepped; [|split|unfold fires1; rewrite andb_true_r|].
  - cbn [exec]. destruct (httpc_end_ret now s w txid slot stepID elapsed code err Hl Ho)
      as (s1 & w1 & H1 & H2 & H3 & ->).
    destruct (mode && negb (manualPublish s)) eqn:E.
    + apply publish_stepped; [done..| |done]. unfold fires1. by rewrite E, andb_true_r.
    + exists s1, w1. split; [done|]. apply same_stepped; [done..| |done].
      unfold fires1. by rewrite E, andb_false_r.
Qed.

Lemma run_once os s w :
  live s w -> Forall (slot_ok w) os ->
  exists s' w', foldM exec (s, w) os = Ret (s', w') /\ live s' w' /\ pack s' = pack s /\
    let f := negb (endOnce s) && fires (manualPublish s) os in
    endOnce s' = endOnce s || f /\
    queue w' = queue w ++ (if mode && f then [pack s] else []) /\
    counted w' = counted w + (if f then 1 else 0).
Proof.
  revert s w; induction os as [|o os IH]; intros s w Hl Ho; cbn [foldM].
  { exists s, w. simpl. rewrite !andb_false_r, app_nil_r, orb_false_r, Nat.add_0_r. by repeat split; destruct Hl. }
  inversion Ho as [|? ? Ho1 Hos]; subst.
  destruct (exec_stepped s w o Hl Ho1) as (s1 & w1 & -> & H1). simpl. destruct H1.
  destruct (IH s1 w1) as (s2 & w2 & E & H2 & Hp & He & Hq & Hc); [done|by eapply slots_ok_mono|].
  exists s2, w2. split; [done|]. split; [done|]. split; [congruence|]. cbv zeta.
  rewrite He, Hq, Hc, st_once0, st_queue0, st_count0, st_pack0. clear He Hq Hc.
  unfold fires1 in *. destruct (endOnce s) eqn:Es; simpl in *.
  { rewrite !andb_false_r, !app_nil_r. by split; [|split; [|lia]]. }
  assert (fires (manualPublish s) (o :: os) =
    match o with OPublish _ => true
    | OHttpcEnd _ _ _ _ _ _ _ => (mode && negb (manualPublish s)) || fires (manualPublish s) os
    | OMarkManualPublish => fires true os
    | _ => fires (manualPublish s) os end) as Ef by (by destruct o).
  destruct o; simpl in Ef |- *; rewrite ?Ef; simpl in *.
  all: try (rewrite st_manual0 by done; rewrite ?andb_false_r, ?andb_true_r, ?app_nil_r, ?Nat.add_0_r).
  all: try (by split; [|split]).
  - split; [done|]. split; [by destruct mode; simpl; rewrite app_nil_r|lia].
  - destruct (mode && negb (manualPublish s)) eqn:Em; simpl.
    + split; [done|]. split; [by destruct mode; simpl; rewrite app_nil_r|lia].
    + rewrite st_manual0 by done. split; [done|].
      split; [by destruct mode; simpl; rewrite ?app_nil_r|lia].
Qed.
End Ops.

(** * The accumulated texts *)

Inductive kind := KSystem | KInput | KOutput | KReasoning | KTool | KToolResult.

(** The non-empty pieces a call adds to a text. *)
Definition pieces (k : kind) (o : op) : list bytes :=
  filter (fun t => t <> [])
    match k, o with
    | KSystem, OAddSystemMessage t | KInput, OAddInputMessage t | KOutput, OAddOutputMessage t
    | KReasoning, OAddReasoning t | KToolResult, OAddToolResult t => [t]
    | KTool, OAddTool payload name args => [if nonempty payload then payload else tool_entry name args]
    | _, _ => []
    end.
Definition all_pieces (k : kind) (os : list op) : list bytes := concat (pieces k <$> os).

Definition text_of (k : kind) (s : LLMState) : bytes :=
  match k with
  | KSystem => [] | KInput => promptText s | KOutput => completionText s
  | KReasoning => reasoningText s | KTool => toolCallsText s | KToolResult => toolResultsText s
  end.
Definition published_text (k : kind) (p : LlmStepStatus) : bytes :=
  match k with
  | KSystem => [] | KInput => PromptText p | KOutput => CompletionText p
  | KReasoning => ReasoningText p | KTool => ToolCallsText p | KToolResult => ToolResultsText p
  end.

Lemma append_line_Join xs t :
  Forall (fun x => x <> []) xs -> append_line (Join xs newline) t = Join (xs ++ [t]) newline.
Proof.
  unfold append_line. induction 1 as [|x xs Hx Hxs IH]; [done|]. destruct xs as [|y xs].
  { simpl. by destruct x. }
  change (Join (x :: y :: xs) newline) with (x ++ newline ++ Join (y :: xs) newline).
  change ((x :: y :: xs) ++ [t]) with (x :: (y :: xs) ++ [t]).
  assert (nonempty (x ++ newline ++ Join (y :: xs) newline) = true) as -> by (by destruct x).
  assert (nonempty (Join (y :: xs) newline) = true) as Hn.
  { inversion Hxs; subst. destruct xs; simpl; by destruct y. }
  rewrite Hn in IH. cbn [app]. change (Join (x :: ?a :: ?l) newline) with (x ++ newline ++ Join (a :: l) newline).
  change (y :: xs ++ [t]) with ((y :: xs) ++ [t]). by rewrite <- IH, <- !app_assoc.
Qed.

(** What one call does to the texts. *)
Definition texts_step (o : op) (s s' : LLMState) : Prop :=
  systemTexts s' = systemTexts s ++ pieces KSystem o /\
  forall k, k <> KSystem -> text_of k s' =
    match pieces k o with [] => text_of k s | t :: _ => append_line (text_of k s) t end.

Lemma no_texts o s s' :
  (forall k, pieces k o = []) -> systemTexts s' = systemTexts s ->
  (forall k, text_of k s' = text_of k s) -> texts_step o s s'.
Proof.
  intros Hp H1 H2. split; [by rewrite H1, Hp, app_nil_r|]. intros k _. by rewrite H2, Hp.
Qed.

Lemma error_texts s w err ty s' w' :
  SetError s w err ty = Ret (s', w') ->
  systemTexts s' = systemTexts s /\ forall k, text_of k s' = text_of k s.
Proof.
  unfold SetError. destruct err; [|by intros [= <- <-]].
  destruct (disabled s); [by intros [= <- <-]|]. intros H. inv_bind. split; [done|]. by intros [].
Qed.

Lemma publish_texts mode now s w s' w' :
  Publish mode now s w = Ret (s', w') ->
  systemTexts s' = systemTexts s /\ forall k, text_of k s' = text_of k s.
Proof.
  unfold Publish. destruct (disabled s || endOnce s); [by intros [= <- <-]|].
  intros H. inv_bind. split; [done|]. by intros [].
Qed.

Lemma httpc_texts mode now s w txid slot stepID elapsed code err s' w' :
  HandleHttpcEnd mode now s w txid slot stepID elapsed code err = Ret (s', w') ->
  systemTexts s' = systemTexts s /\ forall k, text_of k s' = text_of k s.
Proof.
  unfold HandleHttpcEnd. destruct (disabled s || negb mode); [by intros [= <- <-]|].
  intros H. apply bind_ret_inv in H as (w1 & _ & H).
  set (s1 := if bool_decide (statusCode s = 0%Z) then _ else _) in H.
  assert (systemTexts s1 = systemTexts s /\ forall k, text_of k s1 = text_of k s) as [E1 E2].
  { unfold s1. destruct (bool_decide _); [|done]. split; [done|]. by intros []. }
  apply bind_ret_inv in H as ([s2 w2] & H2 & H).
  assert (systemTexts s2 = systemTexts s1 /\ forall k, text_of k s2 = text_of k s1) as [E3 E4].
  { destruct (terminalErr s1); [by simplify_eq|]. by eapply error_texts. }
  apply bind_ret_inv in H as (w3 & _ & H). simpl in H. rewrite <- E1, <- E3.
  setoid_rewrite <- E2. setoid_rewrite <- E4.
  destruct (negb (manualPublish s2)).
  - apply publish_texts in H as [H1 H3]. split; [done|]. intros k. rewrite H3. by destruct k.
  - simplify_eq. split; [done|]. by intros [].
Qed.

Lemma exec_texts mode s w o s' w' :
  disabled s = false -> exec mode (s, w) o = Ret (s', w') -> texts_step o s s'.
Proof.
  intros Hd. destruct o; cbn [exec]; intros H.
  1,2,3,4,6: unfold AddSystemMessage, AddInputMessage, AddOutputMessage, AddReasoning, AddToolResult,
      skip in H; rewrite Hd in H; simplify_eq; destruct t as [|c t]; simpl;
      [apply no_texts; [by intros []|done|done]|]; (split; [by rewrite ?app_nil_r|by intros [] ?]).
  - unfold AddTool in H. rewrite Hd in H. unfold texts_step.
    set (t := if nonempty payload then payload else tool_entry name args).
    assert (t <> []) as Ht by (unfold t; destruct payload; done).
    assert (forall k, pieces k (OAddTool payload name args) = if k is KTool then [t] else []) as Hp.
    { intros []; try done. unfold pieces. fold t. rewrite filter_cons, filter_nil.
      by destruct (decide (t <> [])). }
    simplify_eq. split; [rewrite Hp, app_nil_r|intros [] ?; rewrite ?Hp].
    all: destruct (nonempty (toolCallsText s)) eqn:En, (nonempty payload) eqn:Ep; try done.
    all: simpl; unfold append_line, t; rewrite En; rewrite <- ?app_assoc; by destruct (toolCallsText s).
  - all: unfold on_world in H; inv_bind; apply no_texts; [by intros []|done|done].
  - all: unfold on_world in H; inv_bind; apply no_texts; [by intros []|done|done].
  - all: unfold on_world in H; inv_bind; apply no_texts; [by intros []|done|done].
  - all: unfold on_world in H; inv_bind; apply no_texts; [by intros []|done|done].
  - all: unfold on_world in H; inv_bind; apply no_texts; [by intros []|done|done].
  - unfold SetStatusCode in H. rewrite Hd in H. simplify_eq. apply no_texts; [by intros []|done|by intros []].
  - apply error_texts in H as [? ?]. apply no_texts; [by intros []|done..].
  - unfold MarkStream in H. rewrite Hd in H. inv_bind. apply no_texts; [by intros []|done|by intros []].
  - unfold RecordFirstToken in H. destruct (_ || _); simplify_eq; (apply no_texts; [by intros []|done|by intros []]).
  - unfold MarkManualPublish in H. rewrite Hd in H. simplify_eq. apply no_texts; [by intros []|done|by intros []].
  - unfold on_world in H; inv_bind; apply no_texts; [by intros []|done|done].
  - apply publish_texts in H as [? ?]. apply no_texts; [by intros []|done..].
  - apply httpc_texts in H as [? ?]. apply no_texts; [by intros []|done..].
Qed.

Definition texts_are (sys : list bytes) (xs : kind -> list bytes) (s : LLMState) : Prop :=
  systemTexts s = sys /\ forall k, k <> KSystem -> Forall (fun x => x <> []) (xs k) /\
    text_of k s = Join (xs k) newline.

Lemma texts_step_are o s s' sys xs :
  texts_step o s s' -> texts_are sys xs s ->
  texts_are (sys ++ pieces KSystem o) (fun k => xs k ++ pieces k o) s'.
Proof.
  intros [H1 H2] [H3 H4]. split; [by rewrite H1, H3|]. intros k Hk. destruct (H4 k Hk) as [Hf Ht].
  assert (Forall (fun x => x <> []) (pieces k o)) as Hp.
  { apply Forall_forall. intros x Hx. by apply list_elem_of_filter in Hx as [? _]. }
  split; [by apply Forall_app|]. rewrite H2 by done.
  assert (length (pieces k o) <= 1) as Hl.
  { unfold pieces. etrans; [apply length_filter|]. by destruct k, o; simpl; lia. }
  destruct (pieces k o) as [|t [|]] eqn:E; [| |simpl in Hl; lia].
  - by rewrite app_nil_r.
  - by rewrite <- append_line_Join, <- Ht.
Qed.

Lemma run_texts mode os s w s' w' sys xs :
  live s w -> Forall (slot_ok w) os -> foldM (exec mode) (s, w) os = Ret (s', w') ->
  texts_are sys xs s ->
  texts_are (sys ++ all_pieces KSystem os) (fun k => xs k ++ all_pieces k os) s'.
Proof.
  revert s w sys xs; induction os as [|o os IH]; intros s w sys xs Hl Ho E Ht; cbn [foldM] in E.
  { simplify_eq. unfold all_pieces. simpl. destruct Ht as [H1 H2]. split; [by rewrite app_nil_r|].
    intros k Hk. rewrite app_nil_r. auto. }
  inversion Ho as [|? ? Ho1 Hos]; subst.
  destruct (exec_stepped mode s w o Hl Ho1) as (s1 & w1 & E1 & []). rewrite E1 in E.
  pose proof (texts_step_are o s s1 sys xs (exec_texts _ _ _ _ _ _ (l_enabled _ _ Hl) E1) Ht) as H1.
  apply (IH s1 w1 _ _ st_live0) in H1; [|by eapply slots_ok_mono|done].
  unfold all_pieces in *. simpl. destruct H1 as [H1 H2]. split; [by rewrite app_assoc|].
  intros k Hk. rewrite app_assoc. auto.
Qed.

Lemma flush_texts now s p :
  SystemTexts (flush now s p) = systemTexts s /\
  (forall k, published_text k (flush now s p) = text_of k s) /\
  Success (flush now s p) = negb (nonempty (Error p)) /\ Error (flush now s p) = Error p.
Proof.
  unfold flush. simpl. split; [done|]. split; [by intros []|].
  set (p1 := if _ && _ then _ else p). assert (Error p1 = Error p) as E1 by (unfold p1; by destruct (_ && _)).
  rewrite <- E1. clearbody p1.
  destruct (Ttft p1); [|done]. destruct (streamRequest s); [|done].
  by destruct (match Latency p1 with Some l => f64_leb l _ | None => true end).
Qed.

(** A publication leaves in the world the flushed step status. *)
Lemma publish_pack mode now s w p :
  live s w -> endOnce s = false -> packs w !! pack s = Some p ->
  exists s' w', Publish mode now s w = Ret (s', w') /\ pack s' = pack s /\
    packs w' !! pack s = Some (flush now s p).
Proof.
  intros Hl He Hp. unfold Publish. rewrite (l_enabled _ _ Hl), He. cbn [orb].
  unfold on_pack, get_pack. rewrite Hp. simpl. rewrite lookup_insert_eq. simpl.
  match goal with |- context [accumulate_slot ?x _ ?y] =>
    destruct (accumulate_ok x (txSlot s) y (l_slot _ _ Hl)) as (w2 & -> & Ep & _) end.
  do 2 eexists. split; [done|]. split; [done|]. unfold DispatchStep. destruct mode; simpl;
    rewrite Ep; simpl; by rewrite lookup_insert_eq.
Qed.

Lemma NewLLMState_live now w cfg :
  let '(s, w') := NewLLMState now w cfg in
  live s w' /\ endOnce s = false /\ manualPublish s = false /\ queue w' = queue w /\
  counted w' = counted w /\ slots w' = slots w /\ texts_are [] (fun _ => []) s.
Proof.
  unfold NewLLMState. simpl. split; [split; simpl; [done|rewrite lookup_insert_eq; by eexists|done]|].
  do 5 (split; [done|]). split; [done|]. by intros [].
Qed.

(** * The properties *)

(** C8. A call is published exactly once: whatever is done to a fresh state, in any
    order and however often it is ended, no call fails; its step status is put on
    the sender's queue and counted on the meter once if some call publishes
    ([Publish], or the end of the HTTP call when the state is not manual), and
    never otherwise; with the LLM mode off nothing is queued. *)
Theorem Publish_once mode now w0 cfg os :
  Forall (slot_ok w0) os ->
  let '(s, w) := NewLLMState now w0 cfg in
  exists s' w', foldM (exec mode) (s, w) os = Ret (s', w') /\
    let f := fires mode false os in
    endOnce s' = f /\ queue w' = queue w0 ++ (if mode && f then [pack s] else []) /\
    counted w' = counted w0 + (if f then 1 else 0).
Proof.
  intros Ho. pose proof (NewLLMState_live now w0 cfg) as H. destruct (NewLLMState now w0 cfg) as [s w].
  destruct H as (Hl & He & Hm & Hq & Hc & Hs & _).
  destruct (run_once mode os s w Hl) as (s' & w' & E & _ & _ & H1 & H2 & H3).
  { eapply slots_ok_mono; [|done]. by rewrite Hs. }
  exists s', w'. split; [done|]. rewrite He, Hm, Hq, Hc in *. done.
Qed.

(** Nothing said before the publication is lost: when a state is published for
    the first time, its step status holds the system messages in order, and as
    prompt, completion, reasoning, tool calls and tool results the non-empty
    pieces added so far, in order and joined by newlines, and it is successful
    exactly when it records no error. *)
Theorem Publish_texts mode now w0 cfg os t :
  Forall (slot_ok w0) os -> fires mode false os = false ->
  let '(s, w) := NewLLMState now w0 cfg in
  exists s' w' p, foldM (exec mode) (s, w) (os ++ [OPublish t]) = Ret (s', w') /\
    packs w' !! pack s = Some p /\ SystemTexts p = all_pieces KSystem os /\
    (forall k, k <> KSystem -> published_text k p = Join (all_pieces k os) newline) /\
    Success p = negb (nonempty (Error p)).
Proof.
  intros Ho Hf. pose proof (NewLLMState_live now w0 cfg) as H. destruct (NewLLMState now w0 cfg) as [s w].
  destruct H as (Hl & He & Hm & _ & _ & Hs & Ht).
  assert (Forall (slot_ok w) os) as Ho' by (eapply (slots_ok_mono w0); [by rewrite Hs|done]).
  destruct (run_once mode os s w Hl Ho') as (s1 & w1 & E & Hl1 & Hp1 & H1 & _).
  destruct (run_texts mode os s w s1 w1 [] (fun _ => []) Hl Ho' E Ht) as [T1 T2].
  rewrite He, Hm, Hf in H1. destruct (l_pack _ _ Hl1) as [p Hp].
  destruct (publish_pack mode t s1 w1 p Hl1 H1 Hp) as (s2 & w2 & E2 & _ & Hp2).
  exists s2, w2, (flush t s1 p). rewrite foldM_app, E. cbn [mbind res_bind foldM exec].
  rewrite E2. split; [done|]. rewrite <- Hp1. split; [done|].
  destruct (flush_texts t s1 p) as (F1 & F2 & F3 & F4). rewrite F1, F3, F4. split; [done|].
  split; [|done]. intros k Hk. rewrite F2. by apply T2.
Qed.

(** What the caller recorded wins over what the HTTP client reports: ending the
    call keeps an explicit status code and an explicit error, and otherwise takes
    the client's; the latency, the ids and the trace slot are the client's. *)
Theorem HandleHttpcEnd_precedence now s w p txid slot stepID elapsed code err :
  disabled s = false -> manualPublish s = true -> packs w !! pack s = Some p ->
  (0 <= elapsed)%Z -> txid <> 0%Z -> stepID <> 0%Z ->
  exists s' w' p', HandleHttpcEnd true now s w txid slot stepID elapsed code err = Ret (s', w') /\
    packs w' !! pack s = Some p' /\
    StatusCode s' = (if bool_decide (statusCode s = 0%Z) then code else statusCode s) /\
    TerminalErr s' = match terminalErr s with Some e => Some e | None => err end /\
    (Error p', ErrorType p') =
      match terminalErr s, err with
      | None, Some msg => (msg, ErrorTypeAPI)
      | _, _ => (Error p, ErrorType p)
      end /\
    Latency p' = Some (f64_of_Z elapsed) /\ StepID (base p') = FormatInt stepID /\
    Txid (base p') = FormatInt txid /\ txSlot s' = slot.
Proof.
  intros Hd Hm Hp He Ht Hi. unfold HandleHttpcEnd. rewrite Hd. simpl.
  assert (on_pack s w (httpc_timings elapsed s) =
    Ret (w <| packs ::= <[pack s := httpc_timings elapsed s p]> |>)) as -> by (unfold on_pack; by rewrite Hp).
  simpl. set (p1 := httpc_timings elapsed s p).
  assert (Latency p1 = Some (f64_of_Z elapsed) /\ Error p1 = Error p /\ ErrorType p1 = ErrorType p)
    as (L1 & L2 & L3).
  { unfold p1, httpc_timings. destruct (Z.leb_spec 0 elapsed); [|lia].
    by destruct (bool_decide (firstTokenMs s <> 0%Z)). }
  set (s1 := if bool_decide (statusCode s = 0%Z) then _ else s).
  assert (disabled s1 = false /\ manualPublish s1 = true /\ terminalErr s1 = terminalErr s /\
    pack s1 = pack s /\
    statusCode s1 = if bool_decide (statusCode s = 0%Z) then code else statusCode s)
    as (S1 & S2 & S3 & S4 & S5) by (unfold s1; by destruct (bool_decide _)).
  assert (forall q, Latency (httpc_ids txid stepID q) = Latency q /\ Error (httpc_ids txid stepID q) = Error q /\
    ErrorType (httpc_ids txid stepID q) = ErrorType q /\
    StepID (base (httpc_ids txid stepID q)) = FormatInt stepID /\
    Txid (base (httpc_ids txid stepID q)) = FormatInt txid) as HQ.
  { intros q. unfold httpc_ids. by rewrite !bool_decide_eq_true_2 by done. }
  clearbody p1 s1. rewrite S3. destruct (terminalErr s) as [e|].
  - simpl. unfold on_pack. simpl. rewrite S4, lookup_insert_eq. simpl. rewrite S2. simpl.
    destruct (HQ p1) as (Q1 & Q2 & Q3 & Q4 & Q5). do 3 eexists. split; [done|].
    split; [simpl; by rewrite lookup_insert_eq|]. unfold StatusCode, TerminalErr. simpl.
    rewrite Q1, Q2, Q3. repeat split; congruence.
  - unfold SetError. destruct err as [msg|]; rewrite ?S1; simpl; unfold on_pack; simpl;
      rewrite S4, lookup_insert_eq; simpl.
    + rewrite lookup_insert_eq. simpl. rewrite S2. simpl.
      destruct (HQ (StepStatus_SetError p1 msg ErrorTypeAPI)) as (Q1 & Q2 & Q3 & Q4 & Q5).
      do 3 eexists. split; [done|]. split; [simpl; by rewrite lookup_insert_eq|].
      unfold StatusCode, TerminalErr. simpl. rewrite Q1, Q2, Q3. repeat split; done || congruence.
    + rewrite S2. simpl. destruct (HQ p1) as (Q1 & Q2 & Q3 & Q4 & Q5). do 3 eexists. split; [done|].
      split; [simpl; by rewrite lookup_insert_eq|]. unfold StatusCode, TerminalErr. simpl.
      rewrite Q1, Q2, Q3. repeat split; congruence.
Qed.

(** ** Tokens *)

Lemma put_counts_other p fs m k :
  k ∉ token_name <$> fs -> foldl (put_count p) m fs !! k = m !! k.
Proof.
  revert m; induction fs as [|g fs IH]; intros m Hn; [done|]. simpl in Hn.
  rewrite not_elem_of_cons in Hn. destruct Hn as [Hg Hfs]. simpl. rewrite IH by done.
  unfold put_count. repeat case_match; [|done..]. by rewrite lookup_insert_ne.
Qed.

Definition nonzero (v : option Z) : option Z :=
  v ≫= fun v => if bool_decide (v <> 0%Z) then Some v else None.

Lemma put_counts p fs m f :
  NoDup fs -> f ∈ fs -> m !! token_name f = None ->
  foldl (put_count p) m fs !! token_name f = nonzero (tokens p f).
Proof.
  revert m; induction fs as [|g fs IH]; intros m Hn Hf Hm; [by apply not_elem_of_nil in Hf|].
  inversion Hn as [|? ? Hg Hfs]; subst. simpl. destruct (decide (f = g)) as [->|Hne].
  - rewrite put_counts_other.
    + unfold put_count. destruct (tokens p g) as [v|]; [|done]. simpl.
      destruct (bool_decide (v <> 0%Z)); [by rewrite lookup_insert_eq|done].
    + intros Hi. apply list_elem_of_fmap in Hi as (h & Hh & Hi). by apply token_name_inj in Hh as ->.
  - apply IH; [done|set_solver|]. unfold put_count. repeat case_match; [|done..].
    rewrite lookup_insert_ne; [done|]. intros Ht. by apply token_name_inj in Ht.
Qed.

Lemma nonZeroTokenCounts_lookup p f :
  nonZeroTokenCounts p !! token_name f =
  if bool_decide (f = Dimensions) then None else nonzero (tokens p f).
Proof.
  unfold nonZeroTokenCounts. destruct (bool_decide_reflect (f = Dimensions)) as [->|Hn].
  - rewrite put_counts_other; [done|]. intros Hi.
    apply list_elem_of_fmap in Hi as (g & Hg & Hi). apply token_name_inj in Hg as <-. set_solver.
  - apply put_counts; [|by destruct f; set_solver|done]. apply (NoDup_fmap_1 token_name), summary_NoDup.
Qed.

(** The value a [Tokens] gives to a field. *)
Definition token_value (t : Tokens) (f : token_field) : Z :=
  default 0%Z ((list_to_map ((fun fv => (token_name fv.1, fv.2)) <$> token_values t) : gmap bytes Z)
                 !! token_name f).

Lemma put_nonzeros_lookup (l : list (token_field * Z)) m k :
  k ∉ token_name ∘ fst <$> l -> foldl put_nonzero m l !! k = m !! k.
Proof.
  revert m; induction l as [|[g v] l IH]; intros m Hn; [done|]. simpl in Hn.
  rewrite not_elem_of_cons in Hn. destruct Hn as [Hg Hl]. simpl. rewrite IH by done.
  unfold put_nonzero. simpl. destruct (bool_decide (v <> 0%Z)); [|done]. by rewrite lookup_insert_ne.
Qed.

Lemma tokensToMap_lookup t f v :
  (f, v) ∈ token_values t -> tokensToMap t !! token_name f = nonzero (Some v).
Proof.
  intros Hi. apply list_elem_of_split in Hi as (l1 & l2 & Hl). unfold tokensToMap. rewrite Hl.
  assert (NoDup (token_name ∘ fst <$> token_values t)) as Hn.
  { change (NoDup (token_name <$> all_token_fields)).
    apply NoDup_fmap; [intros ? ?; apply token_name_inj|]. apply (bool_decide_unpack _). by vm_compute. }
  rewrite Hl, fmap_app in Hn. apply NoDup_app in Hn as (_ & Hd & Hn2).
  inversion Hn2 as [|? ? Hx Hn3]; subst. rewrite foldl_app. simpl.
  rewrite put_nonzeros_lookup by done. unfold put_nonzero at 1. simpl.
  destruct (bool_decide (v <> 0%Z)); [by rewrite lookup_insert_eq|].
  rewrite put_nonzeros_lookup; [done|]. intros Hi. apply (Hd _ Hi). by left.
Qed.

(** Token counts survive the way from the caller to the meter: for a call whose
    tokens were set once, the map [AddTokenUsage] receives gives every field but
    the dimensions exactly its non-zero value, and no entry for a zero. *)
Theorem SetTokens_roundtrip s w p t f v :
  disabled s = false -> packs w !! pack s = Some p -> tokens p = (fun _ => None) ->
  (f, v) ∈ token_values t ->
  exists w' p', SetTokens s w t = Ret w' /\ packs w' !! pack s = Some p' /\
    nonZeroTokenCounts p' !! token_name f =
      if bool_decide (f = Dimensions) then None else nonzero (Some v).
Proof.
  intros Hd Hp Hn Hi. unfold SetTokens, on_pack. rewrite Hd, Hp.
  do 2 eexists. split; [done|]. simpl. rewrite lookup_insert_eq. split; [done|].
  rewrite nonZeroTokenCounts_lookup.
  assert (forall p1 : LlmStepStatus, tokens (if f64_nonzero (tok_Similarity t)
    then p1 <| Similarity := Some (tok_Similarity t) |> else p1) = tokens p1) as Hsim
    by (intros; by destruct (f64_nonzero _)).
  simpl in Hsim. rewrite Hsim, SetTokens_lookup, Hn, (tokensToMap_lookup t f v Hi).
  destruct (bool_decide (f = Dimensions)); [done|]. unfold nonzero. simpl.
  destruct (bool_decide (v <> 0%Z)) eqn:E; simpl; by rewrite ?E.
Qed.

(** * Witnesses *)

Definition cfg1 : Config := mkConfig [] (str "gpt") [] (str "https://api.openai.com/v1/chat/completions").
Definition world0 : world := mkWorld ∅ {[0 := INil]} [] [].
Definition tokens1 : Tokens := mkTokens 12 7 19 0 0 0 0 0 0 0 0 0 0 f64_zero.
Definition ops1 : list op :=
  [OAddSystemMessage (str "be brief"); OAddInputMessage (str "hi"); OAddInputMessage [];
   OAddInputMessage (str "there"); OSetTokens tokens1].
Definition end1 : op := OHttpcEnd 1050 77 (Some 0) 9 40 200 None.

Lemma Publish_once_witness :
  let '(s, w) := NewLLMState 1000 world0 cfg1 in
  exists s' w', foldM (exec true) (s, w) (ops1 ++ [end1; OPublish 1060; end1]) = Ret (s', w') /\
    queue w' = [pack s] /\ counted w' = 1.
Proof.
  pose proof (Publish_once true 1000 world0 cfg1 (ops1 ++ [end1; OPublish 1060; end1])) as H.
  destruct (NewLLMState 1000 world0 cfg1) as [s w]. destruct H as (s' & w' & E & _ & Hq & Hc).
  - repeat constructor; by eexists.
  - exists s', w'. split; [exact E|]. split; [exact Hq|exact Hc].
Defined.

Lemma Publish_texts_witness :
  let '(s, w) := NewLLMState 1000 world0 cfg1 in
  exists s' w' p, foldM (exec true) (s, w) (ops1 ++ [OPublish 1060]) = Ret (s', w') /\
    packs w' !! pack s = Some p /\ SystemTexts p = [str "be brief"] /\
    PromptText p = str "hi" ++ newline ++ str "there".
Proof.
  pose proof (Publish_texts true 1000 world0 cfg1 ops1 1060) as H.
  destruct (NewLLMState 1000 world0 cfg1) as [s w].
  destruct H as (s' & w' & p & E & Hp & Hs & Ht & _).
  - repeat constructor.
  - reflexivity.
  - exists s', w', p. split; [exact E|]. split; [exact Hp|]. split; [exact Hs|].
    exact (Ht KInput (fun e => match e with eq_refl => I end)).
Defined.

Definition state1 : LLMState := mkLLMState false 5 1000 0 false 0 None true None [] [] [] [] [] [] false.
Definition world1 : world := mkWorld {[5 := NewLlmStepStatus]} ∅ [] [].

Lemma HandleHttpcEnd_precedence_witness :
  exists s' w' p', HandleHttpcEnd true 1050 state1 world1 77 None 9 40 503 (Some (str "EOF")) = Ret (s', w') /\
    packs w' !! 5 = Some p' /\ StatusCode s' = 503%Z /\ Error p' = str "EOF".
Proof.
  destruct (HandleHttpcEnd_precedence 1050 state1 world1 NewLlmStepStatus 77 None 9 40 503 (Some (str "EOF")))
    as (s' & w' & p' & E & Hp & Hc & _ & He & _); [done|done|reflexivity|lia|lia|lia|].
  exists s', w', p'. split; [exact E|]. split; [exact Hp|]. split; [exact Hc|]. by injection He.
Defined.

Lemma SetTokens_roundtrip_witness :
  exists w' p', SetTokens state1 world1 tokens1 = Ret w' /\ packs w' !! 5 = Some p' /\
    nonZeroTokenCounts p' !! str "output_tokens" = Some 7%Z.
Proof.
  destruct (SetTokens_roundtrip state1 world1 NewLlmStepStatus tokens1 OutputTokens 7)
    as (w' & p' & E & Hp & H); [done|reflexivity|done|by right; left|].
  exists w', p'. split; [exact E|]. split; [exact Hp|exact H].
Defined.
