(* ===== verification/LlmSender.v ===== *)
(** The background sender of LLM log records, [src/agent/agent/llm/sender.go],
    over the records of [src/agent/logsink/LineLog.go].

    A [value.MapValue] of golib is the list of the puts made on it.  The queue,
    the thread and [logsink.Send] are outside; [processStep] is the list of the
    records it sends. *)

From S2P Require Import Prelude LlmChunk LlmPack LlmState.

Inductive mvalue := MString (s : bytes) | MLong (z : Z) | MDouble (x : float64) | MBool (b : bool).
Definition MapValue : Type := list (bytes * mvalue).

Record LineLog := mkLineLog {
  Truncated : bool; OrgContentLength : Z; Time : Z; LogCategory : bytes;
  Tags : MapValue; Fields : MapValue; Content : bytes
}.
Definition NewLineLog : LineLog := mkLineLog false 0 0 [] [] [] [].

Definition PutString (k : string) (v : bytes) (m : MapValue) : MapValue := m ++ [(str k, MString v)].
Definition PutLong (k : bytes) (v : Z) (m : MapValue) : MapValue := m ++ [(k, MLong v)].
Definition putDouble (k : bytes) (v : float64) (m : MapValue) : MapValue := m ++ [(k, MDouble v)].

(** [math.Round(v * 1e6) / 1e6] *)
Definition round6 (v : float64) : float64 :=
  f64_div (f64_round (f64_mul v (f64_of_Z 1000000))) (f64_of_Z 1000000).

Definition putBaseTags (p : LlmLogSinkPack) (logType : bytes) (t : MapValue) : MapValue :=
  PutString "provider" (Provider p)
    (PutString "@step_id" (StepID p) (PutString "@txid" (Txid p) (PutString "llm_log_type" logType t))).

(** The key of a numeric field: its name and [".n"]. *)
Definition dot_n (k : bytes) : bytes := k ++ str ".n".
Definition put_opt_long (k : bytes) (v : option Z) (m : MapValue) : MapValue :=
  match v with Some v => PutLong (dot_n k) v m | None => m end.
Definition put_opt_double (k : bytes) (v : option float64) (m : MapValue) : MapValue :=
  match v with Some v => putDouble (dot_n k) v m | None => m end.

Definition put_token (s : LlmStepStatus) (m : MapValue) (f : token_field) : MapValue :=
  put_opt_long (token_name f) (tokens s f) m.
Definition put_step_cost (s : LlmStepStatus) (m : MapValue) (f : cost_field) : MapValue :=
  put_opt_double (cost_name f) (costs s f) m.

Definition appendStepTokenFields (s : LlmStepStatus) (f : MapValue) : MapValue :=
  let f := foldl (put_token s) f
    [InputTokens; OutputTokens; TotalTokensCount; CachedTokens; ReasoningTokens;
     AudioInputTokens; AudioOutputTokens; AcceptedPredictionTokens;
     RejectedPredictionTokens; EmbeddingCount; Dimensions] in
  let f := put_opt_double (str "similarity") (Similarity s) f in
  let f := foldl (put_token s) f [CacheCreationInputTokens; CacheReadInputTokens] in
  let f := foldl (put_step_cost s) f [Cost; InputCost; OutputCost; CachedCost; CacheCreationCost] in
  let f := put_opt_double (str "latency") (Latency s) f in
  put_opt_double (str "ttft") (Ttft s) f.

Definition buildStepStatusLineLog (s : LlmStepStatus) : LineLog :=
  let tags := putBaseTags (base s) LogTypeStepStatus [] in
  let tags := PutString "model" (Model s) tags in
  let tags := PutString "stream" (str (if Stream s then "True" else "False")) tags in
  let tags := PutString "finish_reason" (FinishReason s) tags in
  let tags := PutString "operation_type" (OperationType (base s)) tags in
  let tags := PutString "features" (Features s) tags in
  let fields := PutLong (str "index") (Index_ (base s)) [] in
  let fields := put_opt_double (str "temperature") (Temperature s) fields in
  let fields := appendStepTokenFields s fields in
  let fields :=
    if bool_decide (ErrorType s = str "api_error") || bool_decide (ErrorType s = str "program_error")
    then PutString "error_type" (ErrorType s) (PutString "error" (Error s) fields) else fields in
  mkLineLog false 0 0 Category tags fields [].

(** [sort.Strings(keys)] and [strings.Join(keys, ",")] *)
Definition joinSorted (s : gset bytes) : bytes := Join (merge_sort bytes_le (elements s)) (str ",").

Definition put_joined (k : string) (s : gset bytes) (m : MapValue) : MapValue :=
  if bool_decide (s = ∅) then m else PutString k (joinSorted s) m.
Definition put_sum (t : LlmTxStatus) (m : MapValue) (k : bytes) : MapValue :=
  let v := default 0%Z (TokenSums t !! k) in
  if bool_decide (v <> 0%Z) then PutLong (dot_n k) v m else m.
Definition put_nonzero_double (k : string) (v x : float64) (m : MapValue) : MapValue :=
  if f64_nonzero v then putDouble (dot_n (str k)) x m else m.

Definition buildTxStatusLineLog (t : LlmTxStatus) : LineLog :=
  let tags := PutString "llm_log_type" LogTypeTxStatus [] in
  let tags := PutString "@txid" (Txid (tbase t)) tags in
  let tags := PutString "@first_step_id" (FirstStepID t) tags in
  let tags := PutString "@last_step_id" (LastStepID t) tags in
  let tags := put_joined "provider" (Providers t) tags in
  let tags := put_joined "model" (Models t) tags in
  let tags := put_joined "operation_type" (OperationTypes t) tags in
  let fields := PutLong (str "call_count.n") (CallCount t) [] in
  let fields := PutLong (str "error_count.n") (ErrorCount t) fields in
  let fields := foldl (put_sum t) fields txSummaryTokenFields in
  let fields := put_nonzero_double "latency" (TxLatency t) (TxLatency t) fields in
  let fields := put_nonzero_double "cost" (TxCost t) (round6 (TxCost t)) fields in
  let fields := put_nonzero_double "input_cost" (TxInputCost t) (round6 (TxInputCost t)) fields in
  let fields := put_nonzero_double "output_cost" (TxOutputCost t) (round6 (TxOutputCost t)) fields in
  mkLineLog false 0 0 Category tags fields [].

Definition buildMessageLineLog (c : LlmLogSinkPack) (logType content : bytes)
    (extraFields : option MapValue) (chunkIdx chunkTotal : nat) : LineLog :=
  let tags := putBaseTags c logType [] in
  let tags := if nonempty (URL c) then PutString "url" (URL c) tags else tags in
  let tags := if nonempty (OperationType c)
              then PutString "operation_type" (OperationType c) tags else tags in
  let fields := PutLong (str "index") (Index_ c) [] in
  let fields :=
    if bool_decide (1 < chunkTotal)
    then PutLong (str "chunk_total") (Z.of_nat chunkTotal)
           (PutLong (str "chunk_index") (Z.of_nat chunkIdx) fields)
    else fields in
  let fields := match extraFields with Some e => fields ++ e | None => fields end in
  mkLineLog false 0 0 Category tags fields content.

(** [sendLineLog]: a record without a time gets the current one. *)
Definition stamp_time (now : Z) (a : LineLog) : LineLog :=
  if (Time a <=? 0)%Z then a <| Time := now |> else a.

#[global] Arguments stamp_time : simpl never.

Definition combineOutput (reasoning completion : bytes) : bytes :=
  if nonempty reasoning && nonempty completion then reasoning ++ [ascii_of_N 10] ++ completion
  else if nonempty reasoning then reasoning else completion.

(** * Tool calls *)

(** The values [json.Unmarshal] gives a tool call entry, as far as they are used. *)
Inductive jvalue := JObject (o : list (bytes * jvalue)) | JString (s : bytes) | JOther.
Fixpoint jget (o : list (bytes * jvalue)) (k : bytes) : option jvalue :=
  match o with [] => None | (k', v) :: o => if bool_decide (k' = k) then Some v else jget o k end.
Definition jstring (v : option jvalue) : bytes := match v with Some (JString s) => s | _ => [] end.

Definition snoc_nonempty (xs : list bytes) (s : bytes) : list bytes :=
  if nonempty s then xs ++ [s] else xs.
Definition tool_call (acc : list bytes * list bytes) (tc : list (bytes * jvalue)) :
    list bytes * list bytes :=
  let '(ns, args) := acc in
  match jget tc (str "function") with
  | Some (JObject fn) =>
      (snoc_nonempty ns (jstring (jget fn (str "name"))),
       snoc_nonempty args (jstring (jget fn (str "arguments"))))
  | Some (JString fn) =>
      if nonempty fn
      then (ns ++ [fn], snoc_nonempty args (jstring (jget tc (str "arguments"))))
      else (ns, args)
  | _ => (ns, args)
  end.

Section Sender.
(** [json.Unmarshal] of a text into a list of objects, [None] on an error. *)
Context (Unmarshal : bytes -> option (list (list (bytes * jvalue)))).
Context (now : Z).

Definition parseToolCalls (text : bytes) : bytes * bytes :=
  if negb (nonempty text) then ([], [])
  else
    match Unmarshal text with
    | None => ([], [])
    | Some tcList =>
        let '(ns, args) := foldl tool_call ([], []) tcList in
        (Join ns (str ","), Join args (str ","))
    end.

Definition tool_extra (text : bytes) : MapValue :=
  let '(names, args) := parseToolCalls text in
  let e := if nonempty names then PutString "function" names [] else [] in
  if nonempty args then PutString "arguments" args e else e.

(** One record per chunk, or a single empty one. *)
Definition sendChunked (c : LlmLogSinkPack) (logType content : bytes) (extra : option MapValue) :
    res (list LineLog) :=
  chunks ← SplitContent (S (length content)) content;
  Ret (stamp_time now <$>
       match chunks with
       | [] => [buildMessageLineLog c logType [] extra 0 1]
       | _ => imap (fun idx chunk => buildMessageLineLog c logType chunk extra idx (length chunks)) chunks
       end).

Definition DispatchSystemMessage c content := sendChunked c LogTypeSystemMessage content None.
Definition DispatchInputMessage c content := sendChunked c LogTypeInputMessage content None.
Definition DispatchOutputMessage c completion reasoning :=
  sendChunked c LogTypeOutputMessage (combineOutput reasoning completion) None.
Definition DispatchToolResults c content := sendChunked c LogTypeToolResult content None.
Definition DispatchToolCalls c text := sendChunked c LogTypeTool text (Some (tool_extra text)).

Fixpoint system_messages (c : LlmLogSinkPack) (texts : list bytes) : res (list LineLog) :=
  match texts with
  | [] => Ret []
  | t :: texts =>
      a ← sendChunked c LogTypeSystemMessage t None;
      b ← system_messages c texts;
      Ret (a ++ b)
  end.

Definition processStep (step : LlmStepStatus) : res (list LineLog) :=
  let c := base step in
  a ← system_messages c (SystemTexts step);
  b ← sendChunked c LogTypeInputMessage (PromptText step) None;
  d ← sendChunked c LogTypeOutputMessage (combineOutput (ReasoningText step) (CompletionText step)) None;
  e ← if nonempty (ToolCallsText step)
      then sendChunked c LogTypeTool (ToolCallsText step) (Some (tool_extra (ToolCallsText step)))
      else Ret [];
  f ← if nonempty (ToolResultsText step)
      then sendChunked c LogTypeToolResult (ToolResultsText step) None
      else Ret [];
  Ret ([stamp_time now (buildStepStatusLineLog step)] ++ a ++ b ++ d ++ e ++ f).

(** [DispatchTxStatus]: a summary without calls is not sent. *)
Definition DispatchTxStatus (LLMMode : bool) (tx : option LlmTxStatus) : list LineLog :=
  match tx with
  | None => []
  | Some tx =>
      if bool_decide (CallCount tx = 0%Z) || negb LLMMode then []
      else [stamp_time now (buildTxStatusLineLog tx)]
  end.

(** [DispatchTraceTxStatus]: the end of a transaction drains its slot. *)
Definition DispatchTraceTxStatus (LLMMode : bool) (txid : Z) (slot : iface) : list LineLog :=
  match slot with
  | ITx tx =>
      if bool_decide (CallCount tx = 0%Z) || negb LLMMode then []
      else
        let tx := if negb (nonempty (Txid (tbase tx))) && bool_decide (txid <> 0%Z)
                  then tx <| tbase ::= fun b => b <| Txid := FormatInt txid |> |> else tx in
        DispatchTxStatus LLMMode (Some tx)
  | _ => []
  end.
End Sender.

(** Every text of a call reaches the log, in bounded, numbered records. *)

(** A text made of UTF-8 framed characters. *)
Definition framed (text : bytes) : Prop := exists cs, Forall char cs /\ text = concat cs.

Definition log_type (a : LineLog) : bytes :=
  match Tags a with (_, MString t) :: _ => t | _ => [] end.
Definition of_type (lt : bytes) (logs : list LineLog) : list LineLog :=
  filter (fun a => log_type a = lt) logs.
Definition content_of (lt : bytes) (logs : list LineLog) : bytes := concat (Content <$> of_type lt logs).

(** The [k]-th of [n] records is numbered when there are several. *)
Definition numbered (n k : nat) (a : LineLog) : Prop :=
  1 < n -> (str "chunk_index", MLong (Z.of_nat k)) ∈ Fields a /\
           (str "chunk_total", MLong (Z.of_nat n)) ∈ Fields a.

Definition bounded (a : LineLog) : Prop := length (Content a) <= MaxContentBytes.

(** The records of one text. *)
Record carries (lt text : bytes) (logs : list LineLog) : Prop := {
  c_type : Forall (fun a => log_type a = lt) logs;
  c_some : 1 <= length logs;
  c_text : concat (Content <$> logs) = text;
  c_bound : Forall bounded logs;
  c_numbered : forall k a, logs !! k = Some a -> numbered (length logs) k a
}.

Lemma message_type c lt content extra i n : log_type (buildMessageLineLog c lt content extra i n) = lt.
Proof.
  unfold buildMessageLineLog, log_type. simpl. by destruct (nonempty (URL c)), (nonempty (OperationType c)).
Qed.

Lemma stamp_type now a : log_type (stamp_time now a) = log_type a.
Proof. unfold stamp_time. by destruct (Time a <=? 0)%Z. Qed.
Lemma stamp_content now a : Content (stamp_time now a) = Content a.
Proof. unfold stamp_time. by destruct (Time a <=? 0)%Z. Qed.
Lemma stamp_fields now a : Fields (stamp_time now a) = Fields a.
Proof. unfold stamp_time. by destruct (Time a <=? 0)%Z. Qed.

Lemma message_numbered c lt content extra i n :
  numbered n i (buildMessageLineLog c lt content extra i n).
Proof.
  intros Hn. unfold buildMessageLineLog. simpl. rewrite bool_decide_eq_true_2 by done.
  destruct extra; split; set_solver.
Qed.

Lemma sendChunked_carries now c lt text extra :
  framed text -> exists logs, sendChunked now c lt text extra = Ret logs /\ carries lt text logs.
Proof.
  intros (cs & Hcs & ->).
  destruct (split_content_chars _ Max_at_least_4 (S (length (concat cs))) cs Hcs) as (gs & E & Hg & Hb); [lia|].
  unfold sendChunked, SplitContent. rewrite E. simpl. eexists. split; [done|].
  assert (concat (joined <$> gs) = concat cs) as Hc.
  { rewrite <- Hg. clear. induction gs as [|g gs IH]; [done|]. simpl. rewrite concat_app. f_equal. exact IH. }
  assert (Forall (fun ch => 1 <= length ch <= MaxContentBytes) (joined <$> gs)) as Hb' by (by apply Forall_fmap).
  revert Hc Hb'. clear. generalize (joined <$> gs) as chunks. intros chunks <- Hb.
  destruct chunks as [|ch chunks].
  { split; simpl.
    - repeat constructor. by rewrite stamp_type, message_type.
    - lia.
    - done.
    - apply Forall_singleton. unfold bounded. rewrite stamp_content. apply Nat.le_0_l.
    - intros [|k] a Hk; simplify_eq/=. unfold numbered. lia. }
  assert (1 <= length (ch :: chunks)) as Hl by (simpl; lia).
  set (l := ch :: chunks) in *. clearbody l.
  set (logs := stamp_time now <$> _).
  assert (forall k a, logs !! k = Some a ->
     exists chunk, l !! k = Some chunk /\ a = stamp_time now (buildMessageLineLog c lt chunk extra k (length l))) as Hk.
  { intros k a Hk. unfold logs in Hk. rewrite list_lookup_fmap, list_lookup_imap in Hk.
    destruct (l !! k) as [chunk|]; simplify_eq/=. by exists chunk. }
  assert (length logs = length l) as HL by (unfold logs; by rewrite length_fmap, length_imap).
  split; rewrite ?HL.
  - apply Forall_lookup. intros k a Ha. apply Hk in Ha as (chunk & _ & ->). by rewrite stamp_type, message_type.
  - done.
  - f_equal. apply list_eq. intros k. unfold logs. rewrite !list_lookup_fmap, list_lookup_imap.
    destruct (l !! k); [|done]. cbn [fmap option_fmap option_map]. by rewrite stamp_content.
  - apply Forall_lookup. intros k a Ha. apply Hk in Ha as (chunk & Hc & ->). unfold bounded.
    rewrite stamp_content. cbn [buildMessageLineLog Content]. rewrite Forall_lookup in Hb. apply (Hb _ _ Hc).
  - intros k a Ha. apply Hk in Ha as (chunk & _ & ->).
    unfold numbered. rewrite stamp_fields. apply message_numbered.
Qed.

Lemma system_carries now c texts :
  Forall framed texts -> exists logs, system_messages now c texts = Ret (concat logs) /\
    Forall2 (carries LogTypeSystemMessage) texts logs.
Proof.
  induction 1 as [|t texts Ht _ (logs & E & H)]; [by exists []|].
  destruct (sendChunked_carries now c LogTypeSystemMessage t None Ht) as (a & Ea & Ha).
  exists (a :: logs). simpl. rewrite Ea. simpl. rewrite E. split; [done|]. by constructor.
Qed.

(** No character of the other text begins in the middle of this one's. *)
Lemma framed_app s t : framed s -> framed t -> framed (s ++ t).
Proof.
  intros (cs & H1 & ->) (ds & H2 & ->). exists (cs ++ ds). split; [by apply Forall_app|].
  by rewrite concat_app.
Qed.
Lemma framed_newline : framed [ascii_of_N 10].
Proof.
  exists [[ascii_of_N 10]]. split; [|done]. constructor; [|done].
  exists (ascii_of_N 10), []. repeat constructor.
Qed.
Lemma framed_output r c : framed r -> framed c -> framed (combineOutput r c).
Proof.
  intros Hr Hc. unfold combineOutput. destruct (nonempty r && nonempty c).
  - apply framed_app; [done|]. apply framed_app; [apply framed_newline|done].
  - by destruct (nonempty r).
Qed.

(** A text that is only sent when it is not empty. *)
Definition carries_opt (lt text : bytes) (logs : list LineLog) : Prop :=
  if nonempty text then carries lt text logs else logs = [].

(** The sender splits a call without loss: if the texts are UTF-8 framed,
    [processStep] returns, and sends first one status record, then for every
    system message, the input, the output (reasoning and completion joined by a
    newline), and the tool calls and results when there are any, a group of
    records of that type whose contents concatenate to the text, each within
    [MaxContentBytes] and numbered when there are several. *)
Theorem processStep_messages Unmarshal now step :
  Forall framed (SystemTexts step) -> framed (PromptText step) -> framed (ReasoningText step) ->
  framed (CompletionText step) -> framed (ToolCallsText step) -> framed (ToolResultsText step) ->
  exists sys inp outp tool result,
    processStep Unmarshal now step =
      Ret ([stamp_time now (buildStepStatusLineLog step)] ++ concat sys ++ inp ++ outp ++ tool ++ result) /\
    Forall2 (carries LogTypeSystemMessage) (SystemTexts step) sys /\
    carries LogTypeInputMessage (PromptText step) inp /\
    carries LogTypeOutputMessage (combineOutput (ReasoningText step) (CompletionText step)) outp /\
    carries_opt LogTypeTool (ToolCallsText step) tool /\
    carries_opt LogTypeToolResult (ToolResultsText step) result.
Proof.
  intros Hs Hi Hr Hc Ht Htr. set (c := base step).
  destruct (system_carries now c _ Hs) as (sys & E1 & H1).
  destruct (sendChunked_carries now c LogTypeInputMessage _ None Hi) as (inp & E2 & H2).
  destruct (sendChunked_carries now c LogTypeOutputMessage _ None (framed_output _ _ Hr Hc)) as (outp & E3 & H3).
  destruct (sendChunked_carries now c LogTypeTool _ (Some (tool_extra Unmarshal (ToolCallsText step))) Ht)
    as (tool & E4 & H4).
  destruct (sendChunked_carries now c LogTypeToolResult _ None Htr) as (result & E5 & H5).
  exists sys, inp, outp, (if nonempty (ToolCallsText step) then tool else []),
    (if nonempty (ToolResultsText step) then result else []).
  split; [|split; [done|split; [done|split; [done|split]]]].
  - unfold processStep. fold c. rewrite E1. simpl. rewrite E2. simpl. rewrite E3. simpl.
    destruct (nonempty (ToolCallsText step)), (nonempty (ToolResultsText step)); simpl;
      rewrite ?E4; simpl; rewrite ?E5; by simpl.
  - unfold carries_opt. by destruct (nonempty (ToolCallsText step)).
  - unfold carries_opt. by destruct (nonempty (ToolResultsText step)).
Qed.

(** * Sorted names *)

Lemma joinSorted_single x : joinSorted {[x]} = x.
Proof. unfold joinSorted. by rewrite elements_singleton. Qed.

(** The fields a sum adds, in order. *)
Definition sum_field (t : LlmTxStatus) (k : bytes) : option (bytes * mvalue) :=
  let v := default 0%Z (TokenSums t !! k) in
  if bool_decide (v <> 0%Z) then Some (dot_n k, MLong v) else None.
Lemma put_sums t m ks : foldl (put_sum t) m ks = m ++ omap (sum_field t) ks.
Proof.
  revert m; induction ks as [|k ks IH]; intros m; [by rewrite app_nil_r|]. simpl. rewrite IH.
  unfold put_sum at 1, sum_field. destruct (bool_decide _); simpl; [|done].
  unfold PutLong. by rewrite <- app_assoc.
Qed.

Lemma dot_n_inj a b : dot_n a = dot_n b -> a = b.
Proof. apply app_inv_tail. Qed.

Lemma nonzero_double_long k v x m e z :
  (e, MLong z) ∈ put_nonzero_double k v x m <-> (e, MLong z) ∈ m.
Proof. unfold put_nonzero_double, putDouble. destruct (f64_nonzero v); [|done]. set_solver. Qed.

Lemma sum_field_spec t f v :
  f ∈ summary_fields ->
  ((dot_n (token_name f), MLong v) ∈ omap (sum_field t) txSummaryTokenFields <->
   v <> 0%Z /\ v = default 0%Z (TokenSums t !! token_name f)).
Proof.
  intros Hf. rewrite list_elem_of_omap. unfold sum_field. split.
  - intros (k & Hk & He). destruct (bool_decide_reflect (default 0%Z (TokenSums t !! k) <> 0%Z)); [|done].
    injection He as He <-. apply dot_n_inj in He as ->. done.
  - intros [Hv ->]. exists (token_name f). split; [by apply list_elem_of_fmap_2|].
    by rewrite bool_decide_eq_true_2.
Qed.

Lemma tags_kept k s m x : x ∈ m -> x ∈ put_joined k s m.
Proof. unfold put_joined, PutString. destruct (bool_decide _); [done|]. set_solver. Qed.

(** The summary record of a transaction says what was accumulated: it is sent
    exactly when the LLM mode is on and some call was counted, with the ids and
    counts as they are, and with a field for a summary token exactly when its sum
    is not zero, holding the sum. *)
Theorem DispatchTxStatus_record now mode t :
  DispatchTxStatus now mode (Some t) =
    (if mode && bool_decide (CallCount t <> 0%Z) then [stamp_time now (buildTxStatusLineLog t)] else []) /\
  let a := buildTxStatusLineLog t in
  log_type a = LogTypeTxStatus /\
  (str "@txid", MString (Txid (tbase t))) ∈ Tags a /\
  (str "@first_step_id", MString (FirstStepID t)) ∈ Tags a /\
  (str "@last_step_id", MString (LastStepID t)) ∈ Tags a /\
  (str "call_count.n", MLong (CallCount t)) ∈ Fields a /\
  (str "error_count.n", MLong (ErrorCount t)) ∈ Fields a /\
  (forall f v, f ∈ summary_fields ->
     ((dot_n (token_name f), MLong v) ∈ Fields a <-> v <> 0%Z /\ v = default 0%Z (TokenSums t !! token_name f))).
Proof.
  split.
  { unfold DispatchTxStatus. destruct (bool_decide_reflect (CallCount t = 0%Z)) as [->|Hn].
    - by destruct mode.
    - rewrite bool_decide_eq_true_2 by done. by destruct mode. }
  cbv zeta. unfold buildTxStatusLineLog. cbn [Tags Fields].
  split; [|split; [|split; [|split; [|split; [|split]]]]].
  - unfold log_type. cbn [Tags]. unfold put_joined, PutString. by repeat case_bool_decide.
  - do 3 apply tags_kept. unfold PutString. set_solver.
  - do 3 apply tags_kept. unfold PutString. set_solver.
  - do 3 apply tags_kept. unfold PutString. set_solver.
  - rewrite !nonzero_double_long, put_sums, elem_of_app. left. by left.
  - rewrite !nonzero_double_long, put_sums, elem_of_app. left. by right; left.
  - intros f v Hf. rewrite !nonzero_double_long, put_sums, elem_of_app, sum_field_spec by done.
    unfold PutLong. split; [|by right]. intros [Hi|]; [exfalso|done].
    revert Hi. clear -Hf. simpl. rewrite !elem_of_cons.
    intros [Hi|[Hi|Hi]]; [| |by apply elem_of_nil in Hi]; injection Hi as Hi _;
      by destruct f.
Qed.

(** * Witnesses *)
Definition step1 : LlmStepStatus :=
  NewLlmStepStatus <| SystemTexts := [str "be brief"] |> <| PromptText := str "hi" |>
    <| CompletionText := str "hello" |> <| ReasoningText := str "greet" |>.

Lemma framed_ascii s : forallb is_ascii s = true -> framed s.
Proof.
  intros H. exists ((fun c => [c]) <$> s). split.
  - apply Forall_fmap, Forall_forall. intros c Hc. exists c, []. split; [done|].
    rewrite forallb_forall in H. specialize (H c (proj1 (list_elem_of_In _ _) Hc)).
    split; [|by repeat constructor; simpl; lia]. clear -H.
    by destruct c as [[] [] [] [] [] [] [] []]; vm_compute in H |- *.
  - clear. induction s as [|c s IH]; [done|]. simpl. by rewrite <- IH at 1.
Qed.

Lemma processStep_messages_witness :
  exists logs, processStep (fun _ => None) 1000 step1 = Ret logs /\
    content_of LogTypeOutputMessage logs = str "greet" ++ [ascii_of_N 10] ++ str "hello".
Proof.
  destruct (processStep_messages (fun _ => None) 1000 step1)
    as (sys & inp & outp & tool & result & E & _).
  - repeat constructor. by apply framed_ascii.
  - by apply framed_ascii.
  - by apply framed_ascii.
  - by apply framed_ascii.
  - by apply framed_ascii.
  - by apply framed_ascii.
  - eexists. split; [exact E|].
    match goal with |- content_of _ ?l = _ => generalize dependent l end.
    intros logs E. vm_compute in E. injection E as <-. vm_compute. reflexivity.
Defined.
