(* ===== verification/Hmap.v ===== *)
(** The bounded linked maps of golib's [hmap] package, as an interface.

    [hmap.LinkedMap], [hmap.IntKeyLinkedMap] and their relatives are outside the
    repository.  The meters use: a fresh map with an upper bound on its size
    ([SetMax]), [Get], [Put], [Remove], [Size] and iteration in insertion order,
    and they write through the pointers the map stores.  [LinkedMapLaws] states
    what is relied on: a full map gives up one entry for a new key, and which one is
    left open. *)

From S2P Require Import Prelude.

Section Assoc.
Context {K V : Type} `{EqDecision K}.
Fixpoint alookup (l : list (K * V)) (k : K) : option V :=
  match l with [] => None | (k', v) :: l => if decide (k' = k) then Some v else alookup l k end.
Definition awrite (l : list (K * V)) (k : K) (f : V -> V) : list (K * V) :=
  (fun p => if decide (p.1 = k) then (p.1, f p.2) else p) <$> l.
Definition aremove (l : list (K * V)) (k : K) : list (K * V) := filter (fun p => p.1 <> k) l.

Lemma alookup_Some l k v : NoDup l.*1 -> alookup l k = Some v <-> (k, v) ∈ l.
Proof.
  induction l as [|[k' w] l IH]; simpl; intros Hn.
  { split; [done|]. by intros ?%elem_of_nil. }
  inversion Hn as [|? ? Hk Hl]; subst. rewrite elem_of_cons. destruct (decide (k' = k)) as [->|Hne].
  - split; [intros [= ->]; by left|]. intros [[= ->]|Hi]; [done|].
    exfalso. apply Hk. by apply list_elem_of_fmap_2 with (f := fst) in Hi.
  - rewrite IH by done. naive_solver.
Qed.
Lemma alookup_None l k : alookup l k = None <-> k ∉ l.*1.
Proof.
  induction l as [|[k' w] l IH]; simpl; [split; [intros _; apply not_elem_of_nil|done]|].
  rewrite not_elem_of_cons. destruct (decide (k' = k)); naive_solver.
Qed.
Lemma alookup_app l1 l2 k :
  alookup (l1 ++ l2) k = match alookup l1 k with Some v => Some v | None => alookup l2 k end.
Proof. induction l1 as [|[k' w] l IH]; simpl; [done|]. by destruct (decide (k' = k)). Qed.
Lemma alookup_awrite l k f j :
  alookup (awrite l k f) j = if decide (j = k) then f <$> alookup l k else alookup l j.
Proof.
  induction l as [|[k' w] l IH]; simpl; [by destruct (decide (j = k))|].
  destruct (decide (k' = k)) as [->|Hne]; simpl.
  - destruct (decide (k = j)) as [->|]; [by rewrite decide_True|]. rewrite IH.
    by rewrite !decide_False by congruence.
  - destruct (decide (k' = j)) as [->|]; [by rewrite decide_False|]. by rewrite IH.
Qed.
Lemma awrite_keys l k f : (awrite l k f).*1 = l.*1.
Proof. unfold awrite. rewrite <- list_fmap_compose. apply list_fmap_ext. intros ? [] _. simpl. by case_decide. Qed.
Lemma alookup_aremove l k j :
  alookup (aremove l k) j = if decide (j = k) then None else alookup l j.
Proof.
  induction l as [|[k' w] l IH]; simpl; [by case_decide|]. unfold aremove in *.
  rewrite filter_cons. simpl. destruct (decide (k' <> k)) as [Hne|He]; simpl.
  - destruct (decide (k' = j)) as [->|]; [by rewrite decide_False|done].
  - rewrite IH. destruct (decide (j = k)); [done|]. rewrite decide_False; [done|]. intros ->. apply He; congruence.
Qed.
End Assoc.

Class LinkedMap (K : Type) := {
  lmap : Type -> Type;
  lm_new {V} (max : nat) : lmap V;
  lm_max {V} : lmap V -> nat;
  lm_set_max {V} : lmap V -> nat -> lmap V;
  lm_entries {V} : lmap V -> list (K * V);
  lm_put {V} : lmap V -> K -> V -> lmap V;
  lm_remove {V} : lmap V -> K -> lmap V;
  lm_write {V} : lmap V -> K -> (V -> V) -> lmap V
}.

Section Ops.
Context `{EqDecision K} {LM : LinkedMap K} {V : Type}.
Definition lm_get (m : lmap V) (k : K) : option V := alookup (lm_entries m) k.
Definition lm_size (m : lmap V) : nat := length (lm_entries m).
(** There is room for one more key; a bound of 0 is none. *)
Definition lm_room (m : lmap V) : Prop := lm_max m = 0 \/ lm_size m < lm_max m.

#[export] Instance lm_room_dec (m : lmap V) : Decision (lm_room m).
Proof. unfold lm_room. apply _. Defined.
(** No more keys than the bound allows: a bound that was never lowered. *)
Definition lm_within (m : lmap V) : Prop := lm_max m = 0 \/ lm_size m <= lm_max m.
(** [IsFull] *)
Definition lm_full (m : lmap V) : bool := negb (bool_decide (lm_room m)).

(** [if v := m.Get(k); v == nil { v = dflt; m.Put(k, v) }; f(v)] *)
Definition touch (m : lmap V) (k : K) (dflt : V) (f : V -> V) : lmap V :=
  match lm_get m k with
  | Some _ => lm_write m k f
  | None => lm_put m k (f dflt)
  end.
End Ops.

Class LinkedMapLaws (K : Type) `{EqDecision K} (LM : LinkedMap K) : Prop := {
  entries_new V n : lm_entries (lm_new (V := V) n) = [];
  max_new V n : lm_max (lm_new (V := V) n) = n;
  keys_NoDup V (m : lmap V) : NoDup (lm_entries m).*1;
  max_set_max V (m : lmap V) n : lm_max (lm_set_max m n) = n;
  entries_set_max V (m : lmap V) n : lm_entries (lm_set_max m n) = lm_entries m;
  max_put V (m : lmap V) k v : lm_max (lm_put m k v) = lm_max m;
  max_remove V (m : lmap V) k : lm_max (lm_remove m k) = lm_max m;
  max_write V (m : lmap V) k f : lm_max (lm_write m k f) = lm_max m;
  put_room V (m : lmap V) k v :
    lm_get m k = None -> lm_room m -> lm_entries (lm_put m k v) = lm_entries m ++ [(k, v)];
  put_full V (m : lmap V) k v :
    lm_get m k = None -> ~ lm_room m -> lm_within m ->
    exists l1 e l2, lm_entries m = l1 ++ e :: l2 /\ lm_entries (lm_put m k v) = l1 ++ l2 ++ [(k, v)];
  put_known V (m : lmap V) k v w :
    lm_get m k = Some w -> lm_entries (lm_put m k v) = awrite (lm_entries m) k (fun _ => v);
  put_get V (m : lmap V) k v : lm_get (lm_put m k v) k = Some v;
  put_old V (m : lmap V) k v j w :
    j <> k -> lm_get (lm_put m k v) j = Some w -> lm_get m j = Some w;
  remove_entries V (m : lmap V) k : lm_entries (lm_remove m k) = aremove (lm_entries m) k;
  write_entries V (m : lmap V) k f : lm_entries (lm_write m k f) = awrite (lm_entries m) k f
}.

Section Laws.
Context `{EqDecision K} {LM : LinkedMap K} {LL : LinkedMapLaws K LM} {V : Type}.
Implicit Types (m : lmap V).

Lemma get_new n k : lm_get (lm_new (V := V) n) k = None.
Proof. unfold lm_get. by rewrite entries_new. Qed.
Lemma get_remove m k j : lm_get (lm_remove m k) j = if decide (j = k) then None else lm_get m j.
Proof. unfold lm_get. by rewrite remove_entries, alookup_aremove. Qed.
Lemma get_write m k f j :
  lm_get (lm_write m k f) j = if decide (j = k) then f <$> lm_get m k else lm_get m j.
Proof. unfold lm_get. by rewrite write_entries, alookup_awrite. Qed.
Lemma get_put_known m k v w j :
  lm_get m k = Some w -> lm_get (lm_put m k v) j = if decide (j = k) then Some v else lm_get m j.
Proof.
  intros H. unfold lm_get. rewrite (put_known _ _ _ _ _ H), alookup_awrite. unfold lm_get in H. rewrite H. done.
Qed.
Lemma get_put_room m k v j :
  lm_get m k = None -> lm_room m ->
  lm_get (lm_put m k v) j = if decide (j = k) then Some v else lm_get m j.
Proof.
  intros Hn Hr. unfold lm_get in *. rewrite put_room, alookup_app by done. simpl.
  destruct (decide (j = k)) as [->|]; [by rewrite Hn, decide_True|].
  rewrite decide_False by done. by destruct (alookup _ j).
Qed.

(** A put gives up nothing, or, for a new key of a full map, one other key. *)
Lemma get_put_full m k v :
  lm_get m k = None -> ~ lm_room m -> lm_within m ->
  exists g, g <> k /\ is_Some (lm_get m g) /\ lm_get (lm_put m k v) g = None /\
    forall j, j <> k -> j <> g -> lm_get (lm_put m k v) j = lm_get m j.
Proof.
  intros Hn Hr Hw. destruct (put_full _ m k v Hn Hr Hw) as (l1 & [g w] & l2 & E1 & E2).
  pose proof (keys_NoDup _ m) as Hk. unfold lm_get in *. rewrite E2. rewrite E1 in *. clear E1 E2.
  rewrite fmap_app, fmap_cons in Hk. simpl in Hk. rewrite <- Permutation_middle in Hk.
  apply NoDup_cons in Hk as [Hg _]. rewrite <- fmap_app in Hg. apply alookup_None in Hg.
  assert (forall j, alookup (l1 ++ (g, w) :: l2) j = if decide (g = j) then Some w else alookup (l1 ++ l2) j) as He.
  { intros j. rewrite alookup_app in *. simpl. destruct (decide (g = j)) as [->|]; [|by rewrite alookup_app].
    by destruct (alookup l1 j). }
  assert (forall j, j <> k -> alookup (l1 ++ l2 ++ [(k, v)]) j = alookup (l1 ++ l2) j) as Hp.
  { intros j Hj. rewrite app_assoc, alookup_app. simpl. rewrite decide_False by congruence. by destruct (alookup _ j). }
  rewrite He in Hn. exists g. assert (g <> k) as Hgk by (intros ->; by rewrite decide_True in Hn). split; [done|].
  rewrite He, decide_True by done. split; [by eexists|]. split; [by rewrite Hp|].
  intros j Hj Hjg. rewrite Hp, He by done. by rewrite decide_False by congruence.
Qed.
Lemma get_put m k v :
  lm_within m ->
  exists gone : option K,
    (forall j, j <> k -> gone <> Some j -> lm_get (lm_put m k v) j = lm_get m j) /\
    (forall g, gone = Some g -> g <> k /\ is_Some (lm_get m g) /\ lm_get (lm_put m k v) g = None /\
       lm_get m k = None /\ ~ lm_room m).
Proof.
  intros Hw. destruct (lm_get m k) as [w|] eqn:E.
  { exists None. split; [|done]. intros j Hj _. by rewrite (get_put_known _ _ _ _ _ E), decide_False. }
  destruct (decide (lm_room m)) as [Hr|Hr].
  { exists None. split; [|done]. intros j Hj _. by rewrite get_put_room, decide_False. }
  destruct (get_put_full m k v E Hr Hw) as (g & H1 & H2 & H3 & H4). exists (Some g). split.
  - intros j Hj Hg. apply H4; congruence.
  - intros ? [= <-]. done.
Qed.
Lemma put_within m k v : lm_within m -> lm_within (lm_put m k v).
Proof.
  intros Hw. unfold lm_within, lm_size in *. rewrite max_put. destruct (lm_get m k) as [w|] eqn:E.
  { rewrite (put_known _ _ _ _ _ E). unfold awrite. by rewrite length_fmap. }
  destruct (decide (lm_room m)) as [Hr|Hr].
  - rewrite put_room, length_app by done. unfold lm_room, lm_size in Hr. simpl. lia.
  - destruct (put_full _ m k v E Hr Hw) as (l1 & e & l2 & E1 & ->). rewrite E1 in Hw.
    rewrite !length_app in *. simpl in *. lia.
Qed.
Lemma remove_within m k : lm_within m -> lm_within (lm_remove m k).
Proof.
  unfold lm_within, lm_size. rewrite max_remove, remove_entries. intros [?|H]; [by left|right].
  unfold aremove. etrans; [apply length_filter|done].
Qed.

(** The touched key gets the new value; the others keep theirs if there is room. *)
Lemma get_touch m k d f : lm_get (touch m k d f) k = Some (f (default d (lm_get m k))).
Proof.
  unfold touch. destruct (lm_get m k) eqn:E; simpl.
  - by rewrite get_write, decide_True, E.
  - apply put_get.
Qed.
Lemma get_touch_ne m k d f j :
  j <> k -> (is_Some (lm_get m k) \/ lm_room m) -> lm_get (touch m k d f) j = lm_get m j.
Proof.
  intros Hne Hr. unfold touch. destruct (lm_get m k) eqn:E.
  - by rewrite get_write, decide_False.
  - rewrite get_put_room, decide_False; [done..|]. destruct Hr as [[? ?]|]; [congruence|done].
Qed.
(** A full map may give up entries, but never invents one. *)
Lemma get_touch_old m k d f j w :
  j <> k -> lm_get (touch m k d f) j = Some w -> lm_get m j = Some w.
Proof.
  intros Hne. unfold touch. destruct (lm_get m k) eqn:E; [|by apply put_old].
  by rewrite get_write, decide_False.
Qed.
(** An invariant of the entries is kept by a touch that keeps it. *)
Lemma touch_invariant (P : V -> Prop) m k d f :
  (forall j v, lm_get m j = Some v -> P v) -> P d -> (forall v, P v -> P (f v)) ->
  forall j v, lm_get (touch m k d f) j = Some v -> P v.
Proof.
  intros Hm Hd Hf j v Hj. destruct (decide (j = k)) as [->|Hne].
  - rewrite get_touch in Hj. injection Hj as <-. apply Hf. destruct (lm_get m k) eqn:E; simpl; eauto.
  - apply get_touch_old in Hj; eauto.
Qed.

(** As long as the keys come from a list that fits, there is room. *)
Lemma room_within (ks : list K) m k :
  (lm_entries m).*1 ⊆ ks -> k ∈ ks -> length ks <= lm_max m ->
  is_Some (lm_get m k) \/ lm_room m.
Proof.
  intros Hs Hk Hl. destruct (lm_get m k) eqn:E; [left; eauto|right]. right.
  apply alookup_None in E. unfold lm_size.
  assert (length (k :: (lm_entries m).*1) <= length ks) as H.
  { apply submseteq_length, NoDup_submseteq; [constructor; [done|apply keys_NoDup]|].
    intros x [->|Hx]%elem_of_cons; [done|by apply Hs]. }
  simpl in H. rewrite length_fmap in H. lia.
Qed.
Lemma keys_touch m k d f (ks : list K) :
  (lm_entries m).*1 ⊆ ks -> k ∈ ks -> (lm_entries (touch m k d f)).*1 ⊆ ks.
Proof.
  intros Hs Hk j Hj. destruct (decide (j = k)) as [->|Hne]; [done|]. apply Hs.
  destruct (lm_get (touch m k d f) j) as [w|] eqn:E.
  - apply get_touch_old in E; [|done]. unfold lm_get in E.
    apply alookup_Some, list_elem_of_fmap_2 with (f := fst) in E; [done|apply keys_NoDup].
  - apply alookup_None in E. done.
Qed.
Lemma max_touch m k d f : lm_max (touch m k d f) = lm_max m.
Proof. unfold touch. destruct (lm_get m k); [apply max_write|apply max_put]. Qed.
Lemma size_touch m k d f :
  is_Some (lm_get m k) \/ lm_room m ->
  lm_size (touch m k d f) = if lm_get m k then lm_size m else S (lm_size m).
Proof.
  intros Hr. unfold touch, lm_size. destruct (lm_get m k) eqn:E.
  - rewrite write_entries. unfold awrite. by rewrite length_fmap.
  - rewrite put_room, length_app; [simpl; lia|done|]. destruct Hr as [[? ?]|]; [congruence|done].
Qed.
End Laws.

(** * Interned entries

    A table that refuses new keys when it is full.  The code's [intern] returns a
    pointer to the entry, or nil; here it tells whether there is one. *)
Section Intern.
Context `{EqDecision K} {LM : LinkedMap K} {V : Type}.
Definition intern (m : lmap V) (k : K) (new : V) : lmap V * bool :=
  match lm_get m k with
  | Some _ => (m, true)
  | None => if lm_full m then (m, false) else (lm_put m k new, true)
  end.
(** [if rec := m.intern(k); rec != nil { f(rec) }] *)
Definition on_entry (m : lmap V) (k : K) (new : V) (f : V -> V) : lmap V :=
  let '(m, ok) := intern m k new in if ok : bool then lm_write m k f else m.

(** The different keys in the order they first came, as many as fit. *)
Definition firsts (ks : list K) : list K := reverse (remove_dups (reverse ks)).
Definition first_keys (n : nat) (ks : list K) : list K := if n is 0 then firsts ks else take n (firsts ks).

Context {X : Type} (d : K -> V) (step : K -> X -> V -> V).
Definition on_sample (m : lmap V) (e : K * X) : lmap V := on_entry m e.1 (d e.1) (step e.1 e.2).
Definition samples_of (k : K) (es : list (K * X)) : list X := snd <$> filter (fun e => e.1 = k) es.
Definition total_of (k : K) (es : list (K * X)) : V := foldl (fun v x => step k x v) (d k) (samples_of k es).
Definition table_of (n : nat) (es : list (K * X)) : list (K * V) :=
  (fun k => (k, total_of k es)) <$> first_keys n es.*1.
End Intern.

Section InternLaws.
Context `{EqDecision K} {LM : LinkedMap K} {LL : LinkedMapLaws K LM} {V X : Type}.
Context (d : K -> V) (step : K -> X -> V -> V).
Implicit Types (m : lmap V) (es : list (K * X)).

Lemma firsts_snoc (ks : list K) k : firsts (ks ++ [k]) = if decide (k ∈ ks) then firsts ks else firsts ks ++ [k].
Proof.
  unfold firsts. rewrite reverse_snoc. simpl. destruct (decide_rel _ k (reverse ks)) as [Hin|Hin].
  - by rewrite decide_True by (by apply elem_of_reverse).
  - by rewrite decide_False, reverse_cons by (by rewrite <- elem_of_reverse).
Qed.
Lemma elem_of_firsts (ks : list K) k : k ∈ firsts ks <-> k ∈ ks.
Proof. unfold firsts. by rewrite elem_of_reverse, elem_of_remove_dups, elem_of_reverse. Qed.
Lemma firsts_NoDup (ks : list K) : NoDup (firsts ks).
Proof. unfold firsts. rewrite reverse_Permutation. apply NoDup_remove_dups. Qed.
Lemma first_keys_prefix n (ks : list K) : first_keys n ks `prefix_of` firsts ks.
Proof. destruct n; [done|]. exists (drop (S n) (firsts ks)). simpl. by rewrite take_drop. Qed.
(** A new key is taken exactly if the keys before leave room for it. *)
Lemma first_keys_snoc n (ks : list K) k :
  first_keys n (ks ++ [k]) =
    if decide (k ∈ first_keys n ks) then first_keys n ks
    else if decide (n = 0 \/ length (first_keys n ks) < n) then first_keys n ks ++ [k] else first_keys n ks.
Proof.
  unfold first_keys. rewrite firsts_snoc. destruct n as [|n].
  { destruct (decide (k ∈ ks)) as [Hk|Hk].
    - by rewrite decide_True by (by apply elem_of_firsts).
    - rewrite decide_False by (by rewrite elem_of_firsts). by rewrite decide_True by (by left). }
  rewrite length_take. destruct (decide (k ∈ ks)) as [Hk|Hk].
  - destruct (decide (k ∈ take (S n) (firsts ks))) as [Ht|Ht]; [done|]. rewrite decide_False; [done|].
    intros [|Hl]; [done|]. apply Ht. rewrite take_ge by lia. by apply elem_of_firsts.
  - rewrite decide_False.
    2:{ intros Ht. apply Hk, elem_of_firsts. rewrite <- (take_drop (S n)). apply elem_of_app. by left. }
    case_decide as Hl.
    + destruct Hl as [|Hl]; [done|]. rewrite !take_ge; [done|lia|rewrite length_app; simpl; lia].
    + rewrite take_app_le; [done|lia].
Qed.

Lemma samples_snoc k es k' x :
  samples_of k (es ++ [(k', x)]) = samples_of k es ++ (if decide (k' = k) then [x] else []).
Proof. unfold samples_of. rewrite filter_app, fmap_app, filter_cons. simpl. by destruct (decide (k' = k)). Qed.

Lemma first_keys_NoDup n (ks : list K) : NoDup (first_keys n ks).
Proof. destruct (first_keys_prefix n ks) as [r Hr]. pose proof (firsts_NoDup ks) as H. rewrite Hr in H. by apply NoDup_app in H as [H _]. Qed.
Lemma total_snoc_ne k es k' x : k' <> k -> total_of d step k (es ++ [(k', x)]) = total_of d step k es.
Proof. intros Hne. unfold total_of. by rewrite samples_snoc, decide_False, app_nil_r. Qed.
Lemma total_snoc_eq k es x : total_of d step k (es ++ [(k, x)]) = step k x (total_of d step k es).
Proof. unfold total_of. by rewrite samples_snoc, decide_True, foldl_app. Qed.

Lemma first_keys_room n (ks : list K) k :
  n = 0 \/ length (first_keys n ks) < n -> k ∈ ks -> k ∈ first_keys n ks.
Proof.
  intros Hr Hk. apply elem_of_firsts in Hk. unfold first_keys in *. destruct n as [|n]; [done|].
  destruct Hr as [|Hr]; [done|]. rewrite length_take in Hr. by rewrite take_ge by lia.
Qed.
Lemma total_unseen k es : k ∉ es.*1 -> total_of d step k es = d k.
Proof.
  intros Hk. unfold total_of, samples_of. assert (filter (fun e : K * X => e.1 = k) es = []) as ->; [|done].
  induction es as [|[j x] es IH]; [done|]. simpl in Hk. apply not_elem_of_cons in Hk as [Hj Hk].
  rewrite filter_cons, decide_False by (simpl; congruence). by apply IH.
Qed.

(** The table holds the totals of the first keys that fit, and of no others. *)
Lemma on_sample_entries n es m e :
  lm_max m = n -> lm_entries m = table_of d step n es ->
  lm_max (on_sample d step m e) = n /\ lm_entries (on_sample d step m e) = table_of d step n (es ++ [e]).
Proof.
  intros Hmax Hm. destruct e as [k x]. unfold on_sample, on_entry, intern. simpl.
  assert ((lm_entries m).*1 = first_keys n es.*1) as Hk.
  { rewrite Hm. unfold table_of. rewrite <- list_fmap_compose. by apply list_fmap_id. }
  unfold table_of. rewrite fmap_app. simpl. rewrite first_keys_snoc.
  assert (forall ks : list K, k ∉ ks -> (fun j => (j, total_of d step j (es ++ [(k, x)]))) <$> ks =
                               (fun j => (j, total_of d step j es)) <$> ks) as Hne.
  { intros ks Hks. apply list_fmap_ext. intros i j Hj. rewrite total_snoc_ne; [done|]. intros ->.
    by apply Hks, list_elem_of_lookup_2 with i. }
  destruct (lm_get m k) as [v|] eqn:E.
  - assert (k ∈ first_keys n es.*1) as Hin.
    { rewrite <- Hk. destruct (decide (k ∈ (lm_entries m).*1)) as [|H]; [done|]. apply alookup_None in H.
      unfold lm_get in E. congruence. }
    rewrite decide_True, max_write, write_entries by done. split; [done|]. rewrite Hm. unfold awrite, table_of.
    rewrite <- list_fmap_compose. apply list_fmap_ext. intros i j _. simpl. case_decide as Hj.
    + subst j. by rewrite total_snoc_eq.
    + by rewrite total_snoc_ne.
  - assert (k ∉ first_keys n es.*1) as Hin by (rewrite <- Hk; by apply alookup_None).
    assert (lm_room m <-> n = 0 \/ length (first_keys n es.*1) < n) as Hroom.
    { unfold lm_room, lm_size. by rewrite Hmax, <- Hk, length_fmap. }
    rewrite decide_False by done. unfold lm_full. case_bool_decide as Hr; simpl.
    + rewrite (decide_True (P := n = 0 \/ _)) by (by apply Hroom).
      rewrite max_write, max_put, write_entries, put_room by done. split; [done|]. rewrite fmap_app, Hne by done.
      unfold awrite. rewrite fmap_app, Hm. simpl. rewrite decide_True by done. f_equal.
      * unfold table_of. rewrite <- list_fmap_compose. apply list_fmap_ext. intros i j Hj. simpl.
        rewrite decide_False; [done|]. intros ->. by apply Hin, list_elem_of_lookup_2 with i.
      * rewrite total_snoc_eq. do 3 f_equal. symmetry. apply total_unseen. intros Hes. apply Hin.
        apply first_keys_room; [by apply Hroom|done].
    + rewrite (decide_False (P := n = 0 \/ _)) by (by intros ?%Hroom). split; [done|]. rewrite Hne by done. exact Hm.
Qed.
End InternLaws.

(** A list with first-in first-out replacement satisfies the laws. *)
Module ListMap.
Section Impl.
Context {K : Type} `{EqDecision K}.
Record t (V : Type) := mk { max : nat; entries : list (K * V); nodup : NoDup entries.*1 }.
Arguments mk {V}. Arguments max {V}. Arguments entries {V}. Arguments nodup {V}.

Definition evict {V} (m : nat) (l : list (K * V)) : list (K * V) :=
  if bool_decide (m <> 0 /\ m <= length l) then tail l else l.
Lemma evict_NoDup {V} m (l : list (K * V)) : NoDup l.*1 -> NoDup (evict m l).*1.
Proof. intros H. unfold evict. case_bool_decide; [|done]. destruct l; [done|]. by inversion H. Qed.

Definition put_list {V} (m : nat) (l : list (K * V)) (k : K) (v : V) : list (K * V) :=
  match alookup l k with Some _ => awrite l k (fun _ => v) | None => evict m l ++ [(k, v)] end.
Lemma put_NoDup {V} m (l : list (K * V)) k v : NoDup l.*1 -> NoDup (put_list m l k v).*1.
Proof.
  intros H. unfold put_list. destruct (alookup l k) eqn:E; [by rewrite awrite_keys|].
  rewrite fmap_app. apply NoDup_app. split; [by apply evict_NoDup|]. split; [|apply NoDup_singleton].
  intros x Hx ->%list_elem_of_singleton. apply alookup_None in E. apply E. simpl in Hx.
  unfold evict in Hx. case_bool_decide; [|done]. destruct l; [done|]. by right.
Qed.
Lemma remove_NoDup {V} (l : list (K * V)) k : NoDup l.*1 -> NoDup (aremove l k).*1.
Proof.
  intros H. unfold aremove. induction l as [|[a b] l IH]; [done|]. inversion H as [|? ? Ha Hl]; subst.
  rewrite filter_cons. destruct (decide _); [|by apply IH]. simpl. constructor; [|by apply IH].
  intros Hi. apply Ha. apply list_elem_of_fmap in Hi as (p & -> & Hp). apply list_elem_of_filter in Hp as [_ Hp].
  by apply list_elem_of_fmap_2.
Qed.
Lemma write_NoDup {V} (l : list (K * V)) k f : NoDup l.*1 -> NoDup (awrite l k f).*1.
Proof. by rewrite awrite_keys. Qed.

#[export] Instance list_map : LinkedMap K := {|
  lmap := t;
  lm_new V n := mk n [] (NoDup_nil_2 (A := K));
  lm_max V := max;
  lm_set_max V m n := mk n (entries m) (nodup m);
  lm_entries V := entries;
  lm_put V m k v := mk (max m) (put_list (max m) (entries m) k v) (put_NoDup _ _ _ _ (nodup m));
  lm_remove V m k := mk (max m) (aremove (entries m) k) (remove_NoDup _ _ (nodup m));
  lm_write V m k f := mk (max m) (awrite (entries m) k f) (write_NoDup _ _ _ (nodup m))
|}.
#[export] Instance list_map_laws : LinkedMapLaws K list_map.
Proof.
  split; try done.
  - intros V [] ; done.
  - intros V m k v Hk Hr. unfold lm_get in Hk. simpl in *. unfold put_list. rewrite Hk. f_equal.
    unfold evict. unfold lm_room, lm_size in Hr. simpl in Hr. rewrite bool_decide_eq_false_2; [done|].
    unfold lm_size in *. simpl in *. lia.
  - intros V m k v Hk Hr Hw. unfold lm_get in Hk. unfold lm_room, lm_within, lm_size in *. simpl in *. unfold put_list.
    rewrite Hk. unfold evict. rewrite bool_decide_eq_true_2 by lia. destruct (entries m) as [|e l]; simpl in *; [lia|].
    by exists [], e, l.
  - intros V m k v w. unfold lm_get. simpl. unfold put_list. by intros ->.
  - intros V m k v. unfold lm_get. simpl. unfold put_list. destruct (alookup (entries m) k) eqn:E.
    + by rewrite alookup_awrite, decide_True, E.
    + rewrite alookup_app. simpl. rewrite decide_True by done.
      assert (alookup (evict (max m) (entries m)) k = None) as ->; [|done].
      apply alookup_None. apply alookup_None in E. intros Hi. apply E.
      unfold evict in Hi. case_bool_decide; [|done]. destruct (entries m); [done|]. by right.
  - intros V m k v j w Hne. unfold lm_get. simpl. unfold put_list.
    destruct (alookup (entries m) k) eqn:E; [by rewrite alookup_awrite, decide_False|].
    rewrite alookup_app. simpl. rewrite (decide_False (P := k = j)) by done.
    intros H. assert (alookup (evict (max m) (entries m)) j = Some w) as H' by (by destruct (alookup _ j)).
    unfold evict in H'. case_bool_decide; [|done]. pose proof (nodup m) as Hn.
    destruct (entries m) as [|[a b] l]; [done|]. simpl in *. inversion Hn as [|? ? Ha Hl]; subst.
    destruct (decide (a = j)) as [->|]; [|done]. apply alookup_Some in H'; [|done].
    exfalso. apply Ha. by apply list_elem_of_fmap_2 with (f := fst) in H'.
Qed.
End Impl.
End ListMap.
