(* ===== verification/Accumulator.v ===== *)
(** What a meter promises to the counter tasks, as two interfaces.

    - [BucketMeter]: the meter adds samples to its current bucket and hands the
      bucket out, going on with an empty one.  [segments_run]: the buckets handed
      out, with the current one, summarise consecutive segments of the samples:
      no sample is lost or counted twice.
    - [KeyedMeter]: the meter keeps statistics by key ([touch] on a bounded linked
      map).  [stat_totals]: every key has the totals of exactly its own samples
      since the last reset, as long as the keys fit the map. *)

From S2P Require Import Prelude Hmap.

(** * Buckets *)

Class BucketMeter (M X B : Type) := {
  bm_add : M -> X -> M;
  bm_drain : M -> B * M;
  bm_reset : M -> M;
  bm_bucket : M -> B;
  bm_empty : B;
  bm_step : X -> B -> B
}.

(** [bm_reset] clears the keyed statistics and leaves the bucket alone. *)
Class BucketMeterLaws (M X B : Type) (BM : BucketMeter M X B) : Prop := {
  bucket_add m x : bm_bucket (bm_add m x) = bm_step x (bm_bucket m);
  drain_fst m : (bm_drain m).1 = bm_bucket m;
  drain_snd m : bm_bucket (bm_drain m).2 = bm_empty;
  bucket_reset m : bm_bucket (bm_reset m) = bm_bucket m
}.

Inductive bop (X : Type) := BAdd (x : X) | BDrain | BReset.
Arguments BAdd {X} x. Arguments BDrain {X}. Arguments BReset {X}.

(** The samples added. *)
Definition samples {X} (os : list (bop X)) : list X :=
  omap (fun o => match o with BAdd x => Some x | _ => None end) os.
(** The samples added since the last reset. *)
Definition since_reset {X} (os : list (bop X)) : list X :=
  foldl (fun xs o => match o with BAdd x => xs ++ [x] | BDrain => xs | BReset => [] end) [] os.

Section Buckets.
Context {M X B : Type} {BM : BucketMeter M X B} {BL : BucketMeterLaws M X B BM}.

(** The meter and the buckets it has handed out. *)
Definition bexec (s : M * list B) (o : bop X) : M * list B :=
  match o with
  | BAdd x => (bm_add s.1 x, s.2)
  | BDrain => ((bm_drain s.1).2, s.2 ++ [(bm_drain s.1).1])
  | BReset => (bm_reset s.1, s.2)
  end.
Definition brun (m : M) (os : list (bop X)) : M * list B := foldl bexec (m, []) os.
Definition summary (xs : list X) : B := foldl (fun b x => bm_step x b) bm_empty xs.

Lemma segments_run m os :
  bm_bucket m = bm_empty ->
  exists segs, concat segs = samples os /\
    (brun m os).2 ++ [bm_bucket (brun m os).1] = summary <$> segs.
Proof.
  intros Hm. induction os as [|o os IH] using rev_ind.
  { exists [[]]. split; [done|]. simpl. by rewrite Hm. }
  destruct IH as (segs & Hc & Hs). unfold brun, samples in *.
  rewrite foldl_app, omap_app. set (s := foldl bexec (m, []) os) in *. clearbody s.
  destruct o as [x| |]; simpl.
  - destruct segs as [|seg l _] using rev_ind; [by destruct s as [? []]|].
    rewrite fmap_app in Hs. simpl in Hs. apply app_inj_2 in Hs as [Hl Hb]; [|done].
    injection Hb as Hb. exists (l ++ [seg ++ [x]]). split.
    + rewrite <- Hc, !concat_app. simpl. by rewrite !app_nil_r, app_assoc.
    + rewrite fmap_app, Hl. simpl. unfold summary. rewrite foldl_app, bucket_add, Hb. done.
  - exists (segs ++ [[]]). split; [by rewrite concat_app, Hc; simpl|].
    rewrite fmap_app, <- Hs, drain_fst, drain_snd. done.
  - exists segs. split; [by rewrite Hc, app_nil_r|]. by rewrite bucket_reset.
Qed.
(** The same, for summaries in closed form. *)
Lemma segments_totals (f : list X -> B) m os :
  bm_bucket m = bm_empty -> (forall xs, summary xs = f xs) ->
  exists segs, concat segs = samples os /\
    (brun m os).2 ++ [bm_bucket (brun m os).1] = f <$> segs.
Proof.
  intros Hm Hf. destruct (segments_run m os Hm) as (segs & Hc & Hs). exists segs.
  split; [done|]. rewrite Hs. apply list_fmap_ext. intros i xs _. apply Hf.
Qed.
End Buckets.

(** * Keyed statistics *)

Section Keyed.
Context {K V X : Type} `{EqDecision K} {LM : LinkedMap K} {LL : LinkedMapLaws K LM}.
Variable d : V.
Variable step : X -> V -> V.

Definition add_key (m : lmap V) (kx : K * X) : lmap V := touch m kx.1 d (step kx.2).
(** The samples of a key. *)
Definition of_key (k : K) (es : list (K * X)) : list X := snd <$> filter (fun e => e.1 = k) es.
Definition fold_key (xs : list X) : V := foldl (fun v x => step x v) d xs.

Lemma of_key_snoc k es k' x :
  of_key k (es ++ [(k', x)]) = of_key k es ++ (if decide (k' = k) then [x] else []).
Proof.
  unfold of_key. rewrite filter_app, fmap_app, filter_cons. simpl.
  by destruct (decide (k' = k)).
Qed.

(** The keys fit [n] entries; a map has that capacity (a bound of 0 is none). *)
Definition keys_fit (n : nat) (es : list (K * X)) : Prop :=
  exists ks, length ks <= n /\ Forall (fun e => e.1 ∈ ks) es.
Definition capacity (n : nat) (m : lmap V) : Prop := lm_max m = 0 \/ n <= lm_max m.

(** The map of the samples [es]. *)
Record keyed (n : nat) (es : list (K * X)) (m : lmap V) : Prop := {
  kd_cap : capacity n m;
  kd_keys ks : Forall (fun e => e.1 ∈ ks) es -> (lm_entries m).*1 ⊆ ks;
  kd_get k : lm_get m k = match of_key k es with [] => None | xs => Some (fold_key xs) end
}.

Lemma keyed_nil n m : capacity n m -> lm_entries m = [] -> keyed n [] m.
Proof.
  intros Hc He. split; [done| |].
  - intros ks _. rewrite He. apply list_subseteq_nil.
  - intros k. unfold lm_get. by rewrite He.
Qed.
Lemma keyed_new n : keyed n [] (lm_new n).
Proof. apply keyed_nil; [right; by rewrite max_new|apply entries_new]. Qed.

Lemma keyed_room n es m k x :
  keys_fit n (es ++ [(k, x)]) -> keyed n es m -> is_Some (lm_get m k) \/ lm_room m.
Proof.
  intros (ks & Hn & [He [Hk _]%Forall_cons]%Forall_app) Hm.
  destruct (kd_cap _ _ _ Hm) as [Hc|Hc]; [right; by left|].
  apply (room_within ks); [by apply (kd_keys _ _ _ Hm)|done|lia].
Qed.

Lemma keyed_add n es m k x :
  keys_fit n (es ++ [(k, x)]) -> keyed n es m -> keyed n (es ++ [(k, x)]) (add_key m (k, x)).
Proof.
  intros Hf Hm. pose proof (keyed_room n es m k x Hf Hm) as Hr. unfold add_key. simpl. split.
  - unfold capacity. rewrite max_touch. apply Hm.
  - intros ks [He [Hk _]%Forall_cons]%Forall_app. apply keys_touch; [by apply Hm|done].
  - intros j. rewrite of_key_snoc. destruct (decide (k = j)) as [->|Hne].
    + rewrite get_touch, (kd_get _ _ _ Hm). unfold fold_key.
      destruct (of_key j es) as [|y ys]; simpl; [done|]. by rewrite foldl_app.
    + rewrite app_nil_r, get_touch_ne; [apply Hm|congruence|done].
Qed.

Lemma keys_fit_prefix n es fs : keys_fit n (es ++ fs) -> keys_fit n es.
Proof. intros (ks & Hn & [He _]%Forall_app). by exists ks. Qed.
End Keyed.

(** * Meters with keyed statistics *)

(** Entries of a keyed statistic: what the samples of the key amount to. *)
Definition entry_of {X V} (f : list X -> V) (xs : list X) : option V :=
  match xs with [] => None | _ => Some (f xs) end.

(** [km_key] names the entry a sample goes to, if any. *)
Class KeyedMeter (M X K V : Type) {LM : LinkedMap K} := {
  km_stat : M -> lmap V;
  km_bound : nat;
  km_key : X -> option K;
  km_dflt : V;
  km_step : X -> V -> V
}.
Class KeyedMeterLaws (M X B K V : Type) `{EqDecision K} (LM : LinkedMap K)
    (BM : BucketMeter M X B) (KM : KeyedMeter M X K V) : Prop := {
  stat_add m x :
    km_stat (bm_add m x) =
      match km_key x with
      | Some k => touch (km_stat m) k km_dflt (km_step x)
      | None => km_stat m
      end;
  stat_drain m : km_stat (bm_drain m).2 = km_stat m;
  stat_reset m :
    capacity km_bound (km_stat m) ->
    capacity km_bound (km_stat (bm_reset m)) /\ lm_entries (km_stat (bm_reset m)) = []
}.

Section KeyedRun.
Context {M X B K V : Type} `{EqDecision K} {LM : LinkedMap K} {LL : LinkedMapLaws K LM}.
Context {BM : BucketMeter M X B} {KM : KeyedMeter M X K V} {KL : KeyedMeterLaws M X B K V LM BM KM}.

Definition keyed_samples (xs : list X) : list (K * X) :=
  omap (fun x => (fun k => (k, x)) <$> km_key x) xs.

Lemma stat_run m os :
  keyed km_dflt km_step km_bound [] (km_stat m) ->
  capacity km_bound (km_stat (brun m os).1) /\
  (keys_fit km_bound (keyed_samples (since_reset os)) ->
   keyed km_dflt km_step km_bound (keyed_samples (since_reset os)) (km_stat (brun m os).1)).
Proof.
  intros Hm. induction os as [|o os IH] using rev_ind; [split; [apply Hm|done]|].
  destruct IH as [Hc IH]. unfold brun, since_reset in *. rewrite !foldl_app in *.
  set (s := foldl bexec (m, []) os) in *. clearbody s.
  set (xs := foldl _ [] os) in *. clearbody xs. destruct o as [x| |]; simpl in *.
  - rewrite stat_add. unfold keyed_samples. rewrite omap_app. simpl.
    destruct (km_key x) as [k|]; simpl; [|by rewrite app_nil_r].
    split; [unfold capacity; by rewrite max_touch|]. intros Hl.
    apply keyed_add; [done|]. by eapply IH, keys_fit_prefix.
  - by rewrite stat_drain.
  - destruct (stat_reset s.1 Hc) as [Hc' He]. split; [done|]. intros _. by apply keyed_nil.
Qed.

(** The samples of a key, as a filter. *)
Lemma of_key_filter xs k : of_key k (keyed_samples xs) = filter (fun x => km_key x = Some k) xs.
Proof.
  induction xs as [|x xs IH] using rev_ind; [done|].
  unfold keyed_samples in *. rewrite omap_app, filter_app, <- IH, filter_cons, filter_nil. simpl.
  destruct (km_key x) as [j|]; simpl.
  - rewrite of_key_snoc. destruct (decide (j = k)) as [->|Hne].
    + by rewrite decide_True.
    + by rewrite decide_False by congruence.
  - by rewrite !app_nil_r.
Qed.

(** Every key's entry has the totals of exactly its samples since the last reset. *)
Lemma stat_totals (f : list X -> V) m os k :
  capacity km_bound (km_stat m) -> lm_entries (km_stat m) = [] ->
  (forall xs, fold_key km_dflt km_step xs = f xs) ->
  keys_fit km_bound (keyed_samples (since_reset os)) ->
  lm_get (km_stat (brun m os).1) k = entry_of f (of_key k (keyed_samples (since_reset os))).
Proof.
  intros Hc He Hs Hf. pose proof (stat_run m os (keyed_nil _ _ _ _ Hc He)) as [_ Hr].
  rewrite (kd_get _ _ _ _ _ (Hr Hf)).
  unfold entry_of. case_match; [done|]. by rewrite Hs.
Qed.
End KeyedRun.

(** * Sums *)

Definition zsum {X} (f : X -> Z) (xs : list X) : Z := foldr (fun x n => (f x + n)%Z) 0%Z xs.
Lemma zsum_snoc {X} (f : X -> Z) xs x : zsum f (xs ++ [x]) = (zsum f xs + f x)%Z.
Proof. unfold zsum. induction xs as [|y xs IH]; simpl; lia. Qed.
(** How many samples pass a test. *)
Definition zcount {X} (f : X -> bool) (xs : list X) : Z := zsum (fun x => if f x then 1 else 0)%Z xs.
Lemma zcount_snoc {X} (f : X -> bool) xs x :
  zcount f (xs ++ [x]) = (zcount f xs + if f x then 1 else 0)%Z.
Proof. apply zsum_snoc. Qed.
Lemma wrap_s_add_l w a b : (0 < w)%Z -> wrap_s w (wrap_s w a + b) = wrap_s w (a + b).
Proof.
  intros Hw. apply wrap_s_eq; [done|]. by rewrite Zplus_mod, wrap_s_mod, <- Zplus_mod.
Qed.
