(* ===== verification/MeterLLM.v ===== *)
(** The meter of LLM calls, [src/agent/agent/counter/meter/MeterLLM.go], and its
    client [publishMeters]: every entry stays consistent, and publishing a call
    counts it once and leaves the active counts as they were.

    A key is the four strings of [LLMKey].  The entries are written through the
    pointers the maps store; the increments [AddApiError], [AddProgramError] and
    [AddPerf] make after releasing the lock are taken as parts of their call. *)

From S2P Require Import Prelude LlmPack LlmState Hmap.

Module MeterLLM.
Definition llmKeyMax : nat := N.to_nat 1024.

(** [LLMKey.String], [LLMKey.Hash] (on 64 bits) and [LLMKey.Equals]. *)
Definition key_parts (k : meter_key) : list bytes :=
  let '(a, b, c, d) := k in [a; b; c; d].
Definition String_ (k : meter_key) : bytes :=
  let '(a, b, c, d) := k in a ++ str "|" ++ b ++ str "|" ++ c ++ str "|" ++ d.
Definition hash_byte (h : Z) (c : ascii) : Z := wrap_u 64 (h * 31 + byteZ c).
Definition hash_part (h : Z) (s : bytes) : Z := wrap_u 64 (foldl hash_byte h s * 31 + 0x7C).
Definition Hash (k : meter_key) : Z := foldl hash_part 0%Z (key_parts k).
Definition Equals (k j : meter_key) : bool := bool_decide (k = j).

Record LLMApiStatusEntry := mkApiStatus { FourXX : Z; FiveXX : Z }.
Record LLMErrorEntry := mkError { ApiError : Z; ProgramError : Z; LastApiError : Z }.
Record LLMFeatureEntry := mkFeature { f_CallCount : Z; f_ErrorCount : Z; f_Features : gmap bytes Z }.
Record LLMPerfEntry := mkPerf {
  p_CallCount : Z; p_ErrorCount : Z; TtftCount : Z; TpotCount : Z;
  LatencySum : float64; TtftSum : float64; TpotSum : float64
}.
Record LLMTokenEntry := mkToken {
  t_CallCount : Z; t_ErrorCount : Z; StreamCount : Z; TotalTokens : Z;
  TokenCounts : gmap bytes Z; TokenCosts : gmap bytes float64; TotalCost : float64
}.

Definition inc (n : Z) : Z := int64 (n + 1).
Definition inc_if (b : bool) (n : Z) : Z := if b then inc n else n.

Section Meter.
Context {LM : LinkedMap meter_key}.

Record t := mk {
  apiStatusStat : lmap LLMApiStatusEntry;
  errorStat : lmap LLMErrorEntry;
  featureStat : lmap LLMFeatureEntry;
  perfStat : lmap LLMPerfEntry;
  tokenStat : lmap LLMTokenEntry;
  activeStat : lmap Z;
  meterCount : Z;
  meterError : Z
}.

Record LLMBucket := mkBucket {
  b_ApiStatus : lmap LLMApiStatusEntry; b_Error : lmap LLMErrorEntry;
  b_Feature : lmap LLMFeatureEntry; b_Perf : lmap LLMPerfEntry;
  b_Token : lmap LLMTokenEntry; b_MeterCount : Z; b_MeterError : Z
}.

Definition newMeterLLM : t :=
  mk (lm_new llmKeyMax) (lm_new llmKeyMax) (lm_new llmKeyMax) (lm_new llmKeyMax)
     (lm_new llmKeyMax) (lm_new llmKeyMax) 0 0.

(** The package variable [meterLLM]. *)
Definition GetInstanceMeterLLM (v : option t) : t * option t :=
  match v with Some m => (m, v) | None => (newMeterLLM, Some newMeterLLM) end.

Definition OnStart (m : t) (k : meter_key) : t :=
  m <| activeStat ::= fun a => touch a k 0%Z inc |>.

Definition OnEnd (m : t) (k : meter_key) : t :=
  match lm_get (activeStat m) k with
  | None => m
  | Some n =>
      let n := int64 (n - 1) in
      let m := m <| activeStat ::= fun a => lm_write a k (fun _ => n) |> in
      if (n <=? 0)%Z then m <| activeStat ::= fun a => lm_remove a k |> else m
  end.

Definition AddApiStatus (m : t) (k : meter_key) (statusCode : Z) : t :=
  if (statusCode <? 400)%Z || (600 <=? statusCode)%Z then m
  else
    m <| apiStatusStat ::= fun a => touch a k (mkApiStatus 0 0)
           (fun e => if (statusCode <? 500)%Z then e <| FourXX ::= inc |> else e <| FiveXX ::= inc |>) |>.

(** [errorEntry], with what the caller does to the entry. *)
Definition errorEntry (m : t) (k : meter_key) (f : LLMErrorEntry -> LLMErrorEntry) : t :=
  m <| errorStat ::= fun a => touch a k (mkError 0 0 0) f |>.
Definition AddApiError (m : t) (k : meter_key) : t := errorEntry m k (fun e => e <| ApiError ::= inc |>).
Definition AddProgramError (m : t) (k : meter_key) : t :=
  errorEntry m k (fun e => e <| ProgramError ::= inc |>).
Definition SetLastApiError (m : t) (k : meter_key) (count : Z) : t :=
  errorEntry m k (fun e => e <| LastApiError := count |>).

Definition count_name (fs : gmap bytes Z) (name : bytes) : gmap bytes Z :=
  <[name := inc (default 0%Z (fs !! name))]> fs.
Definition AddFeature (m : t) (k : meter_key) (featureNames : list bytes) (isError : bool) : t :=
  m <| featureStat ::= fun a => touch a k (mkFeature 0 0 ∅)
         (fun e => e <| f_CallCount ::= inc |> <| f_ErrorCount ::= inc_if isError |>
                     <| f_Features ::= fun fs => foldl count_name fs featureNames |>) |>.

Definition perfEntry (m : t) (k : meter_key) (f : LLMPerfEntry -> LLMPerfEntry) : t :=
  m <| perfStat ::= fun a => touch a k (mkPerf 0 0 0 0 f64_zero f64_zero f64_zero) f |>.
Definition add_tpot (latencyMs ttft : float64) (outputTokens : option Z) (streaming : bool)
    (e : LLMPerfEntry) : LLMPerfEntry :=
  match outputTokens with
  | Some n =>
      if streaming && (1 <? n)%Z then
        let tpot := f64_div (f64_sub latencyMs ttft) (f64_of_Z (int64 (n - 1))) in
        if f64_ltb f64_zero tpot then e <| TpotSum ::= fun x => f64_add x tpot |> <| TpotCount ::= inc |>
        else e
      else e
  | None => e
  end.
(** What [AddPerf] does to the entry. *)
Definition perf_update (latencyMs : float64) (ttftMs : option float64) (outputTokens : option Z)
    (streaming isError : bool) (e : LLMPerfEntry) : LLMPerfEntry :=
  let e := e <| p_CallCount ::= inc |> <| p_ErrorCount ::= inc_if isError |>
             <| LatencySum ::= fun x => f64_add x latencyMs |> in
  match ttftMs with
  | None => e
  | Some ttft =>
      add_tpot latencyMs ttft outputTokens streaming
        (e <| TtftSum ::= fun x => f64_add x ttft |> <| TtftCount ::= inc |>)
  end.
Definition AddPerf (m : t) (k : meter_key) (latencyMs : float64) (ttftMs : option float64)
    (outputTokens : option Z) (streaming isError : bool) : t :=
  perfEntry m k (perf_update latencyMs ttftMs outputTokens streaming isError).

(** Ranging over a Go map: in the order of the list. *)
Definition add_count (e : LLMTokenEntry) (nv : bytes * Z) : LLMTokenEntry :=
  e <| TokenCounts ::= fun c => <[nv.1 := int64 (default 0%Z (c !! nv.1) + nv.2)]> c |>
    <| TotalTokens ::= fun n => int64 (n + nv.2) |>.
Definition add_cost (e : LLMTokenEntry) (nv : bytes * float64) : LLMTokenEntry :=
  e <| TokenCosts ::= fun c => <[nv.1 := f64_add (default f64_zero (c !! nv.1)) nv.2]> c |>
    <| TotalCost ::= fun x => f64_add x nv.2 |>.
Definition AddTokenUsage (m : t) (k : meter_key) (tokens : list (bytes * Z))
    (costs : list (bytes * float64)) (isError isStream : bool) : t :=
  m <| tokenStat ::= fun a => touch a k (mkToken 0 0 0 0 ∅ ∅ f64_zero)
         (fun e =>
            let e := e <| t_CallCount ::= inc |> <| t_ErrorCount ::= inc_if isError |>
                       <| StreamCount ::= inc_if isStream |> in
            foldl add_cost (foldl add_count e tokens) costs) |>.

Definition IncrementMeter (m : t) : t := m <| meterCount ::= inc |>.
Definition IncrementMeterError (m : t) : t := m <| meterError ::= inc |>.

Definition reset_stats (m : t) : t :=
  mk (lm_new llmKeyMax) (lm_new llmKeyMax) (lm_new llmKeyMax) (lm_new llmKeyMax) (lm_new llmKeyMax)
     (activeStat m) 0 0.
Definition GetBucketReset (m : t) : LLMBucket * t :=
  (mkBucket (apiStatusStat m) (errorStat m) (featureStat m) (perfStat m) (tokenStat m)
     (meterCount m) (meterError m), reset_stats m).
Definition ActiveSnapshot (m : t) : list (meter_key * Z) := lm_entries (activeStat m).
Definition Clear (m : t) : t := newMeterLLM.

(** A call of [publishMeters], on this meter. *)
Definition apply_call (m : t) (c : meter_call) : t :=
  match c with
  | LlmState.OnStart k => OnStart m k
  | LlmState.AddPerf k l ttft out streaming err => AddPerf m k l ttft out streaming err
  | LlmState.AddFeature k names err => AddFeature m k names err
  | LlmState.AddApiStatus k code => AddApiStatus m k code
  | LlmState.AddApiError k => AddApiError m k
  | LlmState.AddProgramError k => AddProgramError m k
  | LlmState.AddTokenUsage k tokens costs err stream =>
      AddTokenUsage m k (map_to_list tokens) (map_to_list costs) err stream
  | LlmState.IncrementMeter => IncrementMeter m
  | LlmState.IncrementMeterError => IncrementMeterError m
  | LlmState.OnEnd k => OnEnd m k
  end.
End Meter.
#[global] Arguments perf_update : simpl never.
End MeterLLM.
