(* ===== verification/MeterLLMFacts.v ===== *)
(** The meter of LLM calls: consistent entries, balanced publications, and no
    count lost between draining and adding. *)

From S2P Require Import Prelude LlmPack LlmState Hmap MeterLLM.
Import MeterLLM.

Section Facts.
Context {LM : LinkedMap meter_key} {LL : LinkedMapLaws meter_key LM}.

(** * The token entries *)

(** [TotalTokens] is the sum of the named counts, on 64 bits. *)
Definition token_ok (e : LLMTokenEntry) : Prop := TotalTokens e = int64 (map_sum (TokenCounts e)).

Lemma int64_congr a b : (a mod 2 ^ 64 = b mod 2 ^ 64)%Z -> int64 a = int64 b.
Proof. apply wrap_s_eq. lia. Qed.
Lemma int64_mod a : (int64 a mod 2 ^ 64 = a mod 2 ^ 64)%Z.
Proof. by apply wrap_s_mod. Qed.

Lemma add_inc_mod a b : ((a + inc b) mod 2 ^ 64 = ((a + b) + 1) mod 2 ^ 64)%Z.
Proof. unfold inc. rewrite Zplus_mod, int64_mod, <- Zplus_mod. f_equal. lia. Qed.

Lemma add_count_ok e nv : token_ok e -> token_ok (add_count e nv).
Proof.
  unfold token_ok, add_count. destruct nv as [name n]. simpl. intros ->.
  rewrite map_sum_insert. set (s := map_sum _). set (c := default 0%Z _).
  apply int64_congr. rewrite Zplus_mod, int64_mod, <- Zplus_mod.
  rewrite (Zplus_mod (s - c)), int64_mod, <- Zplus_mod. f_equal. lia.
Qed.

Lemma add_usage_ok e tokens costs err stream :
  token_ok e ->
  token_ok (foldl add_cost (foldl add_count
    (e <| t_CallCount ::= inc |> <| t_ErrorCount ::= inc_if err |> <| StreamCount ::= inc_if stream |>)
    tokens) costs).
Proof.
  intros He.
  assert (forall l e, token_ok e -> token_ok (foldl add_cost e l)) as Hc.
  { induction l as [|nv l IH]; intros e' H; [done|]. by apply IH. }
  assert (forall l e, token_ok e -> token_ok (foldl add_count e l)) as Hn.
  { induction l as [|nv l IH]; intros e' H; [done|]. by apply IH, add_count_ok. }
  by apply Hc, Hn.
Qed.

(** ** Operations *)
Inductive op :=
| OCall (c : meter_call) | OSetLast (k : meter_key) (n : Z)
| OUsage (k : meter_key) (tokens : list (bytes * Z)) (costs : list (bytes * float64)) (err stream : bool)
| OReset | OClear.

(** The state and the buckets drained so far. *)
Definition exec (mb : t * list LLMBucket) (o : op) : t * list LLMBucket :=
  let '(m, bs) := mb in
  match o with
  | OCall c => (apply_call m c, bs)
  | OSetLast k n => (SetLastApiError m k n, bs)
  | OUsage k tokens costs err stream => (AddTokenUsage m k tokens costs err stream, bs)
  | OReset => let '(b, m) := GetBucketReset m in (m, bs ++ [b])
  | OClear => (Clear m, bs)
  end.
Definition run (os : list op) : t * list LLMBucket := foldl exec (newMeterLLM, []) os.

Lemma run_snoc os o : run (os ++ [o]) = exec (run os) o.
Proof. unfold run. by rewrite foldl_app. Qed.

Definition tokens_ok (m : lmap LLMTokenEntry) : Prop := forall k e, lm_get m k = Some e -> token_ok e.

Lemma usage_ok m k tokens costs err stream :
  tokens_ok (tokenStat m) -> tokens_ok (tokenStat (AddTokenUsage m k tokens costs err stream)).
Proof.
  intros Hm. unfold AddTokenUsage. simpl. intros j e. apply (touch_invariant token_ok); [done|done|].
  intros v Hv. by apply add_usage_ok.
Qed.

(** Only [AddTokenUsage] and the resets touch the token map. *)
Lemma call_tokens m c :
  match c with LlmState.AddTokenUsage _ _ _ _ _ => True | _ => tokenStat (apply_call m c) = tokenStat m end.
Proof.
  destruct c; try done; simpl.
  - unfold AddApiStatus. by destruct (_ || _).
  - unfold OnEnd. destruct (lm_get _ _); [|done]. simpl. by destruct (_ <=? _)%Z.
Qed.

Lemma run_tokens os :
  tokens_ok (tokenStat (run os).1) /\ Forall (fun b => tokens_ok (b_Token b)) (run os).2.
Proof.
  assert (forall n, tokens_ok (lm_new (V := LLMTokenEntry) n)) as H0 by (intros n k e; by rewrite get_new).
  induction os as [|o os [IH1 IH2]] using rev_ind; [split; [apply H0|done]|].
  rewrite run_snoc. destruct (run os) as [m bs]. destruct o as [c| | | |]; cbn [exec fst snd] in *.
  - split; [|done]. pose proof (call_tokens m c) as Hc.
    destruct c; try (rewrite Hc; exact IH1). by apply usage_ok.
  - by split.
  - split; [|done]. by apply usage_ok.
  - cbn. split; [apply H0|]. apply Forall_app. split; [done|]. by apply Forall_singleton.
  - split; [apply H0|done].
Qed.

(** * Publications *)

(** [OnStart] and [OnEnd] around calls that leave the active map alone. *)
Definition counts_ok (a : lmap Z) : Prop := forall k n, lm_get a k = Some n -> (0 < n < 2 ^ 63 - 1)%Z.

Lemma start_end_active m k :
  counts_ok (activeStat m) -> is_Some (lm_get (activeStat m) k) \/ lm_room (activeStat m) ->
  forall m', activeStat m' = activeStat (OnStart m k) ->
  forall j, lm_get (activeStat (OnEnd m' k)) j = lm_get (activeStat m) j.
Proof.
  intros Hc Hr m' Em j. unfold OnEnd. rewrite Em. unfold OnStart. simpl. rewrite get_touch.
  set (n := default 0%Z (lm_get (activeStat m) k)).
  assert (0 <= n < 2 ^ 63 - 1)%Z as Hn.
  { unfold n. destruct (lm_get (activeStat m) k) as [v|] eqn:E; simpl; [|lia]. apply Hc in E. lia. }
  assert (inc n = n + 1)%Z as -> by (unfold inc; apply int64_id; lia).
  assert (int64 (n + 1 - 1) = n) as -> by (rewrite int64_id by lia; lia).
  assert (lm_get (lm_write (activeStat m') k (fun _ => n)) j =
    if decide (j = k) then Some n else lm_get (activeStat m) j) as Hw.
  { rewrite get_write, Em. unfold OnStart. simpl. destruct (decide (j = k)) as [->|Hne].
    - by rewrite get_touch.
    - by apply get_touch_ne. }
  destruct (Z.leb_spec n 0); simpl.
  - rewrite get_remove, Hw. destruct (decide (j = k)) as [->|]; [|done].
    unfold n in *. destruct (lm_get (activeStat m) k) as [v|] eqn:E; simpl in *; [apply Hc in E; lia|done].
  - rewrite Hw. destruct (decide (j = k)) as [->|]; [|done].
    unfold n in *. destruct (lm_get (activeStat m) k); simpl in *; [done|lia].
Qed.

(** The calls between the two. *)
Definition inner (c : meter_call) : bool :=
  match c with LlmState.OnStart _ | LlmState.OnEnd _ => false | _ => true end.
Lemma inner_active m c : inner c = true -> activeStat (apply_call m c) = activeStat m.
Proof. destruct c; try done. intros _. simpl. unfold AddApiStatus. by destruct (_ || _). Qed.

Lemma inner_run cs m :
  Forall (fun c => inner c = true) cs -> activeStat (foldl apply_call m cs) = activeStat m.
Proof.
  revert m; induction cs as [|c cs IH]; intros m Hf; [done|]. inversion Hf; subst. simpl.
  by rewrite IH, inner_active.
Qed.

(** The counters of a list of calls. *)
Definition counter_effect (cs : list meter_call) (m m' : t) : Prop :=
  meterCount m' = foldl (fun n c => match c with LlmState.IncrementMeter => inc n | _ => n end) (meterCount m) cs /\
  meterError m' = foldl (fun n c => match c with LlmState.IncrementMeterError => inc n | _ => n end) (meterError m) cs.
Lemma call_counters m c : counter_effect [c] m (apply_call m c).
Proof.
  destruct c; try done; simpl.
  - unfold AddApiStatus. by destruct (_ || _).
  - unfold OnEnd. destruct (lm_get _ _); [|done]. simpl. by destruct (_ <=? _)%Z.
Qed.
Lemma run_counters cs m : counter_effect cs m (foldl apply_call m cs).
Proof.
  revert m; induction cs as [|c cs IH]; intros m; [done|]. simpl.
  destruct (IH (apply_call m c)) as [H1 H2], (call_counters m c) as [C1 C2].
  split; simpl in *; [by rewrite H1, C1|by rewrite H2, C2].
Qed.

(** The shape of a publication. *)
Lemma publish_shape s p :
  exists mid, publishMeters s p = LlmState.OnStart (pack_key p) :: mid ++ [LlmState.OnEnd (pack_key p)] /\
    Forall (fun c => inner c = true) mid.
Proof.
  exists (match Latency p with
      | Some l => [LlmState.AddPerf (pack_key p) l (Ttft p) (tokens p OutputTokens) (streamRequest s) (negb (Success p))]
      | None => [] end ++
      (if nonempty (Features p) then [LlmState.AddFeature (pack_key p) (splitFeatures (Features p)) (negb (Success p))] else []) ++
      (if bool_decide (statusCode s <> 0%Z) then [LlmState.AddApiStatus (pack_key p) (statusCode s)] else []) ++
      (if bool_decide (ErrorType p = ErrorTypeAPI) then [LlmState.AddApiError (pack_key p)]
       else if bool_decide (ErrorType p = ErrorTypeProgram) then [LlmState.AddProgramError (pack_key p)] else []) ++
      (if bool_decide (nonZeroTokenCounts p <> ∅) || bool_decide (nonZeroCosts p <> ∅)
       then [LlmState.AddTokenUsage (pack_key p) (nonZeroTokenCounts p) (nonZeroCosts p) (negb (Success p)) (streamRequest s)] else []) ++
      [LlmState.IncrementMeter] ++ (if negb (Success p) then [LlmState.IncrementMeterError] else [])).
  split; [unfold publishMeters; simpl; by rewrite <- !app_assoc|]. rewrite !Forall_app.
  repeat split; repeat case_match; by repeat constructor.
Qed.

Lemma publish_counters s p n :
  foldl (fun n c => match c with LlmState.IncrementMeter => inc n | _ => n end) n (publishMeters s p) = inc n /\
  foldl (fun n c => match c with LlmState.IncrementMeterError => inc n | _ => n end) n (publishMeters s p) =
    inc_if (negb (Success p)) n.
Proof.
  unfold publishMeters.
  destruct (Latency p), (nonempty (Features p)), (bool_decide (statusCode s <> 0%Z)),
    (bool_decide (ErrorType p = ErrorTypeAPI)), (bool_decide (ErrorType p = ErrorTypeProgram)),
    (bool_decide (nonZeroTokenCounts p <> ∅) || bool_decide (nonZeroCosts p <> ∅)),
    (Success p); done.
Qed.

(** * Draining *)

Definition perf_keys (o : op) : list meter_key :=
  match o with OCall (LlmState.AddPerf k _ _ _ _ _) => [k] | _ => [] end.
Definition perf_calls (k : meter_key) (os : list op) : nat :=
  length (filter (fun j => j = k) (concat (perf_keys <$> os))).
Definition calls_at (m : lmap LLMPerfEntry) (k : meter_key) : Z :=
  default 0%Z (p_CallCount <$> lm_get m k).
Definition drained (bs : list LLMBucket) (k : meter_key) : Z :=
  foldr (fun b n => calls_at (b_Perf b) k + n)%Z 0%Z bs.

Lemma drained_snoc bs b k : drained (bs ++ [b]) k = (drained bs k + calls_at (b_Perf b) k)%Z.
Proof. unfold drained. induction bs as [|c bs IH]; simpl; [lia|]. rewrite IH. lia. Qed.

Lemma calls_new n k : calls_at (lm_new n) k = 0%Z.
Proof. unfold calls_at. by rewrite get_new. Qed.

Lemma perf_count_entry latency ttft out streaming err e :
  p_CallCount (perf_update latency ttft out streaming err e) = inc (p_CallCount e).
Proof.
  unfold perf_update. destruct ttft; [|done]. unfold add_tpot. destruct out; [|done].
  destruct (streaming && _); [|done]. simpl. by destruct (f64_ltb _ _).
Qed.

Lemma perf_other m c :
  match c with LlmState.AddPerf _ _ _ _ _ _ => True | _ => perfStat (apply_call m c) = perfStat m end.
Proof.
  destruct c; try done; simpl.
  - unfold AddApiStatus. by destruct (_ || _).
  - unfold OnEnd. destruct (lm_get _ _); [|done]. simpl. by destruct (_ <=? _)%Z.
Qed.

Definition fits (ks : list meter_key) (o : op) : Prop :=
  perf_keys o ⊆ ks /\ match o with OClear => False | _ => True end.

Record perf_inv (ks : list meter_key) (os : list op) (mb : t * list LLMBucket) : Prop := {
  pi_keys : (lm_entries (perfStat mb.1)).*1 ⊆ ks;
  pi_max : lm_max (perfStat mb.1) = llmKeyMax;
  pi_count k : ((drained mb.2 k + calls_at (perfStat mb.1) k) mod 2 ^ 64 =
                Z.of_nat (perf_calls k os) mod 2 ^ 64)%Z
}.

Lemma perf_calls_snoc k os o :
  perf_calls k (os ++ [o]) = perf_calls k os + length (filter (fun j => j = k) (perf_keys o)).
Proof.
  unfold perf_calls. rewrite fmap_app, concat_app, filter_app, length_app. simpl. by rewrite app_nil_r.
Qed.

(** A step without [AddPerf] that keeps the perf map. *)
Lemma perf_inv_same ks os o m m' bs :
  perf_inv ks os (m, bs) -> perf_keys o = [] -> perfStat m' = perfStat m ->
  perf_inv ks (os ++ [o]) (m', bs).
Proof.
  intros [H1 H2 H3] Hk Hm. simpl in *. split; simpl; rewrite ?Hm; [done|done|]. intros k.
  by rewrite perf_calls_snoc, Hk, Nat.add_0_r.
Qed.

Lemma perf_inv_add ks os m bs k latency ttft out streaming err :
  length ks <= llmKeyMax -> perf_inv ks os (m, bs) -> k ∈ ks ->
  perf_inv ks (os ++ [OCall (LlmState.AddPerf k latency ttft out streaming err)])
    (AddPerf m k latency ttft out streaming err, bs).
Proof.
  intros Hl [H1 H2 H3] Hk. cbn [fst snd] in *.
  set (f := perf_update latency ttft out streaming err).
  assert (perfStat (AddPerf m k latency ttft out streaming err) =
    touch (perfStat m) k (mkPerf 0 0 0 0 f64_zero f64_zero f64_zero) f) as E by done.
  split; cbn [fst snd]; rewrite ?E.
  - by apply keys_touch.
  - by rewrite max_touch.
  - intros j. rewrite perf_calls_snoc. cbn [perf_keys]. rewrite filter_cons, filter_nil.
    specialize (H3 j). unfold calls_at in *. destruct (decide (k = j)) as [->|Hne].
    + rewrite get_touch. cbn [fmap option_fmap option_map default length]. unfold f. rewrite perf_count_entry.
      assert (p_CallCount (default (mkPerf 0 0 0 0 f64_zero f64_zero f64_zero) (lm_get (perfStat m) j)) =
        default 0%Z (p_CallCount <$> lm_get (perfStat m) j)) as -> by (by destruct (lm_get _ j)).
      unfold id. rewrite add_inc_mod, Nat2Z.inj_add, (Zplus_mod (Z.of_nat _)), <- H3, <- Zplus_mod. f_equal; try lia.
    + rewrite get_touch_ne; [by rewrite Nat.add_0_r|congruence|]. apply (room_within ks); [done..|lia].
Qed.

Lemma run_perf ks os :
  length ks <= llmKeyMax -> Forall (fits ks) os -> perf_inv ks os (run os).
Proof.
  intros Hl. induction os as [|o os IH] using rev_ind; intros Hf.
  { split; simpl; [rewrite entries_new; apply list_subseteq_nil|apply max_new|].
    intros k. by rewrite calls_new. }
  apply Forall_app in Hf as [Hf Ho]. specialize (IH Hf). apply Forall_singleton in Ho as [Hks Hcl].
  rewrite run_snoc. destruct (run os) as [m bs]. destruct o as [c| | | |]; cbn [exec]; [| | | |done].
  - pose proof (perf_other m c) as Hc. destruct c;
      try (apply (perf_inv_same ks os _ m); [done|done|exact Hc]).
    apply perf_inv_add; [done..|]. apply Hks. simpl. by left.
  - by apply (perf_inv_same ks os _ m).
  - by apply (perf_inv_same ks os _ m).
  - destruct IH as [H1 H2 H3]. simpl in *. split; simpl; [rewrite entries_new; apply list_subseteq_nil|apply max_new|].
    intros k. rewrite perf_calls_snoc, drained_snoc. simpl. rewrite calls_new, Z.add_0_r, Nat.add_0_r. done.
Qed.
End Facts.

(** * The properties *)

(** A publication is balanced: replaying on the meter the calls [publishMeters]
    makes for a call leaves the active count of every key as it was, counts the
    call once, and counts an error exactly when the call was not successful; this
    needs that the active map is not full or knows the key. *)
Theorem publishMeters_balanced {LM : LinkedMap meter_key} (LL : LinkedMapLaws meter_key LM) m s p :
  counts_ok (activeStat m) ->
  is_Some (lm_get (activeStat m) (pack_key p)) \/ lm_room (activeStat m) ->
  let m' := foldl apply_call m (publishMeters s p) in
  (forall j, lm_get (activeStat m') j = lm_get (activeStat m) j) /\
  meterCount m' = int64 (meterCount m + 1) /\
  meterError m' = (if Success p then meterError m else int64 (meterError m + 1)).
Proof.
  intros Hc Hr m'. split.
  - destruct (publish_shape s p) as (mid & E & Hmid). unfold m'. rewrite E. simpl.
    rewrite foldl_app. simpl. by apply start_end_active; [..|apply inner_run].
  - destruct (run_counters (publishMeters s p) m) as [H1 H2].
    destruct (publish_counters s p (meterCount m)) as [P1 _].
    destruct (publish_counters s p (meterError m)) as [_ P2].
    unfold m'. rewrite H1, H2, P1, P2. by destruct (Success p).
Qed.

(** The token statistics are consistent: after any calls, drains and clears, in
    every token entry the meter holds or has handed out, the total is the sum of
    the named counts (on 64 bits), whatever entries full maps have given up. *)
Theorem TotalTokens_is_sum {LM : LinkedMap meter_key} (LL : LinkedMapLaws meter_key LM) os k e :
  lm_get (tokenStat (run os).1) k = Some e \/
  (exists b, b ∈ (run os).2 /\ lm_get (b_Token b) k = Some e) ->
  TotalTokens e = int64 (map_sum (TokenCounts e)).
Proof.
  destruct (run_tokens os) as [H1 H2]. rewrite Forall_forall in H2.
  intros [H|(b & Hb & H)]; [by apply (H1 k)|by apply (H2 b Hb k)].
Qed.

(** Draining loses no call: as long as the keys fit the maps, in any
    interleaving of calls and [GetBucketReset], the performance calls recorded for
    a key in the drained buckets and in the meter add up to the number of
    [AddPerf] calls made for it (on 64 bits). *)
Theorem GetBucketReset_conserves {LM : LinkedMap meter_key} (LL : LinkedMapLaws meter_key LM) ks os k :
  length ks <= llmKeyMax -> Forall (fits ks) os ->
  int64 (drained (run os).2 k + calls_at (perfStat (run os).1) k) = int64 (Z.of_nat (perf_calls k os)).
Proof. intros Hl Hf. apply int64_congr, (run_perf ks os Hl Hf). Qed.

(** * Witnesses *)
Section Witnesses.
#[local] Existing Instance ListMap.list_map.
#[local] Existing Instance ListMap.list_map_laws.
Definition key1 : meter_key := (str "api.openai.com", str "gpt", str "chat", str "/v1").
Definition pack1 : LlmStepStatus :=
  NewLlmStepStatus <| base ::= fun b => b <| Provider := str "api.openai.com" |> |>
    <| Model := str "gpt" |> <| Latency := Some (f64_of_Z 40) |>.
Definition state0 : LLMState := mkLLMState false 0 0 0 false 200 None false None [] [] [] [] [] [] false.

Lemma publishMeters_balanced_witness :
  meterCount (foldl apply_call newMeterLLM (publishMeters state0 pack1)) = 1%Z /\
  meterError (foldl apply_call newMeterLLM (publishMeters state0 pack1)) = 1%Z.
Proof.
  destruct (publishMeters_balanced _ newMeterLLM state0 pack1) as (_ & H1 & H2).
  - intros k n H. discriminate H.
  - right. right. unfold lm_size. simpl. unfold llmKeyMax. lia.
  - split; [exact H1|exact H2].
Defined.

Definition ops5 : list op :=
  [OUsage key1 [(str "input_tokens", 12%Z); (str "output_tokens", 7%Z)] [] false false;
   OUsage key1 [(str "input_tokens", 1%Z)] [] false false].
Lemma TotalTokens_is_sum_witness :
  exists e, lm_get (tokenStat (run ops5).1) key1 = Some e /\
    int64 (map_sum (TokenCounts e)) = 20%Z.
Proof.
  eexists. split; [vm_compute; reflexivity|].
  match goal with |- int64 (map_sum (TokenCounts ?e)) = _ =>
    rewrite <- (TotalTokens_is_sum _ ops5 key1 e); [reflexivity|left; vm_compute; reflexivity] end.
Defined.

Definition perf1 : op := OCall (LlmState.AddPerf key1 (f64_of_Z 40) None None false false).
Lemma GetBucketReset_conserves_witness :
  int64 (drained (run [perf1; perf1; OReset; perf1]).2 key1 +
         calls_at (perfStat (run [perf1; perf1; OReset; perf1]).1) key1) = 3%Z.
Proof.
  rewrite (GetBucketReset_conserves _ [key1]).
  - vm_compute. reflexivity.
  - unfold llmKeyMax. simpl. lia.
  - assert (fits [key1] perf1) by (split; [simpl; set_solver|done]).
    assert (fits [key1] OReset) by (split; [apply list_subseteq_nil|done]).
    by repeat (apply Forall_cons; split).
Defined.
End Witnesses.
