(* ===== verification/Meters.v ===== *)
(** The meters of SQL statements, outgoing HTTP calls and transaction statuses:
    [src/agent/agent/counter/meter/MeterSQL.go], [MeterHTTPC.go] and
    [MeterStatus.go].

    Each keeps a current bucket, handed out and replaced by [GetBucketReset], and a
    bounded map of buckets by key.  [if Stat.ContainsKey(k) { b = Stat.Get(k) } else
    { b = new; Stat.Put(k, b) }] followed by updates of [*b] is [touch]; the maps
    never hold a nil or a value of another type, so the branches that remove such
    a value are not taken.  Package variables are initialised by the [new]
    functions, so the [GetInstance] functions return that one meter. *)

From S2P Require Import Prelude Hmap Accumulator.

(** The settings of [config.Config] the meters and counter tasks read. *)
Record Conf := mkConf {
  SqlDbcMeterEnabled : bool;
  HttpcHostMeterEnabled : bool;
  TxStatusMeterEnabled : bool;
  ActxMeterEnabled : bool;
  TxCallerMeterEnabled : bool;
  TxCallerMeterPKindEnabled : bool;
  TpsAvg30Enabled : bool;
  CounterEnabledTranx_ : bool;
  CounterEnabledSql_ : bool;
  CounterEnabledHttpc_ : bool;
  PCODE : Z;
  ApdexTime : Z;
  ApdexTime4T : Z;
  HitMapVerEventEnabled : bool;
  HitMapVerEventErrorOnly : bool;
  HitMapVerEventDuration : Z;
  HitMapVerEventWarningPercent : Z;
  HitMapVerEventFatalPercent : Z;
  HitMapVerEventInterval : Z;
  HitMapHorizEventEnabled : bool;
  HitMapHorizEventErrorOnly : bool;
  HitMapHorizEventBasetime : Z;
  HitMapHorizEventDuration : Z;
  HitMapHorizEventInterval : Z;
  SendsHitMap : bool
}.

Definition inc32 (n : Z) : Z := int32 (n + 1).
Definition inc32_if (b : bool) (n : Z) : Z := if b then inc32 n else n.
Definition add64 (k n : Z) : Z := int64 (n + k).

Module MeterSQL.
Record SQLBucket := mkBucket {
  Count : Z; Time : Z; Error_ : Z; FetchCount : Z; FetchTime : Z
}.
Definition NewSQLBucket : SQLBucket := mkBucket 0 0 0 0 0.
Definition count (elapsed : Z) (err : bool) (b : SQLBucket) : SQLBucket :=
  b <| Count ::= inc32 |> <| Time ::= add64 elapsed |> <| Error_ ::= inc32_if err |>.

Section Meter.
Context {LM : LinkedMap Z}.
Record t := mk { Stat : lmap SQLBucket; Bucket : SQLBucket }.
Definition newMeterSQL : t := mk (lm_new 107) NewSQLBucket.
Definition ResetStat (m : t) : t := m <| Stat := lm_new 107 |>.
Definition Clear (m : t) : t := ResetStat (m <| Bucket := NewSQLBucket |>).
Definition GetBucketReset (m : t) : SQLBucket * t := (Bucket m, m <| Bucket := NewSQLBucket |>).

Definition Add (conf : Conf) (m : t) (dbc elapsed : Z) (err : bool) : t :=
  let m := m <| Bucket ::= count elapsed err |> in
  if SqlDbcMeterEnabled conf && negb (dbc =? 0)%Z then
    m <| Stat ::= fun s => touch s dbc NewSQLBucket (count elapsed err) |>
  else m.
Definition AddFetch (m : t) (dbc count time : Z) : t :=
  m <| Bucket ::= fun b => b <| FetchCount ::= add64 count |> <| FetchTime ::= add64 time |> |>.
End Meter.
End MeterSQL.

Module MeterHTTPC.
Record HTTPCBucket := mkBucket { Count : Z; Time : Z; Error_ : Z }.
Definition NewHTTPCBucket : HTTPCBucket := mkBucket 0 0 0.
Definition count (elapsed : Z) (err : bool) (b : HTTPCBucket) : HTTPCBucket :=
  b <| Count ::= inc32 |> <| Time ::= add64 elapsed |> <| Error_ ::= inc32_if err |>.

Section Meter.
Context {LM : LinkedMap Z}.
Record t := mk { Bucket : HTTPCBucket; Stat : lmap HTTPCBucket }.
Definition newMeterHTTPC : t := mk NewHTTPCBucket (lm_new 107).
Definition ResetStat (m : t) : t := m <| Stat := lm_new 107 |>.
Definition Clear (m : t) : t := ResetStat (m <| Bucket := NewHTTPCBucket |>).
Definition GetBucketReset (m : t) : HTTPCBucket * t := (Bucket m, m <| Bucket := NewHTTPCBucket |>).

Definition Add (conf : Conf) (m : t) (host elapsed : Z) (err : bool) : t :=
  let m := m <| Bucket ::= count elapsed err |> in
  if HttpcHostMeterEnabled conf then
    m <| Stat ::= fun s => touch s host NewHTTPCBucket (count elapsed err) |>
  else m.
End Meter.
End MeterHTTPC.

Module MeterStatus.
Record StatusBucket := mkBucket { Count : Z; Time : Z }.
Definition NewStatusBucket : StatusBucket := mkBucket 0 0.
Definition count (elapsed : Z) (b : StatusBucket) : StatusBucket :=
  b <| Count ::= inc32 |> <| Time ::= add64 elapsed |>.

Section Meter.
Context {LM : LinkedMap Z}.
Record t := mk {
  Stat : lmap StatusBucket;
  Bucket200 : StatusBucket; Bucket400 : StatusBucket; Bucket500 : StatusBucket
}.
Definition newMeterStatus : t := mk (lm_new 107) NewStatusBucket NewStatusBucket NewStatusBucket.
Definition ResetStat (m : t) : t := m <| Stat := lm_new 107 |>.
Definition Clear (m : t) : t :=
  ResetStat (m <| Bucket200 := NewStatusBucket |> <| Bucket400 := NewStatusBucket |>
               <| Bucket500 := NewStatusBucket |>).
Definition GetBucketReset (m : t) : (StatusBucket * StatusBucket * StatusBucket) * t :=
  ((Bucket200 m, Bucket400 m, Bucket500 m),
   m <| Bucket200 := NewStatusBucket |> <| Bucket400 := NewStatusBucket |>
     <| Bucket500 := NewStatusBucket |>).

(** Go's division truncates. *)
Definition Add (conf : Conf) (m : t) (status elapsed : Z) : t :=
  let m :=
    match Z.quot status 100 with
    | 2%Z => m <| Bucket200 ::= count elapsed |>
    | 4%Z => m <| Bucket400 ::= count elapsed |>
    | 5%Z => m <| Bucket500 ::= count elapsed |>
    | _ => m
    end in
  if TxStatusMeterEnabled conf && negb (status =? 0)%Z then
    m <| Stat ::= fun s => touch s status NewStatusBucket (count elapsed) |>
  else m.
End Meter.
End MeterStatus.

(** The meters of SQL, HTTP calls and statuses keep exact accounts: the three are
    instances of the interfaces of [Accumulator.v]. *)

(** Push the last sample through closed-form sums kept at their width. *)
Ltac sums :=
  rewrite ?zsum_snoc, ?zcount_snoc; unfold inc32_if, inc32, add64;
  repeat case_match; rewrite ?wrap_s_add_l by lia; rewrite ?Z.add_0_r; done.

Section Facts.
Context {LM : LinkedMap Z} {LL : LinkedMapLaws Z LM}.
Variable conf : Conf.

Lemma fresh_map {K V} `{LinkedMapLaws K} n : capacity n (lm_new (V := V) n) /\ lm_entries (lm_new (V := V) n) = [].
Proof. split; [right; by rewrite max_new|apply entries_new]. Qed.

(** * SQL *)

Inductive sql_sample := SAdd (dbc elapsed : Z) (err : bool) | SFetch (dbc count time : Z).
#[export] Instance sql_meter : BucketMeter MeterSQL.t sql_sample MeterSQL.SQLBucket := {
  bm_add m x := match x with
                | SAdd dbc elapsed err => MeterSQL.Add conf m dbc elapsed err
                | SFetch dbc count time => MeterSQL.AddFetch m dbc count time
                end;
  bm_drain := MeterSQL.GetBucketReset;
  bm_reset := MeterSQL.ResetStat;
  bm_bucket := MeterSQL.Bucket;
  bm_empty := MeterSQL.NewSQLBucket;
  bm_step x b := match x with
                 | SAdd _ elapsed err => MeterSQL.count elapsed err b
                 | SFetch _ count time =>
                     b <| MeterSQL.FetchCount ::= add64 count |> <| MeterSQL.FetchTime ::= add64 time |>
                 end
}.
#[export] Instance sql_meter_laws : BucketMeterLaws _ _ _ sql_meter.
Proof. split; try done. intros m []; simpl; [|done]. unfold MeterSQL.Add. by case_match. Qed.

Definition sql_dbc (x : sql_sample) : option Z :=
  match x with
  | SAdd dbc _ _ => if SqlDbcMeterEnabled conf && negb (dbc =? 0)%Z then Some dbc else None
  | SFetch _ _ _ => None
  end.
#[export] Instance sql_keyed : KeyedMeter MeterSQL.t sql_sample Z MeterSQL.SQLBucket := {
  km_stat := MeterSQL.Stat; km_bound := 107; km_key := sql_dbc;
  km_dflt := MeterSQL.NewSQLBucket; km_step := bm_step
}.
#[export] Instance sql_keyed_laws :
  KeyedMeterLaws MeterSQL.t sql_sample MeterSQL.SQLBucket Z MeterSQL.SQLBucket LM sql_meter sql_keyed.
Proof.
  split; try done.
  - intros m []; simpl; [|done]. unfold MeterSQL.Add. by case_match.
  - intros m _. apply fresh_map.
Qed.

Definition sql_calls (x : sql_sample) : bool := if x is SAdd _ _ _ then true else false.
Definition sql_errors (x : sql_sample) : bool := if x is SAdd _ _ err then err else false.
Definition sql_time (x : sql_sample) : Z := if x is SAdd _ elapsed _ then elapsed else 0.
Definition sql_fetched (x : sql_sample) : Z := if x is SFetch _ count _ then count else 0.
Definition sql_fetch_time (x : sql_sample) : Z := if x is SFetch _ _ time then time else 0.
Definition sql_totals (xs : list sql_sample) : MeterSQL.SQLBucket :=
  MeterSQL.mkBucket (int32 (zcount sql_calls xs)) (int64 (zsum sql_time xs))
    (int32 (zcount sql_errors xs)) (int64 (zsum sql_fetched xs)) (int64 (zsum sql_fetch_time xs)).

Lemma sql_summary xs : summary xs = sql_totals xs.
Proof.
  unfold summary. induction xs as [|x xs IH] using rev_ind; [done|].
  rewrite foldl_app, IH. unfold sql_totals. destruct x; simpl; unfold MeterSQL.count; simpl; f_equal; sums.
Qed.

(** * HTTP calls *)

Definition httpc_sample : Type := Z * Z * bool.
#[export] Instance httpc_meter : BucketMeter MeterHTTPC.t httpc_sample MeterHTTPC.HTTPCBucket := {
  bm_add m x := let '(host, elapsed, err) := x in MeterHTTPC.Add conf m host elapsed err;
  bm_drain := MeterHTTPC.GetBucketReset;
  bm_reset := MeterHTTPC.ResetStat;
  bm_bucket := MeterHTTPC.Bucket;
  bm_empty := MeterHTTPC.NewHTTPCBucket;
  bm_step x b := MeterHTTPC.count x.1.2 x.2 b
}.
#[export] Instance httpc_meter_laws : BucketMeterLaws _ _ _ httpc_meter.
Proof. split; try done. intros m [[host elapsed] err]; simpl. unfold MeterHTTPC.Add. by case_match. Qed.
#[export] Instance httpc_keyed : KeyedMeter MeterHTTPC.t httpc_sample Z MeterHTTPC.HTTPCBucket := {
  km_stat := MeterHTTPC.Stat; km_bound := 107;
  km_key x := if HttpcHostMeterEnabled conf then Some x.1.1 else None;
  km_dflt := MeterHTTPC.NewHTTPCBucket; km_step := bm_step
}.
#[export] Instance httpc_keyed_laws :
  KeyedMeterLaws MeterHTTPC.t httpc_sample MeterHTTPC.HTTPCBucket Z MeterHTTPC.HTTPCBucket LM
    httpc_meter httpc_keyed.
Proof.
  split; try done.
  - intros m [[host elapsed] err]; simpl. unfold MeterHTTPC.Add. by case_match.
  - intros m _. apply fresh_map.
Qed.

Definition httpc_totals (xs : list httpc_sample) : MeterHTTPC.HTTPCBucket :=
  MeterHTTPC.mkBucket (int32 (Z.of_nat (length xs))) (int64 (zsum (fun x => x.1.2) xs))
    (int32 (zcount snd xs)).
Lemma httpc_summary xs : summary xs = httpc_totals xs.
Proof.
  unfold summary. induction xs as [|x xs IH] using rev_ind; [done|].
  rewrite foldl_app, IH. unfold httpc_totals. simpl. unfold MeterHTTPC.count. simpl.
  rewrite length_app, Nat2Z.inj_add. f_equal; sums.
Qed.

(** * Statuses *)

Definition status_buckets : Type := MeterStatus.StatusBucket * MeterStatus.StatusBucket * MeterStatus.StatusBucket.
Definition status_sample : Type := Z * Z.
Definition of_class (g : Z) (x : status_sample) : bool := bool_decide (Z.quot x.1 100 = g).
Definition count_if (b : bool) (elapsed : Z) (k : MeterStatus.StatusBucket) : MeterStatus.StatusBucket :=
  if b then MeterStatus.count elapsed k else k.
#[export] Instance status_meter : BucketMeter MeterStatus.t status_sample status_buckets := {
  bm_add m x := MeterStatus.Add conf m x.1 x.2;
  bm_drain := MeterStatus.GetBucketReset;
  bm_reset := MeterStatus.ResetStat;
  bm_bucket m := (MeterStatus.Bucket200 m, MeterStatus.Bucket400 m, MeterStatus.Bucket500 m);
  bm_empty := (MeterStatus.NewStatusBucket, MeterStatus.NewStatusBucket, MeterStatus.NewStatusBucket);
  bm_step x b := (count_if (of_class 2 x) x.2 b.1.1, count_if (of_class 4 x) x.2 b.1.2,
                  count_if (of_class 5 x) x.2 b.2)
}.
#[export] Instance status_meter_laws : BucketMeterLaws _ _ _ status_meter.
Proof.
  split; try done. intros m [status elapsed]; simpl. unfold MeterStatus.Add, of_class. simpl.
  destruct (_ && _); repeat case_match; done.
Qed.
#[export] Instance status_keyed : KeyedMeter MeterStatus.t status_sample Z MeterStatus.StatusBucket := {
  km_stat := MeterStatus.Stat; km_bound := 107;
  km_key x := if TxStatusMeterEnabled conf && negb (x.1 =? 0)%Z then Some x.1 else None;
  km_dflt := MeterStatus.NewStatusBucket; km_step x := MeterStatus.count x.2
}.
#[export] Instance status_keyed_laws :
  KeyedMeterLaws MeterStatus.t status_sample status_buckets Z MeterStatus.StatusBucket LM
    status_meter status_keyed.
Proof.
  split; try done.
  - intros m [status elapsed]; simpl. unfold MeterStatus.Add.
    destruct (_ && _); repeat case_match; done.
  - intros m _. apply fresh_map.
Qed.

Definition status_totals (xs : list status_sample) : MeterStatus.StatusBucket :=
  MeterStatus.mkBucket (int32 (Z.of_nat (length xs))) (int64 (zsum snd xs)).
Definition class_totals (g : Z) (xs : list status_sample) : MeterStatus.StatusBucket :=
  status_totals (filter (fun x => of_class g x = true) xs).

Lemma status_totals_snoc xs x : status_totals (xs ++ [x]) = MeterStatus.count x.2 (status_totals xs).
Proof.
  unfold status_totals, MeterStatus.count. simpl. rewrite length_app, Nat2Z.inj_add. f_equal; sums.
Qed.
Lemma class_totals_snoc g xs x :
  class_totals g (xs ++ [x]) = count_if (of_class g x) x.2 (class_totals g xs).
Proof.
  unfold class_totals, count_if. rewrite filter_app, filter_cons, filter_nil.
  destruct (of_class g x); simpl; [apply status_totals_snoc|by rewrite app_nil_r].
Qed.
Lemma status_summary xs : summary xs = (class_totals 2 xs, class_totals 4 xs, class_totals 5 xs).
Proof.
  unfold summary. induction xs as [|x xs IH] using rev_ind; [done|].
  rewrite foldl_app, IH, !class_totals_snoc. done.
Qed.

Lemma status_fold xs : fold_key km_dflt km_step xs = status_totals xs.
Proof.
  unfold fold_key. induction xs as [|x xs IH] using rev_ind; [done|].
  by rewrite foldl_app, IH, status_totals_snoc.
Qed.

(** * The properties *)

(** The SQL meter is exact: whatever the adds, fetches, drains and resets, the
    buckets handed out, with the current one, are the totals of consecutive
    segments of what was added; and as long as the connections fit the map, each
    has the totals of its own statements since the last [ResetStat]. *)
Theorem MeterSQL_exact os :
  let s := brun MeterSQL.newMeterSQL os in
  (exists segs, concat segs = samples os /\
     s.2 ++ [MeterSQL.Bucket s.1] = sql_totals <$> segs) /\
  (keys_fit 107 (keyed_samples (since_reset os)) -> forall dbc,
     lm_get (MeterSQL.Stat s.1) dbc =
       entry_of sql_totals (of_key dbc (keyed_samples (since_reset os)))).
Proof.
  split.
  - apply (segments_totals (BM := sql_meter) sql_totals MeterSQL.newMeterSQL); [done|apply sql_summary].
  - intros Hf dbc. apply (stat_totals (BM := sql_meter) (KM := sql_keyed) sql_totals MeterSQL.newMeterSQL); [right; simpl; by rewrite max_new|apply entries_new|apply sql_summary|done].
Qed.

(** The meter of HTTP calls is exact in the same sense, by host. *)
Theorem MeterHTTPC_exact os :
  let s := brun MeterHTTPC.newMeterHTTPC os in
  (exists segs, concat segs = samples os /\
     s.2 ++ [MeterHTTPC.Bucket s.1] = httpc_totals <$> segs) /\
  (keys_fit 107 (keyed_samples (since_reset os)) -> forall host,
     lm_get (MeterHTTPC.Stat s.1) host =
       entry_of httpc_totals (of_key host (keyed_samples (since_reset os)))).
Proof.
  split.
  - apply (segments_totals (BM := httpc_meter) httpc_totals MeterHTTPC.newMeterHTTPC); [done|apply httpc_summary].
  - intros Hf host. apply (stat_totals (BM := httpc_meter) (KM := httpc_keyed) httpc_totals MeterHTTPC.newMeterHTTPC); [right; simpl; by rewrite max_new|apply entries_new|apply httpc_summary|done].
Qed.

(** The meter of statuses is exact in the same sense: the three buckets have
    the totals of the statuses 2xx, 4xx and 5xx of the segment, the map those of
    each status. *)
Theorem MeterStatus_exact os :
  let s := brun MeterStatus.newMeterStatus os in
  (exists segs, concat segs = samples os /\
     s.2 ++ [(MeterStatus.Bucket200 s.1, MeterStatus.Bucket400 s.1, MeterStatus.Bucket500 s.1)] =
       (fun xs => (class_totals 2 xs, class_totals 4 xs, class_totals 5 xs)) <$> segs) /\
  (keys_fit 107 (keyed_samples (since_reset os)) -> forall status,
     lm_get (MeterStatus.Stat s.1) status =
       entry_of status_totals (of_key status (keyed_samples (since_reset os)))).
Proof.
  split.
  - apply (segments_totals (BM := status_meter) (fun xs => (class_totals 2 xs, class_totals 4 xs, class_totals 5 xs)) MeterStatus.newMeterStatus); [done|apply status_summary].
  - intros Hf status. apply (stat_totals (BM := status_meter) (KM := status_keyed) status_totals MeterStatus.newMeterStatus); [right; simpl; by rewrite max_new|apply entries_new|apply status_fold|done].
Qed.
End Facts.

(** * Witnesses *)
Section Witnesses.
#[local] Existing Instance ListMap.list_map.
#[local] Existing Instance ListMap.list_map_laws.
Definition conf1 : Conf :=
  mkConf true true true true true true false true true true 12 1200 4800
    true false 30000 70 90 300000 true false 10000 30000 300000 true.

Lemma fit_within {K X} `{EqDecision K} (n : nat) (ks : list K) (es : list (K * X)) :
  bool_decide (length ks <= n) && bool_decide (Forall (fun e => e.1 ∈ ks) es) = true -> keys_fit n es.
Proof.
  intros [H1 H2]%andb_true_iff. apply bool_decide_eq_true in H1, H2. by exists ks.
Qed.

Definition sql_ops : list (bop sql_sample) :=
  [BAdd (SAdd 7 30 false); BAdd (SFetch 7 100 4); BDrain; BAdd (SAdd 7 12 true);
   BAdd (SAdd 0 1 false); BAdd (SAdd 9 5 false)].
Lemma MeterSQL_exact_witness :
  lm_get (MeterSQL.Stat (brun (BM := sql_meter conf1) MeterSQL.newMeterSQL sql_ops).1) 7%Z =
    Some (MeterSQL.mkBucket 2 42 1 0 0).
Proof.
  destruct (MeterSQL_exact conf1 sql_ops) as [_ H]. rewrite H; [vm_compute; reflexivity|].
  apply (fit_within _ [7; 9]%Z). vm_compute. reflexivity.
Defined.

Definition httpc_ops : list (bop httpc_sample) :=
  [BAdd (3, 30, false)%Z; BReset; BAdd (3, 10, true)%Z; BDrain; BAdd (4, 1, false)%Z].
Lemma MeterHTTPC_exact_witness :
  lm_get (MeterHTTPC.Stat (brun (BM := httpc_meter conf1) MeterHTTPC.newMeterHTTPC httpc_ops).1) 3%Z =
    Some (MeterHTTPC.mkBucket 1 10 1).
Proof.
  destruct (MeterHTTPC_exact conf1 httpc_ops) as [_ H]. rewrite H; [vm_compute; reflexivity|].
  apply (fit_within _ [3; 4]%Z). vm_compute. reflexivity.
Defined.

Definition status_ops : list (bop status_sample) :=
  [BAdd (200, 30)%Z; BAdd (404, 8)%Z; BAdd (200, 2)%Z; BDrain; BAdd (500, 1)%Z; BAdd (0, 9)%Z].
Lemma MeterStatus_exact_witness :
  lm_get (MeterStatus.Stat (brun (BM := status_meter conf1) MeterStatus.newMeterStatus status_ops).1) 200%Z =
    Some (MeterStatus.mkBucket 2 32).
Proof.
  destruct (MeterStatus_exact conf1 status_ops) as [_ H]. rewrite H; [vm_compute; reflexivity|].
  apply (fit_within _ [200; 404; 500]%Z). vm_compute. reflexivity.
Defined.
End Witnesses.
