(* ===== verification/MeterService.v ===== *)
(** The meter of transactions, [src/agent/agent/counter/meter/MeterService.go], and
    the hit-map alerts of [src/agent/agent/alert/Alert.go].

    The hit map and the levels are golib's ([pack.HitMapPack1], [pack.WARNING],
    [pack.FATAL]): the class [Pack].  [service.TxRecord] is a golib struct; the
    fields the meter reads and writes are kept.  [lang.POID] and [lang.PKIND] are
    pairs.  The clock is an argument, one reading per call of [SystemNow]. *)

From S2P Require Import Prelude Hmap Accumulator Meters.

Class Pack := {
  hitmap : Type;
  NewHitMapPack1 : hitmap;
  hitmap_Add : hitmap -> Z -> bool -> hitmap;
  Hit : hitmap -> nat -> Z;
  HitError : hitmap -> nat -> Z;
  HitMapIndex : hitmap -> Z -> nat;
  HitMapTime : hitmap -> nat -> Z;
  HITMAP_VERTICAL_INDEX : nat;
  HITMAP_LENGTH : nat;
  WARNING : Z;
  FATAL : Z
}.

Record TxRecord := mkTx {
  Elapsed : Z; DbcTime : Z; SqlTime : Z; HttpcTime : Z; ErrorLevel : Z; Apdex : Z
}.

Record EventPack := mkEvent {
  Level : Z; Title : bytes; Message : bytes; Attr : list (bytes * bytes)
}.

(** [Alert.go]; nothing assigns the two package variables. *)
Module Alert.
Definition LastHitMapVerEvent : Z := 0.
Definition LastHitMapHorizEvent : Z := 0.
Section Alert.
Context {P : Pack}.
Definition HitMapVertical (conf : Conf) (now percent level : Z) : option EventPack :=
  if (now <? int64 (LastHitMapVerEvent + HitMapVerEventInterval conf))%Z then None
  else Some (mkEvent level (str "HITMAP_VERTICAL")
               (str "HitMap vertical " ++ FormatInt percent ++ str " ")
               [(str "percent", FormatInt level)]).
Definition HitMapHorizontal (conf : Conf) (now hitmapTime : Z) : option EventPack :=
  if (now <? int64 (LastHitMapHorizEvent + HitMapHorizEventInterval conf))%Z then None
  else Some (mkEvent FATAL (str "HITMAP_HORIZONTAL")
               (str "response time is " ++ FormatInt (HitMapHorizEventDuration conf) ++ str " ms ")
               [(str "hitmap_time", FormatInt hitmapTime)]).
End Alert.
End Alert.

Module MeterService.
Record BucketSimple := mkSimple {
  s_Count : Z; s_Timesum : Z; s_DbcSum : Z; s_SqlSum : Z; s_HttpcSum : Z; s_Error : Z
}.
Definition NewBucketSimple : BucketSimple := mkSimple 0 0 0 0 0 0.

Section Meter.
Context {P : Pack} {LMi : LinkedMap Z} {LMp : LinkedMap (Z * Z)}.

Record HitBucket := mkHit {
  Hitmap : hitmap;
  Count : Z; CountSatisfied : Z; CountTolerated : Z; CountTotal : Z;
  Timesum : Z; DbcSum : Z; SqlSum : Z; HttpcSum : Z; Error_ : Z;
  TimeSqrSum : Z; TimeMin : Z; TimeMax : Z;
  LastVerEvent : Z; LastVerOverStart : Z; LastHorizEvent : Z; LastHorizOverStart : Z
}.
Definition NewHitBucket : HitBucket := mkHit NewHitMapPack1 0 0 0 0 0 0 0 0 0 0 0 0 0 0 0 0.
Definition GetAndIncrement (b : HitBucket) : HitBucket := b <| Count ::= inc32 |>.
(** [HitBucket.Reset]: not every field. *)
Definition Reset_ (b : HitBucket) : HitBucket :=
  b <| Count := 0%Z |> <| Timesum := 0%Z |> <| Error_ := 0%Z |> <| Hitmap := NewHitMapPack1 |>.

Record t := mk {
  Bucket : HitBucket;
  StatByOID : lmap (K := Z) BucketSimple;
  StatByPKIND : lmap (K := Z * Z) BucketSimple;
  StatByPOID : lmap (K := Z * Z) BucketSimple;
  Unknown : BucketSimple;
  Arrival : Z
}.
(** [NewLinkedMapDefault] sets no bound. *)
Definition newMeterService : t :=
  mk NewHitBucket (lm_new 307) (lm_new 307) (lm_new 0) NewBucketSimple 0.
Definition GetAndResetBucket (m : t) : HitBucket * t := (Bucket m, m <| Bucket := NewHitBucket |>).

Definition is_error (tx : TxRecord) : bool := (WARNING <=? ErrorLevel tx)%Z.
Definition AddVirtualTx (m : t) (tx : TxRecord) : t :=
  m <| Bucket ::= fun b => b <| Hitmap ::= fun h => hitmap_Add h (Elapsed tx) (is_error tx) |> |>.

(** The updates of the current bucket, and the apdex of the transaction. *)
Definition add_sums (tx : TxRecord) (b : HitBucket) : HitBucket :=
  (GetAndIncrement b) <| Timesum ::= add64 (Elapsed tx) |> <| DbcSum ::= add64 (DbcTime tx) |>
    <| SqlSum ::= add64 (SqlTime tx) |> <| HttpcSum ::= add64 (HttpcTime tx) |>.
Definition add_apdex (conf : Conf) (tx : TxRecord) (b : HitBucket) : HitBucket * TxRecord :=
  if is_error tx then (b <| Error_ ::= inc32 |> <| CountTotal ::= inc32 |>, tx)
  else
    let b := b <| CountTotal ::= inc32 |> in
    if (Elapsed tx <=? ApdexTime conf)%Z then (b <| CountSatisfied ::= inc32 |>, tx <| Apdex := 2%Z |>)
    else if (Elapsed tx <=? ApdexTime4T conf)%Z then (b <| CountTolerated ::= inc32 |>, tx <| Apdex := 1%Z |>)
    else (b, tx).
Definition add_extremes (tx : TxRecord) (b : HitBucket) : HitBucket :=
  let e := Elapsed tx in
  let b := b <| TimeSqrSum ::= add64 (int64 (e * e)) |> in
  let b := if (TimeMax b <? e)%Z then b <| TimeMax := e |> else b in
  let b := if (TimeMin b =? 0)%Z || (e <? TimeMin b)%Z then b <| TimeMin := e |> else b in
  b <| Hitmap ::= fun h => hitmap_Add h e (is_error tx) |>.
Definition add_bucket (conf : Conf) (tx : TxRecord) (b : HitBucket) : HitBucket * TxRecord :=
  let '(b, tx) := add_apdex conf tx (add_sums tx b) in (add_extremes tx b, tx).

(** The updates of a caller's bucket; only the callers of the own project get the
    sums of the steps. *)
Definition count_simple (tx : TxRecord) (c : BucketSimple) : BucketSimple :=
  c <| s_Count ::= inc32 |> <| s_Timesum ::= add64 (Elapsed tx) |>
    <| s_Error ::= inc32_if (is_error tx) |>.
Definition count_oid (tx : TxRecord) (c : BucketSimple) : BucketSimple :=
  c <| s_Count ::= inc32 |> <| s_Timesum ::= add64 (Elapsed tx) |> <| s_DbcSum ::= add64 (DbcTime tx) |>
    <| s_SqlSum ::= add64 (SqlTime tx) |> <| s_HttpcSum ::= add64 (HttpcTime tx) |>
    <| s_Error ::= inc32_if (is_error tx) |>.
Definition add_caller (conf : Conf) (tx : TxRecord) (mCallerPcode mCallerOkind mCallerOid : Z) (m : t) : t :=
  if negb (mCallerOid =? 0)%Z then
    let m :=
      if (mCallerPcode =? PCODE conf)%Z then
        m <| StatByOID ::= fun s => touch s mCallerOid NewBucketSimple (count_oid tx) |>
      else
        m <| StatByPOID ::= fun s => touch s (mCallerPcode, mCallerOid) NewBucketSimple (count_simple tx) |>
    in
    if TxCallerMeterPKindEnabled conf then
      m <| StatByPKIND ::= fun s => touch s (mCallerPcode, mCallerOkind) NewBucketSimple (count_simple tx) |>
    else m
  else m <| Unknown ::= count_simple tx |>.

(** [if tx.Elapsed < 0 { tx.Elapsed = 0 }] *)
Definition clamp (tx : TxRecord) : TxRecord :=
  if (Elapsed tx <? 0)%Z then tx <| Elapsed := 0%Z |> else tx.
Definition Add (conf : Conf) (m : t) (tx : TxRecord) (mCallerPcode mCallerOkind mCallerOid : Z)
  : t * TxRecord :=
  let tx := clamp tx in
  let '(b, tx) := add_bucket conf tx (Bucket m) in
  let m := m <| Bucket := b |> in
  ((if TxCallerMeterEnabled conf then add_caller conf tx mCallerPcode mCallerOkind mCallerOid m
    else m), tx).

Definition ResetStat (m : t) : t :=
  let m := if bool_decide (0 < lm_size (StatByOID m)) then m <| StatByOID := lm_new 307 |> else m in
  let m := if bool_decide (0 < lm_size (StatByPKIND m)) then m <| StatByPKIND := lm_new 307 |> else m in
  let m := if bool_decide (0 < lm_size (StatByPOID m)) then m <| StatByPOID := lm_new 307 |> else m in
  if (0 <? s_Count (Unknown m))%Z then m <| Unknown := NewBucketSimple |> else m.
Definition Clear (m : t) : t := ResetStat (m <| Bucket := NewHitBucket |>).

(** The cells the vertical event counts, from the vertical index up. *)
Definition ver_cell (conf : Conf) (h : hitmap) (i : nat) : bool :=
  (0 <? Hit h i)%Z && (if HitMapVerEventErrorOnly conf then (0 <? HitError h i)%Z else true).
Definition ver_count (conf : Conf) (h : hitmap) : Z :=
  Z.of_nat (length (filter (fun i => ver_cell conf h i = true)
    (seq HITMAP_VERTICAL_INDEX (HITMAP_LENGTH - HITMAP_VERTICAL_INDEX)))).

(** [now'] is the clock [HitMapVertical] reads. *)
Definition ProcessVerticalEvent (conf : Conf) (now now' : Z) (b : HitBucket)
  : HitBucket * option EventPack :=
  let cnt := int32 (ver_count conf (Hitmap b)) in
  if (HitMapVerEventWarningPercent conf <=? cnt)%Z then
    let b := if (LastVerOverStart b =? 0)%Z then b <| LastVerOverStart := now |> else b in
    if (0 <? LastVerOverStart b)%Z &&
       (HitMapVerEventDuration conf <=? int64 (now - LastVerOverStart b))%Z then
      let b := b <| LastVerOverStart := 0%Z |> in
      if (HitMapVerEventFatalPercent conf <=? cnt)%Z then (b, Alert.HitMapVertical conf now' cnt FATAL)
      else (b, Alert.HitMapVertical conf now' cnt WARNING)
    else (b, None)
  else (b <| LastVerOverStart := 0%Z |>, None).

Definition horiz_cell (conf : Conf) (h : hitmap) (i : nat) : bool :=
  (0 <? Hit h i)%Z && (if HitMapHorizEventErrorOnly conf then (0 <? HitError h i)%Z else true).
(** The first cell of a list that counts: the loop breaks there. *)
Fixpoint first_cell (p : nat -> bool) (cells : list nat) : option nat :=
  match cells with [] => None | i :: cells => if p i then Some i else first_cell p cells end.
Definition ProcessHorizontalEvent (conf : Conf) (now now' : Z) (b : HitBucket)
  : HitBucket * option EventPack :=
  let pos := HitMapIndex (Hitmap b) (HitMapHorizEventBasetime conf) in
  match first_cell (horiz_cell conf (Hitmap b)) (seq pos (HITMAP_LENGTH - pos)) with
  | Some idx =>
      let b := if (LastHorizOverStart b =? 0)%Z then b <| LastHorizOverStart := now |> else b in
      if (HitMapHorizEventDuration conf <=? int64 (now - LastHorizOverStart b))%Z then
        (b <| LastHorizOverStart := 0%Z |>,
         Alert.HitMapHorizontal conf now' (HitMapTime (Hitmap b) idx))
      else (b, None)
  | None => (b <| LastHorizOverStart := 0%Z |>, None)
  end.
End Meter.
End MeterService.
