(* ===== verification/MeterServiceFacts.v ===== *)
(** The meter of transactions keeps exact accounts, as an instance of the
    interfaces of [Accumulator.v]: its buckets, and its statistics by caller. *)

From S2P Require Import Prelude Hmap Accumulator Meters MeterService.
Import MeterService.

(** * The least elapsed time since the last zero *)

Fixpoint after_zero (es : list Z) : list Z :=
  match es with
  | [] => []
  | e :: es' => if bool_decide (0%Z ∈ es) then after_zero es' else es
  end.
Definition zmin (es : list Z) : Z := match es with [] => 0%Z | e :: es => foldl Z.min e es end.
Definition zmax (es : list Z) : Z := foldl Z.max 0%Z es.

Lemma after_zero_none es : 0%Z ∉ es -> after_zero es = es.
Proof. destruct es; simpl; [done|]. intros H. by rewrite bool_decide_eq_false_2. Qed.
Lemma after_zero_snoc es e :
  after_zero (es ++ [e]) = if bool_decide (e = 0%Z) then [] else after_zero es ++ [e].
Proof.
  induction es as [|a es IH]; simpl.
  - case_bool_decide as H; case_bool_decide as H'; subst; simpl; [done|set_solver|set_solver|done].
  - destruct (decide (e = 0%Z)) as [->|Hne].
    + rewrite bool_decide_eq_true_2 by set_solver. by rewrite IH.
    + rewrite (bool_decide_eq_false_2 (e = 0%Z)) in * by done. rewrite IH.
      destruct (decide (0%Z ∈ a :: es)) as [Hi|Hi].
      * by rewrite !bool_decide_eq_true_2 by set_solver.
      * by rewrite !bool_decide_eq_false_2 by set_solver.
Qed.
Lemma after_zero_pos es : Forall (fun e => 0 <= e)%Z es -> Forall (fun e => 0 < e)%Z (after_zero es).
Proof.
  intros H. induction es as [|e es IH] using rev_ind; [done|]. rewrite after_zero_snoc.
  apply Forall_app in H as [H [He _]%Forall_cons]. case_bool_decide; [done|].
  apply Forall_app. split; [by apply IH|]. constructor; [lia|done].
Qed.
Lemma zmin_pos es : Forall (fun e => 0 < e)%Z es -> es <> [] -> (0 < zmin es)%Z.
Proof.
  destruct es as [|e es]; [done|]. simpl. intros [He H]%Forall_cons _. revert e He.
  induction es as [|a es IH]; simpl; intros e He; [done|].
  apply Forall_cons in H as [Ha H]. apply IH; [done|lia].
Qed.
Lemma zmin_snoc es e : es <> [] -> zmin (es ++ [e]) = Z.min (zmin es) e.
Proof. destruct es as [|a es]; [done|]. intros _. simpl. by rewrite foldl_app. Qed.

(** The running update of [TimeMin]. *)
Lemma min_step es e :
  Forall (fun e => 0 <= e)%Z es ->
  (if (zmin (after_zero es) =? 0)%Z || (e <? zmin (after_zero es))%Z then e else zmin (after_zero es)) =
  zmin (after_zero (es ++ [e])).
Proof.
  intros H. pose proof (after_zero_pos es H) as Hp. rewrite after_zero_snoc.
  destruct (after_zero es) as [|a l] eqn:E.
  - simpl. case_bool_decide; [by subst|done].
  - pose proof (zmin_pos _ Hp ltac:(done)) as Hz. case_bool_decide as He.
    + subst e. destruct (0 <? zmin (a :: l))%Z eqn:E2; [|lia]. by rewrite orb_true_r.
    + rewrite zmin_snoc by done. destruct (zmin (a :: l) =? 0)%Z eqn:E1; [lia|].
      cbn [orb]. destruct (e <? zmin (a :: l))%Z eqn:E2; lia.
Qed.

Section Facts.
Context {P : Pack} {LMi : LinkedMap Z} {LMp : LinkedMap (Z * Z)}.
Context {LLi : LinkedMapLaws Z LMi} {LLp : LinkedMapLaws (Z * Z) LMp}.
Variable conf : Conf.

(** * Samples and totals *)

Inductive sample := STx (tx : TxRecord) (pcode okind oid : Z) | SVirtual (tx : TxRecord).
#[export] Instance service_meter : BucketMeter t sample HitBucket := {
  bm_add m x := match x with
                | STx tx pcode okind oid => (Add conf m tx pcode okind oid).1
                | SVirtual tx => AddVirtualTx m tx
                end;
  bm_drain := GetAndResetBucket;
  bm_reset := ResetStat;
  bm_bucket := Bucket;
  bm_empty := NewHitBucket;
  bm_step x b := match x with
                 | STx tx _ _ _ => (add_bucket conf (clamp tx) b).1
                 | SVirtual tx => b <| Hitmap ::= fun h => hitmap_Add h (Elapsed tx) (is_error tx) |>
                 end
}.

Lemma add_caller_bucket tx pcode okind oid (m : t) :
  Bucket (add_caller conf tx pcode okind oid m) = Bucket m.
Proof. unfold add_caller. by repeat case_match. Qed.
Lemma ResetStat_bucket (m : t) : Bucket (ResetStat m) = Bucket m.
Proof. unfold ResetStat. by repeat case_match. Qed.

#[export] Instance service_meter_laws : BucketMeterLaws _ _ _ service_meter.
Proof.
  split; try done.
  - intros m [tx pcode okind oid|tx]; [|done]. cbn [bm_bucket bm_add bm_step service_meter]. unfold Add.
    destruct (add_bucket _ _ _) as [b tx']. cbn [fst].
    case_match; [by rewrite add_caller_bucket|done].
  - apply ResetStat_bucket.
Qed.

Definition tx_of (x : sample) : option TxRecord :=
  match x with STx tx _ _ _ => Some (clamp tx) | SVirtual _ => None end.
Definition txs_of (xs : list sample) : list TxRecord := omap tx_of xs.
Definition hit_sample (h : hitmap) (x : sample) : hitmap :=
  match x with
  | STx tx _ _ _ => hitmap_Add h (Elapsed (clamp tx)) (is_error tx)
  | SVirtual tx => hitmap_Add h (Elapsed tx) (is_error tx)
  end.
Definition satisfied (tx : TxRecord) : bool := negb (is_error tx) && (Elapsed tx <=? ApdexTime conf)%Z.
Definition tolerated (tx : TxRecord) : bool :=
  negb (is_error tx) && negb (Elapsed tx <=? ApdexTime conf)%Z && (Elapsed tx <=? ApdexTime4T conf)%Z.

Definition service_totals (xs : list sample) : HitBucket :=
  let txs := txs_of xs in
  {| Hitmap := foldl hit_sample NewHitMapPack1 xs;
     Count := int32 (Z.of_nat (length txs));
     CountSatisfied := int32 (zcount satisfied txs);
     CountTolerated := int32 (zcount tolerated txs);
     CountTotal := int32 (Z.of_nat (length txs));
     Timesum := int64 (zsum Elapsed txs);
     DbcSum := int64 (zsum DbcTime txs);
     SqlSum := int64 (zsum SqlTime txs);
     HttpcSum := int64 (zsum HttpcTime txs);
     Error_ := int32 (zcount is_error txs);
     TimeSqrSum := int64 (zsum (fun tx => Elapsed tx * Elapsed tx)%Z txs);
     TimeMin := zmin (after_zero (Elapsed <$> txs));
     TimeMax := zmax (Elapsed <$> txs);
     LastVerEvent := 0; LastVerOverStart := 0; LastHorizEvent := 0; LastHorizOverStart := 0 |}.

Lemma clamp_pos tx : (0 <= Elapsed (clamp tx))%Z.
Proof. unfold clamp. case_match; simpl; lia. Qed.
Lemma clamp_error tx : is_error (clamp tx) = is_error tx.
Proof. unfold clamp. by case_match. Qed.
Lemma txs_pos xs : Forall (fun e => 0 <= e)%Z (Elapsed <$> txs_of xs).
Proof.
  apply Forall_fmap, Forall_forall. intros tx (x & Hx & E)%list_elem_of_omap.
  destruct x; simplify_eq/=. apply clamp_pos.
Qed.

(** The updates, field by field. *)
Lemma add_extremes_eq tx b :
  add_extremes tx b =
    b <| Hitmap := hitmap_Add (Hitmap b) (Elapsed tx) (is_error tx) |>
      <| TimeSqrSum := add64 (int64 (Elapsed tx * Elapsed tx)) (TimeSqrSum b) |>
      <| TimeMax := Z.max (TimeMax b) (Elapsed tx) |>
      <| TimeMin := if (TimeMin b =? 0)%Z || (Elapsed tx <? TimeMin b)%Z then Elapsed tx else TimeMin b |>.
Proof.
  assert (Z.max (TimeMax b) (Elapsed tx) = if (TimeMax b <? Elapsed tx)%Z then Elapsed tx else TimeMax b)
    as -> by (case_match; lia).
  destruct b as [? ? ? ? ? ? ? ? ? ? ? mn mx]. unfold add_extremes. simpl.
  destruct (mx <? Elapsed tx)%Z; simpl; by destruct (_ || _).
Qed.
Lemma add_apdex_eq tx b :
  (add_apdex conf tx b).1 =
    b <| Error_ ::= inc32_if (is_error tx) |> <| CountTotal ::= inc32 |>
      <| CountSatisfied ::= inc32_if (satisfied tx) |> <| CountTolerated ::= inc32_if (tolerated tx) |>.
Proof.
  destruct b. unfold add_apdex, satisfied, tolerated. destruct (is_error tx); [done|].
  destruct (Elapsed tx <=? ApdexTime conf)%Z; [done|]. by destruct (Elapsed tx <=? ApdexTime4T conf)%Z.
Qed.
Lemma add_apdex_tx tx b :
  Elapsed (add_apdex conf tx b).2 = Elapsed tx /\ is_error (add_apdex conf tx b).2 = is_error tx.
Proof. unfold add_apdex. by repeat case_match. Qed.
Lemma add_bucket_eq tx b : (add_bucket conf tx b).1 = add_extremes tx (add_apdex conf tx (add_sums tx b)).1.
Proof.
  unfold add_bucket. destruct (add_apdex_tx tx (add_sums tx b)) as [H1 H2].
  destruct (add_apdex _ _ _) as [b' tx']. cbn [fst snd] in *. unfold add_extremes. by rewrite H1, H2.
Qed.

(** One transaction more. *)
Lemma totals_tx xs tx pcode okind oid :
  (add_bucket conf (clamp tx) (service_totals xs)).1 = service_totals (xs ++ [STx tx pcode okind oid]).
Proof.
  rewrite add_bucket_eq, add_extremes_eq, add_apdex_eq.
  unfold service_totals, txs_of. rewrite omap_app, fmap_app, foldl_app.
  cbn [omap list_omap tx_of fmap list_fmap foldl hit_sample].
  rewrite <- (clamp_error tx). pose proof (clamp_pos tx) as He. pose proof (txs_pos xs) as Hp. unfold txs_of in Hp.
  set (txs := omap tx_of xs) in *. clearbody txs.
  set (h := foldl hit_sample NewHitMapPack1 xs). clearbody h. generalize dependent (clamp tx). clear tx.
  intros tx He.
  rewrite <- min_step, length_app, !zsum_snoc, !zcount_snoc, Nat2Z.inj_add by done.
  unfold zmax. rewrite foldl_app. cbn [foldl length].
  set (mn := zmin (after_zero _)). clearbody mn. simpl.
  rewrite <- (wrap_s_add 64 (zsum (fun tx => _) _) (Elapsed tx * Elapsed tx)) by lia.
  f_equal; sums.
Qed.

Lemma service_summary xs : summary xs = service_totals xs.
Proof.
  unfold summary. induction xs as [|x xs IH] using rev_ind; [done|].
  rewrite foldl_app, IH. destruct x as [tx pcode okind oid|tx]; [apply totals_tx|].
  unfold service_totals, txs_of. rewrite omap_app, foldl_app. simpl. by rewrite app_nil_r.
Qed.

(** * By caller *)

(** The apdex does not matter to the callers' statistics. *)
Lemma Add_fst m tx pcode okind oid :
  (Add conf m tx pcode okind oid).1 =
    let m := m <| Bucket := (add_bucket conf (clamp tx) (Bucket m)).1 |> in
    if TxCallerMeterEnabled conf then add_caller conf (clamp tx) pcode okind oid m else m.
Proof.
  unfold Add, add_bucket, add_apdex. repeat case_match; simplify_eq/=; done.
Qed.

Definition called (x : sample) : option (TxRecord * Z * Z * Z) :=
  match x with
  | STx tx pcode okind oid => if TxCallerMeterEnabled conf then Some (tx, pcode, okind, oid) else None
  | SVirtual _ => None
  end.
Definition own_oid (x : sample) : option Z :=
  '(_, pcode, _, oid) ← called x;
  if negb (oid =? 0)%Z && (pcode =? PCODE conf)%Z then Some oid else None.
Definition other_poid (x : sample) : option (Z * Z) :=
  '(_, pcode, _, oid) ← called x;
  if negb (oid =? 0)%Z && negb (pcode =? PCODE conf)%Z then Some (pcode, oid) else None.
Definition pkind (x : sample) : option (Z * Z) :=
  '(_, pcode, okind, oid) ← called x;
  if negb (oid =? 0)%Z && TxCallerMeterPKindEnabled conf then Some (pcode, okind) else None.
Definition of_tx {V} (f : TxRecord -> V -> V) (x : sample) (c : V) : V :=
  match x with STx tx _ _ _ => f (clamp tx) c | SVirtual _ => c end.

Definition by_oid : KeyedMeter t sample Z BucketSimple :=
  {| km_stat := StatByOID; km_bound := 307; km_key := own_oid;
     km_dflt := NewBucketSimple; km_step := of_tx count_oid |}.
Definition by_poid : KeyedMeter t sample (Z * Z) BucketSimple :=
  {| km_stat := StatByPOID; km_bound := 307; km_key := other_poid;
     km_dflt := NewBucketSimple; km_step := of_tx count_simple |}.
Definition by_pkind : KeyedMeter t sample (Z * Z) BucketSimple :=
  {| km_stat := StatByPKIND; km_bound := 307; km_key := pkind;
     km_dflt := NewBucketSimple; km_step := of_tx count_simple |}.

Lemma reset_map {K V} `{LinkedMapLaws K} (m m' : lmap V) n :
  m' = (if bool_decide (0 < lm_size m) then lm_new n else m) -> capacity n m ->
  capacity n m' /\ lm_entries m' = [].
Proof.
  intros -> Hc. case_bool_decide as Hs; [apply fresh_map|]. split; [done|].
  unfold lm_size in Hs. destruct (lm_entries m); [done|]. simpl in Hs. lia.
Qed.

Lemma ResetStat_eq (m : t) :
  StatByOID (ResetStat m) = (if bool_decide (0 < lm_size (StatByOID m)) then lm_new 307 else StatByOID m) /\
  StatByPKIND (ResetStat m) = (if bool_decide (0 < lm_size (StatByPKIND m)) then lm_new 307 else StatByPKIND m) /\
  StatByPOID (ResetStat m) = (if bool_decide (0 < lm_size (StatByPOID m)) then lm_new 307 else StatByPOID m) /\
  Unknown (ResetStat m) = (if (0 <? s_Count (Unknown m))%Z then NewBucketSimple else Unknown m).
Proof.
  destruct m as [b o pk po u a]. unfold ResetStat. generalize 307. intros n.
  cbn [StatByOID StatByPKIND StatByPOID Unknown].
  destruct (bool_decide (0 < lm_size o)); simpl; destruct (bool_decide (0 < lm_size pk)); simpl;
    destruct (bool_decide (0 < lm_size po)); simpl; by destruct (_ <? _)%Z.
Qed.

Ltac keyed_service :=
  split; [|done|]; [
    intros m [tx pcode okind oid|tx]; [|done]; cbn [bm_add service_meter]; rewrite Add_fst;
    cbn; destruct (TxCallerMeterEnabled conf); [|done]; unfold add_caller; simpl;
    destruct (oid =? 0)%Z, (pcode =? PCODE conf)%Z, (TxCallerMeterPKindEnabled conf); done
  | intros m; apply reset_map; by apply ResetStat_eq ].
Lemma by_oid_laws : KeyedMeterLaws t sample HitBucket Z BucketSimple LMi service_meter by_oid.
Proof. keyed_service. Qed.
Lemma by_poid_laws : KeyedMeterLaws t sample HitBucket (Z * Z) BucketSimple LMp service_meter by_poid.
Proof. keyed_service. Qed.
Lemma by_pkind_laws : KeyedMeterLaws t sample HitBucket (Z * Z) BucketSimple LMp service_meter by_pkind.
Proof. keyed_service. Qed.

(** The totals of a caller's transactions; those of the own project have the sums
    of the steps. *)
Definition caller_totals (own : bool) (xs : list sample) : BucketSimple :=
  let txs := txs_of xs in
  let of_steps f := int64 (zsum f (if own then txs else [])) in
  mkSimple (int32 (Z.of_nat (length txs))) (int64 (zsum Elapsed txs))
    (of_steps DbcTime) (of_steps SqlTime) (of_steps HttpcTime) (int32 (zcount is_error txs)).

Lemma txs_snoc xs x : txs_of (xs ++ [x]) = txs_of xs ++ match tx_of x with Some tx => [tx] | None => [] end.
Proof. unfold txs_of. rewrite omap_app. simpl. by destruct (tx_of x). Qed.
Lemma totals_own tx xs :
  count_oid (clamp tx) (caller_totals true xs) = caller_totals true (xs ++ [STx tx 0 0 0]) .
Proof.
  unfold caller_totals. rewrite txs_snoc. simpl. unfold count_oid. simpl.
  rewrite length_app, Nat2Z.inj_add. f_equal; sums.
Qed.
Lemma totals_other tx xs :
  count_simple (clamp tx) (caller_totals false xs) = caller_totals false (xs ++ [STx tx 0 0 0]).
Proof.
  unfold caller_totals. rewrite txs_snoc. simpl. unfold count_simple. simpl.
  rewrite length_app, Nat2Z.inj_add. f_equal; sums.
Qed.
Lemma totals_who own xs tx pcode okind oid :
  caller_totals own (xs ++ [STx tx pcode okind oid]) = caller_totals own (xs ++ [STx tx 0 0 0]).
Proof. unfold caller_totals. by rewrite !txs_snoc. Qed.
Lemma totals_virtual own xs tx : caller_totals own (xs ++ [SVirtual tx]) = caller_totals own xs.
Proof. unfold caller_totals. by rewrite txs_snoc, app_nil_r. Qed.

Lemma own_fold xs : fold_key NewBucketSimple (of_tx count_oid) xs = caller_totals true xs.
Proof.
  unfold fold_key. induction xs as [|x xs IH] using rev_ind; [done|]. rewrite foldl_app, IH.
  destruct x; [by rewrite totals_who, <- totals_own|by rewrite totals_virtual].
Qed.
Lemma other_fold xs : fold_key NewBucketSimple (of_tx count_simple) xs = caller_totals false xs.
Proof.
  unfold fold_key. induction xs as [|x xs IH] using rev_ind; [done|]. rewrite foldl_app, IH.
  destruct x; [by rewrite totals_who, <- totals_other|by rewrite totals_virtual].
Qed.

(** Transactions without a known caller. *)
Definition unknown (x : sample) : bool :=
  match called x with Some (_, _, _, oid) => (oid =? 0)%Z | None => false end.
Lemma Unknown_run os :
  (Z.of_nat (length (samples os)) < 2 ^ 31)%Z ->
  Unknown (brun newMeterService os).1 =
    caller_totals false (filter (fun x => unknown x = true) (since_reset os)).
Proof.
  intros Hl. assert (length (since_reset os) <= length (samples os) /\
    Unknown (brun newMeterService os).1 =
    caller_totals false (filter (fun x => unknown x = true) (since_reset os))) as [_ H]; [|done].
  induction os as [|o os IH] using rev_ind; [done|].
  unfold brun, since_reset, samples in *. rewrite omap_app, length_app in *. rewrite !foldl_app.
  destruct IH as [Hn IH]; [lia|].
  set (s := foldl bexec (newMeterService, []) os) in *. clearbody s.
  set (xs := foldl _ [] os) in *. clearbody xs. destruct o as [x| |].
  - cbn [foldl bexec fst]. rewrite filter_app, length_app. split; [simpl in *; lia|].
    rewrite filter_cons, filter_nil. destruct x as [tx pcode okind oid|tx].
    + cbn [bm_add service_meter]. rewrite Add_fst. unfold unknown. cbn [called]. simpl.
      destruct (TxCallerMeterEnabled conf); [|by rewrite app_nil_r]. unfold add_caller. simpl.
      destruct (oid =? 0)%Z eqn:Eo; simpl.
      * rewrite totals_who, <- totals_other. by f_equal.
      * rewrite app_nil_r. by repeat case_match.
    + by rewrite app_nil_r.
  - simpl. by rewrite Nat.add_0_r.
  - cbn [foldl bexec fst bm_reset service_meter]. split; [simpl; lia|].
    destruct (ResetStat_eq s.1) as (_ & _ & _ & ->). rewrite IH. case_match eqn:E; [done|].
    set (us := filter _ xs) in *. assert (length us <= length xs) by apply length_filter.
    assert (length (txs_of us) <= length us).
    { clear. induction us as [|x us IH]; [done|]. simpl. unfold txs_of in *. simpl. destruct (tx_of x); simpl; lia. }
    simpl in E. rewrite int32_id in E by lia.
    unfold caller_totals. by destruct (txs_of us).
Qed.

(** * The properties *)

(** C38. The meter of transactions is exact: the buckets handed out, with the
    current one, are the totals of consecutive segments of what was added.  A bucket
    has the counts, the time sums with negative times as zero, the errors, the
    satisfied and tolerated responses and the largest time of its transactions; the
    hit map also has the virtual ones.  Its least time is only that since the last
    transaction of no time. *)
Theorem MeterService_exact os :
  let s := brun newMeterService os in
  exists segs, concat segs = samples os /\
    s.2 ++ [Bucket s.1] = service_totals <$> segs.
Proof. apply (segments_totals (BM := service_meter) service_totals newMeterService); [done|apply service_summary]. Qed.

(** The statistics by caller are exact: since the last [ResetStat], a caller of
    the own project, another caller and a kind of caller each have the totals of
    exactly their transactions, as long as they fit the maps, and the unknown
    callers those of the transactions without a caller. *)
Theorem MeterService_callers os :
  let m := (brun newMeterService os).1 in
  let xs := since_reset os in
  (keys_fit 307 (keyed_samples (KM := by_oid) xs) -> forall oid,
     lm_get (StatByOID m) oid = entry_of (caller_totals true) (filter (fun x => own_oid x = Some oid) xs)) /\
  (keys_fit 307 (keyed_samples (KM := by_poid) xs) -> forall poid,
     lm_get (StatByPOID m) poid = entry_of (caller_totals false) (filter (fun x => other_poid x = Some poid) xs)) /\
  (keys_fit 307 (keyed_samples (KM := by_pkind) xs) -> forall pk,
     lm_get (StatByPKIND m) pk = entry_of (caller_totals false) (filter (fun x => pkind x = Some pk) xs)) /\
  ((Z.of_nat (length (samples os)) < 2 ^ 31)%Z ->
     Unknown m = caller_totals false (filter (fun x => unknown x = true) xs)).
Proof.
  split_and!.
  - intros Hf oid. pose proof (stat_totals (KL := by_oid_laws) _ newMeterService os oid
      ltac:(right; simpl; by rewrite max_new) (entries_new _ _) own_fold Hf) as H.
    by rewrite of_key_filter in H.
  - intros Hf poid. pose proof (stat_totals (KL := by_poid_laws) _ newMeterService os poid
      ltac:(left; simpl; by rewrite max_new) (entries_new _ _) other_fold Hf) as H.
    by rewrite of_key_filter in H.
  - intros Hf pk. pose proof (stat_totals (KL := by_pkind_laws) _ newMeterService os pk
      ltac:(right; simpl; by rewrite max_new) (entries_new _ _) other_fold Hf) as H.
    by rewrite of_key_filter in H.
  - apply Unknown_run.
Qed.
End Facts.

(** * A witness *)
Section Witnesses.
#[local] Existing Instance ListMap.list_map.
#[local] Existing Instance ListMap.list_map_laws.
(** Cells of 100 ms, the last open. *)
Definition cell_of (e : Z) : nat := Nat.min 119 (Z.to_nat (e / 100)).
#[local] Instance pack1 : Pack := {|
  hitmap := list (Z * bool);
  NewHitMapPack1 := [];
  hitmap_Add h e err := (e, err) :: h;
  Hit h i := zcount (fun x => bool_decide (cell_of x.1 = i)) h;
  HitError h i := zcount (fun x => bool_decide (cell_of x.1 = i) && x.2) h;
  HitMapIndex _ e := cell_of e;
  HitMapTime _ i := (Z.of_nat i * 100)%Z;
  HITMAP_VERTICAL_INDEX := 20;
  HITMAP_LENGTH := 120;
  WARNING := 20;
  FATAL := 30
|}.
Definition tx1 (elapsed level : Z) : TxRecord := mkTx elapsed 3 2 1 level 0.
Definition service_ops : list (bop sample) :=
  [BAdd (STx (tx1 50 0) 12 1 77); BAdd (STx (tx1 (-4) 20) 12 1 77); BDrain;
   BAdd (STx (tx1 9 0) 13 1 77); BAdd (STx (tx1 8 0) 12 2 0)].
Lemma MeterService_callers_witness :
  let m := (brun (BM := service_meter conf1) newMeterService service_ops).1 in
  lm_get (StatByOID m) 77%Z = Some (mkSimple 2 50 6 4 2 1) /\
  lm_get (StatByPOID m) (13, 77)%Z = Some (mkSimple 1 9 0 0 0 0) /\
  lm_get (StatByPKIND m) (12, 1)%Z = Some (mkSimple 2 50 0 0 0 1) /\
  Unknown m = mkSimple 1 8 0 0 0 0.
Proof.
  destruct (MeterService_callers conf1 service_ops) as (H1 & H2 & H3 & H4). split_and!.
  - rewrite H1; [vm_compute; reflexivity|]. apply (fit_within _ [77]%Z). vm_compute. reflexivity.
  - rewrite H2; [vm_compute; reflexivity|]. apply (fit_within _ [(13, 77)]%Z). vm_compute. reflexivity.
  - rewrite H3; [vm_compute; reflexivity|].
    apply (fit_within _ [(12, 1); (13, 1)]%Z). vm_compute. reflexivity.
  - rewrite H4; [vm_compute; reflexivity|]. vm_compute. reflexivity.
Defined.
End Witnesses.
