(* ===== verification/MeterActiveX.v ===== *)
(** The meter of active transactions by caller, SQL connection and HTTP host,
    [src/agent/agent/counter/meter/MeterActiveX.go], and the meter of connection
    pools, [MeterConnPool.go].

    A nil map is [None]; a method called on it panics.  A [*ref.INT] the maps hold
    is its value.  golib's [IntIntLinkedMap.Add] adds to the value of the key and
    [Get] gives 0 for an absent key. *)

From S2P Require Import Prelude Hmap Meters.

(** [idx]: a Go [switch] does not fall through, so the empty cases do nothing and
    the function goes on to its last [return]. *)
Definition idx (elapsed : Z) : nat :=
  match Z.quot elapsed 1000 with
  | 0%Z | 1%Z => 2
  | 2%Z => 0
  | 3%Z | 4%Z | 5%Z | 6%Z => 2
  | 7%Z => 1
  | _ => 2
  end.

Definition int16 : Z -> Z := wrap_s 16.
(** The increment of an [int], the value of a [*ref.INT]. *)
Definition inc64 (n : Z) : Z := int64 (n + 1).

Module MeterActiveX.
Section Meter.
Context {LMi : LinkedMap Z} {LMp : LinkedMap (Z * Z)}.

Record t := mk {
  StatByOid : lmap (K := Z) Z;
  StatByGroup : lmap (K := Z * Z) Z;
  StatByPOid : lmap (K := Z * Z) Z;
  StatSql : lmap (K := Z) Z;
  StatSliceSql : option (lmap (K := Z) (list Z));
  StatHttpc : lmap (K := Z) Z;
  StatSliceHttpc : option (lmap (K := Z) (list Z));
  Unknown : Z
}.
Definition newMeterActiveX : t :=
  mk (lm_new 0) (lm_new 0) (lm_new 0) (lm_new 0) None (lm_new 0) None 0.

(** The package variable, which nothing assigns. *)
Definition meterActiveX : option t := None.
Definition GetInstanceMeterActiveX : t :=
  match meterActiveX with Some m => m | None => newMeterActiveX end.

Definition AddTx (conf : Conf) (m : t) (callerPcode callerOkind callerOid : Z) : t :=
  if negb (callerOid =? 0)%Z then
    let m :=
      if (callerPcode =? PCODE conf)%Z then m <| StatByOid ::= fun s => touch s callerOid 0%Z inc32 |>
      else m <| StatByPOid ::= fun s => touch s (callerPcode, callerOid) 0%Z inc64 |> in
    m <| StatByGroup ::= fun s => touch s (callerPcode, callerOkind) 0%Z inc64 |>
  else m <| Unknown ::= inc64 |>.

(** [Clear] of a linked map keeps its bound. *)
Definition lm_clear {K V} {LM : LinkedMap K} (m : lmap V) : lmap V := lm_new (lm_max m).
Definition resetIntKey (m : option (lmap (K := Z) (list Z))) : option (lmap (K := Z) (list Z)) :=
  match m with None => Some (lm_new 0) | Some m => Some (lm_clear m) end.
(** [ReInit] does not reset [Unknown]. *)
Definition ReInit (m : t) : t :=
  m <| StatByOid ::= lm_clear |> <| StatByGroup := lm_new 0 |> <| StatByPOid := lm_new 0 |>
    <| StatSql ::= lm_clear |> <| StatSliceSql ::= resetIntKey |>
    <| StatHttpc ::= lm_clear |> <| StatSliceHttpc ::= resetIntKey |>.
Definition Clear (m : t) : t := ReInit m.

Definition AddSql (m : t) (dbc : Z) : t := m <| StatSql ::= fun s => touch s dbc 0%Z inc32 |>.
Definition AddHttpc (m : t) (host : Z) : t := m <| StatHttpc ::= fun s => touch s host 0%Z inc32 |>.

(** [v[idx(elapsed)]++] on an array of three. *)
Definition slice_inc (elapsed : Z) (v : list Z) : list Z :=
  alter (fun n => int16 (n + 1)) (idx elapsed) v.
Definition add_slice (s : option (lmap (K := Z) (list Z))) (k elapsed : Z)
  : res (option (lmap (K := Z) (list Z))) :=
  match s with
  | None => Panic
  | Some s => Ret (Some (touch s k [0; 0; 0]%Z (slice_inc elapsed)))
  end.
Definition AddSqlSlice (m : t) (dbc elapsed : Z) : res t :=
  s ← add_slice (StatSliceSql m) dbc elapsed; mret (m <| StatSliceSql := s |>).
Definition AddSqlHttpc (m : t) (host elapsed : Z) : res t :=
  s ← add_slice (StatSliceHttpc m) host elapsed; mret (m <| StatSliceHttpc := s |>).
End Meter.
End MeterActiveX.

(** [IntIntMap] of golib: a map of integers, [Put] and [Get]. *)
Module MeterConnPool.
Record ConnPoolBucket := mkBucket { Active : gmap Z Z; InActive : gmap Z Z }.
Definition NewConnPoolBucket : ConnPoolBucket := mkBucket ∅ ∅.
Record t := mk { Bucket : option ConnPoolBucket }.
(** [newMeterConnPool] calls [GetBucketReset] on a meter with no bucket. *)
Definition GetBucketReset (m : t) : option ConnPoolBucket * t := (Bucket m, mk (Some NewConnPoolBucket)).
Definition newMeterConnPool : t := (GetBucketReset (mk None)).2.
Definition Clear (m : t) : t := mk (Some NewConnPoolBucket).
Definition AddDBConnPool (m : t) (urlHash actCnt inactCnt : Z) : res t :=
  match Bucket m with
  | None => Panic
  | Some b =>
      Ret (mk (Some (b <| Active ::= fun a => <[urlHash := actCnt]> a |>
                       <| InActive ::= fun a => <[urlHash := inactCnt]> a |>)))
  end.
Definition GetActiveMap (b : ConnPoolBucket) : gmap Z Z := Active b.
Definition GetIdleMap (b : ConnPoolBucket) : gmap Z Z := InActive b.
End MeterConnPool.

(** The classes [idx] makes of times: only the third and the eighth second are set
    apart. *)
Theorem idx_classes elapsed :
  (0 <= elapsed)%Z ->
  idx elapsed = if bool_decide (2000 <= elapsed < 3000)%Z then 0
                else if bool_decide (7000 <= elapsed < 8000)%Z then 1 else 2.
Proof.
  intros H. unfold idx. rewrite Z.quot_div_nonneg by lia.
  pose proof (Z.div_mod elapsed 1000 ltac:(lia)) as E.
  pose proof (Z.mod_pos_bound elapsed 1000 ltac:(lia)) as B.
  assert (0 <= elapsed / 1000)%Z by (apply Z.div_pos; lia).
  set (q := (elapsed / 1000)%Z) in *. clearbody q.
  destruct (decide (q < 8)%Z).
  - assert (q = 0 \/ q = 1 \/ q = 2 \/ q = 3 \/ q = 4 \/ q = 5 \/ q = 6 \/ q = 7)%Z as Hq by lia.
    destruct Hq as [->|[->|[->|[->|[->|[->|[->| ->]]]]]]]; repeat case_bool_decide; done || lia.
  - rewrite !bool_decide_eq_false_2 by lia.
    destruct q as [|q|q]; try lia. do 3 (destruct q as [q|q|]; try done; try lia).
Qed.

Section Slices.
Context {LMi : LinkedMap Z} {LMp : LinkedMap (Z * Z)}.
(** Counting a slice on a meter that was not [ReInit]ed is a nil dereference. *)
Theorem AddSqlSlice_panics dbc elapsed :
  MeterActiveX.AddSqlSlice MeterActiveX.GetInstanceMeterActiveX dbc elapsed = Panic.
Proof. done. Qed.
End Slices.
