(* ===== verification/CounterTasks.v ===== *)
(** The counter tasks that drain the meters into the counter pack every five
    seconds: [src/agent/agent/counter/TaskSql.go], [TaskHttpc.go] and
    [TaskTransaction.go].

    [pack.CounterPack1] and the meters it carries are golib structs; the fields the
    tasks write are kept, a nil map is [None].  A pointer a linked map stores is
    its value, except where the code keeps a pointer the map does not have
    ([sqlActxMeter]).  The clock is an argument.  Logging, the start of the stack
    dump and of the standard streams' readers and [trace.UpdatePOID] are left out. *)

From S2P Require Import Prelude Hmap Meters MeterService MeterActiveX.
From Stdlib Require Import SpecFloat.

(** Go's [float32] and conversions; a [float64] out of [int32]'s range converts as on
    amd64. *)
Definition float32 : Type := spec_float.
Definition f32_of_Z (z : Z) : float32 := binary_normalize 24 128 z 0 false.
Definition f32_div : float32 -> float32 -> float32 := SFdiv 24 128.
Definition f32_mul : float32 -> float32 -> float32 := SFmul 24 128.
Definition f32_of_f64 (x : float64) : float32 :=
  match x with
  | S754_finite s m e => binary_normalize 24 128 (if s then Z.neg m else Z.pos m) e s
  | _ => x
  end.
Definition f64_trunc (x : float64) : option Z :=
  match x with
  | S754_zero _ => Some 0%Z
  | S754_finite s m e =>
      let q := if (0 <=? e)%Z then (Z.pos m * 2 ^ e)%Z else (Z.pos m / 2 ^ (- e))%Z in
      Some (if s then - q else q)%Z
  | _ => None
  end.
Definition f64_to_int32 (x : float64) : Z :=
  match f64_trunc x with
  | Some z => if (- 2 ^ 31 <=? z)%Z && (z <? 2 ^ 31)%Z then z else (- 2 ^ 31)%Z
  | None => (- 2 ^ 31)%Z
  end.

(** The meters a pack carries. *)
Record SqlMeter := mkSqlMeter {
  sm_Time : Z; sm_Count : Z; sm_Error : Z; sm_FetchCount : Z; sm_FetchTime : Z; sm_Actx : Z
}.
Definition NewSqlMeter : SqlMeter := mkSqlMeter 0 0 0 0 0 0.
Record HttpcMeter := mkHttpcMeter { hm_Time : Z; hm_Count : Z; hm_Error : Z; hm_Actx : Z }.
Definition NewHttpcMeter : HttpcMeter := mkHttpcMeter 0 0 0 0.
Record TxMeter := mkTxMeter { tm_Time : Z; tm_Count : Z; tm_Error : Z; tm_Actx : Z }.
Definition NewTxMeter : TxMeter := mkTxMeter 0 0 0 0.

(** golib's [mathutil]. *)
Class MathUtil := {
  GetStandardDeviation : Z -> float64 -> float64 -> float64;
  GetPct90 : float64 -> float64 -> float64;
  GetPct95 : float64 -> float64 -> float64
}.

Section Tasks.
Context {LMi : LinkedMap Z} {LMp : LinkedMap (Z * Z)}.

Record CounterPack := mkPack {
  Time : Z; CollectIntervalMs : Z;
  p_SqlTime : Z; SqlCount : Z; SqlError : Z; SqlFetchCount : Z; SqlFetchTime : Z;
  p_SqlMeter : option (lmap (K := Z) SqlMeter);
  p_HttpcTime : Z; HttpcCount : Z; HttpcError : Z;
  p_HttpcMeter : option (lmap (K := Z) HttpcMeter);
  ServiceCount : Z; ServiceTime : Z; ServiceError : Z;
  ApdexSatisfied : Z; ApdexTolerated : Z; ApdexTotal : Z;
  TxDbcTime : float32; TxSqlTime : float32; TxHttpcTime : float32;
  TxcallerOidMeter : option (lmap (K := Z) TxMeter);
  TxcallerGroupMeter : option (lmap (K := Z * Z) TxMeter);
  TxcallerPOidMeter : option (lmap (K := Z * Z) TxMeter);
  TxcallerUnknown : option TxMeter;
  ArrivalRate : float32; Tps : float32; RespTime : Z;
  Resp90 : Z; Resp95 : Z; p_TimeSqrSum : Z
}.

(** [for i := 0; i < n && en.HasMoreElements(); i++]: an update of the map [d] for
    each of the first [n] entries of [s], in order. *)
Definition copy_entries {K V W} {LM : LinkedMap K} (n : nat) (s : lmap V)
    (put : lmap W -> K -> V -> lmap W) (d : lmap W) : lmap W :=
  foldl (fun d kv => put d kv.1 kv.2) d (take n (lm_entries s)).
(** [if m == nil { m = NewLinkedMapDefault() }] *)
Definition or_new {K V} {LM : LinkedMap K} (m : option (lmap V)) : lmap V := default (lm_new 0) m.
(** [m.Actx = n] for the meter of a key, a new one if there is none. *)
Definition put_actx {K} `{EqDecision K} {LM : LinkedMap K} {W} (dflt : W) (set_ : Z -> W -> W)
    (d : lmap W) (k : K) (n : Z) : lmap W := touch d k dflt (set_ n).

End Tasks.

(** * SQL *)
Module TaskSql.
Section Task.
Context {LMi : LinkedMap Z} {LMp : LinkedMap (Z * Z)}.
Definition sqlMeter (m : MeterSQL.t) (p : CounterPack) : MeterSQL.t * CounterPack :=
  if bool_decide (0 < lm_size (MeterSQL.Stat m)) then
    let d := copy_entries 100 (MeterSQL.Stat m)
      (fun d key b => lm_put d key (mkSqlMeter (MeterSQL.Time b) (MeterSQL.Count b)
         (MeterSQL.Error_ b) (MeterSQL.FetchCount b) (MeterSQL.FetchTime b) 0)) (lm_new 0) in
    (MeterSQL.ResetStat m, p <| p_SqlMeter := Some d |>)
  else (m, p).

(** For an absent key the code puts one new meter and sets [Actx] of another. *)
Definition sqlActxMeter (a : MeterActiveX.t) (p : CounterPack) : CounterPack :=
  let s := MeterActiveX.StatSql a in
  if bool_decide (0 < lm_size s) then
    p <| p_SqlMeter := Some (copy_entries 300 s
           (fun d key n =>
              match lm_get d key with
              | None => lm_put d key NewSqlMeter
              | Some _ => lm_write d key (fun m => m <| sm_Actx := n |>)
              end) (or_new (p_SqlMeter p))) |>
  else p.

(** The state is [stime]. *)
Definition process (conf : Conf) (now stime : Z) (m : MeterSQL.t) (p : CounterPack)
  : Z * MeterSQL.t * CounterPack :=
  if negb (CounterEnabledSql_ conf) then (stime, m, p)
  else
    let '(mSql, m) := MeterSQL.GetBucketReset m in
    let p := p <| p_SqlTime := MeterSQL.Time mSql |> <| SqlCount := MeterSQL.Count mSql |>
               <| SqlError := MeterSQL.Error_ mSql |> <| SqlFetchCount := MeterSQL.FetchCount mSql |>
               <| SqlFetchTime := MeterSQL.FetchTime mSql |> in
    let dtime := int64 (now - stime) in
    if (dtime =? 0)%Z then (stime, m, p)
    else
      let '(m, p) := if SqlDbcMeterEnabled conf then sqlMeter m p else (m, p) in
      let p := if ActxMeterEnabled conf then sqlActxMeter MeterActiveX.GetInstanceMeterActiveX p else p in
      (now, m, p).
End Task.
End TaskSql.

(** * HTTP calls *)
Module TaskHttpc.
Section Task.
Context {LMi : LinkedMap Z} {LMp : LinkedMap (Z * Z)}.
Definition httpcMeter (m : MeterHTTPC.t) (p : CounterPack) : MeterHTTPC.t * CounterPack :=
  if bool_decide (0 < lm_size (MeterHTTPC.Stat m)) then
    let d := copy_entries 100 (MeterHTTPC.Stat m)
      (fun d key b => lm_put d key (mkHttpcMeter (MeterHTTPC.Time b) (MeterHTTPC.Count b)
         (MeterHTTPC.Error_ b) 0)) (lm_new 0) in
    (MeterHTTPC.ResetStat m, p <| p_HttpcMeter := Some d |>)
  else (m, p).
Definition httpcActxMeter (a : MeterActiveX.t) (p : CounterPack) : CounterPack :=
  let s := MeterActiveX.StatHttpc a in
  if bool_decide (0 < lm_size s) then
    p <| p_HttpcMeter := Some (copy_entries 300 s
           (put_actx NewHttpcMeter (fun n m => m <| hm_Actx := n |>)) (or_new (p_HttpcMeter p))) |>
  else p.
Definition process (conf : Conf) (now stime : Z) (m : MeterHTTPC.t) (p : CounterPack)
  : Z * MeterHTTPC.t * CounterPack :=
  if negb (CounterEnabledHttpc_ conf) then (stime, m, p)
  else
    let '(mHttpc, m) := MeterHTTPC.GetBucketReset m in
    let p := p <| p_HttpcTime := MeterHTTPC.Time mHttpc |> <| HttpcCount := MeterHTTPC.Count mHttpc |>
               <| HttpcError := MeterHTTPC.Error_ mHttpc |> in
    let dtime := int64 (now - stime) in
    if (dtime =? 0)%Z then (stime, m, p)
    else
      let '(m, p) := if HttpcHostMeterEnabled conf then httpcMeter m p else (m, p) in
      let p := if ActxMeterEnabled conf then httpcActxMeter MeterActiveX.GetInstanceMeterActiveX p else p in
      (now, m, p).
End Task.
End TaskHttpc.

(** * Transactions *)
Module TaskTransaction.
Import MeterService.
Section Task.
Context {P : Pack} {MU : MathUtil} {LMi : LinkedMap Z} {LMp : LinkedMap (Z * Z)}.

Record Item := mkItem { tps : float64; rtime : float64 }.
(** The state: [avg30]. *)
Definition NewTaskTransaction : lmap (K := Z) Item := lm_new 6.

Definition calc (avg30 : lmap (K := Z) Item) (p : CounterPack) (tm : Z) : CounterPack :=
  let es := filter (fun e : Z * Item => (tm <= e.1)%Z) (lm_entries avg30) in
  let t := foldl (fun x (e : Z * Item) => f64_add x (tps e.2)) f64_zero es in
  let r := foldl (fun x (e : Z * Item) => f64_add x (rtime e.2)) f64_zero es in
  let c := Z.of_nat (length es) in
  if (0 <? c)%Z then
    p <| Tps := f32_of_f64 (f64_div t (f64_of_Z c)) |>
      <| RespTime := f64_to_int32 (f64_div r (f64_of_Z c)) |>
  else p.

Definition tx_meter (b : BucketSimple) : TxMeter := mkTxMeter (s_Timesum b) (s_Count b) (s_Error b) 0.
(** The meters of at most 300 callers, if there is one. *)
Definition callers {K} {LM : LinkedMap K} (s : lmap BucketSimple) (old : option (lmap TxMeter))
  : option (lmap TxMeter) :=
  if bool_decide (0 < lm_size s) then
    Some (copy_entries 300 s (fun d key b => lm_put d key (tx_meter b)) (lm_new 0))
  else old.
Definition txCallerMeter (m : t) (p : CounterPack) : t * CounterPack :=
  (ResetStat m,
   p <| TxcallerOidMeter ::= callers (StatByOID m) |> <| TxcallerGroupMeter ::= callers (StatByPKIND m) |>
     <| TxcallerPOidMeter ::= callers (StatByPOID m) |> <| TxcallerUnknown := Some (tx_meter (Unknown m)) |>).

Definition actx (n : Z) (m : TxMeter) : TxMeter := m <| tm_Actx := n |>.
Definition actx_int (n : Z) (m : TxMeter) : TxMeter := m <| tm_Actx := int32 n |>.
(** For the other projects' callers the code tests [TxcallerGroupMeter] for nil. *)
Definition actx_poid (a : MeterActiveX.t) (p : CounterPack) : res CounterPack :=
  let s := MeterActiveX.StatByPOid a in
  if bool_decide (0 < lm_size s) then
    let p := match TxcallerGroupMeter p with
             | None => p <| TxcallerPOidMeter := Some (lm_new 0) |>
             | Some _ => p
             end in
    match TxcallerPOidMeter p with
    | None => Panic
    | Some d => Ret (p <| TxcallerPOidMeter := Some (copy_entries 300 s (put_actx NewTxMeter actx_int) d) |>)
    end
  else Ret p.
Definition txCallerActxMeter (a : MeterActiveX.t) (p : CounterPack) : res CounterPack :=
  let p := if bool_decide (0 < lm_size (MeterActiveX.StatByOid a)) then
      p <| TxcallerOidMeter := Some (copy_entries 300 (MeterActiveX.StatByOid a)
             (put_actx NewTxMeter actx) (or_new (TxcallerOidMeter p))) |> else p in
  let p := if bool_decide (0 < lm_size (MeterActiveX.StatByGroup a)) then
      p <| TxcallerGroupMeter := Some (copy_entries 300 (MeterActiveX.StatByGroup a)
             (put_actx NewTxMeter actx_int) (or_new (TxcallerGroupMeter p))) |> else p in
  p ← actx_poid a p;
  mret (p <| TxcallerUnknown := Some (actx_int (MeterActiveX.Unknown a) (default NewTxMeter (TxcallerUnknown p))) |>).

(** What the task sends. *)
Inductive sent := SEvent (ep : EventPack) | SHitMap (h : hitmap) (time : Z).
Definition send_event (ep : option EventPack) : list sent :=
  match ep with Some ep => [SEvent ep] | None => [] end.

(** The counts of the bucket. *)
Definition fill_counts (bk : HitBucket) (p : CounterPack) : CounterPack :=
  let p := p <| ServiceCount := Count bk |> in
  if (0 <? Count bk)%Z then
    p <| ServiceTime := Timesum bk |> <| ServiceError := Error_ bk |>
      <| ApdexSatisfied := CountSatisfied bk |> <| ApdexTolerated := CountTolerated bk |>
      <| ApdexTotal := CountTotal bk |>
      <| TxDbcTime := f32_div (f32_of_Z (DbcSum bk)) (f32_of_Z (Count bk)) |>
      <| TxSqlTime := f32_div (f32_of_Z (SqlSum bk)) (f32_of_Z (Count bk)) |>
      <| TxHttpcTime := f32_div (f32_of_Z (HttpcSum bk)) (f32_of_Z (Count bk)) |>
  else p.
Definition rate64 (n interval : Z) : float64 :=
  f64_div (f64_mul (f64_of_Z n) (f64_of_Z 1000)) (f64_of_Z interval).
Definition mean64 (bk : HitBucket) : float64 := f64_div (f64_of_Z (Timesum bk)) (f64_of_Z (Count bk)).
(** The rates of the interval. *)
Definition fill_rates (conf : Conf) (bk : HitBucket) (avg30 : lmap (K := Z) Item) (m : t) (p : CounterPack)
  : lmap (K := Z) Item * t * CounterPack :=
  if (0 <? CollectIntervalMs p)%Z then
    let arrival := Arrival m in
    let m := m <| Arrival := 0%Z |> in
    let p := p <| ArrivalRate := f32_div (f32_mul (f32_of_Z arrival) (f32_of_Z 1000))
                                   (f32_of_Z (CollectIntervalMs p)) |> in
    if negb (TpsAvg30Enabled conf) then
      (avg30, m,
       if (Count bk <=? 0)%Z then p <| Tps := S754_zero false |> <| RespTime := 0%Z |>
       else p <| Tps := f32_of_f64 (rate64 (Count bk) (CollectIntervalMs p)) |>
              <| RespTime := f64_to_int32 (mean64 bk) |>)
    else
      let item := if (Count bk <=? 0)%Z then mkItem f64_zero f64_zero
                  else mkItem (rate64 (Count bk) (CollectIntervalMs p)) (mean64 bk) in
      let avg30 := lm_put avg30 (Time p) item in
      (avg30, m, calc avg30 p (int64 (Time p - 30000)))
  else (avg30, m, p).

(** The two alerts: the clocks of [ProcessHorizontalEvent], [HitMapHorizontal],
    [ProcessVerticalEvent] and [HitMapVertical]. *)
Record clocks := mkClocks { now_h : Z; now_h' : Z; now_v : Z; now_v' : Z }.
Definition events (conf : Conf) (c : clocks) (bk : HitBucket) : HitBucket * list sent :=
  let '(bk, s1) :=
    if HitMapHorizEventEnabled conf then
      let '(bk, ep) := ProcessHorizontalEvent conf (now_h c) (now_h' c) bk in (bk, send_event ep)
    else (bk, []) in
  let '(bk, s2) :=
    if HitMapVerEventEnabled conf then
      let '(bk, ep) := ProcessVerticalEvent conf (now_v c) (now_v' c) bk in (bk, send_event ep)
    else (bk, []) in
  (bk, s1 ++ s2).
Definition fill_pct (bk : HitBucket) (p : CounterPack) : CounterPack :=
  let stdDev := GetStandardDeviation (Count bk) (f64_of_Z (Timesum bk)) (f64_of_Z (TimeSqrSum bk)) in
  p <| Resp90 := f64_to_int32 (GetPct90 (f64_of_Z (RespTime p)) stdDev) |>
    <| Resp95 := f64_to_int32 (GetPct95 (f64_of_Z (RespTime p)) stdDev) |>
    <| p_TimeSqrSum := TimeSqrSum bk |>.

(** [process]; a panic is recovered by the task. *)
Definition process (conf : Conf) (c : clocks) (avg30 : lmap (K := Z) Item) (m : t) (p : CounterPack)
  : res (lmap (K := Z) Item * t * CounterPack * list sent) :=
  if negb (CounterEnabledTranx_ conf) then Ret (avg30, m, p, [])
  else
    let '(bk, m) := GetAndResetBucket m in
    let p := fill_counts bk p in
    let '(m, p) := if TxCallerMeterEnabled conf then txCallerMeter m p else (m, p) in
    p ← (if ActxMeterEnabled conf then txCallerActxMeter MeterActiveX.GetInstanceMeterActiveX p else Ret p);
    let '(avg30, m, p) := fill_rates conf bk avg30 m p in
    let '(bk, out) := events conf c bk in
    let out := out ++ (if SendsHitMap conf then [SHitMap (Hitmap bk) (Time p)] else []) in
    Ret (avg30, m, fill_pct bk p, out).
End Task.
End TaskTransaction.
