(* ===== verification/CounterTasksFacts.v ===== *)
(** The counter tasks: what they send is what was added to the meters, each sample
    once; and three things they never do. *)

From S2P Require Import Prelude Hmap Accumulator Meters MeterService MeterServiceFacts.
From S2P Require Import MeterActiveX CounterTasks.

(** * Copying a map's entries *)

Section Copy.
Context {K : Type} `{EqDecision K} {LM : LinkedMap K} {LL : LinkedMapLaws K LM} {V W : Type}.

(** Visiting new keys with an operation that puts an absent key appends them. *)
Lemma put_all (f : lmap W -> K -> V -> lmap W) (g : K -> V -> W) (l : list (K * V)) (d : lmap W) :
  (forall d k v, lm_get d k = None -> f d k v = lm_put d k (g k v)) ->
  lm_max d = 0 -> NoDup ((lm_entries d).*1 ++ l.*1) ->
  lm_entries (foldl (fun d kv => f d kv.1 kv.2) d l) =
    lm_entries d ++ ((fun kv => (kv.1, g kv.1 kv.2)) <$> l).
Proof.
  intros Hf. revert d. induction l as [|[k v] l IH]; intros d Hm Hn; simpl; [by rewrite app_nil_r|].
  assert (lm_get d k = None) as Hk.
  { apply alookup_None. intros Hi. apply NoDup_app in Hn as (_ & Hd & _). apply (Hd k Hi). by left. }
  assert (lm_entries (lm_put d k (g k v)) = lm_entries d ++ [(k, g k v)]) as He
    by (apply put_room; [done|by left]).
  rewrite Hf, IH, He; [by rewrite <- app_assoc|by rewrite max_put| |done].
  rewrite He, fmap_app, <- app_assoc. exact Hn.
Qed.

Lemma copy_fresh n (s : lmap V) (f : lmap W -> K -> V -> lmap W) (g : K -> V -> W) :
  (forall d k v, lm_get d k = None -> f d k v = lm_put d k (g k v)) ->
  lm_entries (copy_entries n s f (lm_new 0)) = (fun kv => (kv.1, g kv.1 kv.2)) <$> take n (lm_entries s).
Proof.
  intros Hf. unfold copy_entries. rewrite (put_all f g) by
    (done || apply max_new || (rewrite entries_new; simpl; rewrite fmap_take;
       by eapply sublist_NoDup; [apply keys_NoDup|apply sublist_take])).
  by rewrite entries_new.
Qed.
End Copy.

Section Facts.
Context {P : Pack} {MU : MathUtil} {LMi : LinkedMap Z} {LMp : LinkedMap (Z * Z)}.
Context {LLi : LinkedMapLaws Z LMi} {LLp : LinkedMapLaws (Z * Z) LMp}.
Variable conf : Conf.

Lemma new_size {K V} `{LinkedMapLaws K} n : lm_size (lm_new (V := V) n) = 0.
Proof. unfold lm_size. by rewrite entries_new. Qed.

(** No active-transaction meter is ever filled: its instance is new at every call. *)
Lemma sqlActx_id p : TaskSql.sqlActxMeter MeterActiveX.GetInstanceMeterActiveX p = p.
Proof. unfold TaskSql.sqlActxMeter. simpl. by rewrite new_size. Qed.
Lemma httpcActx_id p : TaskHttpc.httpcActxMeter MeterActiveX.GetInstanceMeterActiveX p = p.
Proof. unfold TaskHttpc.httpcActxMeter. simpl. by rewrite new_size. Qed.
Lemma txActx_new p :
  TaskTransaction.txCallerActxMeter MeterActiveX.GetInstanceMeterActiveX p =
    Ret (p <| TxcallerUnknown := Some (TaskTransaction.actx_int 0 (default NewTxMeter (TxcallerUnknown p))) |>).
Proof.
  unfold TaskTransaction.txCallerActxMeter, TaskTransaction.actx_poid.
  cbn [MeterActiveX.StatByOid MeterActiveX.StatByGroup MeterActiveX.StatByPOid MeterActiveX.Unknown
       MeterActiveX.GetInstanceMeterActiveX MeterActiveX.meterActiveX MeterActiveX.newMeterActiveX].
  rewrite (new_size (K := Z) 0). rewrite (new_size (K := Z * Z) 0).
  reflexivity.
Qed.

(** * Runs of the transaction meter and its task *)

Import MeterService TaskTransaction.

Inductive op :=
| OTx (tx : TxRecord) (pcode okind oid : Z) | OVirtual (tx : TxRecord)
| OTick (c : clocks) (p : CounterPack).
Record state := mkState {
  st_avg30 : lmap (K := Z) Item; st_meter : t;
  st_packs : list CounterPack; st_sent : list sent
}.
Definition start : state := mkState NewTaskTransaction newMeterService [] [].
Definition exec (s : state) (o : op) : res state :=
  match o with
  | OTx tx pcode okind oid =>
      Ret (s <| st_meter := (Add conf (st_meter s) tx pcode okind oid).1 |>)
  | OVirtual tx => Ret (s <| st_meter ::= fun m => AddVirtualTx m tx |>)
  | OTick c p =>
      '(avg30, m, p, out) ← process conf c (st_avg30 s) (st_meter s) p;
      mret (mkState avg30 m (st_packs s ++ [p]) (st_sent s ++ out))
  end.
Definition run (ops : list op) : res state := foldM exec start ops.

(** ** The hit-map events *)

(** No alert is pending in the bucket. *)
Definition idle (b : HitBucket) : Prop := LastVerOverStart b = 0%Z /\ LastHorizOverStart b = 0%Z.
Definition no_event (out : list sent) : Prop := forall ep, SEvent ep ∉ out.

Lemma new_idle : idle NewHitBucket.
Proof. done. Qed.
Lemma Add_idle m tx pcode okind oid :
  idle (Bucket m) -> idle (Bucket (Add conf m tx pcode okind oid).1).
Proof.
  intros H. pose proof (bucket_add (BM := service_meter conf) m (STx tx pcode okind oid)) as E.
  simpl in E. rewrite E, add_bucket_eq, add_extremes_eq, add_apdex_eq. exact H.
Qed.

Lemma vertical_idle now now' b :
  (0 < HitMapVerEventDuration conf)%Z -> LastVerOverStart b = 0%Z ->
  (ProcessVerticalEvent conf now now' b).2 = None.
Proof.
  intros Hd Hb. unfold ProcessVerticalEvent. rewrite Hb. simpl.
  destruct (_ <=? _)%Z; [|done]. rewrite Z.sub_diag. change (int64 0) with 0%Z.
  destruct (HitMapVerEventDuration conf <=? 0)%Z eqn:E; [lia|]. by rewrite andb_false_r.
Qed.
Lemma horizontal_idle now now' b :
  (0 < HitMapHorizEventDuration conf)%Z -> LastHorizOverStart b = 0%Z ->
  (ProcessHorizontalEvent conf now now' b).2 = None /\
  LastVerOverStart (ProcessHorizontalEvent conf now now' b).1 = LastVerOverStart b.
Proof.
  intros Hd Hb. unfold ProcessHorizontalEvent. rewrite Hb. simpl.
  destruct (first_cell _ _); [|done]. simpl. rewrite Z.sub_diag. change (int64 0) with 0%Z.
  by destruct (HitMapHorizEventDuration conf <=? 0)%Z eqn:E; [lia|].
Qed.
Lemma events_idle c b :
  (0 < HitMapVerEventDuration conf)%Z -> (0 < HitMapHorizEventDuration conf)%Z ->
  idle b -> (events conf c b).2 = [].
Proof.
  intros Hv Hh [H1 H2]. unfold events.
  destruct (horizontal_idle (now_h c) (now_h' c) b Hh H2) as [E1 E2].
  destruct (ProcessHorizontalEvent _ _ _ b) as [b1 ep1]. simpl in E1, E2. subst ep1.
  destruct (HitMapHorizEventEnabled conf), (HitMapVerEventEnabled conf); simpl; try done.
  - pose proof (vertical_idle (now_v c) (now_v' c) b1 Hv ltac:(congruence)) as E3.
    destruct (ProcessVerticalEvent _ _ _ b1). simpl in E3. by subst.
  - pose proof (vertical_idle (now_v c) (now_v' c) b Hv H1) as E3.
    destruct (ProcessVerticalEvent _ _ _ b). simpl in E3. by subst.
Qed.

(** ** What a tick does *)

(** The counts a pack carries. *)
Definition tx_counts (p : CounterPack) : list Z :=
  [ServiceCount p; ServiceTime p; ServiceError p; ApdexSatisfied p; ApdexTolerated p; ApdexTotal p].
Definition bucket_counts (b : HitBucket) : list Z :=
  if (0 <? Count b)%Z then
    [Count b; Timesum b; Error_ b; CountSatisfied b; CountTolerated b; CountTotal b]
  else [Count b; 0; 0; 0; 0; 0]%Z.
(** A pack as [NewCounterPack1] makes it, as far as the counts go. *)
Definition fresh_pack (p : CounterPack) : Prop := tx_counts p = [0; 0; 0; 0; 0; 0]%Z.

Lemma fill_counts_eq b p : fresh_pack p -> tx_counts (fill_counts b p) = bucket_counts b.
Proof.
  unfold fresh_pack, tx_counts, bucket_counts, fill_counts. intros [=]. simpl.
  destruct (0 <? Count b)%Z; simpl; congruence.
Qed.
Lemma fill_rates_counts b avg30 m p :
  tx_counts (fill_rates conf b avg30 m p).2 = tx_counts p /\
  Bucket (fill_rates conf b avg30 m p).1.2 = Bucket m.
Proof.
  unfold fill_rates. destruct (0 <? CollectIntervalMs p)%Z; [|done].
  destruct (TpsAvg30Enabled conf); simpl.
  - unfold calc. simpl. by destruct (_ <? _)%Z.
  - by destruct (Count b <=? 0)%Z.
Qed.

(** A tick always returns; it leaves an empty bucket and sends the counts of the old. *)
Lemma tick_spec c avg30 m p :
  CounterEnabledTranx_ conf = true ->
  exists avg30' m' p', process conf c avg30 m p =
    Ret (avg30', m', p', (events conf c (Bucket m)).2 ++
           (if SendsHitMap conf then [SHitMap (Hitmap (events conf c (Bucket m)).1) (Time p')] else [])) /\
    Bucket m' = NewHitBucket /\ (fresh_pack p -> tx_counts p' = bucket_counts (Bucket m)).
Proof.
  intros He. unfold process. rewrite He. cbn [negb GetAndResetBucket].
  set (p1 := fill_counts (Bucket m) p). set (m1 := m <| Bucket := NewHitBucket |>).
  assert (exists m2 p2, (if TxCallerMeterEnabled conf then txCallerMeter m1 p1 else (m1, p1)) = (m2, p2) /\
    Bucket m2 = NewHitBucket /\ tx_counts p2 = tx_counts p1) as (m2 & p2 & -> & Hm2 & Hp2).
  { destruct (TxCallerMeterEnabled conf); [|by eexists _, _].
    eexists _, _. split; [reflexivity|]. by rewrite ResetStat_bucket. }
  assert (exists p3, (if ActxMeterEnabled conf
      then txCallerActxMeter MeterActiveX.GetInstanceMeterActiveX p2 else Ret p2) = Ret p3 /\
    tx_counts p3 = tx_counts p2) as (p3 & -> & Hp3).
  { destruct (ActxMeterEnabled conf); [|by eexists _]. rewrite txActx_new. by eexists. }
  cbn [mbind res_bind]. destruct (fill_rates_counts (Bucket m) avg30 m2 p3) as [Hp4 Hm4].
  destruct (fill_rates conf (Bucket m) avg30 m2 p3) as [[avg30' m4] p4]. cbn [fst snd] in *.
  destruct (events conf c (Bucket m)) as [b' out]. cbn [fst snd].
  exists avg30', m4, (fill_pct b' p4). split_and!.
  - done.
  - congruence.
  - intros Hf. change (tx_counts p4 = bucket_counts (Bucket m)). rewrite Hp4, Hp3, Hp2.
    by apply fill_counts_eq.
Qed.
Lemma tick_disabled c avg30 m p :
  CounterEnabledTranx_ conf = false -> process conf c avg30 m p = Ret (avg30, m, p, []).
Proof. intros He. unfold process. by rewrite He. Qed.

(** No hit-map alert is ever sent: the task looks at the bucket it has just
    taken out of the meter, and the start of the overload is kept in the bucket, so
    with durations of more than 0 ms it never lasts long enough.  And no tick
    panics, in any run. *)
Theorem hitmap_events_never_sent ops :
  (0 < HitMapVerEventDuration conf)%Z -> (0 < HitMapHorizEventDuration conf)%Z ->
  exists s, run ops = Ret s /\ no_event (st_sent s).
Proof.
  intros Hv Hh. assert (exists s, run ops = Ret s /\ no_event (st_sent s) /\ idle (Bucket (st_meter s)))
    as (s & Hr & Hn & _); [|by exists s].
  unfold run. induction ops as [|o ops IH] using rev_ind.
  { exists start. split_and!; [done| |apply new_idle]. intros ep. simpl. apply not_elem_of_nil. }
  destruct IH as (s & Hr & Hn & Hi). rewrite foldM_app, Hr. cbn [mbind res_bind foldM].
  destruct o as [tx pcode okind oid|tx|c p]; cbn [exec mbind res_bind].
  - eexists. split_and!; [done|done|]. by apply Add_idle.
  - by eexists.
  - destruct (CounterEnabledTranx_ conf) eqn:He.
    + destruct (tick_spec c (st_avg30 s) (st_meter s) p He) as (a' & m' & p' & -> & Hm & _).
      eexists. split; [done|]. simpl. rewrite events_idle, Hm by done. split; [|apply new_idle].
      intros ep [H|H]%elem_of_app; [by apply (Hn ep)|]. simpl in H.
      destruct (SendsHitMap conf); set_solver.
    + rewrite tick_disabled by done. eexists. split; [done|]. simpl. by rewrite app_nil_r.
Qed.

Definition sample_of (o : op) : option sample :=
  match o with
  | OTx tx pcode okind oid => Some (STx tx pcode okind oid)
  | OVirtual tx => Some (SVirtual tx)
  | OTick _ _ => None
  end.
Definition fresh_tick (o : op) : Prop := match o with OTick _ p => fresh_pack p | _ => True end.

Lemma totals_snoc xs x :
  bm_step (BucketMeter := service_meter conf) x (service_totals conf xs) = service_totals conf (xs ++ [x]).
Proof. rewrite <- !service_summary. unfold summary. by rewrite foldl_app. Qed.

Lemma run_conserves ops :
  CounterEnabledTranx_ conf = true -> Forall fresh_tick ops ->
  exists s segs cur, run ops = Ret s /\ concat segs ++ cur = omap sample_of ops /\
    tx_counts <$> st_packs s = (fun xs => bucket_counts (service_totals conf xs)) <$> segs /\
    Bucket (st_meter s) = service_totals conf cur.
Proof.
  intros He. unfold run. induction ops as [|o ops IH] using rev_ind; intros Hf.
  { by exists start, [], []. }
  apply Forall_app in Hf as [Hf [Ho _]%Forall_cons].
  destruct (IH Hf) as (s & segs & cur & Hr & Hc & Hp & Hb).
  rewrite foldM_app, Hr, omap_app, <- Hc. cbn [mbind res_bind foldM].
  destruct o as [tx pcode okind oid|tx|c p]; cbn [exec mbind res_bind].
  - eexists _, segs, (cur ++ [STx tx pcode okind oid]). split; [done|]. simpl. split_and!; [|done|].
    + by rewrite app_assoc.
    + rewrite <- totals_snoc, <- Hb.
      apply (bucket_add (BM := service_meter conf) (st_meter s) (STx tx pcode okind oid)).
  - eexists _, segs, (cur ++ [SVirtual tx]). split; [done|]. simpl. split_and!; [|done|].
    + by rewrite app_assoc.
    + rewrite <- totals_snoc, <- Hb. done.
  - destruct (tick_spec c (st_avg30 s) (st_meter s) p He) as (a' & m' & p' & -> & Hm & Ht).
    eexists _, (segs ++ [cur]), []. split; [done|]. simpl. split_and!; [|..|done].
    + by rewrite concat_app; simpl; rewrite !app_nil_r.
    + rewrite !fmap_app, Hp. simpl. by rewrite Ht, Hb.
Qed.

(** C6. The counter packs account for every transaction once: in any run of
    transactions and ticks, the counts of the packs, with those waiting in the
    meter, are the totals of consecutive segments of the transactions: number, time,
    errors and the apdex counts. *)
Theorem ticks_count_transactions ops :
  CounterEnabledTranx_ conf = true -> Forall fresh_tick ops ->
  exists s segs, run ops = Ret s /\ concat segs = omap sample_of ops /\
    (tx_counts <$> st_packs s) ++ [bucket_counts (Bucket (st_meter s))] =
      (fun xs => bucket_counts (service_totals conf xs)) <$> segs.
Proof.
  intros He Hf. destruct (run_conserves ops He Hf) as (s & segs & cur & Hr & Hc & Hp & Hb).
  exists s, (segs ++ [cur]). split_and!; [done| |].
  - by rewrite concat_app; simpl; rewrite app_nil_r.
  - by rewrite fmap_app, Hp, Hb.
Qed.

(** ** SQL and HTTP calls *)

Definition sql_entry (b : MeterSQL.SQLBucket) : SqlMeter :=
  mkSqlMeter (MeterSQL.Time b) (MeterSQL.Count b) (MeterSQL.Error_ b) (MeterSQL.FetchCount b)
    (MeterSQL.FetchTime b) 0.
Definition httpc_entry (b : MeterHTTPC.HTTPCBucket) : HttpcMeter :=
  mkHttpcMeter (MeterHTTPC.Time b) (MeterHTTPC.Count b) (MeterHTTPC.Error_ b) 0.

(** The SQL task sends the buckets of the first hundred connections of the
    meter, in order, and empties the meter: the statements of the others are lost.
    Turning the active-transaction meter on changes nothing. *)
Theorem TaskSql_meter now stime (m : MeterSQL.t) (p : CounterPack) :
  CounterEnabledSql_ conf = true -> SqlDbcMeterEnabled conf = true ->
  int64 (now - stime) <> 0%Z -> 0 < lm_size (MeterSQL.Stat m) ->
  exists m' p' d, TaskSql.process conf now stime m p = (now, m', p') /\
    p_SqlMeter p' = Some d /\
    lm_entries d = (fun kb => (kb.1, sql_entry kb.2)) <$> take 100 (lm_entries (MeterSQL.Stat m)) /\
    lm_entries (MeterSQL.Stat m') = [] /\ MeterSQL.Bucket m' = MeterSQL.NewSQLBucket /\
    [p_SqlTime p'; SqlCount p'; SqlError p'; SqlFetchCount p'; SqlFetchTime p'] =
      [MeterSQL.Time (MeterSQL.Bucket m); MeterSQL.Count (MeterSQL.Bucket m);
       MeterSQL.Error_ (MeterSQL.Bucket m); MeterSQL.FetchCount (MeterSQL.Bucket m);
       MeterSQL.FetchTime (MeterSQL.Bucket m)].
Proof.
  intros He Hs Ht Hn. unfold TaskSql.process. rewrite He, Hs. cbn [negb MeterSQL.GetBucketReset].
  destruct (int64 (now - stime) =? 0)%Z eqn:E; [lia|]. unfold TaskSql.sqlMeter. cbn [MeterSQL.Stat].
  rewrite bool_decide_eq_true_2 by done. cbv zeta iota beta. rewrite sqlActx_id.
  match goal with |- context [if ?b then ?x else ?x] => replace (if b then x else x) with x by by destruct b end.
  eexists _, _, _. split; [reflexivity|]. split; [reflexivity|]. split_and!; [|apply entries_new|done|done].
  by apply (copy_fresh 100 (MeterSQL.Stat m) _ (fun _ b => sql_entry b)).
Qed.

(** The HTTP task sends the buckets of the first hundred hosts in the same way. *)
Theorem TaskHttpc_meter now stime (m : MeterHTTPC.t) (p : CounterPack) :
  CounterEnabledHttpc_ conf = true -> HttpcHostMeterEnabled conf = true ->
  int64 (now - stime) <> 0%Z -> 0 < lm_size (MeterHTTPC.Stat m) ->
  exists m' p' d, TaskHttpc.process conf now stime m p = (now, m', p') /\
    p_HttpcMeter p' = Some d /\
    lm_entries d = (fun kb => (kb.1, httpc_entry kb.2)) <$> take 100 (lm_entries (MeterHTTPC.Stat m)) /\
    lm_entries (MeterHTTPC.Stat m') = [] /\ MeterHTTPC.Bucket m' = MeterHTTPC.NewHTTPCBucket /\
    [p_HttpcTime p'; HttpcCount p'; HttpcError p'] =
      [MeterHTTPC.Time (MeterHTTPC.Bucket m); MeterHTTPC.Count (MeterHTTPC.Bucket m);
       MeterHTTPC.Error_ (MeterHTTPC.Bucket m)].
Proof.
  intros He Hs Ht Hn. unfold TaskHttpc.process. rewrite He, Hs. cbn [negb MeterHTTPC.GetBucketReset].
  destruct (int64 (now - stime) =? 0)%Z eqn:E; [lia|]. unfold TaskHttpc.httpcMeter. cbn [MeterHTTPC.Stat].
  rewrite bool_decide_eq_true_2 by done. cbv zeta iota beta. rewrite httpcActx_id.
  match goal with |- context [if ?b then ?x else ?x] => replace (if b then x else x) with x by by destruct b end.
  eexists _, _, _. split; [reflexivity|]. split; [reflexivity|]. split_and!; [|apply entries_new|done|done].
  by apply (copy_fresh 100 (MeterHTTPC.Stat m) _ (fun _ b => httpc_entry b)).
Qed.

(** In a pack without meters, [httpcActxMeter] gives every host its number of
    active calls and [sqlActxMeter] gives every connection none: it sets the number
    in a meter that is not the one it puts. *)
Theorem sqlActxMeter_drops (a : MeterActiveX.t) (p : CounterPack) :
  p_SqlMeter p = None -> p_HttpcMeter p = None ->
  0 < lm_size (MeterActiveX.StatSql a) -> 0 < lm_size (MeterActiveX.StatHttpc a) ->
  (exists d, p_SqlMeter (TaskSql.sqlActxMeter a p) = Some d /\
     lm_entries d = (fun kn => (kn.1, NewSqlMeter)) <$> take 300 (lm_entries (MeterActiveX.StatSql a))) /\
  (exists d, p_HttpcMeter (TaskHttpc.httpcActxMeter a p) = Some d /\
     lm_entries d = (fun kn => (kn.1, mkHttpcMeter 0 0 0 kn.2)) <$> take 300 (lm_entries (MeterActiveX.StatHttpc a))).
Proof.
  intros Hs Hh Hn Hn'. unfold TaskSql.sqlActxMeter, TaskHttpc.httpcActxMeter.
  rewrite !bool_decide_eq_true_2 by done. rewrite Hs, Hh. split; eexists; (split; [reflexivity|]).
  - apply (copy_fresh 300 _ _ (fun _ _ => NewSqlMeter)). intros d k v E. by rewrite E.
  - apply (copy_fresh 300 _ _ (fun _ n => mkHttpcMeter 0 0 0 n)). intros d k v E.
    unfold put_actx, touch. by rewrite E.
Qed.
End Facts.

(** * Witnesses *)
Section Witnesses.
#[local] Existing Instance ListMap.list_map.
#[local] Existing Instance ListMap.list_map_laws.
#[local] Existing Instance pack1.
#[local] Instance math1 : MathUtil := {|
  GetStandardDeviation _ _ _ := f64_zero; GetPct90 x _ := x; GetPct95 x _ := x
|}.
Definition empty_pack (time : Z) : CounterPack :=
  mkPack time 5000 0 0 0 0 0 None 0 0 0 None 0 0 0 0 0 0 f64_zero f64_zero f64_zero
    None None None None f64_zero f64_zero 0 0 0 0.
Definition clocks1 : TaskTransaction.clocks := TaskTransaction.mkClocks 1 1 1 1.
Definition ops1 : list op :=
  [OTx (tx1 50 0) 12 1 77; OTx (tx1 30000 20) 12 1 77; OTick clocks1 (empty_pack 5000);
   OTx (tx1 900 0) 13 1 77; OTick clocks1 (empty_pack 10000)].

Lemma hitmap_events_never_sent_witness :
  exists s, run conf1 ops1 = Ret s /\ no_event (st_sent s).
Proof. apply (hitmap_events_never_sent conf1 ops1); reflexivity. Defined.

Lemma ticks_count_transactions_witness :
  exists s segs, run conf1 ops1 = Ret s /\ concat segs = omap sample_of ops1 /\
    (tx_counts <$> st_packs s) ++ [bucket_counts (MeterService.Bucket (st_meter s))] =
      (fun xs => bucket_counts (service_totals conf1 xs)) <$> segs.
Proof.
  apply (ticks_count_transactions conf1 ops1); [reflexivity|]. repeat constructor.
Defined.

Definition sql_meter1 : MeterSQL.t :=
  MeterSQL.Add conf1 (MeterSQL.Add conf1 MeterSQL.newMeterSQL 7 30 false) 7 12 true.
Lemma TaskSql_meter_witness :
  exists m' p' d, TaskSql.process conf1 9 4 sql_meter1 (empty_pack 5000) = (9%Z, m', p') /\
    p_SqlMeter p' = Some d /\ lm_entries d = [(7%Z, mkSqlMeter 42 2 1 0 0 0)].
Proof.
  destruct (TaskSql_meter conf1 9 4 sql_meter1 (empty_pack 5000)) as (m' & p' & d & H1 & H2 & H3 & _);
    [reflexivity|reflexivity|by vm_compute|vm_compute; lia|].
  exists m', p', d. split; [exact H1|]. split; [exact H2|]. rewrite H3. vm_compute. reflexivity.
Defined.

Definition httpc_meter1 : MeterHTTPC.t := MeterHTTPC.Add conf1 MeterHTTPC.newMeterHTTPC 3 10 true.
Lemma TaskHttpc_meter_witness :
  exists m' p' d, TaskHttpc.process conf1 9 4 httpc_meter1 (empty_pack 5000) = (9%Z, m', p') /\
    p_HttpcMeter p' = Some d /\ lm_entries d = [(3%Z, mkHttpcMeter 10 1 1 0)].
Proof.
  destruct (TaskHttpc_meter conf1 9 4 httpc_meter1 (empty_pack 5000)) as (m' & p' & d & H1 & H2 & H3 & _);
    [reflexivity|reflexivity|by vm_compute|vm_compute; lia|].
  exists m', p', d. split; [exact H1|]. split; [exact H2|]. rewrite H3. vm_compute. reflexivity.
Defined.

Definition active1 : MeterActiveX.t :=
  MeterActiveX.AddHttpc (MeterActiveX.AddSql (MeterActiveX.AddSql MeterActiveX.newMeterActiveX 7) 7) 3.
Lemma sqlActxMeter_drops_witness :
  exists d, p_SqlMeter (TaskSql.sqlActxMeter active1 (empty_pack 5000)) = Some d /\
    lm_entries d = [(7%Z, NewSqlMeter)].
Proof.
  destruct (sqlActxMeter_drops active1 (empty_pack 5000)) as ((d & H1 & H2) & _);
    [reflexivity|reflexivity|vm_compute; lia|vm_compute; lia|].
  exists d. split; [exact H1|]. rewrite H2. vm_compute. reflexivity.
Defined.
End Witnesses.
