(* ===== verification/UrlPattern.v ===== *)
(** The normalisers of URLs: [src/agent/agent/trace/URLPatternDetector.go], for
    outgoing HTTP calls, and [ServiceURLPatternDetector.go], for the services.

    golib's path tree ([pathutil.PathTree]) and string functions are parameters;
    its linked sets are linked maps to [unit].  The calls are taken one at a time
    and the clock is an argument of [Build]. *)

From S2P Require Import Prelude Hmap.

Class PathTree := {
  ptree : Type;
  NewPathTree : ptree;
  InsertArray : ptree -> list bytes -> bytes -> ptree;
  Find : ptree -> bytes -> option bytes;
  Size : ptree -> nat
}.
Class StringUtil := {
  Split : bytes -> bytes -> list bytes;
  Tokenizer : bytes -> bytes -> list bytes;
  TrimEmpty : bytes -> bytes;
  HashCode : bytes -> Z;
  HashStr : bytes -> Z
}.

(** The settings read. *)
Record UrlConf := mkUrlConf {
  TraceHttpcNormalizeEnabled : bool; TraceHttpcNormalizeUrls : bytes;
  TraceNormalizeEnabled : bool; TraceNormalizeUrls : bytes; TraceAutoNormalizeEnabled : bool
}.

Section Common.
Context {PT : PathTree} {SU : StringUtil} {LM : LinkedMap Z}.
(** The nodes of a path, those that start with a brace as a wildcard. *)
Definition nodes_of (path : bytes) : list bytes :=
  (fun n => if HasPrefix n (str "{") then str "*" else n) <$> Split path (str "/").
Definition only_star (nodes : list bytes) : bool := bool_decide (nodes = [str "*"]).
Definition set_put (s : lmap (K := Z) unit) (h : Z) : lmap unit := touch s h tt (fun u => u).
Definition set_contains (s : lmap (K := Z) unit) (h : Z) : bool := bool_decide (is_Some (lm_get s h)).
Definition hash32 (url : bytes) : Z := int32 (HashCode url).
End Common.

Module URLPatternDetector.
Section Detector.
Context {PT : PathTree} {SU : StringUtil} {LM : LinkedMap Z}.

Record t := mk {
  oldHash : Z;
  patterns : lmap (K := Z) bytes;
  restUrlTable : ptree;
  noNeedSet : lmap (K := Z) unit;
  parsedSet : lmap (K := Z) bytes
}.

(** A URL list of [Build] and a stored pattern are inserted in the same way. *)
Definition insert_path (tree : ptree) (path : bytes) : ptree :=
  let nodes := nodes_of path in
  if only_star nodes then tree else InsertArray tree nodes path.
Definition Build (d : t) (urlList : list bytes) : t :=
  let tmp := foldl insert_path NewPathTree urlList in
  let tmp := foldl insert_path tmp (lm_entries (patterns d)).*2 in
  d <| restUrlTable := tmp |> <| noNeedSet ::= fun s => lm_new (lm_max s) |>
    <| parsedSet ::= fun s => lm_new (lm_max s) |>.

Definition addUrlList (d : t) (urls : bytes) : t :=
  let newHash := HashStr urls in
  if (oldHash d =? newHash)%Z then d
  else
    let d := d <| oldHash := newHash |> in
    let urlArr := Split urls (str ",") in
    if bool_decide (length urlArr = 0) then
      if bool_decide (0 < Size (restUrlTable d)) then d <| restUrlTable := NewPathTree |> else d
    else Build d urlArr.

Definition Add (d : t) (hash : Z) (path : bytes) : t :=
  match lm_get (patterns d) hash with
  | Some _ => d
  | None =>
      let d := d <| patterns ::= fun m => lm_put m hash path |> in
      let nodes := nodes_of path in
      if bool_decide (length nodes = 0) || only_star nodes then d
      else d <| restUrlTable ::= fun tree => InsertArray tree nodes path |>
  end.

Definition Normalize (conf : UrlConf) (d : t) (url : bytes) : bytes * t :=
  if negb (TraceHttpcNormalizeEnabled conf) || negb (nonempty url) then (url, d)
  else if set_contains (noNeedSet d) (hash32 url) then (url, d)
  else
    match lm_get (parsedSet d) (hash32 url) with
    | Some newUrl => (newUrl, d)
    | None =>
        match Find (restUrlTable d) url with
        | None => (url, d <| noNeedSet ::= fun s => set_put s (hash32 url) |>)
        | Some newUrl => (newUrl, d <| parsedSet ::= fun m => lm_put m (hash32 url) newUrl |>)
        end
    end.

Definition new_detector : t := mk 0 (lm_new 1007) NewPathTree (lm_new (N.to_nat 5000)) (lm_new 1000).
Definition GetInstanceURLPatternDetector (conf : UrlConf) (v : option t) : t * option t :=
  match v with
  | Some d => (d, v)
  | None => let d := addUrlList new_detector (TraceHttpcNormalizeUrls conf) in (d, Some d)
  end.
Definition Run (conf : UrlConf) (d : t) : t := addUrlList d (TraceHttpcNormalizeUrls conf).
End Detector.
End URLPatternDetector.

Module ServiceURLPatternDetector.
Section Detector.
Context {PT : PathTree} {SU : StringUtil} {LM : LinkedMap Z}.

Record t := mk {
  last_conf_value : bytes;
  traceAutoNormalizeEnabled : bool;
  restUrlTable : ptree;
  noNeedSet : lmap (K := Z) unit;
  parsedSet : lmap (K := Z) bytes;
  last_build : Z
}.

Definition addPath (pathTree : ptree) (path : bytes) : ptree :=
  let path := TrimEmpty path in
  if bool_decide (length path < 3) then pathTree
  else
    let nodes := nodes_of path in
    if bool_decide (length nodes = 0) then pathTree
    else if only_star nodes then pathTree
    else InsertArray pathTree nodes path.

(** A configured URL goes to the tree if it has a brace, else to the set. *)
Definition add_url (p : ptree * lmap (K := Z) unit) (u : bytes) : ptree * lmap (K := Z) unit :=
  let '(tree, noNeed) := p in
  if nonempty u then
    if bool_decide (is_Some (Index u (str "{"))) then (addPath tree u, noNeed)
    else (tree, set_put noNeed (hash32 u))
  else p.
Definition Build (conf : UrlConf) (now : Z) (force : bool) (d : t) : t :=
  if negb force && (now <? int64 (last_build d + 10000))%Z then d
  else
    let d := d <| last_build := now |> <| last_conf_value := TrimEmpty (TraceNormalizeUrls conf) |> in
    let '(pathTreeTmp, noNeedTmp) :=
      foldl add_url (NewPathTree, lm_new (N.to_nat 10000)) (Tokenizer (TraceNormalizeUrls conf) (str ",")) in
    d <| restUrlTable := pathTreeTmp |> <| noNeedSet := noNeedTmp |>
      <| parsedSet ::= fun s => lm_new (lm_max s) |>.

(** The package variable is never assigned: every call makes a detector. *)
Definition serviceUrlPatternDetector : option t := None.
Definition GetInstanceServiceURLPatternDetector (conf : UrlConf) (now : Z) : t :=
  match serviceUrlPatternDetector with
  | Some d => d
  | None =>
      Build conf now false
        (mk (TrimEmpty (TraceNormalizeUrls conf)) (TraceAutoNormalizeEnabled conf) NewPathTree
            (lm_new (N.to_nat 10000)) (lm_new 2000) 0)
  end.

Definition Run (conf : UrlConf) (now : Z) (d : t) : t :=
  let value := TrimEmpty (TraceNormalizeUrls conf) in
  if negb (bool_decide (last_conf_value d = value)) ||
     negb (Bool.eqb (traceAutoNormalizeEnabled d) (TraceAutoNormalizeEnabled conf)) then
    Build conf now false (d <| last_conf_value := value |>
      <| traceAutoNormalizeEnabled := TraceAutoNormalizeEnabled conf |>)
  else d.

Definition Normalize (conf : UrlConf) (d : t) (url : bytes) : bytes * t :=
  if negb (TraceNormalizeEnabled conf) || set_contains (noNeedSet d) (hash32 url) then (url, d)
  else
    match lm_get (parsedSet d) (hash32 url) with
    | Some newUrl => (newUrl, d)
    | None =>
        match Find (restUrlTable d) url with
        | None => (url, d <| noNeedSet ::= fun s => set_put s (hash32 url) |>)
        | Some newUrl => (newUrl, d <| parsedSet ::= fun m => lm_put m (hash32 url) newUrl |>)
        end
    end.
End Detector.
End ServiceURLPatternDetector.

(** The URL normalisers: the caches of [URLPatternDetector] do not show, and a
    change of the settings of [ServiceURLPatternDetector] can be lost. *)

Section Http.
Context {PT : PathTree} {SU : StringUtil} {LM : LinkedMap Z} {LL : LinkedMapLaws Z LM}.
Import URLPatternDetector.
Variable conf : UrlConf.

(** What a URL normalises to without the caches. *)
Definition direct (tree : ptree) (url : bytes) : bytes :=
  if TraceHttpcNormalizeEnabled conf && nonempty url then default url (Find tree url) else url.

(** No two of the URLs have the same hash. *)
Definition no_collision (urls : list bytes) : Prop :=
  forall u v, u ∈ urls -> v ∈ urls -> hash32 u = hash32 v -> u = v.
(** The caches hold what the tree finds. *)
Record coherent (urls : list bytes) (tree : ptree) (d : t) : Prop := {
  co_tree : restUrlTable d = tree;
  co_none u : u ∈ urls -> is_Some (lm_get (noNeedSet d) (hash32 u)) -> Find tree u = None;
  co_some u v : u ∈ urls -> lm_get (parsedSet d) (hash32 u) = Some v -> Find tree u = Some v
}.

Lemma Build_caches urls d l : coherent urls (restUrlTable (Build d l)) (Build d l).
Proof.
  split; [done|..]; intros u.
  - intros _ [x Hx]. unfold Build in Hx. simpl in Hx. by rewrite get_new in Hx.
  - intros v _ Hx. unfold Build in Hx. simpl in Hx. by rewrite get_new in Hx.
Qed.

Lemma Normalize_coherent urls tree d u :
  no_collision urls -> u ∈ urls -> coherent urls tree d ->
  (Normalize conf d u).1 = direct tree u /\ coherent urls tree (Normalize conf d u).2.
Proof.
  intros Hi Hu Hd. unfold Normalize, direct.
  destruct (TraceHttpcNormalizeEnabled conf); [|done]. destruct (nonempty u); [|done].
  cbn [negb orb andb]. unfold set_contains. case_bool_decide as Hn.
  { by rewrite (co_none _ _ _ Hd u Hu Hn). }
  destruct (lm_get (parsedSet d) (hash32 u)) as [v|] eqn:Ep.
  { by rewrite (co_some _ _ _ Hd u v Hu Ep). }
  rewrite (co_tree _ _ _ Hd). destruct (Find tree u) as [v|] eqn:Ef; (split; [done|]); destruct Hd as [H1 H2 H3].
  - split; [done|done|]. intros w x Hw Hx. simpl in Hx.
    destruct (decide (hash32 w = hash32 u)) as [E|E].
    + apply Hi in E; [subst w|done..]. rewrite put_get in Hx. congruence.
    + apply put_old in Hx; [by apply H3|done].
  - split; [done| |done]. intros w Hw [x Hx]. simpl in Hx. unfold set_put in Hx.
    destruct (decide (hash32 w = hash32 u)) as [E|E].
    + apply Hi in E; [by subst w|done..].
    + apply get_touch_old in Hx; [|done]. apply H2; [done|eauto].
Qed.

(** Normalising a list of URLs, one after the other. *)
Fixpoint normalize_all (d : t) (us : list bytes) : list bytes * t :=
  match us with
  | [] => ([], d)
  | u :: us =>
      let '(v, d) := Normalize conf d u in
      let '(vs, d) := normalize_all d us in (v :: vs, d)
  end.

Lemma normalize_all_coherent urls tree d us :
  no_collision urls -> Forall (fun u => u ∈ urls) us -> coherent urls tree d ->
  (normalize_all d us).1 = direct tree <$> us /\ coherent urls tree (normalize_all d us).2.
Proof.
  intros Hi. revert d. induction us as [|u us IH]; intros d Hu Hd; [done|].
  apply Forall_cons in Hu as [Hu Hus]. cbn [normalize_all].
  destruct (Normalize_coherent urls tree d u Hi Hu Hd) as [E Hd'].
  destruct (Normalize conf d u) as [v d']. simpl in E, Hd'. subst v.
  destruct (IH d' Hus Hd') as [E Hd'']. destruct (normalize_all d' us) as [vs d'']. simpl in *. by subst vs.
Qed.

(** The caches do not show: after a [Build], whatever the URLs that are
    normalised, each gets what the path tree finds for it, or itself, as long as no
    two of them have the same hash and although the caches may give up entries. *)
Theorem Normalize_is_cache d l us :
  no_collision us ->
  (normalize_all (Build d l) us).1 = direct (restUrlTable (Build d l)) <$> us.
Proof.
  intros Hi. apply (normalize_all_coherent us); [done| |apply Build_caches].
  by apply Forall_forall.
Qed.
End Http.

Section Service.
Context {PT : PathTree} {SU : StringUtil} {LM : LinkedMap Z}.
Import ServiceURLPatternDetector.

(** A change of the settings within ten seconds of a build is lost: [Run]
    remembers the new value before [Build] declines to build, so no later [Run] with
    these settings builds it, at any time. *)
Theorem Run_loses_change conf now (d : t) (later : list Z) :
  last_conf_value d <> TrimEmpty (TraceNormalizeUrls conf) ->
  (now < int64 (last_build d + 10000))%Z ->
  let d' := foldl (fun d now => Run conf now d) (Run conf now d) later in
  restUrlTable d' = restUrlTable d /\ noNeedSet d' = noNeedSet d /\
  last_conf_value d' = TrimEmpty (TraceNormalizeUrls conf).
Proof.
  intros Hc Hn. set (d1 := d <| last_conf_value := TrimEmpty (TraceNormalizeUrls conf) |>
    <| traceAutoNormalizeEnabled := TraceAutoNormalizeEnabled conf |>).
  assert (Run conf now d = d1) as ->.
  { unfold Run. rewrite bool_decide_eq_false_2 by done. cbn [negb orb]. unfold Build. cbn [negb andb].
    fold d1. assert ((now <? int64 (last_build d1 + 10000))%Z = true) as -> by (apply Z.ltb_lt, Hn). done. }
  assert (forall t0, Run conf t0 d1 = d1) as H1.
  { intros t0. unfold Run, d1. simpl. rewrite bool_decide_eq_true_2 by done. by rewrite eqb_reflx. }
  cbv zeta. assert (foldl (fun d now => Run conf now d) d1 later = d1) as ->; [|done].
  induction later as [|t0 later IH]; [done|]. simpl. by rewrite H1.
Qed.
End Service.

(** * Witnesses *)
Section Witnesses.
#[local] Existing Instance ListMap.list_map.
#[local] Existing Instance ListMap.list_map_laws.

(** Split at a one-byte separator, dropping empty parts. *)
Fixpoint split_at (sep : ascii) (cur s : bytes) : list bytes :=
  match s with
  | [] => if nonempty cur then [cur] else []
  | c :: s =>
      if bool_decide (c = sep) then (if nonempty cur then [cur] else []) ++ split_at sep [] s
      else split_at sep (cur ++ [c]) s
  end.
Definition split1 (s sep : bytes) : list bytes :=
  match sep with [c] => split_at c [] s | _ => [s] end.
#[local] Instance strings1 : StringUtil := {|
  Split := split1; Tokenizer := split1; TrimEmpty := TrimSpace;
  HashCode s := foldl (fun h c => int32 (h * 31 + byteZ c)) 0%Z s;
  HashStr s := foldl (fun h c => int32 (h * 31 + byteZ c)) 7%Z s
|}.
(** The first stored pattern that fits, node by node. *)
Fixpoint fits_nodes (pat nodes : list bytes) : bool :=
  match pat, nodes with
  | [], [] => true
  | p :: pat, n :: nodes => (bool_decide (p = str "*") || bool_decide (p = n)) && fits_nodes pat nodes
  | _, _ => false
  end.
Fixpoint find_path (tree : list (list bytes * bytes)) (nodes : list bytes) : option bytes :=
  match tree with
  | [] => None
  | (pat, path) :: tree => if fits_nodes pat nodes then Some path else find_path tree nodes
  end.
#[local] Instance tree1 : PathTree := {|
  ptree := list (list bytes * bytes);
  NewPathTree := [];
  InsertArray tree nodes path := tree ++ [(nodes, path)];
  Find tree url := find_path tree (split1 url (str "/"));
  Size := length
|}.
Definition conf2 : UrlConf := mkUrlConf true (str "/get/{id}") true (str "/get/{id}") true.

Definition urls2 : list bytes := [str "/get/12"; str "/list"; str "/get/12"; str "/get/7"].
Lemma Normalize_is_cache_witness :
  (normalize_all conf2 (URLPatternDetector.Build URLPatternDetector.new_detector [str "/get/{id}"]) urls2).1 =
    [str "/get/{id}"; str "/list"; str "/get/{id}"; str "/get/{id}"].
Proof.
  rewrite (Normalize_is_cache conf2); [vm_compute; reflexivity|].
  intros u v Hu Hv. unfold urls2 in Hu, Hv. rewrite !elem_of_cons, elem_of_nil in Hu, Hv.
  destruct_or!; subst; try done; vm_compute; discriminate.
Defined.

Definition detector2 : ServiceURLPatternDetector.t :=
  ServiceURLPatternDetector.GetInstanceServiceURLPatternDetector
    (mkUrlConf true [] true (str "/set/{id}") true) 20000.
Lemma Run_loses_change_witness :
  ServiceURLPatternDetector.restUrlTable
    (foldl (fun d now => ServiceURLPatternDetector.Run conf2 now d)
       (ServiceURLPatternDetector.Run conf2 25000 detector2) [40000; 90000]%Z) =
    ServiceURLPatternDetector.restUrlTable detector2.
Proof.
  apply (Run_loses_change conf2 25000 detector2 [40000; 90000]%Z).
  - vm_compute. discriminate.
  - vm_compute. reflexivity.
Defined.
End Witnesses.
