(* ===== verification/TraceCtx.v ===== *)
(** The application's side of a transaction: the record [TraceCtx] of
    [src/trace/TraceCtx.go], and the headers that carry a transaction from one
    process to the next, [UpdateMtrace] and [GetMTrace] of [src/trace/Trace.go].

    golib's [keygen.Next] is a sequence of keys and a position in it; [hexa32] and
    [stringutil] are parameters.  An [http.Header] is the list of its entries, in the
    order a [range] over it visits them. *)

From S2P Require Import Prelude UrlPattern.

(** * The record *)

Record TraceCtx := mkTraceCtx {
  Txid : Z; GID : Z; Name : bytes; StartTime : Z; Ctx : option nat;
  Host : bytes; Uri : bytes; Ipaddr : bytes; UAgent : bytes; Ref : bytes; WClientId : bytes;
  HttpMethod : bytes; IsStaticContents : bytes; Status : Z;
  MTid : Z; MDepth : Z; MStepId : Z; MCallerTxid : Z;
  MCallee : Z; MCallerSpec : bytes; MCallerUrl : bytes; MCallerPoidKey : bytes;
  MCallerStepId : Z; MCallerTraceId : bytes;
  TraceMtraceCallerValue : bytes; TraceMtracePoidValue : bytes; TraceMtraceSpecValue : bytes;
  TraceMtraceMcallee : Z; TraceMtraceTraceparentValue : bytes;
  LLMTx : option nat; IsLlm : Z
}.
Definition NewTraceCtx : TraceCtx :=
  mkTraceCtx 0 0 [] 0 None [] [] [] [] [] [] [] [] 0 0 0 0 0 0 [] [] [] 0 [] [] [] [] 0 [] None 0.

(** [Clear] keeps [GID] and [MStepId]. *)
Definition Clear (t : TraceCtx) : TraceCtx :=
  NewTraceCtx <| GID := GID t |> <| MStepId := MStepId t |>.

(** * Strings *)

(** [%016x] of a 64-bit number: its sixteen hexadecimal digits. *)
Definition hex_char (d : Z) : ascii := ascii_of_N (Z.to_N (if (d <? 10)%Z then 48 + d else 87 + d)).
Fixpoint hexn (n : nat) (z : Z) : bytes :=
  match n with 0 => [] | S n => hex_char ((z / 16 ^ Z.of_nat n) mod 16) :: hexn n z end.
Definition hex16 (z : Z) : bytes := hexn 16 (wrap_u 64 z).

(** [strconv.ParseUint(s, 16, 64)] *)
Definition hex_val (c : ascii) : option Z :=
  let b := byteZ c in
  if (48 <=? b)%Z && (b <=? 57)%Z then Some (b - 48)%Z
  else if (97 <=? b)%Z && (b <=? 102)%Z then Some (b - 87)%Z
  else if (65 <=? b)%Z && (b <=? 70)%Z then Some (b - 55)%Z
  else None.
Fixpoint parse_hex (acc : Z) (s : bytes) : option Z :=
  match s with
  | [] => Some acc
  | c :: s => d ← hex_val c; parse_hex (acc * 16 + d) s
  end.
Definition ParseUint16 (s : bytes) : option Z :=
  match s with
  | [] => None
  | _ => z ← parse_hex 0 s; if (z <? 2 ^ 64)%Z then Some z else None
  end.

(** [strconv.Atoi] *)
Fixpoint parse_dec (acc : Z) (s : bytes) : option Z :=
  match s with
  | [] => Some acc
  | c :: s =>
      let b := byteZ c in
      if (48 <=? b)%Z && (b <=? 57)%Z then parse_dec (acc * 10 + (b - 48)) s else None
  end.
Definition Atoi (s : bytes) : option Z :=
  let '(neg, digits) := match s with
                        | "-"%char :: s => (true, s)
                        | "+"%char :: s => (false, s)
                        | _ => (false, s)
                        end in
  match digits with
  | [] => None
  | _ =>
      n ← parse_dec 0 digits;
      let z := if neg : bool then (- n)%Z else n in
      if (- 2 ^ 63 <=? z)%Z && (z <? 2 ^ 63)%Z then Some z else None
  end.

(** * Headers *)

Abbreviation Header := (list (bytes * list bytes)).
(** [textproto.CanonicalMIMEHeaderKey] *)
Definition token_byte (c : ascii) : bool :=
  is_upper c || is_lower c || ((48 <=? byteZ c)%Z && (byteZ c <=? 57)%Z) ||
  bool_decide (c ∈ str "!#$%&'*+-.^_`|~").
Fixpoint canonical_from (up : bool) (s : bytes) : bytes :=
  match s with
  | [] => []
  | c :: s => (if up then to_upper c else to_lower c) :: canonical_from (bool_decide (c = "-"%char)) s
  end.
Definition canonical (s : bytes) : bytes := if forallb token_byte s then canonical_from true s else s.
(** [Get] on a header built by [Add]ing every value of [h]. *)
Definition header_Get (h : Header) (k : bytes) : bytes :=
  match concat (snd <$> filter (fun kv => canonical kv.1 = canonical k) h) with
  | [] => []
  | v :: _ => v
  end.
Definition header_Set (h : Header) (k v : bytes) : Header :=
  filter (fun kv => kv.1 <> canonical k) h ++ [(canonical k, [v])].

(** * Passing a transaction on *)

Class Hexa32 := { ToString32 : Z -> bytes; ToLong32 : bytes -> Z }.

Record MtraceConf := mkMtraceConf {
  DISABLE : bool; MtraceEnabled : bool;
  TraceMtraceTraceparentKey : bytes; TraceMtraceCallerKey : bytes;
  TraceMtraceSpecKey1 : bytes; TraceMtracePoidKey : bytes;
  MtraceRate : Z; MtraceSpec : bytes; m_PCODE : Z; m_OKIND : Z; m_OID : Z
}.

Section Mtrace.
Context {SU : StringUtil} {HX : Hexa32}.
Variable conf : MtraceConf.
(** [keygen.Next] *)
Variable Next : nat -> Z.

(** [fmt.Sprintf("00-%s-%016x-01", ...)] and [x-wtap-mst]. *)
Definition traceparent_value (t : TraceCtx) : bytes :=
  (if nonempty (MCallerTraceId t) then str "00-" ++ MCallerTraceId t
   else str "00-0000000000000000" ++ hex16 (MTid t)) ++ str "-" ++ hex16 (MStepId t) ++ str "-01".
Definition caller_value (t : TraceCtx) : bytes :=
  ToString32 (MTid t) ++ str "," ++ FormatInt (int64 (MDepth t + 1)) ++ str "," ++
  ToString32 (Txid t) ++ str "," ++ ToString32 (MStepId t).

Definition update_traceparent (val : bytes) (t : TraceCtx) : res TraceCtx :=
  let arr := Split (TrimSpace val) (str "-") in
  match arr with
  | _ :: id :: step :: _ :: _ =>
      let t := t <| MCallerTraceId := id |> in
      tail ← slice id 16 (length id);
      let t := t <| MTid := int64 (default 0%Z (ParseUint16 tail)) |> in
      Ret (t <| MCallerStepId := int64 (default 0%Z (ParseUint16 step)) |>)
  | _ => Ret t
  end.

(** The result tells whether the WhaTap headers are to be used. *)
Definition update_caller (isTraceparent : bool) (val : bytes) (t : TraceCtx) : TraceCtx * bool :=
  let arr := Split (TrimSpace val) (str ",") in
  let '(t, mtid, mcallerTxid) :=
    match arr with
    | a0 :: a1 :: a2 :: _ =>
        (match Atoi a1 with Some d => t <| MDepth := int32 d |> | None => t end, ToLong32 a0, ToLong32 a2)
    | _ => (t, 0%Z, 0%Z)
    end in
  let stepId := match arr with _ :: _ :: _ :: a3 :: _ => ToLong32 a3 | _ => 0%Z end in
  if isTraceparent then
    if (MCallerStepId t =? stepId)%Z then (t <| MCallerTxid := mcallerTxid |>, true) else (t, false)
  else (t <| MTid := mtid |> <| MCallerTxid := mcallerTxid |> <| MCallerStepId := stepId |>, true).

Definition update_whatap (h : Header) (t : TraceCtx) : TraceCtx :=
  let spec := header_Get h (TraceMtraceSpecKey1 conf) in
  let t := if nonempty spec then
             match Split (TrimSpace spec) (str ",") with
             | a0 :: a1 :: _ => t <| MCallerSpec := a0 |> <| MCallerUrl := a1 |>
             | _ => t
             end
           else t in
  let poid := header_Get h (TraceMtracePoidKey conf) in
  if nonempty poid then t <| MCallerPoidKey := TrimSpace poid |> else t.

(** The transaction is traced on at the configured rate. *)
Definition sample_mtid (n : nat) (t : TraceCtx) : TraceCtx * nat :=
  if (MTid t =? 0)%Z then
    let checkSeq := Next n in
    (if (Z.abs (Z.rem (Z.quot checkSeq 100) 100) <? MtraceRate conf)%Z then t <| MTid := checkSeq |> else t, S n)
  else (t, n).

Definition set_values (t : TraceCtx) : TraceCtx :=
  t <| TraceMtraceTraceparentValue := traceparent_value t |> <| TraceMtraceCallerValue := caller_value t |>.

Definition UpdateMtrace (n : nat) (t : TraceCtx) (header : Header) : res (TraceCtx * nat) :=
  if DISABLE conf then Ret (t, n)
  else if negb (MtraceEnabled conf) then Ret (t, n)
  else
    let parent := header_Get header (TraceMtraceTraceparentKey conf) in
    let isTraceparent := nonempty parent in
    t ← (if isTraceparent then update_traceparent parent t else Ret t);
    let caller := header_Get header (TraceMtraceCallerKey conf) in
    let '(t, useWhatap) := if nonempty caller then update_caller isTraceparent caller t else (t, true) in
    let t := if useWhatap then update_whatap header t else t in
    let '(t, n) := sample_mtid n t in
    let t := set_values (t <| MStepId := Next n |>) in
    Ret (t <| TraceMtraceSpecValue := MtraceSpec conf ++ str ", " ++ FormatInt (HashStr (Name t)) |>
           <| TraceMtracePoidValue := ToString32 (m_PCODE conf) ++ str ", " ++ ToString32 (m_OKIND conf) ++
                                      str ", " ++ ToString32 (m_OID conf) |>, S n).

(** [GetMTrace] for the transaction of the context, if it has one. *)
Definition GetMTrace (n : nat) (t : option TraceCtx) : Header * option TraceCtx * nat :=
  if DISABLE conf then ([], t, n)
  else
    match t with
    | None => ([], None, n)
    | Some t =>
        let t := set_values (t <| MStepId := Next n |>) in
        let rt := header_Set [] (TraceMtraceTraceparentKey conf) (TraceMtraceTraceparentValue t) in
        let rt := header_Set rt (TraceMtraceCallerKey conf) (TraceMtraceCallerValue t) in
        let rt := header_Set rt (TraceMtracePoidKey conf) (TraceMtracePoidValue t) in
        let rt := header_Set rt (TraceMtraceSpecKey1 conf) (TraceMtraceSpecValue t) in
        (rt, Some t, S n)
    end.
End Mtrace.
