(* ===== verification/TraceCtxFacts.v ===== *)
(** Passing a transaction on is a round trip: what [UpdateMtrace] reads in the callee is
    what [GetMTrace] wrote in the caller.  And the one header that makes it panic. *)

From S2P Require Import Prelude UrlPattern TraceCtx.

(** * What is relied on *)

(** [stringutil.Split] undoes a join of non-empty parts without the separator. *)
Class SplitLaws (SU : StringUtil) : Prop := {
  split_join c parts :
    parts <> [] -> Forall (fun p => p <> [] /\ c ∉ p) parts -> Split (Join parts [c]) [c] = parts
}.
(** A [hexa32] number is read back; it has neither blanks nor commas. *)
Class Hexa32Laws (HX : Hexa32) : Prop := {
  hexa_round x : in_s 64 x -> ToLong32 (ToString32 x) = x;
  hexa_nonempty x : ToString32 x <> [];
  hexa_chars x : Forall (fun c => is_space c = false /\ c <> ","%char) (ToString32 x)
}.

(** * Characters *)

Lemma all_ascii (P : ascii -> Prop) `{forall c, Decision (P c)} :
  forallb (fun n => bool_decide (P (ascii_of_nat n))) (seq 0 256) = true -> forall c, P c.
Proof.
  intros Hall c. rewrite forallb_forall in Hall. specialize (Hall (nat_of_ascii c)).
  rewrite ascii_nat_embedding in Hall. eapply bool_decide_eq_true_1, Hall, in_seq.
  pose proof (nat_ascii_bounded c). lia.
Qed.

Definition plain (bad : ascii) (c : ascii) : Prop := is_space c = false /\ c <> bad.

Lemma trim_left_id s : Forall (fun c => is_space c = false) s -> trim_left s = s.
Proof. destruct s as [|c s]; [done|]. intros [Hc _]%Forall_cons. simpl. by rewrite Hc. Qed.
(** A text without blanks. *)
Abbreviation solid s := (Forall (fun c => is_space c = false) s).
Lemma plain_solid bad s : Forall (plain bad) s -> solid s.
Proof. intros H. eapply Forall_impl; [exact H|]. by intros c []. Qed.
Lemma TrimSpace_id s : solid s -> TrimSpace s = s.
Proof.
  intros H. unfold TrimSpace. rewrite (trim_left_id s), trim_left_id; [apply rev_involutive| |done].
  by apply Forall_rev.
Qed.
(** Blanks inside a text stay. *)
Lemma TrimSpace_ends x m y : x <> [] -> solid x -> y <> [] -> solid y -> TrimSpace (x ++ m ++ y) = x ++ m ++ y.
Proof.
  assert (forall a b : bytes, a <> [] -> solid a -> trim_left (a ++ b) = a ++ b) as Ht.
  { intros [|c a] b Ha Hs; [done|]. apply Forall_cons in Hs as [Hc _]. simpl. by rewrite Hc. }
  intros Hx Sx Hy Sy. unfold TrimSpace. rewrite Ht by done. rewrite app_assoc, rev_app_distr, Ht.
  - by rewrite <- rev_app_distr, rev_involutive.
  - intros E. apply (f_equal (@rev ascii)) in E. by rewrite rev_involutive in E.
  - by apply Forall_rev.
Qed.
Lemma Join_solid parts sep : solid sep -> Forall (fun p => solid p) parts -> solid (Join parts sep).
Proof.
  intros Hs. induction 1 as [|p parts Hp Hps IH]; [constructor|]. simpl.
  destruct parts; [by rewrite ?app_nil_r|]. rewrite !Forall_app. by split; [|split].
Qed.

(** * Hexadecimal numbers *)

Lemma hex_char_spec d :
  (0 <= d < 16)%Z -> hex_val (hex_char d) = Some d /\ plain "-" (hex_char d) /\ hex_char d <> ","%char.
Proof.
  intros Hd. assert (d ∈ (fun n => Z.of_nat n) <$> seq 0 16) as Hin.
  { apply list_elem_of_fmap. exists (Z.to_nat d). split; [lia|]. apply elem_of_seq. lia. }
  unfold plain. repeat (apply elem_of_cons in Hin as [->|Hin]; [by repeat split|]). by apply elem_of_nil in Hin.
Qed.

Lemma hexn_length n z : length (hexn n z) = n.
Proof. induction n; simpl; [done|]. by rewrite IHn. Qed.
Lemma hexn_plain n z : Forall (plain "-") (hexn n z).
Proof.
  induction n; simpl; [constructor|]. constructor; [|done]. apply hex_char_spec. apply Z.mod_pos_bound. lia.
Qed.
Lemma parse_hexn n z acc s :
  (0 <= z)%Z -> parse_hex acc (hexn n z ++ s) = parse_hex (acc * 16 ^ Z.of_nat n + z mod 16 ^ Z.of_nat n) s.
Proof.
  intros Hz. revert acc. induction n as [|n IH]; intros acc.
  { simpl. rewrite Z.mod_1_r. f_equal. lia. }
  cbn [hexn app parse_hex]. pose proof (Z.mod_pos_bound (z / 16 ^ Z.of_nat n) 16 ltac:(lia)) as Hb.
  destruct (hex_char_spec _ Hb) as [-> _]. simpl. rewrite IH. f_equal.
  rewrite Nat2Z.inj_succ, Z.pow_succ_r, (Z.mul_comm 16) by lia.
  rewrite Z.rem_mul_r; lia.
Qed.

Lemma hex16_spec z :
  length (hex16 z) = 16 /\ Forall (plain "-") (hex16 z) /\ ParseUint16 (hex16 z) = Some (wrap_u 64 z).
Proof.
  split; [apply hexn_length|]. split; [apply hexn_plain|]. unfold ParseUint16, hex16.
  set (x := wrap_u 64 z). assert (0 <= x < 2 ^ 64)%Z as Hx by (apply Z.mod_pos_bound; lia).
  assert (parse_hex 0 (hexn 16 x) = Some x) as Hp.
  { rewrite <- (app_nil_r (hexn 16 x)), parse_hexn by lia. simpl. rewrite Z.mod_small; [done|].
    change (Z.pow_pos 16 16) with (2 ^ 64)%Z. lia. }
  pose proof (hexn_length 16 x). destruct (hexn 16 x) as [|c s] eqn:E; [done|].
  rewrite Hp. simpl. by rewrite (proj2 (Z.ltb_lt _ _)) by lia.
Qed.
Lemma int64_wrap_u z : in_s 64 z -> int64 (wrap_u 64 z) = z.
Proof.
  intros Hz. unfold int64, wrap_u. rewrite <- (wrap_s_id 64 z) at 2; [|lia|done].
  apply wrap_s_eq; [lia|]. by rewrite Zmod_mod.
Qed.

(** * Decimal numbers *)

Lemma parse_dec_go (x : N) (s : string) :
  parse_dec 0 (str (pretty_N_go x s)) = parse_dec (Z.of_N x) (str s).
Proof.
  revert s. induction (N.lt_wf_0 x) as [x _ IH]; intros s.
  destruct (decide (x = 0%N)) as [->|Hx]; [by rewrite pretty_N_go_0|].
  rewrite pretty_N_go_step by lia. rewrite IH by (apply N.div_lt; lia). simpl.
  assert (x `mod` 10 < 10)%N as Hm by (apply N.mod_lt; lia).
  assert (byteZ (pretty_N_char (x `mod` 10)) = 48 + Z.of_N (x `mod` 10))%Z as Hc.
  { set (m := (x `mod` 10)%N) in *. clearbody m.
    assert (m = 0 \/ m = 1 \/ m = 2 \/ m = 3 \/ m = 4 \/ m = 5 \/ m = 6 \/ m = 7 \/ m = 8 \/ m = 9)%N as Hd
      by lia.
    by repeat destruct Hd as [->|Hd]; [..|subst m]. }
  rewrite Hc.
  assert ((48 <=? 48 + Z.of_N (x `mod` 10)) && (48 + Z.of_N (x `mod` 10) <=? 57) = true)%Z as ->.
  { revert Hm. generalize (x `mod` 10)%N. intros m Hm. apply andb_true_intro. rewrite !Z.leb_le. lia. }
  f_equal.
  rewrite N2Z.inj_div, N2Z.inj_mod. change (Z.of_N 10) with 10%Z.
  pose proof (Z.div_mod (Z.of_N x) 10). lia.
Qed.
Lemma parse_dec_pretty (x : N) : parse_dec 0 (str (pretty x)) = Some (Z.of_N x).
Proof.
  unfold pretty, pretty_N. case_decide as Hx; [by subst|]. by rewrite parse_dec_go.
Qed.

Definition digit (c : ascii) : Prop := (48 <= byteZ c <= 57)%Z.
Lemma parse_dec_digits acc s z : parse_dec acc s = Some z -> Forall digit s.
Proof.
  revert acc. induction s as [|c s IH]; intros acc H; [constructor|]. simpl in H.
  destruct ((48 <=? byteZ c)%Z && (byteZ c <=? 57)%Z) eqn:E; [|done].
  apply andb_prop in E as [?%Z.leb_le ?%Z.leb_le]. constructor; [unfold digit; lia|]. by eapply IH.
Qed.
Lemma digit_plain c : digit c -> plain "," c /\ c <> "-"%char /\ c <> "+"%char.
Proof.
  revert c. unfold plain, digit. apply (all_ascii (fun c => _ -> _)). by vm_compute.
Qed.

Lemma pretty_nonempty (x : N) : str (pretty x) <> [].
Proof.
  unfold pretty, pretty_N. case_decide as Hx; [done|]. rewrite pretty_N_go_step by lia.
  assert (forall y (t : string), str t <> [] -> str (pretty_N_go y t) <> []) as Hne; [|by apply Hne].
  intros y. induction (N.lt_wf_0 y) as [y _ IH]; intros t Ht.
  destruct (decide (y = 0%N)) as [->|Hy]; [by rewrite pretty_N_go_0|].
  rewrite pretty_N_go_step by lia. apply IH; [apply N.div_lt; lia|done].
Qed.
Lemma FormatInt_chars z : FormatInt z <> [] /\ Forall (plain ",") (FormatInt z).
Proof.
  assert (forall x : N, Forall (plain ",") (str (pretty x))) as Hp.
  { intros x. eapply Forall_impl; [by eapply parse_dec_digits, parse_dec_pretty|].
    intros d Hd. by apply digit_plain. }
  unfold FormatInt. destruct z as [|p|p].
  - split; [done|]. by repeat constructor.
  - change (pretty (Z.pos p)) with (pretty (N.pos p)). split; [apply pretty_nonempty|apply Hp].
  - change (str (pretty (Z.neg p))) with ("-"%char :: str (pretty (N.pos p))).
    split; [done|]. constructor; [by split|apply Hp].
Qed.
Lemma Atoi_FormatInt z : in_s 64 z -> Atoi (FormatInt z) = Some z.
Proof.
  intros Hz. unfold in_s in Hz. change (2 ^ (64 - 1))%Z with (2 ^ 63)%Z in Hz.
  assert (forall x : N, exists c s, str (pretty x) = c :: s /\ c <> "-"%char /\ c <> "+"%char) as Hpos.
  { intros x. pose proof (parse_dec_digits _ _ _ (parse_dec_pretty x)) as Hd. pose proof (pretty_nonempty x).
    destruct (str (pretty x)) as [|c s]; [done|]. exists c, s. split; [done|].
    apply Forall_cons in Hd as [Hc%digit_plain _]. apply Hc. }
  assert (forall x : N, (Z.of_N x < 2 ^ 63)%Z -> Atoi (str (pretty x)) = Some (Z.of_N x)) as Hat.
  { intros x Hx. pose proof (parse_dec_pretty x) as Hp. destruct (Hpos x) as (c & s & E & Hm & Hpl).
    rewrite E in *. unfold Atoi.
    assert (match c :: s with "-"%char :: s0 => (true, s0) | "+"%char :: s0 => (false, s0) | _ => (false, c :: s) end
            = (false, c :: s)) as -> by (clear -Hm Hpl; destruct c as [[] [] [] [] [] [] [] []]; congruence).
    rewrite Hp. simpl. by rewrite (proj2 (Z.leb_le _ _)), (proj2 (Z.ltb_lt _ _)) by lia. }
  unfold FormatInt. destruct z as [|p|p]; [done|apply Hat; lia|].
  change (str (pretty (Z.neg p))) with ("-"%char :: str (pretty (N.pos p))).
  pose proof (parse_dec_pretty (N.pos p)) as Hp. destruct (Hpos (N.pos p)) as (c & s & E & _).
  rewrite E in *. unfold Atoi. rewrite Hp. simpl.
  by rewrite (proj2 (Z.leb_le _ _)), (proj2 (Z.ltb_lt _ _)) by lia.
Qed.

(** * Header keys *)

Lemma to_upper_idem c : to_upper (to_upper c) = to_upper c.
Proof. revert c. apply (all_ascii (fun c => _ = _)). by vm_compute. Qed.
Lemma to_lower_idem c : to_lower (to_lower c) = to_lower c.
Proof. revert c. apply (all_ascii (fun c => _ = _)). by vm_compute. Qed.
Lemma dash_upper c : to_upper c = "-"%char <-> c = "-"%char.
Proof. split; revert c; apply (all_ascii (fun c => _ -> _)); by vm_compute. Qed.
Lemma dash_lower c : to_lower c = "-"%char <-> c = "-"%char.
Proof. split; revert c; apply (all_ascii (fun c => _ -> _)); by vm_compute. Qed.
Lemma token_upper c : token_byte c = true -> token_byte (to_upper c) = true.
Proof. revert c. apply (all_ascii (fun c => _ -> _)). by vm_compute. Qed.
Lemma token_lower c : token_byte c = true -> token_byte (to_lower c) = true.
Proof. revert c. apply (all_ascii (fun c => _ -> _)). by vm_compute. Qed.

Lemma canonical_from_idem up s : canonical_from up (canonical_from up s) = canonical_from up s.
Proof.
  revert up. induction s as [|c s IH]; intros up; simpl; [done|].
  rewrite (bool_decide_ext ((if up then to_upper c else to_lower c) = "-"%char) (c = "-"%char)).
  - rewrite IH. by destruct up; rewrite ?to_upper_idem, ?to_lower_idem.
  - destruct up; [apply dash_upper|apply dash_lower].
Qed.
Lemma canonical_idem s : canonical (canonical s) = canonical s.
Proof.
  unfold canonical. destruct (forallb token_byte s) eqn:E; [|by rewrite E].
  assert (forall up, forallb token_byte (canonical_from up s) = true) as ->; [|apply canonical_from_idem].
  induction s as [|c s IH]; intros up; simpl in *; [done|]. apply andb_prop in E as [Hc Hs].
  rewrite IH by done. destruct up; by rewrite ?token_upper, ?token_lower.
Qed.

(** What [Set] has built. *)
Definition canonical_keys (h : Header) : Prop := Forall (fun kv => canonical kv.1 = kv.1) h.

Lemma header_Set_keys h k v : canonical_keys h -> canonical_keys (header_Set h k v).
Proof.
  intros Hh. unfold canonical_keys, header_Set. rewrite Forall_app. split.
  2:{ apply Forall_cons. split; [apply canonical_idem|constructor]. }
  apply Forall_forall. intros kv [_ Hin]%list_elem_of_filter. by eapply Forall_forall in Hh.
Qed.
Lemma header_Get_Set h k v j :
  canonical_keys h ->
  header_Get (header_Set h k v) j = if decide (canonical j = canonical k) then v else header_Get h j.
Proof.
  intros Hh. unfold header_Get, header_Set.
  rewrite filter_app, fmap_app, concat_app, list_filter_filter, filter_cons. simpl.
  rewrite canonical_idem. destruct (decide (canonical j = canonical k)) as [Hj|Hj].
  - rewrite Hj, decide_True by done. simpl.
    assert (filter (fun kv => canonical kv.1 = canonical k /\ kv.1 <> canonical k) h = []) as ->; [|done].
    induction Hh as [|kv h Hkv _ IH]; [done|]. rewrite filter_cons, decide_False; [done|].
    intros [H1 H2]. congruence.
  - rewrite decide_False by congruence. simpl. rewrite app_nil_r.
    rewrite (list_filter_iff _ (fun kv => canonical kv.1 = canonical j)); [done|].
    intros [k' vs]. simpl. split; [tauto|]. intros Hk. split; [done|]. intros ->. by rewrite canonical_idem in Hk.
Qed.

(** * The two values *)

Section Values.
Context {SU : StringUtil} {SL : SplitLaws SU} {HX : Hexa32} {HL : Hexa32Laws HX}.

(** The trace id of a transaction is its own, or one that ends in its [MTid]. *)
Definition carried (t : TraceCtx) : Prop :=
  MCallerTraceId t = [] \/
  exists p, length p = 16 /\ Forall (plain "-") p /\ MCallerTraceId t = p ++ hex16 (MTid t).
Definition trace_id (t : TraceCtx) : bytes :=
  if nonempty (MCallerTraceId t) then MCallerTraceId t else replicate 16 "0"%char ++ hex16 (MTid t).

Lemma carried_id t :
  carried t -> exists p, length p = 16 /\ Forall (plain "-") p /\ trace_id t = p ++ hex16 (MTid t).
Proof.
  unfold carried, trace_id. intros [->|(p & Hl & Hp & ->)].
  - exists (replicate 16 "0"%char). split; [done|]. split; [by repeat constructor|done].
  - exists p. by destruct p.
Qed.
Lemma plain_no_sep bad s : Forall (plain bad) s -> bad ∉ s.
Proof. intros Hs Hin. eapply Forall_forall in Hin; [|exact Hs]. by destruct Hin. Qed.

(** Splitting what was joined, blanks trimmed. *)
Lemma split_trimmed c parts :
  is_space c = false -> parts <> [] -> Forall (fun p => p <> [] /\ Forall (plain c) p) parts ->
  Split (TrimSpace (Join parts [c])) [c] = parts.
Proof.
  intros Hc Hn Hp. rewrite TrimSpace_id, split_join; [done..| |].
  - eapply Forall_impl; [exact Hp|]. intros p [? ?]. split; [done|by apply plain_no_sep].
  - apply Join_solid; [by repeat constructor|]. eapply Forall_impl; [exact Hp|].
    intros p [_ ?]. by eapply plain_solid.
Qed.

Lemma traceparent_read t u :
  carried t -> in_s 64 (MTid t) -> in_s 64 (MStepId t) ->
  update_traceparent (traceparent_value t) u =
    Ret (u <| MCallerTraceId := trace_id t |> <| MTid := MTid t |> <| MCallerStepId := MStepId t |>).
Proof.
  intros Hc Hm Hs. destruct (carried_id t Hc) as (p & Hl & Hp & Hid).
  destruct (hex16_spec (MTid t)) as (HmL & HmP & HmV). destruct (hex16_spec (MStepId t)) as (HsL & HsP & HsV).
  assert (traceparent_value t = Join [str "00"; trace_id t; hex16 (MStepId t); str "01"] (str "-")) as ->.
  { unfold traceparent_value, trace_id. destruct (nonempty (MCallerTraceId t)); cbn; by rewrite <- ?app_assoc. }
  unfold update_traceparent. change (str "-") with ["-"%char]. rewrite split_trimmed; [|done|done|].
  2:{ repeat apply Forall_cons_2; [..|constructor]; (split; [|try done]).
      - done.
      - by repeat constructor.
      - rewrite Hid. by destruct p.
      - rewrite Hid. by apply Forall_app.
      - by destruct (hex16 (MStepId t)).
      - done.
      - by repeat constructor. }
  assert (slice (trace_id t) 16 (length (trace_id t)) = Ret (hex16 (MTid t))) as ->.
  { rewrite Hid. unfold slice. rewrite length_app, decide_True by lia.
    by rewrite drop_app_length', take_ge by lia. }
  cbn -[ParseUint16 hex16]. by rewrite HmV, HsV; cbn; rewrite !int64_wrap_u.
Qed.

Lemma caller_read t u parent :
  in_s 64 (MTid t) -> in_s 64 (Txid t) -> in_s 64 (MStepId t) ->
  MCallerStepId u = MStepId t -> MTid u = MTid t ->
  update_caller parent (caller_value t) u =
    (u <| MDepth := int32 (MDepth t + 1) |> <| MCallerTxid := Txid t |>
       <| MCallerStepId := MStepId t |> <| MTid := MTid t |>, true).
Proof.
  intros Hm Ht Hs Hu Hv. destruct (FormatInt_chars (int64 (MDepth t + 1))) as [Hf Hp].
  pose proof (Atoi_FormatInt (int64 (MDepth t + 1)) (wrap_s_range 64 _ ltac:(done))) as Ha.
  assert (caller_value t = Join [ToString32 (MTid t); FormatInt (int64 (MDepth t + 1));
            ToString32 (Txid t); ToString32 (MStepId t)] (str ",")) as -> by done.
  unfold update_caller. change (str ",") with [","%char]. rewrite split_trimmed; [|done|done|].
  2:{ pose proof hexa_nonempty. pose proof hexa_chars.
      repeat apply Forall_cons_2; [by split..|constructor]. }
  rewrite Ha, !hexa_round by done.
  assert (int32 (int64 (MDepth t + 1)) = int32 (MDepth t + 1)) as -> by (apply wrap_s_narrow; lia).
  destruct u. simpl in Hu, Hv. subst. destruct parent; cbn; by rewrite ?Z.eqb_refl.
Qed.
End Values.

(** * From process to process *)

Definition mtrace_keys (conf : MtraceConf) : list bytes :=
  [TraceMtraceTraceparentKey conf; TraceMtraceCallerKey conf; TraceMtracePoidKey conf; TraceMtraceSpecKey1 conf].
(** Tracing across processes is on, under four different header keys. *)
Definition mtrace_on (conf : MtraceConf) : Prop :=
  DISABLE conf = false /\ MtraceEnabled conf = true /\ NoDup (canonical <$> mtrace_keys conf).

Section Passing.
Context {SU : StringUtil} {SL : SplitLaws SU} {HX : Hexa32} {HL : Hexa32Laws HX}.
Variable conf : MtraceConf.
Variable Next : nat -> Z.

(** The four headers of a transaction. *)
Lemma GetMTrace_headers n t hdr t' n' :
  mtrace_on conf -> GetMTrace conf Next n (Some t) = (hdr, Some t', n') ->
  t' = set_values (t <| MStepId := Next n |>) /\
  header_Get hdr (TraceMtraceTraceparentKey conf) = traceparent_value t' /\
  header_Get hdr (TraceMtraceCallerKey conf) = caller_value t' /\
  header_Get hdr (TraceMtracePoidKey conf) = TraceMtracePoidValue t /\
  header_Get hdr (TraceMtraceSpecKey1 conf) = TraceMtraceSpecValue t.
Proof.
  intros (Hd & _ & Hk). unfold GetMTrace, mtrace_keys in *. rewrite Hd. intros [= <- <- <-]. split; [done|].
  cbn in Hk. rewrite !NoDup_cons, !not_elem_of_cons in Hk.
  rewrite !header_Get_Set by (repeat apply header_Set_keys; constructor).
  destruct_and!. repeat split; by repeat first [rewrite decide_True by done | rewrite decide_False by congruence].
Qed.

Lemma traceparent_nonempty t : traceparent_value t <> [] .
Proof. unfold traceparent_value. by destruct (nonempty _). Qed.
Lemma caller_nonempty t : caller_value t <> [].
Proof. unfold caller_value. pose proof (hexa_nonempty (MTid t)). by destruct (ToString32 (MTid t)). Qed.
Lemma nonempty_true (s : bytes) : s <> [] -> nonempty s = true.
Proof. by destruct s. Qed.

(** What the callee reads of the names in a header. *)
Definition spec_names (spec : bytes) (u : TraceCtx) : bytes * bytes :=
  if nonempty spec then
    match Split (TrimSpace spec) (str ",") with a0 :: a1 :: _ => (a0, a1) | _ => (MCallerSpec u, MCallerUrl u) end
  else (MCallerSpec u, MCallerUrl u).
(** The WhaTap headers set the caller's names, and its key as it is sent. *)
Lemma update_whatap_spec h u :
  update_whatap conf h u =
    u <| MCallerSpec := (spec_names (header_Get h (TraceMtraceSpecKey1 conf)) u).1 |>
      <| MCallerUrl := (spec_names (header_Get h (TraceMtraceSpecKey1 conf)) u).2 |>
      <| MCallerPoidKey := let poid := header_Get h (TraceMtracePoidKey conf) in
                           if nonempty poid then TrimSpace poid else MCallerPoidKey u |>.
Proof.
  unfold update_whatap, spec_names. destruct (nonempty (header_Get h (TraceMtraceSpecKey1 conf))).
  - destruct (Split _ _) as [|a0 [|a1 r]]; by destruct (nonempty _), u.
  - by destruct (nonempty _), u.
Qed.
(** What [UpdateMtrace] leaves to be passed on as the names of a transaction. *)
Definition spec_sent (spec name : bytes) : bytes := spec ++ str ", " ++ FormatInt (HashStr name).
Lemma spec_names_sent spec name u :
  spec <> [] -> Forall (plain ",") spec ->
  spec_names (spec_sent spec name) u = (spec, " "%char :: FormatInt (HashStr name)).
Proof.
  intros Hn Hp. destruct (FormatInt_chars (HashStr name)) as [Hf Hfp].
  assert (nonempty (spec_sent spec name) = true) as He by (by destruct spec).
  unfold spec_names. rewrite He. unfold spec_sent. rewrite TrimSpace_ends; [|done|by eapply plain_solid|done|by eapply plain_solid].
  change (spec ++ str ", " ++ FormatInt (HashStr name)) with (Join [spec; " "%char :: FormatInt (HashStr name)] [","%char]).
  change (str ",") with [","%char]. rewrite split_join; [done|done|].
  repeat apply Forall_cons_2; [..|constructor]; (split; [done|]).
  - by apply plain_no_sep.
  - apply not_elem_of_cons. split; [done|]. by apply plain_no_sep.
Qed.

(** C28. A transaction passed on with [GetMTrace] continues in the callee, whatever its
    context held before: [UpdateMtrace] finds the same multi-trace id, the caller's
    transaction and step, one level more of depth and the caller's identity; it finds the
    caller's spec, and the hash of its name with the blank in front of it, when the spec is
    a word without commas, and none when the caller sends none; and what the callee passes
    on in turn is read back the same way ([carried], and the names and the identity it
    leaves).  Other headers of the request do not matter. *)
Theorem mtrace_roundtrip t n hdr t' n' h u m :
  mtrace_on conf ->
  carried t -> MTid t <> 0%Z -> in_s 64 (MTid t) -> in_s 64 (Txid t) -> in_s 64 (Next n) ->
  GetMTrace conf Next n (Some t) = (hdr, Some t', n') ->
  (forall k, k ∈ mtrace_keys conf -> header_Get h k = header_Get hdr k) ->
  exists v, UpdateMtrace conf Next m u h = Ret (v, S m) /\
    MTid v = MTid t /\ MCallerTxid v = Txid t /\ MCallerStepId v = MStepId t' /\
    MDepth v = int32 (MDepth t + 1) /\ MCallerTraceId v = trace_id t /\
    MCallerPoidKey v = (if nonempty (TraceMtracePoidValue t) then TrimSpace (TraceMtracePoidValue t)
                        else MCallerPoidKey u) /\
    (forall spec name, TraceMtraceSpecValue t = spec_sent spec name -> spec <> [] -> Forall (plain ",") spec ->
       MCallerSpec v = spec /\ MCallerUrl v = " "%char :: FormatInt (HashStr name)) /\
    (TraceMtraceSpecValue t = [] -> MCallerSpec v = MCallerSpec u /\ MCallerUrl v = MCallerUrl u) /\
    carried v /\ TraceMtraceSpecValue v = spec_sent (MtraceSpec conf) (Name u) /\
    TraceMtracePoidValue v = Join [ToString32 (m_PCODE conf); ToString32 (m_OKIND conf); ToString32 (m_OID conf)] (str ", ").
Proof.
  intros Hon Hc Hm0 Hm Ht Hn HG Hh. destruct (GetMTrace_headers _ _ _ _ _ Hon HG) as (-> & H1 & H2 & H3 & H4).
  destruct Hon as (Hd & He & _). set (t' := set_values _) in *.
  rewrite <- (Hh (TraceMtraceTraceparentKey conf)) in H1 by set_solver.
  rewrite <- (Hh (TraceMtraceCallerKey conf)) in H2 by set_solver.
  rewrite <- (Hh (TraceMtracePoidKey conf)) in H3 by set_solver.
  rewrite <- (Hh (TraceMtraceSpecKey1 conf)) in H4 by set_solver.
  unfold UpdateMtrace. rewrite Hd, He, H1, H2. cbn [negb].
  rewrite (nonempty_true (traceparent_value t')), (nonempty_true (caller_value t'))
    by first [apply traceparent_nonempty|apply caller_nonempty].
  rewrite traceparent_read by done. cbn [mbind res_bind]. rewrite caller_read by done.
  cbv beta iota.
  match goal with |- context [update_whatap conf h ?w] => set (v := w) end.
  rewrite (update_whatap_spec h v), H3, H4. unfold sample_mtid.
  assert (forall s w k, MTid (v <| MCallerSpec := s |> <| MCallerUrl := w |> <| MCallerPoidKey := k |>) = MTid t)
    as -> by done.
  rewrite (proj2 (Z.eqb_neq _ _)) by done.
  eexists. split; [reflexivity|]. do 6 (split; [done|]). split; [|split; [|split; [|split; done]]].
  - intros spec name E Hn1 Hp1. cbn. by rewrite E, spec_names_sent.
  - intros E. cbn. by rewrite E.
  - destruct (carried_id t Hc) as (p & Hl & Hp & Hid). right. exists p. split; [done|]. split; [done|]. exact Hid.
Qed.

(** A [traceparent] of four parts or more whose trace id has fewer than 16 bytes. *)
Definition short_trace_id (h : Header) : Prop :=
  exists a id step x rest,
    Split (TrimSpace (header_Get h (TraceMtraceTraceparentKey conf))) (str "-") = a :: id :: step :: x :: rest /\
    length id < 16.

(** A request with a [traceparent] header makes [UpdateMtrace] panic exactly when the
    header has at least four parts and a trace id of fewer than 16 bytes. *)
Theorem UpdateMtrace_panics m u h :
  mtrace_on conf -> header_Get h (TraceMtraceTraceparentKey conf) <> [] ->
  UpdateMtrace conf Next m u h = Panic <-> short_trace_id h.
Proof.
  intros (Hd & He & _) Hp. unfold UpdateMtrace, short_trace_id. rewrite Hd, He, (nonempty_true _ Hp). cbn [negb].
  match goal with |- (?w ≫= ?F) = Panic <-> _ =>
    assert (w ≫= F = Panic <-> w = Panic) as -> by (apply bind_panic; intros; repeat case_match; done) end.
  set (val := header_Get _ _). unfold update_traceparent.
  destruct (Split (TrimSpace val) (str "-")) as [|a [|id [|step [|x rest]]]];
    try (split; [done|]; intros (? & ? & ? & ? & ? & ? & ?); congruence).
  unfold slice. destruct (decide _) as [Hl|Hl]; cbn -[ParseUint16].
  - split; [done|]. intros (? & ? & ? & ? & ? & [= <- <- <- <- <-] & ?). lia.
  - split; [|done]. intros _. exists a, id, step, x, rest. split; [done|lia].
Qed.
End Passing.

(** * Witnesses *)

Lemma split_at_word c cur w s :
  c ∉ w -> split_at c cur (w ++ s) = split_at c (cur ++ w) s.
Proof.
  revert cur. induction w as [|x w IH]; intros cur Hw; simpl; [by rewrite app_nil_r|].
  apply not_elem_of_cons in Hw as [Hx Hw]. rewrite bool_decide_eq_false_2 by congruence.
  by rewrite IH, <- app_assoc.
Qed.
#[export] Instance strings1_split : SplitLaws strings1.
Proof.
  split. intros c parts _ Hp. simpl. induction Hp as [|w parts [Hw Hc] _ IH]; [done|].
  destruct parts as [|v parts].
  - rewrite <- (app_nil_r w) at 1. change (Join [w ++ []] [c]) with (w ++ []).
    rewrite split_at_word by done. simpl. by destruct w.
  - change (Join (w :: v :: parts) [c]) with (w ++ c :: Join (v :: parts) [c]).
    rewrite split_at_word by done. cbn [app split_at].
    rewrite bool_decide_eq_true_2, IH by done. by destruct w.
Qed.

(** Decimal numbers in place of base 32. *)
Definition hexa1 : Hexa32 := {| ToString32 := FormatInt; ToLong32 s := default 0%Z (Atoi s) |}.
#[export] Instance hexa1_laws : Hexa32Laws hexa1.
Proof.
  split; simpl; intros x.
  - intros Hx. by rewrite Atoi_FormatInt.
  - apply FormatInt_chars.
  - apply FormatInt_chars.
Qed.

Definition mconf1 : MtraceConf :=
  mkMtraceConf false true (str "traceparent") (str "x-wtap-mst") (str "x-wtap-sp1") (str "x-wtap-po")
    100 (str "v1") 7 1 9.
(** A transaction of depth 2 with its own trace id. *)
Definition tx_ctx1 : TraceCtx :=
  NewTraceCtx <| Txid := 41%Z |> <| MTid := (-5)%Z |> <| MDepth := 2%Z |> <| TraceMtracePoidValue := str "7, 1, 9" |>
    <| TraceMtraceSpecValue := @spec_sent strings1 (str "v1") (str "/order") |>.
Definition passed1 := @GetMTrace hexa1 mconf1 (fun n => Z.of_nat n + 1000)%Z 3 (Some tx_ctx1).
Definition hdr1 : Header := passed1.1.1.

Lemma mtrace_roundtrip_witness :
  exists v, @UpdateMtrace strings1 hexa1 mconf1 (fun n => Z.of_nat n + 1000)%Z 8 NewTraceCtx
              ((str "accept", [str "*/*"]) :: hdr1) = Ret (v, 9) /\
    MTid v = (-5)%Z /\ MCallerTxid v = 41%Z /\ MCallerStepId v = 1003%Z /\ MDepth v = 3%Z /\
    MCallerSpec v = str "v1" /\ MCallerUrl v = " "%char :: FormatInt (@HashStr strings1 (str "/order")).
Proof.
  destruct (@mtrace_roundtrip strings1 _ hexa1 _ mconf1 (fun n => Z.of_nat n + 1000)%Z tx_ctx1 3 hdr1
              (default NewTraceCtx passed1.1.2) 4 ((str "accept", [str "*/*"]) :: hdr1) NewTraceCtx 8)
    as (v & Hv & H1 & H2 & H3 & H4 & _ & _ & H5 & _).
  - split; [done|]. split; [done|]. by apply (bool_decide_unpack _), I.
  - by left.
  - done.
  - done.
  - done.
  - done.
  - by vm_compute.
  - intros k Hk. unfold mtrace_keys in Hk.
    repeat (apply elem_of_cons in Hk as [->|Hk]; [by vm_compute|]). by apply elem_of_nil in Hk.
  - exists v. split; [exact Hv|]. do 4 (split; [done|]). apply (H5 (str "v1") (str "/order")); [reflexivity|done|].
    by repeat constructor.
Defined.

Definition short1 : Header := [(str "Traceparent", [str "00-abc-1-01"])].
Lemma UpdateMtrace_panics_witness :
  @UpdateMtrace strings1 hexa1 mconf1 Z.of_nat 0 NewTraceCtx short1 = Panic.
Proof.
  apply (@UpdateMtrace_panics strings1 hexa1 mconf1 Z.of_nat 0 NewTraceCtx short1).
  - split; [done|]. split; [done|]. by apply (bool_decide_unpack _), I.
  - done.
  - exists (str "00"), (str "abc"), (str "1"), (str "01"), []. split; [by vm_compute|simpl; lia].
Defined.
