(* ===== verification/DataPack.v ===== *)
(** Sending packs, [src/agent/agent/data/DataPack.go], and the request queues of golib.

    A pack is golib's; the class [PackI] has what is used of it: its type, and the
    identity of the agent stamped on it.  [net.Send] and [net.SendProfile] are the
    two queues of [src/agent/net/Sender.go]: a call is recorded. *)

From S2P Require Import Prelude.

(** * Request queues

    golib's [queue.RequestQueue]: [Put] refuses when the queue is full, [PutForce]
    gives up old entries instead, [GetTimeout] takes the first. *)
Class RequestQueue := {
  queue : Type -> Type;
  NewRequestQueue {A} : nat -> queue A;
  q_items {A} : queue A -> list A;
  q_room {A} : queue A -> bool;
  q_Put {A} : queue A -> A -> queue A * bool;
  q_PutForce {A} : queue A -> A -> queue A;
  q_Get {A} : queue A -> option A * queue A;
  q_Clear {A} : queue A -> queue A;
  q_SetCapacity {A} : Z -> queue A -> queue A
}.
Class QueueLaws (RQ : RequestQueue) : Prop := {
  items_fresh A n : q_items (NewRequestQueue (A := A) n) = [];
  items_Put A (q : queue A) x :
    q_items (q_Put q x).1 = (if q_room q then q_items q ++ [x] else q_items q) /\ (q_Put q x).2 = q_room q;
  items_PutForce A (q : queue A) x :
    exists dropped kept, q_items q = dropped ++ kept /\ q_items (q_PutForce q x) = kept ++ [x] /\
      (q_room q = true -> dropped = []);
  items_Get A (q : queue A) :
    match q_items q with
    | [] => (q_Get q).1 = None /\ q_items (q_Get q).2 = []
    | x :: xs => (q_Get q).1 = Some x /\ q_items (q_Get q).2 = xs
    end;
  items_Clear A (q : queue A) : q_items (q_Clear q) = [] /\ q_room (q_Clear q) = true;
  items_SetCapacity A n (q : queue A) : q_items (q_SetCapacity n q) = q_items q
}.

(** A list with a capacity; 0 is none. *)
Module ListQueue.
Section Impl.
Context {A : Type}.
Definition room (q : nat * list A) : bool := bool_decide (q.1 = 0 \/ length q.2 < q.1).
Definition put (q : nat * list A) (x : A) : nat * list A * bool :=
  if room q then ((q.1, q.2 ++ [x]), true) else (q, false).
Definition put_force (q : nat * list A) (x : A) : nat * list A :=
  if room q then (q.1, q.2 ++ [x]) else (q.1, drop (S (length q.2) - q.1) q.2 ++ [x]).
Definition get (q : nat * list A) : option A * (nat * list A) :=
  match q.2 with [] => (None, q) | x :: xs => (Some x, (q.1, xs)) end.
End Impl.
#[export] Instance list_queue : RequestQueue := {|
  queue A := (nat * list A)%type; NewRequestQueue A n := (n, []); q_items A := snd; q_room A := room;
  q_Put A := put; q_PutForce A := put_force; q_Get A := get;
  q_Clear A q := (q.1, []);
  q_SetCapacity A n q := (Z.to_nat n, q.2)
|}.
#[export] Instance list_queue_laws : QueueLaws list_queue.
Proof.
  split; simpl; try done.
  - intros A q x. unfold put. by destruct (room q).
  - intros A q x. unfold put_force. destruct (room q) eqn:E.
    + by exists [], q.2.
    + exists (take (S (length q.2) - q.1) q.2), (drop (S (length q.2) - q.1) q.2).
      split; [by rewrite take_drop|done].
  - intros A [c [|x xs]]; done.
  - intros A [c xs]. split; [done|]. unfold room. simpl. apply bool_decide_eq_true. lia.
Qed.
End ListQueue.

(** * Packs *)

(** Who sends: [SecurityMaster] and the settings. *)
Record Ident := mkIdent { OID : Z; id_PCODE : Z; OKIND : Z; ONODE : Z; ONAME : bytes; OKIND_NAME : bytes; ONODE_NAME : bytes }.
Class PackI := {
  pack : Type;
  GetPackType : pack -> Z;
  stamp : Ident -> pack -> pack;
  SetTime : Z -> pack -> pack;
  SetUuid : pack -> pack;
  PutTag : bytes -> bytes -> pack -> pack;
  PACK_COUNTER_1 : Z; PACK_TEXT : Z; PACK_STAT_GENERAL : Z; PACK_STAT_USER_AGENT : Z; PACK_EVENT : Z; TAG_COUNT : Z
}.
(** [NET_SECURE_HIDE], [NET_SECURE_CYPHER], and 0. *)
Inductive netmode := Clear_ | Hide | Cypher.
#[export] Instance netmode_dec : EqDecision netmode.
Proof. solve_decision. Defined.

(** The two queues of the sender. *)
Inductive netcall (P : Type) :=
| NetSend (mode : netmode) (p : P) (flush : bool)
| NetSendProfile (mode : netmode) (p : P) (flush : bool).
Arguments NetSend {P}. Arguments NetSendProfile {P}.
Definition call_mode {P} (c : netcall P) : netmode := match c with NetSend m _ _ | NetSendProfile m _ _ => m end.
Definition call_pack {P} (c : netcall P) : P := match c with NetSend _ p _ | NetSendProfile _ p _ => p end.

Section Send.
Context {PI : PackI}.
Variables (id : Ident) (EncryptLevel : Z).

(** The packs that are flushed at once. *)
Definition IsFlushByPack (t : Z) : bool :=
  bool_decide (t ∈ [PACK_COUNTER_1; PACK_TEXT; PACK_STAT_GENERAL; PACK_STAT_USER_AGENT; PACK_EVENT; TAG_COUNT]).

Definition SendFlush (p : option pack) (flush : bool) : list (netcall pack) :=
  match p with
  | None => []
  | Some p =>
      let p := stamp id p in
      match EncryptLevel with
      | 1%Z => [NetSend Clear_ p flush]
      | 2%Z => [NetSend Hide p flush]
      | _ => [NetSend Cypher p flush]
      end
  end.
(** [GetPackType] of a nil pack panics before the nil check. *)
Definition Send (p : option pack) : res (list (netcall pack)) :=
  match p with None => Panic | Some q => Ret (SendFlush p (IsFlushByPack (GetPackType q))) end.
Definition hide_or_cypher (p : pack) : list (netcall pack) :=
  match EncryptLevel with 1%Z => [NetSend Hide p true] | _ => [NetSend Cypher p true] end.
Definition Sent (now : Z) (p : option pack) : list (netcall pack) :=
  match p with None => [] | Some p => hide_or_cypher (SetTime now (stamp id p)) end.
Definition SendEvent (now : Z) (p : option pack) : list (netcall pack) :=
  match p with None => [] | Some p => hide_or_cypher (SetUuid (SetTime now (stamp id p))) end.
Definition SendProfile (p : option pack) : list (netcall pack) :=
  match p with
  | None => []
  | Some p =>
      let p := stamp id p in
      match EncryptLevel with
      | 1%Z => [NetSendProfile Clear_ p false]
      | 2%Z => [NetSendProfile Hide p false]
      | _ => [NetSendProfile Cypher p false]
      end
  end.
Definition SendSecureFlush (p : pack) (flush : bool) : list (netcall pack) :=
  let p := stamp id p in
  match EncryptLevel with 1%Z => [NetSend Hide p flush] | _ => [NetSendProfile Cypher p flush] end.
Definition SendSecure (p : pack) : list (netcall pack) := SendSecureFlush p (IsFlushByPack (GetPackType p)).
Definition SendBoot (p : pack) : list (netcall pack) := SendSecureFlush p true.
Definition SendResponse (p : pack) : list (netcall pack) := SendSecureFlush p true.
Definition SendHideFlush (p : pack) (flush : bool) : list (netcall pack) :=
  let p := stamp id p in
  match EncryptLevel with 1%Z | 2%Z => [NetSend Hide p flush] | _ => [NetSendProfile Cypher p flush] end.
Definition SendHide (p : pack) : list (netcall pack) := SendHideFlush p (IsFlushByPack (GetPackType p)).
Definition SendTagCount (p : pack) (flush : bool) : list (netcall pack) :=
  let p := PutTag (str "onodeName") (ONODE_NAME id)
             (PutTag (str "okindName") (OKIND_NAME id) (PutTag (str "oname") (ONAME id) (stamp id p))) in
  match EncryptLevel with
  | 1%Z => [NetSend Clear_ p flush]
  | 2%Z => [NetSend Hide p flush]
  | _ => [NetSend Cypher p flush]
  end.
End Send.

(** * What is promised *)

(** The requests a client can make. *)
Inductive request (P : Type) :=
| RSend (p : P) | RFlush (p : P) (flush : bool) | RText (now : Z) (p : P) | REvent (now : Z) (p : P)
| RProfile (p : P) | RSecure (p : P) | RBoot (p : P) | RResponse (p : P) | RHide (p : P) | RTag (p : P) (flush : bool).
Arguments RSend {P}. Arguments RFlush {P}. Arguments RText {P}. Arguments REvent {P}. Arguments RProfile {P}.
Arguments RSecure {P}. Arguments RBoot {P}. Arguments RResponse {P}. Arguments RHide {P}. Arguments RTag {P}.
Definition perform {PI : PackI} (id : Ident) (level : Z) (r : request pack) : res (list (netcall pack)) :=
  match r with
  | RSend p => Send id level (Some p)
  | RFlush p f => Ret (SendFlush id level (Some p) f)
  | RText now p => Ret (Sent id level now (Some p))
  | REvent now p => Ret (SendEvent id level now (Some p))
  | RProfile p => Ret (SendProfile id level (Some p))
  | RSecure p => Ret (SendSecure id level p)
  | RBoot p => Ret (SendBoot id level p)
  | RResponse p => Ret (SendResponse id level p)
  | RHide p => Ret (SendHide id level p)
  | RTag p f => Ret (SendTagCount id level p f)
  end.
(** Packs that must not travel in the clear. *)
Definition confidential {P} (r : request P) : bool :=
  match r with RText _ _ | REvent _ _ | RSecure _ | RBoot _ | RResponse _ | RHide _ => true | _ => false end.

(** Every request sends exactly one pack.  A confidential one (texts, events, boot,
    responses, [SendSecure], [SendHide]) never travels in the clear, whatever the
    configured level; the others do only at level 1; and at every level but 1 and 2
    everything is encrypted. *)
Theorem send_modes {PI : PackI} id level (r : request pack) :
  exists c, perform id level r = Ret [c] /\
    (confidential r = true -> call_mode c <> Clear_) /\
    (call_mode c = Clear_ -> level = 1%Z) /\
    (level <> 1%Z -> level <> 2%Z -> call_mode c = Cypher).
Proof.
  destruct (decide (level = 1%Z)) as [->|H1]; [|destruct (decide (level = 2%Z)) as [->|H2]].
  - destruct r; eexists; (split; [reflexivity|]); by simpl.
  - destruct r; eexists; (split; [reflexivity|]); by simpl.
  - assert (forall X (a b c : X), (match level with 1%Z => a | 2%Z => b | _ => c end) = c) as E3.
    { intros. destruct level as [|[| |]|]; try done; by destruct p. }
    assert (forall X (a c : X), (match level with 1%Z => a | _ => c end) = c) as E2.
    { intros. destruct level as [|[| |]|]; done. }
    assert (forall X (a c : X), (match level with 1%Z | 2%Z => a | _ => c end) = c) as E12 by (intros; apply E3).
    destruct r; unfold perform, Send, SendFlush, Sent, SendEvent, SendProfile, SendSecure, SendBoot, SendResponse,
      SendHide, SendSecureFlush, SendHideFlush, SendTagCount, hide_or_cypher;
      rewrite ?E3, ?E2, ?E12; eexists; (split; [reflexivity|]); by simpl.
Qed.
