(* ===== verification/DataText.v ===== *)
(** The once-only sender of texts, [src/agent/agent/data/DataText.go].

    The program's packs name texts by hash; [SendHashText] queues the text of a hash
    the server may not know, one cache of hashes per kind of text, and [process], in
    its own thread, moves the queue into packs of at most about 100 KiB.

    [hmap.IntLinkedSet] is a bounded linked map to [unit], [pack.TEXT_*] a class of
    constants. *)

From S2P Require Import Prelude Hmap DataPack.

Class TextTypes := {
  TEXT_DB_URL : Z; TEXT_METHOD : Z; TEXT_HTTPC_URL : Z; TEXT_HTTPC_HOST : Z; TEXT_ERROR : Z; TEXT_SERVICE : Z;
  TEXT_SQL : Z; TEXT_STACK_ELEMENTS : Z; TEXT_MESSAGE : Z; TEXT_USER_AGENT : Z; TEXT_REFERER : Z; TEXT_LOGIN : Z;
  TEXT_SQL_PARAM : Z; TEXT_HTTP_DOMAIN : Z; TEXT_MTRACE_SPEC : Z; TEXT_MTRACE_CALLER_URL : Z
}.

Definition BUFFERED_MAX : Z := 100 * 1024.
(** [dateutil.MILLIS_PER_HOUR] *)
Definition MILLIS_PER_HOUR : Z := 3600 * 1000.

(** * The caches *)

Inductive cache :=
| textCache | dbcCache | methodCache | httpcUrlCache | httpcHostCache | errorCache | serviceCache | sqlCache
| stackCache | messageCache | useragentCache | refererCache | loginCache | sqlParamCache | httpDomainCache
| mtraceSpecCache | mtraceCallerUrlCache.
#[export] Instance cache_dec : EqDecision cache.
Proof. solve_decision. Defined.
Definition cache_max (c : cache) : nat :=
  match c with
  | textCache | dbcCache | errorCache | refererCache | loginCache | sqlParamCache | httpDomainCache
  | mtraceSpecCache | mtraceCallerUrlCache => 1000
  | methodCache => 5000
  | stackCache => N.to_nat 20000
  | httpcUrlCache | httpcHostCache | serviceCache | sqlCache | messageCache | useragentCache => 2000
  end.

Record TextRec := mkTextRec { Div : Z; THash : Z; Text : bytes }.

Section DataText.
Context {TT : TextTypes} {LM : LinkedMap Z} {RQ : RequestQueue}.

Definition cache_of (div : Z) : cache :=
  if decide (div = TEXT_DB_URL) then dbcCache
  else if decide (div = TEXT_METHOD) then methodCache
  else if decide (div = TEXT_HTTPC_URL) then httpcUrlCache
  else if decide (div = TEXT_HTTPC_HOST) then httpcHostCache
  else if decide (div = TEXT_ERROR) then errorCache
  else if decide (div = TEXT_SERVICE) then serviceCache
  else if decide (div = TEXT_SQL) then sqlCache
  else if decide (div = TEXT_STACK_ELEMENTS) then stackCache
  else if decide (div = TEXT_MESSAGE) then messageCache
  else if decide (div = TEXT_USER_AGENT) then useragentCache
  else if decide (div = TEXT_REFERER) then refererCache
  else if decide (div = TEXT_LOGIN) then loginCache
  else if decide (div = TEXT_SQL_PARAM) then sqlParamCache
  else if decide (div = TEXT_HTTP_DOMAIN) then httpDomainCache
  else if decide (div = TEXT_MTRACE_SPEC) then mtraceSpecCache
  else if decide (div = TEXT_MTRACE_CALLER_URL) then mtraceCallerUrlCache
  else textCache.

(** The sets start empty; [Put] tells whether the hash was there. *)
Definition caches : Type := cache -> lmap unit.
Definition new_caches : caches := fun c => lm_new (cache_max c).
Definition set_cache (cs : caches) (c : cache) (m : lmap unit) : caches :=
  fun d => if decide (d = c) then m else cs d.

Record t := mk {
  cacheTable : caches;
  textQueue : queue TextRec;
  bufferPack : list TextRec;
  bufferedLength : Z;
  lastDate : Z;
  lastSent : Z;
  textReset : Z
}.
Definition getDate (now : Z) : Z := Z.quot now MILLIS_PER_HOUR.
Definition initial (QueueTextSize : nat) (now TextReset : Z) : t :=
  mk new_caches (NewRequestQueue QueueTextSize) [] 0 (getDate now) 0 TextReset.

Definition AddHashText (s : t) (div h : Z) (text : bytes) : t * bool :=
  let '(q, ok) := q_Put (textQueue s) (mkTextRec div h text) in (s <| textQueue := q |>, ok).
Definition SendHashText (s : t) (div h : Z) (text : bytes) : t :=
  let c := cache_of div in
  let m := cacheTable s c in
  match lm_get m h with
  | Some _ => s <| cacheTable := set_cache (cacheTable s) c (lm_put m h ()) |>
  | None =>
      let s := s <| cacheTable := set_cache (cacheTable s) c (lm_put m h ()) |> in
      let '(s, rt) := AddHashText s div h text in
      if rt : bool then s
      else s <| cacheTable := set_cache (cacheTable s) c (lm_remove (cacheTable s c) h) |>
  end.
Definition SendText (HashStr : bytes -> Z) (s : t) (div : Z) (text : bytes) : t :=
  SendHashText s div (HashStr text) text.

(** [send]: the pack of the buffer is handed to [Sent]. *)
Definition send (now : Z) (s : t) : t * list (list TextRec) :=
  (s <| lastSent := now |> <| bufferPack := [] |> <| bufferedLength := 0%Z |>, [bufferPack s]).
Definition reset (s : t) : t := s <| cacheTable := new_caches |>.
Definition ResetHash := reset.

(** The three steps of [process]: take a text, send what has waited for five
    seconds, start afresh when the date or the setting has changed.  [now] is what
    the clock shows; [connected] whether the session has been connected. *)
Definition take_text (now : Z) (s : t) : t * list (list TextRec) :=
  let '(tmp, q) := q_Get (textQueue s) in
  let s := s <| textQueue := q |> in
  match tmp with
  | None => (s, [])
  | Some r =>
      let s := s <| bufferPack ::= fun b => b ++ [r] |>
                 <| bufferedLength ::= fun n => (n + Z.of_nat (length (Text r)))%Z |> in
      if (BUFFERED_MAX <=? bufferedLength s)%Z then send now s else (s, [])
  end.
Definition send_waiting (now : Z) (connected : bool) (s : t) : t * list (list TextRec) :=
  if connected && (0 <? bufferedLength s)%Z then
    if (5000 <=? now - lastSent s)%Z then send now s else (s, [])
  else (s <| lastSent := now |>, []).
Definition new_date (now TextReset : Z) (s : t) : t * list (list TextRec) :=
  let today := getDate now in
  if negb (lastDate s =? today)%Z || negb (textReset s =? TextReset)%Z then
    let s := s <| lastDate := today |> <| textReset := TextReset |> in
    let '(s, out) := if (0 <? bufferedLength s)%Z then send now s else (s, []) in
    (reset s, out)
  else (s, []).
Definition process (now TextReset : Z) (connected : bool) (s : t) : t * list (list TextRec) :=
  let '(s, o1) := take_text now s in
  let '(s, o2) := send_waiting now connected s in
  let '(s, o3) := new_date now TextReset s in
  (s, o1 ++ o2 ++ o3).

(** * Runs *)

Inductive op :=
| OText (div h : Z) (text : bytes)
| OProcess (now TextReset : Z) (connected : bool)
| OReset.
(** The state, the packs sent, and the texts queued so far and since the last reset. *)
Record run_state := mkRun { st : t; packs : list (list TextRec); queued : list TextRec; fresh : list TextRec }.
Definition exec (r : run_state) (o : op) : run_state :=
  match o with
  | OText div h text =>
      let new := match lm_get (cacheTable (st r) (cache_of div)) h with
                 | None => if q_room (textQueue (st r)) then [mkTextRec div h text] else []
                 | Some _ => []
                 end in
      r <| st ::= fun s => SendHashText s div h text |> <| queued ::= fun l => l ++ new |>
        <| fresh ::= fun l => l ++ new |>
  | OProcess now tr conn =>
      let s := st r in
      let '(s', out) := process now tr conn s in
      r <| st := s' |> <| packs ::= fun l => l ++ out |>
        <| fresh ::= fun l => if negb (lastDate s =? getDate now)%Z || negb (textReset s =? tr)%Z then [] else l |>
  | OReset => r <| st ::= ResetHash |> <| fresh := [] |>
  end.
Definition run (size : nat) (now tr : Z) (os : list op) : run_state :=
  foldl exec (mkRun (initial size now tr) [] [] []) os.
End DataText.

(** No text is lost, none the server needs is left out, and none is sent twice between
    two resets while the caches have room; and what is queued leaves in time. *)

Section Facts.
Context {TT : TextTypes} {LM : LinkedMap Z} {LL : LinkedMapLaws Z LM} {RQ : RequestQueue} {QL : QueueLaws RQ}.

Definition key_of (r : TextRec) : cache * Z := (cache_of (Div r), THash r).
(** What is on its way: sent, in the buffer or in the queue. *)
Definition pending (s : t) : list TextRec := bufferPack s ++ q_items (textQueue s).
Definition total (l : list TextRec) : Z := foldr (fun r n => (Z.of_nat (length (Text r)) + n)%Z) 0%Z l.
Definition counted (s : t) : Prop := bufferedLength s = total (bufferPack s).

Lemma total_app a b : total (a ++ b) = (total a + total b)%Z.
Proof. induction a as [|x a IH]; simpl; [done|]. rewrite IH. lia. Qed.
Lemma total_nonneg l : (0 <= total l)%Z.
Proof. induction l; simpl; lia. Qed.

(** * The steps of [process] *)

Definition step_ok (f : t -> t * list (list TextRec)) : Prop :=
  forall s, counted s ->
    concat (f s).2 ++ pending (f s).1 = pending s /\ counted (f s).1.

Lemma send_ok now s : counted s -> concat (send now s).2 ++ pending (send now s).1 = pending s /\ counted (send now s).1.
Proof. intros Hc. unfold pending. simpl. by rewrite app_nil_r. Qed.
Lemma take_text_ok now : step_ok (take_text now).
Proof.
  intros s Hc. unfold take_text. pose proof (items_Get _ (textQueue s)) as Hq.
  destruct (q_Get (textQueue s)) as [tmp q]. unfold pending at 2. destruct (q_items (textQueue s)) as [|x xs].
  - destruct Hq as [Ht Hi]. simpl in Ht, Hi. subst tmp. unfold pending. simpl. by rewrite Hi.
  - destruct Hq as [Ht Hi]. simpl in Ht, Hi. subst tmp. cbv zeta.
    set (s' := set bufferedLength _ _).
    assert (pending s' = bufferPack s ++ x :: xs /\ counted s') as [Hp Hc'].
    { subst s'. unfold pending, counted in *. simpl. rewrite Hi, Hc, total_app, <- app_assoc. simpl. split; [done|lia]. }
    rewrite <- Hp. destruct (_ <=? _)%Z; [by apply send_ok|done].
Qed.
Lemma send_waiting_ok now conn : step_ok (send_waiting now conn).
Proof.
  intros s Hc. unfold send_waiting. destruct (_ && _); [|done]. destruct (_ <=? _)%Z; [by apply send_ok|done].
Qed.
Lemma new_date_ok now tr : step_ok (new_date now tr).
Proof.
  intros s Hc. unfold new_date. destruct (_ || _); [|done]. cbv zeta. set (s' := set textReset _ _).
  change (pending s) with (pending s'). assert (counted s') as Hc' by done. clearbody s'.
  destruct (0 <? bufferedLength s')%Z; [|done]. by apply send_ok.
Qed.
Lemma step_compose f g :
  step_ok f -> step_ok g ->
  step_ok (fun s => let '(s, o1) := f s in let '(s, o2) := g s in (s, o1 ++ o2)).
Proof.
  intros Hf Hg s Hc. specialize (Hf s Hc) as [Hf Hcf]. destruct (f s) as [s1 o1]. simpl in *.
  specialize (Hg s1 Hcf) as [Hg Hcg]. destruct (g s1) as [s2 o2]. simpl in *. split; [|done].
  by rewrite concat_app, <- app_assoc, Hg.
Qed.
Lemma process_ok now tr conn : step_ok (process now tr conn).
Proof.
  intros s Hc. pose proof (step_compose _ _ (take_text_ok now)
    (step_compose _ _ (send_waiting_ok now conn) (new_date_ok now tr)) s Hc) as H.
  revert H. unfold process. destruct (take_text now s) as [s1 o1].
  destruct (send_waiting now conn s1) as [s2 o2]. by destruct (new_date now tr s2).
Qed.

(** [process] leaves the caches alone or empties them all. *)
Lemma process_caches now tr conn s :
  cacheTable (process now tr conn s).1 =
    if negb (lastDate s =? getDate now)%Z || negb (textReset s =? tr)%Z then new_caches else cacheTable s.
Proof.
  unfold process.
  assert (let s1 := (take_text now s).1 in
          cacheTable s1 = cacheTable s /\ lastDate s1 = lastDate s /\ textReset s1 = textReset s) as H1.
  { unfold take_text. destruct (q_Get (textQueue s)) as [[r|] q]; [|done]. cbv zeta.
    by destruct (_ <=? _)%Z. }
  destruct (take_text now s) as [s1 o1]. simpl in H1. destruct H1 as (E1 & E2 & E3).
  assert (let s2 := (send_waiting now conn s1).1 in
          cacheTable s2 = cacheTable s /\ lastDate s2 = lastDate s /\ textReset s2 = textReset s) as H2.
  { unfold send_waiting. destruct (_ && _); [|done]. by destruct (_ <=? _)%Z. }
  destruct (send_waiting now conn s1) as [s2 o2]. simpl in H2. destruct H2 as (F1 & F2 & F3).
  unfold new_date. rewrite F2, F3. destruct (_ || _); [|done]. simpl.
  by destruct (0 <? bufferedLength s2)%Z.
Qed.

(** * The invariant of a run *)

Definition keys_in (c : cache) (l : list TextRec) : list Z := (key_of <$> l) ≫= (fun k => if decide (k.1 = c) then [k.2] else []).
(** Every cache has room for one more hash than were queued for it. *)
Definition fits (l : list TextRec) : Prop := forall c, length (keys_in c l) < cache_max c.

Lemma keys_in_app c l k : keys_in c (l ++ k) = keys_in c l ++ keys_in c k.
Proof. unfold keys_in. by rewrite fmap_app, bind_app. Qed.
Lemma elem_of_keys_in c h l : h ∈ keys_in c l <-> (c, h) ∈ key_of <$> l.
Proof.
  unfold keys_in. rewrite list_elem_of_bind. split.
  - intros ([c' h'] & Hh & Hin). simpl in Hh. case_decide; [|by apply elem_of_nil in Hh].
    apply list_elem_of_singleton in Hh. by subst.
  - intros Hin. exists (c, h). split; [|done]. simpl. rewrite decide_True by done. by apply list_elem_of_singleton.
Qed.
Lemma cache_max_pos c : 0 < cache_max c.
Proof. destruct c; simpl; lia. Qed.

Record invariant (r : run_state) : Prop := {
  iv_conserved : concat (packs r) ++ pending (st r) = queued r;
  iv_counted : counted (st r);
  iv_max c : lm_max (cacheTable (st r) c) = cache_max c;
  iv_known c h : is_Some (lm_get (cacheTable (st r) c) h) -> (c, h) ∈ key_of <$> fresh r;
  iv_once : fits (fresh r) ->
    NoDup (key_of <$> fresh r) /\
    forall c h, (c, h) ∈ key_of <$> fresh r -> is_Some (lm_get (cacheTable (st r) c) h)
}.

Lemma process_inv r now tr conn : invariant r -> invariant (exec r (OProcess now tr conn)).
Proof.
  intros Hr. destruct Hr as [H1 H2 H3 H4 H5]. simpl.
  pose proof (process_ok now tr conn (st r) H2) as [Hp Hc]. pose proof (process_caches now tr conn (st r)) as Hk.
  destruct (process now tr conn (st r)) as [s' out]. simpl in *. split; simpl.
  - by rewrite concat_app, <- app_assoc, Hp.
  - done.
  - intros c. rewrite Hk. destruct (_ || _); [apply max_new|done].
  - intros c h. rewrite Hk. destruct (_ || _); [|apply H4]. intros [u Hu]. unfold new_caches in Hu. by rewrite get_new in Hu.
  - rewrite Hk. destruct (_ || _); [|done]. intros _. split; [constructor|]. by intros c h ?%elem_of_nil.
Qed.

Lemma reset_inv r : invariant r -> invariant (exec r OReset).
Proof.
  intros [H1 H2 H3 H4 H5]. split; simpl; [done|done| | |].
  - intros c. apply max_new.
  - intros c h [u Hu]. unfold new_caches in Hu. by rewrite get_new in Hu.
  - intros _. split; [constructor|]. by intros c h ?%elem_of_nil.
Qed.

(** A hash that was not known is known now, and the others stay, if there is room. *)
Lemma known_put cs c h d j :
  lm_get (cs c) h = None -> lm_room (cs c) ->
  is_Some (lm_get (set_cache cs c (lm_put (cs c) h ()) d) j) <->
  (d, j) = (c, h) \/ is_Some (lm_get (cs d) j).
Proof.
  intros Hn Hr. unfold set_cache. destruct (decide (d = c)) as [->|Hd].
  - rewrite get_put_room by done. destruct (decide (j = h)) as [->|Hj].
    + split; [by left|eauto].
    + split; [by right|]. intros [[= ?]|]; [congruence|done].
  - split; [by right|]. intros [[= ? ?]|]; [congruence|done].
Qed.
Lemma known_put_old cs c h d j :
  is_Some (lm_get (set_cache cs c (lm_put (cs c) h ()) d) j) -> (d, j) = (c, h) \/ is_Some (lm_get (cs d) j).
Proof.
  unfold set_cache. destruct (decide (d = c)) as [->|Hd]; [|by right]. intros [u Hu].
  destruct (decide (j = h)) as [->|Hj]; [by left|]. right. apply put_old in Hu; eauto.
Qed.

(** While the hashes queued since the last reset fit, the cache has room for one more. *)
Lemma cache_room r c : invariant r -> fits (fresh r) -> lm_room (cacheTable (st r) c).
Proof.
  intros Hr Hf. specialize (Hf c). right. rewrite (iv_max _ Hr). unfold lm_size.
  assert (length (lm_entries (cacheTable (st r) c)).*1 <= length (keys_in c (fresh r))) as Hl.
  { apply submseteq_length, NoDup_submseteq; [apply keys_NoDup|]. intros j Hj.
    apply elem_of_keys_in, (iv_known _ Hr).
    destruct (lm_get (cacheTable (st r) c) j) eqn:E; [eauto|]. by apply alookup_None in E. }
  rewrite length_fmap in Hl. lia.
Qed.
(** A full queue: the hash is taken out again. *)
Definition refused (cs : caches) (c : cache) (h : Z) : caches :=
  let cs' := set_cache cs c (lm_put (cs c) h ()) in set_cache cs' c (lm_remove (cs' c) h).
Lemma refused_get cs c h d j :
  lm_get (cs c) h = None ->
  (is_Some (lm_get (refused cs c h d) j) -> is_Some (lm_get (cs d) j)) /\
  (lm_room (cs c) -> is_Some (lm_get (cs d) j) -> is_Some (lm_get (refused cs c h d) j)).
Proof.
  intros Hn. unfold refused, set_cache. destruct (decide (d = c)) as [->|]; [|done].
  rewrite decide_True, get_remove by done. destruct (decide (j = h)) as [->|Hj].
  - split; [by intros [? ?]|]. intros _ [u Hu]. congruence.
  - split; [intros [u Hu]; apply put_old in Hu; eauto|]. intros Hr. by rewrite get_put_room, decide_False.
Qed.

(** A known hash stays known, and so do the others. *)
Lemma known_again cs c h u d j :
  lm_get (cs c) h = Some u ->
  is_Some (lm_get (set_cache cs c (lm_put (cs c) h ()) d) j) <-> is_Some (lm_get (cs d) j).
Proof.
  intros Hh. unfold set_cache. destruct (decide (d = c)) as [->|]; [|done].
  rewrite (get_put_known _ _ _ _ _ Hh). destruct (decide (j = h)) as [->|]; [|done]. rewrite Hh. by split; eauto.
Qed.
Lemma set_cache_max cs c m d : lm_max m = lm_max (cs c) -> lm_max (set_cache cs c m d) = lm_max (cs d).
Proof. intros Hm. unfold set_cache. by destruct (decide (d = c)) as [->|]. Qed.

Lemma fits_prefix l k : fits (l ++ k) -> fits l.
Proof. intros Hf c. specialize (Hf c). rewrite keys_in_app, length_app in Hf. lia. Qed.

Lemma text_inv r div h text : invariant r -> invariant (exec r (OText div h text)).
Proof.
  intros Hr. pose proof Hr as [H1 H2 H3 H4 H5]. set (c := cache_of div). simpl.
  unfold SendHashText. fold c. destruct (lm_get (cacheTable (st r) c) h) as [u|] eqn:E.
  { split; simpl; rewrite ?app_nil_r; [done|done| | |].
    - intros d. rewrite set_cache_max; [done|apply max_put].
    - intros d j. rewrite known_again by done. apply H4.
    - intros Hf. destruct (H5 Hf) as [Hn Ha]. split; [done|]. intros d j. rewrite known_again by done. apply Ha. }
  unfold AddHashText. simpl. pose proof (items_Put _ (textQueue (st r)) (mkTextRec div h text)) as [Hi Ho].
  destruct (q_Put (textQueue (st r)) (mkTextRec div h text)) as [q ok]. simpl in Hi, Ho. rewrite <- Ho in *.
  destruct ok; simpl.
  - split; simpl.
    + unfold pending in *. simpl. by rewrite Hi, <- H1, <- !app_assoc.
    + done.
    + intros d. rewrite set_cache_max; [done|apply max_put].
    + intros d j. rewrite fmap_app, elem_of_app. intros [[= -> ->]|Hj]%known_put_old; [right; by left|left; by apply H4].
    + intros Hf. destruct (H5 (fits_prefix _ _ Hf)) as [Hn Ha].
      pose proof (cache_room r c Hr (fits_prefix _ _ Hf)) as Hroom. rewrite fmap_app. split.
      * apply NoDup_app. split; [done|]. split; [|apply NoDup_singleton]. intros k Hk ->%list_elem_of_singleton.
        apply Ha in Hk as [v Hv]. change (lm_get (cacheTable (st r) c) h = Some v) in Hv. congruence.
      * intros d j. rewrite known_put, elem_of_app by done. intros [Hj|Hj%list_elem_of_singleton]; [right; by apply Ha|by left].
  - fold (refused (cacheTable (st r)) c h). split; simpl; rewrite ?app_nil_r.
    + unfold pending in *. simpl. by rewrite Hi.
    + done.
    + intros d. unfold refused. rewrite !set_cache_max; [done|apply max_put|]. by rewrite max_remove.
    + intros d j Hj. apply H4. by eapply refused_get, Hj.
    + intros Hf. destruct (H5 Hf) as [Hn Ha]. split; [done|]. intros d j Hj. apply refused_get; [done| |by apply Ha].
      by apply cache_room.
Qed.

Lemma run_inv size now tr os : invariant (run size now tr os).
Proof.
  unfold run. induction os as [|o os IH] using rev_ind; simpl.
  - split; simpl.
    + unfold pending. simpl. apply items_fresh.
    + done.
    + intros c. apply max_new.
    + intros c h [u Hu]. unfold new_caches in Hu. by rewrite get_new in Hu.
    + intros _. split; [constructor|]. by intros c h ?%elem_of_nil.
  - rewrite foldl_app. simpl. destruct o; [by apply text_inv|by apply process_inv|by apply reset_inv].
Qed.

(** C18. In every run of requests, rounds of the sending thread and resets: what was sent,
    what waits in the buffer and what waits in the queue are, in order, exactly the
    texts queued; after a request made while the queue has room the hash has been
    queued since the last reset, so the server learns it; and as long as the caches
    have room no hash is queued twice between two resets. *)
Theorem texts_once size now tr os :
  let r := run size now tr os in
  concat (packs r) ++ bufferPack (st r) ++ q_items (textQueue (st r)) = queued r /\
  (forall div h text, q_room (textQueue (st r)) = true ->
     (cache_of div, h) ∈ key_of <$> fresh (exec r (OText div h text))) /\
  (fits (fresh r) -> NoDup (key_of <$> fresh r)).
Proof.
  intros r. pose proof (run_inv size now tr os) as Hr. fold r in Hr. split; [apply Hr|]. split; [|apply Hr].
  intros div h text Hq. simpl. rewrite Hq, fmap_app, elem_of_app.
  destruct (lm_get (cacheTable (st r) (cache_of div)) h) eqn:E; [|right; by left].
  left. apply (iv_known _ Hr). eauto.
Qed.

(** * What is queued leaves *)

(** [process] at the given times, the session being connected. *)
Definition processes (tr : Z) (nows : list Z) (s : t) : t * list (list TextRec) :=
  foldl (fun '(s, out) now => let '(s', o) := process now tr true s in (s', out ++ o)) (s, []) nows.

Lemma process_queue now tr conn s : q_items (textQueue (process now tr conn s).1) = tail (q_items (textQueue s)).
Proof.
  unfold process. pose proof (items_Get _ (textQueue s)) as Hq.
  assert (q_items (textQueue (take_text now s).1) = tail (q_items (textQueue s))) as H1.
  { unfold take_text. destruct (q_Get (textQueue s)) as [tmp q]. destruct (q_items (textQueue s)) as [|x xs];
      destruct Hq as [Ht Hi]; simpl in Ht, Hi; subst tmp; [done|]. cbv zeta. by destruct (_ <=? _)%Z. }
  destruct (take_text now s) as [s1 o1]. simpl in H1.
  assert (q_items (textQueue (send_waiting now conn s1).1) = q_items (textQueue s1)) as H2.
  { unfold send_waiting. destruct (_ && _); [|done]. by destruct (_ <=? _)%Z. }
  destruct (send_waiting now conn s1) as [s2 o2]. simpl in H2.
  unfold new_date. destruct (_ || _); [|by simpl; congruence]. simpl.
  destruct (0 <? bufferedLength s2)%Z; simpl; congruence.
Qed.
Lemma processes_ok tr nows s :
  counted s ->
  concat (processes tr nows s).2 ++ pending (processes tr nows s).1 = pending s /\
  counted (processes tr nows s).1 /\
  q_items (textQueue (processes tr nows s).1) = drop (length nows) (q_items (textQueue s)).
Proof.
  intros Hc. unfold processes. induction nows as [|now nows IH] using rev_ind; simpl; [done|].
  rewrite foldl_app, length_app, Nat.add_comm. simpl. destruct IH as (Hp & Hc' & Hq).
  destruct (foldl _ (s, []) nows) as [s1 o1]. simpl in *.
  pose proof (process_ok now tr true s1 Hc') as [Hp' Hc'']. pose proof (process_queue now tr true s1) as Hq'.
  destruct (process now tr true s1) as [s2 o2]. simpl in *. split; [by rewrite concat_app, <- app_assoc, Hp'|].
  split; [done|]. rewrite Hq', Hq.
  assert (forall l : list TextRec, tail l = drop 1 l) as -> by (by intros []). by rewrite drop_drop, Nat.add_comm.
Qed.

(** Texts do not stay behind: with the session connected, once the sending thread has
    gone round as often as texts were queued, its next round at least five seconds after
    the last pack leaves no text that is not empty in the buffer or the queue; every
    other one has been sent. *)
Theorem texts_leave tr nows now s :
  counted s -> length (q_items (textQueue s)) <= length nows ->
  let s1 := (processes tr nows s).1 in
  (5000 <= now - lastSent s1)%Z ->
  let '(s2, out) := process now tr true s1 in
  concat ((processes tr nows s).2 ++ out) ++ bufferPack s2 = pending s /\
  q_items (textQueue s2) = [] /\ Forall (fun r => Text r = []) (bufferPack s2).
Proof.
  intros Hc Hl s1 Hn. destruct (processes_ok tr nows s Hc) as (Hp & Hc1 & Hq1). fold s1 in Hp, Hc1, Hq1.
  rewrite drop_ge in Hq1 by done.
  pose proof (process_ok now tr true s1 Hc1) as [Hp2 Hc2]. pose proof (process_queue now tr true s1) as Hq2.
  assert (total (bufferPack (process now tr true s1).1) = 0%Z) as Hz.
  { clear Hp2 Hc2 Hq2. unfold process, take_text. pose proof (items_Get _ (textQueue s1)) as Hg. rewrite Hq1 in Hg.
    destruct (q_Get (textQueue s1)) as [tmp q]. destruct Hg as [Ht Hi]. simpl in Ht. subst tmp.
    set (s1' := set textQueue _ s1).
    assert (let s2 := (send_waiting now true s1').1 in bufferedLength s2 = 0%Z /\ counted s2) as [Hb Hc2].
    { unfold send_waiting. simpl. destruct (Z.ltb_spec 0 (bufferedLength s1)) as [Hb|Hb].
      - by rewrite (proj2 (Z.leb_le _ _)).
      - split; [|done]. simpl. unfold counted in Hc1. pose proof (total_nonneg (bufferPack s1)). lia. }
    destruct (send_waiting now true s1') as [s2 o2]. simpl in Hb, Hc2.
    unfold new_date. destruct (_ || _); simpl; [|by rewrite <- Hc2].
    rewrite Hb. simpl. by rewrite <- Hc2. }
  destruct (process now tr true s1) as [s2 o2]. simpl in *. rewrite Hq1 in Hq2. simpl in Hq2.
  split; [|split; [done|]].
  - rewrite concat_app, <- app_assoc. rewrite <- Hp, <- Hp2. unfold pending. by rewrite Hq2, app_nil_r.
  - clear -Hz. induction (bufferPack s2) as [|r l IH]; [constructor|]. simpl in Hz.
    pose proof (total_nonneg l). constructor; [apply nil_length_inv; lia|apply IH; lia].
Qed.

(** The hashes are forgotten every hour. *)
Lemma hourly_reset now tr s :
  getDate now <> lastDate s -> cacheTable (process now tr true s).1 = new_caches.
Proof.
  intros Hd. rewrite process_caches. by rewrite (proj2 (Z.eqb_neq _ _)) by congruence.
Qed.
End Facts.

(** * Witness *)

Section Witness.
#[local] Existing Instance ListMap.list_map.
#[local] Existing Instance ListMap.list_map_laws.
#[local] Existing Instance ListQueue.list_queue.
#[local] Existing Instance ListQueue.list_queue_laws.
#[local] Instance types1 : TextTypes := Build_TextTypes 1 2 3 4 5 6 7 8 9 10 11 12 13 14 15 16.

Definition waiting1 : t := SendHashText (SendHashText (initial 10 7000 0) 1 5 (str "db")) 6 5 (str "/a").
Lemma texts_leave_witness :
  q_items (textQueue (process 20000 0 true (processes 0 [8000; 9000]%Z waiting1).1).1) = [] /\
  concat (process 20000 0 true (processes 0 [8000; 9000]%Z waiting1).1).2 =
    [mkTextRec 6 5 (str "/a")].
Proof.
  pose proof (texts_leave 0 [8000; 9000]%Z 20000 waiting1 eq_refl ltac:(simpl; lia) ltac:(simpl; lia)) as H.
  split; [|by vm_compute].
  cbv zeta in H. destruct (process _ _ _ _) as [s2 out]. by destruct H as (_ & Hq & _).
Defined.

Definition ops1 : list op :=
  [OText 1 5 (str "db"); OText 6 5 (str "/a"); OText 1 5 (str "db"); OProcess 8000 0 true; OReset; OText 1 5 (str "db")].
Lemma texts_once_witness :
  concat (packs (run 10 7000 0 ops1)) ++ bufferPack (st (run 10 7000 0 ops1)) ++
    q_items (textQueue (st (run 10 7000 0 ops1))) =
    [mkTextRec 1 5 (str "db"); mkTextRec 6 5 (str "/a"); mkTextRec 1 5 (str "db")].
Proof. etrans; [apply (texts_once 10 7000 0 ops1)|]. by vm_compute. Defined.
End Witness.
