(* ===== verification/Stat.v ===== *)
(** The five-minute statistics of [src/agent/agent/stat]: by transaction, statement,
    HTTP call, error, domain, login, referer, caller, status, address and user agent.

    The records of golib's packs have the fields the code sets.  The tables are
    bounded linked maps.  Two kinds differ in what a full table does: [StatSql],
    [StatHttpc], [StatTranx], [StatTranxStatus] and [StatRemoteIPURL] refuse new keys
    ([intern]); the others give up an old one ([touch]).  [data.Send] is an output. *)

From S2P Require Import Prelude Hmap Meters DataPack DataText.

(** golib's [bitutil]: two 32-bit numbers in one of 64. *)
Class BitUtil := { Composite64 : Z -> Z -> Z; GetHigh64 : Z -> Z; GetLow64 : Z -> Z }.
Class BitUtilLaws (BU : BitUtil) : Prop := {
  high_composite h l : in_s 32 h -> in_s 32 l -> GetHigh64 (Composite64 h l) = h;
  low_composite h l : in_s 32 h -> in_s 32 l -> GetLow64 (Composite64 h l) = l;
  composite_sign h l : in_s 32 h -> in_s 32 l -> (Composite64 h l < 0)%Z <-> (h < 0)%Z
}.
Definition MaxInt32 : Z := 2 ^ 31 - 1.
Definition MILLIS_PER_MINUTE : Z := 60 * 1000.

(** The settings read. *)
Record StatConf := mkStatConf {
  StatSqlMaxCount : nat; StatHttpcMaxCount : nat; StatTxMaxCount : nat; StatDomainMaxCount : nat;
  StatLoginMaxCount : nat; StatRefererMaxCount : nat; StatMtraceMaxCount : nat;
  StatTxStatusMaxCount : Z; StatIPURLMaxCount : Z; Stat1MEnabled : bool; StatZipEnabled : bool;
  StatEnabled : bool; MtraceSpecHash : Z; st_MtraceSpec : bytes
}.

(** * Statements *)

Module StatSql.
Record SqlRec := mkRec {
  Dbc : Z; Sql : Z; CountTotal : Z; CountError : Z; TimeSum : Z; TimeStd : Z; TimeMin : Z; TimeMax : Z;
  FetchCount : Z; FetchTime : Z; UpdateCount : Z; Service : Z
}.
Definition NewSqlRec : SqlRec := mkRec 0 0 0 0 0 0 0 0 0 0 0 0.
Section Sql.
Context {LM : LinkedMap Z} {BU : BitUtil}.
Definition t : Type := lmap SqlRec.
Definition GetInstanceStatSql (conf : StatConf) : t := lm_new (StatSqlMaxCount conf).
Definition Run (conf : StatConf) (s : t) : t := lm_set_max s (StatSqlMaxCount conf).
(** What [intern] puts in for a new key. *)
Definition new_rec (key : Z) : SqlRec :=
  NewSqlRec <| Dbc := GetHigh64 key |> <| Sql := GetLow64 key |> <| TimeMin := MaxInt32 |>.
Definition getSql (s : t) (dbc sql : Z) (f : SqlRec -> SqlRec) : t :=
  let key := Composite64 dbc sql in on_entry s key (new_rec key) f.
Definition AddFetch (s : t) (dbc sql fetch fetchTime : Z) : t :=
  if (sql =? 0)%Z then s
  else getSql s dbc sql (fun r => r <| FetchCount ::= add64 fetch |> <| FetchTime ::= add64 fetchTime |>).
Definition AddUpdate (s : t) (dbc sql updated : Z) : t :=
  if (sql =? 0)%Z then s else getSql s dbc sql (fun r => r <| UpdateCount ::= add64 updated |>).
Definition add_time (urlHash time : Z) (isErr : bool) (r : SqlRec) : SqlRec :=
  r <| CountTotal ::= inc32 |> <| TimeSum ::= add64 time |> <| TimeStd ::= add64 (int64 (time * time)) |>
    <| TimeMin ::= fun m => Z.min m time |> <| TimeMax ::= fun m => Z.max m time |>
    <| CountError ::= inc32_if isErr |> <| Service := urlHash |>.
Definition AddSqlTime (s : t) (urlHash dbc sql time : Z) (isErr : bool) : t :=
  if negb (sql =? 0)%Z then getSql s dbc sql (add_time urlHash time isErr) else s.
(** The records of the pack, with its time. *)
Definition Send (now : Z) (s : t) : t * option (Z * list SqlRec) :=
  if bool_decide (lm_size s = 0) then (s, None)
  else (lm_new (lm_max s), Some (now, snd <$> lm_entries s)).
Definition Clear (s : t) : t := lm_new (lm_max s).
End Sql.
End StatSql.

(** * HTTP calls *)

Module StatHttpc.
Record HTTPC := NewHTTPC { url : Z; host : Z; port : Z }.
#[export] Instance HTTPC_dec : EqDecision HTTPC.
Proof. solve_decision. Defined.
Definition Hash (k : HTTPC) : Z :=
  let u := wrap_u 64 in
  u (31 * u (31 * u (31 * 1 + host k) + port k) + url k)%Z.
Definition Equals (a b : HTTPC) : bool := (host a =? host b)%Z && (port a =? port b)%Z && (url a =? url b)%Z.
Record HttpcRec := mkRec {
  Url : Z; Host : Z; Port : Z; CountTotal : Z; CountError : Z; TimeSum : Z; TimeStd : Z; TimeMin : Z; TimeMax : Z;
  Service : Z
}.
Definition NewHttpcRec : HttpcRec := mkRec 0 0 0 0 0 0 0 0 0 0.
Section Httpc.
Context {LM : LinkedMap HTTPC}.
Definition t : Type := lmap HttpcRec.
Definition GetInstanceStatHttpc (conf : StatConf) : t := lm_new (StatHttpcMaxCount conf).
Definition Run (conf : StatConf) (s : t) : t := lm_set_max s (StatHttpcMaxCount conf).
Definition new_rec (key : HTTPC) : HttpcRec :=
  NewHttpcRec <| Url := url key |> <| Host := host key |> <| Port := port key |> <| TimeMin := MaxInt32 |>.
Definition getHttpc (s : t) (url host port : Z) (f : HttpcRec -> HttpcRec) : t :=
  let key := NewHTTPC url host port in on_entry s key (new_rec key) f.
Definition add_time (serviceUrlHash time : Z) (isErr : bool) (r : HttpcRec) : HttpcRec :=
  r <| CountTotal ::= inc32 |> <| TimeSum ::= add64 time |> <| TimeStd ::= add64 (int64 (time * time)) |>
    <| TimeMax ::= fun m => Z.max m time |> <| TimeMin ::= fun m => Z.min m time |>
    <| CountError ::= inc32_if isErr |> <| Service := serviceUrlHash |>.
Definition AddHttpcTime (s : t) (serviceUrlHash httpcUrlHash httpcHost httpcPort time : Z) (isErr : bool) : t :=
  if negb (httpcUrlHash =? 0)%Z
  then getHttpc s httpcUrlHash httpcHost httpcPort (add_time serviceUrlHash time isErr) else s.
Definition Send (now : Z) (s : t) : t * option (Z * list HttpcRec) :=
  if bool_decide (lm_size s = 0) then (s, None)
  else (lm_new (lm_max s), Some (now, snd <$> lm_entries s)).
Definition Clear (s : t) : t := lm_new (lm_max s).
End Httpc.
End StatHttpc.

(** * Transactions *)

Module StatTranx.
Record TransactionRec := mkRec {
  THash : Z; Profiled : bool; Count : Z; Error_ : Z; TimeSum : Z; TimeMax : Z; TimeMin : Z; TimeStd : Z;
  ApdexSatisfied : Z; ApdexTolerated : Z; SqlCount : Z; SqlTime : Z; SqlFetch : Z; SqlFetchTime : Z;
  HttpcCount : Z; HttpcTime : Z; MallocSum : Z; CpuSum : Z
}.
Definition NewTransactionRec : TransactionRec := mkRec 0 false 0 0 0 0 0 0 0 0 0 0 0 0 0 0 0 0.
Section Tranx.
Context {LM : LinkedMap Z}.
Definition t : Type := lmap TransactionRec.
Definition GetInstanceStatTranx (conf : StatConf) : t := lm_new (StatTxMaxCount conf).
(** The bound it sets is the one of the statements. *)
Definition Run (conf : StatConf) (s : t) : t := lm_set_max s (StatSqlMaxCount conf).
Definition GetService (s : t) (hash : Z) : t * bool := intern s hash (NewTransactionRec <| THash := hash |>).
Definition Send (conf : StatConf) (now : Z) (s : t) : t * option (Z * Z * list TransactionRec) :=
  if bool_decide (lm_size s = 0) then (s, None)
  else (lm_new (lm_max s), Some (MtraceSpecHash conf, now, snd <$> lm_entries s)).
Definition Clear (s : t) : t := lm_new (lm_max s).
End Tranx.
End StatTranx.

(** * Counts and times by key *)

Record TimeCount := mkTimeCount { tc_Count : Z; tc_Error : Z; tc_Time : Z }.
Definition NewTimeCountDefault : TimeCount := mkTimeCount 0 0 0.
(** What the clients do with the entry they get. *)
Definition tc_add (err : bool) (elapsed : Z) (c : TimeCount) : TimeCount :=
  c <| tc_Count ::= inc32 |> <| tc_Error ::= inc32_if err |> <| tc_Time ::= add64 elapsed |>.

(** [pack.StatGeneralPack]: named columns. *)
Record GeneralPack := mkGeneral {
  g_Id : bytes; g_Time : Z; DataStartTime : option Z; columns : list (bytes * list Z)
}.

(** [StatTranxDomain], [StatTranxLogin] and [StatTranxReferer] are the same code with
    another name of the first column, identifier and bound. *)
Module StatPair.
Section Pair.
Context {LM : LinkedMap (Z * Z)}.
Definition t : Type := lmap TimeCount.
Definition GetService (s : t) (k urlhash : Z) (f : TimeCount -> TimeCount) : t :=
  touch s (k, urlhash) NewTimeCountDefault f.
Definition Send (id column : bytes) (now : Z) (s : t) : t * option GeneralPack :=
  if bool_decide (lm_size s = 0) then (s, None)
  else
    let es := lm_entries s in
    (lm_new (lm_max s),
     Some (mkGeneral id now None
       [(column, (fun e => e.1.1) <$> es); (str "url", (fun e => e.1.2) <$> es);
        (str "count", (fun e => tc_Count e.2) <$> es); (str "error", (fun e => tc_Error e.2) <$> es);
        (str "time", (fun e => tc_Time e.2) <$> es)])).
Definition Clear (s : t) : t := lm_new (lm_max s).
End Pair.
End StatPair.
Module StatTranxDomain.
Definition GetInstance {LM : LinkedMap (Z * Z)} (conf : StatConf) : StatPair.t := lm_new (StatDomainMaxCount conf).
Definition Send {LM : LinkedMap (Z * Z)} := StatPair.Send (str "dom") (str "domain").
End StatTranxDomain.
Module StatTranxLogin.
Definition GetInstance {LM : LinkedMap (Z * Z)} (conf : StatConf) : StatPair.t := lm_new (StatLoginMaxCount conf).
Definition Send {LM : LinkedMap (Z * Z)} := StatPair.Send (str "login") (str "login").
End StatTranxLogin.
Module StatTranxReferer.
Definition GetInstance {LM : LinkedMap (Z * Z)} (conf : StatConf) : StatPair.t := lm_new (StatRefererMaxCount conf).
Definition Send {LM : LinkedMap (Z * Z)} := StatPair.Send (str "referer") (str "referer").
End StatTranxReferer.

(** By caller. *)
Module StatTranxMtCaller.
Record MtraceKEY := mkKey { CallerPcode : Z; CallerOkind : Z; CallerSpec : Z; CallerUrl : Z; Url : Z }.
#[export] Instance MtraceKEY_dec : EqDecision MtraceKEY.
Proof. solve_decision. Defined.
Definition Hash (k : MtraceKEY) : Z :=
  let s x y := int32 (31 * x + y)%Z in
  s (s (s (s (s 1%Z (int32 (Z.lxor (CallerPcode k) (Z.shiftr (wrap_u 64 (CallerPcode k)) 32))))
    (CallerOkind k)) (CallerSpec k)) (CallerUrl k)) (Url k).
Section Caller.
Context {LM : LinkedMap MtraceKEY} {LMz : LinkedMap Z} {TT : TextTypes} {RQ : RequestQueue}.
Variable HashStr : bytes -> Z.
Definition t : Type := lmap (K := MtraceKEY) TimeCount.
Definition GetInstance (conf : StatConf) : t := lm_new (StatMtraceMaxCount conf).
Definition GetService (s : t) (k : MtraceKEY) (f : TimeCount -> TimeCount) : t :=
  touch s k NewTimeCountDefault f.
Definition Send (conf : StatConf) (now : Z) (s : t) (tx : DataText.t) : t * DataText.t * option GeneralPack :=
  if bool_decide (lm_size s = 0) then (s, tx, None)
  else
    let spec := st_MtraceSpec conf in
    let '(mtraceSpecHash, tx) :=
      if nonempty spec then (HashStr spec, SendHashText tx TEXT_MTRACE_SPEC (HashStr spec) spec) else (0%Z, tx) in
    let es := lm_entries s in
    (lm_new (lm_max s), tx,
     Some (mkGeneral (str "mt") now None
       [(str "caller_pcode", (fun e => CallerPcode e.1) <$> es); (str "caller_okind", (fun e => CallerOkind e.1) <$> es);
        (str "caller_spec", (fun e => CallerSpec e.1) <$> es); (str "caller_url", (fun e => CallerUrl e.1) <$> es);
        (str "spec", (fun _ => mtraceSpecHash) <$> es); (str "url", (fun e => Url e.1) <$> es);
        (str "count", (fun e => tc_Count e.2) <$> es); (str "error", (fun e => tc_Error e.2) <$> es);
        (str "time", (fun e => tc_Time e.2) <$> es)])).
Definition Clear (s : t) : t := lm_new (lm_max s).
End Caller.
End StatTranxMtCaller.

(** By status, and by address: a setting read at every call bounds the table. *)
Module StatLong.
Definition TABLE_MAX_SIZE : nat := 700.
Section Long.
Context {LM : LinkedMap Z} {BU : BitUtil}.
Definition t : Type := lmap TimeCount.
Definition GetInstance : t := lm_new TABLE_MAX_SIZE.
Definition GetService (max : Z) (s : t) (hi urlhash : Z) (f : TimeCount -> TimeCount) : t :=
  let key := Composite64 hi urlhash in
  if (Z.of_nat (lm_size s) <? max)%Z then touch s key NewTimeCountDefault f
  else match lm_get s key with Some _ => lm_write s key f | None => s end.
(** The table is replaced by one without a bound. *)
Definition send (id column : bytes) (conf : StatConf) (now : Z) (s : t) : t * option GeneralPack :=
  if bool_decide (lm_size s = 0) then (s, None)
  else
    let es := lm_entries s in
    let start := if Stat1MEnabled conf then Some (now - MILLIS_PER_MINUTE)%Z else None in
    (lm_new 0,
     Some (mkGeneral id now start
       [(column, (fun e => GetHigh64 e.1) <$> es); (str "url", (fun e => GetLow64 e.1) <$> es);
        (str "count", (fun e => tc_Count e.2) <$> es); (str "error", (fun e => tc_Error e.2) <$> es);
        (str "time", (fun e => tc_Time e.2) <$> es)])).
Definition Clear (s : t) : t := lm_new (lm_max s).
End Long.
End StatLong.
Module StatTranxStatus.
Definition Send {LM : LinkedMap Z} {BU : BitUtil} := StatLong.send (str "url-status") (str "status").
Definition Add {LM : LinkedMap Z} {BU : BitUtil} (conf : StatConf) (s : StatLong.t) (status urlhash elapsed err : Z)
  : StatLong.t :=
  StatLong.GetService (StatTxStatusMaxCount conf) s status urlhash (tc_add (0 <? err)%Z elapsed).
End StatTranxStatus.
Module StatRemoteIPURL.
Definition Send {LM : LinkedMap Z} {BU : BitUtil} := StatLong.send (str "ip-url") (str "ip").
Definition GetService {LM : LinkedMap Z} {BU : BitUtil} (conf : StatConf) := StatLong.GetService (StatIPURLMaxCount conf).
End StatRemoteIPURL.

(** [AddNoOver(k, 1)] on the tables of addresses and of user agents. *)
Class CountTable := { ctable : Type; NewCountTable : ctable; AddNoOver : ctable -> Z -> Z -> ctable; ct_size : ctable -> nat }.
Module StatCount.
Section Count.
Context {CT : CountTable}.
Definition inc (s : ctable) (k : Z) : ctable := if negb (k =? 0)%Z then AddNoOver s k 1 else s.
Definition Send (now : Z) (s : ctable) : ctable * option (Z * ctable) :=
  if bool_decide (ct_size s = 0) then (s, None) else (NewCountTable, Some (now, s)).
Definition Clear (_ : ctable) : ctable := NewCountTable.
End Count.
End StatCount.
