(* ===== verification/StatError.v ===== *)
(** The error statistics, [src/agent/agent/stat/StatError.go], and the thread that
    sends all the statistics every five minutes, [TimingSender.go].

    [pack.ErrorSnapPack1] keeps the steps of the profile it is given.  The recover of
    [addError] never triggers: nothing in it panics. *)

From S2P Require Import Prelude Hmap Meters UrlPattern DataPack DataText Stat.

Record ErrorThrowable := mkThr { ErrorClassName : bytes; ErrorMessage : bytes; ErrorStack : list Z }.
Definition NewErrorThrowable : ErrorThrowable := mkThr [] [] [].

Module StatError.
Definition TABLE_MAX_SIZE : nat := 500.
Record ErrorRec := mkRec { ClassHash : Z; Service : Z; Msg : Z; SnapSeq : Z; Count : Z }.
(** [St] is the type of steps. *)
Record ErrorSnap (St : Type) := mkSnap {
  Seq : Z; Profile : list St; Stack : list Z; AppendType : Z; AppendHash : Z; Time : Z
}.
Arguments mkSnap {St}. Arguments Seq {St}. Arguments Profile {St}. Arguments Stack {St}.

Section Errors.
Context {LM : LinkedMap Z} {BU : BitUtil} {SU : StringUtil} {TT : TextTypes} {RQ : RequestQueue} {St : Type}.
Record t := mk { table : lmap ErrorRec; ErrorSnapSeq : Z }.
Definition GetInstanceStatError (now : Z) : t := mk (lm_new TABLE_MAX_SIZE) now.
Definition NextErrorSnapSeq (s : t) : t * Z :=
  let s := s <| ErrorSnapSeq ::= add64 1 |> in (s, ErrorSnapSeq s).

(** The statistics, the texts and the snapshot sent, if any; [now] is the clock. *)
Definition addError (now : Z) (s : t) (tx : DataText.t) (thr : ErrorThrowable) (msgHash txUrlHash : Z)
    (errorSnapEnabled : bool) (steps : list St) (Type_ Hash : Z) : t * DataText.t * list (ErrorSnap St) * Z :=
  let classHash := HashStr (ErrorClassName thr) in
  let tx := SendHashText tx TEXT_ERROR classHash (ErrorClassName thr) in
  let key := Composite64 classHash txUrlHash in
  let s := match lm_get (table s) key with
           | None => s <| table := lm_put (table s) key (mkRec classHash txUrlHash msgHash 0 0) |>
           | Some _ => s
           end in
  let snapped := match lm_get (table s) key with Some r => negb (SnapSeq r =? 0)%Z | None => false end in
  let '(s, snap) :=
    if negb snapped && errorSnapEnabled then
      let '(s, seq) := NextErrorSnapSeq s in
      (s <| table ::= fun m => lm_write m key (fun r => r <| SnapSeq := seq |> <| Msg := msgHash |>) |>,
       [mkSnap seq steps (ErrorStack thr) Type_ Hash now])
    else (s, []) in
  (s <| table ::= fun m => lm_write m key (fun r => r <| Count ::= inc32 |>) |>, tx, snap,
   Composite64 classHash msgHash).
Definition AddError (now : Z) (s : t) (tx : DataText.t) (thr : ErrorThrowable) (msg : bytes) (txUrlHash : Z)
    (errorSnapEnabled : bool) (steps : list St) (Type_ Hash : Z) : t * DataText.t * list (ErrorSnap St) * Z :=
  match msg with
  | [] => addError now s tx thr 0 txUrlHash errorSnapEnabled steps Type_ Hash
  | _ =>
      let msg := TrimEmpty msg in
      let msgHash := HashStr msg in
      addError now s (SendHashText tx TEXT_ERROR msgHash msg) thr msgHash txUrlHash errorSnapEnabled steps Type_ Hash
  end.
Definition AddErrorHashOnly (tx : DataText.t) (thr : ErrorThrowable) (msg : bytes) : DataText.t * Z :=
  let classHash := HashStr (ErrorClassName thr) in
  let tx := SendHashText tx TEXT_ERROR classHash (ErrorClassName thr) in
  let msg := TrimEmpty msg in
  let msgHash := HashStr msg in
  (SendHashText tx TEXT_ERROR msgHash msg, Composite64 classHash msgHash).
(** The snapshot is not sent with a stack, but only with steps. *)
Definition AddErrorSql (now : Z) (s : t) (tx : DataText.t) (thr : ErrorThrowable) (dbc service : Z) (steps : list St)
  : t * DataText.t * list (ErrorSnap St) :=
  let '(s, tx, snap, _) := addError now s tx thr dbc service (nonempty steps) steps 0 0 in
  (s, tx, (fun p => mkSnap (Seq p) (Profile p) [] 0 0 now) <$> snap).
Definition Send (now : Z) (s : t) : t * option (Z * list ErrorRec) :=
  if bool_decide (lm_size (table s) = 0) then (s, None)
  else (s <| table := lm_new (lm_max (table s)) |>, Some (now, snd <$> lm_entries (table s))).
Definition Clear (s : t) : t := s <| table := lm_new (lm_max (table s)) |>.
End Errors.
End StatError.

(** * The sending thread *)

(** All the statistics. *)
Section Timing.
Context {LMz : LinkedMap Z} {LMi : LinkedMap (Z * Z)} {LMh : LinkedMap StatHttpc.HTTPC}
  {LMm : LinkedMap StatTranxMtCaller.MtraceKEY} {BU : BitUtil} {SU : StringUtil} {TT : TextTypes}
  {RQ : RequestQueue} {CT : CountTable}.

Record stats := mkStats {
  s_tranx : StatTranx.t; s_domain : StatPair.t; s_mtcaller : StatTranxMtCaller.t; s_login : StatPair.t;
  s_referer : StatPair.t; s_sql : StatSql.t; s_httpc : StatHttpc.t; s_error : StatError.t;
  s_remoteIp : ctable; s_remoteIPURL : StatLong.t; s_userAgent : ctable; s_status : StatLong.t
}.
Definition new_stats (conf : StatConf) (now : Z) : stats :=
  mkStats (StatTranx.GetInstanceStatTranx conf) (StatTranxDomain.GetInstance conf)
    (StatTranxMtCaller.GetInstance conf) (StatTranxLogin.GetInstance conf) (StatTranxReferer.GetInstance conf)
    (StatSql.GetInstanceStatSql conf) (StatHttpc.GetInstanceStatHttpc conf)
    (StatError.GetInstanceStatError now) NewCountTable StatLong.GetInstance NewCountTable StatLong.GetInstance.

(** The packs of one round. *)
Inductive statpack :=
| PTranx (p : Z * Z * list StatTranx.TransactionRec)
| PGeneral (p : GeneralPack)
| PSql (p : Z * list StatSql.SqlRec)
| PHttpc (p : Z * list StatHttpc.HttpcRec)
| PError (p : Z * list StatError.ErrorRec)
| PCount (p : Z * ctable).
Definition sent {A} (c : A -> statpack) (p : option A) : list statpack :=
  match p with Some p => [c p] | None => [] end.

Definition send_all (conf : StatConf) (now : Z) (s : stats) (tx : DataText.t) : stats * DataText.t * list statpack :=
  let '(tranx, p1) := StatTranx.Send conf now (s_tranx s) in
  let '(domain, p2) := StatTranxDomain.Send now (s_domain s) in
  let '(mtcaller, tx, p3) := StatTranxMtCaller.Send HashStr conf now (s_mtcaller s) tx in
  let '(login, p4) := StatTranxLogin.Send now (s_login s) in
  let '(referer, p5) := StatTranxReferer.Send now (s_referer s) in
  let '(sql, p6) := StatSql.Send now (s_sql s) in
  let '(httpc, p7) := StatHttpc.Send now (s_httpc s) in
  let '(error, p8) := StatError.Send now (s_error s) in
  let '(ip, p9) := StatCount.Send now (s_remoteIp s) in
  let '(ipurl, p10) := StatRemoteIPURL.Send conf now (s_remoteIPURL s) in
  let '(agent, p11) := StatCount.Send now (s_userAgent s) in
  (mkStats tranx domain mtcaller login referer sql httpc error ip ipurl agent (s_status s), tx,
   sent PTranx p1 ++ sent PGeneral p2 ++ sent PGeneral p3 ++ sent PGeneral p4 ++ sent PGeneral p5 ++
   sent PSql p6 ++ sent PHttpc p7 ++ sent PError p8 ++ sent PCount p9 ++ sent PGeneral p10 ++ sent PCount p11).
Definition clear_all (s : stats) : stats :=
  mkStats (StatTranx.Clear (s_tranx s)) (StatPair.Clear (s_domain s)) (StatTranxMtCaller.Clear (s_mtcaller s))
    (StatPair.Clear (s_login s)) (StatPair.Clear (s_referer s)) (StatSql.Clear (s_sql s))
    (StatHttpc.Clear (s_httpc s)) (StatError.Clear (s_error s)) (StatCount.Clear (s_remoteIp s))
    (StatLong.Clear (s_remoteIPURL s)) (StatCount.Clear (s_userAgent s)) (s_status s).

(** [dateutil.GetFiveMinUnit] *)
Definition FiveMinUnit (now : Z) : Z := Z.quot now (5 * MILLIS_PER_MINUTE).
(** One round of [run]: [lastUnit] is the unit of the round before; [now] and [now']
    are the two readings of the clock. *)
Definition run_round (conf : StatConf) (now now' lastUnit : Z) (s : stats) (tx : DataText.t)
  : Z * stats * DataText.t * list statpack :=
  let nowUnit := FiveMinUnit now in
  if (lastUnit =? nowUnit)%Z then (lastUnit, s, tx, [])
  else if StatEnabled conf then
    let '(s, tx, out) := send_all conf now' s tx in (nowUnit, s, tx, out)
  else (nowUnit, clear_all s, tx, []).
End Timing.
