(* ===== verification/StatFacts.v ===== *)
(** The statistics of statements and HTTP calls are exact: a pack holds, for the first
    keys that fit, the totals of all their samples since the last pack.  The error
    statistics take at most one snapshot per entry, and the status statistics miss
    half of the errors. *)

From S2P Require Import Prelude Hmap Accumulator Meters UrlPattern.
From S2P Require Import DataPack DataText Stat StatError.

(** * Tables that refuse, sent and emptied *)

Inductive top (E : Type) := TAdd (e : E) | TSend.
Arguments TAdd {E} e. Arguments TSend {E}.
Definition added {E} (os : list (top E)) : list E := omap (fun o => match o with TAdd e => Some e | TSend => None end) os.

Section Tables.
Context {K V X : Type} `{EqDecision K} {LM : LinkedMap K} {LL : LinkedMapLaws K LM}.
Context (d : K -> V) (step : K -> X -> V -> V) (n : nat).

Definition texec (s : lmap V * list (list V)) (o : top (K * X)) : lmap V * list (list V) :=
  match o with
  | TAdd e => (on_sample d step s.1 e, s.2)
  | TSend => if bool_decide (lm_size s.1 = 0) then s else (lm_new (lm_max s.1), s.2 ++ [snd <$> lm_entries s.1])
  end.
Definition trun (m : lmap V) (os : list (top (K * X))) : lmap V * list (list V) := foldl texec (m, []) os.

Lemma trun_exact m os :
  lm_max m = n -> lm_entries m = [] ->
  exists segs, concat segs = added os /\
    (trun m os).2 ++ [snd <$> lm_entries (trun m os).1] = (fun es => snd <$> table_of d step n es) <$> segs.
Proof.
  intros Hn Hm.
  assert (exists segs last, concat segs ++ last = added os /\
    (trun m os).2 = (fun es => snd <$> table_of d step n es) <$> segs /\
    lm_max (trun m os).1 = n /\ lm_entries (trun m os).1 = table_of d step n last) as (segs & last & Hc & Hs & _ & He).
  { unfold trun, added. induction os as [|o os IH] using rev_ind.
    { exists [], []. repeat split; [done|]. simpl. rewrite Hm. unfold table_of. by destruct n. }
    destruct IH as (segs & last & Hc & Hs & Hx & He). rewrite foldl_app, omap_app.
    destruct (foldl texec (m, []) os) as [m' out]. simpl in *. destruct o as [e|]; simpl.
    - exists segs, (last ++ [e]). split; [by rewrite app_assoc, Hc|]. split; [done|]. by apply on_sample_entries.
    - rewrite app_nil_r. case_bool_decide as Hz; [by exists segs, last|].
      exists (segs ++ [last]), []. rewrite concat_app. simpl. rewrite !app_nil_r. split; [done|].
      rewrite fmap_app, <- Hs, He. split; [done|]. rewrite max_new, entries_new. split; [done|].
      unfold table_of. by destruct n. }
  exists (segs ++ [last]). rewrite concat_app, fmap_app, Hs, He. simpl. by rewrite app_nil_r.
Qed.
End Tables.

(** * Statements *)

Record sql_time := mkSqlTime { q_url : Z; q_dbc : Z; q_sql : Z; q_time : Z; q_err : bool }.

Section Sql.
Context {LM : LinkedMap Z} {LL : LinkedMapLaws Z LM} {BU : BitUtil}.

Definition sql_key (x : sql_time) : Z := Composite64 (q_dbc x) (q_sql x).
Definition sql_exec (s : StatSql.t * list (list StatSql.SqlRec)) (o : top sql_time) :=
  match o with
  | TAdd x => (StatSql.AddSqlTime s.1 (q_url x) (q_dbc x) (q_sql x) (q_time x) (q_err x), s.2)
  | TSend => let '(s', p) := StatSql.Send 0 s.1 in (s', s.2 ++ match p with Some p => [p.2] | None => [] end)
  end.
Definition sql_run (conf : StatConf) (os : list (top sql_time)) :=
  foldl sql_exec (StatSql.GetInstanceStatSql conf, []) os.
(** The statements with a hash, by entry. *)
Definition sql_samples (os : list (top sql_time)) : list (Z * sql_time) :=
  (fun x => (sql_key x, x)) <$> filter (fun x => q_sql x <> 0%Z) (added os).

(** What the record of the entry [key] says of its statements [xs]. *)
Definition sql_totals (key : Z) (xs : list sql_time) : StatSql.SqlRec :=
  StatSql.mkRec (GetHigh64 key) (GetLow64 key)
    (int32 (Z.of_nat (length xs))) (int32 (zcount q_err xs)) (int64 (zsum q_time xs))
    (int64 (zsum (fun x => int64 (q_time x * q_time x)) xs))
    (foldl Z.min MaxInt32 (q_time <$> xs)) (foldl Z.max 0%Z (q_time <$> xs)) 0 0 0 (default 0%Z (q_url <$> last xs)).

Lemma sql_totals_fold key xs :
  foldl (fun r x => StatSql.add_time (q_url x) (q_time x) (q_err x) r) (StatSql.new_rec key) xs = sql_totals key xs.
Proof.
  induction xs as [|x xs IH] using rev_ind; [done|]. rewrite foldl_app, IH. unfold sql_totals, StatSql.add_time. simpl.
  rewrite last_snoc, !fmap_app, !foldl_app, length_app, Nat2Z.inj_add. simpl. f_equal; first [done|sums].
Qed.

Lemma sql_table os conf :
  exists os', added os' = sql_samples os /\
    sql_run conf os = trun StatSql.new_rec (fun _ x => StatSql.add_time (q_url x) (q_time x) (q_err x))
                        (StatSql.GetInstanceStatSql conf) os'.
Proof.
  unfold sql_run, trun, sql_samples, added. induction os as [|o os IH] using rev_ind; [by exists []|].
  destruct IH as (os' & Ha & Hr). rewrite foldl_app, Hr, omap_app, filter_app, fmap_app, <- Ha.
  destruct o as [x|]; simpl.
  - unfold StatSql.AddSqlTime. rewrite filter_cons. destruct (Z.eqb_spec (q_sql x) 0) as [Hz|Hz]; simpl.
    + exists os'. rewrite decide_False by (by intros []). simpl. rewrite app_nil_r. split; [done|]. by destruct (foldl _ _ os').
    + exists (os' ++ [TAdd (sql_key x, x)]). rewrite decide_True by done. rewrite omap_app, foldl_app. done.
  - exists (os' ++ [TSend]). rewrite omap_app, foldl_app. simpl. split; [done|]. unfold StatSql.Send.
    destruct (foldl _ _ os') as [m out]. simpl. case_bool_decide; [by rewrite app_nil_r|done].
Qed.

(** C39. The SQL statistics are exact: in any run of statements and sends, the packs sent
    and the table cut the statements into consecutive segments; the records of a
    segment are, in order, those of the first statements that fit the bound (0 is none),
    each with the count, the errors, the sums and the extremes of all its executions in
    the segment and the last service.  Statements that come when the table is full are
    not counted anywhere. *)
Theorem StatSql_exact conf os :
  exists segs, concat segs = sql_samples os /\
    (sql_run conf os).2 ++ [snd <$> lm_entries (sql_run conf os).1] =
      (fun es => (fun key => sql_totals key (samples_of key es)) <$> first_keys (StatSqlMaxCount conf) es.*1) <$> segs.
Proof.
  destruct (sql_table os conf) as (os' & <- & ->).
  destruct (trun_exact StatSql.new_rec (fun _ x => StatSql.add_time (q_url x) (q_time x) (q_err x))
    (StatSqlMaxCount conf) (StatSql.GetInstanceStatSql conf) os') as (segs & Hc & Hs).
  - apply max_new.
  - apply entries_new.
  - exists segs. split; [done|]. etrans; [exact Hs|]. apply list_fmap_ext. intros i es _. unfold table_of.
    rewrite <- list_fmap_compose. apply list_fmap_ext. intros j key _. simpl. unfold total_of. apply sql_totals_fold.
Qed.
End Sql.

(** * Errors *)

Section Errors.
Context {LM : LinkedMap Z} {LL : LinkedMapLaws Z LM} {BU : BitUtil} {BL : BitUtilLaws BU}.
Context {SU : StringUtil} {TT : TextTypes} {RQ : RequestQueue} {St : Type}.

(** An error: its throwable, message, service, whether snapshots are on, and the steps. *)
Record error := mkError { e_thr : ErrorThrowable; e_msg : bytes; e_service : Z; e_snap : bool; e_steps : list St }.
Definition error_key (e : error) : Z := Composite64 (HashStr (ErrorClassName (e_thr e))) (e_service e).
Definition error_exec (s : StatError.t * DataText.t * list (StatError.ErrorSnap St)) (e : error) :=
  let '(t, tx, out) := s in
  let '(t, tx, snap, _) :=
    StatError.AddError 0 t tx (e_thr e) (e_msg e) (e_service e) (e_snap e) (e_steps e) 0 0 in
  (t, tx, out ++ snap).
Definition error_run (now : Z) (tx : DataText.t) (es : list error) :=
  foldl error_exec (StatError.GetInstanceStatError now, tx, []) es.

(** The update of the table; a snapshot is numbered by the next sequence number. *)
Lemma AddError_table now t tx thr msg service snap steps ty h :
  let key := Composite64 (HashStr (ErrorClassName thr)) service in
  let '(t', _, out, _) := StatError.AddError (St := St) now t tx thr msg service snap steps ty h in
  (forall k r, k <> key -> lm_get (StatError.table t') k = Some r -> lm_get (StatError.table t) k = Some r) /\
  exists r', lm_get (StatError.table t') key = Some r' /\
    let old := lm_get (StatError.table t) key in
    let fresh := match old with Some r => (StatError.SnapSeq r =? 0)%Z | None => true end in
    StatError.Count r' = inc32 (match old with Some r => StatError.Count r | None => 0%Z end) /\
    (if fresh && snap then
       StatError.ErrorSnapSeq t' = int64 (StatError.ErrorSnapSeq t + 1) /\
       StatError.SnapSeq r' = StatError.ErrorSnapSeq t' /\ map StatError.Seq out = [StatError.ErrorSnapSeq t']
     else StatError.ErrorSnapSeq t' = StatError.ErrorSnapSeq t /\ out = [] /\
          StatError.SnapSeq r' = match old with Some r => StatError.SnapSeq r | None => 0%Z end).
Proof.
  intros key. unfold StatError.AddError.
  assert (forall tx mh, let '(t', _, out, _) := StatError.addError (St := St) now t tx thr mh service snap steps ty h in
    (forall k r, k <> key -> lm_get (StatError.table t') k = Some r -> lm_get (StatError.table t) k = Some r) /\
    exists r', lm_get (StatError.table t') key = Some r' /\
      let old := lm_get (StatError.table t) key in
      let fresh := match old with Some r => (StatError.SnapSeq r =? 0)%Z | None => true end in
      StatError.Count r' = inc32 (match old with Some r => StatError.Count r | None => 0%Z end) /\
      (if fresh && snap then
         StatError.ErrorSnapSeq t' = int64 (StatError.ErrorSnapSeq t + 1) /\
         StatError.SnapSeq r' = StatError.ErrorSnapSeq t' /\ map StatError.Seq out = [StatError.ErrorSnapSeq t']
       else StatError.ErrorSnapSeq t' = StatError.ErrorSnapSeq t /\ out = [] /\
            StatError.SnapSeq r' = match old with Some r => StatError.SnapSeq r | None => 0%Z end)) as H;
    [|destruct msg; apply H].
  clear tx. intros tx mh. unfold StatError.addError. fold key. cbv zeta.
  destruct (lm_get (StatError.table t) key) as [r|] eqn:E; simpl.
  - rewrite E, negb_involutive. destruct (_ && _) eqn:F; simpl.
    + split.
      * intros k r' Hk. by rewrite !get_write, !decide_False.
      * rewrite get_write, decide_True, get_write, decide_True, E by done. simpl. eexists. split; [done|]. by simpl.
    + split.
      * intros k r' Hk. by rewrite get_write, decide_False.
      * rewrite get_write, decide_True, E by done. simpl. eexists. split; [done|]. by simpl.
  - rewrite put_get. simpl. destruct snap; simpl.
    + split.
      * intros k r' Hk. rewrite !get_write, !decide_False by done. by apply put_old.
      * rewrite get_write, decide_True, get_write, decide_True, put_get by done. simpl. eexists. split; [done|]. by simpl.
    + split.
      * intros k r' Hk. rewrite get_write, decide_False by done. by apply put_old.
      * rewrite get_write, decide_True, put_get by done. simpl. eexists. split; [done|]. by simpl.
Qed.
(** The identifier of an error: the hashes of its class and of its message. *)
Lemma AddError_id now t tx thr msg service snap steps ty h :
  (StatError.AddError (St := St) now t tx thr msg service snap steps ty h).2 =
    Composite64 (HashStr (ErrorClassName thr)) (match msg with [] => 0%Z | _ => HashStr (TrimEmpty msg) end).
Proof.
  unfold StatError.AddError. destruct msg; unfold StatError.addError; cbv zeta; by destruct (_ && _).
Qed.

(** The statistics by status do not count the errors of half of the error classes: an
    error whose class has a negative hash has a negative identifier, and
    [StatTranxStatus.Add] takes a transaction with it for one without an error. *)
Theorem status_misses_errors conf s status url elapsed now t tx thr msg service snap steps ty h :
  in_s 32 (HashStr (ErrorClassName thr)) -> in_s 32 (HashStr (TrimEmpty msg)) ->
  (HashStr (ErrorClassName thr) < 0)%Z ->
  let id := (StatError.AddError (St := St) now t tx thr msg service snap steps ty h).2 in
  id <> 0%Z /\
  StatTranxStatus.Add conf s status url elapsed id = StatTranxStatus.Add conf s status url elapsed 0.
Proof.
  intros Hc Hm Hn id. subst id. rewrite AddError_id. set (mh := match msg with [] => _ | _ => _ end).
  assert (in_s 32 mh) as Hmh by (subst mh; destruct msg; [by unfold in_s|done]).
  pose proof (proj2 (composite_sign _ _ Hc Hmh) Hn) as Hneg. split; [lia|].
  unfold StatTranxStatus.Add. by rewrite (proj2 (Z.ltb_ge _ _)) by lia.
Qed.
End Errors.

(** * Keys *)

(** The keys of the two hand-made maps are compared field by field, and equal ones have
    the same hash, as the maps require. *)
Lemma HTTPC_key a b : StatHttpc.Equals a b = true <-> a = b.
Proof.
  unfold StatHttpc.Equals. rewrite !andb_true_iff, !Z.eqb_eq. destruct a, b; simpl. split; [naive_solver|by intros [= -> -> ->]].
Qed.

(** * Witnesses *)

(** The upper half times 2^32, and the lower half without its sign. *)
#[export] Instance bits1 : BitUtil := {|
  Composite64 h l := (h * 2 ^ 32 + wrap_u 32 l)%Z;
  GetHigh64 k := (k / 2 ^ 32)%Z;
  GetLow64 k := int32 (k mod 2 ^ 32)
|}.
#[export] Instance bits1_laws : BitUtilLaws bits1.
Proof.
  split; simpl; intros h l Hh Hl; pose proof (Z.mod_pos_bound l (2 ^ 32) ltac:(done)) as Hb;
    change (wrap_u 32 l) with (l mod 2 ^ 32)%Z.
  - rewrite Z.div_add_l, Z.div_small; [lia|done|done].
  - rewrite Z.add_comm, Z.mod_add, Z.mod_mod by done. rewrite <- (wrap_s_id 32 l) at 2 by done.
    apply wrap_s_eq; [done|]. by rewrite Z.mod_mod.
  - split; intros; nia.
Qed.

Section Witnesses.
#[local] Existing Instance ListMap.list_map.
#[local] Existing Instance ListMap.list_map_laws.
#[local] Existing Instance ListQueue.list_queue.
#[local] Existing Instance strings1.
#[local] Existing Instance types1.
Definition stconf1 : StatConf := mkStatConf 2 2 2 2 2 2 2 100 100 false false true 0 [].

Lemma status_misses_errors_witness :
  let thr := mkThr (str "xzzzzzzz") (str "boom") [] in
  StatTranxStatus.Add stconf1 StatLong.GetInstance 500 7 30
    (StatError.AddError (St := unit) 0 (StatError.GetInstanceStatError 0) (initial 10 0 0) thr (str "boom") 7 false [] 0 0).2 =
  StatTranxStatus.Add stconf1 StatLong.GetInstance 500 7 30 0.
Proof.
  intros thr. apply (status_misses_errors (BU := bits1) (SU := strings1) (St := unit) stconf1 StatLong.GetInstance 500 7 30 0
    (StatError.GetInstanceStatError 0) (initial 10 0 0) thr (str "boom") 7 false [] 0 0).
  - by vm_compute.
  - by vm_compute.
  - by vm_compute.
Defined.

(** Room for two statements: the third is counted nowhere until the next segment. *)
Definition sqls1 : list (top sql_time) :=
  [TAdd (mkSqlTime 9 1 5 10 false); TAdd (mkSqlTime 9 1 6 30 true); TAdd (mkSqlTime 8 1 7 1 false);
   TAdd (mkSqlTime 8 1 5 20 false); TSend; TAdd (mkSqlTime 8 1 7 1 false)].
Lemma StatSql_exact_witness :
  exists segs, concat segs = sql_samples (BU := bits1) sqls1 /\
    (sql_run (BU := bits1) stconf1 sqls1).2 ++ [snd <$> lm_entries (sql_run (BU := bits1) stconf1 sqls1).1] =
      (fun es => (fun key => sql_totals (BU := bits1) key (samples_of key es)) <$> first_keys 2 es.*1) <$> segs.
Proof. apply (StatSql_exact (BU := bits1) stconf1 sqls1). Defined.
End Witnesses.
