(* ===== verification/ParsedSql.v ===== *)
(** Statements as the profile names them, [src/agent/agent/trace/ParsedSql.go], and the
    cipher of their parameters, [src/agent/agent/secure/ParamSecurity.go]. *)

From S2P Require Import Prelude EscapeSQL EscapeSQLFacts Hmap UrlPattern.
From S2P Require Import DataPack DataText.
Import EscapeLiteralSQL.

(** * Parameters *)

Module ParamSecurity.
Record t := mk { key : bytes; KeyHash : Z }.
(** The loop of [Encrypt] from key position [j]: [crc] folds the plain bytes in.  An
    empty key panics at the first byte. *)
Fixpoint encrypt_from (key : bytes) (j : nat) (b : bytes) (crc : ascii) : res (bytes * ascii) :=
  match b with
  | [] => Ret ([], crc)
  | x :: b =>
      k ← index_ key j;
      '(r, crc) ← encrypt_from key ((j + 1) mod length key) b (xor_byte crc x);
      Ret (xor_byte x k :: r, crc)
  end.
Definition Encrypt (s : t) (b : bytes) (crc : ascii) : res (bytes * ascii) := encrypt_from (key s) 0 b crc.
Fixpoint decrypt_from (dkey : bytes) (j : nat) (b : bytes) (crc : ascii) : res (bytes * ascii) :=
  match b with
  | [] => Ret ([], crc)
  | x :: b =>
      k ← index_ dkey j;
      let x := xor_byte x k in
      '(r, crc) ← decrypt_from dkey ((j + 1) mod length dkey) b (xor_byte crc x);
      Ret (x :: r, crc)
  end.
Definition Decrypt (b : bytes) (crc : ascii) (dkey : bytes) : res (bytes * ascii) := decrypt_from dkey 0 b crc.
(** [toParamBytes]: nil for the empty text. *)
Definition toParamBytes (s : t) (p : bytes) (crc : ascii) : res (bytes * ascii) :=
  match p with [] => Ret ([], crc) | _ => Encrypt s p crc end.

Lemma encrypt_round key j b crc :
  j < length key ->
  exists e crc', encrypt_from key j b crc = Ret (e, crc') /\ length e = length b /\
    decrypt_from key j e crc = Ret (b, crc').
Proof.
  revert j crc. induction b as [|x b IH]; intros j crc Hj; [by exists [], crc|].
  destruct (lookup_lt_is_Some_2 key j Hj) as [k Hk].
  destruct (IH ((j + 1) mod length key) (xor_byte crc x)) as (e & crc' & He & Hl & Hd).
  { apply Nat.mod_upper_bound. lia. }
  exists (xor_byte x k :: e), crc'. simpl. unfold index_. rewrite Hk. simpl. rewrite He, xor_byte_invol. simpl.
  rewrite Hd, Hl. done.
Qed.
End ParamSecurity.

(** * Statements *)

Record ParsedSql := NewParsedSql { ptype : ascii; psql : Z; pparam : bytes }.
Record SqlConf := mkSqlConf { TraceSqlNormalizeEnabled : bool; ProfileSqlCommentEnabled : bool; sql_app : AppConf }.
Definition maxSqlNormalizeLength : Z := 32 * 1024.

Section Escape.
Context {LM : LinkedMap Z} {RQ : RequestQueue} {TT : TextTypes} {SU : StringUtil}.

(** The two caches, by the hash code of the statement. *)
Record sqlCaches := mkSqlCaches { checkedSql : lmap ParsedSql; nonLiteSql : lmap ParsedSql }.
Definition newSqlCaches : sqlCaches := mkSqlCaches (lm_new 1001) (lm_new (N.to_nat 10000)).
Definition resetSqlText (c : sqlCaches) : sqlCaches :=
  mkSqlCaches (lm_new (lm_max (checkedSql c))) (lm_new (lm_max (nonLiteSql c))).

(** The statement parsed: its type, text and literals. *)
Definition parse_sql (conf : SqlConf) (sql : bytes) : res t :=
  Process (sql_app conf) (SetIncludeComment (NewEscapeLiteralSQL sql) (ProfileSqlCommentEnabled conf)).
Definition EscapeLiteral (conf : SqlConf) (c : sqlCaches) (tx : DataText.t) (sql : bytes)
  : res (ParsedSql * sqlCaches * DataText.t) :=
  if negb (TraceSqlNormalizeEnabled conf) then
    let hash := HashStr sql in Ret (NewParsedSql "*" hash [], c, SendHashText tx TEXT_SQL hash sql)
  else if (maxSqlNormalizeLength <? Z.of_nat (length sql))%Z then
    let truncated := take (Z.to_nat maxSqlNormalizeLength) sql in
    let h := HashStr truncated in Ret (NewParsedSql "*" h [], c, SendHashText tx TEXT_SQL h truncated)
  else
    let sqlHash := int32 (HashCode sql) in
    match lm_get (nonLiteSql c) sqlHash, lm_get (checkedSql c) sqlHash with
    | Some p, _ | None, Some p => Ret (p, c, tx)
    | None, None =>
        els ← parse_sql conf sql;
        let sql2 := GetParsedSql els in
        let hash := HashStr sql2 in
        let tx := SendHashText tx TEXT_SQL hash sql2 in
        if (hash =? sqlHash)%Z then
          let p := NewParsedSql (SqlType els) hash [] in
          Ret (p, c <| nonLiteSql ::= fun m => lm_put m sqlHash p |>, tx)
        else
          let p := NewParsedSql (SqlType els) hash (GetParameter els) in
          Ret (p, c <| checkedSql ::= fun m => lm_put m sqlHash p |>, tx)
    end.
End Escape.

(** * The parameters can be read back *)

(** With a key that is not empty, encrypting never panics, keeps the length, and
    decrypting with the same key gives the bytes and the same checksum. *)
Theorem Encrypt_roundtrip s b crc :
  ParamSecurity.key s <> [] ->
  exists e crc', ParamSecurity.Encrypt s b crc = Ret (e, crc') /\ length e = length b /\
    ParamSecurity.Decrypt e crc (ParamSecurity.key s) = Ret (b, crc').
Proof.
  intros Hk. apply ParamSecurity.encrypt_round. destruct (ParamSecurity.key s); [done|simpl; lia].
Qed.
Lemma Encrypt_roundtrip_witness :
  exists e crc', ParamSecurity.Encrypt (ParamSecurity.mk (str "WHATAP") 0) (str "Kim,1") zero = Ret (e, crc') /\
    ParamSecurity.Decrypt e zero (str "WHATAP") = Ret (str "Kim,1", crc').
Proof.
  destruct (Encrypt_roundtrip (ParamSecurity.mk (str "WHATAP") 0) (str "Kim,1") zero) as (e & crc' & H1 & _ & H2); [done|].
  exists e, crc'. by split.
Defined.

(** * The caches do not show *)

Section Cache.
Context {LM : LinkedMap Z} {LL : LinkedMapLaws Z LM} {RQ : RequestQueue} {TT : TextTypes} {SU : StringUtil}.
Variable conf : SqlConf.

(** What the statement is, without a cache. *)
Definition sql_identity (sql : bytes) : ParsedSql :=
  match parse_sql conf sql with
  | Ret e =>
      let hash := HashStr (GetParsedSql e) in
      NewParsedSql (SqlType e) hash (if (hash =? int32 (HashCode sql))%Z then [] else GetParameter e)
  | _ => NewParsedSql "*" 0 []
  end.
Definition normalised (sql : bytes) : Prop :=
  TraceSqlNormalizeEnabled conf = true /\ (Z.of_nat (length sql) <= maxSqlNormalizeLength)%Z.

(** The entries come from the statements seen. *)
Definition caches_of (seen : list bytes) (c : sqlCaches) : Prop :=
  forall h p, lm_get (checkedSql c) h = Some p \/ lm_get (nonLiteSql c) h = Some p ->
    exists sql, sql ∈ seen /\ int32 (HashCode sql) = h /\ p = sql_identity sql.

Lemma parse_sql_returns sql : exists e, parse_sql conf sql = Ret e.
Proof.
  destruct (Process_returns (sql_app conf) (str "#") (substitute_str_mode (NewEscapeLiteralSQL sql))
    (ProfileSqlCommentEnabled conf) sql) as (r & Hr & _).
  exists r. exact Hr.
Qed.
Lemma EscapeLiteral_cached seen c tx sql :
  normalised sql -> caches_of seen c ->
  (forall s, s ∈ seen -> int32 (HashCode s) = int32 (HashCode sql) -> s = sql) ->
  exists c' tx', EscapeLiteral conf c tx sql = Ret (sql_identity sql, c', tx') /\ caches_of (seen ++ [sql]) c'.
Proof.
  intros [Hn Hl] Hc Hinj. unfold EscapeLiteral. rewrite Hn, (proj2 (Z.ltb_ge _ _)) by done. cbn [negb].
  assert (forall h p, (exists s, s ∈ seen /\ int32 (HashCode s) = h /\ p = sql_identity s) ->
            exists s, s ∈ seen ++ [sql] /\ int32 (HashCode s) = h /\ p = sql_identity s) as Hmono.
  { intros h p (s & Hs & ? & ?). exists s. split; [apply elem_of_app; by left|done]. }
  assert (forall p, lm_get (checkedSql c) (int32 (HashCode sql)) = Some p \/
                    lm_get (nonLiteSql c) (int32 (HashCode sql)) = Some p -> p = sql_identity sql) as Hhit.
  { intros p Hp. destruct (Hc _ _ Hp) as (s & Hs & Hh & ->). by rewrite (Hinj s Hs Hh). }
  assert (caches_of (seen ++ [sql]) c) as Hold by (intros h p Hp; by apply Hmono, Hc).
  destruct (lm_get (nonLiteSql c) _) as [p|] eqn:E1.
  { exists c, tx. rewrite (Hhit p) by (by right). done. }
  destruct (lm_get (checkedSql c) _) as [p|] eqn:E2.
  { exists c, tx. rewrite (Hhit p) by (by left). done. }
  pose proof (parse_sql_returns sql) as [e He]. unfold sql_identity. rewrite He. simpl.
  assert (sql ∈ seen ++ [sql]) as Hin by (apply elem_of_app; right; by left).
  destruct (_ =? _)%Z eqn:Eh; (eexists _, _; split; [done|]); intros h p; simpl.
  - destruct (decide (h = int32 (HashCode sql))) as [->|Hne].
    + rewrite put_get, E2. intros [?|[= <-]]; [done|]. exists sql. unfold sql_identity. rewrite He, Eh. done.
    + intros [Hp|Hp]; [apply Hold; by left|apply put_old in Hp; [apply Hold; by right|done]].
  - destruct (decide (h = int32 (HashCode sql))) as [->|Hne].
    + rewrite put_get, E1. intros [[= <-]|?]; [|done]. exists sql. unfold sql_identity. rewrite He, Eh. done.
    + intros [Hp|Hp]; [apply put_old in Hp; [apply Hold; by left|done]|apply Hold; by right].
Qed.

(** The statements one after the other. *)
Definition escape_all (tx : DataText.t) (sqls : list bytes) : res (sqlCaches * DataText.t * list ParsedSql) :=
  foldM (fun '(c, tx, out) sql => '(p, c, tx) ← EscapeLiteral conf c tx sql; Ret (c, tx, out ++ [p]))
    (newSqlCaches, tx, []) sqls.

(** Whatever statements are executed, in whatever order and however often, each of at
    most 32 KiB is given the type, hash and literals that parsing it afresh gives:
    [EscapeLiteral] never panics and its two bounded caches do not show, as long as no
    two of the statements have the same 32-bit hash code. *)
Theorem EscapeLiteral_is_cache tx sqls :
  Forall normalised sqls ->
  (forall a b, a ∈ sqls -> b ∈ sqls -> int32 (HashCode a) = int32 (HashCode b) -> a = b) ->
  exists c' tx', escape_all tx sqls = Ret (c', tx', sql_identity <$> sqls).
Proof.
  intros Hn Hinj.
  assert (exists c' tx', escape_all tx sqls = Ret (c', tx', sql_identity <$> sqls) /\ caches_of sqls c')
    as (c' & tx' & H & _); [|eauto].
  unfold escape_all. induction sqls as [|sql sqls IH] using rev_ind.
  { eexists _, _. split; [done|]. intros h p. simpl. rewrite !get_new. by intros [|]. }
  apply Forall_app in Hn as [Hn [Hs _]%Forall_cons]. destruct IH as (c & tx1 & Hr & Hc); [done| |].
  { intros a b Ha Hb. apply Hinj; apply elem_of_app; by left. }
  destruct (EscapeLiteral_cached sqls c tx1 sql Hs Hc) as (c' & tx' & He & Hc').
  { intros s Hin. apply Hinj; apply elem_of_app; [by left|right; by left]. }
  exists c', tx'. rewrite foldM_app, Hr. simpl. rewrite He. simpl. by rewrite fmap_app.
Qed.
End Cache.

Section Witness.
#[local] Existing Instance ListMap.list_map.
#[local] Existing Instance ListMap.list_map_laws.
#[local] Existing Instance ListQueue.list_queue.
#[local] Existing Instance strings1.
#[local] Existing Instance types1.
Definition sqlconf1 : SqlConf := mkSqlConf true true {| AppType := 1; APP_TYPE_PHP := 2; APP_TYPE_BSM_PHP := 3 |}.
Definition sqls1 : list bytes := [str "select 1"; str "select a"; str "select 1"].
Lemma EscapeLiteral_is_cache_witness :
  exists c' tx', escape_all sqlconf1 (initial 10 0 0) sqls1 = Ret (c', tx', sql_identity sqlconf1 <$> sqls1).
Proof.
  apply EscapeLiteral_is_cache.
  - repeat constructor; by vm_compute.
  - intros a b Ha Hb. unfold sqls1 in Ha, Hb.
    repeat (apply elem_of_cons in Ha as [->|Ha]);
      repeat (apply elem_of_cons in Hb as [->|Hb]); try done; by (apply elem_of_nil in Ha || apply elem_of_nil in Hb).
Defined.
End Witness.
