(* ===== verification/TraceContext.v ===== *)
(** The agent's side of a transaction: [src/agent/agent/trace/TraceContext.go], the
    steps its profile collects, and the configuration the transaction code reads.

    [urlutil.URL], [value.Value] and the step structs are golib's, with the fields and
    methods used.  The collector of a context is any implementation of
    [IProfileCollector] ([IProfileCollector.go]); the four of the repository are
    modelled in the collector files. *)

From S2P Require Import Prelude UrlPattern EscapeSQL ParsedSql Meters Stat StatError.

Class UrlUtil := {
  URL : Type; NewURL : bytes -> URL;
  u_Path : URL -> bytes; u_Host : URL -> bytes; u_Port : URL -> Z; u_Query : URL -> bytes;
  HostPort : URL -> bytes; u_String : URL -> bytes; u_Domain : URL -> bytes; u_DomainPath : URL -> bytes;
  (** [ParseQuery], in the order a [range] visits it *)
  ParseQuery : URL -> list (bytes * list bytes)
}.

(** More of golib's [stringutil]. *)
Class StringMore := { InArray : bytes -> list bytes -> bool; Truncate : bytes -> nat -> bytes; ToPair : bytes -> bytes -> bytes * bytes }.

(** * Steps *)

Record MessageStep := mkMsg { ms_StartTime : Z; ms_Time : Z; ms_Hash : Z; ms_Value : Z; ms_Desc : bytes }.
Record SecureMsgStep := mkSecure { sm_StartTime : Z; sm_Hash : Z; sm_Value : bytes; sm_Crc : ascii }.
Inductive xtype := SQL_XTYPE_METHOD_QUERY | SQL_XTYPE_METHOD_UPDATE | SQL_XTYPE_METHOD_EXECUTE.
Record SqlStepX := mkSql {
  sq_StartTime : Z; sq_Elapsed : Z; sq_Dbc : Z; sq_Hash : Z; sq_Xtype : xtype; sq_P1 : bytes; sq_P2 : bytes;
  sq_Pcrc : ascii; sq_StartCpu : Z; sq_StartMem : Z; sq_Error : Z; sq_Stack : list Z
}.
Record HttpcStepX := mkHttpc {
  hc_StartTime : Z; hc_Url : Z; hc_Host : Z; hc_Port : Z; hc_Elapsed : Z; hc_StepId : Z; hc_StartCpu : Z;
  hc_StartMem : Z; hc_Error : Z; hc_Stack : list Z; hc_Driver : bytes
}.
Record MethodStepX := mkMethod {
  mt_StartTime : Z; mt_Hash : Z; mt_Elapsed : Z; mt_res : bool; mt_stk : bool; mt_StartCpu : Z; mt_StartMem : Z;
  mt_Stack : list Z
}.
Record DBCStep := mkDbc { db_StartTime : Z; db_Hash : Z; db_Elapsed : Z; db_Error : Z }.
Inductive AnyStep :=
| SMessage (s : MessageStep) | SSecure (s : SecureMsgStep) | SSql (s : SqlStepX) | SHttpc (s : HttpcStepX)
| SMethod (s : MethodStepX) | SDbc (s : DBCStep).
Definition NewMessageStep : MessageStep := mkMsg 0 0 0 0 [].
Definition NewSqlStepX : SqlStepX := mkSql 0 0 0 0 SQL_XTYPE_METHOD_QUERY [] [] zero 0 0 0 [].
Definition NewHttpcStepX : HttpcStepX := mkHttpc 0 0 0 0 0 0 0 0 0 [] [].
Definition NewMethodStepX : MethodStepX := mkMethod 0 0 0 false false 0 0 [].
Definition NewDBCStep : DBCStep := mkDbc 0 0 0 0.

(** [IProfileCollector]; a collector that sends parts of the profile itself keeps what
    it sent in its state. *)
Class IProfileCollector := {
  collector : Type;
  NewProfileCollector : Z -> collector;
  c_Add : AnyStep -> collector -> collector;
  c_AddHeavy : AnyStep -> collector -> collector;
  c_GetSteps : collector -> list AnyStep;
  c_GetStep4Error : collector -> list AnyStep;
  c_GetSplitCount : collector -> Z
}.

(** An extra field of a transaction. *)
Inductive value := TextValue (s : bytes) | DecimalValue (z : Z).
Definition MapValue : Type := list (bytes * value).
Definition put_value (m : MapValue) (k : bytes) (v : value) : MapValue :=
  match Hmap.alookup m k with Some _ => Hmap.awrite m k (fun _ => v) | None => m ++ [(k, v)] end.

(** * The context *)

Module TraceContext.
Section Ctx.
Context {UU : UrlUtil} {PC : IProfileCollector}.

Record t := mk {
  Txid : Z; IsStaticContents : bool; ProfileSeq : Z; Pid : Z; ThreadId : Z; ThreadStack : bytes;
  CallerPcode : Z; CallerOid : Z; CallerSeq : Z;
  Profile : collector;
  StartCpu : Z; StartMalloc : Z; EndCpu : Z; EndMalloc : Z; StartTime : Z; EndTime : Z; Elapsed : Z;
  Status : Z; ServiceHash : Z; ServiceName : bytes; ServiceURL : option URL; RemoteIp : Z;
  ErrorStep : bool; Error_ : Z; ErrorLevel : Z; Thr : option ErrorThrowable;
  HttpMethod : bytes; HttpQuery : bytes; HttpContentType : bytes; HttpHost : bytes; HttpHostHash : Z;
  SqlCount : Z; SqlTime : Z; DbcTime : Z; FetchCount : Z; FetchTime : Z;
  SqlInsert : Z; SqlUpdate : Z; SqlDelete : Z; SqlSelect : Z; SqlOthers : Z;
  PstmtSql : bytes; PstmtHash : Z; ExecutedSqlhash : Z; ActiveSqlhash : Z; ActiveDbc : Z; ActiveCrud : Z;
  HttpcCount : Z; HttpcTime : Z; HttpcUrl : bytes; ActiveHttpcHash : Z; HttpcHost : bytes; HttpcPort : Z;
  WClientId : Z; UserAgent : Z; UserAgentString : bytes; Referer : Z; RefererURL : option URL; Login : bytes;
  UserTransaction : Z; DebugSqlCall : bool; LastSqlStep : option SqlStepX; ProfileActive : Z;
  JdbcUpdated : Z; JdbcUpdateRecord : Z; JdbcIdenity : Z; JdbcCommit : Z; RsCount : Z; RsTime : Z; DBOpening : bool;
  Mtid : Z; Mdepth : Z; Mcallee : Z; MStepId : Z; McallerTxid : Z; McallerPcode : Z; McallerSpec : bytes;
  McallerUrl : bytes; McallerUrlHash : Z; McallerOid : Z; McallerOkind : Z; McallerPoidKey : bytes; McallerStepId : Z;
  Fields : option MapValue; OriginURL : bytes; AppCtx : bytes
}.
(** A new context collects in the configured mode. *)
Definition NewTraceContext (InternalTraceCollectingMode : Z) : t :=
  mk 0 false 0 0 0 [] 0 0 0 (NewProfileCollector InternalTraceCollectingMode) 0 0 0 0 0 0 0 0 0 [] None 0
    false 0 0 None [] [] [] [] 0 0 0 0 0 0 0 0 0 0 0 [] 0 0 0 0 0 0 0 [] 0 [] 0 0 0 [] 0 None [] 0 false None 0
    0 0 0 0 0 0 false 0 0 0 0 0 0 [] [] 0 0 0 [] 0 None [] [].
(** [Clear] does not touch [OriginURL] and [AppCtx]. *)
Definition Clear (InternalTraceCollectingMode : Z) (c : t) : t :=
  (NewTraceContext InternalTraceCollectingMode) <| OriginURL := OriginURL c |> <| AppCtx := AppCtx c |>.

Definition fields_or_new (c : t) : MapValue := default [] (Fields c).
Definition SetExtraField (key : bytes) (val : value) (c : t) : t :=
  c <| Fields := Some (put_value (fields_or_new c) key val) |>.
Definition SetExtraFieldString (key val : bytes) (c : t) : t := SetExtraField key (TextValue val) c.
Definition GetExtraField (key : bytes) (c : t) : t * option value :=
  (c <| Fields := Some (fields_or_new c) |>, Hmap.alookup (fields_or_new c) key).
Definition ExtraFields (c : t) : t * MapValue := (c <| Fields := Some (fields_or_new c) |>, fields_or_new c).
Definition GetElapsedTime (now : Z) (c : t) : Z := int64 (now - StartTime c).
End Ctx.
End TraceContext.

(** * Configuration *)

Record ApiConf := mkApiConf {
  meters : Conf; urls : UrlConf; sqls : SqlConf; statc : StatConf;
  InternalTraceCollectingMode : Z;
  AppContextEnabled : bool; IgnoreHttpMethod : list bytes; ProfileHttpHostEnabled : bool;
  QueryStringEnabled : bool; QueryStringUrls : list bytes; QueryStringKeys : list bytes;
  TraceIgnoreUrlSet : option (list Z); IsTraceIgnoreUrlPrefix : bool; TraceIgnoreUrlPrefix : bytes;
  TraceUserAgentEnabled : bool; TraceRefererEnabled : bool; RealtimeUserEnabled : bool;
  StatTxStatusEnabled : bool; ProfileHttpParameterEnabled : bool; ProfileHttpParameterUrlPrefix : bytes;
  ErrorSnapEnabled : bool; EnableBizExceptions_ : bool; BizExceptions : list Z;
  EnableIgnoreExceptions_ : bool; IgnoreExceptions : list Z;
  ProfileSqlParamEnabled : bool; ProfileSqlResourceEnabled : bool; ProfileHttpcResourceEnabled : bool;
  ProfileMethodResourceEnabled : bool;
  TraceDaemonEnabled : bool; TraceDaemonUrls : list bytes; TraceCLIEnabled : bool; TraceUserEnabled : bool;
  ProfileHttpHeaderIgnoreKeys : list bytes; TraceErrorCallstackDepth : Z; app_type_go : bool;
  TxTextTxnameEnabled : bool; TxTextErrorEnabled : bool; TxTextErrorLength : nat;
  StatIPURLEnabled : bool; StatLoginEnabled : bool; StatDomainEnabled : bool; StatRefererEnabled : bool;
  StatRefererFormat : Z; StatMtraceEnabled : bool; ProfileBasetime : Z; TraceZipEnabled : bool; conf_TextReset : Z
}.

(** [config.IsIgnoreTrace] *)
Definition IsIgnoreTrace (conf : ApiConf) (hash : Z) (service : bytes) : bool :=
  match TraceIgnoreUrlSet conf with
  | None => false
  | Some s =>
      if bool_decide (hash ∈ s) then true
      else IsTraceIgnoreUrlPrefix conf && HasPrefix service (TraceIgnoreUrlPrefix conf)
  end.
