(* ===== verification/TraceApi.v ===== *)
(** Start, end, messages and errors of a transaction, [src/agent/agent/trace/api/Trace.go].

    The functions get the context by pointer and change it and the components they
    call; here they take and return the context and a [World] of those components.  A
    panic is recovered at the function's boundary, what was done before it stays.
    Readings of the clock are arguments. *)

From S2P Require Import Prelude Hmap UrlPattern TraceCtx MeterService Meters DataPack DataText.
From S2P Require Import ParsedSql Stat StatError TraceContext.

(** [service.TxRecord], the fields the agent sets. *)
Record TxRec := mkTxRec {
  x_Txid : Z; x_EndTime : Z; x_Elapsed : Z; x_Service : Z; x_TxName : bytes; x_ErrorClass : bytes;
  x_ErrorMessage : bytes; x_IpAddr : Z; x_WClientId : Z; x_UserAgent : Z; x_McallerPcode : Z; x_McallerOkind : Z;
  x_McallerOid : Z; x_Mtid : Z; x_Mdepth : Z; x_Mcaller : Z; x_McallerStepId : Z; x_Cipher : Z; x_CpuTime : Z;
  x_Malloc : Z; x_SqlCount : Z; x_SqlTime : Z; x_SqlFetchCount : Z; x_SqlFetchTime : Z; x_DbcTime : Z; x_Error : Z;
  x_ErrorLevel : Z; x_Domain : Z; x_Referer : Z; x_HttpcCount : Z; x_HttpcTime : Z; x_Status : Z;
  x_HttpMethod : option Z; x_Fields : MapValue; x_OriginUrl : bytes; x_AppCtx : bytes; x_Apdex : Z; x_Login : Z;
  x_McallerSpec : Z; x_McallerUrl : Z; x_StepSplitCount : Z; x_Active : bool
}.
Definition NewTxRecord : TxRec :=
  mkTxRec 0 0 0 0 [] [] [] 0 0 0 0 0 0 0 0 0 0 0 0 0 0 0 0 0 0 0 0 0 0 0 0 0 None [] [] [] 0 0 0 0 0 false.
(** What the meter of transactions sees of it, and writes back. *)
Definition meter_tx (x : TxRec) : MeterService.TxRecord :=
  mkTx (x_Elapsed x) (x_DbcTime x) (x_SqlTime x) (x_HttpcTime x) (x_ErrorLevel x) (x_Apdex x).
Definition metered (x : TxRec) (y : MeterService.TxRecord) : TxRec :=
  x <| x_Elapsed := Elapsed y |> <| x_Apdex := Apdex y |>.

(** The statistics by application context, [src/agent/agent/appctx]. *)
Class AppContext := {
  appctx : Type;
  GetContextPath : appctx -> Z -> bytes -> bytes * appctx;
  appctx_EndTx : appctx -> bytes -> TxRec -> appctx
}.

(** An error value: its Go type and its text. *)
Record error := mkErr { err_type : bytes; err_text : bytes }.

(** [strings.Split] at a byte: empty parts are kept. *)
Fixpoint split_at_byte (sep : ascii) (s : bytes) : list bytes :=
  match s with
  | [] => [[]]
  | c :: s =>
      if bool_decide (c = sep) then [] :: split_at_byte sep s
      else match split_at_byte sep s with [] => [[c]] | w :: ws => (c :: w) :: ws end
  end.

Section Api.
Context {LMz : LinkedMap Z} {LMi : LinkedMap (Z * Z)} {LMh : LinkedMap StatHttpc.HTTPC}
  {LMm : LinkedMap StatTranxMtCaller.MtraceKEY} {BU : BitUtil} {SU : StringUtil} {SM : StringMore} {TT : TextTypes}
  {RQ : RequestQueue} {CT : CountTable} {PT : PathTree} {HM : MeterService.Pack} {UU : UrlUtil} {PC : IProfileCollector}
  {HX : Hexa32} {AC : AppContext}.

Abbreviation ctx_t := TraceContext.t.
Import TraceContext.

Record World := mkWorld {
  w_service : MeterService.t; w_status : MeterStatus.t; w_sql : MeterSQL.t; w_httpc : MeterHTTPC.t;
  w_users : lmap (K := Z) Z;
  w_stats : stats; w_text : DataText.t; w_snaps : list (StatError.ErrorSnap AnyStep);
  w_sqls : sqlCaches; w_urls : URLPatternDetector.t; w_sec : ParamSecurity.t; w_app : appctx;
  (** the table of running transactions and the queue of finished ones hold pointers *)
  w_table : lmap (K := Z) nat; w_queue : option (queue nat)
}.

Variable conf : ApiConf.
(** [service.WebMethodName]; [String] of a nil URL, which the code may call; [pack.INFO]. *)
Variable WebMethodName : bytes -> option Z.
Variable nil_String : res bytes.
Variable INFO : Z.

Definition text (div : Z) (s : bytes) (w : World) : World := w <| w_text ::= fun t => SendHashText t div (HashStr s) s |>.

(** ** Steps without a clock *)

Definition profile_add (st : AnyStep) (c : ctx_t) : ctx_t := c <| Profile ::= c_Add st |>.
Definition profile_add_heavy (st : AnyStep) (c : ctx_t) : ctx_t := c <| Profile ::= c_AddHeavy st |>.
(** [int32(now - ctx.StartTime)] *)
Definition since (now : Z) (c : ctx_t) : Z := int32 (int64 (now - StartTime c)).

Definition addMessage (w : World) (c : ctx_t) (t et : Z) (title v desc : bytes) (cut : nat) (isHeavy : bool)
  : World * ctx_t :=
  let st := NewMessageStep <| ms_StartTime := t |> <| ms_Time := et |> <| ms_Hash := HashStr title |> in
  let st := match v with
            | [] => st
            | _ => match Atoi v with Some n => st <| ms_Value := int32 n |> | None => st end
            end in
  let w := text TEXT_MESSAGE title w in
  let st := if bool_decide (0 < cut) then st <| ms_Desc := Truncate (TrimEmpty desc) cut |> else st <| ms_Desc := desc |> in
  (w, if isHeavy then profile_add_heavy (SMessage st) c else profile_add (SMessage st) c).

(** [MatchQueryString] panics on a parameter without values. *)
Fixpoint query_keys (params : list (bytes * list bytes)) (keys : list bytes) (first : bool) : res bytes :=
  match keys with
  | [] => Ret []
  | key :: keys =>
      match alookup params key with
      | None => query_keys params keys first
      | Some v =>
          text ← (if bool_decide (1 < length v) then Ret (str "=ARRAY") else x ← index_ v 0; Ret (str "=" ++ x));
          rest ← query_keys params keys false;
          Ret ((if first then [] else str "&") ++ key ++ text ++ rest)
      end
  end.
Definition MatchQueryString (serviceName : bytes) (serviceURL : URL) (matchUrls matchKeys : list bytes) : res bytes :=
  if InArray serviceName matchUrls || InArray (u_Path serviceURL) matchUrls then
    match matchKeys with
    | [] => Ret (u_Query serviceURL)
    | _ => query_keys (ParseQuery serviceURL) matchKeys true
    end
  else Ret [].

(** [meter.AddMeterUsers]: [PutLast]. *)
Definition AddMeterUsers (now wClientId : Z) (w : World) : World :=
  if negb (wClientId =? 0)%Z && RealtimeUserEnabled conf
  then w <| w_users ::= fun m => lm_put (lm_remove m wClientId) wClientId now |> else w.

(** ** Start *)

(** The name of the service: normalised, then with the host and the query. *)
Definition start_name (now : Z) (w : World) (c : ctx_t) (url : URL) : World * ctx_t :=
  let path := u_Path url in
  let name := if TraceNormalizeEnabled (urls conf)
              then (ServiceURLPatternDetector.Normalize (urls conf)
                      (ServiceURLPatternDetector.GetInstanceServiceURLPatternDetector (urls conf) now) path).1
              else path in
  let c := c <| ServiceName := name |> <| ServiceHash := HashStr name |> in
  let '(w, c) :=
    if nonempty name && AppContextEnabled conf then
      let '(p, app) := GetContextPath (w_app w) (wrap_u 32 (HashStr path)) path in
      (w <| w_app := app |>, c <| AppCtx := p |>)
    else (w, c) in
  let w := text TEXT_SERVICE name w in
  if negb (HashStr path =? ServiceHash c)%Z then
    let '(w, c) := addMessage w c 0 0 (str "OriginURL") [] path 0 false in (w, c <| OriginURL := path |>)
  else (w, c).
Definition add_host (url : URL) (c : ctx_t) : ctx_t :=
  if ProfileHttpHostEnabled conf && nonempty (u_Host url) then
    let name := if HasPrefix (ServiceName c) (str "/") then str "/" ++ HostPort url ++ ServiceName c
                else str "/" ++ HostPort url ++ str "/" ++ ServiceName c in
    c <| ServiceName := name |> <| ServiceHash := HashStr name |>
  else c.
Definition add_query (normalizeServiceName : bytes) (url : URL) (c : ctx_t) : res ctx_t :=
  if QueryStringEnabled conf then
    qs ← MatchQueryString normalizeServiceName url (QueryStringUrls conf) (QueryStringKeys conf);
    if nonempty qs then
      let name := ServiceName c ++ str "?" ++ qs in Ret (c <| ServiceName := name |> <| ServiceHash := HashStr name |>)
    else Ret c
  else Ret c.
Definition start_domain (url : URL) (w : World) (c : ctx_t) : World * ctx_t :=
  let c := if negb (IsStaticContents c) then c <| IsStaticContents := IsIgnoreTrace conf (ServiceHash c) (ServiceName c) |> else c in
  let c := c <| HttpHost := HostPort url |> <| HttpHostHash := HashStr (HostPort url) |>
             <| HttpMethod ::= fun m => to_upper <$> m |> in
  let w := text TEXT_HTTP_DOMAIN (HostPort url) w in
  if TraceUserAgentEnabled conf then
    (text TEXT_USER_AGENT (UserAgentString c) w, c <| UserAgent := HashStr (UserAgentString c) |>)
  else (w, c).
Definition url_String (u : option URL) : res bytes := match u with Some u => Ret (u_String u) | None => nil_String end.
Definition start_referer (w : World) (c : ctx_t) : res (World * ctx_t) :=
  if TraceRefererEnabled conf then
    r ← url_String (RefererURL c); Ret (text TEXT_REFERER r w, c <| Referer := HashStr r |>)
  else Ret (w, c).

(** [l] is the context's address; [now] what [dateutil] shows. *)
Definition StartTx (now : Z) (w : World) (l : nat) (c : ctx_t) : World * ctx_t :=
  let w := w <| w_service ::= fun m => m <| MeterService.Arrival ::= add64 1 |> |> in
  let url := default (NewURL (str "Unknown")) (ServiceURL c) in
  let c := c <| ServiceURL := Some url |> in
  let '(w, c) := start_name now w c url in
  if InArray (HttpMethod c) (IgnoreHttpMethod conf) then (w, c)
  else
    let normalizeServiceName := ServiceName c in
    match add_query normalizeServiceName url (add_host url c) with
    | Ret c =>
        let '(w, c) := start_domain url w c in
        match start_referer w c with
        | Ret (w, c) =>
            let c := c <| ProfileSeq := Txid c |> in
            let w := text TEXT_SERVICE (ServiceName c) w in
            let w := AddMeterUsers now (WClientId c) w in
            (w <| w_table ::= fun m => lm_put m (Txid c) l |>, c)
        | _ => (w, c)
        end
    | _ => (w, add_host url c)
    end.

(** ** End *)

(** [McallerPoidKey]: project, kind and identity, base 32. *)
Definition parse_poid (c : ctx_t) : ctx_t :=
  let poid := split_at_byte "," (McallerPoidKey c) in
  let num i := ToLong32 (TrimSpace (nth i poid [])) in
  let c := c <| McallerPcode := num 0 |> in
  let c := if bool_decide (1 < length poid) then c <| McallerOkind := int32 (num 1) |> else c in
  if bool_decide (2 < length poid) then c <| McallerOid := int32 (num 2) |> else c.

(** The record of a context, as [EndTx] and the profile sender both build it. *)
Definition tx_of (sec : ParamSecurity.t) (c : ctx_t) : TxRec :=
  NewTxRecord <| x_Txid := ProfileSeq c |> <| x_EndTime := EndTime c |> <| x_Elapsed := TraceContext.Elapsed c |>
    <| x_Service := ServiceHash c |> <| x_IpAddr := RemoteIp c |> <| x_WClientId := WClientId c |>
    <| x_UserAgent := UserAgent c |> <| x_McallerPcode := McallerPcode c |> <| x_McallerOkind := McallerOkind c |>
    <| x_McallerOid := McallerOid c |> <| x_Mtid := Mtid c |> <| x_Mdepth := Mdepth c |>
    <| x_Mcaller := McallerTxid c |> <| x_McallerStepId := McallerStepId c |> <| x_Cipher := ParamSecurity.KeyHash sec |>
    <| x_CpuTime := if (EndCpu c <? 0)%Z then (-1)%Z else int32 (int64 (EndCpu c - StartCpu c)) |>
    <| x_Malloc := if (EndMalloc c <? 0)%Z then (-1)%Z else int64 (EndMalloc c - StartMalloc c) |>
    <| x_SqlCount := SqlCount c |> <| x_SqlTime := SqlTime c |> <| x_SqlFetchCount := RsCount c |>
    <| x_SqlFetchTime := int32 (RsTime c) |> <| x_DbcTime := DbcTime c |> <| x_Error := Error_ c |>
    <| x_ErrorLevel := ErrorLevel c |> <| x_Domain := HttpHostHash c |> <| x_Referer := Referer c |>
    <| x_HttpcCount := HttpcCount c |> <| x_HttpcTime := HttpcTime c |> <| x_Status := Status c |>
    <| x_HttpMethod := if nonempty (HttpMethod c) then WebMethodName (HttpMethod c) else None |>
    <| x_Fields := fields_or_new c |>.

Definition meter_end (tx : TxRec) (c : ctx_t) (w : World) : World * TxRec :=
  let '(m, y) := MeterService.Add (meters conf) (w_service w) (meter_tx tx) (McallerPcode c) (McallerOkind c) (McallerOid c) in
  (w <| w_service := m |>, metered tx y).
Definition SendTransaction (l : nat) (w : World) : World :=
  w <| w_queue ::= fun q => (fun q => q_PutForce q l) <$> q |>.
(** The other meters and statistics of the end. *)
Definition end_stats (c : ctx_t) (tx : TxRec) (w : World) : World :=
  let w := if TxStatusMeterEnabled (meters conf)
           then w <| w_status ::= fun m => MeterStatus.Add (meters conf) m (Status c) (TraceContext.Elapsed c) |> else w in
  let w := if StatTxStatusEnabled conf
           then w <| w_stats ::= fun s => s <| s_status ::= fun m =>
                  StatTranxStatus.Add (statc conf) m (Status c) (ServiceHash c) (TraceContext.Elapsed c) (Error_ c) |> |>
           else w in
  if AppContextEnabled conf then w <| w_app ::= fun a => appctx_EndTx a (AppCtx c) tx |> else w.
(** The times of the agent, and the caller. *)
Definition end_times (wall : Z) (c : ctx_t) : ctx_t :=
  parse_poid (c <| EndTime := wall |> <| StartTime := int64 (wall - TraceContext.Elapsed c) |>).
(** [now] and [wall] are [SystemNow] and [Now]. *)
Definition EndTx (now wall : Z) (w : World) (l : nat) (c : ctx_t) : World * ctx_t :=
  let w := w <| w_table ::= fun m => lm_remove m (Txid c) |> in
  let c := c <| TraceContext.Elapsed := since now c |> in
  if IsStaticContents c then (w, c)
  else
    let c := end_times wall c in
    let tx := (tx_of (w_sec w) c) <| x_OriginUrl := OriginURL c |> in
    let '(c, _) := ExtraFields c in
    let '(w, tx) := meter_end tx c w in
    (SendTransaction l (end_stats c tx w), c).

(** ** Messages *)

Definition ProfileMsg (now : Z) (w : World) (c : ctx_t) (title message : bytes) (elapsed value : Z) : World * ctx_t :=
  let st := NewMessageStep <| ms_StartTime := since now c |> <| ms_Time := elapsed |> <| ms_Hash := HashStr title |>
              <| ms_Value := value |> <| ms_Desc := message |> in
  (text TEXT_MESSAGE title w, profile_add (SMessage st) c).

(** The query parameters that the message does not mention. *)
Fixpoint query_params (message : bytes) (m : list (bytes * list bytes)) : res bytes :=
  match m with
  | [] => Ret []
  | (k, v) :: m =>
      if Contains message k then query_params message m
      else
        line ← (if bool_decide (1 < length v) then Ret (str "=ARRAY") else x ← index_ v 0; Ret (str "=" ++ x));
        rest ← query_params message m;
        Ret (k ++ line ++ ["010"%char] ++ rest)
  end.
(** The message and what it leaves out, encrypted. *)
Definition secure_body (w : World) (c : ctx_t) (title message : bytes) : res (bytes * ascii) :=
  more ← (if bool_decide (title = str "GET Parameter")
          then match ServiceURL c with Some u => query_params message (ParseQuery u) | None => Panic end else Ret []);
  ParamSecurity.toParamBytes (w_sec w) (message ++ more) zero.
Definition with_parameters (c : ctx_t) : bool :=
  ProfileHttpParameterEnabled conf && HasPrefix (ServiceName c) (ProfileHttpParameterUrlPrefix conf).
Definition ProfileSecureMsg (now : Z) (w : World) (c : ctx_t) (title message : bytes) : World * ctx_t :=
  if with_parameters c then
    match secure_body w c title message with
    | Ret (value, crc) =>
        (text TEXT_MESSAGE title w, profile_add (SSecure (mkSecure (since now c) (HashStr title) value crc)) c)
    | _ => (w, c)
    end
  else (w, c).

(** ** Errors *)

Definition ErrorToThr (err : option error) : option ErrorThrowable :=
  (fun e => mkThr (err_type e) (err_text e) []) <$> err.
Definition IsBizException (thr : ErrorThrowable) : bool :=
  EnableBizExceptions_ conf && bool_decide (int32 (HashCode (ErrorClassName thr)) ∈ BizExceptions conf).
Definition IsIgnoreException (thr : ErrorThrowable) : bool :=
  EnableIgnoreExceptions_ conf && bool_decide (int32 (HashCode (ErrorClassName thr)) ∈ IgnoreExceptions conf).

(** [AddError] on the statistics of errors, for the service and the steps given. *)
Definition stat_error (now : Z) (w : World) (thr : ErrorThrowable) (service : Z) (snap : bool) (steps : list AnyStep) : World * Z :=
  let '(e, tx, out, id) :=
    StatError.AddError now (s_error (w_stats w)) (w_text w) thr (ErrorMessage thr) service snap steps 0 0 in
  (w <| w_stats ::= fun s => s <| s_error := e |> |> <| w_text := tx |> <| w_snaps ::= fun l => l ++ out |>, id).
(** The error of the context: a business exception only has another level. *)
Definition record_error (now : Z) (w : World) (c : ctx_t) (thr : ErrorThrowable) : World * ctx_t :=
  let c := c <| Thr := Some thr |> in
  let '(w, id) := stat_error now w thr (ServiceHash c) (ErrorSnapEnabled conf) (c_GetStep4Error (Profile c)) in
  (w, c <| Error_ := id |> <| ErrorLevel := if IsBizException thr then INFO else WARNING |>).
Definition ProfileErrorStep (now : Z) (w : World) (thr : ErrorThrowable) (c : ctx_t) : World * ctx_t :=
  if IsIgnoreException thr then (w, c) else record_error now w c thr.
Definition ProfileError (now : Z) (w : World) (c : option ctx_t) (err : error) : World * option ctx_t :=
  let thr := mkThr (err_type err) (err_text err) [] in
  if IsIgnoreException thr then (w, c)
  else
    match c with
    | None => ((stat_error now w thr 0 false []).1, None)
    | Some c =>
        let st := NewMessageStep <| ms_StartTime := since now c |> <| ms_Hash := HashStr (str "ERROR") |>
                    <| ms_Desc := TrimEmpty (err_type err ++ str "-" ++ err_text err) |> in
        let w := text TEXT_MESSAGE (str "ERROR") w in
        let '(w, c) := record_error now w (profile_add_heavy (SMessage st) c) thr in
        (w, Some c)
    end.
End Api.
