(* ===== verification/TraceSteps.v ===== *)
(** Statements, HTTP calls and methods of a transaction: [Sql.go], [HttpCall.go] and
    [Method.go] of [src/agent/agent/trace/api].

    A call without a context is counted in the statistics only.  A [Start] that
    panics, on an empty cipher key, returns nil, and its [End] does nothing. *)

From S2P Require Import Prelude EscapeSQL Hmap UrlPattern TraceCtx MeterService Meters DataPack DataText.
From S2P Require Import ParsedSql Stat StatError TraceContext TraceApi.

Section Steps.
Context {LMz : LinkedMap Z} {LMi : LinkedMap (Z * Z)} {LMh : LinkedMap StatHttpc.HTTPC}
  {LMm : LinkedMap StatTranxMtCaller.MtraceKEY} {BU : BitUtil} {SU : StringUtil} {SM : StringMore} {TT : TextTypes}
  {RQ : RequestQueue} {CT : CountTable} {PT : PathTree} {HM : MeterService.Pack} {UU : UrlUtil} {PC : IProfileCollector}
  {HX : Hexa32} {AC : AppContext}.
Abbreviation ctx_t := TraceContext.t.
Import TraceContext.

Variable conf : ApiConf.
Variable INFO : Z.

(** A step with an error is added as a heavy one. *)
Definition add_step (err : Z) (st : AnyStep) (c : ctx_t) : ctx_t :=
  if (err =? 0)%Z then profile_add st c else profile_add_heavy st c.
(** The error of a step, if any: recorded in the context, and in the step. *)
Definition step_error (now : Z) (w : World) (c : ctx_t) (err : option error) : World * ctx_t * Z * list Z :=
  match ErrorToThr err with
  | None => (w, c, 0%Z, [])
  | Some thr => let '(w, c) := ProfileErrorStep conf INFO now w thr c in (w, c, Error_ c, ErrorStack thr)
  end.

(** ** Connections *)

Definition StartDBC (w : World) (c : option ctx_t) (startTime : Z) (dbhost : bytes) : World * option ctx_t * DBCStep :=
  let st := NewDBCStep <| db_Hash := HashStr dbhost |> in
  let w := text TEXT_METHOD dbhost (text TEXT_DB_URL dbhost w) in
  match c with
  | None => (w, None, st)
  | Some c => (w, Some (c <| ActiveDbc := db_Hash st |>), st <| db_StartTime := since startTime c |>)
  end.
Definition EndDBC (now : Z) (w : World) (c : option ctx_t) (st : option DBCStep) (elapsed : Z) (err : option error)
  : World * option ctx_t :=
  match c, st with
  | Some c, Some st =>
      let st := st <| db_Elapsed := elapsed |> in
      let '(w, c, st) :=
        match ErrorToThr err with
        | None => (w, c, st)
        | Some thr =>
            let '(w, c) := ProfileErrorStep conf INFO now w thr c in
            let msg := Truncate (TrimEmpty (ErrorMessage thr)) 200 in
            (text TEXT_ERROR msg w, c, st <| db_Error := HashStr msg |>)
        end in
      let c := c <| DbcTime ::= fun n => int32 (n + db_Elapsed st) |> <| ActiveDbc := 0%Z |> in
      (w, Some (add_step (db_Error st) (SDbc st) c))
  | _, _ => (w, c)
  end.

(** ** Statements *)

Definition xtype_of (p : ParsedSql) : xtype :=
  match ptype p with
  | "S"%char => SQL_XTYPE_METHOD_QUERY
  | "U"%char => SQL_XTYPE_METHOD_UPDATE
  | _ => SQL_XTYPE_METHOD_EXECUTE
  end.
(** [EscapeLiteral] on the state. *)
Definition escape (w : World) (sql : bytes) : res (World * ParsedSql) :=
  '(p, cs, tx) ← EscapeLiteral (sqls conf) (w_sqls w) (w_text w) sql;
  Ret (w <| w_sqls := cs |> <| w_text := tx |>, p).
(** The literals and the bind values, encrypted; one checksum of both. *)
Definition sql_params (w : World) (p : ParsedSql) (sqlParam : bytes) (st : SqlStepX) : res SqlStepX :=
  if ProfileSqlParamEnabled conf then
    '(p1, crc) ← ParamSecurity.toParamBytes (w_sec w) (pparam p) zero;
    '(p2, crc) ← ParamSecurity.toParamBytes (w_sec w) sqlParam crc;
    Ret (st <| sq_P1 := p1 |> <| sq_P2 := p2 |> <| sq_Pcrc := crc |>)
  else Ret st.
(** The world at a panic is the one before the call that panics. *)
Definition StartSql (w : World) (c : option ctx_t) (startTime : Z) (dbhost sql sqlParam : bytes)
  : World * option ctx_t * option SqlStepX :=
  let st := NewSqlStepX <| sq_Dbc := HashStr dbhost |> in
  let w := text TEXT_DB_URL dbhost w in
  match escape w sql with
  | Ret (w, p) =>
      let st := st <| sq_Hash := psql p |> <| sq_Xtype := xtype_of p |> in
      match sql_params w p sqlParam st with
      | Ret st =>
          match c with
          | None => (w, None, Some st)
          | Some c => (w, Some (c <| ActiveSqlhash := sq_Hash st |>), Some (st <| sq_StartTime := since startTime c |>))
          end
      | _ => (w, c, None)
      end
  | _ => (w, c, None)
  end.

Definition stat_sql (service : Z) (st : SqlStepX) (isErr : bool) (w : World) : World :=
  w <| w_stats ::= fun s => s <| s_sql ::= fun m =>
    StatSql.AddSqlTime m service (sq_Dbc st) (sq_Hash st) (sq_Elapsed st) isErr |> |>.
(** Without a context. *)
Definition sql_alone (now : Z) (w : World) (st : SqlStepX) (err : option error) : World :=
  match ErrorToThr err with
  | Some thr => (stat_error now (stat_sql 0 st true w) thr 0 false []).1
  | None => stat_sql 0 st false w
  end.
(** The end of a statement in a transaction: its resources; counted; as a whole. *)
Definition sql_resources (cpu mem : Z) (c : ctx_t) (st : SqlStepX) : SqlStepX :=
  if ProfileSqlResourceEnabled conf
  then st <| sq_StartCpu := int32 (int64 (cpu - StartCpu c)) |> <| sq_StartMem := int64 (mem - StartMalloc c) |>
  else st.
Definition sql_counted (w : World) (c : ctx_t) (st : SqlStepX) : World * ctx_t :=
  let e := sq_Error st in
  let c := c <| ExecutedSqlhash := ActiveSqlhash c |> <| ActiveSqlhash := 0%Z |> <| ActiveDbc := 0%Z |>
             <| SqlCount ::= inc32 |> <| SqlTime ::= fun n => int32 (n + sq_Elapsed st) |> in
  let w := w <| w_sql ::= fun m => MeterSQL.Add (meters conf) m (sq_Dbc st) (sq_Elapsed st) (negb (e =? 0)%Z) |> in
  let w := stat_sql (ServiceHash c) st (negb (e =? 0)%Z) w in
  (w, add_step e (SSql st) c).
Definition sql_done (now : Z) (w : World) (c : ctx_t) (st : SqlStepX) (cpu mem : Z) (err : option error)
  : World * ctx_t :=
  let st := sql_resources cpu mem c st in
  let '(w, c, e, stack) := step_error now w c err in
  sql_counted w c (st <| sq_Error := e |> <| sq_Stack := stack |>).
Definition EndSql (now : Z) (w : World) (c : option ctx_t) (st : option SqlStepX) (elapsed cpu mem : Z) (err : option error)
  : World * option ctx_t :=
  match st with
  | None => (w, c)
  | Some st =>
      let st := st <| sq_Elapsed := elapsed |> in
      match c with
      | None => (sql_alone now w st err, None)
      | Some c => let '(w, c) := sql_done now w c st cpu mem err in (w, Some c)
      end
  end.
Definition ProfileSql (now : Z) (w : World) (c : option ctx_t) (startTime : Z) (dbhost sql sqlParam : bytes)
    (elapsed cpu mem : Z) (err : option error) : World * option ctx_t :=
  let '(w, c, st) := StartSql w c startTime dbhost sql sqlParam in EndSql now w c st elapsed cpu mem err.
Definition ProfileSql1 (now : Z) (w : World) (c : option ctx_t) (startTime : Z) (dbhost sql sqlParam : bytes)
    (elapsed cpu mem : Z) (err : option error) : World * option ctx_t :=
  let st := NewSqlStepX <| sq_Dbc := HashStr dbhost |> <| sq_Elapsed := elapsed |> in
  let w := text TEXT_DB_URL dbhost w in
  match escape w sql with
  | Ret (w, p) =>
      let st := st <| sq_Hash := psql p |> <| sq_Xtype := xtype_of p |> in
      match c with
      | None => (sql_alone now w st err, None)
      | Some c =>
          let st := st <| sq_StartTime := since startTime c |> in
          match sql_params w p sqlParam st with
          | Ret st => let '(w, c) := sql_done now w c st cpu mem err in (w, Some c)
          | _ => (w, Some c)
          end
      end
  | _ => (w, c)
  end.

(** ** HTTP calls *)

(** The normalised URL, its host and port. *)
Definition httpc_of_url (w : World) (u : URL) : World * HttpcStepX * bytes * bytes :=
  let '(nUrl, d) := URLPatternDetector.Normalize (urls conf) (w_urls w) (u_Path u) in
  (w <| w_urls := d |>,
   NewHttpcStepX <| hc_Url := HashStr nUrl |> <| hc_Host := HashStr (u_Host u) |> <| hc_Port := int32 (u_Port u) |>,
   nUrl, u_Host u).
Definition httpc_of (w : World) (url : bytes) : World * HttpcStepX * bytes * bytes := httpc_of_url w (NewURL url).
Definition httpc_text (nUrl host : bytes) (w : World) : World := text TEXT_HTTPC_HOST host (text TEXT_HTTPC_URL nUrl w).
Definition StartHttpc (w : World) (c : option ctx_t) (startTime : Z) (url : bytes) : World * option ctx_t * HttpcStepX :=
  let '(w, st, nUrl, host) := httpc_of w url in
  let '(c, st) := match c with
                  | None => (None, st)
                  | Some c => (Some (c <| ActiveHttpcHash := hc_Url st |>), st <| hc_StartTime := since startTime c |>)
                  end in
  (httpc_text nUrl host w, c, st).

Definition stat_httpc (service : Z) (st : HttpcStepX) (isErr : bool) (w : World) : World :=
  w <| w_stats ::= fun s => s <| s_httpc ::= fun m =>
    StatHttpc.AddHttpcTime m service (hc_Url st) (hc_Host st) (hc_Port st) (hc_Elapsed st) isErr |> |>.
Definition httpc_alone (now : Z) (w : World) (st : HttpcStepX) (err : option error) : World :=
  match ErrorToThr err with
  | Some thr => (stat_error now (stat_httpc 0 st true w) thr 0 false []).1
  | None => stat_httpc 0 st false w
  end.
Definition httpc_resources (cpu mem : Z) (c : ctx_t) (st : HttpcStepX) : HttpcStepX :=
  if ProfileHttpcResourceEnabled conf
  then st <| hc_StartCpu := int32 (int64 (cpu - StartCpu c)) |> <| hc_StartMem := int64 (mem - StartMalloc c) |>
  else st.
(** [clear]: [EndHttpc] also resets the active call. *)
Definition httpc_counted (clear : bool) (w : World) (c : ctx_t) (st : HttpcStepX) : World * ctx_t :=
  let e := hc_Error st in
  let c := c <| HttpcCount ::= inc32 |> <| HttpcTime ::= fun n => int32 (n + hc_Elapsed st) |> in
  let c := if clear then c <| ActiveHttpcHash := 0%Z |> else c in
  let w := w <| w_httpc ::= fun m => MeterHTTPC.Add (meters conf) m (hc_Host st) (hc_Elapsed st) (negb (e =? 0)%Z) |> in
  let w := stat_httpc (ServiceHash c) st (negb (e =? 0)%Z) w in
  (w, add_step e (SHttpc st) c).
Definition httpc_done (clear : bool) (now : Z) (w : World) (c : ctx_t) (st : HttpcStepX) (cpu mem : Z) (err : option error)
  : World * ctx_t :=
  let st := httpc_resources cpu mem c st in
  let '(w, c, e, stack) := step_error now w c err in
  httpc_counted clear w c (st <| hc_Error := e |> <| hc_Stack := stack |>).
Definition EndHttpc (now : Z) (w : World) (c : option ctx_t) (st : option HttpcStepX) (elapsed cpu mem stepId : Z)
    (err : option error) : World * option ctx_t :=
  match st with
  | None => (w, c)
  | Some st =>
      let st := st <| hc_Elapsed := elapsed |> <| hc_StepId := stepId |> in
      match c with
      | None => (httpc_alone now w st err, None)
      | Some c => let '(w, c) := httpc_done true now w c st cpu mem err in (w, Some c)
      end
  end.
Definition ProfileHttpc (now : Z) (w : World) (c : option ctx_t) (startTime : Z) (url : bytes)
    (elapsed cpu mem mcallee : Z) (err : option error) : World * option ctx_t :=
  let '(w, c, st) := StartHttpc w c startTime url in EndHttpc now w c (Some st) elapsed cpu mem mcallee err.
Definition ProfileHttpc1 (now : Z) (w : World) (c : option ctx_t) (startTime : Z) (url : bytes)
    (elapsed cpu mem stepId : Z) (err : option error) : World * option ctx_t :=
  let '(w, st, nUrl, host) := httpc_of w url in
  let st := st <| hc_Elapsed := elapsed |> <| hc_StepId := stepId |> in
  let w := httpc_text nUrl host w in
  match c with
  | None => (httpc_alone now w st err, None)
  | Some c =>
      let st := st <| hc_StartTime := since startTime c |> in
      let '(w, c) := httpc_done false now w c st cpu mem err in (w, Some c)
  end.

(** ** Methods *)

(** [stackToArray]: the first frames, for PHP in their order, reversed otherwise; a
    negative depth cannot be the length of a slice. *)
Definition StackToArray (w : World) (s : bytes) : res (World * list Z) :=
  let se := Tokenizer s ["010"%char] in
  let max := Z.min (Z.of_nat (length se)) (TraceErrorCallstackDepth conf) in
  if (max <? 0)%Z then Panic
  else
    let frames := take (Z.to_nat max) se in
    let frames := if EscapeLiteralSQL.php (sql_app (sqls conf)) then frames else reverse frames in
    Ret (foldl (fun w f => text TEXT_STACK_ELEMENTS f w) w frames, HashStr <$> frames).
Definition StartMethod (w : World) (c : option ctx_t) (startTime : Z) (method : bytes) : World * MethodStepX :=
  let method := if HasSuffix method (str ")") then method else method ++ str "()" in
  let st := NewMethodStepX <| mt_Hash := HashStr method |> in
  (text TEXT_METHOD method w,
   match c with None => st | Some c => st <| mt_StartTime := since startTime c |> end).
Definition method_resources (cpu mem : Z) (c : ctx_t) (st : MethodStepX) : MethodStepX :=
  if ProfileMethodResourceEnabled conf
  then st <| mt_res := true |> <| mt_StartCpu := int32 (int64 (cpu - StartCpu c)) |>
         <| mt_StartMem := int32 (int64 (mem - StartMalloc c)) |>
  else st.
Definition EndMethod (w : World) (c : option ctx_t) (st : option MethodStepX) (methodStack : bytes) (elapsed cpu mem : Z)
  : World * option ctx_t :=
  match c, st with
  | Some c, Some st =>
      let st := st <| mt_Elapsed := elapsed |> in
      let stack :=
        if nonempty methodStack then
          '(w, stack) ← StackToArray w methodStack; Ret (w, st <| mt_stk := true |> <| mt_Stack := stack |>)
        else Ret (w, st) in
      match stack with
      | Ret (w, st) =>
          (w, Some (profile_add (SMethod (method_resources cpu mem c st)) c))
      | _ => (w, Some c)
      end
  | _, _ => (w, c)
  end.
Definition ProfileMethod (w : World) (c : option ctx_t) (startTime : Z) (method methodStack : bytes) (elapsed cpu mem : Z)
  : World * option ctx_t :=
  let '(w, st) := StartMethod w c startTime method in EndMethod w c (Some st) methodStack elapsed cpu mem.
End Steps.
