(* ===== verification/TraceSamples.v ===== *)
(** Concrete values of what the transaction code gets from elsewhere: parsed URLs, a
    collector, tables, a configuration and the state of the components at the start of
    an agent.  The witnesses compute with them. *)

From S2P Require Import Prelude Hmap UrlPattern TraceCtx TraceCtxFacts MeterService MeterServiceFacts Meters.
From S2P Require Import DataPack DataText ParsedSql Stat StatError StatFacts TraceContext TraceApi.

#[export] Existing Instance StatHttpc.HTTPC_dec.
#[export] Existing Instance StatTranxMtCaller.MtraceKEY_dec.
#[export] Instance lmap_z : LinkedMap Z := ListMap.list_map.
#[export] Instance lmap_z_laws : LinkedMapLaws Z lmap_z := ListMap.list_map_laws.
#[export] Instance lmap_zz : LinkedMap (Z * Z) := ListMap.list_map.
#[export] Instance lmap_httpc : LinkedMap StatHttpc.HTTPC := ListMap.list_map.
#[export] Instance lmap_mtrace : LinkedMap StatTranxMtCaller.MtraceKEY := ListMap.list_map.
#[export] Existing Instance ListQueue.list_queue.
#[export] Existing Instance ListQueue.list_queue_laws.
#[export] Existing Instance strings1.
#[export] Existing Instance types1.
#[export] Existing Instance hexa1.
#[export] Existing Instance pack1.
#[export] Existing Instance tree1.
#[export] Existing Instance bits1.

(** A URL is its text: the host up to the first slash, the path from it on, the query
    after the question mark. *)
Definition is_slash (c : ascii) : bool := bool_decide (c = "/"%char).
Definition cut_at (c : ascii) (s : bytes) : bytes * bytes :=
  match split_at_byte c s with [] => ([], []) | x :: rest => (x, concat rest) end.
#[export] Instance url1 : UrlUtil := {|
  URL := bytes;
  NewURL s := s;
  u_Path s := drop (length (cut_at "/" s).1) (cut_at "?" s).1;
  u_Host s := (cut_at "/" s).1;
  u_Port _ := 80%Z;
  u_Query s := (cut_at "?" s).2;
  HostPort s := (cut_at "/" s).1;
  u_String s := s;
  u_Domain s := (cut_at "/" s).1;
  u_DomainPath s := (cut_at "?" s).1;
  ParseQuery s := (fun kv => let '(k, v) := cut_at "=" kv in (k, [v])) <$> split_at_byte "&" (cut_at "?" s).2
|}.
#[export] Instance more1 : StringMore := {|
  InArray s l := bool_decide (s ∈ l);
  Truncate s n := take n s;
  ToPair s sep := match sep with [c] => cut_at c s | _ => (s, []) end
|}.
(** A collector that keeps every step. *)
#[export] Instance keep1 : IProfileCollector := {|
  collector := list AnyStep;
  NewProfileCollector _ := [];
  c_Add st l := l ++ [st];
  c_AddHeavy st l := l ++ [st];
  c_GetSteps l := l;
  c_GetStep4Error l := l;
  c_GetSplitCount _ := 0%Z
|}.
#[export] Instance table1 : CountTable := {|
  ctable := list (Z * Z);
  NewCountTable := [];
  AddNoOver m k n :=
    match alookup m k with Some _ => awrite m k (fun _ => (default 0 (alookup m k) + n)%Z) | None => m ++ [(k, n)] end;
  ct_size := length
|}.
(** The context path is the first part of the path; its transactions are counted. *)
#[export] Instance app1 : AppContext := {|
  appctx := list bytes;
  GetContextPath l _ path := ((cut_at "/" (drop 1 path)).1, l);
  appctx_EndTx l p _ := l ++ [p]
|}.

Definition apiconf1 : ApiConf := {|
  meters := Meters.conf1; urls := conf2; sqls := sqlconf1; statc := stconf1;
  InternalTraceCollectingMode := 1;
  AppContextEnabled := true; IgnoreHttpMethod := [str "TRACE"]; ProfileHttpHostEnabled := false;
  QueryStringEnabled := false; QueryStringUrls := []; QueryStringKeys := [];
  TraceIgnoreUrlSet := None; IsTraceIgnoreUrlPrefix := false; TraceIgnoreUrlPrefix := [];
  TraceUserAgentEnabled := true; TraceRefererEnabled := false; RealtimeUserEnabled := true;
  StatTxStatusEnabled := true; ProfileHttpParameterEnabled := true; ProfileHttpParameterUrlPrefix := str "/";
  ErrorSnapEnabled := false; EnableBizExceptions_ := false; BizExceptions := [];
  EnableIgnoreExceptions_ := false; IgnoreExceptions := [];
  ProfileSqlParamEnabled := true; ProfileSqlResourceEnabled := false; ProfileHttpcResourceEnabled := false;
  ProfileMethodResourceEnabled := false;
  TraceDaemonEnabled := true; TraceDaemonUrls := []; TraceCLIEnabled := true; TraceUserEnabled := true;
  ProfileHttpHeaderIgnoreKeys := []; TraceErrorCallstackDepth := 20; app_type_go := true;
  TxTextTxnameEnabled := false; TxTextErrorEnabled := false; TxTextErrorLength := 20;
  StatIPURLEnabled := true; StatLoginEnabled := true; StatDomainEnabled := true; StatRefererEnabled := true;
  StatRefererFormat := 0; StatMtraceEnabled := true; ProfileBasetime := 500; TraceZipEnabled := false; conf_TextReset := 0
|}.
Definition world1 : World :=
  mkWorld MeterService.newMeterService MeterStatus.newMeterStatus MeterSQL.newMeterSQL MeterHTTPC.newMeterHTTPC
    (lm_new 7000) (new_stats stconf1 0) (initial 10 0 0) [] newSqlCaches URLPatternDetector.new_detector
    (ParamSecurity.mk (str "WHATAP") 77) [] (lm_new 0) (Some (NewRequestQueue 100)).
Definition ctx1 : TraceContext.t := (TraceContext.NewTraceContext 1) <| TraceContext.ServiceHash := 7%Z |>.
