(* ===== verification/TraceStepsFacts.v ===== *)
(** The two ways of recording a statement or an HTTP call agree, and the transaction,
    the meters and the statistics count the same calls. *)

From S2P Require Import Prelude Hmap Accumulator UrlPattern TraceCtx MeterService Meters DataPack DataText.
From S2P Require Import ParsedSql Stat StatError TraceContext TraceApi TraceSteps TraceSamples.

Section Facts.
Context {LMz : LinkedMap Z} {LMi : LinkedMap (Z * Z)} {LMh : LinkedMap StatHttpc.HTTPC}
  {LMm : LinkedMap StatTranxMtCaller.MtraceKEY} {BU : BitUtil} {SU : StringUtil} {SM : StringMore} {TT : TextTypes}
  {RQ : RequestQueue} {CT : CountTable} {PT : PathTree} {HM : MeterService.Pack} {UU : UrlUtil} {PC : IProfileCollector}
  {HX : Hexa32} {AC : AppContext}.
Abbreviation ctx_t := TraceContext.t.
Import TraceContext.
Variable conf : ApiConf.
Variable INFO : Z.

Lemma toParamBytes_returns (s : ParamSecurity.t) p crc :
  ParamSecurity.key s <> [] -> exists r, ParamSecurity.toParamBytes s p crc = Ret r.
Proof.
  intros Hk. destruct p as [|x p]; [by eexists|].
  destruct (Encrypt_roundtrip s (x :: p) crc Hk) as (e & crc' & H & _). by eexists.
Qed.
(** The active statement and the active call play no part but to be remembered. *)
Lemma step_error_active now w c h err :
  step_error conf INFO now w (c <| ActiveSqlhash := h |>) err =
    let '(w', c', e, st) := step_error conf INFO now w c err in (w', c' <| ActiveSqlhash := h |>, e, st).
Proof.
  unfold step_error. destruct (ErrorToThr err) as [thr|]; [|done]. unfold ProfileErrorStep.
  destruct (IsIgnoreException conf thr); [done|]. unfold record_error.
  cbv zeta. simpl TraceContext.ServiceHash. simpl TraceContext.Profile.
  destruct (stat_error _ _ _ _ _ _) as [w' id]. reflexivity.
Qed.
Lemma step_error_httpc now w c h err :
  step_error conf INFO now w (c <| ActiveHttpcHash := h |>) err =
    let '(w', c', e, st) := step_error conf INFO now w c err in (w', c' <| ActiveHttpcHash := h |>, e, st).
Proof.
  unfold step_error. destruct (ErrorToThr err) as [thr|]; [|done]. unfold ProfileErrorStep.
  destruct (IsIgnoreException conf thr); [done|]. unfold record_error.
  cbv zeta. simpl TraceContext.ServiceHash. simpl TraceContext.Profile.
  destruct (stat_error _ _ _ _ _ _) as [w' id]. reflexivity.
Qed.
Lemma sql_done_active now w c h st cpu mem err :
  sql_done conf INFO now w (c <| ActiveSqlhash := h |>) st cpu mem err =
    let '(w', c') := sql_done conf INFO now w c st cpu mem err in (w', c' <| ExecutedSqlhash := h |>).
Proof.
  unfold sql_done, sql_resources. rewrite step_error_active. simpl StartCpu. simpl StartMalloc.
  destruct (step_error _ _ _ _ _ _) as [[[w' c'] e] stack]. unfold sql_counted, add_step. simpl sq_Error.
  destruct (ProfileSqlResourceEnabled conf), (e =? 0)%Z; reflexivity.
Qed.
Lemma httpc_done_active now w c h st cpu mem err :
  httpc_done conf INFO true now w (c <| ActiveHttpcHash := h |>) st cpu mem err =
    let '(w', c') := httpc_done conf INFO false now w c st cpu mem err in (w', c' <| ActiveHttpcHash := 0%Z |>).
Proof.
  unfold httpc_done, httpc_resources. rewrite step_error_httpc. simpl StartCpu. simpl StartMalloc.
  destruct (step_error _ _ _ _ _ _) as [[[w' c'] e] stack]. unfold httpc_counted, add_step. simpl hc_Error.
  destruct (ProfileHttpcResourceEnabled conf), (e =? 0)%Z; reflexivity.
Qed.

(** The parameters as encrypted, nothing if they are not collected. *)
Definition param_bytes (w : World) (p : ParsedSql) (bind : bytes) : bytes * bytes * ascii :=
  match sql_params conf w p bind NewSqlStepX with
  | Ret st => (sq_P1 st, sq_P2 st, sq_Pcrc st)
  | _ => ([], [], zero)
  end.
(** The step of a statement before its end. *)
Definition sql_step (w : World) (p : ParsedSql) (dbhost bind : bytes) (elapsed start : Z) : SqlStepX :=
  let '(p1, p2, crc) := param_bytes w p bind in
  mkSql start elapsed (HashStr dbhost) (psql p) (xtype_of p) p1 p2 crc 0 0 0 [].
Lemma sql_params_step w p dbhost bind elapsed start st :
  ParamSecurity.key (w_sec w) <> [] ->
  st = mkSql start elapsed (HashStr dbhost) (psql p) (xtype_of p) [] [] zero 0 0 0 [] ->
  sql_params conf w p bind st = Ret (sql_step w p dbhost bind elapsed start).
Proof.
  intros Hk ->. unfold sql_step, param_bytes, sql_params. destruct (ProfileSqlParamEnabled conf); [|done].
  destruct (toParamBytes_returns (w_sec w) (pparam p) zero Hk) as [[p1 c1] E1].
  destruct (toParamBytes_returns (w_sec w) bind c1 Hk) as [[p2 c2] E2].
  rewrite E1. simpl. by rewrite E2.
Qed.
Lemma escape_sec w0 w p sql : escape conf w0 sql = Ret (w, p) -> w_sec w = w_sec w0.
Proof. unfold escape. destruct (EscapeLiteral _ _ _ _) as [[[p' cs] tx]| |]; simpl; [|done..]. by intros [= <- _]. Qed.

(** What both do. *)
Definition profile_sql (remember : ParsedSql -> ctx_t -> ctx_t) (now : Z) (w : World) (c : option ctx_t) (startTime : Z)
    (dbhost sql bind : bytes) (elapsed cpu mem : Z) (err : option error) : World * option ctx_t :=
  match escape conf (text TEXT_DB_URL dbhost w) sql with
  | Ret (w, p) =>
      match c with
      | None => (sql_alone now w (sql_step w p dbhost bind elapsed 0) err, None)
      | Some c =>
          let '(w', c') := sql_done conf INFO now w c (sql_step w p dbhost bind elapsed (since startTime c)) cpu mem err in
          (w', Some (remember p c'))
      end
  | _ => (text TEXT_DB_URL dbhost w, c)
  end.
Lemma ProfileSql_eq now w c startTime dbhost sql bind elapsed cpu mem err :
  ParamSecurity.key (w_sec w) <> [] ->
  ProfileSql conf INFO now w c startTime dbhost sql bind elapsed cpu mem err =
    profile_sql (fun p c => c <| ExecutedSqlhash := psql p |>) now w c startTime dbhost sql bind elapsed cpu mem err.
Proof.
  intros Hk. unfold ProfileSql, profile_sql, StartSql. set (w0 := text TEXT_DB_URL dbhost w).
  change (w_sec w) with (w_sec w0) in Hk. clearbody w0.
  destruct (escape conf w0 sql) as [[w1 p]| |] eqn:E; [|done..]. rewrite <- (escape_sec _ _ _ _ E) in Hk.
  rewrite (sql_params_step w1 p dbhost bind 0 0) by done. unfold EndSql, sql_step.
  destruct (param_bytes w1 p bind) as [[p1 p2] crc]. destruct c as [c|]; [|done].
  rewrite sql_done_active. cbn -[sql_done]. by destruct (sql_done _ _ _ _ _ _ _ _ _).
Qed.
Lemma ProfileSql1_eq now w c startTime dbhost sql bind elapsed cpu mem err :
  ParamSecurity.key (w_sec w) <> [] ->
  ProfileSql1 conf INFO now w c startTime dbhost sql bind elapsed cpu mem err =
    profile_sql (fun _ c => c) now w c startTime dbhost sql bind elapsed cpu mem err.
Proof.
  intros Hk. unfold ProfileSql1, profile_sql. set (w0 := text TEXT_DB_URL dbhost w).
  change (w_sec w) with (w_sec w0) in Hk. clearbody w0.
  destruct (escape conf w0 sql) as [[w1 p]| |] eqn:E; [|done..]. rewrite <- (escape_sec _ _ _ _ E) in Hk.
  destruct c as [c|].
  - by rewrite (sql_params_step w1 p dbhost bind elapsed (since startTime c)).
  - unfold sql_alone, stat_sql, sql_step. destruct (param_bytes w1 p bind) as [[p1 p2] crc]. done.
Qed.

(** [ProfileSql], which starts and ends a statement, and [ProfileSql1], which does both
    at once, do the same to every component, the profile included, whatever the
    statement, its parameters and its error, with or without a transaction; only the
    hash of the executed statement in the context differs: the first remembers this
    statement, the second the one that was active before. *)
Theorem ProfileSql_same now w c startTime dbhost sql bind elapsed cpu mem err :
  ParamSecurity.key (w_sec w) <> [] ->
  let '(w1, c1) := ProfileSql conf INFO now w c startTime dbhost sql bind elapsed cpu mem err in
  let '(w2, c2) := ProfileSql1 conf INFO now w c startTime dbhost sql bind elapsed cpu mem err in
  w1 = w2 /\
  match c1, c2 with
  | None, None => c = None
  | Some c1, Some c2 => c1 = c2 <| ExecutedSqlhash := ExecutedSqlhash c1 |>
  | _, _ => False
  end.
Proof.
  intros Hk. rewrite ProfileSql_eq, ProfileSql1_eq by done. unfold profile_sql.
  destruct (escape _ _ _) as [[w1 p]| |]; [|by destruct c as [[]|]..]. destruct c as [c|]; [|done].
  by destruct (sql_done _ _ _ _ _ _ _ _ _) as [w2 c2].
Qed.
(** The same holds of the HTTP calls: only the second leaves the active call as it was. *)
Lemma ProfileHttpc_same now w c startTime url elapsed cpu mem stepId err :
  let '(w1, c1) := ProfileHttpc conf INFO now w c startTime url elapsed cpu mem stepId err in
  let '(w2, c2) := ProfileHttpc1 conf INFO now w c startTime url elapsed cpu mem stepId err in
  w1 = w2 /\ c1 = (fun c => c <| ActiveHttpcHash := 0%Z |>) <$> c2.
Proof.
  unfold ProfileHttpc, ProfileHttpc1, StartHttpc, EndHttpc.
  destruct (httpc_of conf w url) as [[[w1 st] nUrl] host]. destruct c as [c|]; [|done].
  cbv beta iota zeta. rewrite httpc_done_active. cbn -[httpc_done]. by destruct (httpc_done _ _ _ _ _ _ _ _ _ _).
Qed.

(** * One account of the calls *)

(** What the calls of a transaction change in it, in the meters and in the statistics. *)
Record account := mkAccount {
  a_SqlCount : Z; a_SqlTime : Z; a_HttpcCount : Z; a_HttpcTime : Z; a_DbcTime : Z;
  a_msql : MeterSQL.t; a_mhttpc : MeterHTTPC.t; a_ssql : StatSql.t; a_shttpc : StatHttpc.t
}.
Definition account_of (s : World * ctx_t) : account :=
  let '(w, c) := s in
  mkAccount (SqlCount c) (SqlTime c) (HttpcCount c) (HttpcTime c) (DbcTime c)
    (w_sql w) (w_httpc w) (s_sql (w_stats w)) (s_httpc (w_stats w)).
(** A statement: connection, hash, time, error; an HTTP call: URL, host, port, time, error. *)
Record sqlS := mkSqlS { d_dbc : Z; d_hash : Z; d_time : Z; d_err : bool }.
Record httpcS := mkHttpcS { h_url : Z; h_host : Z; h_port : Z; h_time : Z; h_err : bool }.
Inductive sample := SampleSql (s : sqlS) | SampleHttpc (h : httpcS) | SampleDbc (time : Z).
Definition count_sample (service : Z) (a : account) (x : sample) : account :=
  match x with
  | SampleSql s =>
      a <| a_SqlCount ::= inc32 |> <| a_SqlTime ::= fun n => int32 (n + d_time s) |>
        <| a_msql ::= fun m => MeterSQL.Add (meters conf) m (d_dbc s) (d_time s) (d_err s) |>
        <| a_ssql ::= fun m => StatSql.AddSqlTime m service (d_dbc s) (d_hash s) (d_time s) (d_err s) |>
  | SampleHttpc h =>
      a <| a_HttpcCount ::= inc32 |> <| a_HttpcTime ::= fun n => int32 (n + h_time h) |>
        <| a_mhttpc ::= fun m => MeterHTTPC.Add (meters conf) m (h_host h) (h_time h) (h_err h) |>
        <| a_shttpc ::= fun m => StatHttpc.AddHttpcTime m service (h_url h) (h_host h) (h_port h) (h_time h) (h_err h) |>
  | SampleDbc t => a <| a_DbcTime ::= fun n => int32 (n + t) |>
  end.

(** What stays as it is: the service, the key, and what is not counted. *)
Definition quiet (s s' : World * ctx_t) : Prop :=
  account_of s' = account_of s /\ ServiceHash s'.2 = ServiceHash s.2 /\ w_sec s'.1 = w_sec s.1.
Lemma quiet_trans s1 s2 s3 : quiet s1 s2 -> quiet s2 s3 -> quiet s1 s3.
Proof. unfold quiet. intros (-> & -> & ->) (-> & -> & ->). done. Qed.
Lemma quiet_text div t w c : quiet (w, c) (text div t w, c).
Proof. done. Qed.
Lemma quiet_ProfileErrorStep now w c thr : let '(w', c') := ProfileErrorStep conf INFO now w thr c in quiet (w, c) (w', c').
Proof.
  unfold ProfileErrorStep. destruct (IsIgnoreException conf thr); [done|]. unfold record_error, stat_error.
  cbv zeta. by destruct (StatError.AddError _ _ _ _ _ _ _ _ _ _) as [[[e tx] out] id].
Qed.
Lemma quiet_step_error now w c err :
  let '(w', c', e, _) := step_error conf INFO now w c err in quiet (w, c) (w', c') /\ (err = None -> e = 0%Z).
Proof.
  unfold step_error, ErrorToThr. destruct err as [er|]; simpl; [|done].
  pose proof (quiet_ProfileErrorStep now w c (mkThr (err_type er) (err_text er) [])) as H.
  destruct (ProfileErrorStep _ _ _ _ _ _) as [w' c']. by split.
Qed.
Lemma quiet_add_step e st w c : quiet (w, c) (w, add_step e st c).
Proof. unfold add_step. by destruct (e =? 0)%Z. Qed.

(** [x] counts, the rest is quiet. *)
Definition counts (x : sample) (s s' : World * ctx_t) : Prop :=
  account_of s' = count_sample (ServiceHash s.2) (account_of s) x /\ ServiceHash s'.2 = ServiceHash s.2 /\
  w_sec s'.1 = w_sec s.1.
Lemma quiet_counts x s1 s2 s3 : quiet s1 s2 -> counts x s2 s3 -> counts x s1 s3.
Proof. unfold quiet, counts. intros (-> & -> & ->) (-> & -> & ->). done. Qed.
Lemma counts_quiet x s1 s2 s3 : counts x s1 s2 -> quiet s2 s3 -> counts x s1 s3.
Proof. unfold quiet, counts. intros (-> & -> & ->) (-> & -> & ->). done. Qed.

Lemma sql_done_counts now w c st cpu mem err :
  exists e, counts (SampleSql (mkSqlS (sq_Dbc st) (sq_Hash st) (sq_Elapsed st) e)) (w, c)
              (sql_done conf INFO now w c st cpu mem err) /\ (err = None -> e = false).
Proof.
  unfold sql_done. pose proof (quiet_step_error now w c err) as Hq.
  destruct (step_error _ _ _ _ _ _) as [[[w' c'] e] stack]. destruct Hq as [Hq He].
  exists (negb (e =? 0)%Z). split; [|intros Hn; by rewrite (He Hn)].
  eapply quiet_counts; [exact Hq|]. eapply counts_quiet; [|apply quiet_add_step].
  split; [|done]. unfold sql_resources. by destruct (ProfileSqlResourceEnabled conf).
Qed.
Lemma httpc_done_counts clear now w c st cpu mem err :
  exists e, counts (SampleHttpc (mkHttpcS (hc_Url st) (hc_Host st) (hc_Port st) (hc_Elapsed st) e)) (w, c)
              (httpc_done conf INFO clear now w c st cpu mem err) /\ (err = None -> e = false).
Proof.
  unfold httpc_done. pose proof (quiet_step_error now w c err) as Hq.
  destruct (step_error _ _ _ _ _ _) as [[[w' c'] e] stack]. destruct Hq as [Hq He].
  exists (negb (e =? 0)%Z). split; [|intros Hn; by rewrite (He Hn)].
  eapply quiet_counts; [exact Hq|]. eapply counts_quiet; [|apply quiet_add_step].
  split; [|by destruct clear]. unfold httpc_resources. by destruct (ProfileHttpcResourceEnabled conf), clear.
Qed.
(** Parsing a statement never panics. *)
Lemma escape_returns w c sql : exists w' p, escape conf w sql = Ret (w', p) /\ quiet (w, c) (w', c).
Proof.
  unfold escape.
  assert (exists p cs tx, EscapeLiteral (sqls conf) (w_sqls w) (w_text w) sql = Ret (p, cs, tx)) as (p & cs & tx & ->).
  { unfold EscapeLiteral. destruct (negb _); [by eexists _, _, _|]. destruct (_ <? _)%Z; [by eexists _, _, _|].
    destruct (lm_get (nonLiteSql (w_sqls w)) _); [by eexists _, _, _|].
    destruct (lm_get (checkedSql (w_sqls w)) _); [by eexists _, _, _|].
    destruct (parse_sql_returns (sqls conf) sql) as [e ->]. simpl. destruct (_ =? _)%Z; by eexists _, _, _. }
  simpl. by eexists _, _.
Qed.

(** * The calls of a transaction *)

Inductive call :=
| CallSql (startTime : Z) (dbhost sql bind : bytes) (elapsed cpu mem : Z) (err : option error)
| CallSql1 (startTime : Z) (dbhost sql bind : bytes) (elapsed cpu mem : Z) (err : option error)
| CallHttpc (startTime : Z) (url : bytes) (elapsed cpu mem stepId : Z) (err : option error)
| CallHttpc1 (startTime : Z) (url : bytes) (elapsed cpu mem stepId : Z) (err : option error)
| CallDbc (startTime : Z) (dbhost : bytes) (elapsed : Z) (err : option error)
| CallMethod (startTime : Z) (method stack : bytes) (elapsed cpu mem : Z)
| CallMsg (title message : bytes) (elapsed value : Z)
| CallSecure (title message : bytes)
| CallError (err : error).
Definition perform (now : Z) (s : World * option ctx_t) (k : call) : World * option ctx_t :=
  let '(w, c) := s in
  match k with
  | CallSql t d q b e cpu mem err => ProfileSql conf INFO now w c t d q b e cpu mem err
  | CallSql1 t d q b e cpu mem err => ProfileSql1 conf INFO now w c t d q b e cpu mem err
  | CallHttpc t u e cpu mem id err => ProfileHttpc conf INFO now w c t u e cpu mem id err
  | CallHttpc1 t u e cpu mem id err => ProfileHttpc1 conf INFO now w c t u e cpu mem id err
  | CallDbc t d e err => let '(w, c, st) := StartDBC w c t d in EndDBC conf INFO now w c (Some st) e err
  | CallMethod t m st e cpu mem => ProfileMethod conf w c t m st e cpu mem
  | CallMsg t m e v =>
      match c with None => (w, None) | Some c => let '(w, c) := ProfileMsg now w c t m e v in (w, Some c) end
  | CallSecure t m =>
      match c with None => (w, None) | Some c => let '(w, c) := ProfileSecureMsg conf now w c t m in (w, Some c) end
  | CallError err => ProfileError conf INFO now w c err
  end.

(** The sample of a call: its connection or none, its time, and no error without one. *)
Definition sample_ok (k : call) (x : option sample) : Prop :=
  match k, x with
  | (CallSql _ d _ _ e _ _ err | CallSql1 _ d _ _ e _ _ err), Some (SampleSql s) =>
      d_dbc s = HashStr d /\ d_time s = e /\ (err = None -> d_err s = false)
  | (CallHttpc _ u e _ _ _ err | CallHttpc1 _ u e _ _ _ err), Some (SampleHttpc h) =>
      h_host h = HashStr (u_Host (NewURL u)) /\ h_time h = e /\ (err = None -> h_err h = false)
  | CallDbc _ _ e _, Some (SampleDbc t) => t = e
  | (CallMethod _ _ _ _ _ _ | CallMsg _ _ _ _ | CallSecure _ _ | CallError _), None => True
  | _, _ => False
  end.
Definition counts_opt (x : option sample) (s s' : World * ctx_t) : Prop :=
  match x with Some x => counts x s s' | None => quiet s s' end.

Lemma profile_sql_counts remember now w c t d q b e cpu mem err :
  (forall p w c, quiet (w, c) (w, remember p c)) ->
  exists w' c' h er,
    profile_sql remember now w (Some c) t d q b e cpu mem err = (w', Some c') /\
    counts (SampleSql (mkSqlS (HashStr d) h e er)) (w, c) (w', c') /\ (err = None -> er = false).
Proof.
  intros Hr. unfold profile_sql. destruct (escape_returns (text TEXT_DB_URL d w) c q) as (w1 & p & -> & Hq).
  destruct (sql_done_counts now w1 c (sql_step w1 p d b e (since t c)) cpu mem err) as (er & Hc & He).
  destruct (sql_done _ _ _ _ _ _ _ _ _) as [w2 c2]. exists w2, (remember p c2), (psql p), er. split; [done|].
  split; [|done]. eapply quiet_counts; [exact (quiet_trans _ _ _ (quiet_text TEXT_DB_URL d w c) Hq)|].
  eapply counts_quiet; [|apply Hr]. unfold sql_step in Hc.
  destruct (param_bytes w1 p b) as [[p1 p2] crc]. exact Hc.
Qed.
Lemma StackToArray_quiet w c s w' l : StackToArray conf w s = Ret (w', l) -> quiet (w, c) (w', c).
Proof.
  unfold StackToArray. destruct (_ <? 0)%Z; [done|]. intros [= <- _].
  match goal with |- quiet _ (foldl _ _ ?fs, _) => generalize fs end.
  intros fs. revert w. induction fs as [|f fs IH]; intros w; [done|]. simpl.
  eapply quiet_trans; [|apply IH]. done.
Qed.
Lemma httpc_of_quiet w c u :
  let '(w', st, _, _) := httpc_of conf w u in quiet (w, c) (w', c) /\ hc_Host st = HashStr (u_Host (NewURL u)).
Proof. unfold httpc_of, httpc_of_url. by destruct (URLPatternDetector.Normalize _ _ _). Qed.
Lemma quiet_profile w c st : quiet (w, c) (w, profile_add st c).
Proof. done. Qed.

Lemma quiet_record_error now w c thr : let '(w', c') := record_error conf INFO now w c thr in quiet (w, c) (w', c').
Proof.
  unfold record_error, stat_error. cbv zeta. by destruct (StatError.AddError _ _ _ _ _ _ _ _ _ _) as [[[e tx] out] id].
Qed.
Lemma EndDBC_counts now w c st e err :
  exists w' c', EndDBC conf INFO now w (Some c) (Some st) e err = (w', Some c') /\ counts (SampleDbc e) (w, c) (w', c').
Proof.
  unfold EndDBC. destruct (ErrorToThr err) as [thr|].
  - pose proof (quiet_ProfileErrorStep now w c thr) as Hq. destruct (ProfileErrorStep _ _ _ _ _ _) as [w1 c1].
    cbv beta iota zeta. eexists _, _. split; [reflexivity|]. eapply quiet_counts; [exact Hq|].
    eapply counts_quiet; [|apply quiet_add_step]. done.
  - cbv beta iota zeta. eexists _, _. split; [reflexivity|]. eapply counts_quiet; [|apply quiet_add_step]. done.
Qed.
Lemma EndMethod_quiet w c st stack e cpu mem :
  exists w' c', EndMethod conf w (Some c) (Some st) stack e cpu mem = (w', Some c') /\ quiet (w, c) (w', c').
Proof.
  unfold EndMethod. cbv zeta.
  assert (forall w1 st1, quiet (w, c) (w1, c) -> quiet (w, c) (w1, profile_add (SMethod st1) c)) as H by done.
  destruct (nonempty stack); [|by eexists _, _].
  destruct (StackToArray conf w stack) as [[w1 l]| |] eqn:E; simpl; [|by eexists _, _..].
  eexists _, _. split; [reflexivity|]. apply H. exact (StackToArray_quiet _ _ _ _ _ E).
Qed.
Lemma ProfileSecureMsg_quiet now w c t m :
  let '(w', c') := ProfileSecureMsg conf now w c t m in quiet (w, c) (w', c').
Proof. unfold ProfileSecureMsg. destruct (with_parameters _ _); [|done]. by destruct (secure_body _ _ _ _) as [[v crc]| |]. Qed.
Lemma httpc_counts clear now w c t u e cpu mem id err :
  let '(w1, st, nUrl, host) := httpc_of conf w u in
  let st := st <| hc_Elapsed := e |> <| hc_StepId := id |> <| hc_StartTime := t |> in
  exists x, sample_ok (CallHttpc t u e cpu mem id err) (Some x) /\
    counts x (w, c) (httpc_done conf INFO clear now (httpc_text nUrl host w1) c st cpu mem err).
Proof.
  pose proof (httpc_of_quiet w c u) as Hq. destruct (httpc_of conf w u) as [[[w1 st] nUrl] host]. destruct Hq as [Hq Hh].
  cbv zeta. edestruct (httpc_done_counts clear now (httpc_text nUrl host w1) c) as (er & Hc & He).
  eexists (SampleHttpc _). split; [|eapply quiet_counts; [exact Hq|exact Hc]]. split; [exact Hh|]. done.
Qed.

(** A call in a transaction counts its sample and nothing else, and the transaction
    goes on. *)
Lemma perform_counts now w c k :
  ParamSecurity.key (w_sec w) <> [] ->
  exists w' c' x, perform now (w, Some c) k = (w', Some c') /\ sample_ok k x /\ counts_opt x (w, c) (w', c').
Proof.
  intros Hk. destruct k as [t d q b e cpu mem err|t d q b e cpu mem err|t u e cpu mem id err|t u e cpu mem id err
    |t d e err|t m st e cpu mem|t m e v|t m|err]; cbv beta iota delta [perform].
  - rewrite ProfileSql_eq by done.
    destruct (profile_sql_counts (fun p c => c <| ExecutedSqlhash := psql p |>) now w c t d q b e cpu mem err)
      as (w' & c' & h & er & -> & Hc & He); [done|]. exists w', c', (Some (SampleSql (mkSqlS (HashStr d) h e er))). done.
  - rewrite ProfileSql1_eq by done.
    destruct (profile_sql_counts (fun p c => c) now w c t d q b e cpu mem err)
      as (w' & c' & h & er & -> & Hc & He); [done|]. exists w', c', (Some (SampleSql (mkSqlS (HashStr d) h e er))). done.
  - unfold ProfileHttpc, StartHttpc, EndHttpc.
    pose proof (fun c' => httpc_counts true now w c' (since t c) u e cpu mem id err) as H.
    destruct (httpc_of conf w u) as [[[w1 st] nUrl] host]. cbv beta iota zeta in *.
    destruct (H (c <| ActiveHttpcHash := hc_Url st |>)) as (x & Hx & Hc).
    destruct (httpc_done _ _ _ _ _ _ _ _ _ _) as [w2 c2] eqn:E in Hc.
    exists w2, c2, (Some x). split; [|by split]. cbn -[httpc_done] in E |- *. by rewrite E.
  - unfold ProfileHttpc1. pose proof (httpc_counts false now w c (since t c) u e cpu mem id err) as H.
    destruct (httpc_of conf w u) as [[[w1 st] nUrl] host]. cbv beta iota zeta in *. destruct H as (x & Hx & Hc).
    destruct (httpc_done _ _ _ _ _ _ _ _ _ _) as [w2 c2]. exists w2, c2, (Some x). by split.
  - unfold StartDBC. cbv beta iota zeta.
    match goal with |- context [EndDBC _ _ _ ?w1 (Some ?c1) (Some ?st1) _ _] =>
      destruct (EndDBC_counts now w1 c1 st1 e err) as (w' & c' & E & Hc) end. rewrite E. exists w', c', (Some (SampleDbc e)). by split.
  - unfold ProfileMethod, StartMethod. cbv beta iota zeta.
    match goal with |- context [EndMethod _ ?w1 (Some ?c1) (Some ?st1) _ _ _ _] =>
      destruct (EndMethod_quiet w1 c1 st1 st e cpu mem) as (w' & c' & E & Hq) end. rewrite E. exists w', c', None. by split.
  - exists (text TEXT_MESSAGE t w). eexists _, None. split; [reflexivity|]. by split.
  - pose proof (ProfileSecureMsg_quiet now w c t m) as Hq. destruct (ProfileSecureMsg _ _ _ _ _ _) as [w' c'].
    exists w', c', None. by split.
  - unfold ProfileError. destruct (IsIgnoreException _ _); [by exists w, c, None|].
    match goal with |- context [record_error _ _ _ ?w1 ?c1 ?thr] => pose proof (quiet_record_error now w1 c1 thr) as Hq end.
    destruct (record_error _ _ _ _ _ _) as [w' c']. exists w', c', None. by split.
Qed.

End Facts.

(** * Witnesses *)

Definition boom : error := mkErr (str "net.Error") (str "boom").
Definition calls1 : list call :=
  [CallSql 3 (str "db") (str "select 1") [] 12 0 0 None; CallHttpc1 4 (str "a.com/x") 30 0 0 7 (Some boom);
   CallSql1 5 (str "db") (str "select 2") (str "b") 8 0 0 (Some boom); CallDbc 6 (str "db") 2 None;
   CallMethod 7 (str "main.f") [] 1 0 0; CallMsg (str "m") (str "text") 0 0].
Lemma ProfileSql_same_witness :
  (ProfileSql apiconf1 20 100 world1 (Some TraceSamples.ctx1) 3 (str "db") (str "select 1") [] 12 0 0 None).1 =
  (ProfileSql1 apiconf1 20 100 world1 (Some TraceSamples.ctx1) 3 (str "db") (str "select 1") [] 12 0 0 None).1.
Proof.
  pose proof (ProfileSql_same apiconf1 20 100 world1 (Some TraceSamples.ctx1) 3 (str "db") (str "select 1") [] 12 0 0 None
    ltac:(done)) as H.
  destruct (ProfileSql _ _ _ _ _ _ _ _ _ _ _ _ _) as [w1 c1], (ProfileSql1 _ _ _ _ _ _ _ _ _ _ _ _ _) as [w2 c2].
  exact (proj1 H).
Defined.
(** What that account is. *)
Example calls1_account :
  match foldl (perform apiconf1 20 100) (world1, Some TraceSamples.ctx1) calls1 with
  | (w, Some c) =>
      (TraceContext.SqlCount c, TraceContext.SqlTime c, TraceContext.HttpcCount c, TraceContext.HttpcTime c,
       TraceContext.DbcTime c) = (2, 20, 1, 30, 2)%Z /\
      c_GetSteps (TraceContext.Profile c) <> []
  | _ => False
  end.
Proof. vm_compute. split; [reflexivity|discriminate]. Qed.
