(* ===== verification/TraceMain.v ===== *)
(** The sender of finished transactions, [src/agent/agent/trace/TraceMain.go]: it takes
    a context from the queue, builds its record, counts it in the statistics, sends the
    profile or not, and gives the context back. *)

From S2P Require Import Prelude Hmap UrlPattern TraceCtx MeterService Meters DataPack DataText.
From S2P Require Import ParsedSql Stat StatError TraceContext TraceApi.

(** [pack.ProfilePack] *)
Record ProfilePack := mkProfile { p_Transaction : TxRec; p_Time : Z; p_Steps : list AnyStep }.

Section Main.
Context {LMz : LinkedMap Z} {LMi : LinkedMap (Z * Z)} {LMh : LinkedMap StatHttpc.HTTPC}
  {LMm : LinkedMap StatTranxMtCaller.MtraceKEY} {BU : BitUtil} {SU : StringUtil} {SM : StringMore} {TT : TextTypes}
  {RQ : RequestQueue} {CT : CountTable} {PT : PathTree} {HM : MeterService.Pack} {UU : UrlUtil} {PC : IProfileCollector}
  {HX : Hexa32} {AC : AppContext}.
Abbreviation ctx_t := TraceContext.t.
Import TraceContext.
Variable conf : ApiConf.
Variable WebMethodName : bytes -> option Z.
(** [Domain] and [DomainPath] of a nil URL; [lang.EVENT_LEVEL_WARNING]. *)
Variables nil_Domain nil_DomainPath : res bytes.
Variable EVENT_LEVEL_WARNING : Z.

Definition on_stats (f : stats -> stats) (w : World) : World := w <| w_stats ::= f |>.

(** ** The statistics of a transaction *)

Definition stat_remote (c : ctx_t) (tx : TxRec) (w : World) : World :=
  let w := on_stats (fun s => s <| s_remoteIp ::= fun m => StatCount.inc m (RemoteIp c) |>
                                <| s_userAgent ::= fun m => StatCount.inc m (UserAgent c) |>) w in
  if StatIPURLEnabled conf && negb (RemoteIp c =? 0)%Z then
    on_stats (fun s => s <| s_remoteIPURL ::= fun m =>
      StatRemoteIPURL.GetService (statc conf) m (RemoteIp c) (ServiceHash c)
        (tc_add (EVENT_LEVEL_WARNING <=? x_ErrorLevel tx)%Z (x_Elapsed tx)) |>) w
  else w.
(** What a transaction adds to the entry of its domain, login, referer and caller. *)
Definition tx_count (c : ctx_t) (tx : TxRec) : TimeCount -> TimeCount := tc_add (negb (Error_ c =? 0)%Z) (x_Elapsed tx).
Definition stat_login (c : ctx_t) (tx : TxRec) (w : World) : World * TxRec :=
  if nonempty (Login c) then
    let tx := tx <| x_Login := HashStr (Login c) |> in
    let w := text TEXT_LOGIN (Login c) w in
    (if StatLoginEnabled conf then
       on_stats (fun s => s <| s_login ::= fun m =>
         StatPair.GetService m (x_Login tx) (ServiceHash c) (tx_count c tx) |>) w
     else w, tx)
  else (w, tx).
Definition stat_domain (c : ctx_t) (tx : TxRec) (w : World) : World :=
  if StatDomainEnabled conf && negb (HttpHostHash c =? 0)%Z then
    on_stats (fun s => s <| s_domain ::= fun m =>
      StatPair.GetService m (HttpHostHash c) (ServiceHash c) (tx_count c tx) |>) w
  else w.
Definition of_url (f : URL -> bytes) (nil : res bytes) (u : option URL) : res bytes :=
  match u with Some u => Ret (f u) | None => nil end.
(** The referer's key, and its text unless it is the referer as a whole. *)
Definition referer_key (c : ctx_t) : res (Z * option bytes) :=
  let part := match StatRefererFormat conf with
              | 1%Z => Some (of_url u_Domain nil_Domain (RefererURL c))
              | 2%Z => Some (of_url u_DomainPath nil_DomainPath (RefererURL c))
              | 3%Z => Some (of_url u_Path Panic (RefererURL c))
              | _ => None
              end in
  match part with Some r => s ← r; Ret (HashStr s, Some s) | None => Ret (Referer c, None) end.
Definition stat_referer (c : ctx_t) (tx : TxRec) (w : World) : res World :=
  if StatRefererEnabled conf && negb (Referer c =? 0)%Z then
    '(h, s) ← referer_key c;
    let w := match s with Some s => text TEXT_REFERER s w | None => w end in
    Ret (on_stats (fun st => st <| s_referer ::= fun m => StatPair.GetService m h (ServiceHash c) (tx_count c tx) |>) w)
  else Ret w.
Definition stat_mtrace (c : ctx_t) (tx : TxRec) (w : World) : World * TxRec :=
  if StatMtraceEnabled conf && negb (McallerPcode c =? 0)%Z then
    let tx := tx <| x_McallerPcode := McallerPcode c |> in
    let '(spec, w, tx) :=
      if nonempty (McallerSpec c) then
        let h := HashStr (McallerSpec c) in (h, text TEXT_MTRACE_SPEC (McallerSpec c) w, tx <| x_McallerSpec := h |>)
      else (0%Z, w, tx) in
    let '(url, tx) :=
      if nonempty (McallerUrl c) then (McallerUrlHash c, tx <| x_McallerUrl := McallerUrlHash c |>) else (0%Z, tx) in
    let key := StatTranxMtCaller.mkKey (McallerPcode c) (McallerOkind c) spec url (ServiceHash c) in
    (on_stats (fun s => s <| s_mtcaller ::= fun m => StatTranxMtCaller.GetService m key (tx_count c tx) |>) w, tx)
  else (w, tx).

(** What it adds to the record of its service; a negative time is taken for 0. *)
Definition clamp_tx (tx : TxRec) : TxRec := if (x_Elapsed tx <? 0)%Z then tx <| x_Elapsed := 0%Z |> else tx.
Definition count_service (c : ctx_t) (tx : TxRec) (r : StatTranx.TransactionRec) : StatTranx.TransactionRec :=
  let e := x_Elapsed tx in
  let r := r <| StatTranx.Count ::= inc32 |> <| StatTranx.Error_ ::= inc32_if (negb (x_Error tx =? 0)%Z) |>
             <| StatTranx.TimeSum ::= add64 e |> in
  let r := if (StatTranx.TimeMax r <? e)%Z then r <| StatTranx.TimeMax := e |> else r in
  let r := match x_Apdex tx with
           | 2%Z => r <| StatTranx.ApdexSatisfied ::= inc32 |>
           | 1%Z => r <| StatTranx.ApdexTolerated ::= inc32 |>
           | _ => r
           end in
  let r := if (StatTranx.TimeMin r =? 0)%Z || (e <? StatTranx.TimeMin r)%Z then r <| StatTranx.TimeMin := e |> else r in
  r <| StatTranx.TimeStd ::= add64 (int64 (e * e)) |> <| StatTranx.SqlCount ::= fun n => int32 (n + x_SqlCount tx) |>
    <| StatTranx.SqlTime ::= add64 (x_SqlTime tx) |> <| StatTranx.SqlFetch ::= fun n => int32 (n + RsCount c) |>
    <| StatTranx.SqlFetchTime ::= add64 (RsTime c) |> <| StatTranx.HttpcCount ::= fun n => int32 (n + x_HttpcCount tx) |>
    <| StatTranx.HttpcTime ::= add64 (x_HttpcTime tx) |> <| StatTranx.MallocSum ::= add64 (x_Malloc tx) |>
    <| StatTranx.CpuSum ::= add64 (x_CpuTime tx) |>.
Definition on_service (hash : Z) (f : StatTranx.TransactionRec -> StatTranx.TransactionRec) : World -> World :=
  on_stats (fun s => s <| s_tranx ::= fun m => lm_write m hash f |>).

(** ** Whether the profile is sent *)

(** Nothing of interest: fast, without an error, not looked at and not part of a trace. *)
Definition plain (c : ctx_t) (tx : TxRec) : bool :=
  (ProfileActive c =? 0)%Z && (x_Elapsed tx <? ProfileBasetime conf)%Z && (x_Error tx =? 0)%Z && (Mtid c =? 0)%Z.
(** The decision on the service's record; [unixnow] is in milliseconds. *)
Definition wants (unixnow LastReject : Z) (rejected : bool) (c : ctx_t) (tx : TxRec) (r : StatTranx.TransactionRec)
  : bool * Z :=
  if rejected then if (unixnow <? LastReject + 1000)%Z then (false, LastReject) else (true, unixnow)
  else (negb (StatTranx.Profiled r && plain c tx), LastReject).
Definition fill (c : ctx_t) (tx : TxRec) (p : ProfilePack) : ProfilePack :=
  p <| p_Transaction := tx <| x_StepSplitCount := c_GetSplitCount (Profile c) |> <| x_Active := (0 <? ProfileActive c)%Z |> |>
    <| p_Steps := c_GetSteps (Profile c) |>.
Definition stat_service (unixnow LastReject : Z) (rejected : bool) (c : ctx_t) (tx : TxRec) (w : World)
  : World * Z * TxRec * bool :=
  let '(m, known) := StatTranx.GetService (s_tranx (w_stats w)) (x_Service tx) in
  let w := on_stats (fun s => s <| s_tranx := m |>) w in
  if known then
    let tx := clamp_tx tx in
    let w := on_service (x_Service tx) (count_service c tx) w in
    match lm_get (s_tranx (w_stats w)) (x_Service tx) with
    | Some r =>
        let '(want, lr) := wants unixnow LastReject rejected c tx r in
        (if want then on_service (x_Service tx) (fun r => r <| StatTranx.Profiled := true |>) w else w, lr, tx, want)
    | None => (w, LastReject, tx, true)
    end
  else (w, LastReject, tx, true).
(** The world, [LastReject] and the profile handed to the network or to the compressing
    sender; a panic is recovered and nothing is sent. *)
Definition SendProfile (unixnow LastReject : Z) (w : World) (c : ctx_t) (profile : ProfilePack) (rejected : bool)
  : World * Z * option ProfilePack :=
  let tx := p_Transaction profile in
  let w := stat_remote c tx w in
  let '(w, tx) := stat_login c tx w in
  let w := stat_domain c tx w in
  match stat_referer c tx w with
  | Ret w =>
      let '(w, tx) := stat_mtrace c tx w in
      let '(w, lr, tx, want) := stat_service unixnow LastReject rejected c tx w in
      (w, lr, if want then Some (fill c tx profile) else None)
  | _ => (w, LastReject, None)
  end.

(** ** The record *)

Definition apdex_of (tx : TxRec) : Z :=
  if (MeterService.WARNING <=? x_ErrorLevel tx)%Z then 0
  else if (x_Elapsed tx <=? ApdexTime (meters conf))%Z then 2
  else if (x_Elapsed tx <=? ApdexTime4T (meters conf))%Z then 1
  else 0.
(** The texts of the transaction and of its error, if configured. *)
Definition with_texts (c : ctx_t) (tx : TxRec) : res TxRec :=
  tx ← (if TxTextTxnameEnabled conf
        then match ServiceURL c with Some u => Ret (tx <| x_TxName := u_Path u |>) | None => Panic end
        else Ret tx);
  match Thr c with
  | Some thr =>
      if TxTextErrorEnabled conf
      then Ret (tx <| x_ErrorClass := ErrorClassName thr |> <| x_ErrorMessage := take (TxTextErrorLength conf) (ErrorMessage thr) |>)
      else Ret tx
  | None => Ret tx
  end.
Definition sent_record (sec : ParamSecurity.t) (c : ctx_t) : res TxRec :=
  tx ← with_texts c (tx_of WebMethodName sec c);
  Ret (tx <| x_Apdex := apdex_of tx |>).
Definition new_profile (tx : TxRec) : ProfilePack := mkProfile tx (x_EndTime tx) [].

(** [process] on the context it took: the context after it, whether it went back to the
    pool, and the profile sent. *)
Definition process (unixnow LastReject : Z) (w : World) (c : ctx_t) : World * ctx_t * bool * Z * option ProfilePack :=
  if IsStaticContents c then (w, c, false, LastReject, None)
  else
    match sent_record (w_sec w) c with
    | Ret tx =>
        let '(c, _) := ExtraFields c in
        let '(w, lr, p) := SendProfile unixnow LastReject w c (new_profile tx) false in
        (w, Clear (InternalTraceCollectingMode conf) c, true, lr, p)
    | _ => (w, c, false, LastReject, None)
    end.

(** [resetTraceSQL]: [last] and [reset] are [lastDate] and [textReset]. *)
Definition resetTraceSQL (now last reset : Z) (w : World) : World * Z * Z :=
  let today := DataText.getDate now in
  if negb (last =? today)%Z || negb (reset =? conf_TextReset conf)%Z
  then (w <| w_sqls ::= resetSqlText |>, today, conf_TextReset conf)
  else (w, last, reset).
Definition IsIgnoreExceptionLong (err : Z) : bool :=
  EnableIgnoreExceptions_ conf && bool_decide (GetHigh64 err ∈ IgnoreExceptions conf).
End Main.
