(* ===== verification/TraceMainFacts.v ===== *)
(** The sender of finished transactions: what it counts, what it sends, and that its
    record is the one the meter counted. *)

From S2P Require Import Prelude Hmap UrlPattern TraceCtx MeterService Meters DataPack DataText.
From S2P Require Import ParsedSql Stat StatError TraceContext TraceApi TraceMain TraceSamples.

(** * Writing twice *)

Section Writes.
Context `{EqDecision K} {LM : LinkedMap K} {LL : LinkedMapLaws K LM} {V : Type}.
Lemma awrite_twice (l : list (K * V)) k f g : awrite (awrite l k f) k g = awrite l k (g ∘ f).
Proof.
  unfold awrite. rewrite <- list_fmap_compose. apply list_fmap_ext. intros i [j v] _. simpl.
  by case_decide; simpl; case_decide.
Qed.
Lemma entries_write_ext (m : lmap V) k f g :
  (forall v, lm_get m k = Some v -> f v = g v) -> lm_entries (lm_write m k f) = lm_entries (lm_write m k g).
Proof.
  intros H. rewrite !write_entries. unfold awrite. apply list_fmap_ext. intros i [j v] Hi. simpl.
  case_decide as E; [|done]. simpl in E. subst j. f_equal. apply H. unfold lm_get.
  apply alookup_Some; [apply keys_NoDup|]. by apply list_elem_of_lookup_2 with i.
Qed.
Lemma get_on_entry (m : lmap V) k new f j r :
  lm_get (on_entry m k new f) j = Some r ->
  (j = k /\ exists r0, r = f r0) \/ (j <> k /\ lm_get m j = Some r).
Proof.
  unfold on_entry, intern. intros H.
  destruct (lm_get m k) eqn:E; [|destruct (lm_full m)].
  - rewrite get_write in H. case_decide as Hj; [|by right]. left. split; [done|].
    destruct (lm_get m k); [|done]. injection H as <-. by eexists.
  - destruct (decide (j = k)) as [->|]; [congruence|by right].
  - rewrite get_write in H. case_decide as Hj.
    + left. split; [done|]. rewrite put_get in H. injection H as <-. by eexists.
    + right. split; [done|]. by apply put_old in H.
Qed.
End Writes.

Section Facts.
Context {LMz : LinkedMap Z} {LLz : LinkedMapLaws Z LMz} {LMi : LinkedMap (Z * Z)} {LMh : LinkedMap StatHttpc.HTTPC}
  {LMm : LinkedMap StatTranxMtCaller.MtraceKEY} {BU : BitUtil} {SU : StringUtil} {SM : StringMore} {TT : TextTypes}
  {RQ : RequestQueue} {CT : CountTable} {PT : PathTree} {HM : MeterService.Pack} {UU : UrlUtil} {PC : IProfileCollector}
  {HX : Hexa32} {AC : AppContext}.
Abbreviation ctx_t := TraceContext.t.
Import TraceContext.
Variable conf : ApiConf.
Variable WebMethodName : bytes -> option Z.
Variables nil_Domain nil_DomainPath : res bytes.
Variable EVENT_LEVEL_WARNING : Z.
Abbreviation tranx w := (s_tranx (w_stats w)).

(** A service's record after a transaction: counted, and marked as profiled. *)
Definition service_step (c : ctx_t) (tx : TxRec) (r : StatTranx.TransactionRec) : StatTranx.TransactionRec :=
  (count_service c (clamp_tx tx) r) <| StatTranx.Profiled := true |>.
Definition new_service (h : Z) : StatTranx.TransactionRec := StatTranx.NewTransactionRec <| StatTranx.THash := h |>.

Lemma count_service_profiled c tx r : StatTranx.Profiled (count_service c tx r) = StatTranx.Profiled r.
Proof.
  unfold count_service. cbv zeta. destruct (_ <? x_Elapsed tx)%Z, (_ || _); destruct (x_Apdex tx) as [|[[]|[]|]|]; done.
Qed.
Lemma set_profiled (r : StatTranx.TransactionRec) : StatTranx.Profiled r = true -> r <| StatTranx.Profiled := true |> = r.
Proof. destruct r; simpl. by intros ->. Qed.

(** With a record in the table: counted, marked, and sent unless it was marked and the
    transaction is plain. *)
Lemma known_service u lr (c : ctx_t) (tx : TxRec) (w : World) (m : StatTranx.t) r0 :
  let h := x_Service tx in
  lm_get m h = Some r0 ->
  let w1 := on_service h (count_service c tx) (on_stats (fun s => s <| s_tranx := m |>) w) in
  exists want w',
    match lm_get (tranx w1) h with
    | Some r =>
        let '(want, lr') := wants conf u lr false c tx r in
        (if want then on_service h (fun r => r <| StatTranx.Profiled := true |>) w1 else w1, lr', tx, want)
    | None => (w1, lr, tx, true)
    end = (w', lr, tx, want) /\
    want = negb (StatTranx.Profiled r0 && plain conf c tx) /\ w_sec w' = w_sec w /\ lm_max (tranx w') = lm_max m /\
    lm_entries (tranx w') =
      lm_entries (lm_write m h (fun r => (count_service c tx r) <| StatTranx.Profiled := true |>)).
Proof.
  intros h Hr w1. change (tranx w1) with (lm_write m h (count_service c tx)). rewrite get_write, decide_True, Hr by done.
  cbn [fmap option_fmap option_map]. unfold wants. rewrite count_service_profiled.
  destruct (negb (StatTranx.Profiled r0 && plain conf c tx)) eqn:E; eexists _, _; (split; [reflexivity|]); (split; [done|]);
    (split; [done|]).
  - change (tranx (on_service h _ w1)) with
      (lm_write (lm_write m h (count_service c tx)) h (fun r => r <| StatTranx.Profiled := true |>)).
    split; [by rewrite !max_write|]. rewrite !write_entries, awrite_twice. done.
  - change (tranx w1) with (lm_write m h (count_service c tx)). split; [by rewrite max_write|].
    apply entries_write_ext. intros r. rewrite Hr. intros [= <-]. rewrite set_profiled; [done|].
    rewrite count_service_profiled. apply negb_false_iff, andb_true_iff in E. tauto.
Qed.
Lemma stat_service_spec u lr (c : ctx_t) (tx : TxRec) (w : World) :
  let h := x_Service tx in
  (forall r, lm_get (tranx w) h = Some r -> StatTranx.Profiled r = true) ->
  exists w' tx' want, stat_service conf u lr false c tx w = (w', lr, tx', want) /\ w_sec w' = w_sec w /\
    lm_max (tranx w') = lm_max (tranx w) /\
    lm_entries (tranx w') = lm_entries (on_entry (tranx w) h (new_service h) (service_step c tx)) /\
    (tx' = tx \/ tx' = clamp_tx tx) /\
    (want = true \/ is_Some (lm_get (tranx w) h)) /\ (plain conf c (clamp_tx tx) = false -> want = true).
Proof.
  intros h Hp. unfold stat_service, StatTranx.GetService, on_entry, intern. fold h. fold (new_service h).
  assert (x_Service (clamp_tx tx) = h) as Hh by (unfold clamp_tx; by destruct (_ <? _)%Z).
  assert (forall (m : StatTranx.t) r0, lm_get m h = Some r0 -> lm_max m = lm_max (tranx w) ->
    (StatTranx.Profiled r0 = true -> is_Some (lm_get (tranx w) h)) ->
    exists w' tx' want, (let tx := clamp_tx tx in
      let w := on_service (x_Service tx) (count_service c tx) (on_stats (fun s => s <| s_tranx := m |>) w) in
      match lm_get (tranx w) (x_Service tx) with
      | Some r =>
          let '(want, lr) := wants conf u lr false c tx r in
          (if want then on_service (x_Service tx) (fun r => r <| StatTranx.Profiled := true |>) w else w, lr, tx, want)
      | None => (w, lr, tx, true)
      end) = (w', lr, tx', want) /\ w_sec w' = w_sec w /\ lm_max (tranx w') = lm_max (tranx w) /\
      lm_entries (tranx w') = lm_entries (lm_write m h (service_step c tx)) /\ (tx' = tx \/ tx' = clamp_tx tx) /\
      (want = true \/ is_Some (lm_get (tranx w) h)) /\ (plain conf c (clamp_tx tx) = false -> want = true)) as Hk.
  { intros m r0 Hr Hm Ho. rewrite <- Hh in Hr. destruct (known_service u lr c (clamp_tx tx) w m r0 Hr)
      as (want & w' & E & Hw & Hs & Hx & He). cbv zeta in *. exists w', (clamp_tx tx), want.
    split; [exact E|]. split; [done|]. split; [congruence|]. rewrite Hh in He. split; [exact He|]. split; [by right|].
    subst want. destruct (StatTranx.Profiled r0) eqn:Er; simpl; [|by split; [left|]]. split; [right; auto|]. by intros ->. }
  destruct (lm_get (tranx w) h) as [r|] eqn:E.
  - apply (Hk _ r); [done..|]. by intros _.
  - unfold lm_full. case_bool_decide as Hroom; simpl.
    + apply (Hk (lm_put (tranx w) h (new_service h)) (new_service h)); [apply put_get|by rewrite max_put|done].
    + eexists _, _, true. split; [reflexivity|]. repeat split; auto.
Qed.

(** ** What the other statistics leave alone *)

Definition kept (w w' : World) : Prop := tranx w' = tranx w /\ w_sec w' = w_sec w.
(** The fields a record is counted by. *)
Definition same_tx (tx tx' : TxRec) : Prop :=
  x_Service tx' = x_Service tx /\ x_Txid tx' = x_Txid tx /\
  (forall c, plain conf c (clamp_tx tx') = plain conf c (clamp_tx tx)) /\
  (forall c r, count_service c (clamp_tx tx') r = count_service c (clamp_tx tx) r).
Lemma stat_remote_kept c tx w : kept w (stat_remote conf EVENT_LEVEL_WARNING c tx w).
Proof. unfold stat_remote. by destruct (_ && _). Qed.
Lemma stat_login_kept c tx w : let '(w', tx') := stat_login conf c tx w in kept w w' /\ same_tx tx tx'.
Proof.
  unfold stat_login. destruct (nonempty _); [|by repeat split].
  destruct (StatLoginEnabled conf); repeat split; intros; unfold clamp_tx; simpl; by destruct (_ <? _)%Z.
Qed.
Lemma stat_domain_kept c tx w : kept w (stat_domain conf c tx w).
Proof. unfold stat_domain. by destruct (_ && _). Qed.
Lemma stat_referer_kept c tx w w' : stat_referer conf nil_Domain nil_DomainPath c tx w = Ret w' -> kept w w'.
Proof.
  unfold stat_referer. destruct (_ && _); [|by intros [= <-]].
  destruct (referer_key _ _ _ _) as [[h s]| |]; [|done..]. simpl. intros [= <-]. by destruct s.
Qed.
Lemma stat_mtrace_kept c tx w : let '(w', tx') := stat_mtrace conf c tx w in kept w w' /\ same_tx tx tx'.
Proof.
  unfold stat_mtrace. destruct (_ && _); [|by repeat split].
  destruct (nonempty (McallerSpec c)), (nonempty (McallerUrl c));
    repeat split; intros; unfold clamp_tx; simpl; by destruct (_ <? _)%Z.
Qed.
Lemma same_tx_trans tx1 tx2 tx3 : same_tx tx1 tx2 -> same_tx tx2 tx3 -> same_tx tx1 tx3.
Proof.
  intros (H1 & H2 & H3 & H4) (G1 & G2 & G3 & G4). unfold same_tx. rewrite G1, G2. split; [done|]. split; [done|].
  split; intros; [by rewrite G3|by rewrite G4].
Qed.
Lemma kept_trans w1 w2 w3 : kept w1 w2 -> kept w2 w3 -> kept w1 w3.
Proof. unfold kept. intros [-> ->] [-> ->]. done. Qed.

(** ** One transaction *)

(** The referer of a context can be read. *)
Definition referer_ok (c : ctx_t) : Prop :=
  StatRefererEnabled conf && negb (Referer c =? 0)%Z = true -> exists r, referer_key conf nil_Domain nil_DomainPath c = Ret r.
Lemma stat_referer_returns c tx w :
  referer_ok c -> exists w', stat_referer conf nil_Domain nil_DomainPath c tx w = Ret w' /\ kept w w'.
Proof.
  intros Hr. destruct (stat_referer conf nil_Domain nil_DomainPath c tx w) as [w'| |] eqn:E.
  - exists w'. split; [done|]. by apply (stat_referer_kept c tx).
  - unfold stat_referer in E. destruct (_ && _) eqn:Ec; [|done]. destruct (Hr Ec) as [[h s] Hk]. by rewrite Hk in E.
  - unfold stat_referer in E. destruct (_ && _) eqn:Ec; [|done]. destruct (Hr Ec) as [[h s] Hk]. by rewrite Hk in E.
Qed.
Definition all_profiled (w : World) : Prop :=
  forall h r, lm_get (tranx w) h = Some r -> StatTranx.Profiled r = true.
(** Counted in the record of the service, if it fits. *)
Definition counts_tx (w w' : World) (c : ctx_t) (tx : TxRec) : Prop :=
  lm_max (tranx w') = lm_max (tranx w) /\
  lm_entries (tranx w') =
    lm_entries (on_entry (tranx w) (x_Service tx) (new_service (x_Service tx)) (service_step c tx)).
Lemma SendProfile_spec u lr w c p :
  let tx := p_Transaction p in
  all_profiled w -> referer_ok c ->
  exists w' sent, SendProfile conf nil_Domain nil_DomainPath EVENT_LEVEL_WARNING u lr w c p false = (w', lr, sent) /\
    w_sec w' = w_sec w /\ counts_tx w w' c tx /\
    (is_Some (lm_get (tranx w) (x_Service tx)) /\ plain conf c (clamp_tx tx) = true \/ is_Some sent) /\
    (forall q, sent = Some q -> x_Service (p_Transaction q) = x_Service tx /\ x_Txid (p_Transaction q) = x_Txid tx).
Proof.
  intros tx Hp Hr. unfold SendProfile. fold tx.
  pose proof (stat_remote_kept c tx w) as K1. set (w1 := stat_remote _ _ _ _ _) in *. clearbody w1.
  pose proof (stat_login_kept c tx w1) as K2. destruct (stat_login _ _ _ _) as [w2 tx2]. destruct K2 as [K2 S2].
  pose proof (stat_domain_kept c tx2 w2) as K3. set (w3 := stat_domain _ _ _ _) in *. clearbody w3.
  destruct (stat_referer_returns c tx2 w3 Hr) as (w4 & -> & K4).
  pose proof (stat_mtrace_kept c tx2 w4) as K5. destruct (stat_mtrace _ _ _ _) as [w5 tx5]. destruct K5 as [K5 S5].
  pose proof (kept_trans _ _ _ (kept_trans _ _ _ (kept_trans _ _ _ (kept_trans _ _ _ K1 K2) K3) K4) K5) as [Kt Ks].
  pose proof (same_tx_trans _ _ _ S2 S5) as (Hh & Hid & Hpl & Hc).
  destruct (stat_service_spec u lr c tx5 w5) as (w' & tx' & want & E & Hs & Hm & He & Ht & Hw & Hpw).
  { intros r. rewrite Kt. apply Hp. }
  rewrite E. exists w', (if want then Some (fill c tx' p) else None). rewrite Kt, Hh in *. split; [done|].
  split; [congruence|]. split; [split; [done|]|].
  { rewrite He. unfold on_entry. destruct (intern _ _ _) as [m []]; [|done]. apply entries_write_ext.
    intros r _. unfold service_step. by rewrite Hc. }
  split.
  - rewrite Hpl in Hpw. destruct want; [right; by eexists|]. left. destruct Hw as [|Hw]; [done|]. split; [done|].
    destruct (plain conf c (clamp_tx tx)); [done|]. by discriminate Hpw.
  - intros q. destruct want; [|done]. intros [= <-]. simpl. rewrite <- Hh, <- Hid.
    destruct Ht as [->| ->]; [done|]. unfold clamp_tx. by destruct (_ <? _)%Z.
Qed.

(** * A round *)

Definition record_ok (sec : ParamSecurity.t) (c : ctx_t) : Prop :=
  IsStaticContents c = false /\ referer_ok c /\ exists tx, sent_record conf WebMethodName sec c = Ret tx.
Lemma sent_record_ids sec c tx :
  sent_record conf WebMethodName sec c = Ret tx -> x_Service tx = ServiceHash c /\ x_Txid tx = ProfileSeq c.
Proof.
  unfold sent_record. assert (x_Service (tx_of WebMethodName sec c) = ServiceHash c) as <- by reflexivity.
  assert (x_Txid (tx_of WebMethodName sec c) = ProfileSeq c) as <- by reflexivity.
  generalize (tx_of WebMethodName sec c). intros t0.
  destruct (with_texts conf c t0) as [t1| |] eqn:E; [|done..]. intros [= <-]. revert E. unfold with_texts.
  destruct (TxTextTxnameEnabled conf), (ServiceURL c), (Thr c), (TxTextErrorEnabled conf); try done; by intros [= <-].
Qed.

Definition round : Type := World * Z * list ProfilePack.
Definition take_tx (u : Z) (s : round) (c : ctx_t) : round :=
  let '(w, lr, out) := s in
  let '(w, _, _, lr, p) := process conf WebMethodName nil_Domain nil_DomainPath EVENT_LEVEL_WARNING u lr w c in
  (w, lr, out ++ option_list p).
Definition tx_sample (sec : ParamSecurity.t) (c : ctx_t) : option (Z * (ctx_t * TxRec)) :=
  match sent_record conf WebMethodName sec c with Ret tx => Some (ServiceHash c, (c, tx)) | _ => None end.
Definition tx_table (n : nat) (sec : ParamSecurity.t) (cs : list ctx_t) : list (Z * StatTranx.TransactionRec) :=
  table_of new_service (fun _ x => service_step x.1 x.2) n (omap (tx_sample sec) cs).

Lemma take_tx_spec u w lr out c tx :
  all_profiled w -> record_ok (w_sec w) c -> sent_record conf WebMethodName (w_sec w) c = Ret tx ->
  exists w' sent, take_tx u (w, lr, out) c = (w', lr, out ++ option_list sent) /\ w_sec w' = w_sec w /\
    counts_tx w w' c tx /\
    (is_Some (lm_get (tranx w) (ServiceHash c)) /\ plain conf c (clamp_tx tx) = true \/ is_Some sent) /\
    (forall q, sent = Some q -> x_Service (p_Transaction q) = ServiceHash c /\ x_Txid (p_Transaction q) = ProfileSeq c).
Proof.
  intros Hp (Hst & Hr & _) Htx. unfold take_tx, process. rewrite Hst, Htx.
  destruct (sent_record_ids _ _ _ Htx) as [Hh Hid]. rewrite <- Hh, <- Hid. unfold ExtraFields. cbv beta iota.
  match goal with |- context [SendProfile _ _ _ _ _ _ _ ?c1 _ _] =>
    destruct (SendProfile_spec u lr w c1 (new_profile tx) Hp Hr) as (w' & sent & E & Hs & Hc & Hw & Hq); rewrite E end.
  exists w', sent. by split.
Qed.

Record sampled (sec : ParamSecurity.t) (n : nat) (cs : list ctx_t) (s : round) : Prop := {
  sa_sec : w_sec s.1.1 = sec;
  sa_max : lm_max (tranx s.1.1) = n;
  sa_table : lm_entries (tranx s.1.1) = tx_table n sec cs;
  sa_profiled : all_profiled s.1.1;
  sa_known : forall h r, lm_get (tranx s.1.1) h = Some r -> exists p, p ∈ s.2 /\ x_Service (p_Transaction p) = h;
  sa_service : forall c, c ∈ cs -> exists p, p ∈ s.2 /\ x_Service (p_Transaction p) = ServiceHash c;
  sa_special : forall c tx, c ∈ cs -> sent_record conf WebMethodName sec c = Ret tx -> plain conf c (clamp_tx tx) = false ->
    exists p, p ∈ s.2 /\ x_Txid (p_Transaction p) = ProfileSeq c
}.
Lemma take_tx_sampled u sec n cs s c :
  sampled sec n cs s -> record_ok sec c -> sampled sec n (cs ++ [c]) (take_tx u s c).
Proof.
  intros [Hsec Hmax Htab Hpro Hkn Hse Hsp] Hok. destruct s as [[w lr] out].
  cbn [fst snd] in *. subst sec.
  destruct (proj2 (proj2 Hok)) as [tx Htx].
  destruct (take_tx_spec u w lr out c tx Hpro Hok Htx) as (w' & sent & -> & Hs & [Hm He] & Hw & Hq).
  destruct (sent_record_ids _ _ _ Htx) as [Hh _]. rewrite Hh in He.
  assert (forall h r, lm_get (tranx w') h = Some r ->
    (h = ServiceHash c /\ exists r0, r = service_step c tx r0) \/ (h <> ServiceHash c /\ lm_get (tranx w) h = Some r)) as Hget.
  { intros h r. unfold lm_get at 1. rewrite He. apply get_on_entry. }
  assert (exists p, p ∈ out ++ option_list sent /\ x_Service (p_Transaction p) = ServiceHash c) as Hown.
  { destruct Hw as [[[r Hr] _]|[q ->]].
    - destruct (Hkn _ _ Hr) as (p & Hi & Hp). exists p. split; [apply elem_of_app; by left|done].
    - exists q. split; [apply elem_of_app; right; by apply elem_of_cons; left|]. by apply Hq. }
  pose proof (on_sample_entries new_service (fun _ x => service_step x.1 x.2) n (omap (tx_sample (w_sec w)) cs)
    (tranx w) (ServiceHash c, (c, tx)) Hmax Htab) as [_ Hnew].
  split; simpl; try done; try congruence.
  - rewrite He. unfold tx_table. rewrite omap_app. simpl. unfold tx_sample at 2. rewrite Htx. exact Hnew.
  - intros h r Hr. destruct (Hget h r Hr) as [(_ & r0 & ->)|[_ Ho]]; [done|by apply Hpro in Ho].
  - intros h r Hr. destruct (Hget h r Hr) as [[-> _]|[_ Ho]]; [done|]. destruct (Hkn _ _ Ho) as (p & Hi & Hp).
    exists p. split; [apply elem_of_app; by left|done].
  - intros x [Hx| ->%list_elem_of_singleton]%elem_of_app; [|done]. destruct (Hse x Hx) as (p & Hi & Hp).
    exists p. split; [apply elem_of_app; by left|done].
  - intros x t [Hx| ->%list_elem_of_singleton]%elem_of_app Ht Hpl.
    + destruct (Hsp x t Hx Ht Hpl) as (p & Hi & Hp). exists p. split; [apply elem_of_app; by left|done].
    + rewrite Htx in Ht. injection Ht as <-. destruct Hw as [[_ Hw]|[q ->]]; [congruence|].
      exists q. split; [apply elem_of_app; right; by apply elem_of_cons; left|]. by apply Hq.
Qed.
Lemma round_sampled u w lr cs :
  lm_entries (tranx w) = [] -> Forall (record_ok (w_sec w)) cs ->
  sampled (w_sec w) (lm_max (tranx w)) cs (foldl (take_tx u) (w, lr, []) cs).
Proof.
  intros Hw. induction cs as [|c cs IH] using rev_ind; intros Hok.
  - assert (forall h r, lm_get (tranx w) h <> Some r) as Hn by (intros h r; unfold lm_get; by rewrite Hw).
    split; simpl; try done.
    + rewrite Hw. unfold tx_table, table_of. simpl. by destruct (lm_max _).
    + intros h r Hr. by apply Hn in Hr.
    + intros h r Hr. by apply Hn in Hr.
    + intros c Hc. by apply elem_of_nil in Hc.
    + intros c tx Hc. by apply elem_of_nil in Hc.
  - apply Forall_app in Hok as [Hcs [Hc _]%Forall_cons]. rewrite foldl_app. simpl. apply take_tx_sampled; auto.
Qed.

(** C17. Whatever the transactions of a statistics round, in whatever order: every service
    has the profile of at least one of its transactions sent, and every transaction
    that is slow, failed, was looked at or belongs to a trace has its own sent; a
    service whose record does not fit the table has all of them sent. *)
Theorem services_sampled u w lr cs :
  lm_entries (tranx w) = [] -> Forall (record_ok (w_sec w)) cs ->
  let sent := (foldl (take_tx u) (w, lr, []) cs).2 in
  (forall c, c ∈ cs -> exists p, p ∈ sent /\ x_Service (p_Transaction p) = ServiceHash c) /\
  (forall c tx, c ∈ cs -> sent_record conf WebMethodName (w_sec w) c = Ret tx -> plain conf c (clamp_tx tx) = false ->
     exists p, p ∈ sent /\ x_Txid (p_Transaction p) = ProfileSeq c).
Proof. intros Hw Hok. destruct (round_sampled u w lr cs Hw Hok). by split. Qed.

(** The statistics of transactions are exact: after a round, the records of the first
    services that fit hold the counts, errors, times, extremes, apdex and resources of
    all their transactions, in order, and nothing else. *)
Theorem StatTranx_exact u w lr cs :
  lm_entries (tranx w) = [] -> Forall (record_ok (w_sec w)) cs ->
  lm_entries (tranx (foldl (take_tx u) (w, lr, []) cs).1.1) = tx_table (lm_max (tranx w)) (w_sec w) cs.
Proof. intros Hw Hok. by destruct (round_sampled u w lr cs Hw Hok). Qed.

(** * The record sent is the one that was metered *)

(** The meter takes a negative time for 0 and gives the apdex that the sender gives. *)
Lemma Add_apdex m tx p k o :
  (0 <= ApdexTime (meters conf))%Z ->
  (MeterService.Add (meters conf) m (meter_tx (tx <| x_Apdex := 0%Z |>)) p k o).2 =
    meter_tx (clamp_tx (tx <| x_Apdex := apdex_of conf tx |>)).
Proof.
  intros Ha. unfold MeterService.Add, MeterService.add_bucket, MeterService.add_apdex, MeterService.is_error,
    MeterService.clamp, clamp_tx, apdex_of. destruct tx. simpl.
  destruct (x_Elapsed <? 0)%Z eqn:E; simpl;
    (destruct (MeterService.WARNING <=? x_ErrorLevel)%Z; simpl; [done|]).
  - apply Z.ltb_lt in E. rewrite !(proj2 (Z.leb_le _ _)) by lia. done.
  - destruct (x_Elapsed <=? _)%Z; simpl; [done|]. by destruct (x_Elapsed <=? _)%Z.
Qed.
Lemma with_texts_meter c t0 t1 :
  with_texts conf c t0 = Ret t1 ->
  meter_tx (t1 <| x_Apdex := 0%Z |>) = meter_tx (t0 <| x_Apdex := 0%Z |>) /\
  x_McallerPcode t1 = x_McallerPcode t0 /\ x_McallerOkind t1 = x_McallerOkind t0 /\ x_McallerOid t1 = x_McallerOid t0.
Proof.
  unfold with_texts.
  destruct (TxTextTxnameEnabled conf), (ServiceURL c), (Thr c), (TxTextErrorEnabled conf); try done; by intros [= <-].
Qed.

Lemma tx_of_fields sec c c' f : ExtraFields c = (c', f) -> tx_of WebMethodName sec c' = tx_of WebMethodName sec c.
Proof. intros H. assert (c' = (ExtraFields c).1) as -> by (by rewrite H). reflexivity. Qed.
Lemma meter_end_eq tx v c w :
  meter_end conf (tx <| x_OriginUrl := v |>) c w =
    let '(m, y) := MeterService.Add (meters conf) (w_service w) (meter_tx tx) (McallerPcode c) (McallerOkind c) (McallerOid c) in
    (w <| w_service := m |>, metered (tx <| x_OriginUrl := v |>) y).
Proof. destruct tx. reflexivity. Qed.
Lemma end_stats_kept c tx w : w_service (end_stats conf c tx w) = w_service w /\ w_sec (end_stats conf c tx w) = w_sec w.
Proof. unfold end_stats. by destruct (TxStatusMeterEnabled _), (StatTxStatusEnabled conf), (AppContextEnabled conf). Qed.
Lemma EndTx_meters now wall w l c :
  IsStaticContents c = false ->
  let '(w1, c1) := EndTx conf WebMethodName now wall w l c in
  w_sec w1 = w_sec w /\
  w_service w1 = (MeterService.Add (meters conf) (w_service w) (meter_tx (tx_of WebMethodName (w_sec w) c1))
                    (McallerPcode c1) (McallerOkind c1) (McallerOid c1)).1.
Proof.
  intros Hst. unfold EndTx. cbv zeta.
  change (IsStaticContents (c <| TraceContext.Elapsed := since now c |>)) with (IsStaticContents c). rewrite Hst.
  set (c2 := end_times wall _). clearbody c2. destruct (ExtraFields c2) as [c3 f] eqn:E.
  change (w_sec (w <| w_table ::= _ |>)) with (w_sec w). rewrite <- (tx_of_fields _ _ _ _ E).
  remember (tx_of WebMethodName (w_sec w) c3) as t0 eqn:E0. rewrite meter_end_eq.
  change (w_service (w <| w_table ::= _ |>)) with (w_service w).
  destruct (MeterService.Add _ _ _ _ _ _) as [m y] eqn:EA. unfold SendTransaction.
  match goal with |- context [end_stats conf ?c ?t ?w] => destruct (end_stats_kept c t w) as [H1 H2] end.
  split; [exact H2|]. rewrite <- E0, EA. exact H1.
Qed.
Lemma no_apdex tx : x_Apdex tx = 0%Z -> meter_tx (tx <| x_Apdex := 0%Z |>) = meter_tx tx.
Proof. destruct tx. simpl. by intros ->. Qed.
(** C40. The transaction that [EndTx] counts in the meter is the one the profile sender
    later puts in the profile: the same times, error level and caller, the same apdex,
    and a negative time is 0 for both. *)
Theorem metered_is_sent now wall w l c :
  IsStaticContents c = false -> (0 <= ApdexTime (meters conf))%Z ->
  let '(w1, c1) := EndTx conf WebMethodName now wall w l c in
  forall tx, sent_record conf WebMethodName (w_sec w1) c1 = Ret tx ->
    MeterService.Add (meters conf) (w_service w) (meter_tx (tx <| x_Apdex := 0%Z |>))
      (x_McallerPcode tx) (x_McallerOkind tx) (x_McallerOid tx) = (w_service w1, meter_tx (clamp_tx tx)).
Proof.
  intros Hst Ha. pose proof (EndTx_meters now wall w l c Hst) as H.
  destruct (EndTx _ _ _ _ _ _ _) as [w1 c1]. destruct H as (Hs & Hm). rewrite Hs. intros tx Htx.
  unfold sent_record in Htx. destruct (with_texts _ _ _) as [t1| |] eqn:E; [|done..].
  destruct (with_texts_meter _ _ _ E) as (Ht & Hp & Hk & Ho).
  assert (tx = t1 <| x_Apdex := apdex_of conf t1 |>) as -> by (by apply (f_equal (fun r => match r with Ret x => x | _ => tx end)) in Htx).
  pose proof (Add_apdex (w_service w) t1 (x_McallerPcode t1) (x_McallerOkind t1) (x_McallerOid t1) Ha) as Hx.
  change (meter_tx ((t1 <| x_Apdex := apdex_of conf t1 |>) <| x_Apdex := 0%Z |>)) with (meter_tx (t1 <| x_Apdex := 0%Z |>)).
  change (x_McallerPcode (t1 <| x_Apdex := apdex_of conf t1 |>)) with (x_McallerPcode t1).
  change (x_McallerOkind (t1 <| x_Apdex := apdex_of conf t1 |>)) with (x_McallerOkind t1).
  change (x_McallerOid (t1 <| x_Apdex := apdex_of conf t1 |>)) with (x_McallerOid t1).
  rewrite Ht, Hp, Hk, Ho in *.
  rewrite (no_apdex (tx_of WebMethodName (w_sec w) c1)) in * by reflexivity.
  rewrite Hm. etrans; [apply surjective_pairing|]. by apply (f_equal2 pair).
Qed.
End Facts.

(** * Witnesses *)

Definition method1 (m : bytes) : option Z := if bool_decide (m = str "GET") then Some 1%Z else None.
(** A fast transaction, a slow one of the same service, and one of another service. *)
Definition tx_ctx (id service elapsed : Z) : TraceContext.t :=
  (TraceContext.NewTraceContext 1) <| TraceContext.ProfileSeq := id |> <| TraceContext.ServiceHash := service |>
    <| TraceContext.Elapsed := elapsed |> <| TraceContext.Referer := 3%Z |>.
Definition txs1 : list TraceContext.t := [tx_ctx 1 7 10; tx_ctx 2 7 20; tx_ctx 3 7 900; tx_ctx 4 8 5].
Lemma txs1_ok : Forall (record_ok apiconf1 method1 Panic Panic (w_sec world1)) txs1.
Proof.
  repeat apply Forall_cons_2; [..|apply Forall_nil_2]; (split; [done|]; split; [by eexists|]);
    eexists; vm_compute; reflexivity.
Qed.
Lemma services_sampled_witness :
  exists p, p ∈ (foldl (take_tx apiconf1 method1 Panic Panic 30 0) (world1, 0%Z, []) txs1).2 /\
    x_Service (p_Transaction p) = 8%Z.
Proof.
  apply (proj1 (services_sampled apiconf1 method1 Panic Panic 30 0 world1 0 txs1 eq_refl txs1_ok) (tx_ctx 4 8 5)).
  unfold txs1. by apply elem_of_cons; right; apply elem_of_cons; right; apply elem_of_cons; right; apply elem_of_cons; left.
Defined.
Lemma StatTranx_exact_witness :
  (fun e => (e.1, StatTranx.Count e.2, StatTranx.TimeSum e.2)) <$>
    lm_entries (s_tranx (w_stats (foldl (take_tx apiconf1 method1 Panic Panic 30 0) (world1, 0%Z, []) txs1).1.1)) =
    [(7, 3, 930); (8, 1, 5)]%Z.
Proof.
  rewrite (StatTranx_exact apiconf1 method1 Panic Panic 30 0 world1 0 txs1 eq_refl txs1_ok). by vm_compute.
Defined.
Lemma metered_is_sent_witness :
  let '(w1, c1) := EndTx apiconf1 method1 1100 5000 world1 3 (tx_ctx 1 7 0) in
  forall tx, sent_record apiconf1 method1 (w_sec w1) c1 = Ret tx ->
    MeterService.Add (meters apiconf1) (w_service world1) (meter_tx (tx <| x_Apdex := 0%Z |>))
      (x_McallerPcode tx) (x_McallerOkind tx) (x_McallerOid tx) = (w_service w1, meter_tx (clamp_tx tx)).
Proof. apply (metered_is_sent apiconf1 method1 1100 5000 world1 3 (tx_ctx 1 7 0)); [done|by vm_compute]. Defined.
