(* ===== verification/TraceManager.v ===== *)
(** The transactions that come as datagrams, and the contexts in use:
    [src/agent/agent/trace/TraceContextManager.go].

    A context is a location of the heap; the table of running transactions, the queue
    of finished ones and the pool of free ones hold locations.  The packs are golib's,
    with the fields used, as their [Process] leaves them.  Nothing recovers here: a
    panic leaves the handler, which only unlocks. *)

From stdpp Require Import gmap.
From S2P Require Import Prelude EscapeSQL Hmap UrlPattern TraceCtx MeterService Meters DataPack DataText.
From S2P Require Import ParsedSql Stat StatError TraceContext TraceApi TraceSteps TraceMain.

(** What the packs have in common: the transaction and the readings; an error. *)
Record Head := mkHead { h_Txid : Z; h_Time : Z; h_Elapsed : Z; h_Cpu : Z; h_Mem : Z }.
Record Fault := mkFault { ErrorType : bytes; f_ErrorMessage : bytes; Stack : bytes }.

Section Packs.
Context {UU : UrlUtil}.
Record StartPack := mkStart {
  s_Host : bytes; s_Uri : bytes; s_Ipaddr : bytes; s_UAgent : bytes; s_Ref : bytes; s_WClientId : bytes;
  s_HttpMethod : bytes; s_IsStatic : bool; s_ServiceURL : URL; s_RefererURL : URL; s_Pid : Z; s_ThreadId : Z
}.
Record EndPack := mkEnd {
  e_Host : bytes; e_Mtid : Z; e_Mdepth : Z; e_McallerTxid : Z; e_McallerPcode : Z; e_McallerSpec : bytes;
  e_McallerUrl : bytes; e_McallerUrlHash : Z; e_McallerPoidKey : bytes; e_Status : Z
}.
Inductive UdpPack :=
| TX_START (h : Head) (p : StartPack)
| TX_START_END (h : Head) (p : StartPack) (e : EndPack)
| TX_END (h : Head) (e : EndPack)
| TX_SQL (h : Head) (Dbc Sql : bytes) (f : Fault)
| TX_SQL_PARAM (h : Head) (Dbc Sql Param : bytes) (f : Fault)
| TX_HTTPC (h : Head) (HttpcURL : URL) (StepId : Z) (f : Fault)
| TX_ERROR (h : Head) (f : Fault)
| TX_MSG (h : Head) (Hash Value Desc : bytes)
| TX_SECURE_MSG (h : Head) (Hash Desc : bytes)
| TX_METHOD (h : Head) (Method Stack : bytes)
| TX_DB_CONN (h : Head) (Dbc : bytes) (f : Fault)
| TX_OTHER.
End Packs.

Section Manager.
Context {LMz : LinkedMap Z} {LMi : LinkedMap (Z * Z)} {LMh : LinkedMap StatHttpc.HTTPC}
  {LMm : LinkedMap StatTranxMtCaller.MtraceKEY} {BU : BitUtil} {SU : StringUtil} {SM : StringMore} {TT : TextTypes}
  {RQ : RequestQueue} {CT : CountTable} {PT : PathTree} {HM : MeterService.Pack} {UU : UrlUtil} {PC : IProfileCollector}
  {HX : Hexa32} {AC : AppContext}.
Abbreviation ctx_t := TraceContext.t.
Import TraceContext.
Variable conf : ApiConf.
Variable WebMethodName : bytes -> option Z.
Variable INFO : Z.
(** [io.ToInt(iputil.ToBytes(s), 0)]; [sync.Pool]'s choice. *)
Variable ip_of : bytes -> Z.
Variable pool_get : list nat -> option nat.

Record Agent := mkAgent { ag_w : World; ag_heap : gmap nat ctx_t; ag_pool : list nat }.

(** ** Contexts *)

Definition GetContext (key : Z) (a : Agent) : option nat := lm_get (w_table (ag_w a)) key.
Definition PutContext (key : Z) (l : nat) (a : Agent) : Agent := a <| ag_w ::= fun w => w <| w_table ::= fun m => lm_put m key l |> |>.
Definition RemoveContext (key : Z) (a : Agent) : Agent := a <| ag_w ::= fun w => w <| w_table ::= fun m => lm_remove m key |> |>.
Definition ContainsTxid (key : Z) (a : Agent) : bool := match GetContext key a with Some _ => true | None => false end.
(** A free context, or a new one. *)
Definition PoolTraceContext (a : Agent) : nat * ctx_t * Agent :=
  match pool_get (ag_pool a) with
  | Some l => (l, default (NewTraceContext (InternalTraceCollectingMode conf)) (ag_heap a !! l), a <| ag_pool ::= filter (fun x => x <> l) |>)
  | None => let l : nat := base.fresh (dom (ag_heap a)) in
            (l, NewTraceContext (InternalTraceCollectingMode conf),
             a <| ag_heap ::= <[l := NewTraceContext (InternalTraceCollectingMode conf)]> |>)
  end.
Definition CloseTraceContext (l : nat) (a : Agent) : Agent :=
  a <| ag_heap ::= alter (Clear (InternalTraceCollectingMode conf)) l |> <| ag_pool ::= cons l |>.
Definition store (l : nat) (c : ctx_t) (w : World) (a : Agent) : Agent := a <| ag_w := w |> <| ag_heap ::= <[l := c]> |>.

(** ** Start *)

(** Not traced: daemons' URLs and the command line. *)
Definition unwanted (p : StartPack) : bool :=
  (TraceDaemonEnabled conf && bool_decide (s_Uri p ∈ TraceDaemonUrls conf)) ||
  (negb (TraceCLIEnabled conf) && bool_decide (s_Host p = str "CLI")).
Definition arrival (w : World) : World := w <| w_service ::= fun m => m <| MeterService.Arrival ::= add64 1 |> |>.
(** As in [StartTx], but without [OriginURL]. *)
Definition udp_name (now : Z) (w : World) (c : ctx_t) (url : URL) : World * ctx_t :=
  let '(w, c') := start_name conf now w c url in (w, c' <| OriginURL := OriginURL c |>).
Definition ignored (w : World) (c : ctx_t) : ctx_t :=
  if negb (IsStaticContents c) then c <| IsStaticContents := IsIgnoreTrace conf (ServiceHash c) (ServiceName c) |> else c.
Definition udp_domain (host : bytes) (p : StartPack) (w : World) (c : ctx_t) : World * ctx_t :=
  (text TEXT_HTTP_DOMAIN host w,
   c <| HttpHost := host |> <| HttpHostHash := HashStr host |> <| HttpMethod := to_upper <$> s_HttpMethod p |>).
(** The client's address is the first of a list. *)
Definition client_ip (s : bytes) : bytes :=
  let l := split_at_byte "," s in
  if Contains s (str ",") && bool_decide (1 < length l) then nth 0 l [] else s.
Definition udp_client (h : Head) (p : StartPack) (w : World) (c : ctx_t) : World * ctx_t :=
  let c := c <| StartTime := h_Time h |> <| RemoteIp := ip_of (client_ip (s_Ipaddr p)) |> <| StartCpu := h_Cpu h |>
             <| StartMalloc := h_Mem h |> in
  let '(w, c) :=
    if TraceUserAgentEnabled conf then
      (text TEXT_USER_AGENT (s_UAgent p) w, c <| UserAgentString := s_UAgent p |> <| UserAgent := HashStr (s_UAgent p) |>)
    else (w, c) in
  let '(w, c) :=
    if TraceRefererEnabled conf then
      let r := u_String (s_RefererURL p) in
      (w <| w_text ::= fun t => SendHashText t TEXT_REFERER (HashStr r) (s_Ref p) |>,
       c <| Referer := HashStr r |> <| RefererURL := Some (NewURL r) |>)
    else (w, c) in
  let c := c <| Txid := h_Txid h |> <| Pid := s_Pid p |> <| ThreadId := s_ThreadId p |> <| ProfileSeq := h_Txid h |> in
  let c := if TraceUserEnabled conf then
             c <| WClientId := match s_WClientId p with [] => RemoteIp c | id => HashStr id end |>
           else c in
  (text TEXT_SERVICE (ServiceName c) w, c).

(** The context is taken from the pool first; a start that returns early does not give
    it back. *)
Definition startTx (now : Z) (h : Head) (p : StartPack) (a : Agent) : res Agent :=
  if unwanted p then Ret a
  else
    let a := a <| ag_w ::= arrival |> in
    let '(l, c, a) := PoolTraceContext a in
    let c := c <| IsStaticContents := s_IsStatic p |> <| ServiceURL := Some (s_ServiceURL p) |> in
    let '(w, c) := udp_name now (ag_w a) c (s_ServiceURL p) in
    if InArray (s_HttpMethod p) (IgnoreHttpMethod conf) then Ret (store l c w a)
    else
      c ← add_query conf (ServiceName c) (s_ServiceURL p) (add_host conf (s_ServiceURL p) c);
      let c := ignored w c in
      let '(w, c) := udp_domain (HostPort (s_ServiceURL p)) p w c in
      let '(w, c) := udp_client h p w c in
      let w := AddMeterUsers conf now (WClientId c) w in
      Ret (PutContext (h_Txid h) l (store l c w a)).

(** ** End *)

Definition set_mtrace (e : EndPack) (c : ctx_t) : ctx_t :=
  c <| Mtid := e_Mtid e |> <| Mdepth := e_Mdepth e |> <| McallerTxid := e_McallerTxid e |>
    <| McallerPcode := e_McallerPcode e |> <| McallerSpec := e_McallerSpec e |> <| McallerUrl := e_McallerUrl e |>
    <| McallerUrlHash := e_McallerUrlHash e |>.
(** [parse_poid] of the pack's key, which the context does not keep. *)
Definition udp_poid (key : bytes) (c : ctx_t) : ctx_t :=
  (parse_poid (c <| McallerPoidKey := key |>)) <| McallerPoidKey := McallerPoidKey c |>.
(** The record has no step of the caller. *)
Definition udp_record (w : World) (c : ctx_t) : TxRec := (tx_of WebMethodName (w_sec w) c) <| x_McallerStepId := 0%Z |>.
Definition endTx (wall : Z) (h : Head) (e : EndPack) (a : Agent) : Agent :=
  match GetContext (h_Txid h) a with
  | None => a
  | Some l =>
      let a := RemoveContext (h_Txid h) a in
      match ag_heap a !! l with
      | None => a
      | Some c =>
          let c := c <| TraceContext.Elapsed := int32 (int64 (h_Time h - StartTime c)) |> in
          if IsStaticContents c then store l c (ag_w a) a
          else
            let c := c <| EndCpu := h_Cpu h |> <| EndMalloc := h_Mem h |> <| EndTime := wall |>
                       <| StartTime := int64 (wall - TraceContext.Elapsed c) |> in
            let c := udp_poid (e_McallerPoidKey e) ((set_mtrace e c) <| Status := e_Status e |>) in
            let tx := udp_record (ag_w a) c in
            let '(c, _) := ExtraFields c in
            let '(w, tx) := meter_end conf tx c (ag_w a) in
            let w := if AppContextEnabled conf then w <| w_app ::= fun x => appctx_EndTx x (AppCtx c) tx |> else w in
            store l c (SendTransaction l w) a
      end
  end.

(** The service's name: not by application, the host without its port. *)
Definition start_end_name (now : Z) (w : World) (c : ctx_t) (url : URL) : World * ctx_t :=
  let path := u_Path url in
  let name := if TraceNormalizeEnabled (urls conf)
              then (ServiceURLPatternDetector.Normalize (urls conf)
                      (ServiceURLPatternDetector.GetInstanceServiceURLPatternDetector (urls conf) now) path).1
              else path in
  let c := c <| ServiceName := name |> <| ServiceHash := HashStr name |> in
  let w := text TEXT_SERVICE name w in
  if negb (HashStr path =? ServiceHash c)%Z then addMessage w c 0 0 (str "OriginURL") [] path 0 false else (w, c).
Definition start_end_host (url : URL) (c : ctx_t) : ctx_t :=
  if ProfileHttpHostEnabled conf && nonempty (u_Host url) then
    let name := if HasPrefix (u_Path url) (str "/") then str "/" ++ u_Host url ++ ServiceName c
                else str "/" ++ u_Host url ++ str "/" ++ ServiceName c in
    c <| ServiceName := name |> <| ServiceHash := HashStr name |>
  else c.
(** The end of a transaction in one pack; the readings of the end are those of the start. *)
Definition start_end_done (wall : Z) (h : Head) (e : EndPack) (c : ctx_t) : ctx_t :=
  let c := c <| TraceContext.Elapsed := int32 (h_Elapsed h) |> in
  let c := c <| EndCpu := h_Cpu h |> <| EndMalloc := h_Mem h |> <| EndTime := wall |>
             <| StartTime := int64 (wall - TraceContext.Elapsed c) |> in
  udp_poid (e_McallerPoidKey e) (set_mtrace e c).
Definition start_end_record (w : World) (c : ctx_t) : TxRec :=
  (udp_record w c) <| x_CpuTime := if (EndCpu c <? 0)%Z then (-1)%Z else int32 (EndCpu c) |>
                   <| x_Malloc := if (EndMalloc c <? 0)%Z then (-1)%Z else EndMalloc c |>.
(** [config.InArray]: without surrounding blanks and without case. *)
Definition conf_InArray (s : bytes) (l : list bytes) : bool :=
  existsb (fun it => bool_decide (to_upper <$> TrimSpace s = to_upper <$> TrimSpace it)) l.
Definition startEndTx (now wall : Z) (h : Head) (p : StartPack) (e : EndPack) (a : Agent) : res Agent :=
  if unwanted p then Ret a
  else
    let a := a <| ag_w ::= arrival |> in
    let '(l, c, a) := PoolTraceContext a in
    let c := c <| IsStaticContents := s_IsStatic p |> in
    if IsStaticContents c then Ret (store l c (ag_w a) a)
    else
      let '(w, c) := start_end_name now (ag_w a) c (s_ServiceURL p) in
      if conf_InArray (s_HttpMethod p) (IgnoreHttpMethod conf) then Ret (store l c w a)
      else
        c ← add_query conf (ServiceName c) (s_ServiceURL p) (start_end_host (s_ServiceURL p) c);
        let c := ignored w c in
        let '(w, c) := udp_domain (u_Host (s_ServiceURL p)) p w c in
        let '(w, c) := udp_client h p w c in
        let w := AddMeterUsers conf now (WClientId c) w in
        let c := start_end_done wall h e c in
        let tx := start_end_record w c in
        let '(c, _) := ExtraFields c in
        let '(w, _) := meter_end conf tx c w in
        Ret (store l c (SendTransaction l w) a).

(** ** Steps *)

(** The count of a statement by its kind; deprecated, and no handler calls it. *)
Definition crud_count (crud : ascii) (c : ctx_t) : ctx_t :=
  match crud with
  | "S"%char => c <| SqlSelect ::= inc32 |>
  | "U"%char => c <| SqlUpdate ::= inc32 |>
  | "D"%char => c <| SqlDelete ::= inc32 |>
  | "I"%char => c <| SqlInsert ::= inc32 |>
  | _ => c <| SqlOthers ::= inc32 |>
  end.
Definition addSqlTime (w : World) (c : ctx_t) (serviceHash dbc : Z) (crud : ascii) (hash elapsed : Z) (isErr : bool) : World * ctx_t :=
  let '(m, known) := StatTranx.GetService (s_tranx (w_stats w)) serviceHash in
  let w := w <| w_stats ::= fun s => s <| s_tranx := m |> <| s_sql ::= fun t => StatSql.AddSqlTime t serviceHash dbc hash elapsed isErr |> |> in
  (w, if known then crud_count crud c else c).

Definition context_of (key : Z) (a : Agent) : option (nat * ctx_t) :=
  l ← GetContext key a; c ← ag_heap a !! l; Some (l, c).
Definition fault (w : World) (f : Fault) : res (World * ErrorThrowable) :=
  '(w, stack) ← StackToArray conf w (Stack f); Ret (w, mkThr (ErrorType f) (f_ErrorMessage f) stack).
(** The error of a step: one a message left for it, or its own; the frames are sent twice. *)
Definition udp_step_error (now : Z) (w : World) (c : ctx_t) (f : Fault) : res (World * ctx_t * Z * list Z) :=
  let '(e, c) := if ErrorStep c then (Error_ c, c <| ErrorStep := false |>) else (0%Z, c) in
  if nonempty (ErrorType f) then
    '(w, thr) ← fault w f;
    let '(w, c) := ProfileErrorStep conf INFO now w thr c in
    '(w, stack) ← StackToArray conf w (Stack f);
    Ret (w, c, Error_ c, stack)
  else Ret (w, c, e, []).
Definition alone (count : bool -> World -> World) (now : Z) (w : World) (f : Fault) : res World :=
  if nonempty (ErrorType f) then '(w, thr) ← fault (count true w) f; Ret (stat_error now w thr 0 false []).1
  else Ret (count false w).

Definition sql_pack (now : Z) (w : World) (h : Head) (Dbc Sql Param : bytes) (f : Fault) (a : Agent) : res Agent :=
  '(w, p) ← escape conf w Sql;
  let st := NewSqlStepX <| sq_Dbc := HashStr Dbc |> <| sq_Elapsed := h_Elapsed h |> <| sq_Hash := psql p |>
              <| sq_Xtype := xtype_of p |> in
  match context_of (h_Txid h) a with
  | None => w ← alone (stat_sql 0 st) now w f; Ret (a <| ag_w := w |>)
  | Some (l, c) =>
      let st := st <| sq_StartTime := since (h_Time h) c |> in
      st ← sql_params conf w p Param st;
      let st := sql_resources conf (h_Cpu h) (h_Mem h) c st in
      '(w, c, e, stack) ← udp_step_error now w c f;
      let '(w, c) := sql_counted conf w c (st <| sq_Error := e |> <| sq_Stack := stack |>) in
      Ret (store l c (text TEXT_DB_URL Dbc w) a)
  end.
Definition profileSql (now : Z) (h : Head) (Dbc Sql : bytes) (f : Fault) (a : Agent) : res Agent :=
  sql_pack now (ag_w a) h Dbc Sql [] f a.
(** The statement's text is sent as it is first. *)
Definition profileSqlParam (now : Z) (h : Head) (Dbc Sql Param : bytes) (f : Fault) (a : Agent) : res Agent :=
  sql_pack now (text TEXT_SQL Sql (ag_w a)) h Dbc Sql Param f a.
Definition profileHttpc (now : Z) (h : Head) (u : URL) (StepId : Z) (f : Fault) (a : Agent) : res Agent :=
  let '(w, st, nUrl, host) := httpc_of_url conf (ag_w a) u in
  let st := st <| hc_Elapsed := h_Elapsed h |> <| hc_StepId := StepId |> in
  match context_of (h_Txid h) a with
  | None => w ← alone (stat_httpc 0 st) now w f; Ret (a <| ag_w := w |>)
  | Some (l, c) =>
      let st := httpc_resources conf (h_Cpu h) (h_Mem h) c (st <| hc_StartTime := since (h_Time h) c |>) in
      '(w, c, e, stack) ← udp_step_error now w c f;
      let '(w, c) := httpc_counted conf false w c (st <| hc_Error := e |> <| hc_Stack := stack |>) in
      Ret (store l c (httpc_text nUrl host w) a)
  end.
(** A message for PHP and Go, a mark for the next step otherwise. *)
Definition profileError (now : Z) (h : Head) (f : Fault) (a : Agent) : res Agent :=
  '(w, thr) ← fault (ag_w a) f;
  if IsIgnoreException conf thr then Ret (a <| ag_w := w |>)
  else
    match context_of (h_Txid h) a with
    | None => Ret (a <| ag_w := (stat_error now w thr 0 false []).1 |>)
    | Some (l, c) =>
        let '(w, c) :=
          if EscapeLiteralSQL.php (sql_app (sqls conf)) || app_type_go conf then
            let st := NewMessageStep <| ms_StartTime := since (h_Time h) c |> <| ms_Time := h_Elapsed h |>
                        <| ms_Hash := HashStr (ErrorType f) |>
                        <| ms_Desc := Truncate (TrimEmpty (f_ErrorMessage f)) 400 |> in
            (text TEXT_MESSAGE (ErrorType f) w, profile_add_heavy (SMessage st) c)
          else (w, c <| ErrorStep := true |>) in
        let '(w, c) := record_error conf INFO now w c thr in
        Ret (store l c w a)
    end.
(** One header: its key as configured, and its value unless it is to be hidden. *)
Definition header_line (it : bytes) : bytes :=
  let '(k, v) := ToPair it (str "=") in
  let k := if HasPrefix k (str "HTTP_") then drop 5 k else k in
  let k := (fun x => if bool_decide (x = "-"%char) then "_"%char else x) <$> (to_lower <$> k) in
  if bool_decide (k ∈ ProfileHttpHeaderIgnoreKeys conf) then k ++ str "=#" ++ ["010"%char]
  else k ++ str "=" ++ v ++ ["010"%char].
Definition profileMsg (h : Head) (Hash Value Desc : bytes) (a : Agent) : Agent :=
  match context_of (h_Txid h) a with
  | None => a
  | Some (l, c) =>
      let st := NewMessageStep <| ms_StartTime := since (h_Time h) c |> <| ms_Time := h_Elapsed h |> <| ms_Hash := HashStr Hash |> in
      let st := match Value with
                | [] => st
                | _ => match Atoi Value with Some n => st <| ms_Value := int32 n |> | None => st end
                end in
      let desc := if bool_decide (Hash = str "HTTP-HEADERS") then concat (header_line <$> split_at_byte "010" Desc) else Desc in
      store l (profile_add (SMessage (st <| ms_Desc := desc |>)) c) (text TEXT_MESSAGE Hash (ag_w a)) a
  end.
Definition profileSecureMsg (h : Head) (Hash Desc : bytes) (a : Agent) : res Agent :=
  match context_of (h_Txid h) a with
  | None => Ret a
  | Some (l, c) =>
      if with_parameters conf c then
        '(value, crc) ← secure_body (ag_w a) c Hash Desc;
        Ret (store l (profile_add (SSecure (mkSecure (since (h_Time h) c) (HashStr Hash) value crc)) c)
               (text TEXT_MESSAGE Hash (ag_w a)) a)
      else Ret a
  end.
Definition profileMethod (h : Head) (Method Stack : bytes) (a : Agent) : res Agent :=
  match context_of (h_Txid h) a with
  | None => Ret a
  | Some (l, c) =>
      let method := if HasSuffix Method (str ")") then Method else Method ++ str "()" in
      let w := text TEXT_METHOD method (ag_w a) in
      let st := NewMethodStepX <| mt_Hash := HashStr method |> <| mt_StartTime := since (h_Time h) c |>
                  <| mt_Elapsed := h_Elapsed h |> in
      let st := method_resources conf (h_Cpu h) (h_Mem h) c st in
      '(w, st) ← (if nonempty Stack then
                    '(w, stack) ← StackToArray conf w Stack; Ret (w, st <| mt_stk := true |> <| mt_Stack := stack |>)
                  else Ret (w, st));
      Ret (store l (profile_add (SMethod st) c) w a)
  end.
Definition profileDBC (now : Z) (h : Head) (Dbc : bytes) (f : Fault) (a : Agent) : res Agent :=
  match context_of (h_Txid h) a with
  | None => Ret a
  | Some (l, c) =>
      let w := text TEXT_METHOD Dbc (text TEXT_DB_URL Dbc (ag_w a)) in
      let st := NewDBCStep <| db_Hash := HashStr Dbc |> <| db_StartTime := since (h_Time h) c |> <| db_Elapsed := h_Elapsed h |> in
      '(w, c, st) ← (if nonempty (ErrorType f) then
                       '(w, thr) ← fault w f;
                       let '(w, c) := ProfileErrorStep conf INFO now w thr c in
                       let msg := Truncate (TrimEmpty (f_ErrorMessage f)) 200 in
                       Ret (text TEXT_ERROR msg w, c, st <| db_Error := HashStr msg |>)
                     else Ret (w, c, st));
      let c := c <| DbcTime ::= fun n => int32 (n + db_Elapsed st) |> in
      Ret (store l (add_step (db_Error st) (SDbc st) c) w a)
  end.

(** ** The agent *)

(** [now] and [wall] are the clocks the handlers read. *)
Definition TxPut (now wall : Z) (up : UdpPack) (a : Agent) : res Agent :=
  match up with
  | TX_START h p => startTx now h p a
  | TX_START_END h p e => startEndTx now wall h p e a
  | TX_END h e => Ret (endTx wall h e a)
  | TX_SQL h d q f => profileSql now h d q f a
  | TX_SQL_PARAM h d q p f => profileSqlParam now h d q p f a
  | TX_HTTPC h u id f => profileHttpc now h u id f a
  | TX_ERROR h f => profileError now h f a
  | TX_MSG h t v d => Ret (profileMsg h t v d a)
  | TX_SECURE_MSG h t d => profileSecureMsg h t d a
  | TX_METHOD h m s => profileMethod h m s a
  | TX_DB_CONN h d f => profileDBC now h d f a
  | TX_OTHER => Ret a
  end.
(** A transaction without an end: a last message, and the end. *)
Definition NewEndPack : EndPack := mkEnd [] 0 0 0 0 [] [] 0 [] 0.
Definition RemoveLostContext (now wall key : Z) (a : Agent) : res Agent :=
  a ← TxPut now wall (TX_MSG (mkHead key now 0 0 0) (str "Lost Connection") (str "0") []) a;
  TxPut now wall (TX_END (mkHead key now 0 (-1) (-1)) NewEndPack) a.
(** [Clear]: the loop stops before the last key. *)
Definition close_key (a : Agent) (e : Z * nat) : Agent := CloseTraceContext e.2 (RemoveContext e.1 a).
Definition Manager_Clear (a : Agent) : Agent :=
  let a := foldl close_key a (removelast (lm_entries (w_table (ag_w a)))) in
  a <| ag_w ::= fun w => w <| w_table ::= fun m => lm_new (lm_max m) |> |>.
(** A round of the sender. *)
Definition sender (nD nP : res bytes) (EVENT_LEVEL_WARNING unixnow LastReject : Z) (a : Agent) : Agent * Z * option ProfilePack :=
  match w_queue (ag_w a) with
  | None => (a, LastReject, None)
  | Some q =>
      let '(v, q) := q_Get q in
      let a := a <| ag_w ::= fun w => w <| w_queue := Some q |> |> in
      match l ← v; c ← ag_heap a !! l; Some (l, c) with
      | None => (a, LastReject, None)
      | Some (l, c) =>
          let '(w, c, closed, lr, p) := process conf WebMethodName nD nP EVENT_LEVEL_WARNING unixnow LastReject (ag_w a) c in
          let a := store l c w a in
          (if closed : bool then a <| ag_pool ::= cons l |> else a, lr, p)
      end
  end.
End Manager.
