(* ===== verification/TraceManagerFacts.v ===== *)
(** Every context has one owner: the pool, the queue of finished transactions or one
    entry of the table of running ones, so that no transaction sees another's. *)

From stdpp Require Import gmap.
From S2P Require Import Prelude EscapeSQL Hmap UrlPattern TraceCtx MeterService Meters DataPack DataText.
From S2P Require Import ParsedSql Stat StatError TraceContext TraceApi TraceSteps TraceMain TraceManager TraceSamples.

Section Facts.
Context {LMz : LinkedMap Z} {LLz : LinkedMapLaws Z LMz} {LMi : LinkedMap (Z * Z)} {LMh : LinkedMap StatHttpc.HTTPC}
  {LMm : LinkedMap StatTranxMtCaller.MtraceKEY} {BU : BitUtil} {SU : StringUtil} {SM : StringMore} {TT : TextTypes}
  {RQ : RequestQueue} {QL : QueueLaws RQ} {CT : CountTable} {PT : PathTree} {HM : MeterService.Pack} {UU : UrlUtil}
  {PC : IProfileCollector} {HX : Hexa32} {AC : AppContext}.
Abbreviation ctx_t := TraceContext.t.
Import TraceContext.
Variable conf : ApiConf.
Variable WebMethodName : bytes -> option Z.
Variable INFO : Z.
Variable ip_of : bytes -> Z.
Variable pool_get : list nat -> option nat.
Hypothesis pool_get_in : forall free l, pool_get free = Some l -> l ∈ free.

(** * What a call leaves alone *)

(** The running and the finished transactions. *)
Definition same_txs (w w' : World) : Prop := w_table w' = w_table w /\ w_queue w' = w_queue w.
Lemma same_refl w : same_txs w w.
Proof. done. Qed.
Lemma same_trans w1 w2 w3 : same_txs w1 w2 -> same_txs w2 w3 -> same_txs w1 w3.
Proof. unfold same_txs. intros [-> ->] [-> ->]. done. Qed.
Lemma same_text d t w w' : same_txs w w' -> same_txs w (text d t w').
Proof. done. Qed.
Lemma escape_same w q w' p : escape conf w q = Ret (w', p) -> same_txs w w'.
Proof. unfold escape. destruct (EscapeLiteral _ _ _ _) as [[[p' cs] tx]| |]; simpl; [|done..]. by intros [= <- _]. Qed.
Lemma stat_error_same now w thr h b steps : same_txs w (stat_error now w thr h b steps).1.
Proof. unfold stat_error. by destruct (StatError.AddError _ _ _ _ _ _ _ _ _ _) as [[[e tx] out] id]. Qed.
Lemma record_error_same now w c thr : same_txs w (record_error conf INFO now w c thr).1.
Proof.
  unfold record_error. cbv zeta. pose proof (stat_error_same now w thr
    (ServiceHash (c <| Thr := Some thr |>)) (ErrorSnapEnabled conf) (c_GetStep4Error (Profile (c <| Thr := Some thr |>)))) as H.
  by destruct (stat_error _ _ _ _ _ _) as [w' id].
Qed.
Lemma ProfileErrorStep_same now w thr c : same_txs w (ProfileErrorStep conf INFO now w thr c).1.
Proof. unfold ProfileErrorStep. destruct (IsIgnoreException _ _); [done|]. apply record_error_same. Qed.
Lemma StackToArray_same w s w' l : StackToArray conf w s = Ret (w', l) -> same_txs w w'.
Proof.
  unfold StackToArray. destruct (_ <? 0)%Z; [done|]. intros [= <- _].
  match goal with |- same_txs _ (foldl _ _ ?fs) => generalize fs end.
  intros fs. revert w. induction fs as [|f fs IH]; intros w; [done|]. simpl. eapply same_trans; [|apply IH]. done.
Qed.
Lemma fault_same w f w' thr : fault conf w f = Ret (w', thr) -> same_txs w w'.
Proof.
  unfold fault. destruct (StackToArray conf w (Stack f)) as [[w1 l]| |] eqn:E; simpl; [|done..]. intros [= <- _].
  by apply StackToArray_same in E.
Qed.
Lemma alone_same count now w f w' :
  (forall b w, same_txs w (count b w)) -> alone conf count now w f = Ret w' -> same_txs w w'.
Proof.
  intros Hc. unfold alone. destruct (nonempty _); [|by intros [= <-]].
  destruct (fault conf (count true w) f) as [[w1 thr]| |] eqn:E; simpl; [|done..]. intros [= <-].
  apply fault_same in E. eapply same_trans; [apply (Hc true)|]. eapply same_trans; [exact E|]. apply stat_error_same.
Qed.
Lemma udp_step_error_same now w c f w' c' e stack :
  udp_step_error conf INFO now w c f = Ret (w', c', e, stack) -> same_txs w w'.
Proof.
  unfold udp_step_error. set (c1 := if ErrorStep c then _ else _). destruct c1 as [e1 c2].
  destruct (nonempty _); [|by intros [= <- _ _ _]].
  destruct (fault conf w f) as [[w1 thr]| |] eqn:E; simpl; [|done..].
  pose proof (ProfileErrorStep_same now w1 thr c2) as Hs. destruct (ProfileErrorStep _ _ _ _ _ _) as [w2 c3].
  destruct (StackToArray conf w2 (Stack f)) as [[w3 l]| |] eqn:Ea; simpl; [|done..]. intros [= <- _ _ _].
  eapply same_trans; [by eapply fault_same|]. eapply same_trans; [exact Hs|]. by eapply StackToArray_same.
Qed.
Lemma sql_counted_same w c st : same_txs w (sql_counted conf w c st).1.
Proof. done. Qed.
Lemma httpc_counted_same b w c st : same_txs w (httpc_counted conf b w c st).1.
Proof. done. Qed.
Lemma start_name_same now w c u : same_txs w (start_name conf now w c u).1.
Proof.
  unfold start_name. cbv zeta. destruct (_ && _).
  - destruct (GetContextPath _ _ _). by destruct (negb _).
  - by destruct (negb _).
Qed.
Lemma start_end_name_same now w c u : same_txs w (start_end_name conf now w c u).1.
Proof. unfold start_end_name. cbv zeta. by destruct (negb _). Qed.
Lemma udp_client_same h p w c : same_txs w (udp_client conf ip_of h p w c).1.
Proof. unfold udp_client. cbv zeta. by destruct (TraceUserAgentEnabled conf), (TraceRefererEnabled conf). Qed.
Lemma AddMeterUsers_same now id w : same_txs w (AddMeterUsers conf now id w).
Proof. unfold AddMeterUsers. by destruct (_ && _). Qed.
Lemma meter_end_same tx c w : same_txs w (meter_end conf tx c w).1.
Proof. unfold meter_end. by destruct (MeterService.Add _ _ _ _ _ _). Qed.

(** * Packs that report a step *)

(** They change at most the context of their own transaction. *)
Definition at_most (key : Z) (a a' : Agent) : Prop :=
  same_txs (ag_w a) (ag_w a') /\ ag_pool a' = ag_pool a /\
  (ag_heap a' = ag_heap a \/
   exists l c, GetContext key a = Some l /\ is_Some (ag_heap a !! l) /\ ag_heap a' = <[l := c]> (ag_heap a)).
Lemma at_most_world key a w : same_txs (ag_w a) w -> at_most key a (a <| ag_w := w |>).
Proof. intros H. split; [exact H|]. split; [done|by left]. Qed.
Lemma at_most_store key a l c c' w :
  context_of key a = Some (l, c) -> same_txs (ag_w a) w -> at_most key a (store l c' w a).
Proof.
  unfold context_of. destruct (GetContext key a) as [l1|] eqn:El; [|done]. simpl.
  destruct (ag_heap a !! l1) as [c1|] eqn:Ec; [|done]. simpl. intros [= -> ->] H.
  split; [exact H|]. split; [done|]. right. exists l, c'. by rewrite Ec.
Qed.

Lemma sql_pack_frame now w h d q p f a a' :
  same_txs (ag_w a) w -> sql_pack conf INFO now w h d q p f a = Ret a' -> at_most (h_Txid h) a a'.
Proof.
  intros Hw. unfold sql_pack. destruct (escape conf w q) as [[w1 ps]| |] eqn:E1; simpl; [|done..].
  pose proof (same_trans _ _ _ Hw (escape_same _ _ _ _ E1)) as H1.
  destruct (context_of (h_Txid h) a) as [[l c]|] eqn:Ec.
  - destruct (sql_params conf w1 ps p _) as [st| |]; simpl; [|done..].
    destruct (udp_step_error _ _ _ _ _ _) as [[[[w2 c2] e] stack]| |] eqn:E2; simpl; [|done..].
    intros [= <-]. eapply at_most_store; [exact Ec|]. apply same_text, same_trans with w1; [done|].
    eapply same_trans; [by eapply udp_step_error_same|]. done.
  - destruct (alone _ _ _ _ _) as [w2| |] eqn:E2; simpl; [|done..]. intros [= <-]. apply at_most_world.
    eapply same_trans; [exact H1|]. eapply alone_same; [|exact E2]. done.
Qed.
Lemma profileHttpc_frame now h u id f a a' :
  profileHttpc conf INFO now h u id f a = Ret a' -> at_most (h_Txid h) a a'.
Proof.
  unfold profileHttpc, httpc_of_url. destruct (URLPatternDetector.Normalize _ _ _) as [n d]. cbv beta iota zeta.
  set (w1 := (ag_w a) <| w_urls := d |>). assert (same_txs (ag_w a) w1) as H1 by done. clearbody w1.
  destruct (context_of (h_Txid h) a) as [[l c]|] eqn:Ec.
  - destruct (udp_step_error _ _ _ _ _ _) as [[[[w2 c2] e] stack]| |] eqn:E2; simpl; [|done..].
    intros [= <-]. eapply at_most_store; [exact Ec|]. eapply same_trans; [exact H1|].
    apply udp_step_error_same in E2. exact E2.
  - destruct (alone _ _ _ _ _) as [w2| |] eqn:E2; simpl; [|done..]. intros [= <-]. apply at_most_world.
    eapply same_trans; [exact H1|]. eapply alone_same; [|exact E2]. done.
Qed.
Lemma profileError_frame now h f a a' : profileError conf INFO now h f a = Ret a' -> at_most (h_Txid h) a a'.
Proof.
  unfold profileError. destruct (fault conf (ag_w a) f) as [[w1 thr]| |] eqn:E1; simpl; [|done..].
  apply fault_same in E1. destruct (IsIgnoreException conf thr); [intros [= <-]; by apply at_most_world|].
  destruct (context_of (h_Txid h) a) as [[l c]|] eqn:Ec.
  - set (s := if _ || _ then _ else _). assert (same_txs w1 s.1) as Hs by (subst s; by destruct (_ || _)).
    destruct s as [w2 c2]. pose proof (record_error_same now w2 c2 thr) as Hr.
    destruct (record_error _ _ _ _ _ _) as [w3 c3]. intros [= <-]. eapply at_most_store; [exact Ec|].
    eapply same_trans; [exact E1|]. eapply same_trans; [exact Hs|exact Hr].
  - intros [= <-]. apply at_most_world. eapply same_trans; [exact E1|]. apply stat_error_same.
Qed.
Lemma profileMsg_frame h t v d a : at_most (h_Txid h) a (profileMsg conf h t v d a).
Proof.
  unfold profileMsg. destruct (context_of (h_Txid h) a) as [[l c]|] eqn:Ec; [by eapply at_most_store|].
  split; [done|]. split; [done|by left].
Qed.
Lemma at_most_refl key a : at_most key a a.
Proof. split; [done|]. split; [done|by left]. Qed.
Lemma profileSecureMsg_frame h t d a a' : profileSecureMsg conf h t d a = Ret a' -> at_most (h_Txid h) a a'.
Proof.
  unfold profileSecureMsg. destruct (context_of (h_Txid h) a) as [[l c]|] eqn:Ec; [|intros [= <-]; apply at_most_refl].
  destruct (with_parameters conf c); [|intros [= <-]; apply at_most_refl].
  destruct (secure_body _ _ _ _) as [[v crc]| |]; simpl; [|done..]. intros [= <-]. by eapply at_most_store.
Qed.
Lemma profileMethod_frame h m s a a' : profileMethod conf h m s a = Ret a' -> at_most (h_Txid h) a a'.
Proof.
  unfold profileMethod. destruct (context_of (h_Txid h) a) as [[l c]|] eqn:Ec; [|intros [= <-]; apply at_most_refl].
  cbv zeta. destruct (nonempty s).
  - destruct (StackToArray conf _ s) as [[w1 st]| |] eqn:E; simpl; [|done..]. intros [= <-].
    eapply at_most_store; [exact Ec|]. apply StackToArray_same in E. exact E.
  - simpl. intros [= <-]. by eapply at_most_store.
Qed.
Lemma profileDBC_frame now h d f a a' : profileDBC conf INFO now h d f a = Ret a' -> at_most (h_Txid h) a a'.
Proof.
  unfold profileDBC. destruct (context_of (h_Txid h) a) as [[l c]|] eqn:Ec; [|intros [= <-]; apply at_most_refl].
  cbv zeta. destruct (nonempty (ErrorType f)).
  - destruct (fault _ _ f) as [[w1 thr]| |] eqn:E; simpl; [|done..]. apply fault_same in E.
    pose proof (ProfileErrorStep_same now w1 thr c) as Hs. destruct (ProfileErrorStep _ _ _ _ _ _) as [w2 c2]. simpl.
    intros [= <-]. eapply at_most_store; [exact Ec|]. apply (same_trans _ w1); [exact E|exact Hs].
  - simpl. intros [= <-]. by eapply at_most_store.
Qed.

Definition pack_txid (up : UdpPack) : option Z :=
  match up with
  | TX_START h _ | TX_START_END h _ _ | TX_END h _ | TX_SQL h _ _ _ | TX_SQL_PARAM h _ _ _ _ | TX_HTTPC h _ _ _
  | TX_ERROR h _ | TX_MSG h _ _ _ | TX_SECURE_MSG h _ _ | TX_METHOD h _ _ | TX_DB_CONN h _ _ => Some (h_Txid h)
  | TX_OTHER => None
  end.
Definition life_pack (up : UdpPack) : bool :=
  match up with TX_START _ _ | TX_START_END _ _ _ | TX_END _ _ => true | _ => false end.
Lemma step_frame now wall up a a' :
  life_pack up = false -> TxPut conf WebMethodName INFO ip_of pool_get now wall up a = Ret a' ->
  at_most (default 0%Z (pack_txid up)) a a'.
Proof.
  destruct up; simpl; try done; intros _.
  - intros H. eapply sql_pack_frame; [|exact H]. done.
  - intros H. eapply sql_pack_frame; [|exact H]. done.
  - apply profileHttpc_frame.
  - apply profileError_frame.
  - intros [= <-]. apply profileMsg_frame.
  - apply profileSecureMsg_frame.
  - apply profileMethod_frame.
  - apply profileDBC_frame.
  - intros [= <-]. apply at_most_refl.
Qed.

(** * Owners *)

Definition waiting (a : Agent) : list nat := match w_queue (ag_w a) with Some q => q_items q | None => [] end.
Definition held (a : Agent) : list nat := ag_pool a ++ waiting a.
Record owned (a : Agent) : Prop := {
  ow_NoDup : NoDup (held a);
  ow_apart : forall key l, GetContext key a = Some l -> l ∉ held a;
  ow_inj : forall k1 k2 l, GetContext k1 a = Some l -> GetContext k2 a = Some l -> k1 = k2;
  ow_held : forall l, l ∈ held a -> l ∈ dom (ag_heap a);
  ow_live : forall key l, GetContext key a = Some l -> l ∈ dom (ag_heap a);
  ow_within : lm_within (w_table (ag_w a))
}.
(** Taken from its owner and not given to another. *)
Definition loose (l : nat) (a : Agent) : Prop :=
  l ∉ held a /\ (forall key, GetContext key a <> Some l) /\ l ∈ dom (ag_heap a).
(** The other transactions are as they were, or were given up. *)
Definition isolated (key : Z) (a a' : Agent) : Prop :=
  forall k x, k <> key -> context_of k a' = Some x -> context_of k a = Some x.

Lemma context_of_Some key a l c : context_of key a = Some (l, c) <-> GetContext key a = Some l /\ ag_heap a !! l = Some c.
Proof.
  unfold context_of. destruct (GetContext key a) as [l1|]; simpl; [|naive_solver].
  destruct (ag_heap a !! l1) as [c1|] eqn:E; simpl; split; naive_solver.
Qed.
Lemma isolated_trans key a1 a2 a3 : isolated key a1 a2 -> isolated key a2 a3 -> isolated key a1 a3.
Proof. unfold isolated. eauto. Qed.
(** No other transaction enters or leaves the table. *)
Definition table_kept (key : Z) (a a' : Agent) : Prop := forall k, k <> key -> GetContext k a' = GetContext k a.
(** At most one other transaction leaves it, and that only for a new one in a full table. *)
Definition displaces (key : Z) (a a' : Agent) : Prop :=
  exists gone : option Z,
    (forall k, k <> key -> gone <> Some k -> GetContext k a' = GetContext k a) /\
    (forall k, gone = Some k -> k <> key /\ is_Some (GetContext k a) /\ GetContext k a' = None /\
       GetContext key a = None /\ ~ lm_room (w_table (ag_w a))).
Lemma kept_displaces key a a' : table_kept key a a' -> displaces key a a'.
Proof. intros H. exists None. split; [|done]. intros k Hk _. by apply H. Qed.
(** The table after is made from one with the entries and the bound of the first. *)
Lemma displaces_from key a a1 a2 :
  w_table (ag_w a1) = w_table (ag_w a) -> displaces key a1 a2 -> displaces key a a2.
Proof. intros E (g & H1 & H2). unfold GetContext in *. rewrite E in *. by exists g. Qed.
Lemma store_get l c w a k : same_txs (ag_w a) w -> GetContext k (store l c w a) = GetContext k a.
Proof. intros [H _]. unfold GetContext. simpl. by rewrite H. Qed.
Lemma send_get l c w a k : same_txs (ag_w a) w -> GetContext k (store l c (SendTransaction l w) a) = GetContext k a.
Proof. intros [H _]. unfold GetContext, SendTransaction. simpl. by rewrite H. Qed.
Lemma isolated_refl key a : isolated key a a.
Proof. by intros k x. Qed.
Lemma same_held a w : same_txs (ag_w a) w -> waiting (a <| ag_w := w |>) = waiting a.
Proof. intros [_ H]. unfold waiting. simpl. by rewrite H. Qed.

Lemma store_owned l c w a :
  same_txs (ag_w a) w -> owned a -> l ∈ dom (ag_heap a) -> owned (store l c w a).
Proof.
  intros Hs [H1 H2 H3 H4 H5 H6] Hl. pose proof (same_held a w Hs) as Hw.
  assert (held (store l c w a) = held a) as Hh by (unfold held; simpl; f_equal; exact Hw).
  assert (forall k, GetContext k (store l c w a) = GetContext k a) as Hg.
  { intros k. unfold GetContext. simpl. by rewrite (proj1 Hs). }
  split; rewrite ?Hh; try done.
  - intros key l'. rewrite Hg. apply H2.
  - intros k1 k2 l'. rewrite !Hg. apply H3.
  - intros l' Hin. simpl. rewrite dom_insert. set_solver.
  - intros key l'. rewrite Hg. simpl. rewrite dom_insert. intros ?%H5. set_solver.
  - simpl. by rewrite (proj1 Hs).
Qed.
Lemma store_loose l c w a : same_txs (ag_w a) w -> loose l a -> loose l (store l c w a).
Proof.
  intros Hs (H1 & H2 & H3). assert (held (store l c w a) = held a) as Hh.
  { unfold held. simpl. f_equal. apply (same_held a w Hs). }
  split; [by rewrite Hh|]. split; [|simpl; rewrite dom_insert; set_solver].
  intros key. unfold GetContext. simpl. rewrite (proj1 Hs). apply H2.
Qed.
(** Writing at a location only its own transaction sees. *)
Lemma store_isolated key l c w a :
  same_txs (ag_w a) w -> (forall k, k <> key -> GetContext k a <> Some l) -> isolated key a (store l c w a).
Proof.
  intros Hs Hl k [l' c'] Hk. rewrite !context_of_Some. unfold GetContext. simpl. rewrite (proj1 Hs). intros [Hg Hc].
  split; [exact Hg|]. rewrite lookup_insert_ne in Hc; [done|]. intros <-. by apply (Hl k Hk).
Qed.
Lemma at_most_owned key a a' : at_most key a a' -> owned a -> owned a' /\ isolated key a a'.
Proof.
  intros (Hs & Hp & Hh) Ho. destruct a as [w hp pl], a' as [w' hp' pl']. simpl in *. subst pl'.
  destruct Hh as [->|(l & c & Hl & Hi & ->)].
  - assert (forall k, GetContext k (mkAgent w' hp pl) = GetContext k (mkAgent w hp pl)) as Hg.
    { intros k. unfold GetContext. simpl. by rewrite (proj1 Hs). }
    assert (held (mkAgent w' hp pl) = held (mkAgent w hp pl)) as Hw.
    { unfold held. f_equal. exact (same_held (mkAgent w hp pl) w' Hs). }
    split.
    + destruct Ho as [H1 H2 H3 H4 H5 H6]. split; rewrite ?Hw; try done.
      * intros key' l. rewrite Hg. apply H2.
      * intros k1 k2 l. rewrite !Hg. apply H3.
      * intros key' l. rewrite Hg. apply H5.
      * simpl. by rewrite (proj1 Hs).
    + intros k x _. unfold context_of. by rewrite Hg.
  - change (mkAgent w' (<[l:=c]> hp) pl) with (store l c w' (mkAgent w hp pl)). split.
    + apply store_owned; [done..|]. by apply elem_of_dom.
    + apply store_isolated; [done|]. intros k Hk Hl'. apply Hk. by eapply (ow_inj _ Ho).
Qed.

(** ** Taking and giving *)

Lemma pool_spec a :
  owned a ->
  let '(l, c, a1) := PoolTraceContext conf pool_get a in
  owned a1 /\ loose l a1 /\ ag_w a1 = ag_w a /\ (forall key, isolated key a a1).
Proof.
  intros [H1 H2 H3 H4 H5 H6]. unfold PoolTraceContext. destruct (pool_get (ag_pool a)) as [l|] eqn:E.
  - apply pool_get_in in E. set (a1 := a <| ag_pool ::= _ |>).
    assert (forall x, x ∈ held a1 <-> x ∈ held a /\ x <> l) as Hin.
    { intros x. unfold held, a1. simpl. change (waiting (a <| ag_pool ::= _ |>)) with (waiting a).
      rewrite !elem_of_app, list_elem_of_filter. apply NoDup_app in H1 as (_ & Hd & _). split; [|naive_solver].
      intros [[]|Hx]; [naive_solver|]. split; [by right|]. intros ->. by apply (Hd l). }
    split; [|split; [|split; [done|]]].
    + split.
      * unfold held, a1. simpl. change (waiting (a <| ag_pool ::= _ |>)) with (waiting a).
        apply NoDup_app in H1 as (Hp & Hd & Hw). apply NoDup_app. split; [by apply NoDup_filter, Hp|]. split; [|done].
        intros x [_ Hx]%list_elem_of_filter. by apply Hd.
      * intros key x Hx [Hi _]%Hin. by apply (H2 key x Hx).
      * exact H3.
      * intros x [Hx _]%Hin. by apply H4.
      * exact H5.
      * exact H6.
    + split; [|split].
      * by intros [_ ?]%Hin.
      * intros key Hk. apply (H2 key l Hk). unfold held. apply elem_of_app. by left.
      * apply H4. unfold held. apply elem_of_app. by left.
    + by intros key k x _.
  - set (l := base.fresh (dom (ag_heap a))). assert (l ∉ dom (ag_heap a)) as Hf by apply is_fresh.
    split; [|split; [|split; [done|]]].
    + split; try done.
      * intros x Hx%H4. simpl. rewrite dom_insert. set_solver.
      * intros key x Hx%H5. simpl. rewrite dom_insert. set_solver.
    + split; [intros ?%H4; done|]. split; [intros key ?%H5; done|]. simpl. rewrite dom_insert. set_solver.
    + intros key k [l' c'] _. rewrite !context_of_Some. intros [Hg Hc]. split; [exact Hg|]. simpl in Hc.
      rewrite lookup_insert_ne in Hc; [done|]. intros <-. by apply H5 in Hg.
Qed.
Lemma arrival_owned a : owned a -> owned (a <| ag_w ::= arrival |>).
Proof. intros []. by split. Qed.
Lemma put_owned key l a :
  owned a -> loose l a ->
  owned (PutContext key l a) /\ isolated key a (PutContext key l a) /\ displaces key a (PutContext key l a).
Proof.
  intros [H1 H2 H3 H4 H5 H6] (L1 & L2 & L3).
  assert (forall k x, GetContext k (PutContext key l a) = Some x -> (k = key /\ x = l) \/ (k <> key /\ GetContext k a = Some x)) as Hg.
  { intros k x. unfold GetContext, PutContext. simpl. intros Hx. destruct (decide (k = key)) as [->|Hk].
    - left. rewrite put_get in Hx. by injection Hx.
    - right. split; [done|]. by apply put_old in Hx. }
  split; [|split].
  - split; try done.
    + intros k x [[-> ->]|[_ Hx]]%Hg; [done|by apply (H2 k)].
    + intros k1 k2 x [[-> ->]|[_ Hx]]%Hg [[-> Hy]|[_ Hy]]%Hg; try done.
      * by apply L2 in Hy.
      * subst x. by apply L2 in Hx.
      * by apply (H3 _ _ x).
    + intros k x [[-> ->]|[_ Hx]]%Hg; [done|by apply (H5 k)].
    + by apply put_within.
  - intros k [x c] Hk. rewrite !context_of_Some. intros [[[-> _]|[_ Hx]]%Hg Hc]; [done|]. by split.
  - by apply get_put.
Qed.
Lemma remove_owned key l a :
  owned a -> GetContext key a = Some l ->
  owned (RemoveContext key a) /\ loose l (RemoveContext key a) /\ isolated key a (RemoveContext key a).
Proof.
  intros [H1 H2 H3 H4 H5 H6] Hl.
  assert (forall k x, GetContext k (RemoveContext key a) = Some x <-> k <> key /\ GetContext k a = Some x) as Hg.
  { intros k x. unfold GetContext, RemoveContext. simpl. rewrite get_remove. destruct (decide (k = key)); naive_solver. }
  split; [|split].
  - split; try done.
    + intros k x [_ Hx]%Hg. by apply (H2 k).
    + intros k1 k2 x [_ Hx]%Hg [_ Hy]%Hg. by apply (H3 _ _ x).
    + intros k x [_ Hx]%Hg. by apply (H5 k).
    + by apply remove_within.
  - split; [by apply (H2 key)|]. split; [|by apply (H5 key)]. intros k [Hk Hx]%Hg. apply Hk. by apply (H3 _ _ l).
  - intros k [x c] Hk. rewrite !context_of_Some, Hg. naive_solver.
Qed.
(** The context goes to the queue, which may give up older ones. *)
Lemma send_owned l a :
  owned a -> loose l a ->
  owned (a <| ag_w ::= SendTransaction l |>) /\ (forall key, isolated key a (a <| ag_w ::= SendTransaction l |>)).
Proof.
  intros [H1 H2 H3 H4 H5 H6] (L1 & L2 & L3). split; [|by intros key k x _].
  assert (forall x, x ∈ held (a <| ag_w ::= SendTransaction l |>) -> x ∈ held a \/ x = l) as Hin.
  { intros x. unfold held, waiting, SendTransaction. simpl. destruct (w_queue (ag_w a)) as [q|]; simpl; [|by left].
    destruct (items_PutForce _ q l) as (dr & kept & Hq & -> & _). rewrite Hq. set_solver. }
  split.
  - unfold held, waiting, SendTransaction in *. simpl. destruct (w_queue (ag_w a)) as [q|]; simpl; [|done].
    destruct (items_PutForce _ q l) as (dr & kept & Hq & -> & _). rewrite Hq in H1, L1.
    apply NoDup_app in H1 as (Hp & Hd & Hw). apply NoDup_app in Hw as (_ & _ & Hk).
    apply NoDup_app. split; [done|]. split.
    + intros x Hx [Hy| ->%list_elem_of_singleton]%elem_of_app; [|set_solver]. apply (Hd x Hx). set_solver.
    + apply NoDup_app. split; [done|]. split; [|apply NoDup_singleton]. intros x Hx ->%list_elem_of_singleton. set_solver.
  - intros key x Hx [Hi| ->]%Hin; [by apply (H2 key x)|by apply L2 in Hx].
  - exact H3.
  - intros x [Hx| ->]%Hin; [by apply H4|done].
  - exact H5.
  - exact H6.
Qed.
Lemma store_loose_all key l c w a :
  same_txs (ag_w a) w -> owned a -> loose l a ->
  owned (store l c w a) /\ loose l (store l c w a) /\ isolated key a (store l c w a).
Proof.
  intros Hs Ho Hl. split; [apply store_owned; [done..|apply Hl]|]. split; [by apply store_loose|].
  apply store_isolated; [done|]. intros k _. apply Hl.
Qed.
Lemma store_send key l c w a :
  same_txs (ag_w a) w -> owned a -> loose l a ->
  owned (store l c (SendTransaction l w) a) /\ isolated key a (store l c (SendTransaction l w) a).
Proof.
  intros Hs Ho Hl. destruct (store_loose_all key l c w a Hs Ho Hl) as (H1 & H2 & H3).
  change (store l c (SendTransaction l w) a) with ((store l c w a) <| ag_w ::= SendTransaction l |>).
  destruct (send_owned l _ H1 H2) as [H4 H5]. split; [done|]. eapply isolated_trans; [exact H3|apply H5].
Qed.

(** A transaction that stays in the table stays as it was. *)
Lemma context_kept txid key a a' :
  owned a' -> isolated txid a a' -> key <> txid -> GetContext key a' = GetContext key a -> context_of key a' = context_of key a.
Proof.
  intros Ho Hi Hk Hg. destruct (GetContext key a') as [l|] eqn:El; [|by unfold context_of; rewrite El, <- Hg].
  destruct (proj1 (elem_of_dom _ _) (ow_live _ Ho key l El)) as [c Hc].
  pose proof (proj2 (context_of_Some key a' l c) (conj El Hc)) as Ex. by rewrite Ex, (Hi key _ Hk Ex).
Qed.

(** ** Starts and ends *)

Lemma arrived key a :
  owned a ->
  let '(l, c, a1) := PoolTraceContext conf pool_get (a <| ag_w ::= arrival |>) in
  owned a1 /\ loose l a1 /\ isolated key a a1 /\ (forall k, GetContext k a1 = GetContext k a) /\
  w_table (ag_w a1) = w_table (ag_w a).
Proof.
  intros Ho. pose proof (pool_spec _ (arrival_owned a Ho)) as H.
  destruct (PoolTraceContext _ _ _) as [[l c] a1]. destruct H as (H1 & H2 & H3 & H4). split; [done|]. split; [done|].
  split; [intros k x Hk Hx; apply (H4 key k x Hk Hx)|]. split; [intros k; unfold GetContext|]; by rewrite H3.
Qed.
Lemma udp_name_same now w c u : same_txs w (udp_name conf now w c u).1.
Proof. unfold udp_name. pose proof (start_name_same now w c u). by destruct (start_name _ _ _ _ _). Qed.
Lemma client_same now h p w c host :
  let '(w1, c1) := udp_domain host p w c in
  let '(w2, c2) := udp_client conf ip_of h p w1 c1 in
  same_txs w (AddMeterUsers conf now (WClientId c2) w2).
Proof.
  unfold udp_domain. cbv beta iota.
  match goal with |- context [udp_client _ _ _ _ ?w1 ?c1] =>
    pose proof (udp_client_same h p w1 c1) as H1; destruct (udp_client _ _ _ _ w1 c1) as [w2 c2] end.
  eapply same_trans; [|apply AddMeterUsers_same]. exact H1.
Qed.
Lemma startTx_owned now h p a a' :
  owned a -> startTx conf ip_of pool_get now h p a = Ret a' ->
  owned a' /\ isolated (h_Txid h) a a' /\ displaces (h_Txid h) a a'.
Proof.
  intros Ho. unfold startTx.
  destruct (unwanted conf p); [intros [= <-]; split; [exact Ho|split; [apply isolated_refl|by apply kept_displaces]]|]. cbv zeta.
  pose proof (arrived (h_Txid h) a Ho) as Ha. destruct (PoolTraceContext _ _ _) as [[l c] a1]. destruct Ha as (H1 & Hl & Hi & Hg & Ht).
  match goal with |- context [udp_name _ _ _ ?c0 _] => set (c1 := c0); clearbody c1 end.
  pose proof (udp_name_same now (ag_w a1) c1 (s_ServiceURL p)) as Hs. destruct (udp_name _ _ _ _ _) as [w1 c2]. simpl in Hs.
  destruct (InArray _ _).
  { intros [= <-]. destruct (store_loose_all (h_Txid h) l c2 w1 a1 Hs H1 Hl) as (H2 & _ & H3). split; [done|].
    split; [by eapply isolated_trans|]. apply kept_displaces. intros k _. rewrite store_get by done. apply Hg. }
  destruct (add_query _ _ _ _) as [c3| |]; cbn [mbind res_bind]; [|done..].
  pose proof (client_same now h p w1 (ignored conf w1 c3) (HostPort (s_ServiceURL p))) as Hc.
  destruct (udp_domain _ _ _ _) as [w2 c4]. destruct (udp_client _ _ _ _ _ _) as [w3 c5]. intros [= <-].
  destruct (store_loose_all (h_Txid h) l c5 _ a1 (same_trans _ _ _ Hs Hc) H1 Hl) as (H2 & Hl2 & H3).
  destruct (put_owned (h_Txid h) l _ H2 Hl2) as (H4 & H5 & H6). split; [done|]. split.
  - eapply isolated_trans; [exact Hi|]. by eapply isolated_trans.
  - eapply displaces_from; [|exact H6]. rewrite <- Ht. apply (same_trans _ _ _ Hs Hc).
Qed.
Lemma startEndTx_owned now wall h p e a a' :
  owned a -> startEndTx conf WebMethodName ip_of pool_get now wall h p e a = Ret a' ->
  owned a' /\ isolated (h_Txid h) a a' /\ table_kept (h_Txid h) a a'.
Proof.
  intros Ho. unfold startEndTx. destruct (unwanted conf p); [intros [= <-]; split; [exact Ho|split; [apply isolated_refl|done]]|]. cbv zeta.
  pose proof (arrived (h_Txid h) a Ho) as Ha. destruct (PoolTraceContext _ _ _) as [[l c] a1]. destruct Ha as (H1 & Hl & Hi & Hg & Ht).
  assert (forall c w, same_txs (ag_w a1) w ->
    owned (store l c w a1) /\ isolated (h_Txid h) a (store l c w a1) /\ table_kept (h_Txid h) a (store l c w a1)) as Hst.
  { intros c' w' Hs. destruct (store_loose_all (h_Txid h) l c' w' a1 Hs H1 Hl) as (H2 & _ & H3). split; [done|].
    split; [by eapply isolated_trans|]. intros k Hk. rewrite store_get by done. by apply Hg. }
  set (c1 := c <| IsStaticContents := _ |>). clearbody c1. destruct (IsStaticContents c1); [intros [= <-]; by apply Hst|].
  pose proof (start_end_name_same now (ag_w a1) c1 (s_ServiceURL p)) as Hs.
  destruct (start_end_name _ _ _ _ _) as [w1 c2]. simpl in Hs.
  destruct (conf_InArray _ _); [intros [= <-]; by apply Hst|].
  destruct (add_query _ _ _ _) as [c3| |]; cbn [mbind res_bind]; [|done..].
  pose proof (client_same now h p w1 (ignored conf w1 c3) (u_Host (s_ServiceURL p))) as Hc.
  destruct (udp_domain _ _ _ _) as [w2 c4]. destruct (udp_client _ _ _ _ _ _) as [w3 c5].
  set (w4 := AddMeterUsers _ _ _ _) in *. set (c6 := start_end_done _ _ _ _). clearbody w4 c6.
  destruct (ExtraFields c6) as [c7 fs]. match goal with |- context [meter_end conf ?t c7 w4] =>
    pose proof (meter_end_same t c7 w4) as Hm; destruct (meter_end conf t c7 w4) as [w5 tx] end.
  intros [= <-]. destruct (store_send (h_Txid h) l c7 w5 a1) as [H2 H3]; [|done..|].
  - eapply same_trans; [exact Hs|]. by eapply same_trans.
  - split; [done|]. split; [by eapply isolated_trans|]. intros k Hk. rewrite send_get; [by apply Hg|].
    eapply same_trans; [exact Hs|]. by eapply same_trans.
Qed.
Lemma endTx_owned wall h e a : owned a -> owned (endTx conf WebMethodName wall h e a) /\ isolated (h_Txid h) a (endTx conf WebMethodName wall h e a) /\
  table_kept (h_Txid h) a (endTx conf WebMethodName wall h e a).
Proof.
  intros Ho. unfold endTx. destruct (GetContext (h_Txid h) a) as [l|] eqn:El; [|split; [exact Ho|split; [apply isolated_refl|done]]].
  destruct (remove_owned _ _ _ Ho El) as (H1 & Hl & Hi). cbv zeta. set (a1 := RemoveContext (h_Txid h) a) in *.
  assert (forall k, k <> h_Txid h -> GetContext k a1 = GetContext k a) as Hg.
  { intros k Hk. unfold GetContext, a1, RemoveContext. simpl. rewrite get_remove. by case_decide. }
  clearbody a1. destruct (ag_heap a1 !! l) as [c|]; [|by split].
  assert (forall c w, same_txs (ag_w a1) w ->
    owned (store l c w a1) /\ isolated (h_Txid h) a (store l c w a1) /\ table_kept (h_Txid h) a (store l c w a1)) as Hst.
  { intros c' w' Hs. destruct (store_loose_all (h_Txid h) l c' w' a1 Hs H1 Hl) as (H2 & _ & H3). split; [done|].
    split; [by eapply isolated_trans|]. intros k Hk. rewrite store_get by done. by apply Hg. }
  match goal with |- context [IsStaticContents ?c0] => set (c1 := c0); clearbody c1 end.
  destruct (IsStaticContents c1); [by apply Hst|]. set (c2 := udp_poid _ _). clearbody c2.
  destruct (ExtraFields c2) as [c3 fs]. match goal with |- context [meter_end conf ?t c3 ?w] =>
    pose proof (meter_end_same t c3 w) as Hm; destruct (meter_end conf t c3 w) as [w5 tx] end. simpl in Hm.
  match goal with |- context [SendTransaction l ?w6] => destruct (store_send (h_Txid h) l c3 w6 a1) as [H2 H3] end;
    [by destruct (AppContextEnabled conf)|done..|].
  split; [done|]. split; [by eapply isolated_trans|]. intros k Hk.
  rewrite send_get; [by apply Hg|]. by destruct (AppContextEnabled conf).
Qed.

Definition starts (up : UdpPack) : bool := match up with TX_START _ _ => true | _ => false end.
Lemma TxPut_owned now wall up a a' :
  owned a -> TxPut conf WebMethodName INFO ip_of pool_get now wall up a = Ret a' ->
  owned a' /\ isolated (default 0%Z (pack_txid up)) a a' /\ displaces (default 0%Z (pack_txid up)) a a' /\
  (starts up = false -> table_kept (default 0%Z (pack_txid up)) a a').
Proof.
  intros Ho H. assert (owned a' /\ isolated (default 0%Z (pack_txid up)) a a' /\
    (displaces (default 0%Z (pack_txid up)) a a' /\ starts up = true \/ table_kept (default 0%Z (pack_txid up)) a a')) as (H1 & H2 & H3).
  { destruct (life_pack up) eqn:E.
    - destruct up; try done.
      + destruct (startTx_owned _ _ _ _ _ Ho H) as (H1 & H2 & H3). split; [done|]. split; [done|by left].
      + destruct (startEndTx_owned _ _ _ _ _ _ _ Ho H) as (H1 & H2 & H3). split; [done|]. split; [done|by right].
      + injection H as <-. destruct (endTx_owned wall h e a Ho) as (H1 & H2 & H3). split; [done|]. split; [done|by right].
    - apply (step_frame _ _ _ _ _ E) in H. destruct (at_most_owned _ _ _ H Ho) as [H1 H2]. split; [done|].
      split; [done|]. right. intros k _. unfold GetContext. destruct H as ([-> _] & _ & _). done. }
  split; [done|]. split; [done|]. destruct H3 as [[H3 ->]|H3]; [by split|]. split; [by apply kept_displaces|done].
Qed.
Lemma RemoveLostContext_owned now wall key a a' :
  owned a -> RemoveLostContext conf WebMethodName INFO ip_of pool_get now wall key a = Ret a' ->
  owned a' /\ isolated key a a'.
Proof.
  intros Ho. unfold RemoveLostContext.
  destruct (TxPut _ _ _ _ _ _ _ (TX_MSG _ _ _ _) a) as [a1| |] eqn:E1; cbn [mbind res_bind]; [|done..]. intros E2.
  destruct (TxPut_owned _ _ _ _ _ Ho E1) as (H1 & I1 & _ & _). destruct (TxPut_owned _ _ _ _ _ H1 E2) as (H2 & I2 & _ & _).
  split; [done|]. exact (isolated_trans _ _ _ _ I1 I2).
Qed.

(** ** The sender's rounds *)

Lemma stat_service_same u lr b c tx w : same_txs w (stat_service conf u lr b c tx w).1.1.1.
Proof.
  unfold stat_service. destruct (StatTranx.GetService _ _) as [m known]. destruct known; [|done]. cbv zeta.
  match goal with |- context [lm_get ?m ?k] => destruct (lm_get m k) as [r|] end; [|done].
  destruct (wants conf u lr b c _ r) as [want lr']. by destruct want.
Qed.
Lemma SendProfile_same nD nP EW u lr w c p b : same_txs w (SendProfile conf nD nP EW u lr w c p b).1.1.
Proof.
  unfold SendProfile. cbv zeta. set (w1 := stat_remote _ _ _ _ _).
  assert (same_txs w w1) as H1 by (subst w1; unfold stat_remote; by destruct (_ && _)). clearbody w1.
  assert (same_txs w1 (stat_login conf c (p_Transaction p) w1).1) as H2.
  { unfold stat_login. destruct (nonempty _); [|done]. by destruct (StatLoginEnabled conf). }
  destruct (stat_login _ _ _ _) as [w2 tx]. set (w3 := stat_domain _ _ _ _).
  assert (same_txs w2 w3) as H3 by (subst w3; unfold stat_domain; by destruct (_ && _)). clearbody w3.
  assert (same_txs w w3) as H03 by exact (same_trans _ _ _ H1 (same_trans _ _ _ H2 H3)).
  destruct (stat_referer _ _ _ _ _ _) as [w4| |] eqn:E4; [|exact H03..].
  assert (same_txs w3 w4) as H4.
  { revert E4. unfold stat_referer. destruct (_ && _); [|by intros [= <-]].
    destruct (referer_key _ _ _ _) as [[h s]| |]; cbn [mbind res_bind]; [|done..]. intros [= <-]. by destruct s. }
  assert (same_txs w4 (stat_mtrace conf c tx w4).1) as H5.
  { unfold stat_mtrace. destruct (_ && _); [|done]. by destruct (nonempty _), (nonempty _). }
  destruct (stat_mtrace _ _ _ _) as [w5 tx5]. pose proof (stat_service_same u lr b c tx5 w5) as H6.
  destruct (stat_service _ _ _ _ _ _ _) as [[[w6 lr6] tx6] want]. cbn [fst] in *.
  exact (same_trans _ _ _ H03 (same_trans _ _ _ H4 (same_trans _ _ _ H5 H6))).
Qed.
Lemma process_same nD nP EW u lr w c : same_txs w (process conf WebMethodName nD nP EW u lr w c).1.1.1.1.
Proof.
  unfold process. destruct (IsStaticContents c); [done|]. destruct (sent_record _ _ _ _); [|done..].
  destruct (ExtraFields c) as [c1 fs]. match goal with |- context [SendProfile _ _ _ _ _ _ _ _ ?p _] =>
    pose proof (SendProfile_same nD nP EW u lr w c1 p false) as H end.
  by destruct (SendProfile _ _ _ _ _ _ _ _ _ _) as [[w1 lr1] p1].
Qed.
(** The first of the queue is taken. *)
Lemma taken_owned q l a :
  w_queue (ag_w a) = Some q -> (q_Get q).1 = Some l -> owned a ->
  let a1 := a <| ag_w ::= fun w => w <| w_queue := Some (q_Get q).2 |> |> in
  owned a1 /\ loose l a1.
Proof.
  intros Hq Hv [H1 H2 H3 H4 H5 H6] a1. pose proof (items_Get _ q) as Hg. rewrite Hv in Hg.
  destruct (q_items q) as [|x xs] eqn:Ei; destruct Hg as [Hx Hi]; [done|]. injection Hx as <-.
  assert (held a = ag_pool a ++ l :: xs) as Hh by (unfold held, waiting; by rewrite Hq, Ei).
  assert (held a1 = ag_pool a ++ xs) as Hh1 by (unfold held, waiting, a1; simpl; by rewrite Hi).
  rewrite Hh in *. rewrite <- Permutation_middle in H1. apply NoDup_cons in H1 as [Hl H1].
  assert (forall y, y ∈ held a1 -> y ∈ ag_pool a ++ l :: xs) as Hs by (rewrite Hh1; set_solver).
  split.
  - split; rewrite ?Hh1; try done.
    + intros key y Hy Hin. apply (H2 key y Hy), Hs. by rewrite Hh1.
    + intros y Hin. apply H4, Hs. by rewrite Hh1.
  - split; [by rewrite Hh1|]. split.
    + intros key Hk. apply (H2 key l Hk). set_solver.
    + apply H4. set_solver.
Qed.
Lemma give_owned l a : owned a -> loose l a -> owned (a <| ag_pool ::= cons l |>).
Proof.
  intros [H1 H2 H3 H4 H5 H6] (L1 & L2 & L3).
  assert (held (a <| ag_pool ::= cons l |>) = l :: held a) as Hh by done.
  split; rewrite ?Hh; try done.
  - by apply NoDup_cons.
  - intros key y Hy [->|Hi]%elem_of_cons; [by apply (L2 key)|by apply (H2 key y)].
  - intros y [->|Hi]%elem_of_cons; [done|by apply H4].
Qed.
Lemma sender_owned nD nP EW u lr a :
  owned a ->
  owned (sender conf WebMethodName nD nP EW u lr a).1.1 /\
  forall key, isolated key a (sender conf WebMethodName nD nP EW u lr a).1.1.
Proof.
  intros Ho. unfold sender. destruct (w_queue (ag_w a)) as [q|] eqn:Hq; [|split; [done|intros; apply isolated_refl]].
  destruct (q_Get q) as [v q'] eqn:Eg. destruct v as [l|].
  - pose proof (taken_owned q l a Hq) as Ht. rewrite Eg in Ht. destruct (Ht eq_refl Ho) as [H1 Hl]. clear Ht. cbn [snd] in *.
    set (a1 := a <| ag_w ::= _ |>) in *. assert (forall key, isolated key a a1) as Hi by (intros key k x _; done).
    clearbody a1. cbn [mbind option_bind]. destruct (ag_heap a1 !! l) as [c|]; cbn [mbind option_bind]; [|by split].
    pose proof (process_same nD nP EW u lr (ag_w a1) c) as Hs.
    destruct (process _ _ _ _ _ _ _ _ _) as [[[[w1 c1] closed] lr1] p1]. cbn [fst] in *.
    assert (forall key, owned (store l c1 w1 a1) /\ loose l (store l c1 w1 a1) /\ isolated key a1 (store l c1 w1 a1)) as Hst.
    { intros key. by apply store_loose_all. }
    destruct (Hst 0%Z) as (H2 & Hl2 & _). split.
    + destruct closed; [by apply give_owned|done].
    + intros key. eapply isolated_trans; [apply Hi|]. destruct (Hst key) as (_ & _ & H3). destruct closed; exact H3.
  - cbn [mbind option_bind fst]. split; [|intros key k x _; done].
    pose proof (items_Get _ q) as Hi. rewrite Eg in Hi. cbn [fst snd] in Hi.
    destruct (q_items q) as [|y ys] eqn:Ei; destruct Hi as [Hv Hi]; [|done].
    assert (held (a <| ag_w ::= fun w => w <| w_queue := Some q' |> |>) = held a) as Hh.
    { unfold held, waiting. simpl. rewrite Hq, Hi. by rewrite Ei. }
    destruct Ho as [H1 H2 H3 H4 H5 H6]. split; rewrite ?Hh; done.
Qed.

(** ** Clear *)

Lemma close_key_owned key l a :
  owned a -> GetContext key a = Some l ->
  owned (close_key conf a (key, l)) /\ table_kept key a (close_key conf a (key, l)).
Proof.
  intros Ho Hl. destruct (remove_owned _ _ _ Ho Hl) as (H1 & H2 & _). unfold close_key, CloseTraceContext. cbn [fst snd].
  set (a1 := RemoveContext key a) in *. assert (table_kept key a a1) as Hk.
  { intros k Hk. unfold GetContext, a1, RemoveContext. simpl. rewrite get_remove. by case_decide. }
  clearbody a1. split; [|exact Hk].
  pose proof (give_owned l a1 H1 H2) as [G1 G2 G3 G4 G5]. split; try done.
  - intros x Hx%G4. simpl. by rewrite dom_alter_L.
  - intros k x Hx%G5. simpl. by rewrite dom_alter_L.
Qed.
Lemma close_keys_owned es a :
  owned a -> NoDup es.*1 -> (forall k l, (k, l) ∈ es -> GetContext k a = Some l) -> owned (foldl (close_key conf) a es).
Proof.
  revert a. induction es as [|[k l] es IH]; intros a Ho Hn Hg; [done|]. apply NoDup_cons in Hn as [Hk Hn]. simpl.
  destruct (close_key_owned k l a Ho (Hg k l (list_elem_of_here _ _))) as [H1 H2]. apply IH; [done..|].
  intros k' l' Hin. rewrite H2; [apply Hg; by right|]. intros ->. apply Hk, list_elem_of_fmap. by exists (k, l').
Qed.
Lemma empty_owned a m : owned a -> lm_entries m = [] -> owned (a <| ag_w ::= fun w => w <| w_table := m |> |>).
Proof.
  intros [H1 H2 H3 H4 H5 H6] Hm.
  assert (forall k, GetContext k (a <| ag_w ::= fun w => w <| w_table := m |> |>) = None) as Hg.
  { intros k. unfold GetContext, lm_get. simpl. by rewrite Hm. }
  split; try done; intros *; rewrite ?Hg; try done. right. unfold lm_size. simpl. rewrite Hm. simpl. lia.
Qed.
Lemma Clear_owned a : owned a -> owned (Manager_Clear conf a).
Proof.
  intros Ho. unfold Manager_Clear. set (es := lm_entries (w_table (ag_w a))).
  assert (NoDup es.*1) as Hn by apply keys_NoDup.
  assert (owned (foldl (close_key conf) a (removelast es))) as H.
  { destruct (decide (es = [])) as [->|He]; [done|]. pose proof (app_removelast_last (0%Z, 0) He) as E.
    apply close_keys_owned; [done| |].
    - rewrite E, fmap_app in Hn. by apply NoDup_app in Hn as [? _].
    - intros k l Hin. unfold GetContext, lm_get. fold es. apply alookup_Some; [exact Hn|]. rewrite E. set_solver. }
  by apply (empty_owned _ (lm_new (lm_max (w_table (ag_w (foldl (close_key conf) a (removelast es))))))), entries_new.
Qed.

(** * Runs *)

Section Runs.
Variables nD nP : res bytes.
Variable EVENT_LEVEL_WARNING : Z.

(** What happens to the agent: a datagram, a transaction found lost, a round of the
    profile sender, and the table cleared. *)
Inductive agent_step : Agent -> Agent -> Prop :=
| a_pack now wall up a a' : TxPut conf WebMethodName INFO ip_of pool_get now wall up a = Ret a' -> agent_step a a'
| a_lost now wall key a a' : RemoveLostContext conf WebMethodName INFO ip_of pool_get now wall key a = Ret a' -> agent_step a a'
| a_sender unixnow lr a : agent_step a (sender conf WebMethodName nD nP EVENT_LEVEL_WARNING unixnow lr a).1.1
| a_clear a : agent_step a (Manager_Clear conf a).

(** An agent with no transaction. *)
Definition idle (w : World) : Agent := mkAgent w ∅ [].
Lemma idle_owned w : lm_entries (w_table w) = [] -> waiting (idle w) = [] -> owned (idle w).
Proof.
  intros Ht Hq. assert (held (idle w) = []) as Hh by (unfold held; by rewrite Hq).
  assert (forall k, GetContext k (idle w) = None) as Hg by (intros k; unfold GetContext, lm_get; simpl; by rewrite Ht).
  split; rewrite ?Hh; [constructor|..]; intros *; rewrite ?Hg; try done; [set_solver|].
  right. unfold lm_size. simpl. rewrite Ht. simpl. lia.
Qed.
Lemma step_owned a a' : agent_step a a' -> owned a -> owned a'.
Proof.
  intros [now wall up b b' E|now wall key b b' E|u lr b|b] Ho.
  - by destruct (TxPut_owned _ _ _ _ _ Ho E).
  - by destruct (RemoveLostContext_owned _ _ _ _ _ Ho E).
  - by destruct (sender_owned nD nP EVENT_LEVEL_WARNING u lr b Ho).
  - by apply Clear_owned.
Qed.
Lemma run_owned a a' : rtc agent_step a a' -> owned a -> owned a'.
Proof. induction 1 as [|a b c H _ IH]; [done|]. intros Ho. by apply IH, (step_owned a). Qed.

(** C16. In every run of datagrams, lost transactions, rounds of the sender and clears
    from an idle agent, a context has one owner: it is in the pool, or waits to be sent,
    or belongs to one running transaction, and not two of these, nor twice in one; each
    of them is allocated. *)
Theorem contexts_owned w a :
  lm_entries (w_table w) = [] -> waiting (idle w) = [] -> rtc agent_step (idle w) a ->
  NoDup (ag_pool a ++ waiting a) /\
  (forall key l, GetContext key a = Some l -> l ∉ ag_pool a ++ waiting a) /\
  (forall k1 k2 l, GetContext k1 a = Some l -> GetContext k2 a = Some l -> k1 = k2) /\
  (forall l, l ∈ ag_pool a ++ waiting a \/ (exists key, GetContext key a = Some l) -> is_Some (ag_heap a !! l)).
Proof.
  intros Ht Hq Hr. destruct (run_owned _ _ Hr (idle_owned w Ht Hq)) as [H1 H2 H3 H4 H5 H6].
  split; [exact H1|]. split; [exact H2|]. split; [exact H3|].
  intros l [Hl|[key Hl]]; apply elem_of_dom; [by apply H4|by apply (H5 key)].
Qed.
(** C37. A datagram does not change the context of another transaction: only the start
    of a new one in a table that is full loses one other, and never more than one. *)
Theorem datagrams_isolated w a now wall up a' :
  lm_entries (w_table w) = [] -> waiting (idle w) = [] -> rtc agent_step (idle w) a ->
  TxPut conf WebMethodName INFO ip_of pool_get now wall up a = Ret a' ->
  let txid := default 0%Z (pack_txid up) in
  exists gone : option Z,
    (forall key, key <> txid -> gone <> Some key -> context_of key a' = context_of key a) /\
    (forall key, gone = Some key ->
       starts up = true /\ GetContext txid a = None /\ ~ lm_room (w_table (ag_w a)) /\
       key <> txid /\ is_Some (context_of key a) /\ context_of key a' = None).
Proof.
  intros Ht Hq Hr E txid. pose proof (run_owned _ _ Hr (idle_owned w Ht Hq)) as Ho.
  destruct (TxPut_owned _ _ _ _ _ Ho E) as (Ho' & Hi & (gone & Hk & Hg) & Hs). fold txid in Hi, Hk, Hg, Hs. exists gone. split.
  - intros key Hne Hgone. apply (context_kept txid); auto.
  - intros key Hgone. destruct (Hg key Hgone) as (H1 & [l Hl] & H3 & H4 & H5). split.
    { destruct (starts up); [done|]. rewrite (Hs eq_refl key H1) in H3. by rewrite H3 in Hl. }
    repeat (split; [done|]). split; [|unfold context_of; by rewrite H3].
    destruct (proj1 (elem_of_dom _ _) (ow_live _ Ho key l Hl)) as [c Hc]. exists (l, c). by apply context_of_Some.
Qed.
End Runs.
End Facts.

(** * Witnesses *)

Definition method0 (m : bytes) : option Z := if bool_decide (m = str "GET") then Some 1%Z else None.
Definition start1 (url : bytes) : StartPack :=
  mkStart [] url (str "10.0.0.1,10.0.0.2") (str "curl") [] [] (str "get") false (NewURL url) (NewURL []) 1 1.
Definition head1 (id t : Z) : Head := mkHead id t 5 7 9.
(** Two transactions begin, one runs a statement and ends. *)
Definition packs1 : list UdpPack :=
  [TX_START (head1 1 100) (start1 (str "shop/cart")); TX_START (head1 2 110) (start1 (str "shop/pay"));
   TX_SQL (head1 1 120) (str "db") (str "select 1") (mkFault [] [] []); TX_END (head1 1 130) NewEndPack].
Fixpoint take_packs (ups : list UdpPack) (a : Agent) : res Agent :=
  match ups with
  | [] => Ret a
  | up :: ups => a ← TxPut apiconf1 method0 20 (fun _ => 99%Z) head 1000 2000 up a; take_packs ups a
  end.
Definition run_to {A} (r : res A) (d : A) : A := match r with Ret a => a | _ => d end.
Definition is_ret {A} (r : res A) : bool := match r with Ret _ => true | _ => false end.
Lemma run_to_Ret {A} (r : res A) d : is_ret r = true -> r = Ret (run_to r d).
Proof. by destruct r. Qed.
Lemma take_packs_run ups a a' :
  take_packs ups a = Ret a' ->
  rtc (agent_step apiconf1 method0 20 (fun _ => 99%Z) head Panic Panic 30) a a'.
Proof.
  revert a. induction ups as [|up ups IH]; intros a; simpl; [intros [= <-]; apply rtc_refl|].
  destruct (TxPut _ _ _ _ _ _ _ up a) as [a1| |] eqn:E; cbn [mbind res_bind]; [|done..]. intros H.
  eapply rtc_l; [by eapply a_pack|by apply IH].
Qed.
Definition agent2 : Agent := run_to (take_packs packs1 (idle world1)) (idle world1).
Lemma agent2_run : rtc (agent_step apiconf1 method0 20 (fun _ => 99%Z) head Panic Panic 30) (idle world1) agent2.
Proof. apply (take_packs_run packs1), run_to_Ret. by vm_compute. Qed.
Lemma head_in (free : list nat) l : head free = Some l -> l ∈ free.
Proof. destruct free; [done|]. intros [= ->]. by left. Qed.
Lemma contexts_owned_witness :
  ag_pool agent2 ++ waiting agent2 = [0] /\ GetContext 2 agent2 = Some 1 /\ GetContext 1 agent2 = None /\ NoDup (ag_pool agent2 ++ waiting agent2).
Proof.
  split; [by vm_compute|]. split; [by vm_compute|]. split; [by vm_compute|].
  apply (proj1 (contexts_owned apiconf1 method0 20 (fun _ => 99%Z) head head_in Panic Panic 30 world1 agent2 eq_refl eq_refl
    agent2_run)).
Defined.
Definition third : UdpPack := TX_START (head1 3 140) (start1 (str "shop/list")).
Definition agent3 : Agent := run_to (TxPut apiconf1 method0 20 (fun _ => 99%Z) head 1000 2000 third agent2) agent2.
Lemma agent3_run : TxPut apiconf1 method0 20 (fun _ => 99%Z) head 1000 2000 third agent2 = Ret agent3.
Proof. apply run_to_Ret. by vm_compute. Qed.
(** The same packs with a table of one transaction. *)
Definition narrow : World := world1 <| w_table := lm_new 1 |>.
Definition narrow1 : Agent := run_to (take_packs (take 1 packs1) (idle narrow)) (idle narrow).
Lemma narrow1_run : rtc (agent_step apiconf1 method0 20 (fun _ => 99%Z) head Panic Panic 30) (idle narrow) narrow1.
Proof. apply (take_packs_run (take 1 packs1)), run_to_Ret. by vm_compute. Qed.
Definition narrow3 : Agent := run_to (TxPut apiconf1 method0 20 (fun _ => 99%Z) head 1000 2000 third narrow1) narrow1.
Lemma narrow3_run : TxPut apiconf1 method0 20 (fun _ => 99%Z) head 1000 2000 third narrow1 = Ret narrow3.
Proof. apply run_to_Ret. by vm_compute. Qed.
Lemma datagrams_isolated_witness :
  (fun x => TraceContext.ServiceName x.2) <$> context_of 2 agent3 = Some (str "/pay") /\
  (fun x => TraceContext.ServiceName x.2) <$> context_of 1 narrow1 = Some (str "/cart") /\ context_of 1 narrow3 = None /\
  forall key, key <> 3%Z -> key <> 1%Z -> context_of key narrow3 = context_of key narrow1.
Proof.
  split; [|split; [by vm_compute|split; [by vm_compute|]]].
  - destruct (datagrams_isolated apiconf1 method0 20 (fun _ => 99%Z) head head_in Panic Panic 30%Z world1 agent2 1000%Z 2000%Z
      third agent3 eq_refl eq_refl agent2_run agent3_run) as (gone & H1 & H2).
    destruct gone as [k|]; [|by rewrite H1; [by vm_compute|..]].
    destruct (H2 k eq_refl) as (_ & _ & Hr & _). exfalso. apply Hr. left. by vm_compute.
  - destruct (datagrams_isolated apiconf1 method0 20 (fun _ => 99%Z) head head_in Panic Panic 30%Z narrow narrow1 1000%Z 2000%Z
      third narrow3 eq_refl eq_refl narrow1_run narrow3_run) as (gone & H1 & H2).
    intros key Hk Hn. apply H1; [done|]. destruct (decide (gone = Some 1%Z)) as [->|Hg]; [congruence|].
    exfalso. enough (context_of 1%Z narrow3 = context_of 1%Z narrow1) as He by (by vm_compute in He). by apply H1.
Defined.
