(* ===== verification/AppState.v ===== *)
(** The state of the program as an application sees it, and the programs on it.

    A [TraceCtx] ([src/trace/TraceCtx.go]) is a location of the heap [p_heap], which Go
    contexts, the table by goroutine, the pool and the calls of the other packages point
    to; its [Ctx] is a location of the agent's heap.  The contexts of statements, HTTP
    calls and methods ([SqlCtx.go], [HttpcCtx] and [MethodCtx.go]) live in pooled heaps of
    their own.  The field [LLMTx] is the slot of [LlmState.slots] at the address of its
    [TraceCtx].  A program changes the state and returns, or panics in the state
    reached. *)

From stdpp Require Import gmap.
From S2P Require Import Prelude LlmPack LlmState LlmSender.
From S2P Require Import EscapeSQL Hmap UrlPattern TraceCtx MeterService Meters DataPack DataText.
From S2P Require Import ParsedSql Stat StatError TraceContext TraceApi TraceSteps TraceMain TraceManager.

(** * Configuration and arguments *)

Record AppConf := mkAppConf {
  api : ApiConf; mt : MtraceConf;
  Enabled : bool; TransactionEnabled : bool; GoUseGoroutineIDEnabled : bool; GoRecoverEnabled : bool;
  ProfileHttpHeaderEnabled : bool; ProfileHttpHeaderUrlPrefix : bytes;
  TraceHttpClientIpHeaderKeyEnabled : bool; TraceHttpClientIpHeaderKey : bytes;
  TraceUserUsingIp : bool; TraceUserHeaderTicketEnabled : bool; TraceUserHeaderTicket : bytes;
  TraceUserCookieKeys : list bytes; TraceUserSetCookie : bool;
  ProfileMethodEnabled : bool; ProfileMethodStackEnabled : bool; LLMMode : bool
}.
(** The goroutine and the clocks. *)
Record Env := mkEnv { gid : Z; SystemNow : Z; wall : Z }.

(** What the values of a [context.Context] under the two keys used are: the transaction,
    and the pending LLM calls, the innermost first. *)
Record GoContext := mkGo { g_whatap : option nat; g_pending : list nat }.
Definition Background : GoContext := mkGo None [].
Abbreviation goctx := (option GoContext).

(** [fmt.Errorf] *)
Definition Errorf (s : bytes) : error := mkErr (str "*errors.errorString") s.

(** A request as [net/http] gives it: its header has canonical keys, its cookies are
    parsed, and its form is nil unless the handler has parsed it. *)
Record Request := mkRequest {
  r_Context : GoContext; r_Method : bytes; r_RequestURI : bytes; r_Host : bytes; r_RemoteAddr : bytes;
  r_Header : Header; r_Cookies : list (bytes * bytes)
}.
(** [Header.Get] *)
Definition Header_Get (h : Header) (k : bytes) : bytes :=
  match alookup h (canonical k) with Some (v :: _) => v | _ => [] end.

(** * The contexts of calls *)

(** A heap of which the free locations are pooled. *)
Record Pool (T : Type) := mkPool { o_heap : gmap nat T; o_free : list nat }.
Arguments mkPool {T}.
Arguments o_heap {T}.
Arguments o_free {T}.
Definition pool_take {T} (get : list nat -> option nat) (new : T) (p : Pool T) : nat * Pool T :=
  match get (o_free p) with
  | Some l => (l, p <| o_free ::= filter (fun x => x <> l) |>)
  | None => let l : nat := base.fresh (dom (o_heap p)) in (l, p <| o_heap ::= <[l := new]> |>)
  end.
Definition pool_close {T} (new : T) (l : nat) (p : Pool T) : Pool T :=
  p <| o_heap ::= <[l := new]> |> <| o_free ::= cons l |>.

(** A step of a statement: none, or a pointer, which may be nil. *)
Inductive call_step := NoStep | DbcStep (s : DBCStep) | SqlStep (s : option SqlStepX).
Record SqlCtx := mkSqlCtx {
  s_ctx : option nat; s_step : call_step; s_Txid : Z; s_ServiceName : bytes; s_StartTime : Z;
  s_Dbc : bytes; s_Sql : bytes; s_Param : bytes; s_Type : Z; s_Cpu : Z; s_Mem : Z
}.
Definition NewSqlCtx : SqlCtx := mkSqlCtx None NoStep 0 [] 0 [] [] [] 0 0 0.
Record HttpcCtx := mkHttpcCtx {
  h_ctx : option nat; h_step : option HttpcStepX; h_txid : Z; h_ServiceName : bytes; h_StartTime : Z; h_Url : bytes;
  h_cpu : Z; h_mem : Z; h_StepId : Z;
  h_TraceMtraceTraceparentValue : bytes; h_TraceMtraceCallerValue : bytes; h_TraceMtracePoidValue : bytes;
  h_TraceMtraceSpecValue : bytes; h_TraceMtraceMcallee : Z;
  (** the LLM call attached *)
  Extra : option nat
}.
Definition NewHttpcCtx : HttpcCtx := mkHttpcCtx None None 0 [] 0 [] 0 0 0 [] [] [] [] 0 None.
Record MethodCtx := mkMethodCtx {
  m_ctx : option nat; m_step : option MethodStepX; m_Txid : Z; m_ServiceName : bytes; m_StartTime : Z;
  m_Method : bytes; m_Stack : bytes; m_Cpu : Z; m_Mem : Z
}.
Definition NewMethodCtx : MethodCtx := mkMethodCtx None None 0 [] 0 [] [] 0 0.

(** * Programs *)

Section App.
Context {LMz : LinkedMap Z} {LMi : LinkedMap (Z * Z)} {LMh : LinkedMap StatHttpc.HTTPC}
  {LMm : LinkedMap StatTranxMtCaller.MtraceKEY} {BU : BitUtil} {SU : StringUtil} {SM : StringMore} {TT : TextTypes}
  {RQ : RequestQueue} {CT : CountTable} {PT : PathTree} {HM : MeterService.Pack} {UU : UrlUtil} {PC : IProfileCollector}
  {HX : Hexa32} {AC : AppContext}.
Abbreviation ctx_t := TraceContext.t.

Record App := mkApp {
  p_agent : Agent;
  (** the [TraceCtx]s, the pool of free ones, the table by goroutine *)
  p_heap : gmap nat TraceCtx; p_free : list nat; p_gids : lmap (K := Z) nat;
  (** the keys taken from [keygen.Next] *)
  p_keys : nat;
  (** the LLM calls, the records of transactions sent for them *)
  p_llm : LlmState.world; p_states : gmap nat LLMState; p_logs : list LineLog;
  p_sqls : Pool SqlCtx; p_httpcs : Pool HttpcCtx; p_methods : Pool MethodCtx
}.

(** A program changes the state and returns, or panics. *)
Definition prog (A : Type) : Type := App -> App * option A.
#[export] Instance prog_ret : MRet prog := fun A x a => (a, Some x).
#[export] Instance prog_bind : MBind prog := fun A B f m a =>
  match m a with (a, Some x) => f x a | (a, None) => (a, None) end.
Definition gets {A} (f : App -> A) : prog A := fun a => (a, Some (f a)).
Definition modify (f : App -> App) : prog unit := fun a => (f a, Some tt).
Definition panic {A} : prog A := fun a => (a, None).

Variable conf : AppConf.
(** [keygen.Next]; the choices of the two pools. *)
Variable Next : nat -> Z.
Variables pool_get ctx_get : list nat -> option nat.

Definition on_tc (l : nat) (f : TraceCtx -> TraceCtx) : prog unit := modify (fun a => a <| p_heap ::= alter f l |>).
Definition get_tc (l : nat) : prog TraceCtx := fun a => (a, p_heap a !! l).
Definition next_key : prog Z := fun a => (a <| p_keys ::= S |>, Some (Next (p_keys a))).
(** A call of the agent on the context of [l], if any. *)
Definition agent_call {A} (l : option nat) (f : World -> option ctx_t -> World * option ctx_t * A) : prog A := fun a =>
  let ag := p_agent a in
  let '(w, c, x) := f (ag_w ag) (l' ← l; ag_heap ag !! l') in
  (a <| p_agent := match l, c with Some l, Some c => store l c w ag | _, _ => ag <| ag_w := w |> end |>, Some x).
Definition on_ctx (l : nat) (f : World -> ctx_t -> World * ctx_t) : prog unit :=
  agent_call (Some l) (fun w c => match c with Some c => let '(w, c) := f w c in (w, Some c, tt) | None => (w, None, tt) end).
Definition set_ctx (l : nat) (f : ctx_t -> ctx_t) : prog unit := on_ctx l (fun w c => (w, f c)).

(** ** The table by goroutine *)

Definition AddGIDTraceCtx (GID : Z) (l : nat) : prog unit :=
  modify (fun a => if GoUseGoroutineIDEnabled conf then a <| p_gids ::= fun m => lm_put m GID l |> else a).
Definition GetGIDTraceCtx (GID : Z) (a : App) : option nat :=
  if GoUseGoroutineIDEnabled conf then lm_get (p_gids a) GID else None.
Definition RemoveGIDTraceCtx (GID : Z) : prog unit :=
  modify (fun a => if GoUseGoroutineIDEnabled conf then a <| p_gids ::= fun m => lm_remove m GID |> else a).

(** The transaction of the context, else of the goroutine. *)
Definition GetTraceContext (e : Env) (ctx : goctx) : prog (goctx * option nat) :=
  gets (fun a =>
    match ctx with
    | Some (mkGo (Some l) _) => (ctx, Some l)
    | _ =>
        match GetGIDTraceCtx (gid e) a with
        | Some l => (Some (default Background ctx), Some l)
        | None => (ctx, None)
        end
    end).

(** ** The pool *)

Definition PoolTC : prog nat := fun a =>
  match ctx_get (p_free a) with
  | Some l => (a <| p_free ::= filter (fun x => x <> l) |>, Some l)
  | None => let l : nat := base.fresh (dom (p_heap a)) in (a <| p_heap ::= <[l := NewTraceCtx]> |> <| p_llm ::= fun w => w <| slots ::= <[l := INil]> |> |>, Some l)
  end.
Definition CloseTC (l : nat) : prog unit :=
  modify (fun a => a <| p_heap ::= alter TraceCtx.Clear l |> <| p_llm ::= fun w => w <| slots ::= <[l := INil]> |> |>
                     <| p_free ::= cons l |>).
Definition PoolAgentCtx : prog nat := fun a =>
  let '(l, c, ag) := PoolTraceContext (api conf) pool_get (p_agent a) in
  (a <| p_agent := store l c (ag_w ag) ag |>, Some l).
End App.
