(* ===== verification/AppTrace.v ===== *)
(** Transactions as an application starts and ends them, [src/trace]: [Trace.go],
    [TraceContextManager.go] and [wrap.go].  Nothing recovers here but [Func]. *)

From stdpp Require Import gmap.
From S2P Require Import Prelude LlmPack LlmState LlmSender.
From S2P Require Import EscapeSQL Hmap UrlPattern TraceCtx MeterService Meters DataPack DataText.
From S2P Require Import ParsedSql Stat StatError TraceContext TraceApi TraceSteps TraceMain TraceManager AppState.

(** * Texts of a request *)

Section Texts.
Variable conf : AppConf.

Definition fold_eq (a b : bytes) : bool := bool_decide (to_lower <$> TrimSpace a = to_lower <$> TrimSpace b).
Definition ParseParameter (m : list (bytes * list bytes)) : bytes :=
  concat ((fun kv => kv.1 ++ str "=" ++ match kv.2 with v :: _ => v ++ ["010"%char] | [] => [] end) <$> m).
Definition header_key (k : bytes) : bytes := (fun c => if bool_decide (c = "-"%char) then "_"%char else c) <$> (to_lower <$> k).
Definition ParseHeader (m : Header) : bytes :=
  if DISABLE (mt conf) then []
  else concat ((fun kv => kv.1 ++ str "=" ++
    match kv.2 with
    | v :: _ => (if bool_decide (header_key kv.1 ∈ ProfileHttpHeaderIgnoreKeys (api conf)) then str "#" else v) ++ ["010"%char]
    | [] => []
    end) <$> m).
(** The first of a list of addresses in the configured header, the peer otherwise; a
    header with one address is not used. *)
Definition GetRemoteIP (remoteAddr : bytes) (header : Header) : bytes :=
  if DISABLE (mt conf) then []
  else
    let peer := nth 0 (split_at_byte ":" remoteAddr) [] in
    if TraceHttpClientIpHeaderKeyEnabled conf then
      match List.find (fun kv => fold_eq kv.1 (TraceHttpClientIpHeaderKey conf)) header with
      | Some (_, v :: _) =>
          if Contains v (str ",") && bool_decide (1 < length (split_at_byte "," v))
          then TrimSpace (nth 0 (split_at_byte "," v) []) else peer
      | _ => peer
      end
    else peer.
Definition WHATAP_COOKIE_NAME : bytes := str "WHATAP".
Definition find_cookie (p : bytes -> bool) (cookies : list (bytes * bytes)) : option bytes :=
  (fun c => TrimSpace c.2) <$> List.find (fun c => p c.1) cookies.
Definition GetClientId (r : Request) (remoteIP : bytes) : bytes :=
  let ip := TrimSpace remoteIP in
  if DISABLE (mt conf) then ip
  else if negb (Enabled conf) || negb (TraceUserEnabled (api conf)) then ip
  else if TraceUserUsingIp conf then ip
  else
    let ticket :=
      if TraceUserHeaderTicketEnabled conf
      then List.find (fun kv => fold_eq kv.1 (TraceUserHeaderTicket conf) && bool_decide (0 < length kv.2)) (r_Header r)
      else None in
    match ticket with
    | Some (_, v :: _) => TrimSpace v
    | _ =>
        match find_cookie (fun n => existsb (fold_eq n) (TraceUserCookieKeys conf)) (r_Cookies r) with
        | Some v => v
        | None =>
            match find_cookie (fun n => bool_decide (to_upper <$> TrimSpace n = WHATAP_COOKIE_NAME)) (r_Cookies r) with
            | Some v => v
            | None => ip
            end
        end
    end.
End Texts.

Section Trace.
Context {LMz : LinkedMap Z} {LMi : LinkedMap (Z * Z)} {LMh : LinkedMap StatHttpc.HTTPC}
  {LMm : LinkedMap StatTranxMtCaller.MtraceKEY} {BU : BitUtil} {SU : StringUtil} {SM : StringMore} {TT : TextTypes}
  {RQ : RequestQueue} {CT : CountTable} {PT : PathTree} {HM : MeterService.Pack} {UU : UrlUtil} {PC : IProfileCollector}
  {HX : Hexa32} {AC : AppContext}.
Abbreviation ctx_t := TraceContext.t.


Variable conf : AppConf.
Variable WebMethodName : bytes -> option Z.
Variable nil_String : res bytes.
Variable INFO : Z.
Variable ip_of : bytes -> Z.
Variable StatusText : Z -> bytes.
(** [keygen.Next]; the choices of the two pools. *)
Variable Next : nat -> Z.
Variables pool_get ctx_get : list nat -> option nat.
#[local] Abbreviation GetTraceContext := (AppState.GetTraceContext conf).
#[local] Abbreviation AddGIDTraceCtx := (AppState.AddGIDTraceCtx conf).
#[local] Abbreviation RemoveGIDTraceCtx := (AppState.RemoveGIDTraceCtx conf).
#[local] Abbreviation PoolTC := (AppState.PoolTC ctx_get).
#[local] Abbreviation PoolAgentCtx := (AppState.PoolAgentCtx conf pool_get).
#[local] Abbreviation next_key := (AppState.next_key Next).

(** ** Start *)

Definition NewTraceContext (e : Env) (ctx : goctx) : prog (goctx * nat) :=
  l ← PoolTC;
  on_tc l (fun t => t <| GID := gid e |>);;
  c ← PoolAgentCtx;
  on_tc l (fun t => t <| Ctx := Some c |>);;
  id ← next_key;
  set_ctx c (fun x => x <| TraceContext.Txid := id |> <| TraceContext.ThreadId := gid e |>);;
  on_tc l (fun t => t <| Txid := id |>);;
  AddGIDTraceCtx (gid e) l;;
  mret (Some ((default Background ctx) <| g_whatap := Some l |>), l).

(** [UpdateMtrace]; where it panics only the trace id is set. *)
Definition update_mtrace (l : nat) (h : Header) : prog unit :=
  t ← get_tc l;
  n ← gets p_keys;
  match TraceCtx.UpdateMtrace (mt conf) Next n t h with
  | Ret (t, n) => modify (fun a => a <| p_heap ::= <[l := t]> |> <| p_keys := n |>)
  | _ =>
      match Split (TrimSpace (header_Get h (TraceMtraceTraceparentKey (mt conf)))) (str "-") with
      | _ :: id :: _ => on_tc l (fun t => t <| MCallerTraceId := id |>)
      | _ => mret tt
      end;; panic
  end.
(** A running transaction is gone on with. *)
Definition running (e : Env) (ctx : goctx) : prog (option goctx) :=
  '(ctx, existing) ← GetTraceContext e ctx;
  match existing with
  | None => mret None
  | Some l => t ← get_tc l; mret (if (Txid t =? 0)%Z then None else Some ctx)
  end.
Definition begin_tx (e : Env) (l : nat) (f : ctx_t -> ctx_t) : prog unit :=
  t ← get_tc l;
  match Ctx t with
  | None => panic
  | Some c =>
      set_ctx c f;;
      on_ctx c (fun w x => StartTx (api conf) nil_String (SystemNow e) w c x)
  end.
Definition Start (e : Env) (ctx : goctx) (name : bytes) : prog (goctx * option error) :=
  if DISABLE (mt conf) then mret (ctx, None)
  else if negb (Enabled conf) then mret (ctx, None)
  else
    r ← running e ctx;
    match r with
    | Some ctx => mret (ctx, None)
    | None =>
        '(ctx, l) ← NewTraceContext e ctx;
        on_tc l (fun t => t <| Name := name |> <| StartTime := SystemNow e |>);;
        update_mtrace l [];;
        begin_tx e l (fun c => c <| TraceContext.StartTime := SystemNow e |> <| TraceContext.ServiceURL := Some (NewURL name) |>);;
        mret (ctx, None)
    end.

Definition Step (e : Env) (ctx : goctx) (title message : bytes) (elapsed value : Z) : prog (option error) :=
  if DISABLE (mt conf) then mret None
  else if negb (Enabled conf) then mret None
  else
    '(_, tc) ← GetTraceContext e ctx;
    match tc with
    | None => mret (Some (Errorf (str "Not found Txid ")))
    | Some l =>
        t ← get_tc l;
        match Ctx t with
        | None => mret None
        | Some c => on_ctx c (fun w x => ProfileMsg (SystemNow e) w x title message (int32 elapsed) (int32 value));; mret None
        end
    end.
Definition SetHeader (e : Env) (ctx : goctx) (m : Header) : prog unit :=
  if DISABLE (mt conf) then mret tt
  else if negb (ProfileHttpHeaderEnabled conf) then mret tt
  else
    '(_, tc) ← GetTraceContext e ctx;
    match tc with
    | None => mret tt
    | Some l =>
        t ← get_tc l;
        match Ctx t with
        | Some c =>
            if HasPrefix (Name t) (ProfileHttpHeaderUrlPrefix conf)
            then on_ctx c (fun w x => ProfileMsg (SystemNow e) w x (str "HTTP_HEADERS") (ParseHeader conf m) 0 0)
            else mret tt
        | None => mret tt
        end
    end.
Definition SetParameter (e : Env) (ctx : goctx) (m : option (list (bytes * list bytes))) : prog unit :=
  if DISABLE (mt conf) then mret tt
  else if negb (ProfileHttpParameterEnabled (api conf)) then mret tt
  else
    match m with
    | None => mret tt
    | Some m =>
        '(_, tc) ← GetTraceContext e ctx;
        match tc with
        | None => mret tt
        | Some l =>
            t ← get_tc l;
            match Ctx t with
            | Some c =>
                if HasPrefix (Name t) (ProfileHttpParameterUrlPrefix (api conf))
                then on_ctx c (fun w x => ProfileSecureMsg (api conf) (SystemNow e) w x (str "HTTP-PARAMS") (ParseParameter m))
                else mret tt
            | None => mret tt
            end
        end
    end.
Definition of_request (e : Env) (r : Request) (c : ctx_t) : ctx_t :=
  let ipaddr := GetRemoteIP conf (r_RemoteAddr r) (r_Header r) in
  c <| TraceContext.StartTime := SystemNow e |> <| TraceContext.ServiceURL := Some (NewURL (r_Host r ++ r_RequestURI r)) |>
    <| TraceContext.RemoteIp := ip_of ipaddr |> <| TraceContext.HttpMethod := r_Method r |>
    <| TraceContext.RefererURL := Some (NewURL (Header_Get (r_Header r) (str "Referer"))) |>
    <| TraceContext.UserAgentString := Header_Get (r_Header r) (str "User-Agent") |>
    <| TraceContext.WClientId := HashStr (GetClientId conf r ipaddr) |>.
Definition StartWithRequest (e : Env) (r : Request) : prog goctx :=
  let ctx := Some (r_Context r) in
  if DISABLE (mt conf) then mret ctx
  else if negb (Enabled conf) then mret ctx
  else
    o ← running e ctx;
    match o with
    | Some ctx => mret ctx
    | None =>
        '(ctx, l) ← NewTraceContext e ctx;
        on_tc l (fun t => t <| Name := r_RequestURI r |> <| StartTime := SystemNow e |>);;
        update_mtrace l (r_Header r);;
        begin_tx e l (of_request e r);;
        SetHeader e ctx (r_Header r);;
        mret ctx
    end.
(** The transaction the context has is started again; it may have lost its context. *)
Definition StartWithContext (e : Env) (ctx : goctx) (name : bytes) : prog (goctx * option error) :=
  if DISABLE (mt conf) then mret (ctx, None)
  else if negb (Enabled conf) then mret (ctx, None)
  else
    '(_, tc) ← GetTraceContext e ctx;
    match tc with
    | None => mret (ctx, Some (Errorf (str "Not found trace context ")))
    | Some l =>
        on_tc l (fun t => t <| Name := name |> <| StartTime := SystemNow e |>);;
        update_mtrace l [];;
        t ← get_tc l;
        match Ctx t with
        | Some _ => mret tt
        | None =>
            c ← PoolAgentCtx;
            on_tc l (fun t => t <| Ctx := Some c |>);;
            set_ctx c (fun x => x <| TraceContext.Txid := Txid t |>)
        end;;
        begin_tx e l (fun c => c <| TraceContext.StartTime := SystemNow e |> <| TraceContext.ServiceURL := Some (NewURL name) |>);;
        mret (ctx, None)
    end.

(** ** End *)

Definition Error (e : Env) (ctx : goctx) (err : option error) : prog unit :=
  if DISABLE (mt conf) then mret tt
  else if negb (Enabled conf) then mret tt
  else
    match err with
    | None => mret tt
    | Some er =>
        '(_, tc) ← GetTraceContext e ctx;
        match tc with
        | Some l =>
            t ← get_tc l;
            match Ctx t with
            | Some c =>
                agent_call (Some c) (fun w x => let '(w, x) := ProfileError (api conf) INFO (SystemNow e) w x er in (w, x, tt))
            | None => mret tt
            end
        | None => agent_call None (fun w x => let '(w, x) := ProfileError (api conf) INFO (SystemNow e) w x er in (w, x, tt))
        end
    end.
(** What the context gets from the application's side before it ends. *)
Definition end_fields (t : TraceCtx) (c : ctx_t) : ctx_t :=
  let c := c <| TraceContext.Mtid := MTid t |> <| TraceContext.Mdepth := MDepth t |>
             <| TraceContext.McallerTxid := MCallerTxid t |> <| TraceContext.McallerPoidKey := MCallerPoidKey t |>
             <| TraceContext.McallerSpec := MCallerSpec t |> <| TraceContext.McallerUrl := MCallerUrl t |>
             <| TraceContext.McallerStepId := MCallerStepId t |> <| TraceContext.Status := Status t |> in
  let c := TraceContext.SetExtraFieldString (str "x-trace-id") (MCallerTraceId t) c in
  let c := if (TraceContext.McallerTxid c =? 0)%Z && negb (TraceContext.McallerStepId c =? 0)%Z
           then TraceContext.SetExtraField (str "x-parent-id") (DecimalValue (TraceContext.McallerStepId c)) c else c in
  if negb (IsLlm t =? 0)%Z then TraceContext.SetExtraFieldString (str "is-llm") (str "1") c else c.
Definition dispatch_llm (e : Env) (l : nat) : prog unit :=
  t ← get_tc l;
  modify (fun a => a <| p_logs ::= fun x => x ++
    DispatchTraceTxStatus (SystemNow e) (LLMMode conf) (Txid t) (default INil (slots (p_llm a) !! l)) |>).
Definition End (e : Env) (ctx : goctx) (err : option error) : prog (option error) :=
  if DISABLE (mt conf) then mret None
  else if negb (Enabled conf) then mret None
  else
    Error e ctx err;;
    '(_, tc) ← GetTraceContext e ctx;
    match tc with
    | None => mret (Some (Errorf (str "Not found Txid ")))
    | Some l =>
        t ← get_tc l;
        match Ctx t with
        | None => RemoveGIDTraceCtx (GID t);; mret None
        | Some c =>
            set_ctx c (end_fields t);;
            on_ctx c (fun w x => EndTx (api conf) WebMethodName (SystemNow e) (wall e) w c x);;
            dispatch_llm e l;;
            RemoveGIDTraceCtx (GID t);;
            CloseTC l;;
            mret None
        end
    end.
Definition GetMTrace_of (e : Env) (ctx : goctx) : prog Header :=
  if DISABLE (mt conf) then mret []
  else
    '(_, tc) ← GetTraceContext e ctx;
    match tc with
    | None => mret []
    | Some l =>
        t ← get_tc l;
        n ← gets p_keys;
        let '(h, t, n) := TraceCtx.GetMTrace (mt conf) Next n (Some t) in
        modify (fun a => a <| p_heap ::= fun m => match t with Some t => <[l := t]> m | None => m end |> <| p_keys := n |>);;
        mret h
    end.
Definition UpdateMtraceWithContext (e : Env) (ctx : goctx) (h : Header) : prog unit :=
  '(_, tc) ← GetTraceContext e ctx;
  match tc with None => mret tt | Some l => update_mtrace l h end.
Definition GetTxid (e : Env) (ctx : goctx) : prog Z :=
  '(_, tc) ← GetTraceContext e ctx;
  match tc with None => mret 0%Z | Some l => t ← get_tc l; mret (Txid t) end.

(** ** Handlers *)

(** What a handler leaves: the status its writer saw, its panic, the form it parsed. *)
Record Handled := mkHandled { hd_status : Z; hd_panic : option bytes; hd_form : option (list (bytes * list bytes)) }.
Definition set_status (e : Env) (ctx : goctx) (status : Z) : prog unit :=
  '(_, tc) ← GetTraceContext e ctx;
  match tc with None => mret tt | Some l => on_tc l (fun t => t <| Status := status |>) end.
(** The cookie set on the response, if the request has none. *)
Definition whatap_cookie (r : Request) : prog (option bytes) :=
  if TraceUserSetCookie conf then
    match List.find (fun c => bool_decide (c.1 = WHATAP_COOKIE_NAME)) (r_Cookies r) with
    | Some _ => mret None
    | None => k ← next_key; mret (Some (FormatInt k))
    end
  else mret None.
Definition reraise (h : Handled) : prog unit := match hd_panic h with Some _ => panic | None => mret tt end.
Definition Func (e e' : Env) (handler : goctx -> prog Handled) (r : Request) : prog (option bytes) :=
  if DISABLE (mt conf) || negb (TransactionEnabled conf) then
    h ← handler (Some (r_Context r)); reraise h;; mret None
  else
    ctx ← StartWithRequest e r;
    h ← handler ctx;
    match hd_panic h with Some x => Error e' ctx (Some (Errorf x)) | None => mret tt end;;
    set_status e' ctx (int32 (hd_status h));;
    (if ProfileHttpParameterEnabled (api conf) && HasPrefix (r_RequestURI r) (ProfileHttpParameterUrlPrefix (api conf))
     then match hd_form h with Some m => SetParameter e' ctx (Some m) | None => mret tt end
     else mret tt);;
    cookie ← whatap_cookie r;
    End e' ctx (if (400 <=? hd_status h)%Z
                then Some (Errorf (str "Status " ++ FormatInt (hd_status h) ++ str ":" ++ StatusText (hd_status h))) else None);;
    (if negb (GoRecoverEnabled conf) then reraise h else mret tt);;
    mret cookie.

(** ** Wrappers *)

(** [Wrap] and its relatives: a panic of [fn] leaves the transaction open. *)
Definition WrapError (e e' : Env) (ctx : goctx) (name : bytes) (fn : prog (option error)) : prog (option error) :=
  '(ctx, _) ← Start e ctx name;
  err ← fn;
  End e' ctx err;;
  mret err.
Definition Wrap {T} (e e' : Env) (ctx : goctx) (name : bytes) (fn : prog (T * option error)) : prog (T * option error) :=
  '(ctx, _) ← Start e ctx name;
  '(result, err) ← fn;
  End e' ctx err;;
  mret (result, err).
Definition WrapVoid (e e' : Env) (ctx : goctx) (name : bytes) (fn : prog unit) : prog unit :=
  '(ctx, _) ← Start e ctx name;
  fn;;
  End e' ctx None;;
  mret tt.
End Trace.

(** [WrapResponseWriter]: the status a handler sets. *)
Record WrapResponseWriter := mkWriter { wr_Status : Z; wroteHeader : bool; wr_sent : list (option Z) }.
(** [wr_sent]: the calls on the writer beneath, [None] for [Write]. *)
Definition WriteHeader (status : Z) (w : WrapResponseWriter) : WrapResponseWriter :=
  let w := if negb (wroteHeader w) then w <| wr_Status := status |> <| wroteHeader := true |> else w in
  w <| wr_sent ::= fun l => l ++ [Some status] |>.
Definition Write (w : WrapResponseWriter) : WrapResponseWriter :=
  let w := if negb (wroteHeader w) then w <| wr_Status := 200%Z |> <| wroteHeader := true |> else w in
  w <| wr_sent ::= fun l => l ++ [None] |>.
