(* ===== verification/AppCalls.v ===== *)
(** Statements, HTTP calls, methods and LLM calls as an application reports them:
    [src/sql], [src/httpc], [src/method] and [src/llm].

    The contexts the application holds between the start and the end of a call are
    pooled: a second end sees what the location holds by then. *)

From stdpp Require Import gmap.
From S2P Require Import Prelude LlmUrl LlmPack LlmState LlmSender.
From S2P Require Import EscapeSQL Hmap UrlPattern TraceCtx MeterService Meters DataPack DataText.
From S2P Require Import ParsedSql Stat StatError TraceContext TraceApi TraceSteps TraceMain TraceManager AppState AppTrace.

(** * Texts of a statement *)

(** A bind value, out of its [driver.NamedValue]: a string, or what [%v] prints. *)
Inductive param := PString (s : bytes) | POther (v : bytes).

Section Texts.
Context {SM : StringMore}.
Definition quoted (s : bytes) : bytes := str "'" ++ Truncate s 256 ++ str "'".
Definition param_text (comma : bool) (p : param) : bytes :=
  let sep := if comma then str "," else [] in
  match p with PString s => quoted s ++ sep | POther v => Truncate (v ++ sep) 256 end.
(** The first twenty; only the twentieth and the last of more have no comma. *)
Fixpoint params_from (n i : nat) (l : list param) : bytes :=
  match l with
  | [] => []
  | p :: l =>
      (if bool_decide (i < 20) then param_text (bool_decide (i < n - 1) || bool_decide (i < 19)) p else []) ++ params_from n (S i) l
  end.
Definition paramsToString (params : list param) : bytes := params_from (length params) 0 params.
End Texts.

(** The password of a connection string: between the first colon and the next at sign,
    if the former is the smaller number, the latter counted from the colon; else from
    [password=] to the next blank, on the same condition. *)
Definition hide_from (pat sep : bytes) (keep : bytes) (s : bytes) : option bytes :=
  first ← Index s pat;
  last ← Index (drop first s) sep;
  if bool_decide (first < last) then Some (take first s ++ keep ++ drop last (drop first s)) else None.
Definition hidePwd (connStr : bytes) : bytes :=
  match hide_from (str ":") (str "@") (str ":#") connStr with
  | Some s => s
  | None => default connStr (hide_from (str "password=") (str " ") (str "password=#") connStr)
  end.

Section Calls.
Context {LMz : LinkedMap Z} {LMi : LinkedMap (Z * Z)} {LMh : LinkedMap StatHttpc.HTTPC}
  {LMm : LinkedMap StatTranxMtCaller.MtraceKEY} {BU : BitUtil} {SU : StringUtil} {SM : StringMore} {TT : TextTypes}
  {RQ : RequestQueue} {CT : CountTable} {PT : PathTree} {HM : MeterService.Pack} {UU : UrlUtil} {PC : IProfileCollector}
  {HX : Hexa32} {AC : AppContext}.
Abbreviation ctx_t := TraceContext.t.
Variable conf : AppConf.
Variable INFO : Z.
(** The choice of the pools; the configured LLM hosts; [url.Parse(raw)]'s host. *)
Variable call_get : list nat -> option nat.
Variable customHosts : list hostPattern.
Variable url_Parse_Host : bytes -> option bytes.
#[local] Abbreviation GetTraceContext := (AppState.GetTraceContext conf).

(** The agent's context of a transaction, as it is when asked for. *)
Definition GetAgentTraceContext (l : option nat) : prog (option nat) :=
  match l with None => mret None | Some l => t ← get_tc l; mret (Ctx t) end.
(** What a call keeps of the transaction: its address, id, name, context. *)
Definition tx_seen (e : Env) (ctx : goctx) : prog (option (nat * TraceCtx)) :=
  '(_, tc) ← GetTraceContext e ctx;
  match tc with None => mret None | Some l => t ← get_tc l; mret (Some (l, t)) end.
Definition the_ctx (tx : option (nat * TraceCtx)) : option nat := x ← tx; Ctx x.2.

(** ** Statements *)

Definition PoolSqlContext : prog nat := fun a =>
  let '(l, p) := pool_take call_get NewSqlCtx (p_sqls a) in (a <| p_sqls := p |>, Some l).
Definition CloseSqlContext (l : nat) : prog unit := modify (fun a => a <| p_sqls ::= pool_close NewSqlCtx l |>).
Definition on_sql (l : nat) (f : SqlCtx -> SqlCtx) : prog unit :=
  modify (fun a => a <| p_sqls ::= fun p => p <| o_heap ::= alter f l |> |>).
Definition seen_sql (tx : option (nat * TraceCtx)) (s : SqlCtx) : SqlCtx :=
  match tx with
  | Some (l, t) => s <| s_ctx := Some l |> <| s_Txid := Txid t |> <| s_ServiceName := Name t |>
  | None => s
  end.
Definition SQL_TYPE_DBC : Z := 1.
Definition SQL_TYPE_SQL : Z := 2.
Definition SQL_TYPE_SQL_PARAM : Z := 3.
Definition StartOpen (e : Env) (ctx : goctx) (dbhost : bytes) : prog nat :=
  if DISABLE (mt conf) || negb (Enabled conf) then PoolSqlContext
  else
    s ← PoolSqlContext;
    tx ← tx_seen e ctx;
    on_sql s (fun c => (seen_sql tx c) <| s_StartTime := SystemNow e |> <| s_Dbc := hidePwd dbhost |> <| s_Type := SQL_TYPE_DBC |>);;
    st ← agent_call (the_ctx tx) (fun w c => StartDBC w c (SystemNow e) (hidePwd dbhost));
    on_sql s (fun c => c <| s_step := DbcStep st |>);;
    mret s.
(** A statement without bind values has the parameter text of a new context, empty. *)
Definition start_sql (e : Env) (ctx : goctx) (dbhost sql Param : bytes) (ty : Z) : prog nat :=
  s ← PoolSqlContext;
  tx ← tx_seen e ctx;
  on_sql s (fun c => (seen_sql tx c) <| s_StartTime := SystemNow e |> <| s_Dbc := hidePwd dbhost |> <| s_Sql := sql |>
                       <| s_Type := ty |> <| s_Param := Param |>);;
  st ← agent_call (the_ctx tx) (fun w x => StartSql (api conf) w x (SystemNow e) (hidePwd dbhost) sql Param);
  on_sql s (fun c => c <| s_step := SqlStep st |>);;
  mret s.
Definition StartSqlCall (e : Env) (ctx : goctx) (dbhost sql : bytes) : prog nat :=
  if DISABLE (mt conf) || negb (Enabled conf) then PoolSqlContext else start_sql e ctx dbhost sql [] SQL_TYPE_SQL.
Definition StartWithParam (e : Env) (ctx : goctx) (dbhost sql : bytes) (ps : list param) : prog nat :=
  if DISABLE (mt conf) || negb (Enabled conf) then PoolSqlContext
  else if ProfileSqlParamEnabled (api conf)
  then start_sql e ctx dbhost sql (paramsToString ps) SQL_TYPE_SQL_PARAM
  else start_sql e ctx dbhost sql [] SQL_TYPE_SQL.
(** [int32(now - StartTime)] *)
Definition elapsed_since (e : Env) (start : Z) : Z := int32 (int64 (SystemNow e - start)).
(** [driver.ErrSkip] is no error. *)
Definition not_skip (isSkip : bool) (err : option error) : option error := if isSkip then None else err.
Definition end_step (e : Env) (c : option nat) (st : call_step) (ty elapsed cpu mem : Z) (err : option error) : prog unit :=
  match st with
  | DbcStep s =>
      if (ty =? SQL_TYPE_DBC)%Z
      then agent_call c (fun w x => let '(w, x) := EndDBC (api conf) INFO (SystemNow e) w x (Some s) elapsed err in (w, x, tt))
      else mret tt
  | SqlStep s =>
      if (ty =? SQL_TYPE_SQL)%Z || (ty =? SQL_TYPE_SQL_PARAM)%Z
      then agent_call c (fun w x => let '(w, x) := EndSql (api conf) INFO (SystemNow e) w x s elapsed cpu mem err in (w, x, tt))
      else mret tt
  | NoStep => mret tt
  end.
Definition has_step (st : call_step) : bool := match st with NoStep => false | _ => true end.
Definition EndSqlCall (e : Env) (sqlCtx : option nat) (err : option error) (isSkip : bool) : prog (option error) :=
  if DISABLE (mt conf) || negb (Enabled conf) then mret None
  else
    c ← gets (fun a => s ← sqlCtx; o_heap (p_sqls a) !! s);
    match sqlCtx, c with
    | Some s, Some c =>
        if has_step (s_step c) then
          x ← GetAgentTraceContext (s_ctx c);
          end_step e x (s_step c) (s_Type c) (elapsed_since e (s_StartTime c)) (s_Cpu c) (s_Mem c) (not_skip isSkip err);;
          CloseSqlContext s;;
          mret None
        else mret (Some (Errorf (str "SqlCtx is nil")))
    | _, _ => mret (Some (Errorf (str "SqlCtx is nil")))
    end.
Definition TraceSql (e : Env) (ctx : goctx) (dbhost sql : bytes) (ps : list param) (elapsed : Z) (err : option error)
  : prog (option error) :=
  if DISABLE (mt conf) || negb (Enabled conf) then mret None
  else
    tx ← tx_seen e ctx;
    agent_call (the_ctx tx) (fun w x =>
      let '(w, x) := ProfileSql (api conf) INFO (SystemNow e) w x (SystemNow e) (hidePwd dbhost) sql
                       (if ProfileSqlParamEnabled (api conf) && bool_decide (0 < length ps) then paramsToString ps else [])
                       (int32 elapsed) 0 0 err in (w, x, tt));;
    mret None.

(** ** HTTP calls *)

Definition PoolHttpcContext : prog nat := fun a =>
  let '(l, p) := pool_take call_get NewHttpcCtx (p_httpcs a) in (a <| p_httpcs := p |>, Some l).
Definition CloseHttpcContext (l : nat) : prog unit := modify (fun a => a <| p_httpcs ::= pool_close NewHttpcCtx l |>).
Definition on_httpc (l : nat) (f : HttpcCtx -> HttpcCtx) : prog unit :=
  modify (fun a => a <| p_httpcs ::= fun p => p <| o_heap ::= alter f l |> |>).
Definition get_httpc (l : nat) : prog HttpcCtx := fun a => (a, o_heap (p_httpcs a) !! l).
(** A step on the LLM calls; what it gives back of a state is kept. *)
Definition on_llm {A} (f : LlmState.world -> res (A * LlmState.world)) : prog A := fun a =>
  match f (p_llm a) with Ret (x, w) => (a <| p_llm := w |>, Some x) | _ => (a, None) end.
Definition new_state (s : LLMState) : prog nat := fun a =>
  let l : nat := base.fresh (dom (p_states a)) in (a <| p_states ::= <[l := s]> |>, Some l).
Definition get_state (l : nat) : prog LLMState := fun a => (a, p_states a !! l).
Definition on_state (l : nat) (f : LLMState -> LlmState.world -> res (LLMState * LlmState.world)) : prog unit :=
  s ← get_state l;
  s ← on_llm (f s);
  modify (fun a => a <| p_states ::= <[l := s]> |>).
(** [state.SetURL] *)
Definition set_url (l : nat) (url : bytes) : prog unit :=
  on_state l (fun s w => w ← SetURL customHosts s w url; Ret (s, w)).
Definition attach (h : nat) (f : LlmState.world -> option LLMState * LlmState.world) : prog unit :=
  o ← on_llm (fun w => Ret (f w));
  match o with None => mret tt | Some s => l ← new_state s; on_httpc h (fun c => c <| Extra := Some l |>) end.

Definition httpc_GetMTrace (c : HttpcCtx) : Header :=
  if DISABLE (mt conf) then []
  else if MtraceEnabled (mt conf) && nonempty (h_TraceMtraceCallerValue c) then
    let rt := header_Set [] (TraceMtraceTraceparentKey (mt conf)) (h_TraceMtraceTraceparentValue c) in
    let rt := header_Set rt (TraceMtraceCallerKey (mt conf)) (h_TraceMtraceCallerValue c) in
    let rt := header_Set rt (TraceMtracePoidKey (mt conf)) (h_TraceMtracePoidValue c) in
    header_Set rt (TraceMtraceSpecKey1 (mt conf)) (h_TraceMtraceSpecValue c)
  else [].
(** The pending call of the context goes first, then a known URL. *)
Definition StartHttpcCall (e : Env) (ctx : goctx) (url : bytes) : prog nat :=
  if DISABLE (mt conf) || negb (Enabled conf) then PoolHttpcContext
  else
    h ← PoolHttpcContext;
    on_httpc h (fun c => c <| h_StartTime := SystemNow e |> <| h_Url := url |>);;
    tx ← tx_seen e ctx;
    match tx with
    | None => mret tt
    | Some (l, t) =>
        on_httpc h (fun c => c <| h_ctx := Some l |> <| h_txid := Txid t |> <| h_ServiceName := Name t |>);;
        st ← agent_call (Ctx t) (fun w x => StartHttpc (api conf) w x (SystemNow e) url);
        on_httpc h (fun c => c <| h_StepId := MStepId t |> <| h_step := Some (st <| hc_StepId := MStepId t |>) |>)
    end;;
    c ← get_httpc h;
    match Extra c, ctx ≫= fun g => head (g_pending g) with
    | None, Some s => set_url s url;; on_httpc h (fun c => c <| Extra := Some s |>)
    | _, _ => mret tt
    end;;
    c ← get_httpc h;
    match Extra c with
    | None => attach h (fun w => MaybeAttachAuto (LLMMode conf) (SystemNow e) customHosts w url)
    | Some _ => mret tt
    end;;
    mret h.
(** A call through a client of a model provider, whatever its URL. *)
Definition StartLLM (e : Env) (ctx : goctx) (url : bytes) : prog nat :=
  h ← StartHttpcCall e ctx url;
  c ← get_httpc h;
  match Extra c with
  | None => attach h (fun w => AttachForced url_Parse_Host (LLMMode conf) (SystemNow e) customHosts w url)
  | Some _ => mret tt
  end;;
  mret h.
Definition end_llm (e : Env) (c : HttpcCtx) (httpcStepId elapsed status : Z) (err : option error) : prog unit :=
  match Extra c with
  | None => mret tt
  | Some s =>
      match h_ctx c with Some l => on_tc l (fun t => t <| IsLlm := 1%Z |>) | None => mret tt end;;
      on_state s (fun st w =>
        HandleHttpcEnd (LLMMode conf) (SystemNow e) st w (h_txid c) (h_ctx c) httpcStepId elapsed status (err_text <$> err))
  end.
(** A nil context is read before it is tested. *)
Definition EndHttpcCall (e : Env) (httpcCtx : option nat) (status : Z) (err : option error) : prog (option error) :=
  if DISABLE (mt conf) || negb (Enabled conf) then mret None
  else
    match httpcCtx with
    | None => panic
    | Some h =>
        c ← get_httpc h;
        let elapsed := elapsed_since e (h_StartTime c) in
        x ← GetAgentTraceContext (h_ctx c);
        httpcStepId ← match h_step c with
                      | None => mret 0%Z
                      | Some st =>
                          let st := if Extra c is Some _ then st <| hc_Driver := str "LLM API" |> else st in
                          agent_call x (fun w y =>
                            let '(w, y) := EndHttpc (api conf) INFO (SystemNow e) w y (Some st) elapsed 0 0 (h_StepId c) err in
                            (w, y, h_StepId c))
                      end;
        end_llm e c httpcStepId elapsed status err;;
        CloseHttpcContext h;;
        mret None
    end.
Definition TraceHttpc (e : Env) (ctx : goctx) (url : bytes) (elapsed : Z) (err : option error) : prog (option error) :=
  if DISABLE (mt conf) || negb (Enabled conf) then mret None
  else
    tx ← tx_seen e ctx;
    agent_call (the_ctx tx) (fun w x =>
      let '(w, x) := ProfileHttpc (api conf) INFO (SystemNow e) w x (SystemNow e) url (int32 elapsed) 0 0 0 err in (w, x, tt));;
    mret None.

(** ** Methods *)

Definition PoolMethodContext : prog nat := fun a =>
  let '(l, p) := pool_take call_get NewMethodCtx (p_methods a) in (a <| p_methods := p |>, Some l).
Definition CloseMethodContext (l : nat) : prog unit := modify (fun a => a <| p_methods ::= pool_close NewMethodCtx l |>).
Definition on_method (l : nat) (f : MethodCtx -> MethodCtx) : prog unit :=
  modify (fun a => a <| p_methods ::= fun p => p <| o_heap ::= alter f l |> |>).
Definition StartMethodCall (e : Env) (ctx : goctx) (name : bytes) : prog nat :=
  if DISABLE (mt conf) || negb (ProfileMethodEnabled conf) then PoolMethodContext
  else
    m ← PoolMethodContext;
    tx ← tx_seen e ctx;
    match tx with
    | None => mret m
    | Some (l, t) =>
        on_method m (fun c => c <| m_StartTime := SystemNow e |> <| m_Method := name |> <| m_ctx := Some l |>
                                <| m_Txid := Txid t |> <| m_ServiceName := Name t |>);;
        st ← agent_call (Ctx t) (fun w x => let '(w, st) := StartMethod w x (SystemNow e) name in (w, x, st));
        on_method m (fun c => c <| m_step := Some st |>);;
        mret m
    end.
(** The stack of the goroutine, if configured, is kept but not sent. *)
Definition EndMethodCall (e : Env) (methodCtx : option nat) (goStack : bytes) : prog (option error) :=
  if DISABLE (mt conf) || negb (ProfileMethodEnabled conf) then mret None
  else
    c ← gets (fun a => m ← methodCtx; o_heap (p_methods a) !! m);
    match methodCtx, c with
    | Some m, Some c =>
        match m_step c with
        | None => mret (Some (Errorf (str "MethodCtx is nil")))
        | Some st =>
            x ← GetAgentTraceContext (m_ctx c);
            (if ProfileMethodStackEnabled conf then on_method m (fun c => c <| m_Stack := goStack |>) else mret tt);;
            agent_call x (fun w y =>
              let '(w, y) := EndMethod (api conf) w y (Some st) [] (elapsed_since e (m_StartTime c)) (m_Cpu c) (m_Mem c) in (w, y, tt));;
            CloseMethodContext m;;
            mret None
        end
    | _, _ => mret (Some (Errorf (str "MethodCtx is nil")))
    end.
Definition TraceMethod (e : Env) (ctx : goctx) (name : bytes) (elapsed : Z) : prog (option error) :=
  if negb (ProfileMethodEnabled conf) then mret None
  else
    tx ← tx_seen e ctx;
    match tx with
    | None => mret (Some (Errorf (str "Not found Txid ")))
    | Some (_, t) =>
        agent_call (Ctx t) (fun w x =>
          let '(w, x) := ProfileMethod (api conf) w x (SystemNow e) name [] (int32 elapsed) 0 0 in (w, x, tt));;
        mret None
    end.

(** ** LLM calls *)

(** [agentllm.RegisterPending]: the first pending call of a context stays. *)
Definition register_pending (ctx : goctx) (s : nat) : prog goctx :=
  st ← get_state s;
  mret (match ctx with
        | Some c => if disabled st then ctx else match g_pending c with [] => Some (c <| g_pending := [s] |>) | _ => ctx end
        | None => None
        end).
Definition toAgent (Provider Model OperationType : bytes) : LlmState.Config := mkConfig Provider Model OperationType [].
(** The step is [None] for the disabled state, which is shared and does nothing. *)
Definition manual_state (e : Env) (cfg : LlmState.Config) : prog nat :=
  s ← on_llm (fun w => Ret (NewLLMState (SystemNow e) w cfg));
  new_state (MarkManualPublish s).
Definition StartLlmStep (e : Env) (ctx : goctx) (cfg : LlmState.Config) : prog (goctx * option nat) :=
  if negb (LLMMode conf) then mret (ctx, None)
  else
    s ← manual_state e cfg;
    ctx ← register_pending ctx s;
    mret (ctx, Some s).
Definition Bind (e : Env) (hc : option nat) (cfg : LlmState.Config) : prog (option nat) :=
  match hc with
  | None => mret None
  | Some h =>
      if negb (LLMMode conf) then mret None
      else
        s ← manual_state e cfg;
        on_httpc h (fun c => c <| Extra := Some s |>);;
        c ← get_httpc h;
        set_url s (h_Url c);;
        mret (Some s)
  end.
Definition EndLlmStep (e : Env) (s : option nat) : prog unit :=
  match s with
  | None => mret tt
  | Some s => on_state s (fun st w => Publish (LLMMode conf) (SystemNow e) st w)
  end.

(** ** Wrappers *)

(** [Wrap] and its relatives; a panic of [fn] leaves the call open. *)
Definition WrapSql {T} (e e' : Env) (ctx : goctx) (dbhost query : bytes) (fn : prog (T * option error * bool)) : prog (T * option error) :=
  s ← StartSqlCall e ctx dbhost query;
  '(x, err, skip) ← fn;
  EndSqlCall e' (Some s) err skip;;
  mret (x, err).
Definition WrapSqlP {T} (e e' : Env) (ctx : goctx) (dbhost query : bytes) (ps : list param) (fn : prog (T * option error * bool)) : prog (T * option error) :=
  s ← StartWithParam e ctx dbhost query ps;
  '(x, err, skip) ← fn;
  EndSqlCall e' (Some s) err skip;;
  mret (x, err).
Definition WrapOpen {T} (e e' : Env) (ctx : goctx) (dbhost : bytes) (fn : prog (T * option error * bool)) : prog (T * option error) :=
  s ← StartOpen e ctx dbhost;
  '(x, err, skip) ← fn;
  EndSqlCall e' (Some s) err skip;;
  mret (x, err).
Definition WrapHttpc {T} (e e' : Env) (ctx : goctx) (url : bytes) (fn : prog (T * Z * option error)) : prog (T * Z * option error) :=
  h ← StartHttpcCall e ctx url;
  '(x, status, err) ← fn;
  EndHttpcCall e' (Some h) status err;;
  mret (x, status, err).
Definition WrapMethod {T} (e e' : Env) (ctx : goctx) (name goStack : bytes) (fn : prog (T * option error)) : prog (T * option error) :=
  m ← StartMethodCall e ctx name;
  '(x, err) ← fn;
  EndMethodCall e' (Some m) goStack;;
  mret (x, err).
End Calls.
