(* ===== verification/AppFacts.v ===== *)
(** A transaction the application starts is ended once, and what can end it too early;
    what the connection strings sent hide. *)

From stdpp Require Import gmap.
From S2P Require Import Prelude LlmPack LlmState LlmSender.
From S2P Require Import EscapeSQL Hmap UrlPattern TraceCtx MeterService Meters DataPack DataText.
From S2P Require Import ParsedSql Stat StatError TraceContext TraceApi TraceSteps TraceMain TraceManager TraceSamples TraceManagerFacts AppState AppTrace AppCalls.

Section Facts.
Context {LMz : LinkedMap Z} {LLz : LinkedMapLaws Z LMz} {LMi : LinkedMap (Z * Z)} {LMh : LinkedMap StatHttpc.HTTPC}
  {LMm : LinkedMap StatTranxMtCaller.MtraceKEY} {BU : BitUtil} {SU : StringUtil} {SM : StringMore} {TT : TextTypes}
  {RQ : RequestQueue} {QL : QueueLaws RQ} {CT : CountTable} {PT : PathTree} {HM : MeterService.Pack} {UU : UrlUtil}
  {PC : IProfileCollector} {HX : Hexa32} {AC : AppContext}.
Abbreviation ctx_t := TraceContext.t.
Variable conf : AppConf.
Variable WebMethodName : bytes -> option Z.
Variable nil_String : res bytes.
Variable INFO : Z.
Variable ip_of : bytes -> Z.
Variable StatusText : Z -> bytes.
Variable Next : nat -> Z.
Variables pool_get ctx_get : list nat -> option nat.
Hypothesis ctx_get_in : forall free l, ctx_get free = Some l -> l ∈ free.

(** * Programs that keep a transaction open *)

(** The transaction at [l] runs, with the agent's context at [c]. *)
Definition opened (l c : nat) (id g : Z) (a : App) : Prop :=
  exists t x, p_heap a !! l = Some t /\ Ctx t = Some c /\ Txid t = id /\ GID t = g /\
    ag_heap (p_agent a) !! c = Some x /\ TraceContext.Txid x = id.
Definition keeps {A} (m : prog A) (l c : nat) (id g : Z) : Prop :=
  forall a, opened l c id g a -> exists a' v, m a = (a', Some v) /\ opened l c id g a'.

Lemma bind_Some {A B} (m : prog A) (f : A -> prog B) a a' v : m a = (a', Some v) -> (m ≫= f) a = f v a'.
Proof. intros E. unfold mbind, prog_bind. by rewrite E. Qed.
Section Open.
Variables (l c : nat) (id g : Z).
Abbreviation opn := (opened l c id g).
Lemma keeps_ret {A} (v : A) : keeps (mret v) l c id g.
Proof. intros a Ha. by exists a, v. Qed.
Lemma keeps_bind {A B} (m : prog A) (f : A -> prog B) :
  keeps m l c id g -> (forall v, keeps (f v) l c id g) -> keeps (m ≫= f) l c id g.
Proof.
  intros Hm Hf a Ha. destruct (Hm a Ha) as (a1 & v & E & H1). destruct (Hf v a1 H1) as (a2 & u & E2 & H2).
  exists a2, u. split; [|done]. by rewrite (bind_Some _ _ _ _ _ E).
Qed.
Lemma keeps_gets {A} (f : App -> A) : keeps (gets f) l c id g.
Proof. intros a Ha. by exists a, (f a). Qed.
(** What changes neither heap. *)
Lemma keeps_modify (f : App -> App) :
  (forall a, p_heap (f a) = p_heap a) -> (forall a, ag_heap (p_agent (f a)) = ag_heap (p_agent a)) -> keeps (modify f) l c id g.
Proof.
  intros H1 H2 a Ha. exists (f a), tt. split; [done|]. unfold opened. by rewrite H1, H2.
Qed.
Lemma keeps_next_key : keeps (AppState.next_key Next) l c id g.
Proof. intros a Ha. by eexists _, _. Qed.
Lemma keeps_on_tc l' f :
  (forall t, Ctx (f t) = Ctx t /\ Txid (f t) = Txid t /\ GID (f t) = GID t) -> keeps (on_tc l' f) l c id g.
Proof.
  intros Hf a (t & x & H1 & H2 & H3 & H4 & H5 & H6). eexists _, tt. split; [reflexivity|]. unfold opened. simpl.
  destruct (decide (l' = l)) as [->|Hne].
  - exists (f t), x. rewrite lookup_alter_eq, H1. destruct (Hf t) as (-> & -> & ->). done.
  - exists t, x. by rewrite lookup_alter_ne.
Qed.
Lemma keeps_get_tc {B} (f : TraceCtx -> prog B) :
  (forall t, Ctx t = Some c -> keeps (f t) l c id g) -> keeps (get_tc l ≫= f) l c id g.
Proof.
  intros Hf a Ha. pose proof Ha as (t & x & H1 & H2 & _). destruct (Hf t H2 a Ha) as (a' & v & E & H').
  exists a', v. split; [|done]. rewrite (bind_Some _ _ a a t); [done|]. unfold get_tc. by rewrite H1.
Qed.
(** The agent's calls do not change the id of a context. *)
Definition same_id {A} (f : World -> option ctx_t -> World * option ctx_t * A) : Prop :=
  forall w x, match (f w (Some x)).1.2 with Some x' => TraceContext.Txid x' = TraceContext.Txid x | None => True end.
Lemma keeps_agent_call {A} o (f : World -> option ctx_t -> World * option ctx_t * A) : same_id f -> keeps (agent_call o f) l c id g.
Proof.
  intros Hf a (t & x & H1 & H2 & H3 & H4 & H5 & H6). unfold agent_call.
  destruct (f (ag_w (p_agent a)) (o ≫= fun l' => ag_heap (p_agent a) !! l')) as [[w y] v] eqn:E.
  eexists _, v. split; [reflexivity|]. unfold opened. cbn [p_heap p_agent].
  assert (forall a' : Agent, ag_heap a' = ag_heap (p_agent a) -> exists t x, p_heap a !! l = Some t /\ Ctx t = Some c /\ Txid t = id /\
    GID t = g /\ ag_heap a' !! c = Some x /\ TraceContext.Txid x = id) as Hsame.
  { intros a' Ha'. exists t, x. by rewrite Ha'. }
  change (p_heap (a <| p_agent := ?z |>)) with (p_heap a).
  destruct o as [o|]; [|by apply Hsame]. destruct y as [y|]; [|by apply Hsame]. simpl in E |- *.
  destruct (decide (o = c)) as [->|Hne].
  - rewrite H5 in E. specialize (Hf (ag_w (p_agent a)) x). rewrite E in Hf. simpl in Hf.
    exists t, y. rewrite lookup_insert_eq. repeat split; try done. by rewrite Hf.
  - exists t, x. rewrite lookup_insert_ne by done. done.
Qed.
Lemma keeps_on_ctx o (f : World -> ctx_t -> World * ctx_t) :
  (forall w x, TraceContext.Txid (f w x).2 = TraceContext.Txid x) -> keeps (on_ctx o f) l c id g.
Proof.
  intros Hf. apply keeps_agent_call. intros w x. pose proof (Hf w x) as H. by destruct (f w x).
Qed.
End Open.

(** ** The agent's side keeps the id *)

Abbreviation tid := TraceContext.Txid.
Lemma addMessage_id w c t et title v desc cut b : tid (addMessage w c t et title v desc cut b).2 = tid c.
Proof. unfold addMessage. by destruct b. Qed.
Lemma start_name_id now w c u : tid (start_name (api conf) now w c u).2 = tid c.
Proof.
  unfold start_name. cbv zeta. set (name := if TraceNormalizeEnabled _ then _ else _). clearbody name.
  set (c1 := c <| TraceContext.ServiceName := name |> <| TraceContext.ServiceHash := HashStr name |>).
  assert (tid c1 = tid c) as <- by done. clearbody c1. destruct (_ && _).
  - destruct (GetContextPath _ _ _) as [p0 ap]. destruct (negb _); [|done].
    match goal with |- context [addMessage ?w ?c2 ?t ?et ?ti ?v ?d ?cu ?b] =>
      pose proof (addMessage_id w c2 t et ti v d cu b) as H; destruct (addMessage w c2 t et ti v d cu b) as [w3 c3] end. exact H.
  - destruct (negb _); [|done].
    match goal with |- context [addMessage ?w ?c2 ?t ?et ?ti ?v ?d ?cu ?b] =>
      pose proof (addMessage_id w c2 t et ti v d cu b) as H; destruct (addMessage w c2 t et ti v d cu b) as [w3 c3] end. exact H.
Qed.
Lemma add_host_id u c : tid (add_host (api conf) u c) = tid c.
Proof. unfold add_host. by destruct (_ && _). Qed.
Lemma add_query_id n u c c' : add_query (api conf) n u c = Ret c' -> tid c' = tid c.
Proof.
  unfold add_query. destruct (QueryStringEnabled _); [|by intros [= <-]].
  destruct (MatchQueryString _ _ _ _) as [qs| |]; cbn [mbind res_bind]; [|done..]. destruct (nonempty qs); intros [= <-]; reflexivity.
Qed.
Lemma start_domain_id u w c : tid (start_domain (api conf) u w c).2 = tid c.
Proof. unfold start_domain. cbv zeta. destruct (negb _), (TraceUserAgentEnabled _); reflexivity. Qed.
Lemma start_referer_id w c w' c' : start_referer (api conf) nil_String w c = Ret (w', c') -> tid c' = tid c.
Proof.
  unfold start_referer. destruct (TraceRefererEnabled _).
  - destruct (url_String _ _) as [r| |]; cbn [mbind res_bind]; [|done..]. intros [= _ <-]. reflexivity.
  - by intros [= _ <-].
Qed.
Lemma StartTx_id now w l c : tid (StartTx (api conf) nil_String now w l c).2 = tid c.
Proof.
  unfold StartTx. cbv zeta. set (u := default _ _). set (c0 := c <| TraceContext.ServiceURL := Some u |>).
  assert (tid c0 = tid c) as <- by done. clearbody c0. set (w0 := w <| w_service ::= _ |>). clearbody w0.
  pose proof (start_name_id now w0 c0 u) as H1. destruct (start_name _ _ _ _ _) as [w1 c1]. simpl in H1. rewrite <- H1.
  destruct (InArray _ _); [done|].
  destruct (add_query _ _ _ _) as [c2| |] eqn:E; [|apply add_host_id..].
  apply add_query_id in E. rewrite add_host_id in E. rewrite <- E.
  pose proof (start_domain_id u w1 c2) as H2. destruct (start_domain _ _ _ _) as [w3 c3]. simpl in H2. rewrite <- H2.
  destruct (start_referer _ _ _ _) as [[w4 c4]| |] eqn:E2; [|done..]. apply start_referer_id in E2. rewrite <- E2. reflexivity.
Qed.
Lemma ProfileSecureMsg_id now w c t m : tid (ProfileSecureMsg (api conf) now w c t m).2 = tid c.
Proof. unfold ProfileSecureMsg. destruct (with_parameters _ _); [|done]. by destruct (secure_body _ _ _ _) as [[v crc]| |]. Qed.
Lemma record_error_id now w c thr : tid (record_error (api conf) INFO now w c thr).2 = tid c.
Proof. unfold record_error. cbv zeta. by destruct (stat_error _ _ _ _ _ _). Qed.
Lemma ProfileErrorStep_id now w c thr : tid (ProfileErrorStep (api conf) INFO now w thr c).2 = tid c.
Proof. unfold ProfileErrorStep. destruct (IsIgnoreException _ _); [done|]. apply record_error_id. Qed.
Lemma ProfileError_id now er : same_id (fun w x => let '(w, x) := ProfileError (api conf) INFO now w x er in (w, x, tt)).
Proof.
  intros w x. unfold ProfileError. destruct (IsIgnoreException _ _); [done|].
  match goal with |- context [record_error ?a ?b ?d ?w ?c ?t] =>
    pose proof (record_error_id d w c t) as H; destruct (record_error a b d w c t) as [w1 c1] end.
  simpl. etrans; [exact H|reflexivity].
Qed.
Lemma EndTx_id now wl w l c : tid (EndTx (api conf) WebMethodName now wl w l c).2 = tid c.
Proof.
  unfold EndTx. cbv zeta. set (c0 := c <| TraceContext.Elapsed := _ |>). assert (tid c0 = tid c) as <- by done.
  clearbody c0. destruct (TraceContext.IsStaticContents c0); [done|].
  assert (tid (end_times wl c0) = tid c0) as <-.
  { unfold end_times, parse_poid. cbv zeta. by repeat case_bool_decide. }
  set (c1 := end_times wl c0). clearbody c1. unfold TraceContext.ExtraFields. cbn [fst snd].
  by destruct (meter_end _ _ _ _).
Qed.

(** ** What an application calls while the transaction is open *)

Section Open.
Variables (l c : nat) (id g : Z) (p : list nat) (e : Env).
Abbreviation gctx := (Some (mkGo (Some l) p)).
Lemma keeps_GetTraceContext {B} (f : goctx * option nat -> prog B) :
  keeps (f (gctx, Some l)) l c id g -> keeps (AppState.GetTraceContext conf e gctx ≫= f) l c id g.
Proof. intros Hf a Ha. by destruct (Hf a Ha) as (a' & v & E & H'); exists a', v. Qed.
Lemma Step_keeps title message elapsed value : keeps (Step conf e gctx title message elapsed value) l c id g.
Proof.
  unfold Step. destruct (DISABLE _); [apply keeps_ret|]. destruct (negb _); [apply keeps_ret|].
  apply keeps_GetTraceContext, keeps_get_tc. intros t ->. apply keeps_bind; [|intros; apply keeps_ret].
  by apply keeps_on_ctx.
Qed.
Lemma SetHeader_keeps h : keeps (SetHeader conf e gctx h) l c id g.
Proof.
  unfold SetHeader. destruct (DISABLE _); [apply keeps_ret|]. destruct (negb _); [apply keeps_ret|].
  apply keeps_GetTraceContext, keeps_get_tc. intros t ->. destruct (HasPrefix _ _); [|apply keeps_ret].
  by apply keeps_on_ctx.
Qed.
Lemma SetParameter_keeps m : keeps (SetParameter conf e gctx m) l c id g.
Proof.
  unfold SetParameter. destruct (DISABLE _); [apply keeps_ret|]. destruct (negb _); [apply keeps_ret|].
  destruct m as [m|]; [|apply keeps_ret]. apply keeps_GetTraceContext, keeps_get_tc. intros t ->.
  destruct (HasPrefix _ _); [|apply keeps_ret]. apply keeps_on_ctx. intros. apply ProfileSecureMsg_id.
Qed.
Lemma Error_keeps err : keeps (Error conf INFO e gctx err) l c id g.
Proof.
  unfold Error. destruct (DISABLE _); [apply keeps_ret|]. destruct (negb _); [apply keeps_ret|].
  destruct err as [er|]; [|apply keeps_ret]. apply keeps_GetTraceContext, keeps_get_tc. intros t ->.
  apply keeps_agent_call, ProfileError_id.
Qed.
Lemma set_status_keeps s : keeps (set_status conf e gctx s) l c id g.
Proof. unfold set_status. apply keeps_GetTraceContext. by apply keeps_on_tc. Qed.
Lemma whatap_cookie_keeps r : keeps (whatap_cookie conf Next r) l c id g.
Proof.
  unfold whatap_cookie. destruct (TraceUserSetCookie conf); [|apply keeps_ret]. destruct (List.find _ _); [apply keeps_ret|].
  apply keeps_bind; [apply keeps_next_key|intros; apply keeps_ret].
Qed.
End Open.

(** * The end *)

(** The transaction is over: its record is cleared and free, nothing finds it. *)
Definition closed (l : nat) (id g : Z) (a : App) : Prop :=
  (exists t, p_heap a !! l = Some t /\ Ctx t = None /\ Txid t = 0%Z) /\ l ∈ p_free a /\
  GetGIDTraceCtx conf g a = None /\ lm_get (w_table (ag_w (p_agent a))) id = None.
(** Its context is the last to be sent, unless the transaction is static contents or
    the sender is not there. *)
Definition sent (c : nat) (a : App) : Prop :=
  exists x, ag_heap (p_agent a) !! c = Some x /\
    (TraceContext.IsStaticContents x = true \/ w_queue (ag_w (p_agent a)) = None \/ last (waiting (p_agent a)) = Some c).

Lemma end_stats_same c tx w : same_txs w (end_stats (api conf) c tx w).
Proof. unfold end_stats. by destruct (TxStatusMeterEnabled _), (StatTxStatusEnabled _), (AppContextEnabled _). Qed.
Lemma EndTx_spec now wl w l c :
  let '(w', c') := EndTx (api conf) WebMethodName now wl w l c in
  lm_get (w_table w') (tid c) = None /\ TraceContext.IsStaticContents c' = TraceContext.IsStaticContents c /\
  (TraceContext.IsStaticContents c = true \/ w_queue w' = None \/ exists q, w_queue w' = Some q /\ last (q_items q) = Some l).
Proof.
  unfold EndTx. cbv zeta. change (TraceContext.IsStaticContents (c <| TraceContext.Elapsed := ?z |>)) with (TraceContext.IsStaticContents c).
  destruct (TraceContext.IsStaticContents c) eqn:Es.
  { split; [|split; [exact Es|by left]]. simpl. by rewrite get_remove, decide_True. }
  set (c0 := c <| TraceContext.Elapsed := _ |>). assert (TraceContext.IsStaticContents (end_times wl c0) = false) as Hs.
  { unfold end_times, parse_poid. cbv zeta. by repeat case_bool_decide. }
  set (c1 := end_times wl c0) in *. clearbody c1. unfold TraceContext.ExtraFields.
  set (c2 := c1 <| TraceContext.Fields := _ |>). assert (TraceContext.IsStaticContents c2 = false) as Hs2 by exact Hs. clearbody c2.
  set (w1 := w <| w_table ::= _ |>). assert (lm_get (w_table w1) (tid c) = None) as Hw.
  { unfold w1. simpl. by rewrite get_remove, decide_True. }
  clearbody w1. match goal with |- context [meter_end ?cf ?t ?x w1] =>
    pose proof (meter_end_same cf t x w1) as Hm; destruct (meter_end cf t x w1) as [w2 tx] end. simpl in Hm.
  pose proof (end_stats_same c2 tx w2) as He. set (w3 := end_stats _ _ _ _) in *. clearbody w3.
  split; [|split; [exact Hs2|right]].
  - unfold SendTransaction. simpl. by rewrite (proj1 He), (proj1 Hm).
  - unfold SendTransaction. simpl. destruct (w_queue w3) as [q|]; simpl; [right|by left].
    eexists. split; [reflexivity|]. destruct (items_PutForce _ q l) as (dr & kept & _ & -> & _). by rewrite last_snoc.
Qed.
Lemma run_agent_call {A} (a : App) o c (f : World -> option ctx_t -> World * option ctx_t * A) w x v y :
  ag_heap (p_agent a) !! c = Some x -> f (ag_w (p_agent a)) (Some x) = (w, Some y, v) -> o = Some c ->
  agent_call o f a = (a <| p_agent := store c y w (p_agent a) |>, Some v).
Proof. intros Hx Hf ->. unfold agent_call. cbn [mbind option_bind]. by rewrite Hx, Hf. Qed.
Lemma run_on_ctx (a : App) c (f : World -> ctx_t -> World * ctx_t) x w y :
  ag_heap (p_agent a) !! c = Some x -> f (ag_w (p_agent a)) x = (w, y) ->
  on_ctx c f a = (a <| p_agent := store c y w (p_agent a) |>, Some tt).
Proof. intros Hx Hf. unfold on_ctx. eapply run_agent_call; [exact Hx| |done]. by rewrite Hf. Qed.

Definition traced : Prop := DISABLE (mt conf) = false /\ Enabled conf = true.
Lemma End_closes e l c id g p err a :
  traced -> opened l c id g a ->
  exists a', End conf WebMethodName INFO e (Some (mkGo (Some l) p)) err a = (a', Some None) /\ closed l id g a' /\ sent c a'.
Proof.
  intros [Hd He] Ha. unfold End. rewrite Hd, He. cbn [negb].
  destruct (Error_keeps l c id g p e err a Ha) as (a1 & [] & E1 & (t & x & H1 & H2 & H3 & H4 & H5 & H6)).
  rewrite (bind_Some _ _ _ _ _ E1), (bind_Some _ _ a1 a1 (Some (mkGo (Some l) p), Some l)) by done. cbn beta iota.
  rewrite (bind_Some _ _ a1 a1 t) by (unfold get_tc; by rewrite H1). rewrite H2.
  set (x1 := end_fields t x). assert (tid x1 = id) as Hx1.
  { unfold x1, end_fields. cbv zeta. destruct (_ && _), (negb _); exact H6. }
  pose proof (EndTx_spec (SystemNow e) (wall e) (ag_w (p_agent a1)) c x1) as Hend.
  destruct (EndTx (api conf) WebMethodName (SystemNow e) (wall e) (ag_w (p_agent a1)) c x1) as [w2 x2] eqn:E2.
  destruct Hend as (Ht & Hs & Hq). rewrite Hx1 in Ht.
  set (a2 := a1 <| p_agent := store c x1 (ag_w (p_agent a1)) (p_agent a1) |>).
  rewrite (bind_Some _ _ a1 a2 tt) by (by eapply run_on_ctx; [exact H5|]).
  set (a3 := a2 <| p_agent := store c x2 w2 (p_agent a2) |>).
  rewrite (bind_Some _ _ a2 a3 tt).
  2:{ eapply run_on_ctx; [|exact E2]. simpl. apply lookup_insert_eq. }
  set (a4 := a3 <| p_logs ::= fun y => y ++ DispatchTraceTxStatus (SystemNow e) (LLMMode conf) (Txid t) (default INil (slots (p_llm a3) !! l)) |>).
  rewrite (bind_Some _ _ a3 a4 tt).
  2:{ unfold dispatch_llm. rewrite (bind_Some _ _ a3 a3 t); [done|]. unfold get_tc. change (p_heap a3) with (p_heap a1). by rewrite H1. }
  eexists. split; [reflexivity|]. split.
  - split.
    { exists (TraceCtx.Clear t). simpl. split; [|done].
      destruct (GoUseGoroutineIDEnabled conf); simpl; by rewrite lookup_alter_eq, H1. }
    split; [destruct (GoUseGoroutineIDEnabled conf); simpl; by left|].
    split.
    + unfold GetGIDTraceCtx. destruct (GoUseGoroutineIDEnabled conf) eqn:Eg; [|done]. simpl.
      by rewrite H4, get_remove, decide_True.
    + destruct (GoUseGoroutineIDEnabled conf); exact Ht.
  - exists x2. split; [destruct (GoUseGoroutineIDEnabled conf); simpl; apply lookup_insert_eq|].
    rewrite Hs. destruct Hq as [Hq|[Hq|(q & Hq & Hl)]]; [by left|right; left|right; right].
    + destruct (GoUseGoroutineIDEnabled conf); exact Hq.
    + unfold waiting. destruct (GoUseGoroutineIDEnabled conf); simpl; by rewrite Hq.
Qed.

(** * The start *)

Definition pool_ok (a : App) : Prop := forall l, l ∈ p_free a -> is_Some (p_heap a !! l).
(** Neither the context nor the goroutine has a transaction. *)
Definition idle_for (e : Env) (ctx : goctx) (a : App) : Prop :=
  (ctx ≫= g_whatap) = None /\ GetGIDTraceCtx conf (gid e) a = None.
Definition with_tx (ctx : goctx) (l : nat) : goctx := Some ((default Background ctx) <| g_whatap := Some l |>).

Definition gives (l : nat) (a : App) : Prop := exists a', AppState.PoolTC ctx_get a = (a', Some l) /\ is_Some (p_heap a' !! l).
Lemma pool_gives a : pool_ok a -> exists l, gives l a.
Proof.
  intros Hp. unfold gives, AppState.PoolTC. destruct (ctx_get (p_free a)) as [l|] eqn:E.
  - exists l. eexists. split; [reflexivity|]. simpl. by apply Hp, ctx_get_in.
  - eexists _, _. split; [reflexivity|]. simpl. by rewrite lookup_insert_eq.
Qed.
Lemma free_gives l a : ctx_get (p_free a) = Some l -> is_Some (p_heap a !! l) -> gives l a.
Proof. intros Hg Hl. unfold gives, AppState.PoolTC. rewrite Hg. by eexists. Qed.
Lemma PoolAgentCtx_spec a :
  exists c x a', AppState.PoolAgentCtx conf pool_get a = (a', Some c) /\ ag_heap (p_agent a') !! c = Some x /\ p_heap a' = p_heap a.
Proof.
  unfold AppState.PoolAgentCtx. destruct (PoolTraceContext _ _ _) as [[c x] ag]. exists c, x. eexists.
  split; [reflexivity|]. simpl. by rewrite lookup_insert_eq.
Qed.
Lemma NewTraceContext_opens e ctx l a :
  gives l a ->
  exists c id a', NewTraceContext conf Next pool_get ctx_get e ctx a = (a', Some (with_tx ctx l, l)) /\ opened l c id (gid e) a'.
Proof.
  intros (a1 & E1 & [t Ht]). unfold NewTraceContext. rewrite (bind_Some _ _ _ _ _ E1).
  set (a2 := a1 <| p_heap ::= alter (fun t => t <| GID := gid e |>) l |>). rewrite (bind_Some _ _ a1 a2 tt) by done.
  destruct (PoolAgentCtx_spec a2) as (c & x & a3 & E3 & Hx & Hh). rewrite (bind_Some _ _ _ _ _ E3).
  set (a4 := a3 <| p_heap ::= alter (fun t => t <| Ctx := Some c |>) l |>). rewrite (bind_Some _ _ a3 a4 tt) by done.
  set (id := Next (p_keys a4)). set (a5 := a4 <| p_keys ::= S |>). rewrite (bind_Some _ _ a4 a5 id) by done.
  set (x' := x <| TraceContext.Txid := id |> <| TraceContext.ThreadId := gid e |>).
  set (a6 := a5 <| p_agent := store c x' (ag_w (p_agent a5)) (p_agent a5) |>).
  rewrite (bind_Some _ _ a5 a6 tt) by (by eapply run_on_ctx; [exact Hx|]).
  exists c, id. eexists. split; [reflexivity|].
  exists (t <| GID := gid e |> <| Ctx := Some c |> <| Txid := id |>), x'.
  assert (forall m : gmap nat TraceCtx, m = alter (fun t => t <| Txid := id |>) l (alter (fun t => t <| Ctx := Some c |>) l (p_heap a3)) ->
    m !! l = Some (t <| GID := gid e |> <| Ctx := Some c |> <| Txid := id |>)) as Hm.
  { intros m ->. rewrite !lookup_alter_eq, Hh. unfold a2. simpl. by rewrite lookup_alter_eq, Ht. }
  split; [by destruct (GoUseGoroutineIDEnabled conf); apply Hm|]. do 3 (split; [done|]).
  split; [|done]. destruct (GoUseGoroutineIDEnabled conf); simpl; apply lookup_insert_eq.
Qed.

(** The headers of a request do not change what the transaction is. *)
Lemma UpdateMtrace_same n t h t' n' :
  TraceCtx.UpdateMtrace (mt conf) Next n t h = Ret (t', n') -> Ctx t' = Ctx t /\ Txid t' = Txid t /\ GID t' = GID t.
Proof.
  unfold TraceCtx.UpdateMtrace. destruct (DISABLE _); [by intros [= <- _]|]. destruct (negb _); [by intros [= <- _]|]. cbv zeta.
  set (parent := header_Get h (TraceMtraceTraceparentKey (mt conf))).
  destruct (if nonempty parent then update_traceparent parent t else Ret t) as [t1| |] eqn:E1; cbn [mbind res_bind]; [|done..].
  assert (Ctx t1 = Ctx t /\ Txid t1 = Txid t /\ GID t1 = GID t) as H1.
  { destruct (nonempty parent); [|by injection E1 as <-]. revert E1. unfold update_traceparent.
    destruct (Split _ _) as [|? [|id [|st [|? ?]]]]; try by intros [= <-].
    destruct (slice id 16 _); cbn [mbind res_bind]; [|done..]. by intros [= <-]. }
  set (q := if nonempty (header_Get h (TraceMtraceCallerKey _)) then _ else _).
  assert (Ctx q.1 = Ctx t1 /\ Txid q.1 = Txid t1 /\ GID q.1 = GID t1) as H2.
  { unfold q. destruct (nonempty (header_Get h (TraceMtraceCallerKey (mt conf)))); [|done]. unfold update_caller.
    set (r := match Split _ _ with _ :: _ :: _ :: _ => _ | _ => _ end).
    assert (Ctx r.1.1 = Ctx t1 /\ Txid r.1.1 = Txid t1 /\ GID r.1.1 = GID t1) as Hr.
    { unfold r. destruct (Split _ _) as [|? [|a1 [|? ?]]]; try done. by destruct (Atoi a1). }
    clearbody r. destruct r as [[t2 m] k]. destruct (nonempty parent); [|done]. by destruct (_ =? _)%Z. }
  clearbody q. destruct q as [t2 useWhatap]. cbn [fst] in H2.
  set (t3 := if useWhatap then _ else _).
  assert (Ctx t3 = Ctx t2 /\ Txid t3 = Txid t2 /\ GID t3 = GID t2) as H3.
  { unfold t3. destruct useWhatap; [|done]. unfold update_whatap.
    destruct (nonempty (header_Get h (TraceMtraceSpecKey1 (mt conf)))), (nonempty (header_Get h (TraceMtracePoidKey (mt conf))));
      try done; by destruct (Split _ _) as [|? [|? ?]]. }
  clearbody t3. unfold sample_mtid. destruct (_ =? 0)%Z; [destruct (_ <? _)%Z|]; intros [= <- _]; simpl;
    destruct H1 as (? & ? & ?), H2 as (? & ? & ?), H3 as (? & ? & ?); (split; [congruence|split; congruence]).
Qed.
Lemma UpdateMtrace_returns n t h :
  header_Get h (TraceMtraceTraceparentKey (mt conf)) = [] -> returns (TraceCtx.UpdateMtrace (mt conf) Next n t h).
Proof.
  intros Hp. unfold TraceCtx.UpdateMtrace. destruct (DISABLE _); [by eexists|]. destruct (negb _); [by eexists|].
  rewrite Hp. cbn [nonempty mbind res_bind]. destruct (if nonempty (header_Get h _) then _ else _) as [t1 b].
  destruct (sample_mtid _ _ _ _) as [t2 n1]. by eexists.
Qed.
Section Open.
Variables (l c : nat) (id g : Z).
(** [UpdateMtrace] keeps the transaction open, or panics. *)
Lemma update_mtrace_run h a :
  opened l c id g a ->
  exists a' v, update_mtrace conf Next l h a = (a', v) /\
    match v with Some _ => opened l c id g a' | None => exists n t, ~ returns (TraceCtx.UpdateMtrace (mt conf) Next n t h) end.
Proof.
  intros Ha. pose proof Ha as (t & x & H1 & H2 & H3 & H4 & H5 & H6). unfold update_mtrace.
  rewrite (bind_Some _ _ a a t) by (unfold get_tc; by rewrite H1). rewrite (bind_Some _ _ a a (p_keys a)) by done.
  destruct (TraceCtx.UpdateMtrace _ _ _ _ _) as [[t' n']| |] eqn:E.
  - eexists _, (Some tt). split; [reflexivity|]. destruct (UpdateMtrace_same _ _ _ _ _ E) as (K1 & K2 & K3).
    exists t', x. simpl. rewrite lookup_insert_eq. repeat split; congruence.
  - assert (~ returns (TraceCtx.UpdateMtrace (mt conf) Next (p_keys a) t h)) as Hn by (rewrite E; by intros [? ?]).
    destruct (Split _ _) as [|? [|? ?]]; (eexists _, None; split; [reflexivity|by eexists _, _]).
  - assert (~ returns (TraceCtx.UpdateMtrace (mt conf) Next (p_keys a) t h)) as Hn by (rewrite E; by intros [? ?]).
    destruct (Split _ _) as [|? [|? ?]]; (eexists _, None; split; [reflexivity|by eexists _, _]).
Qed.
Lemma begin_tx_keeps e f : (forall x, tid (f x) = tid x) -> keeps (begin_tx conf nil_String e l f) l c id g.
Proof.
  intros Hf. unfold begin_tx. apply keeps_get_tc. intros t ->. apply keeps_bind; [by apply keeps_on_ctx|].
  intros _. apply keeps_on_ctx. intros. apply StartTx_id.
Qed.
End Open.
Lemma running_idle e ctx a : idle_for e ctx a -> running conf e ctx a = (a, Some None).
Proof.
  intros [Hc Hg]. unfold running. rewrite (bind_Some _ _ a a (ctx, None)); [done|].
  unfold AppState.GetTraceContext, gets. rewrite Hg. by destruct ctx as [[[w|] p]|].
Qed.
Lemma Start_opens e ctx name l a :
  traced -> gives l a -> idle_for e ctx a ->
  exists c id a', Start conf nil_String Next pool_get ctx_get e ctx name a = (a', Some (with_tx ctx l, None)) /\ opened l c id (gid e) a'.
Proof.
  intros [Hd He] Hp Hi. unfold Start. rewrite Hd, He. cbn [negb]. rewrite (bind_Some _ _ a a None) by (by apply running_idle).
  destruct (NewTraceContext_opens e ctx l a Hp) as (c & id & a1 & E1 & H1). rewrite (bind_Some _ _ _ _ _ E1). cbn beta iota.
  exists c, id.
  destruct (keeps_on_tc l c id (gid e) l (fun t => t <| Name := name |> <| StartTime := SystemNow e |>) ltac:(done) a1 H1)
    as (a2 & [] & E2 & H2). rewrite (bind_Some _ _ _ _ _ E2).
  destruct (update_mtrace_run l c id (gid e) [] a2 H2) as (a3 & v & E3 & H3).
  destruct v as [[]|]; [|destruct H3 as (n & t & H3); by destruct H3; apply UpdateMtrace_returns].
  rewrite (bind_Some _ _ _ _ _ E3).
  destruct (begin_tx_keeps l c id (gid e) e (fun c => c <| TraceContext.StartTime := SystemNow e |> <| TraceContext.ServiceURL := Some (NewURL name) |>)
    ltac:(done) a3 H3) as (a4 & [] & E4 & H4). rewrite (bind_Some _ _ _ _ _ E4). by eexists.
Qed.
(** [StartWithRequest] panics on the headers of the request, or opens a transaction. *)
Lemma StartWithRequest_opens e r a :
  traced -> pool_ok a -> idle_for e (Some (r_Context r)) a ->
  (exists a', StartWithRequest conf nil_String ip_of Next pool_get ctx_get e r a = (a', None) /\
     exists n t, ~ returns (TraceCtx.UpdateMtrace (mt conf) Next n t (r_Header r))) \/
  exists l c id a', StartWithRequest conf nil_String ip_of Next pool_get ctx_get e r a = (a', Some (with_tx (Some (r_Context r)) l)) /\
    opened l c id (gid e) a'.
Proof.
  intros [Hd He] Hp Hi. unfold StartWithRequest. rewrite Hd, He. cbn [negb]. cbv zeta.
  rewrite (bind_Some _ _ a a None) by (by apply running_idle).
  destruct (pool_gives a Hp) as [l Hl]. destruct (NewTraceContext_opens e (Some (r_Context r)) l a Hl) as (c & id & a1 & E1 & H1).
  rewrite (bind_Some _ _ _ _ _ E1). cbn beta iota.
  destruct (keeps_on_tc l c id (gid e) l (fun t => t <| Name := r_RequestURI r |> <| StartTime := SystemNow e |>) ltac:(done) a1 H1)
    as (a2 & [] & E2 & H2). rewrite (bind_Some _ _ _ _ _ E2).
  destruct (update_mtrace_run l c id (gid e) (r_Header r) a2 H2) as (a3 & v & E3 & H3). destruct v as [[]|].
  - right. exists l, c, id. rewrite (bind_Some _ _ _ _ _ E3).
    destruct (begin_tx_keeps l c id (gid e) e (of_request conf ip_of e r) ltac:(done) a3 H3) as (a4 & [] & E4 & H4).
    rewrite (bind_Some _ _ _ _ _ E4).
    destruct (SetHeader_keeps l c id (gid e) (g_pending (r_Context r)) e (r_Header r) a4 H4) as (a5 & [] & E5 & H5).
    exists a5. split; [|done]. unfold with_tx. destruct (r_Context r) as [w p]. simpl in *. by rewrite (bind_Some _ _ _ _ _ E5).
  - left. eexists. split; [|exact H3]. unfold mbind, prog_bind. by rewrite E3.
Qed.

(** * Handlers and wrappers *)

(** After the handler, whatever it returned. *)
Lemma Func_after e' l c id g p r hd a :
  traced -> opened l c id g a ->
  exists a' cookie,
    (match hd_panic hd with Some x => Error conf INFO e' (Some (mkGo (Some l) p)) (Some (Errorf x)) | None => mret tt end;;
     set_status conf e' (Some (mkGo (Some l) p)) (int32 (hd_status hd));;
     (if ProfileHttpParameterEnabled (api conf) && HasPrefix (r_RequestURI r) (ProfileHttpParameterUrlPrefix (api conf))
      then match hd_form hd with Some m => SetParameter conf e' (Some (mkGo (Some l) p)) (Some m) | None => mret tt end
      else mret tt);;
     cookie ← whatap_cookie conf Next r;
     End conf WebMethodName INFO e' (Some (mkGo (Some l) p))
       (if (400 <=? hd_status hd)%Z
        then Some (Errorf (str "Status " ++ FormatInt (hd_status hd) ++ str ":" ++ StatusText (hd_status hd))) else None);;
     (if negb (GoRecoverEnabled conf) then reraise hd else mret tt);;
     mret cookie) a =
    (a', if bool_decide (is_Some (hd_panic hd)) && negb (GoRecoverEnabled conf) then None else Some cookie) /\
    closed l id g a' /\ sent c a'.
Proof.
  intros Ht Ha.
  assert (keeps (match hd_panic hd with Some x => Error conf INFO e' (Some (mkGo (Some l) p)) (Some (Errorf x)) | None => mret tt end) l c id g) as K1.
  { destruct (hd_panic hd); [apply Error_keeps|apply keeps_ret]. }
  destruct (K1 a Ha) as (a1 & [] & E1 & H1). rewrite (bind_Some _ _ _ _ _ E1).
  destruct (set_status_keeps l c id g p e' (int32 (hd_status hd)) a1 H1) as (a2 & [] & E2 & H2). rewrite (bind_Some _ _ _ _ _ E2).
  match goal with |- context [(if ?b then ?m else mret tt) ≫= _] => assert (keeps (if b then m else mret tt) l c id g) as K3 end.
  { destruct (_ && _); [|apply keeps_ret]. destruct (hd_form hd); [apply SetParameter_keeps|apply keeps_ret]. }
  destruct (K3 a2 H2) as (a3 & [] & E3 & H3). rewrite (bind_Some _ _ _ _ _ E3).
  destruct (whatap_cookie_keeps l c id g r a3 H3) as (a4 & cookie & E4 & H4). rewrite (bind_Some _ _ _ _ _ E4).
  destruct (End_closes e' l c id g p (if (400 <=? hd_status hd)%Z
    then Some (Errorf (str "Status " ++ FormatInt (hd_status hd) ++ str ":" ++ StatusText (hd_status hd))) else None) a4 Ht H4)
    as (a5 & E5 & H5). rewrite (bind_Some _ _ _ _ _ E5). exists a5, cookie. split; [|exact H5].
  unfold reraise. destruct (GoRecoverEnabled conf); cbn [negb]; [by rewrite andb_false_r|].
  destruct (hd_panic hd); cbn; done.
Qed.
(** C10. A handler wrapped by [Func] always ends its transaction, whether it returns or
    panics: the transaction opened for the request, which any handler keeps open that
    does not end it itself, is closed, no context, goroutine or id leads to it any more,
    and its context waits to be sent; the panic goes on unless recovering is configured.
    Only the headers of the request can prevent it, by the panic of [UpdateMtrace]. *)
Theorem Func_closes e e' (handler : goctx -> prog Handled) r a :
  traced -> TransactionEnabled conf = true -> pool_ok a -> idle_for e (Some (r_Context r)) a ->
  (forall l c id, keeps (handler (with_tx (Some (r_Context r)) l)) l c id (gid e)) ->
  let '(a', o) := Func conf WebMethodName nil_String INFO ip_of StatusText Next pool_get ctx_get e e' handler r a in
  (o = None /\ exists n t, ~ returns (TraceCtx.UpdateMtrace (mt conf) Next n t (r_Header r))) \/
  exists l c id a1 a2 hd,
    opened l c id (gid e) a1 /\ handler (with_tx (Some (r_Context r)) l) a1 = (a2, Some hd) /\
    closed l id (gid e) a' /\ sent c a' /\ (o = None <-> is_Some (hd_panic hd) /\ GoRecoverEnabled conf = false).
Proof.
  intros Ht Htx Hp Hi Hh. unfold Func. rewrite (proj1 Ht), Htx. cbn [negb orb].
  destruct (StartWithRequest_opens e r a Ht Hp Hi) as [(a1 & E1 & Hn)|(l & c & id & a1 & E1 & H1)].
  - unfold mbind at 1, prog_bind at 1. rewrite E1. by left.
  - rewrite (bind_Some _ _ _ _ _ E1). destruct (Hh l c id a1 H1) as (a2 & hd & E2 & H2). rewrite (bind_Some _ _ _ _ _ E2).
    unfold with_tx in *. destruct (r_Context r) as [w p] eqn:Er. simpl in *.
    destruct (Func_after e' l c id (gid e) p r hd a2 Ht H2) as (a3 & cookie & E3 & H3 & H4).
    match goal with |- context [?m a2] => replace (m a2) with (a3, if bool_decide (is_Some (hd_panic hd)) && negb (GoRecoverEnabled conf) then None else Some cookie) end.
    right. exists l, c, id, a1, a2, hd. do 4 (split; [done|]).
    destruct (hd_panic hd), (GoRecoverEnabled conf); simpl; split; try done; try (by intros [? ?]); try (by intros [[? ?] ?]).
Qed.
(** [Start] in a running transaction opens no other, but the wrapper's [End] ends the
    running one: afterwards the steps of the outer transaction are not recorded, its own
    [End] does nothing but forget the goroutine, and the first transaction that is then
    given the record again is the one a further [End] on the old context ends. *)
Theorem inner_ends_outer e e' l c id g p name a :
  traced -> opened l c id g a -> id <> 0%Z ->
  let ctx := Some (mkGo (Some l) p) in
  exists a1, WrapVoid conf WebMethodName nil_String INFO Next pool_get ctx_get e e' ctx name (mret tt) a = (a1, Some tt) /\
    closed l id g a1 /\
    (forall e2 title msg elapsed v, Step conf e2 ctx title msg elapsed v a1 = (a1, Some None)) /\
    (forall e2 name2 a2 ctx2, ctx_get (p_free a1) = Some l -> idle_for e2 None a1 ->
      Start conf nil_String Next pool_get ctx_get e2 None name2 a1 = (a2, Some (ctx2, None)) ->
      exists c2 id2, opened l c2 id2 (gid e2) a2 /\
        exists a3, End conf WebMethodName INFO e2 ctx None a2 = (a3, Some None) /\ closed l id2 (gid e2) a3).
Proof.
  intros Ht Ha Hid ctx. unfold WrapVoid.
  assert (Start conf nil_String Next pool_get ctx_get e ctx name a = (a, Some (ctx, None))) as Es.
  { pose proof Ha as (t & x & H1 & H2 & H3 & _). unfold Start. rewrite (proj1 Ht), (proj2 Ht). cbn [negb].
    rewrite (bind_Some _ _ a a (Some ctx)); [done|]. unfold running.
    rewrite (bind_Some _ _ a a (ctx, Some l)) by done. cbn beta iota.
    rewrite (bind_Some _ _ a a t) by (unfold get_tc; by rewrite H1). rewrite H3. by destruct (Z.eqb_spec id 0). }
  rewrite (bind_Some _ _ _ _ _ Es). cbn beta iota. rewrite (bind_Some _ _ a a tt) by done.
  destruct (End_closes e' l c id g p None a Ht Ha) as (a1 & E1 & H1 & _). rewrite (bind_Some _ _ _ _ _ E1).
  exists a1. split; [done|]. split; [done|]. pose proof H1 as ((t1 & K1 & K2 & K3) & K4 & _). split.
  - intros e2 title msg elapsed v. unfold Step. rewrite (proj1 Ht), (proj2 Ht). cbn [negb].
    rewrite (bind_Some _ _ a1 a1 (ctx, Some l)) by done. cbn beta iota.
    rewrite (bind_Some _ _ a1 a1 t1) by (unfold get_tc; by rewrite K1). by rewrite K2.
  - intros e2 name2 a2 ctx2 Hg Hi E2.
    destruct (Start_opens e2 None name2 l a1 Ht (free_gives l a1 Hg (mk_is_Some _ _ K1)) Hi) as (c2 & id2 & a2' & E2' & H2).
    rewrite E2 in E2'. injection E2' as <- ->. exists c2, id2. split; [done|].
    destruct (End_closes e2 l c2 id2 (gid e2) p None a2 Ht H2) as (a3 & E3 & H3 & _). by exists a3.
Qed.
End Facts.

(** * Connection strings *)

Lemma Index_char c w s : c ∉ w -> Index (w ++ c :: s) [c] = Some (length w).
Proof.
  induction w as [|x w IH]; intros Hw.
  - cbn [app Index HasPrefix length]. by rewrite bool_decide_eq_true_2.
  - apply not_elem_of_cons in Hw as [Hx Hw]. cbn [app Index HasPrefix length]. rewrite bool_decide_eq_false_2 by congruence.
    cbn [andb]. by rewrite IH.
Qed.
(** A connection string with a user and a password is sent without the password if
    the user's name is not longer than the password; if it is longer, and there is no
    [password=] in the string, it is sent as it is, password included. *)
Theorem hidePwd_spec user pw rest :
  ":"%char ∉ user -> "@"%char ∉ pw ->
  let s := user ++ str ":" ++ pw ++ str "@" ++ rest in
  (length user <= length pw -> hidePwd s = user ++ str ":#@" ++ rest) /\
  (length pw < length user -> Index s (str "password=") = None -> hidePwd s = s).
Proof.
  intros Hu Hp s. assert (Index s (str ":") = Some (length user)) as H1 by (by apply Index_char).
  assert (drop (length user) s = str ":" ++ pw ++ str "@" ++ rest) as Hd by (unfold s; by rewrite drop_app_length).
  assert (Index (drop (length user) s) (str "@") = Some (S (length pw))) as H2.
  { rewrite Hd. apply (Index_char "@"%char (":"%char :: pw) rest). by apply not_elem_of_cons. }
  unfold hidePwd, hide_from. rewrite H1. cbn [mbind option_bind]. rewrite H2. cbn [mbind option_bind]. split.
  - intros Hle. rewrite bool_decide_eq_true_2 by lia. rewrite Hd. unfold s. rewrite take_app_length. f_equal.
    change (str ":" ++ pw ++ str "@" ++ rest) with ((":"%char :: pw) ++ "@"%char :: rest).
    change (S (length pw)) with (length (":"%char :: pw)). by rewrite drop_app_length.
  - intros Hlt Hn. rewrite bool_decide_eq_false_2 by lia. by rewrite Hn.
Qed.
Lemma hidePwd_spec_witness :
  hidePwd (str "root:secret@db/x") = str "root:#@db/x" /\ hidePwd (str "administrator:secret@db/x") = str "administrator:secret@db/x".
Proof.
  assert (":"%char ∉ str "root" /\ ":"%char ∉ str "administrator" /\ "@"%char ∉ str "secret") as (H1 & H2 & H3)
    by (split; [|split]; apply (bool_decide_unpack _); by vm_compute).
  split.
  - apply (proj1 (hidePwd_spec (str "root") (str "secret") (str "db/x") H1 H3)). simpl. lia.
  - apply (proj2 (hidePwd_spec (str "administrator") (str "secret") (str "db/x") H2 H3)); [simpl; lia|by vm_compute].
Defined.

(** * Witnesses *)

Definition mt1 : MtraceConf :=
  mkMtraceConf false true (str "traceparent") (str "x-wtap-mst") (str "x-wtap-sp1") (str "x-wtap-po") 0 (str "v1") 1 2 3.
Definition appconf1 : AppConf :=
  mkAppConf apiconf1 mt1 true true true false true (str "/") false [] false false [] [] true true false true.
Definition appstate1 : App :=
  mkApp (mkAgent world1 ∅ []) ∅ [] (lm_new 100) 0 (LlmState.mkWorld ∅ ∅ [] []) ∅ [] (mkPool ∅ []) (mkPool ∅ []) (mkPool ∅ []).
Definition env1 (now : Z) : Env := mkEnv 5 now (now + 1).
Definition request1 : Request :=
  mkRequest Background (str "GET") (str "/cart") (str "shop") (str "10.0.0.9:1234") [(str "User-Agent", [str "curl"])] [].
Definition next1 (n : nat) : Z := (1000 + Z.of_nat n)%Z.
(** A handler that reports a step and panics. *)
Definition handler1 (ctx : goctx) : prog Handled :=
  _ ← Step appconf1 (env1 150) ctx (str "note") (str "text") 3 4; mret (mkHandled 500 (Some (str "boom")) None).
Lemma appstate1_ok : pool_ok appstate1.
Proof. intros l Hl. by apply elem_of_nil in Hl. Qed.
Lemma Func_closes_witness :
  exists l c id, let a' := (Func appconf1 method0 Panic 20 (fun _ => 7%Z) (fun _ => str "Error") next1 head head
                             (env1 100) (env1 200) handler1 request1 appstate1).1 in
    closed appconf1 l id 5 a' /\ sent c a' /\ waiting (p_agent a') = [0].
Proof.
  pose proof (Func_closes appconf1 method0 Panic 20 (fun _ => 7%Z) (fun _ => str "Error") next1 head head head_in
    (env1 100) (env1 200) handler1 request1 appstate1 (conj eq_refl eq_refl) eq_refl appstate1_ok (conj eq_refl eq_refl)) as H.
  specialize (H (fun l c id => keeps_bind l c id _ _ _ (Step_keeps _ _ _ _ _ _ _ _ _ _ _) (fun _ => keeps_ret _ _ _ _ _))).
  assert (waiting (p_agent (Func appconf1 method0 Panic 20 (fun _ => 7%Z) (fun _ => str "Error") next1 head head
    (env1 100) (env1 200) handler1 request1 appstate1).1) = [0]) as Hw by (by vm_compute).
  destruct (Func _ _ _ _ _ _ _ _ _ _ _ _ _ _) as [a' o]. destruct H as [(_ & n & t & H)|(l & c & id & a1 & a2 & hd & H1 & H2 & H3 & H4 & H5)].
  - destruct H. apply UpdateMtrace_returns. by vm_compute.
  - by exists l, c, id.
Defined.
Definition opened_b {LMz : LinkedMap Z} {LMi : LinkedMap (Z * Z)} {LMh : LinkedMap StatHttpc.HTTPC} {LMm : LinkedMap StatTranxMtCaller.MtraceKEY}
    {RQ : RequestQueue} {UU : UrlUtil} {PC : IProfileCollector} {AC : AppContext} (l c : nat) (id g : Z) (a : App) : bool :=
  match p_heap a !! l, ag_heap (p_agent a) !! c with
  | Some t, Some x => bool_decide (Ctx t = Some c) && (Txid t =? id)%Z && (GID t =? g)%Z && (TraceContext.Txid x =? id)%Z
  | _, _ => false
  end.
Lemma opened_b_opened {LMz : LinkedMap Z} {LMi : LinkedMap (Z * Z)} {LMh : LinkedMap StatHttpc.HTTPC} {LMm : LinkedMap StatTranxMtCaller.MtraceKEY}
    {RQ : RequestQueue} {UU : UrlUtil} {PC : IProfileCollector} {AC : AppContext} l c id g (a : App) :
  opened_b l c id g a = true -> opened l c id g a.
Proof.
  unfold opened_b. destruct (p_heap a !! l) as [t|] eqn:E1; [|done]. destruct (ag_heap (p_agent a) !! c) as [x|] eqn:E2; [|done].
  intros H. apply andb_true_iff in H as [[[H1%bool_decide_eq_true H2%Z.eqb_eq]%andb_true_iff H3%Z.eqb_eq]%andb_true_iff H4%Z.eqb_eq].
  by exists t, x.
Qed.
(** A transaction in goroutine 5. *)
Definition appstate2 : App := (Start appconf1 Panic next1 head head (env1 100) None (str "job") appstate1).1.
Lemma inner_ends_outer_witness :
  exists a1, WrapVoid appconf1 method0 Panic 20 next1 head head (env1 120) (env1 130) (Some (mkGo (Some 0) [])) (str "inner") (mret tt) appstate2 = (a1, Some tt) /\
    closed appconf1 0 1000 5 a1 /\
    forall e2 title msg elapsed v, Step appconf1 e2 (Some (mkGo (Some 0) [])) title msg elapsed v a1 = (a1, Some None).
Proof.
  destruct (inner_ends_outer appconf1 method0 Panic 20 next1 head head (env1 120) (env1 130) 0 0 1000 5 [] (str "inner") appstate2
    (conj eq_refl eq_refl) (opened_b_opened 0 0 1000 5 appstate2 ltac:(by vm_compute)) ltac:(done)) as (a1 & H1 & H2 & H3 & _).
  exact (ex_intro _ a1 (conj H1 (conj H2 H3))).
Defined.
