(* ===== verification/AppCtx.v ===== *)
(** The statistics by application context, [src/agent/agent/appctx]: the parsers that
    find the context of a URL, and the collector that counts transactions by context.

    golib's string-keyed linked maps are linked maps without a bound; the parser plug-in
    loader reads files and is not modelled. *)

From S2P Require Import Prelude Hmap Meters UrlPattern Stat StatFacts TraceContext TraceApi Accumulator TraceCtxFacts TraceSamples.

Record CtxConf := mkCtxConf {
  AppContextOn : bool; AppContextPathSet : bytes; AppContextPathDepth : Z;
  AppContextParser : bytes; AppContextParserReset : Z; ctx_ApdexTime : Z
}.

(** * Parsers *)

Section Parsers.
Context {SU : StringUtil}.

(** [divKeyValueTrim(s, "@")]: one part or two. *)
Definition divKeyValueTrim (s : bytes) : list bytes :=
  match s with
  | [] => [s]
  | _ => match Index s (str "@") with
         | None => [TrimEmpty s]
         | Some pos => [TrimEmpty (take pos s); TrimEmpty (drop (pos + 1) s)]
         end
  end.
(** [name@url], or a URL that is its own name. *)
Definition path_item (item : bytes) : option (bytes * bytes) :=
  let item := TrimEmpty item in
  if nonempty item then
    match divKeyValueTrim item with
    | [name; url] =>
        let name := TrimEmpty name in
        let url := TrimEmpty url in
        if nonempty name && nonempty url then Some (name, url) else None
    | [url] => let url := TrimEmpty url in if nonempty url then Some (url, url) else None
    | _ => None
    end
  else None.
Definition path_items (val : bytes) : list (bytes * bytes) :=
  if nonempty val then omap path_item (Tokenizer val (str ",")) else [].
End Parsers.

Module PathDefault.
Section Parser.
Context {SU : StringUtil}.
Definition matchPathItem (url item : bytes) : option bytes :=
  let item := TrimEmpty item in
  if nonempty item then
    if Contains item (str "@") then
      match split_at_byte "@" item with
      | name :: configUrl :: _ => if bool_decide (TrimEmpty configUrl = url) then Some (TrimEmpty name) else None
      | _ => None
      end
    else if bool_decide (TrimEmpty item = url) then Some url else None
  else None.
Fixpoint first_match (url : bytes) (items : list bytes) : bytes :=
  match items with
  | [] => []
  | item :: items => match matchPathItem url item with Some r => r | None => first_match url items end
  end.
Definition matchPathSet (url pathSet : bytes) : bytes := first_match url (Tokenizer pathSet (str ",")).
(** Without the slash at the end. *)
Definition unslash (url : bytes) : bytes :=
  if bool_decide (1 < length url) && bool_decide (last url = Some "/"%char) then take (length url - 1) url else url.
(** The first part of the path, or the first two. *)
Definition depth1 (url : bytes) : bytes :=
  match Index (drop 1 url) (str "/") with
  | Some idx => if bool_decide (0 < idx) then take (idx + 1) url else url
  | None => url
  end.
Definition depth2 (url : bytes) : bytes :=
  match Index (drop 1 url) (str "/") with
  | Some idx1 =>
      if bool_decide (0 < idx1) then
        let idx1 := idx1 + 1 in
        match Index (drop (idx1 + 1) url) (str "/") with
        | Some idx2 => if bool_decide (0 < idx2) then take (idx1 + 1 + idx2) url else url
        | None => url
        end
      else url
  | None => url
  end.
Definition Parse (conf : CtxConf) (url : bytes) : bytes :=
  match url with
  | [] => []
  | _ =>
      let url := unslash (if (AppContextPathDepth conf =? 2)%Z then depth2 url else depth1 url) in
      match AppContextPathSet conf with [] => url | s => matchPathSet url s end
  end.
End Parser.
End PathDefault.

Module PathPrefix.
Section Parser.
Context {SU : StringUtil} {LM : LinkedMap Z}.
Record t := mk {
  list : list (bytes * bytes); confHash : Z;
  noNeedSet : lmap (K := Z) unit; parsedSet : lmap (K := Z) bytes
}.
Definition NewPathPrefix : t := mk [] 0 (lm_new (N.to_nat 10000)) (lm_new (N.to_nat 10000)).
(** The name of the first URL that the path begins with. *)
Fixpoint find_prefix (url : bytes) (l : Datatypes.list (bytes * bytes)) : option bytes :=
  match l with
  | [] => None
  | (name, u) :: l => if HasPrefix url u then Some name else find_prefix url l
  end.
Definition Parse (p : t) (hashValue : Z) (url : bytes) : bytes * t :=
  let h := int32 hashValue in
  match lm_get (noNeedSet p) h with
  | Some _ => ([], p)
  | None =>
      match lm_get (parsedSet p) h with
      | Some r => (r, p)
      | None =>
          match find_prefix url (list p) with
          | Some name => (name, p <| parsedSet ::= fun m => lm_put m h name |>)
          | None => ([], p <| noNeedSet ::= fun m => lm_put m h () |>)
          end
      end
  end.
Definition Update (conf : CtxConf) (p : t) : t :=
  let val := TrimEmpty (AppContextPathSet conf) in
  let newHash := wrap_u 32 (HashStr val) in
  if bool_decide (confHash p <> newHash)
  then mk (path_items val) newHash (lm_new (lm_max (noNeedSet p))) (lm_new (lm_max (parsedSet p)))
  else p.
End Parser.
End PathPrefix.

Module PathMatch.
Section Parser.
Context {SU : StringUtil}.
Record t := mk { urlMap : gmap bytes bytes; confHash : Z }.
Definition NewPathMatch : t := mk ∅ 0.
Definition Parse (p : t) (url : bytes) : bytes := default [] (urlMap p !! url).
Definition Update (conf : CtxConf) (p : t) : t :=
  let val := TrimEmpty (AppContextPathSet conf) in
  let newHash := wrap_u 32 (HashStr val) in
  if bool_decide (confHash p <> newHash)
  then mk (foldl (fun m nu => <[nu.2 := nu.1]> m) ∅ (path_items val)) newHash
  else p.
End Parser.
End PathMatch.

(** * The collector *)

Section Collector.
Context {SU : StringUtil} {LM : LinkedMap Z} {LS : LinkedMap bytes}.

Record Perf := mkPerf {
  Act0 : Z; Act3 : Z; Act8 : Z; Cnt : Z; Err : Z; TimeSum : Z; Tolerated : Z; Satisfied : Z
}.
Definition NewPerf : Perf := mkPerf 0 0 0 0 0 0 0 0.
Definition Actx (p : Perf) : Z := int32 (Act0 p + Act3 p + Act8 p).

(** [IAppCtx] *)
Inductive parser := PDefault | PPrefix (p : PathPrefix.t) | PMatch (p : PathMatch.t).
Definition parser_Name (p : parser) : bytes :=
  match p with PDefault => str "default" | PPrefix _ => str "prefix" | PMatch _ => str "match" end.
Definition parser_Update (conf : CtxConf) (p : parser) : parser :=
  match p with
  | PDefault => PDefault
  | PPrefix p => PPrefix (PathPrefix.Update conf p)
  | PMatch p => PMatch (PathMatch.Update conf p)
  end.
Definition parser_Parse (conf : CtxConf) (p : parser) (h : Z) (url : bytes) : bytes * parser :=
  match p with
  | PDefault => (PathDefault.Parse conf url, p)
  | PPrefix p => let '(r, p) := PathPrefix.Parse p h url in (r, PPrefix p)
  | PMatch p => (PathMatch.Parse p url, PMatch p)
  end.

Record t := mk {
  appCtxTable : lmap (K := bytes) Perf; actTable : lmap (K := bytes) Perf; lastTime : Z;
  appCtxParser : parser; appCtxParserName : bytes; appCtxParserReset : Z
}.
Definition updateNoLock (conf : CtxConf) (c : t) : t :=
  if negb (AppContextOn conf) then c
  else
    let newParser := TrimEmpty (AppContextParser conf) in
    let reset := AppContextParserReset conf in
    let c :=
      if bool_decide (appCtxParserName c <> newParser) || bool_decide (appCtxParserReset c <> reset) then
        c <| appCtxParserReset := reset |> <| appCtxParserName := newParser |>
          <| appCtxParser := if bool_decide (newParser = str "prefix") then PPrefix PathPrefix.NewPathPrefix
                             else if bool_decide (newParser = str "match") then PMatch PathMatch.NewPathMatch
                             else PDefault |>
      else c in
    c <| appCtxParser ::= parser_Update conf |>.
Definition GetIntance (conf : CtxConf) (now : Z) : t :=
  updateNoLock conf (mk (lm_new 0) (lm_new 0) now PDefault (str "default") 0).

(** A transaction is fast, slow or neither by the configured time, 1200 by default. *)
Definition add_tx (conf : CtxConf) (tx : TxRec) (p : Perf) : Perf :=
  let p := p <| Cnt ::= inc32 |> <| TimeSum ::= add64 (x_Elapsed tx) |> in
  if negb (x_Error tx =? 0)%Z then p <| Err ::= inc32 |>
  else
    let apdexTime := if (ctx_ApdexTime conf <=? 0)%Z then 1200%Z else ctx_ApdexTime conf in
    if (x_Elapsed tx <=? apdexTime)%Z then p <| Satisfied ::= inc32 |>
    else if (x_Elapsed tx <=? int32 (apdexTime * 4))%Z then p <| Tolerated ::= inc32 |>
    else p.
Definition EndTx (conf : CtxConf) (c : t) (contextName : bytes) (tx : TxRec) : t :=
  if nonempty (TrimEmpty contextName)
  then c <| appCtxTable ::= fun m => on_sample (fun _ => NewPerf) (fun _ => add_tx conf) m (contextName, tx) |>
  else c.
Definition add_active (divAct : Z) (p : Perf) : Perf :=
  match divAct with 1%Z => p <| Act3 ::= inc32 |> | 2%Z => p <| Act8 ::= inc32 |> | _ => p <| Act0 ::= inc32 |> end.
Definition ActiveTx (c : t) (biz : bytes) (divAct : Z) : t :=
  if nonempty (TrimEmpty biz)
  then c <| actTable ::= fun m => on_sample (fun _ => NewPerf) (fun _ => add_active) m (biz, divAct) |>
  else c.
Definition GetContextPath (conf : CtxConf) (c : t) (h : Z) (url : bytes) : bytes * t :=
  let '(r, p) := parser_Parse conf (appCtxParser c) h url in (r, c <| appCtxParser := p |>).
Definition Clear (c : t) : t := c <| appCtxTable := lm_new 0 |> <| actTable := lm_new 0 |>.

(** ** A round *)

(** The contexts to report: the configured ones that were seen, in their order and as
    often as they are named; all of them otherwise. *)
Definition configured (item : bytes) : option bytes :=
  let item := TrimEmpty item in
  if nonempty item then
    let name := if Contains item (str "@")
                then match Tokenizer item (str "@") with name :: _ :: _ => TrimEmpty name | _ => [] end
                else TrimEmpty item in
    if nonempty name then Some name else None
  else None.
Definition seen (c : t) (name : bytes) : bool :=
  bool_decide (is_Some (lm_get (appCtxTable c) name)) || bool_decide (is_Some (lm_get (actTable c) name)).
Definition paths_of (conf : CtxConf) (c : t) : list bytes :=
  if nonempty (TrimEmpty (AppContextPathSet conf))
  then filter (fun n => seen c n = true) (omap configured (Tokenizer (AppContextPathSet conf) (str ",")))
  else (lm_entries (appCtxTable c)).*1 ++
       filter (fun k => lm_get (appCtxTable c) k = None) (lm_entries (actTable c)).*1.

(** [float32(x)] *)
Definition to_f32 (x : float64) : float64 :=
  match x with SpecFloat.S754_finite s m e => SpecFloat.binary_normalize 24 128 (SpecFloat.cond_Zopp s (Zpos m)) e s | _ => x end.
(** The values of one context in the lists of the pack. *)
Record Row := mkRow {
  r_id : Z; r_path : bytes; r_active : Z; r_active0 : Z; r_active3 : Z; r_active8 : Z; r_tps : float64;
  r_count : Z; r_error : Z; r_time : Z; r_tolerated : Z; r_satisfied : Z
}.
Definition row_of (c : t) (interval : float64) (path : bytes) : Row :=
  let act := default NewPerf (lm_get (actTable c) path) in
  let ctx := default NewPerf (lm_get (appCtxTable c) path) in
  mkRow (HashStr path) path (Actx act) (Act0 act) (Act3 act) (Act8 act)
    (to_f32 (f64_div (f64_of_Z (Cnt ctx)) interval)) (Cnt ctx) (Err ctx) (TimeSum ctx) (Tolerated ctx) (Satisfied ctx).
(** The pack: its time, its parser, its rows; its other tags are the agent's. *)
Record CtxPack := mkCtxPack { cp_Time : Z; cp_parser : bytes; cp_rows : list Row }.
Definition Process (conf : CtxConf) (now workTime : Z) (c : t) : t * option CtxPack :=
  let interval := f64_div (f64_of_Z (now - lastTime c)) (f64_of_Z 1000) in
  let c := c <| lastTime := now |> in
  if f64_leb interval (f64_of_Z 1) then (c, None)
  else if bool_decide (lm_size (appCtxTable c) + lm_size (actTable c) = 0) then (c, None)
  else
    match paths_of conf c with
    | [] => (c, None)
    | paths =>
        let p := mkCtxPack workTime (parser_Name (appCtxParser c)) (row_of c interval <$> paths) in
        (c <| actTable := lm_new (lm_max (actTable c)) |> <| appCtxTable := lm_new (lm_max (appCtxTable c)) |>, Some p)
    end.
End Collector.

(** The collector behind the interface of the transaction code. *)
Definition collector_context {SU : StringUtil} {LM : LinkedMap Z} {LS : LinkedMap bytes} (conf : CtxConf) : AppContext := {|
  appctx := t;
  TraceApi.GetContextPath := GetContextPath conf;
  appctx_EndTx := EndTx conf
|}.

(** The statistics by application context count each transaction once; the caches of the
    prefix parser do not show; and two ways of counting twice. *)

(** * The prefix parser *)

Section Prefix.
Context {SU : StringUtil} {LM : LinkedMap Z} {LL : LinkedMapLaws Z LM}.
Import PathPrefix.

Definition parse_next (s : t * Datatypes.list bytes) (url : bytes) : t * Datatypes.list bytes :=
  let '(r, p) := Parse s.1 (wrap_u 32 (HashStr url)) url in (p, s.2 ++ [r]).
Definition parse_urls (p : t) (urls : Datatypes.list bytes) : t * Datatypes.list bytes := foldl parse_next (p, []) urls.
Abbreviation key url := (int32 (wrap_u 32 (HashStr url))).
(** What is cached was found. *)
Definition cached (done : Datatypes.list bytes) (l : Datatypes.list (bytes * bytes)) (p : t) : Prop :=
  list p = l /\
  (forall h r, lm_get (parsedSet p) h = Some r -> exists u, u ∈ done /\ h = key u /\ find_prefix u l = Some r) /\
  (forall h x, lm_get (noNeedSet p) h = Some x -> exists u, u ∈ done /\ h = key u /\ find_prefix u l = None).
(** Whatever was parsed since the settings were read, the prefix parser gives each URL
    the name of the first configured prefix it begins with, or no name, as if nothing
    were cached, provided no two of the URLs have the same hash; the bound of the caches
    plays no part. *)
Theorem Parse_is_prefix p urls :
  lm_entries (parsedSet p) = [] -> lm_entries (noNeedSet p) = [] ->
  (forall u v, u ∈ urls -> v ∈ urls -> key u = key v -> u = v) ->
  (parse_urls p urls).2 = (fun u => default [] (find_prefix u (list p))) <$> urls.
Proof.
  intros H1 H2 Hinj.
  assert ((parse_urls p urls).2 = (fun u => default [] (find_prefix u (list p))) <$> urls /\
    cached urls (list p) (parse_urls p urls).1) as [? _]; [|done].
  induction urls as [|url urls IH] using rev_ind.
  { split; [done|]. split; [done|]. unfold lm_get. simpl. rewrite H1, H2. done. }
  destruct IH as [Hr (Hl & Hp & Hn)]; [intros u v Hu Hv; apply Hinj; set_solver|].
  unfold parse_urls in *. rewrite foldl_app, fmap_app. simpl. destruct (foldl parse_next (p, []) urls) as [q out].
  cbn [fst snd] in *. subst out. unfold parse_next. cbn [fst snd].
  assert (forall u, u ∈ urls -> key url = key u -> u = url) as Hsame.
  { intros u Hu Hk. symmetry. apply Hinj; [set_solver..|done]. }
  unfold Parse. destruct (lm_get (noNeedSet q) (key url)) as [x|] eqn:En.
  { destruct (Hn _ _ En) as (u & Hu & Hk & Hf). apply Hsame in Hk as ->; [|done]. rewrite Hf. split; [done|].
    split; [done|]. split; intros h r Hh; [destruct (Hp h r Hh) as (v & ? & ?)|destruct (Hn h r Hh) as (v & ? & ?)]; exists v; set_solver. }
  destruct (lm_get (parsedSet q) (key url)) as [r|] eqn:Ep.
  { destruct (Hp _ _ Ep) as (u & Hu & Hk & Hf). apply Hsame in Hk as ->; [|done]. rewrite Hf. split; [done|].
    split; [done|]. split; intros h r' Hh; [destruct (Hp h r' Hh) as (v & ? & ?)|destruct (Hn h r' Hh) as (v & ? & ?)]; exists v; set_solver. }
  rewrite Hl. destruct (find_prefix url (list p)) as [name|] eqn:Ef; (split; [done|]); (split; [done|]); simpl; split; intros h r Hh.
  - destruct (decide (h = key url)) as [->|Hne].
    + rewrite put_get in Hh. injection Hh as <-. exists url. set_solver.
    + apply put_old in Hh; [|done]. destruct (Hp h r Hh) as (v & ? & ?). exists v. set_solver.
  - destruct (Hn h r Hh) as (v & ? & ?). exists v. set_solver.
  - destruct (Hp h r Hh) as (v & ? & ?). exists v. set_solver.
  - destruct (decide (h = key url)) as [->|Hne].
    + exists url. set_solver.
    + apply put_old in Hh; [|done]. destruct (Hn h r Hh) as (v & ? & ?). exists v. set_solver.
Qed.
End Prefix.

(** * The counts *)

Section Counts.
Context {SU : StringUtil} {LM : LinkedMap Z} {LS : LinkedMap bytes} {LL : LinkedMapLaws bytes LS}.
Variable conf : CtxConf.

(** A transaction of a context, or a round at a time. *)
Inductive op := OEnd (name : bytes) (tx : TxRec) | ORound (now workTime : Z).
Definition exec (s : t * list CtxPack) (o : op) : t * list CtxPack :=
  match o with
  | OEnd name tx => (EndTx conf s.1 name tx, s.2)
  | ORound now work => let '(c, p) := Process conf now work s.1 in (c, s.2 ++ option_list p)
  end.
Definition samples (os : list op) : list (bytes * TxRec) :=
  omap (fun o => match o with OEnd name tx => if nonempty (TrimEmpty name) then Some (name, tx) else None | _ => None end) os.

(** The limit of fast transactions; what a context's row says of its transactions. *)
Definition fast : Z := if (ctx_ApdexTime conf <=? 0)%Z then 1200%Z else ctx_ApdexTime conf.
Definition failed (tx : TxRec) : bool := negb (x_Error tx =? 0)%Z.
Definition satisfied (tx : TxRec) : bool := negb (failed tx) && (x_Elapsed tx <=? fast)%Z.
Definition tolerated (tx : TxRec) : bool :=
  negb (failed tx) && negb (x_Elapsed tx <=? fast)%Z && (x_Elapsed tx <=? int32 (fast * 4))%Z.
Definition perf_of (xs : list TxRec) : Perf :=
  mkPerf 0 0 0 (int32 (Z.of_nat (length xs))) (int32 (zcount failed xs)) (int64 (zsum x_Elapsed xs))
    (int32 (zcount tolerated xs)) (int32 (zcount satisfied xs)).
Lemma perf_fold xs : foldl (fun p x => add_tx conf x p) NewPerf xs = perf_of xs.
Proof.
  induction xs as [|x xs IH] using rev_ind; [done|]. rewrite foldl_app, IH. unfold perf_of, add_tx. simpl.
  rewrite !zcount_snoc, zsum_snoc, length_app, Nat2Z.inj_add. fold fast. unfold tolerated, satisfied, failed, inc32, add64. simpl.
  destruct (x_Error x =? 0)%Z; simpl; [destruct (x_Elapsed x <=? fast)%Z; simpl; [|destruct (x_Elapsed x <=? int32 (fast * 4))%Z]|];
    simpl; rewrite ?wrap_s_add_l, ?Z.add_0_r by lia; done.
Qed.
Definition row_view (r : Row) : bytes * Z * Z * Z * Z * Z :=
  (r_path r, r_count r, r_error r, r_time r, r_tolerated r, r_satisfied r).
Definition perf_view (e : bytes * Perf) : bytes * Z * Z * Z * Z * Z :=
  (e.1, Cnt e.2, Err e.2, TimeSum e.2, Tolerated e.2, Satisfied e.2).
Definition totals (es : list (bytes * TxRec)) : list (bytes * Z * Z * Z * Z * Z) :=
  (fun k => perf_view (k, perf_of (samples_of k es))) <$> firsts es.*1.

Lemma table_totals es : perf_view <$> table_of (fun _ => NewPerf) (fun _ => add_tx conf) 0 es = totals es.
Proof.
  unfold table_of, totals. simpl. rewrite <- list_fmap_compose. apply list_fmap_ext. intros i k _. simpl. do 2 f_equal.
  apply perf_fold.
Qed.
Lemma rows_view c iv ps l :
  lm_entries (appCtxTable c) = l -> ps = l.*1 -> NoDup ps -> row_view <$> (row_of c iv <$> ps) = perf_view <$> l.
Proof.
  intros Hl -> Hnd. rewrite <- !list_fmap_compose. apply list_fmap_ext. intros i [k p] Hi. unfold row_view, row_of, perf_view. simpl.
  assert (lm_get (appCtxTable c) k = Some p) as ->; [|done]. unfold lm_get. rewrite Hl.
  apply alookup_Some; [done|]. by apply list_elem_of_lookup_2 with i.
Qed.
(** With no configured set of contexts the statistics by context are exact: in any run
    of transactions and rounds, the packs sent and the present table cut the
    transactions that have a context into consecutive segments; a pack has one row for
    each context of its segment, in the order they came, with the count, the errors, the
    time and the fast and tolerable ones of all its transactions.  A round that comes too
    early or finds nothing sends nothing and loses nothing. *)
Theorem contexts_exact now os :
  nonempty (TrimEmpty (AppContextPathSet conf)) = false ->
  let s := foldl exec (GetIntance conf now, []) os in
  exists segs last, concat segs ++ last = samples os /\
    (fun p => row_view <$> cp_rows p) <$> s.2 = totals <$> segs /\
    perf_view <$> lm_entries (appCtxTable s.1) = totals last.
Proof.
  intros Hset.
  assert (exists segs last, concat segs ++ last = samples os /\
    (fun p => row_view <$> cp_rows p) <$> (foldl exec (GetIntance conf now, []) os).2 = totals <$> segs /\
    lm_max (appCtxTable (foldl exec (GetIntance conf now, []) os).1) = 0 /\
    lm_entries (appCtxTable (foldl exec (GetIntance conf now, []) os).1) = table_of (fun _ => NewPerf) (fun _ => add_tx conf) 0 last /\
    lm_entries (actTable (foldl exec (GetIntance conf now, []) os).1) = []) as (segs & last & H1 & H2 & _ & H4 & _).
  2:{ exists segs, last. split; [done|]. split; [done|]. rewrite H4. apply table_totals. }
  induction os as [|o os (segs & last & H1 & H2 & H3 & H4 & H5)] using rev_ind.
  { exists [], []. simpl. unfold GetIntance, updateNoLock. destruct (negb _); simpl;
      [|destruct (_ || _); simpl]; rewrite max_new, !entries_new; done. }
  rewrite foldl_app. unfold samples in *. rewrite omap_app, <- H1. destruct (foldl exec _ os) as [c out]. cbn [fst snd] in *.
  destruct o as [name tx|now1 work]; simpl.
  - unfold EndTx. destruct (nonempty (TrimEmpty name)); [|exists segs, last; by rewrite app_nil_r].
    destruct (on_sample_entries (fun _ => NewPerf) (fun _ => add_tx conf) 0 last (appCtxTable c) (name, tx) H3 H4) as [K1 K2].
    exists segs, (last ++ [(name, tx)]). rewrite app_assoc. done.
  - rewrite app_nil_r. unfold Process. cbv zeta. set (c1 := c <| lastTime := now1 |>).
    assert (appCtxTable c1 = appCtxTable c /\ actTable c1 = actTable c) as [Ka Kb] by done. clearbody c1.
    rewrite <- Ka in H3, H4. rewrite <- Kb in H5. clear Ka Kb.
    destruct (f64_leb _ _); [cbn [fst snd option_list]; rewrite app_nil_r; by exists segs, last|].
    case_bool_decide as Hz; [cbn [fst snd option_list]; rewrite app_nil_r; by exists segs, last|].
    assert (paths_of conf c1 = (lm_entries (appCtxTable c1)).*1) as Hp.
    { unfold paths_of. rewrite Hset, H5. cbn. by rewrite app_nil_r. }
    destruct (paths_of conf c1) as [|k ks] eqn:Ek; [cbn [fst snd option_list]; rewrite app_nil_r; by exists segs, last|].
    cbn [fst snd option_list]. exists (segs ++ [last]), []. rewrite concat_app, !fmap_app. cbn [concat fmap list_fmap appCtxTable actTable].
    rewrite !app_nil_r. split; [done|]. simpl. rewrite max_new, !entries_new. split; [|by rewrite H3].
    rewrite H2. f_equal. f_equal. rewrite <- table_totals, <- H4.
    refine (rows_view c1 _ (k :: ks) _ _ _ _); [done|exact Hp|]. rewrite Hp. apply keys_NoDup.
Qed.
End Counts.

(** * Witnesses *)

#[export] Instance lmap_bytes : LinkedMap bytes := ListMap.list_map.
#[export] Instance lmap_bytes_laws : LinkedMapLaws bytes lmap_bytes := ListMap.list_map_laws.
Definition ctxconf (set : bytes) : CtxConf := mkCtxConf true set 1 (str "prefix") 0 500.
Definition tx_in (elapsed err : Z) : TxRec := NewTxRecord <| x_Elapsed := elapsed |> <| x_Error := err |>.
Lemma Parse_is_prefix_witness :
  let p := PathPrefix.Update (ctxconf (str "shop@/s,/a")) PathPrefix.NewPathPrefix in
  (parse_urls p [str "/sx"; str "/ab"; str "/sx"; str "/b"]).2 = [str "shop"; str "/a"; str "shop"; []].
Proof.
  cbv zeta. rewrite Parse_is_prefix; [by vm_compute|by vm_compute|by vm_compute|].
  intros u v Hu Hv. repeat setoid_rewrite elem_of_cons in Hu. repeat setoid_rewrite elem_of_cons in Hv.
  destruct Hu as [->|[->|[->|[->|Hu]]]]; [..|by apply elem_of_nil in Hu];
    (destruct Hv as [->|[->|[->|[->|Hv]]]]; [..|by apply elem_of_nil in Hv]); vm_compute; congruence.
Defined.
Definition run1 : list op :=
  [OEnd (str "shop") (tx_in 100 0); OEnd (str "a") (tx_in 900 0); OEnd (str "shop") (tx_in 3000 7); OEnd [] (tx_in 1 0);
   ORound 900 0; ORound 2500 0; OEnd (str "a") (tx_in 5 0)].
Lemma contexts_exact_witness :
  let s := foldl (exec (ctxconf [])) (GetIntance (ctxconf []) 0, []) run1 in
  exists segs last, concat segs ++ last = samples run1 /\
    (fun p => row_view <$> cp_rows p) <$> s.2 = totals (ctxconf []) <$> segs /\
    perf_view <$> lm_entries (appCtxTable s.1) = totals (ctxconf []) last /\
    (fun p => row_view <$> cp_rows p) <$> s.2 = [[(str "shop", 2, 1, 3100, 0, 1); (str "a", 1, 0, 900, 1, 0)]]%Z.
Proof.
  destruct (contexts_exact (ctxconf []) 0 run1 ltac:(by vm_compute)) as (segs & last & H1 & H2 & H3).
  exists segs, last. split; [exact H1|]. split; [exact H2|]. split; [exact H3|]. by vm_compute.
Defined.
(** A context configured for two URLs is reported twice. *)
Example named_twice :
  let c := EndTx (ctxconf (str "a@/x,a@/y")) (GetIntance (ctxconf (str "a@/x,a@/y")) 0) (str "a") (tx_in 100 0) in
  (fun p => row_view <$> cp_rows p) <$> (Process (ctxconf (str "a@/x,a@/y")) 2000 0 c).2 =
    Some [(str "a", 1, 0, 100, 0, 1); (str "a", 1, 0, 100, 0, 1)]%Z.
Proof. by vm_compute. Qed.
(** A round that comes too early forgets the time since the last one: two transactions
    in three seconds are reported as one per second. *)
Example early_round :
  let c := EndTx (ctxconf []) (GetIntance (ctxconf []) 0) (str "a") (tx_in 100 0) in
  let c := EndTx (ctxconf []) (Process (ctxconf []) 1000 0 c).1 (str "a") (tx_in 100 0) in
  (fun p => r_tps <$> cp_rows p) <$> (Process (ctxconf []) 3000 0 c).2 = Some [to_f32 (f64_of_Z 1)].
Proof. by vm_compute. Qed.
