(* ===== verification/NetCypher.v ===== *)
(** The cipher of the connection to the server, [src/agent/util/crypto/Cypher.go].

    AES is Go's [crypto/aes]: a key of 16, 24 or 32 bytes, and blocks of 16 bytes whatever
    the key. *)

From S2P Require Import Prelude.

(** [crypto/aes]: what a key does to a block. *)
Class Aes := {
  aes_encrypt : bytes -> bytes -> bytes;
  aes_decrypt : bytes -> bytes -> bytes
}.
Class AesLaws (A : Aes) : Prop := {
  aes_length k b : length b = 16 -> length (aes_encrypt k b) = 16;
  aes_length_inverse k b : length b = 16 -> length (aes_decrypt k b) = 16;
  aes_inverse k b : length b = 16 -> aes_decrypt k (aes_encrypt k b) = b
}.

(** A block of the size of AES, each byte changed by the first byte of the key. *)
Definition xor_block (k b : bytes) : bytes := (fun x => xor_byte x (default zero (head k))) <$> b.
#[export] Instance xor_aes : Aes := {| aes_encrypt := xor_block; aes_decrypt := xor_block |}.
#[export] Instance xor_aes_laws : AesLaws xor_aes.
Proof.
  split; cbn [aes_encrypt aes_decrypt xor_aes]; unfold xor_block; intros k b Hb; [by rewrite length_fmap..|].
  clear Hb. induction b as [|x b IH]; [done|]. by rewrite !fmap_cons, xor_byte_invol, IH.
Qed.

Module Cypher.
Section Cypher.
Context {A : Aes}.

(** [cypher] is the key of the AES block, nil when the key has another length. *)
Record t := mk { block : nat; cypher : option bytes; xor_key : bytes }.

Definition zeros (n : nat) : bytes := repeat zero n.
Definition padding (block : nat) (src : bytes) : bytes :=
  if decide (length src = block) then src
  else if decide (block < length src) then take block src
  else src ++ zeros (block - length src).
Definition aes_NewCipher (key : bytes) : option bytes :=
  if decide (length key ∈ [16; 24; 32]) then Some key else None.
(** [xor_key] is [io.ToBytesInt] of golib of the key. *)
Definition NewCypher (CypherLevel : Z) (cypher_key xor_key : bytes) : t :=
  let block := Z.to_nat (Z.quot CypherLevel 8) in
  mk block (aes_NewCipher (padding block cypher_key)) xor_key.

(** [cipher.Block.Encrypt(dst, src)] changes the first 16 bytes of [dst], and panics when
    either is shorter. *)
Definition block_run (f : bytes -> bytes) (dst src : bytes) : res bytes :=
  if decide (16 <= length src /\ 16 <= length dst) then Ret (f (take 16 src) ++ drop 16 dst) else Panic.
(** The loop over [src], [dst] being as long; what [dst] holds at the end, or when a block
    panics.  The capacity of [src] is its length. *)
Fixpoint blocks (fuel : nat) (f : bytes -> bytes) (block : nat) (src dst : bytes) : bytes * res unit :=
  match fuel with
  | O => (dst, OutOfFuel)
  | S fuel =>
      match src with
      | [] => (dst, Ret tt)
      | _ =>
          match (b ← slice src 0 block; block_run f dst b) with
          | Ret dst =>
              let '(rest, r) := blocks fuel f block (drop block src) (drop block dst) in
              (take block dst ++ rest, r)
          | Panic => (dst, Panic)
          | OutOfFuel => (dst, OutOfFuel)
          end
      end
  end.
(** [dst] has the zeros of [make]; the recovered panic of [Encrypt] returns nil, that of
    [Decrypt] what was written. *)
Definition Encrypt (this : t) (data : bytes) : res bytes :=
  match block this, cypher this with
  | S _ as n, Some key =>
      let src := if decide (length data mod n = 0) then data
                 else data ++ zeros ((length data / n + 1) * n - length data) in
      let '(dst, r) := blocks (S (length src)) (aes_encrypt key) n src (zeros (length src)) in
      recovered (r ≫= fun _ => Ret dst) []
  | _, _ => Ret data
  end.
Definition Decrypt (this : t) (data : bytes) : res bytes :=
  match block this, cypher this with
  | S _ as n, Some key =>
      let '(dst, r) := blocks (S (length data)) (aes_decrypt key) n data (zeros (length data)) in
      recovered (r ≫= fun _ => Ret dst) dst
  | _, _ => Ret data
  end.

(** [data] is changed in place; an empty key panics at the first byte. *)
Fixpoint hide_from (key : bytes) (j : nat) (data : bytes) : res bytes :=
  match data with
  | [] => Ret []
  | x :: data =>
      k ← index_ key j;
      r ← hide_from key ((j + 1) mod length key) data;
      Ret (xor_byte x k :: r)
  end.
Definition Hide (this : t) (data : bytes) : res bytes :=
  match block this with O => Ret data | _ => hide_from (xor_key this) 0 data end.

(** ** What is promised *)

Lemma length_zeros n : length (zeros n) = n.
Proof. apply repeat_length. Qed.
Lemma length_padding n s : length (padding n s) = n.
Proof.
  unfold padding. repeat case_decide; [done| |].
  - rewrite length_take. lia.
  - rewrite length_app, length_zeros. lia.
Qed.
#[local] Hint Rewrite @length_app @length_zeros @length_take @length_drop @length_padding : len.

(** One block of the loop: its first 16 bytes are changed, the others stay. *)
Lemma blocks_step fuel f n b src dst :
  16 <= n -> length b = n -> length dst = n + length src ->
  blocks (S fuel) f n (b ++ src) dst =
    (let '(rest, r) := blocks fuel f n src (drop n (f (take 16 b) ++ drop 16 dst)) in
     (take n (f (take 16 b) ++ drop 16 dst) ++ rest, r)).
Proof.
  intros Hn Hb Hd. cbn [blocks].
  assert (b ++ src <> []) as Hne by (destruct b; simpl in *; [lia|done]).
  destruct (b ++ src) as [|x y] eqn:E; [done|]. rewrite <- E.
  unfold slice. rewrite decide_True by (rewrite length_app; lia). cbn [mbind res_bind].
  rewrite Nat.sub_0_r, drop_0, take_app_length' by done.
  unfold block_run. rewrite decide_True by lia. by rewrite drop_app_length' by done.
Qed.

Definition full (n : nat) (bs : list bytes) : Prop := Forall (fun b => length b = n) bs.
Lemma full_cons n b bs : full n (b :: bs) <-> length b = n /\ full n bs.
Proof. unfold full. by rewrite Forall_cons. Qed.
Lemma zeros_plus a b : zeros (a + b) = zeros a ++ zeros b.
Proof. apply repeat_app. Qed.
Lemma drop_zeros k n : drop k (zeros n) = zeros (n - k).
Proof. unfold zeros. revert n. induction k; intros [|n]; simpl; auto. Qed.

(** On whole blocks the loop maps the first 16 bytes of each and leaves zeros after. *)
Lemma blocks_full fuel f n bs :
  16 <= n -> full n bs -> (forall b, length b = 16 -> length (f b) = 16) -> length bs < fuel ->
  blocks fuel f n (concat bs) (zeros (length (concat bs))) =
    (concat ((fun b => f (take 16 b) ++ zeros (n - 16)) <$> bs), Ret tt).
Proof.
  intros Hn Hf Hlen. revert fuel; induction bs as [|b bs IH]; intros [|fuel] Hfuel; simpl in Hfuel; try lia; [done|].
  apply full_cons in Hf as [Hb Hf]. simpl concat. rewrite blocks_step; [|done..|by rewrite length_zeros, length_app, Hb].
  assert (length (f (take 16 b)) = 16) as H16 by (apply Hlen; rewrite length_take; lia).
  rewrite length_app, Hb, drop_zeros.
  replace (n + length (concat bs) - 16) with ((n - 16) + length (concat bs)) by lia. rewrite zeros_plus, app_assoc.
  assert (length (f (take 16 b) ++ zeros (n - 16)) = n) as Hl by (rewrite length_app, length_zeros; lia).
  rewrite drop_app_length', take_app_length' by done. by rewrite (IH Hf) by lia.
Qed.

(** Any data is whole blocks after the padding. *)
Lemma whole_blocks n (data : bytes) :
  0 < n -> length data mod n = 0 -> exists bs, data = concat bs /\ full n bs.
Proof.
  intros Hn. remember (length data / n) as k eqn:Hk. revert data Hk.
  induction k as [|k IH]; intros data Hk Hm; pose proof (Nat.div_mod_eq (length data) n) as Hd.
  - exists []. rewrite <- Hk, Hm in Hd. rewrite Nat.mul_0_r in Hd. destruct data; [|done].
    split; [done|constructor].
  - rewrite <- Hk, Hm, Nat.add_0_r in Hd.
    assert (length (drop n data) = n * k) as Hl by (rewrite length_drop; lia).
    destruct (IH (drop n data)) as (bs & E & Hf).
    + rewrite Hl, Nat.mul_comm. by rewrite Nat.div_mul by lia.
    + rewrite Hl, Nat.mul_comm. by apply Nat.Div0.mod_mul.
    + exists (take n data :: bs). simpl. rewrite <- E, take_drop. split; [done|].
      apply full_cons. split; [|done]. rewrite length_take. lia.
Qed.
Definition padded (n : nat) (data : bytes) : bytes :=
  data ++ zeros (if decide (length data mod n = 0) then 0 else (length data / n + 1) * n - length data).
Lemma padded_whole n data : 0 < n -> length (padded n data) mod n = 0.
Proof.
  intros Hn. unfold padded. rewrite length_app, length_zeros. case_decide.
  - by rewrite Nat.add_0_r.
  - pose proof (Nat.div_mod_eq (length data) n). pose proof (Nat.mod_upper_bound (length data) n).
    replace (length data + ((length data / n + 1) * n - length data)) with ((length data / n + 1) * n) by lia.
    by apply Nat.Div0.mod_mul.
Qed.
Lemma length_concat_full n (bs : list bytes) : 0 < n -> full n bs -> length bs <= length (concat bs).
Proof.
  intros Hn. induction bs as [|b bs IH]; [done|]. rewrite full_cons. intros [Hb Hf]. simpl. rewrite length_app.
  specialize (IH Hf). lia.
Qed.

(** [Encrypt] with a key keeps the first 16 bytes of each block, and nothing else of it. *)
Lemma Encrypt_blocks {L : AesLaws A} this key data :
  16 <= block this -> cypher this = Some key ->
  exists bs, padded (block this) data = concat bs /\ full (block this) bs /\
    Encrypt this data = Ret (concat ((fun b => aes_encrypt key (take 16 b) ++ zeros (block this - 16)) <$> bs)).
Proof.
  intros Hn Hc. destruct (whole_blocks (block this) (padded (block this) data)) as (bs & E & Hf).
  { lia. } { apply padded_whole. lia. }
  exists bs. split; [done|split; [done|]]. unfold Encrypt. rewrite Hc.
  destruct (block this) as [|m] eqn:Hm; [lia|]. rewrite <- Hm in *.
  assert ((if decide (length data mod block this = 0) then data
           else data ++ zeros ((length data / block this + 1) * block this - length data)) = concat bs) as ->.
  { rewrite <- E. unfold padded. case_decide; [by rewrite app_nil_r|done]. }
  rewrite blocks_full; [done|done|done| |].
  - intros b. apply aes_length.
  - assert (length bs <= length (concat bs)) by (apply (length_concat_full (block this)); [lia|done]). lia.
Qed.

Lemma take_exact (b : bytes) n : length b = n -> take n b = b.
Proof. intros <-. apply take_ge. lia. Qed.
Lemma full_mod n bs : 0 < n -> full n bs -> length (concat bs) mod n = 0.
Proof.
  intros Hn Hf. induction bs as [|b bs IH]; [apply Nat.Div0.mod_0_l|]. apply full_cons in Hf as [Hb Hf]. simpl.
  rewrite length_app, Hb, Nat.Div0.add_mod, Nat.Div0.mod_same, (IH Hf), Nat.add_0_l. apply Nat.Div0.mod_0_l.
Qed.
(** With a 16-byte key and blocks of 16 bytes (level 128) what is encrypted is decrypted to
    the data, padded with zeros to whole blocks. *)
Theorem Encrypt_Decrypt {L : AesLaws A} this key data :
  block this = 16 -> cypher this = Some key ->
  exists e, Encrypt this data = Ret e /\ length e mod 16 = 0 /\ Decrypt this e = Ret (padded 16 data).
Proof.
  intros Hn Hc. destruct (Encrypt_blocks this key data) as (bs & E & Hf & He); [lia|done|]. rewrite Hn in *.
  set (out := (fun b => aes_encrypt key (take 16 b) ++ zeros (16 - 16)) <$> bs) in *.
  assert (full 16 out) as Ho.
  { apply Forall_fmap, (Forall_impl _ _ _ Hf). intros b Hb. simpl. rewrite app_nil_r, take_exact by done. by apply aes_length. }
  exists (concat out). split; [done|]. split; [by apply full_mod; [lia|]|]. unfold Decrypt. rewrite Hn, Hc.
  rewrite blocks_full; [|lia|done|intros b; apply aes_length_inverse|apply Nat.lt_succ_r, (length_concat_full 16); [lia|done]].
  rewrite E. cbn [mbind res_bind recovered]. do 2 f_equal. subst out. clear - Hf L.
  induction Hf as [|b bs Hb Hf IH]; [done|]. rewrite !fmap_cons, IH. f_equal.
  rewrite (take_exact b) by done. replace (16 - 16) with 0 by lia. rewrite !app_nil_r.
  rewrite take_exact by by apply aes_length. by apply aes_inverse.
Qed.

(** At levels above 128 the blocks are longer than AES's: what is after the first 16 bytes
    of a block is not encrypted but lost. *)
Lemma Encrypt_loses {L : AesLaws A} this key head_ tail_ tail' :
  16 < block this -> cypher this = Some key -> length head_ = 16 ->
  length tail_ = block this - 16 -> length tail' = block this - 16 ->
  Encrypt this (head_ ++ tail_) = Encrypt this (head_ ++ tail') /\
  Encrypt this (head_ ++ tail_) = Ret (aes_encrypt key head_ ++ zeros (block this - 16)).
Proof.
  intros Hn Hc Hh Ht Ht'.
  assert (forall t, length t = block this - 16 ->
    Encrypt this (head_ ++ t) = Ret (aes_encrypt key head_ ++ zeros (block this - 16))) as He.
  { intros t Hl. destruct (Encrypt_blocks this key (head_ ++ t)) as (bs & E & Hf & ->); [lia|done|].
    unfold padded in E. rewrite length_app, Hh, Hl in E. replace (16 + (block this - 16)) with (block this) in E by lia.
    rewrite Nat.Div0.mod_same, decide_True, app_nil_r in E by done.
    assert (bs = [head_ ++ t]) as ->.
    { destruct bs as [|b [|b' bs]]; simpl in E.
      - apply (f_equal length) in E. rewrite length_app in E. simpl in E. lia.
      - by rewrite app_nil_r in E; subst.
      - apply full_cons in Hf as [Hb Hf]. apply full_cons in Hf as [Hb' _].
        apply (f_equal length) in E. rewrite !length_app, Hb, Hb' in E. lia. }
    simpl. by rewrite app_nil_r, take_app_length' by done. }
  split; [by rewrite !He|by apply He].
Qed.

(** Nothing the cipher does panics or goes on forever. *)
Lemma blocks_returns fuel f n src dst : 0 < n -> length src < fuel -> (blocks fuel f n src dst).2 <> OutOfFuel.
Proof.
  intros Hn. revert src dst; induction fuel as [|fuel IH]; intros src dst Hf; [lia|]. cbn [blocks].
  destruct src as [|x src]; [done|]. set (l := x :: src) in *.
  assert ((b ← slice l 0 n; block_run f dst b) <> OutOfFuel) as Hb.
  { unfold slice, block_run. repeat (case_decide; simpl; try done). }
  destruct (b ← slice l 0 n; block_run f dst b) as [d| |]; [|done..].
  specialize (IH (drop n l) (drop n d)). destruct (blocks fuel f n (drop n l) (drop n d)) as [rest r].
  apply IH. rewrite length_drop. subst l. simpl in *. lia.
Qed.
Lemma Encrypt_returns this data : returns (Encrypt this data).
Proof.
  unfold Encrypt. destruct (block this) as [|m]; [by eexists|]. destruct (cypher this) as [key|]; [|by eexists].
  match goal with |- context [blocks (S (length ?s)) ?f ?n ?s ?d] =>
    pose proof (blocks_returns (S (length s)) f n s d ltac:(lia) ltac:(lia)) as H; destruct (blocks (S (length s)) f n s d) as [dst r] end.
  destruct r; simpl in *; [by eexists..|done].
Qed.

(** [Hide] undoes itself. *)
Lemma hide_twice key j data :
  j < length key -> exists h, hide_from key j data = Ret h /\ length h = length data /\ hide_from key j h = Ret data.
Proof.
  revert j. induction data as [|x data IH]; intros j Hj; [by exists []|].
  destruct (lookup_lt_is_Some_2 key j Hj) as [k Hk].
  destruct (IH ((j + 1) mod length key)) as (h & E & Hl & Hh); [apply Nat.mod_upper_bound; lia|].
  exists (xor_byte x k :: h). simpl. unfold index_. rewrite Hk. cbn [mbind res_bind]. rewrite E. cbn [mbind res_bind].
  rewrite Hh, xor_byte_invol. simpl. by rewrite Hl.
Qed.
Lemma Hide_Hide this data :
  xor_key this <> [] -> exists h, Hide this data = Ret h /\ length h = length data /\ Hide this h = Ret data.
Proof.
  intros Hk. unfold Hide. destruct (block this); [by exists data|]. apply hide_twice.
  destruct (xor_key this); [done|simpl; lia].
Qed.
End Cypher.

(** A key of 16 bytes at level 128. *)
Lemma Encrypt_Decrypt_witness :
  let c := NewCypher 128 (str "0123456789abcdef") (str "hide") in
  exists e, Encrypt c (str "twenty bytes of text") = Ret e /\ length e mod 16 = 0 /\
    Decrypt c e = Ret (padded 16 (str "twenty bytes of text")).
Proof. apply (Encrypt_Decrypt (NewCypher 128 (str "0123456789abcdef") (str "hide")) (str "0123456789abcdef")); reflexivity. Defined.
End Cypher.
