(* ===== verification/NetFrame.v ===== *)
(** What travels on the connection to the server: the frames of
    [src/agent/net/TcpSession.go], the exchange of keys at its start, and the identity and
    keys of [src/agent/agent/secure/SecurityMaster.go].

    Numbers, texts and blobs are written and read by golib's [DataOutputX] and
    [DataInputX]; a read that finds too few bytes, or too many for its limit, panics. *)

From S2P Require Import Prelude UrlPattern NetCypher.

(** * golib's data streams *)

Class DataIO := {
  WriteByte : Z -> bytes; WriteInt : Z -> bytes; WriteLong : Z -> bytes;
  WriteText : bytes -> bytes; WriteIntBytes : bytes -> bytes;
  ReadByte : bytes -> res (Z * bytes); ReadInt : bytes -> res (Z * bytes); ReadLong : bytes -> res (Z * bytes);
  ReadText : bytes -> res (bytes * bytes); ReadBlob : bytes -> res (bytes * bytes);
  ReadIntBytesLimit : Z -> bytes -> res (bytes * bytes);
  ToInt : bytes -> Z; ToBytesInt : Z -> bytes; ToBytesLong : Z -> bytes
}.

(** What the streams promise.  [r] reads back what [w] wrote, and panics when the end of it is missing. *)
Definition cut {A} (p l : list A) : Prop := exists x s, l = p ++ x :: s.
Definition codec {A} (w : A -> bytes) (r : bytes -> res (A * bytes)) (P : A -> Prop) : Prop :=
  (forall x rest, P x -> r (w x ++ rest) = Ret (x, rest)) /\
  (forall x p, P x -> cut p (w x) -> r p = Panic).
Definition is_byte (z : Z) : Prop := (0 <= z < 256)%Z.
Class DataIOLaws (D : DataIO) : Prop := {
  io_byte : codec WriteByte ReadByte is_byte;
  io_int : codec WriteInt ReadInt (in_s 32);
  io_long : codec WriteLong ReadLong (in_s 64);
  io_key z : ToBytesInt z <> [];
  io_bytes limit : codec WriteIntBytes (ReadIntBytesLimit limit) (fun b => Z.of_nat (length b) <= limit /\ Z.of_nat (length b) < 2 ^ 31)%Z
}.

(** Reading a field and then what follows it. *)
Lemma cut_app {A} (p a b : list A) : cut p (a ++ b) -> cut p a \/ exists q, p = a ++ q /\ cut q b.
Proof.
  intros (x & s & E). destruct (app_eq_inv a b p (x :: s) E) as [(k & -> & Eb)|(k & -> & Eb)].
  - destruct k as [|y k]; simplify_eq/=.
    + right. exists []. rewrite !app_nil_r. split; [done|]. by exists x, s.
    + left. by exists y, k.
  - right. exists k. split; [done|]. by exists x, s.
Qed.
Lemma prefix_or_cut {A} (p a b : list A) :
  p `prefix_of` a ++ b -> (exists q, p = a ++ q /\ q `prefix_of` b) \/ cut p a.
Proof.
  intros [r E]. destruct (app_eq_inv a b p r E) as [(k & -> & ->)|(k & -> & ->)].
  - destruct k as [|x k].
    + left. exists []. rewrite !app_nil_r. split; [done|apply prefix_nil].
    + right. by exists x, k.
  - left. exists k. split; [done|]. by exists r.
Qed.
Lemma codec_read {A B} (w : A -> bytes) r P (x : A) rest (k : A * bytes -> res B) :
  codec w r P -> P x -> r (w x ++ rest) ≫= k = k (x, rest).
Proof. intros [H _] Hx. by rewrite H. Qed.
Lemma codec_cut {A B} (w : A -> bytes) r P (x : A) rest p (k : A * bytes -> res B) :
  codec w r P -> P x -> cut p (w x ++ rest) ->
  r p ≫= k = Panic \/ exists q, cut q rest /\ r p ≫= k = k (x, q).
Proof.
  intros [H1 H2] Hx [Hc|(q & -> & Hq)]%cut_app.
  - left. by rewrite (H2 x).
  - right. exists q. split; [done|]. by rewrite H1.
Qed.

(** * Identity and keys *)

(** [SecurityMaster] and [SecuritySession]. *)
Record Secure := mkSecure {
  PCODE : Z; OID : Z; ONAME : bytes; IP : Z; PUBLIC_IP : Z; master_Cypher : Cypher.t;
  TRANSFER_KEY : Z; HIDE_KEY : Z; session_Cypher : option Cypher.t
}.

(** The settings the connection reads. *)
Record NetConf := mkNetConf {
  CypherLevel : Z; AccessKey : bytes; WhatapHost : list bytes; WhatapPort : Z; FowarderEnabled : bool;
  NetSendQueue1Size : Z; NetSendQueue2Size : Z; NetSendMaxBytes : Z; NetWriteBufferSize : Z;
  NetFailoverRetrySendDataEnabled : bool; TimeSyncIntervalMs : Z; MeterSelfEnabled : bool;
  conf_PCODE : Z; conf_OID : Z
}.

Definition NETSRC_AGENT_JAVA_EMBED : Z := 1.
Definition NET_SECURE_HIDE : Z := 1.
Definition NET_SECURE_CYPHER : Z := 2.
Definition NET_REQ_FOWARDER_1 : Z := 147.
Definition NET_RES_FOWARDER_1 : Z := 146.
Definition NET_KEY_EXTENSION : Z := 253.
Definition NET_TIME_SYNC : Z := 254.
Definition NET_KEY_RESET : Z := 255.
Definition READ_MAX : Z := 8 * 1024 * 1024.

(** Of a byte, which is never negative. *)
Definition GetSecureMask (code : Z) : Z := Z.lor (Z.land code NET_SECURE_HIDE) (Z.land code NET_SECURE_CYPHER).

Section Keys.
Context {A : Aes} {D : DataIO} {SU : StringUtil}.
Variable conf : NetConf.

Definition UpdateLicense (pcode : Z) (security_key : bytes) (s : Secure) : Secure :=
  s <| PCODE := pcode |> <| master_Cypher := Cypher.NewCypher (CypherLevel conf) security_key (ToBytesInt 0) |>.
(** The address and the name come from the process and its environment. *)
Definition DecideAgentOnameOid (ip : Z) (oname : bytes) (s : Secure) : Secure :=
  s <| IP := ip |> <| ONAME := oname |> <| OID := HashStr oname |>.

(** What is read before a panic stays set; the result says whether it returned. *)
Definition UpdateNetCypherKey (data : bytes) (s : Secure) : Secure * bool :=
  let data := if (0 <? CypherLevel conf)%Z then Cypher.Decrypt (master_Cypher s) data else Ret data in
  match data ≫= ReadInt with
  | Ret (key, data) =>
      let s := s <| TRANSFER_KEY := key |> in
      match ReadBlob data with
      | Ret (secure_key, data) =>
          match ReadInt data with
          | Ret (hide, data) =>
              let s := s <| HIDE_KEY := hide |>
                         <| session_Cypher := Some (Cypher.NewCypher (CypherLevel conf) secure_key (ToBytesInt hide)) |> in
              match ReadInt data with
              | Ret (ip, _) => (s <| PUBLIC_IP := ip |>, true)
              | _ => (s, false)
              end
          | _ => (s, false)
          end
      | _ => (s, false)
      end
  | _ => (s, false)
  end.

(** ** The exchange of keys *)

Definition transfer_key : Z :=
  if (CypherLevel conf =? 128)%Z then 0
  else if (CypherLevel conf =? 0)%Z then 0
  else ToInt [Ascii.ascii_of_N 1; Ascii.ascii_of_N (Z.to_N (uint8 (Z.quot (CypherLevel conf) 8))); zero; zero].
Definition keyReset (s : Secure) : bytes :=
  let msg := WriteText (str "hello") ++ WriteText (ONAME s) ++ WriteInt (IP s) in
  match (if (0 <? CypherLevel conf)%Z then Cypher.Encrypt (master_Cypher s) msg else Ret msg) with
  | Ret msg =>
      WriteByte NETSRC_AGENT_JAVA_EMBED ++
      WriteByte (if (CypherLevel conf =? 128)%Z then NET_KEY_RESET else NET_KEY_EXTENSION) ++
      WriteLong (PCODE s) ++ WriteInt (OID s) ++ WriteInt transfer_key ++ WriteIntBytes msg
  | _ => []
  end.
Definition keyResetToFowarder (addr : bytes) : bytes :=
  WriteByte 1 ++ WriteByte NET_REQ_FOWARDER_1 ++ WriteIntBytes (WriteText addr ++ WriteText (AccessKey conf)).

(** The key data, none when the answer is for another agent; what is left of the stream. *)
Definition readKeyReset (s : Secure) (stream : bytes) : res (bytes * bytes) :=
  '(_, stream) ← ReadByte stream;
  '(_, stream) ← ReadByte stream;
  '(pcode, stream) ← ReadLong stream;
  '(oid, stream) ← ReadInt stream;
  '(_, stream) ← ReadInt stream;
  '(data, stream) ← ReadIntBytesLimit 1024 stream;
  Ret ((if bool_decide (pcode <> PCODE s \/ oid <> OID s) then [] else data), stream).
(** [local_ip] is the first local address, empty when there is none.  A panic becomes an
    error: the session data is read last. *)
Definition readKeyResetFromFowarder (local_ip : bytes) (stream : bytes) : option (Z * bytes * bytes * bytes) :=
  match
    ('(_, stream) ← ReadByte stream;
     '(netFlag, stream) ← ReadByte stream;
     '(msg, stream) ← ReadIntBytesLimit 2048 stream;
     '(pcode, din) ← ReadLong msg;
     '(ip, din) ← (if (netFlag =? NET_RES_FOWARDER_1)%Z then ReadText din else Ret (local_ip, din));
     '(data, _) ← ReadIntBytesLimit 1024 din;
     Ret (pcode, ip, data, stream))
  with
  | Ret r => Some r
  | _ => None
  end.

(** ** Frames *)

Record Frame := mkFrame { f_src : Z; f_code : Z; f_pcode : Z; f_oid : Z; f_key : Z; f_data : bytes }.
Definition write_frame (f : Frame) : bytes :=
  WriteByte (f_src f) ++ WriteByte (f_code f) ++ WriteLong (f_pcode f) ++ WriteInt (f_oid f) ++ WriteInt (f_key f) ++
  WriteIntBytes (f_data f).
(** The frame [Send] and [SendFailover] make of a code and its data. *)
Definition frame (s : Secure) (code : Z) (b : bytes) : Frame :=
  mkFrame NETSRC_AGENT_JAVA_EMBED code (PCODE s) (OID s) (TRANSFER_KEY s) b.
Definition read_frame (stream : bytes) : res (Frame * bytes) :=
  '(src, stream) ← ReadByte stream;
  '(code, stream) ← ReadByte stream;
  '(pcode, stream) ← ReadLong stream;
  '(oid, stream) ← ReadInt stream;
  '(key, stream) ← ReadInt stream;
  '(data, stream) ← ReadIntBytesLimit READ_MAX stream;
  Ret (mkFrame src code pcode oid key data, stream).

Definition good_frame (f : Frame) : Prop :=
  is_byte (f_src f) /\ is_byte (f_code f) /\ in_s 64 (f_pcode f) /\ in_s 32 (f_oid f) /\ in_s 32 (f_key f) /\
  (Z.of_nat (length (f_data f)) <= READ_MAX)%Z.

Context {L : DataIOLaws D}.
Lemma read_write_frame f rest : good_frame f -> read_frame (write_frame f ++ rest) = Ret (f, rest).
Proof.
  intros (H1 & H2 & H3 & H4 & H5 & H6). unfold read_frame, write_frame. rewrite <- !app_assoc.
  rewrite (codec_read _ _ _ _ _ _ io_byte H1). cbn beta iota.
  rewrite (codec_read _ _ _ _ _ _ io_byte H2). cbn beta iota.
  rewrite (codec_read _ _ _ _ _ _ io_long H3). cbn beta iota.
  rewrite (codec_read _ _ _ _ _ _ io_int H4). cbn beta iota.
  rewrite (codec_read _ _ _ _ _ _ io_int H5). cbn beta iota.
  rewrite (codec_read _ _ _ _ _ _ (io_bytes READ_MAX)).
  - by destruct f.
  - split; [done|]. unfold READ_MAX in H6. lia.
Qed.
(** The stream is cut in the next field, or after it. *)
Ltac next_field law H Hp :=
  match goal with |- ?r ?p ≫= ?k = _ =>
    let q := fresh "q" in let Hq := fresh "Hq" in let E := fresh "E" in
    destruct (codec_cut _ _ _ _ _ p k law H Hp) as [E|(q & Hq & E)]; [exact E|];
    rewrite E; clear E Hp; clear p; rename q into p, Hq into Hp; cbn beta iota
  end.
Lemma read_cut_frame f p : good_frame f -> cut p (write_frame f) -> read_frame p = Panic.
Proof.
  intros (H1 & H2 & H3 & H4 & H5 & H6) Hp. unfold read_frame, write_frame in *.
  next_field io_byte H1 Hp. next_field io_byte H2 Hp. next_field io_long H3 Hp.
  next_field io_int H4 Hp. next_field io_int H5 Hp.
  destruct (io_bytes READ_MAX) as [_ Hb]. rewrite (Hb (f_data f) p); [done| |exact Hp].
  split; [done|]. unfold READ_MAX in H6. lia.
Qed.

Lemma write_frame_nonempty f : is_byte (f_src f) -> write_frame f <> [].
Proof.
  intros Hb E. unfold write_frame in E. apply app_eq_nil in E as [E _].
  destruct io_byte as [H _].
  assert (forall z, is_byte z -> z = f_src f) as Hz.
  { intros z Hz. pose proof (H (f_src f) (WriteByte z) Hb) as H1. pose proof (H z [] Hz) as H2.
    rewrite app_nil_r in H2. rewrite E in H1. simpl in H1. congruence. }
  pose proof (Hz 0%Z ltac:(done)). pose proof (Hz 1%Z ltac:(done)). lia.
Qed.
Lemma read_frame_nil : read_frame [] = Panic.
Proof.
  apply (read_cut_frame (mkFrame 0 0 0 0 0 [])); [by repeat split|].
  pose proof (write_frame_nonempty (mkFrame 0 0 0 0 0 []) ltac:(done)) as Hn. unfold cut.
  destruct (write_frame _) as [|x s]; [done|]. by exists x, s.
Qed.
End Keys.

(** * Streams in the order of the network *)

Module BigEndian.
Definition byte_of (z : Z) : ascii := ascii_of_N (Z.to_N (z mod 256)).
Fixpoint write (k : nat) (z : Z) : bytes :=
  match k with O => [] | S k => write k (z / 256) ++ [byte_of z] end.
Definition value (s : bytes) : Z := foldl (fun v c => v * 256 + byteZ c)%Z 0%Z s.
Definition read (k : nat) (f : Z -> Z) (s : bytes) : res (Z * bytes) :=
  if decide (k <= length s) then Ret (f (value (take k s)), drop k s) else Panic.
Definition write_bytes (b : bytes) : bytes := write 4 (Z.of_nat (length b)) ++ b.
Definition read_bytes (limit : Z) (s : bytes) : res (bytes * bytes) :=
  '(n, s) ← read 4 id s;
  if decide (n <= limit /\ n <= Z.of_nat (length s))%Z then Ret (take (Z.to_nat n) s, drop (Z.to_nat n) s) else Panic.

#[export] Instance big_endian : DataIO := {|
  WriteByte := write 1; WriteInt := write 4; WriteLong := write 8; WriteText := write_bytes; WriteIntBytes := write_bytes;
  ReadByte := read 1 id; ReadInt := read 4 (wrap_s 32); ReadLong := read 8 (wrap_s 64);
  ReadText := read_bytes (2 ^ 31); ReadBlob := read_bytes (2 ^ 31); ReadIntBytesLimit := read_bytes;
  ToInt s := wrap_s 32 (value (take 4 s)); ToBytesInt := write 4; ToBytesLong := write 8
|}.

Lemma length_write k z : length (write k z) = k.
Proof. revert z; induction k; intros; simpl; [done|]. rewrite length_app, IHk. simpl. lia. Qed.
Lemma byteZ_of z : byteZ (byte_of z) = (z mod 256)%Z.
Proof.
  unfold byteZ, byte_of. pose proof (Z.mod_pos_bound z 256). rewrite N_ascii_embedding by lia. lia.
Qed.
Lemma value_write k z : value (write k z) = (z mod 256 ^ Z.of_nat k)%Z.
Proof.
  revert z; induction k as [|k IH]; intros z; simpl write; [by rewrite Z.mod_1_r|].
  unfold value in *. rewrite foldl_app, IH. simpl foldl. rewrite byteZ_of.
  rewrite Nat2Z.inj_succ, Z.pow_succ_r by lia.
  assert (0 < 256 ^ Z.of_nat k)%Z by (apply Z.pow_pos_nonneg; lia).
  rewrite (Z.rem_mul_r z 256) by lia. lia.
Qed.
Lemma codec_write k f (P : Z -> Prop) :
  (forall z, P z -> f (z mod 256 ^ Z.of_nat k)%Z = z) -> codec (write k) (read k f) P.
Proof.
  intros Hf. split; unfold read.
  - intros z rest Hz. rewrite decide_True by (rewrite length_app, length_write; lia).
    rewrite take_app_length', drop_app_length' by by rewrite length_write. by rewrite value_write, Hf.
  - intros z p Hz (x & s & E). rewrite decide_False; [done|].
    apply (f_equal length) in E. rewrite length_write, length_app in E. simpl in E. lia.
Qed.
Lemma wrap_s_mod_id w z : (0 < w)%Z -> in_s w z -> wrap_s w (z mod 2 ^ w) = z.
Proof.
  intros Hw Hz. rewrite <- (wrap_s_id w z) at 2 by done. apply wrap_s_eq; [done|].
  by rewrite Z.mod_mod by (apply Z.pow_nonzero; lia).
Qed.
#[export] Instance big_endian_laws : DataIOLaws big_endian.
Proof.
  split.
  - apply codec_write. intros z Hz. unfold is_byte in Hz. by rewrite Z.mod_small by lia.
  - apply codec_write. intros z Hz. by apply (wrap_s_mod_id 32).
  - apply codec_write. intros z Hz. by apply (wrap_s_mod_id 64).
  - intros z H. change (write 4 z = []) in H. apply (f_equal length) in H. by rewrite length_write in H.
  - intros limit. cbn. unfold write_bytes, read_bytes.
    assert (codec (write 4) (read 4 id) (fun z => 0 <= z < 2 ^ 31)%Z) as C.
    { apply codec_write. intros z Hz. change (256 ^ Z.of_nat 4)%Z with (2 ^ 32)%Z. rewrite Z.mod_small by lia. done. }
    split.
    + intros b rest [Hl Hm]. rewrite <- app_assoc. rewrite (codec_read _ _ _ _ _ _ C) by lia. cbn beta iota.
      rewrite decide_True by (rewrite length_app; lia).
      by rewrite Nat2Z.id, take_app_length, drop_app_length.
    + intros b p [Hl Hm] Hp.
      destruct (codec_cut _ _ _ _ _ p (fun '(n, s) => if decide (n <= limit /\ n <= Z.of_nat (length s))%Z
        then Ret (take (Z.to_nat n) s, drop (Z.to_nat n) s) else Panic) C (conj (Nat2Z.is_nonneg _) Hm) Hp) as [E|(q & (x & s & Hq) & E)].
      { exact E. }
      rewrite E, decide_False; [done|]. apply (f_equal length) in Hq. rewrite length_app in Hq. simpl in Hq. lia.
Qed.

End BigEndian.
