(* ===== verification/NetSession.v ===== *)
(** The connection to the server, [src/agent/net]: the session and its retry queue
    ([TcpSession.go]), the loop that sends packs ([Sender.go]) and the one that receives
    them ([Receiver.go]).

    A connection is what it has accepted, and after how many more bytes it will fail; the
    writer is Go's [bufio.Writer].  What the network and the clock answer is an argument of
    the operation.  The locks are not modelled: operations are the steps of the
    goroutines.  [WriteLock] is [Write] under a lock. *)

From S2P Require Import Prelude UrlPattern DataPack NetCypher NetFrame.

(** * [net.Conn] and [bufio.Writer] *)

Record Conn := mkConn { wire : bytes; room : option nat }.
(** A write is whole, or an error after some bytes; then no more is accepted. *)
Definition conn_Write (c : Conn) (p : bytes) : Conn * nat * bool :=
  match room c with
  | None => (mkConn (wire c ++ p) None, length p, false)
  | Some k =>
      if decide (length p <= k) then (mkConn (wire c ++ p) (Some (k - length p)), length p, false)
      else (mkConn (wire c ++ take k p) (Some 0), k, true)
  end.

Module bufio.
Record Writer := mk { size : nat; buf : bytes; err : bool; conn : Conn }.
Definition NewWriterSize (c : Conn) (size : Z) : Writer :=
  mk (if (size <=? 0)%Z then 4096 else Z.to_nat size) [] false c.
Definition Available (w : Writer) : nat := size w - length (buf w).
(** The result is whether there is an error, which stays. *)
Definition Flush (w : Writer) : Writer * bool :=
  if err w then (w, true)
  else match buf w with
  | [] => (w, false)
  | _ =>
      let '(c, n, e) := conn_Write (conn w) (buf w) in
      if e then (mk (size w) (drop n (buf w)) true c, true) else (mk (size w) [] false c, false)
  end.
(** [for len(p) > b.Available() && b.err == nil]: a large write to an empty buffer goes
    to the connection, else the buffer is filled and flushed.  What is left of [p]. *)
Fixpoint write_loop (fuel : nat) (w : Writer) (p : bytes) : res (Writer * bytes) :=
  if decide (Available w < length p /\ err w = false) then
    match fuel with
    | O => OutOfFuel
    | S fuel =>
        match buf w with
        | [] =>
            let '(c, n, e) := conn_Write (conn w) p in
            write_loop fuel (mk (size w) [] e c) (drop n p)
        | b =>
            let n := Available w in
            write_loop fuel (Flush (mk (size w) (b ++ take n p) false (conn w))).1 (drop n p)
        end
    end
  else Ret (w, p).
Definition write_fuel : nat := 2.
(** The writer, the bytes taken, and whether there is an error. *)
Definition Write (w : Writer) (p : bytes) : res (Writer * nat * bool) :=
  '(w, rest) ← write_loop write_fuel w p;
  if err w then Ret (w, length p - length rest, true)
  else Ret (mk (size w) (buf w ++ rest) false (conn w), length p, false).
End bufio.

(** * Packs as bytes *)

(** golib's serialisation of packs, and its log-sink pack. *)
Class PackBytes {PI : PackI} := {
  ToBytesPack : pack -> bytes;
  ToBytesPackECB : pack -> Z -> bytes;
  ToPack : bytes -> res pack;
  NewLogSinkPack : pack;
  PutLogSink (category : bytes) (pcode oid time : Z) (content : bytes) (tags : list (bytes * (bytes + Z))) : pack -> pack;
  EVENT_LEVEL_CRITICAL : Z; EVENT_STATUS_ON : Z
}.
Record TcpSend {PI : PackI} := mkSend { flag : Z; tpack : pack; flush : bool }.
Arguments mkSend {PI}.

Module TcpSession.
Section Session.
Context {A : Aes} {D : DataIO} {SU : StringUtil} {PI : PackI} {PB : PackBytes} {RQ : RequestQueue}.

(** [in_] is what the server will still send; [selfPackets] are the flushed sizes reported
    to the agent's own meter. *)
Record t := mk {
  client : bool; wr : option bufio.Writer; in_ : bytes; dest : Z; LastConnectedTime : Z;
  RetryQueue : queue TcpSend; selfPackets : list Z
}.
Definition new : t := mk false None [] 0 0 (NewRequestQueue 256) [].
Definition isOpen (this : t) : bool := client this.

(** The connection takes no more bytes; an old writer of it stays. *)
Definition Close (this : t) : t :=
  let this := if client this then
    this <| wr ::= fmap (fun w => bufio.mk (bufio.size w) (bufio.buf w) (bufio.err w) (mkConn (wire (bufio.conn w)) (Some 0))) |>
    else this in
  this <| client := false |> <| LastConnectedTime := 0%Z |>.

(** [Write]: until all is taken or an error; a session without a writer panics. *)
Fixpoint write_loop (fuel : nat) (w : bufio.Writer) (p : bytes) : res (bufio.Writer * bool) :=
  match p with
  | [] => Ret (w, false)
  | _ =>
      match fuel with
      | O => OutOfFuel
      | S fuel =>
          '(w, n, e) ← bufio.Write w p;
          if (e : bool) then Ret (w, true) else write_loop fuel w (drop n p)
      end
  end.
Definition Write (this : t) (sendbuf : bytes) : res (t * bool) :=
  match wr this with
  | None => Panic
  | Some w => '(w, e) ← write_loop 1 w sendbuf; Ret (this <| wr := Some w |>, e)
  end.
(** The size of what was flushed, none on an error. *)
Definition Flush (this : t) : res (t * option Z) :=
  match wr this with
  | None => Panic
  | Some w =>
      let '(w', e) := bufio.Flush w in
      Ret (this <| wr := Some w' |>, if e then None else Some (Z.of_nat (length (bufio.buf w))))
  end.

Definition meter (conf : NetConf) (n : Z) (this : t) : t :=
  if MeterSelfEnabled conf then this <| selfPackets ::= fun l => l ++ [n] |> else this.

(** [dl]: the deadline could be set.  A panic closes the connection. *)
Definition Send (conf : NetConf) (s : Secure) (dl : bool) (code : Z) (b : bytes) (flush : bool) (this : t) : t * bool :=
  if negb (client this) then (this, false)
  else if negb dl then (this, false)
  else
    match Write this (write_frame (frame s code b)) with
    | Ret (this, true) => (Close this, false)
    | Ret (this, false) =>
        if flush then
          match Flush this with
          | Ret (this, Some n) => (meter conf n this <| RetryQueue ::= q_Clear |>, true)
          | Ret (this, None) => (Close this, false)
          | _ => (Close this, false)
          end
        else (this, true)
    | _ => (Close this, false)
    end.

(** ** Data and its retry *)

Definition tooBig (conf : NetConf) (dnow : Z) : TcpSend :=
  let p := NewLogSinkPack in
  mkSend NET_SECURE_CYPHER
    (PutLogSink (str "#WhatapSys") (conf_PCODE conf) (int32 (conf_OID conf)) dnow
       (str "Too big data: " ++ FormatInt (GetPackType p))
       [(str "title", inl (str "NEW_OVERFLOW")); (str "level", inr EVENT_LEVEL_CRITICAL); (str "status", inr EVENT_STATUS_ON)]
       p) true.
(** The size of the data, and the data: nil for a pack that is sent in the clear while
    the others are not.  And the notice of a large pack. *)
Definition getEncryptData (conf : NetConf) (s : Secure) (dnow : Z) (p : TcpSend) : res (nat * bytes * list TcpSend) :=
  '(n, b) ← (
    let plain := ToBytesPack (tpack p) in
    if (CypherLevel conf =? 0)%Z then Ret (length plain, plain)
    else if (GetSecureMask (flag p) =? NET_SECURE_HIDE)%Z then
      match session_Cypher s with
      | Some c => b ← Cypher.Hide c plain; Ret (length b, b)
      | None => Ret (length plain, plain)
      end
    else if (GetSecureMask (flag p) =? NET_SECURE_CYPHER)%Z then
      match session_Cypher s with
      | Some c => b ← Cypher.Encrypt c (ToBytesPackECB (tpack p) (Z.quot (CypherLevel conf) 8)); Ret (length b, b)
      | None => Ret (length plain, plain)
      end
    else Ret (length plain, []));
  Ret (n, b, if (NetSendMaxBytes conf <? Z.of_nat n)%Z then [tooBig conf dnow] else []).
(** The rounds of [SendFailover]: the session, the notices, whether it went on. *)
Fixpoint failover_loop (conf : NetConf) (s : Secure) (dnow : Z) (sz : nat) (this : t) : t * list TcpSend * res bool :=
  match sz with
  | O => (this, [], Ret true)
  | S sz =>
      let '(v, q) := q_Get (RetryQueue this) in
      let this := this <| RetryQueue := q |> in
      match v with
      | None => failover_loop conf s dnow sz this
      | Some temp =>
          match getEncryptData conf s dnow temp with
          | Ret (_, b, notices) =>
              match Write this (write_frame (frame s (flag temp) b)) with
              | Ret (this, false) => let '(this, ns, r) := failover_loop conf s dnow sz this in (this, notices ++ ns, r)
              | Ret (this, true) => (this, notices, Ret false)
              | Panic => (this, notices, Panic)
              | OutOfFuel => (this, notices, OutOfFuel)
              end
          | Panic => (this, [], Panic)
          | OutOfFuel => (this, [], OutOfFuel)
          end
      end
  end.
Definition SendFailover (conf : NetConf) (s : Secure) (dnow : Z) (this : t) : t * list TcpSend * res bool :=
  match length (q_items (RetryQueue this)) with
  | O => (this, [], Ret true)
  | sz =>
      let '(this, ns, r) := failover_loop conf s dnow sz this in
      match r with
      | Ret true =>
          match Flush this with
          | Ret (this, Some n) => (meter conf n this, ns, Ret true)
          | Ret (this, None) => (this, ns, Ret false)
          | Panic => (this, ns, Panic)
          | OutOfFuel => (this, ns, OutOfFuel)
          end
      | r => (this, ns, r)
      end
  end.

(** ** Opening *)

(** What a dial gives: the bytes the server will send, how many it takes, and what the
    process is called at this address; [d_named] is false when that panics. *)
Record Dial := mkDial { d_in : bytes; d_room : option nat; d_ip : Z; d_oname : bytes; d_named : bool; d_local : bytes }.

(** From the key exchange to the open session. *)
Definition handshake (conf : NetConf) (now dnow : Z) (c : Conn) (stream : bytes) (s : Secure) (this : t)
    : Secure * t * list TcpSend * bool :=
  let '(c, _, _) := conn_Write c (keyReset conf s) in
  match readKeyReset s stream with
  | Ret (data, stream) =>
      let this := this <| in_ := stream |> in
      let '(s, ok) := UpdateNetCypherKey conf data s in
      if negb ok then (s, Close this, [], false)
      else
        let this := this <| wr := Some (bufio.NewWriterSize c (NetWriteBufferSize conf)) |> <| LastConnectedTime := now |> in
        let '(this, ns, r) :=
          if NetFailoverRetrySendDataEnabled conf then SendFailover conf s dnow this else (this, [], Ret true) in
        match r with
        | Ret _ => (s, this <| RetryQueue ::= q_Clear |> <| client := true |>, ns, true)
        | _ => (s, Close this, ns, false)
        end
  | _ => (s, Close this, [], false)
  end.
Definition address (conf : NetConf) (this : t) : bytes :=
  nth (Z.to_nat (dest this)) (WhatapHost conf) [] ++ str ":" ++ FormatInt (WhatapPort conf).
Definition open (conf : NetConf) (now dnow : Z) (dial : option Dial) (s : Secure) (this : t) : Secure * t * list TcpSend * bool :=
  if isOpen this then (s, this, [], true)
  else if bool_decide (TrimSpace (AccessKey conf) = []) then (s, this, [], false)
  else if bool_decide (WhatapHost conf = []) then (s, Close this, [], false)
  else
    let this := this <| dest ::= fun d => if (Z.of_nat (length (WhatapHost conf)) <=? d + 1)%Z then 0%Z else (d + 1)%Z |> in
    if FowarderEnabled conf then
      match dial with
      | None => (s, Close this, [], false)
      | Some d =>
          let '(c, _, _) := conn_Write (mkConn [] (d_room d)) (keyResetToFowarder conf (address conf this)) in
          match readKeyResetFromFowarder (d_local d) (d_in d) with
          | None => (s, Close this, [], false)
          | Some (pcode, _, data, stream) =>
              let s := UpdateLicense conf pcode data s in
              if (PCODE s =? 0)%Z then (s, Close this, [], false)
              else if negb (d_named d) then (s, Close this, [], false)
              else handshake conf now dnow c stream (DecideAgentOnameOid (d_ip d) (d_oname d) s) this
          end
      end
    else if (PCODE s =? 0)%Z then (s, Close this, [], false)
    else
      match dial with
      | None => (s, Close this, [], false)
      | Some d =>
          if negb (d_named d) then (s, Close this, [], false)
          else handshake conf now dnow (mkConn [] (d_room d)) (d_in d) (DecideAgentOnameOid (d_ip d) (d_oname d) s) this
      end.

(** ** Reading *)

Record TcpReturn := mkReturn { Code : Z; Data : bytes; TransferKey : Z }.
Definition empty : TcpReturn := mkReturn 0 [] 0.
Definition Read (s : Secure) (this : t) : t * TcpReturn :=
  if negb (isOpen this) then (this, empty)
  else
    match read_frame (in_ this) with
    | Ret (f, stream) =>
        let this := this <| in_ := stream |> in
        if bool_decide (f_pcode f <> PCODE s \/ f_oid f <> OID s) then (this, empty)
        else (this, mkReturn (f_code f) (f_data f) (f_key f))
    | _ => (Close this, empty)
    end.
End Session.
End TcpSession.
