(* ===== verification/NetSender.v ===== *)
(** The goroutines around the session: the double queue and the loop that empties it
    ([src/agent/net/Sender.go], [TcpManager.go]), the one that opens the session, and the
    receiver ([Receiver.go]).

    A state is the queue, the session, the keys, and what the sending loop holds between
    two of its waits; an event is one step of one of the goroutines. *)

From S2P Require Import Prelude UrlPattern DataPack NetCypher NetFrame NetSession.

(** golib's [RequestDoubleQueue]: the second queue is served when the first is empty. *)
Class DoubleQueue := {
  dqueue : Type -> Type;
  NewRequestDoubleQueue {A} : Z -> Z -> dqueue A;
  dq1 {A} : dqueue A -> list A;
  dq2 {A} : dqueue A -> list A;
  dq_room1 {A} : dqueue A -> bool;
  dq_room2 {A} : dqueue A -> bool;
  Put1 {A} : dqueue A -> A -> dqueue A;
  Put2 {A} : dqueue A -> A -> dqueue A;
  GetTimeout {A} : dqueue A -> option A * dqueue A;
  SetCapacity {A} : Z -> Z -> dqueue A -> dqueue A
}.
Class DoubleQueueLaws (DQ : DoubleQueue) : Prop := {
  dq_fresh A a b : dq1 (NewRequestDoubleQueue (A := A) a b) = [] /\ dq2 (NewRequestDoubleQueue (A := A) a b) = [];
  dq_Put1 A (q : dqueue A) x : dq2 (Put1 q x) = dq2 q /\ dq1 (Put1 q x) = if dq_room1 q then dq1 q ++ [x] else dq1 q;
  dq_Put2 A (q : dqueue A) x : dq1 (Put2 q x) = dq1 q /\ dq2 (Put2 q x) = if dq_room2 q then dq2 q ++ [x] else dq2 q;
  dq_Get A (q : dqueue A) :
    match dq1 q, dq2 q with
    | x :: xs, ys => (GetTimeout q).1 = Some x /\ dq1 (GetTimeout q).2 = xs /\ dq2 (GetTimeout q).2 = ys
    | [], y :: ys => (GetTimeout q).1 = Some y /\ dq1 (GetTimeout q).2 = [] /\ dq2 (GetTimeout q).2 = ys
    | [], [] => (GetTimeout q).1 = None /\ dq1 (GetTimeout q).2 = [] /\ dq2 (GetTimeout q).2 = []
    end;
  dq_SetCapacity A (q : dqueue A) a b : dq1 (SetCapacity a b q) = dq1 q /\ dq2 (SetCapacity a b q) = dq2 q
}.

Module Sender.
Section Sender.
Context {A : Aes} {D : DataIO} {SU : StringUtil} {PI : PackI} {PB : PackBytes} {RQ : RequestQueue} {DQ : DoubleQueue}.

(** [cypher_level], [queue1Size], [queue2Size] and [last_time_sync] are the variables of
    [runSend]; [holding] is the pack it has taken and not yet sent. *)
Record Net := mkNet {
  conf : NetConf; sec : Secure; session : TcpSession.t; TcpQueue : dqueue TcpSend;
  cypher_level : Z; queue1Size : Z; queue2Size : Z; last_time_sync : Z; holding : option TcpSend
}.
(** [InitSender] and the start of [runSend]. *)
Definition InitSender (conf : NetConf) (sec : Secure) (session : TcpSession.t) : Net :=
  mkNet conf sec session (NewRequestDoubleQueue (NetSendQueue1Size conf) (NetSendQueue2Size conf))
    (CypherLevel conf) (NetSendQueue1Size conf) (NetSendQueue2Size conf) 0 None.

Definition Send (f : Z) (p : pack) (flush : bool) (n : Net) : Net := n <| TcpQueue ::= fun q => Put1 q (mkSend f p flush) |>.
Definition SendProfile (f : Z) (p : pack) (flush : bool) (n : Net) : Net := n <| TcpQueue ::= fun q => Put2 q (mkSend f p flush) |>.
Definition notices (ps : list TcpSend) (n : Net) : Net := foldl (fun n p => Send (flag p) (tpack p) (flush p) n) n ps.

(** [TcpManager.Run], when the settings have been read again. *)
Definition Run (n : Net) : Net := n <| TcpQueue ::= SetCapacity (NetSendQueue1Size (conf n)) (NetSendQueue2Size (conf n)) |>.

(** A round of [runSend] up to its wait for the session.  The sizes it compares with are
    never assigned. *)
Definition runSend_take (n : Net) : Net :=
  match holding n with
  | Some _ => n
  | None =>
      let n := if bool_decide (queue1Size n <> NetSendQueue1Size (conf n) \/ queue2Size n <> NetSendQueue2Size (conf n))
               then Run n else n in
      let '(v, q) := GetTimeout (TcpQueue n) in
      n <| TcpQueue := q |> <| holding := v |>
  end.

(** The data of a pack. *)
Definition payload (conf : NetConf) (s : Secure) (p : TcpSend) : res bytes :=
  let plain := ToBytesPack (tpack p) in
  if (CypherLevel conf =? 0)%Z then Ret plain
  else if (GetSecureMask (flag p) =? NET_SECURE_HIDE)%Z then
    match session_Cypher s with Some c => Cypher.Hide c plain | None => Ret plain end
  else if (GetSecureMask (flag p) =? NET_SECURE_CYPHER)%Z then
    match session_Cypher s with
    | Some c => Cypher.Encrypt c (ToBytesPackECB (tpack p) (Z.quot (CypherLevel conf) 8))
    | None => Ret plain
    end
  else Ret plain.

(** The clock and the deadlines of a round. *)
Record Tick := mkTick { now : Z; dnow : Z; dl_sync : bool; dl_send : bool }.
Definition time_sync (t : Tick) (n : Net) : Net :=
  if (last_time_sync n + TimeSyncIntervalMs (conf n) <? now t)%Z then
    n <| last_time_sync := now t |>
      <| session ::= fun this => (TcpSession.Send (conf n) (sec n) (dl_sync t) NET_TIME_SYNC (ToBytesLong (now t)) true this).1 |>
  else n.
(** A pack is put on the retry queue before it is sent. *)
Definition send_pack (t : Tick) (p : TcpSend) (n : Net) : Net :=
  match payload (conf n) (sec n) p with
  | Ret b =>
      let n := n <| session ::= fun this =>
        let this := if NetFailoverRetrySendDataEnabled (conf n)
                    then this <| TcpSession.RetryQueue ::= fun q => q_PutForce q p |> else this in
        (TcpSession.Send (conf n) (sec n) (dl_send t) (flag p) b (flush p) this).1 |> in
      if (NetSendMaxBytes (conf n) <? int32 (Z.of_nat (length b)))%Z
      then notices [TcpSession.tooBig (conf n) (dnow t)] n else n
  | _ => n <| session ::= TcpSession.Close |>
  end.
(** The rest of the round, when there is a pack and the session is open. *)
Definition runSend_send (t : Tick) (n : Net) : Net :=
  match holding n with
  | Some p =>
      if TcpSession.isOpen (session n) then
        let n := n <| holding := None |> in
        if negb (cypher_level n =? CypherLevel (conf n))%Z then
          n <| cypher_level := CypherLevel (conf n) |> <| session ::= TcpSession.Close |>
        else send_pack t p (time_sync t n)
      else n
  | None => n
  end.
Definition open (clock dnow : Z) (dial : option TcpSession.Dial) (n : Net) : Net :=
  let '(s, this, ns, _) := TcpSession.open (conf n) clock dnow dial (sec n) (session n) in
  notices ns (n <| sec := s |> <| session := this |>).

(** ** The receiver *)

Inductive received := Nothing | ServerTime (t : Z) | Deliver (p : pack).
(** A round of [run]; a panic of it is recovered. *)
Definition receive (clock : Z) (n : Net) : Net * received :=
  if negb (TcpSession.isOpen (session n)) then (n, Nothing)
  else
    let '(this, out) := TcpSession.Read (sec n) (session n) in
    let n := n <| session := this |> in
    let deliver data := match data with
                        | Ret ((_ :: _) as b) => match ToPack b with Ret p => (n, Deliver p) | _ => (n, Nothing) end
                        | _ => (n, Nothing)
                        end in
    if (TcpSession.Code out =? NET_TIME_SYNC)%Z then
      match ReadLong (TcpSession.Data out) with
      | Ret (prevAgentTime, rest) =>
          match ReadLong rest with
          | Ret (serverTime, _) =>
              if (int64 (clock - prevAgentTime) <? 500)%Z then (n, ServerTime serverTime) else (n, Nothing)
          | _ => (n, Nothing)
          end
      | _ => (n, Nothing)
      end
    else if (0 <? CypherLevel (conf n))%Z then
      if negb (TcpSession.TransferKey out =? TRANSFER_KEY (sec n))%Z then (n, Nothing)
      else if (GetSecureMask (TcpSession.Code out) =? NET_SECURE_HIDE)%Z then
        deliver (match session_Cypher (sec n) with Some c => Cypher.Hide c (TcpSession.Data out) | None => Ret (TcpSession.Data out) end)
      else if (GetSecureMask (TcpSession.Code out) =? NET_SECURE_CYPHER)%Z then
        deliver (match session_Cypher (sec n) with Some c => Cypher.Decrypt c (TcpSession.Data out) | None => Ret (TcpSession.Data out) end)
      else (n, Nothing)
    else deliver (Ret (TcpSession.Data out)).

(** ** Runs *)

(** A step of a goroutine; [EvBreak] is the network, which will take so many more bytes. *)
Inductive event :=
| EvSend (f : Z) (p : pack) (flush : bool)
| EvSendProfile (f : Z) (p : pack) (flush : bool)
| EvTake
| EvTransmit (t : Tick)
| EvOpen (clock dnow : Z) (dial : option TcpSession.Dial)
| EvReceive (clock : Z)
| EvBreak (k : nat)
| EvConf (c : NetConf).
Definition break (k : nat) (this : TcpSession.t) : TcpSession.t :=
  this <| TcpSession.wr ::= fmap (fun w => bufio.mk (bufio.size w) (bufio.buf w) (bufio.err w)
            (mkConn (wire (bufio.conn w)) (Some (match room (bufio.conn w) with Some r => min r k | None => k end)))) |>.
Definition step (n : Net) (e : event) : Net :=
  match e with
  | EvSend f p fl => Send f p fl n
  | EvSendProfile f p fl => SendProfile f p fl n
  | EvTake => runSend_take n
  | EvTransmit t => runSend_send t n
  | EvOpen clock dnow dial => open clock dnow dial n
  | EvReceive clock => (receive clock n).1
  | EvBreak k => n <| session ::= break k |>
  | EvConf c => Run (n <| conf := c |>)
  end.
Definition run (n : Net) (es : list event) : Net := foldl step n es.
End Sender.
End Sender.
