(* ===== verification/NetSamples.v ===== *)
(** A server, a queue and packs, for the theorems about the connection to be applied to. *)

From S2P Require Import Prelude UrlPattern DataPack NetCypher NetFrame NetSession NetSender.

(** Two lists with their capacities; a full one refuses. *)
Module ListDouble.
Section Impl.
Context {T : Type}.
Definition t : Type := (Z * Z) * (list T * list T).
Definition room (cap : Z) (l : list T) : bool := (Z.of_nat (length l) <? cap)%Z.
Definition put1 (q : t) (x : T) : t :=
  let '((a, b), (l1, l2)) := q in if room a l1 then ((a, b), (l1 ++ [x], l2)) else q.
Definition put2 (q : t) (x : T) : t :=
  let '((a, b), (l1, l2)) := q in if room b l2 then ((a, b), (l1, l2 ++ [x])) else q.
Definition get (q : t) : option T * t :=
  match q with
  | (c, (x :: l1, l2)) => (Some x, (c, (l1, l2)))
  | (c, ([], x :: l2)) => (Some x, (c, ([], l2)))
  | _ => (None, q)
  end.
End Impl.
#[export] Instance list_double : DoubleQueue := {|
  dqueue := @t; NewRequestDoubleQueue A a b := ((a, b), ([], [])); dq1 A q := q.2.1; dq2 A q := q.2.2;
  dq_room1 A q := room q.1.1 q.2.1; dq_room2 A q := room q.1.2 q.2.2;
  Put1 A := put1; Put2 A := put2; GetTimeout A := get; SetCapacity A a b q := ((a, b), q.2)
|}.
#[export] Instance list_double_laws : DoubleQueueLaws list_double.
Proof.
  split; simpl; try done.
  - intros A [[a b] [l1 l2]] x. simpl. by destruct (room a l1).
  - intros A [[a b] [l1 l2]] x. simpl. by destruct (room b l2).
  - intros A [[a b] [[|x l1] [|y l2]]]; done.
Qed.
End ListDouble.

(** Packs are texts, written with a mark before each byte. *)
Module TextPacks.
Definition mark : ascii := ascii_of_N 1.
Fixpoint write (p : bytes) : bytes := match p with [] => [zero] | c :: p => mark :: c :: write p end.
Fixpoint read (s : bytes) : res bytes :=
  match s with
  | x :: s => if bool_decide (x = zero) then Ret [] else match s with c :: s => p ← read s; Ret (c :: p) | [] => Panic end
  | [] => Panic
  end.
Lemma read_write p rest : read (write p ++ rest) = Ret p.
Proof. induction p as [|c p IH]; simpl; [done|]. by rewrite IH. Qed.
#[export] Instance text_packs : PackI := {|
  pack := bytes; GetPackType _ := 0; stamp _ p := p; SetTime _ p := p; SetUuid p := p; PutTag _ _ p := p;
  PACK_COUNTER_1 := 1; PACK_TEXT := 2; PACK_STAT_GENERAL := 3; PACK_STAT_USER_AGENT := 4; PACK_EVENT := 5; TAG_COUNT := 6
|}%Z.
#[export] Instance text_bytes : PackBytes := {|
  ToBytesPack := write;
  ToBytesPackECB p n := Cypher.padded (Z.to_nat n) (write p);
  ToPack := read;
  NewLogSinkPack := str "log sink"; PutLogSink _ _ _ _ content _ _ := content;
  EVENT_LEVEL_CRITICAL := 30; EVENT_STATUS_ON := 1
|}%Z.
End TextPacks.

(** Names whose hash is their length. *)
#[export] Instance plain_strings : StringUtil := {|
  Split s _ := [s]; Tokenizer s _ := [s]; TrimEmpty s := s; HashCode s := Z.of_nat (length s);
  HashStr s := Z.of_nat (length s)
|}.

(** A server that accepts the agent 7 named "ab", and sends these keys. *)
Module Server.
Import BigEndian.
Definition conf (level : Z) : NetConf :=
  mkNetConf level (str "key") [str "host"] 6600 false 10 10 1000 40 true 1000000 false 7 2.
Definition keys : Secure := mkSecure 7 0 [] 0 0 (Cypher.mk 0 None []) 0 0 None.
Definition key_data : bytes := write 4 11 ++ write_bytes (str "0123456789abcdef") ++ write 4 5 ++ write 4 0.
(** The reply, with the data hidden as the settings say, and frames after it. *)
Definition reply (level : Z) (frames : bytes) : bytes :=
  write 1 1 ++ write 1 255 ++ write 8 7 ++ write 4 2 ++ write 4 0 ++ write_bytes key_data ++ frames.
Definition dial (level : Z) (room : option nat) (frames : bytes) : option TcpSession.Dial :=
  Some (TcpSession.mkDial (reply level frames) room 1 (str "ab") true []).
End Server.
