(* ===== verification/NetFacts.v ===== *)
(** What is sent on the connection arrives in order and whole, and what the connection
    loses is sent again; what the receiver accepts. *)

From S2P Require Import Prelude UrlPattern DataPack NetCypher NetFrame NetSession NetSender NetSamples.

(** * The writer *)

Module bufioFacts.
Import bufio.
(** What has been given to the writer. *)
Definition stream (w : Writer) : bytes := wire (conn w) ++ buf w.
Definition ok (w : Writer) : Prop := length (buf w) <= size w /\ 0 < size w.

(** [w'] has taken all of [p], or failed with part of it on the wire. *)
Record took (w w' : Writer) (p : bytes) (e : bool) : Prop := {
  took_ok : ok w'; took_size : size w' = size w; took_err : err w' = e;
  took_wire : wire (conn w) `prefix_of` wire (conn w');
  took_all : e = false -> stream w' = stream w ++ p;
  took_part : e = true -> wire (conn w') `prefix_of` stream w ++ p;
  took_open : room (conn w) = None -> e = false /\ room (conn w') = None
}.

Lemma conn_Write_spec c p c' n e :
  conn_Write c p = (c', n, e) ->
  wire c' = wire c ++ take n p /\ n <= length p /\ (e = false -> n = length p) /\
  (room c = None -> e = false /\ room c' = None).
Proof.
  unfold conn_Write. destruct (room c) as [k|]; [case_decide|]; intros [= <- <- <-]; simpl.
  - by rewrite firstn_all.
  - repeat split; [lia|done..].
  - by rewrite firstn_all.
Qed.

Lemma Flush_took w w' e : ok w -> err w = false -> Flush w = (w', e) -> took w w' [] e /\ (e = false -> buf w' = []).
Proof.
  intros [Hl Hs] He. unfold Flush. rewrite He. destruct (buf w) as [|x b] eqn:Hb.
  - intros [= <- <-]. split; [|done]. split; try done. { split; [by rewrite Hb|done]. }
    intros _. by rewrite app_nil_r.
  - rewrite <- Hb in Hl |- *. destruct (conn_Write (conn w) (buf w)) as [[c n] e'] eqn:Hc.
    apply conn_Write_spec in Hc as (Hw & Hn & Ha & Ho). unfold stream.
    destruct e'; intros [= <- <-]; (split; [|done]); split; simpl; try done; unfold stream, ok; simpl.
    + rewrite length_drop. lia.
    + rewrite Hw. by exists (take n (buf w)).
    + rewrite Hw, app_nil_r. intros _. apply prefix_app. apply prefix_take.
    + split; [lia|done].
    + rewrite Hw. by exists (take n (buf w)).
    + intros _. by rewrite Hw, Ha, firstn_all, !app_nil_r by done.
Qed.

(** From an empty buffer one write to the connection is enough. *)
Lemma write_loop_empty w p :
  ok w -> err w = false -> buf w = [] ->
  exists w' rest, write_loop 1 w p = Ret (w', rest) /\ took w w' (take (length p - length rest) p) (err w') /\
    rest = drop (length p - length rest) p /\ (err w' = false -> length rest <= Available w').
Proof.
  intros Hok He Hb. simpl. unfold Available. rewrite Hb. simpl length. rewrite Nat.sub_0_r.
  destruct (decide (size w < length p /\ err w = false)) as [[Hl _]|Hn].
  - destruct (conn_Write (conn w) p) as [[c n] e] eqn:Hc.
    apply conn_Write_spec in Hc as (Hw & Hn & Ha & Ho). simpl. unfold Available. simpl.
    rewrite decide_False.
    2:{ rewrite length_drop. intros [H1 H2]. rewrite Ha in H1 by done. lia. }
    exists (mk (size w) [] e c), (drop n p). rewrite length_drop. simpl.
    replace (length p - (length p - n)) with n by lia. split; [done|]. split; [|split; [done|]].
    + split; simpl; try done; unfold stream, ok; simpl.
      * split; [lia|apply Hok].
      * rewrite Hw. by exists (take n p).
      * intros _. by rewrite Hw, Hb, !app_nil_r.
      * intros _. by rewrite Hw, Hb, !app_nil_r.
    + intros ->. rewrite Ha by done. lia.
  - exists w, p. rewrite Nat.sub_diag. split; [done|]. split; [|split; [done|]].
    + rewrite He. split; try done. intros _. by rewrite app_nil_r.
    + intros _. rewrite Hb. simpl. destruct (decide (size w < length p)); [tauto|lia].
Qed.

Lemma took_trans w w1 w2 p q e :
  took w w1 p false -> took w1 w2 q e -> took w w2 (p ++ q) e.
Proof.
  intros [O1 S1 E1 W1 A1 P1 N1] [O2 S2 E2 W2 A2 P2 N2]. split; try done.
  - by rewrite S2.
  - by etransitivity.
  - intros H. by rewrite A2, A1, app_assoc.
  - intros H. rewrite app_assoc, <- A1 by done. by apply P2.
  - intros H. apply N2. by apply N1.
Qed.
Lemma took_error w w' p q : took w w' p true -> took w w' (p ++ q) true.
Proof.
  intros [O1 S1 E1 W1 A1 P1 N1]. split; try done.
  intros _. rewrite app_assoc. by apply prefix_app_r, P1.
Qed.

Lemma write_loop_S fuel w p :
  write_loop (S fuel) w p =
    if decide (Available w < length p /\ err w = false) then
      match buf w with
      | [] => let '(c, n, e) := conn_Write (conn w) p in write_loop fuel (mk (size w) [] e c) (drop n p)
      | b => write_loop fuel (Flush (mk (size w) (b ++ take (Available w) p) false (conn w))).1 (drop (Available w) p)
      end
    else Ret (w, p).
Proof. done. Qed.
Lemma write_loop_done fuel w p : ~ (Available w < length p /\ err w = false) -> write_loop fuel w p = Ret (w, p).
Proof. intros H. destruct fuel; simpl; by rewrite decide_False by done. Qed.
Lemma write_loop_spec w p :
  ok w -> err w = false ->
  exists w' rest, write_loop write_fuel w p = Ret (w', rest) /\ took w w' (take (length p - length rest) p) (err w') /\
    rest = drop (length p - length rest) p /\ (err w' = false -> length rest <= Available w').
Proof.
  intros Hok He. unfold write_fuel. destruct (buf w) as [|x b] eqn:Hb.
  { destruct (write_loop_empty w p Hok He Hb) as (w' & rest & E & H). exists w', rest. split; [|done].
    rewrite write_loop_S in E |- *. case_decide; [|done]. rewrite Hb in E |- *.
    destruct (conn_Write (conn w) p) as [[c n] e]. cbn [write_loop] in E. case_decide; [done|].
    by rewrite write_loop_done. }
  rewrite write_loop_S. destruct (decide (Available w < length p /\ err w = false)) as [[Hl _]|Hn].
  2:{ exists w, p. rewrite Nat.sub_diag. repeat split; try done; [apply Hok|apply Hok|..].
      - intros _. by rewrite app_nil_r.
      - intros H. congruence.
      - intros _. destruct (decide (Available w < length p)); [tauto|lia]. }
  rewrite Hb. cbn iota. rewrite <- Hb. set (n := Available w).
  set (w0 := mk (size w) (buf w ++ take n p) false (conn w)).
  assert (took w w0 (take n p) false) as T0.
  { split; try done; unfold stream, ok; simpl.
    - rewrite length_app, length_take. destruct Hok. subst n. unfold Available. lia.
    - intros _. by rewrite app_assoc. }
  destruct (Flush w0) as [w1 e1] eqn:HF.
  destruct (Flush_took w0 w1 e1) as [T1 Hb1]; [apply T0|done|done|]. simpl fst.
  assert (took w w1 (take n p) e1) as T2 by (rewrite <- (app_nil_r (take n p)); by eapply took_trans).
  destruct e1.
  - pose proof (took_err _ _ _ _ T2) as E1. exists w1, (drop n p). rewrite length_drop, E1.
    replace (length p - (length p - n)) with n by lia.
    rewrite write_loop_done by (rewrite E1; naive_solver). done.
  - destruct (write_loop_empty w1 (drop n p)) as (w' & rest & E & T3 & Hr & Ha).
    { apply T2. } { apply T2. } { by apply Hb1. }
    exists w', rest. rewrite E. split; [done|].
    assert (length rest <= length p - n) as Hlen.
    { apply (f_equal length) in Hr. rewrite !length_drop in Hr. lia. }
    rewrite length_drop in T3, Hr. rewrite drop_drop in Hr.
    split; [|split; [|done]].
    + replace (take (length p - length rest) p) with (take n p ++ take (length p - n - length rest) (drop n p)).
      { by eapply took_trans. }
      replace (length p - length rest) with (n + (length p - n - length rest)) by lia.
      by rewrite <- take_take_drop.
    + rewrite Hr at 1. f_equal. lia.
Qed.

(** A write takes everything, or fails. *)
Lemma Write_took w p :
  ok w -> err w = false ->
  exists w' n e, Write w p = Ret (w', n, e) /\ took w w' p e /\ (e = false -> n = length p).
Proof.
  intros Hok He. unfold Write.
  destruct (write_loop_spec w p Hok He) as (w' & rest & -> & T & Hr & Ha). cbn [mbind res_bind].
  destruct (err w') eqn:E.
  - eexists _, _, _. split; [done|]. split; [|done]. 
    rewrite <- (take_drop (length p - length rest) p). by apply took_error.
  - eexists _, _, _. split; [done|]. split; [|done].
    rewrite <- (take_drop (length p - length rest) p), <- Hr. eapply took_trans; [exact T|].
    destruct T as [[O1 O2] S1 E1 W1 A1 P1 N1]. split; simpl; try done; unfold stream, ok; simpl.
    + rewrite length_app. specialize (Ha eq_refl). unfold Available in Ha. lia.
    + intros _. by rewrite app_assoc.
Qed.
End bufioFacts.

(** * The session *)

Section SessionFacts.
Context {A : Aes} {D : DataIO} {DL : DataIOLaws D} {SU : StringUtil} {PI : PackI} {PB : PackBytes} {RQ : RequestQueue}
  {QL : QueueLaws RQ}.
Import TcpSession.
Variable conf : NetConf.

Definition wire_of (this : t) : bytes := match wr this with Some w => wire (bufio.conn w) | None => [] end.
Definition items (this : t) : list TcpSend := q_items (RetryQueue this).
(** An open session has a writer that has not failed. *)
Definition live (this : t) : Prop :=
  client this = true -> exists w, wr this = Some w /\ bufioFacts.ok w /\ bufio.err w = false.

Lemma wire_of_Close this : wire_of (Close this) = wire_of this.
Proof. unfold wire_of, Close. destruct (client this); [|done]. simpl. by destruct (wr this). Qed.
Lemma Retry_Close this : RetryQueue (Close this) = RetryQueue this.
Proof. unfold Close. by destruct (client this). Qed.
Lemma items_Close this : items (Close this) = items this.
Proof. unfold items. by rewrite Retry_Close. Qed.
Lemma client_Close this : client (Close this) = false.
Proof. unfold Close. by destruct (client this). Qed.

Lemma session_Write this w p :
  wr this = Some w -> bufioFacts.ok w -> bufio.err w = false ->
  exists w' e, Write this p = Ret (this <| wr := Some w' |>, e) /\ bufioFacts.took w w' p e.
Proof.
  intros Hw Hok He. unfold Write. rewrite Hw. destruct p as [|x p].
  - exists w, false. split; [done|]. split; try done. intros _. by rewrite app_nil_r.
  - cbn [write_loop]. destruct (bufioFacts.Write_took w (x :: p) Hok He) as (w' & n & e & -> & T & Hn).
    cbn [mbind res_bind]. destruct e; [by exists w', true|]. rewrite Hn, drop_all by done. by exists w', false.
Qed.
Lemma session_Flush this w this' r :
  wr this = Some w -> bufioFacts.ok w -> bufio.err w = false -> Flush this = Ret (this', r) ->
  exists w', this' = this <| wr := Some w' |> /\ bufioFacts.took w w' [] (negb (bool_decide (is_Some r))) /\
    (is_Some r -> bufio.buf w' = []).
Proof.
  intros Hw Hok He. unfold Flush. rewrite Hw. destruct (bufio.Flush w) as [w' e] eqn:HF.
  intros [= <- <-]. destruct (bufioFacts.Flush_took w w' e Hok He HF) as [T Hb]. exists w'.
  split; [done|]. destruct e; simpl; (split; [exact T|]); [by intros []|by intros _; apply Hb].
Qed.

(** [Send] on an open session: the frame is taken, and out when it is to be flushed; or
    the session is closed and the retry queue is as it was. *)
Lemma Send_open s code b flush this :
  live this -> client this = true ->
  let '(this', r) := Send conf s true code b flush this in
  (exists w w', wr this = Some w /\ wr this' = Some w' /\ client this' = true /\
     bufioFacts.took w w' (write_frame (frame s code b)) false /\
     (if flush then bufio.buf w' = [] /\ RetryQueue this' = q_Clear (RetryQueue this)
      else RetryQueue this' = RetryQueue this)) \/
  (client this' = false /\ RetryQueue this' = RetryQueue this /\ wire_of this `prefix_of` wire_of this').
Proof.
  intros HL Hc. destruct (HL Hc) as (w & Hw & Hok & He). unfold Send. rewrite Hc. simpl negb. cbn iota.
  destruct (session_Write this w (write_frame (frame s code b)) Hw Hok He) as (w1 & e & -> & T).
  assert (wire_of this `prefix_of` wire_of (this <| wr := Some w1 |>)) as Hpre.
  { unfold wire_of. simpl. rewrite Hw. apply T. }
  destruct e.
  { right. rewrite client_Close, Retry_Close, wire_of_Close. done. }
  destruct flush.
  2:{ left. by exists w, w1. }
  set (this1 := this <| wr := Some w1 |>) in *.
  destruct (Flush this1) as [[this2 r]| |] eqn:HF; [|unfold Flush in HF; simpl in HF; by destruct (bufio.Flush w1)..].
  destruct (session_Flush this1 w1 this2 r eq_refl) as (w2 & -> & T2 & Hb); [apply T|apply T|done|].
  destruct r as [n|].
  - left. exists w, w2. split; [done|]. simpl in T2. split; [by unfold meter; destruct (MeterSelfEnabled conf)|].
    split; [by unfold meter; destruct (MeterSelfEnabled conf)|].
    split; [rewrite <- (app_nil_r (write_frame _)); by eapply bufioFacts.took_trans|].
    split; [by apply Hb|]. unfold meter. by destruct (MeterSelfEnabled conf).
  - right. rewrite client_Close, Retry_Close, wire_of_Close. split; [done|]. split; [done|].
    etransitivity; [exact Hpre|]. unfold wire_of, this1. simpl. apply T2.
Qed.
Lemma Send_closed s dl code b flush this : client this = false -> Send conf s dl code b flush this = (this, false).
Proof. intros H. unfold Send. by rewrite H. Qed.
Lemma Send_no_deadline s code b flush this : Send conf s false code b flush this = (this, false).
Proof. unfold Send. by destruct (client this). Qed.

(** ** Data *)

Definition sec_ok (s : Secure) : Prop := match session_Cypher s with Some c => Cypher.xor_key c <> [] | None => True end.
Lemma payload_returns s p : sec_ok s -> returns (Sender.payload conf s p).
Proof.
  unfold sec_ok, Sender.payload. intros Hs. repeat case_match; try by eexists.
  - destruct (Cypher.Hide_Hide t0 (ToBytesPack (tpack p)) Hs) as (h & -> & _). by eexists.
  - apply Cypher.Encrypt_returns.
Qed.
(** A pack whose mode is one of the two that hide, or a connection that hides nothing. *)
Definition modes_ok (p : TcpSend) : Prop :=
  CypherLevel conf = 0%Z \/ GetSecureMask (flag p) = NET_SECURE_HIDE \/ GetSecureMask (flag p) = NET_SECURE_CYPHER.
(** Its data is then made for a retry as it was the first time. *)
Lemma getEncryptData_payload s dnow p :
  modes_ok p -> exists ns, getEncryptData conf s dnow p = (b ← Sender.payload conf s p; Ret (length b, b, ns (length b))).
Proof.
  intros Hm. exists (fun n => if (NetSendMaxBytes conf <? Z.of_nat n)%Z then [tooBig conf dnow] else []).
  unfold getEncryptData, Sender.payload. destruct (CypherLevel conf =? 0)%Z eqn:E0; [done|].
  destruct (GetSecureMask (flag p) =? NET_SECURE_HIDE)%Z eqn:E1.
  { destruct (session_Cypher s) as [c|]; [|done]. by destruct (Cypher.Hide c (ToBytesPack (tpack p))). }
  destruct (GetSecureMask (flag p) =? NET_SECURE_CYPHER)%Z eqn:E2.
  { destruct (session_Cypher s) as [c|]; [|done]. by destruct (Cypher.Encrypt c _). }
  exfalso. apply Z.eqb_neq in E0, E1, E2. unfold modes_ok in Hm. tauto.
Qed.
Definition pack_frame (s : Secure) (p : TcpSend) : Frame :=
  frame s (flag p) (match Sender.payload conf s p with Ret b => b | _ => [] end).
Lemma pack_frame_eq s p b : Sender.payload conf s p = Ret b -> pack_frame s p = frame s (flag p) b.
Proof. intros H. unfold pack_frame. by rewrite H. Qed.
Definition frames_bytes (fs : list Frame) : bytes := concat (write_frame <$> fs).
Lemma frames_bytes_app fs gs : frames_bytes (fs ++ gs) = frames_bytes fs ++ frames_bytes gs.
Proof. unfold frames_bytes. by rewrite fmap_app, concat_app. Qed.

Lemma frames_bytes_1 f : frames_bytes [f] = write_frame f.
Proof. unfold frames_bytes. simpl. apply app_nil_r. Qed.

(** Retrying to a connection that lasts writes every pack of the queue. *)
Lemma failover_loop_all s dnow ps this w :
  sec_ok s -> items this = ps -> Forall modes_ok ps -> wr this = Some w -> bufioFacts.ok w -> bufio.err w = false ->
  room (bufio.conn w) = None ->
  exists this' w' ns, failover_loop conf s dnow (length ps) this = (this', ns, Ret true) /\
    wr this' = Some w' /\ bufioFacts.took w w' (frames_bytes (pack_frame s <$> ps)) false /\ client this' = client this.
Proof.
  intros Hs. revert this w. induction ps as [|p ps IH]; intros this w Hi Hm Hw Hok He Hr.
  - exists this, w, []. split; [done|]. split; [done|]. split; [|done]. split; try done. intros _. by rewrite app_nil_r.
  - apply Forall_cons in Hm as [Hp Hm]. cbn [failover_loop length].
    pose proof (items_Get _ (RetryQueue this)) as HG. unfold items in Hi. rewrite Hi in HG.
    destruct (q_Get (RetryQueue this)) as [v q]. simpl in HG. destruct HG as [-> Hq].
    destruct (getEncryptData_payload s dnow p Hp) as [ns ->].
    destruct (payload_returns s p Hs) as [b Hb]. rewrite Hb. cbn [mbind res_bind].
    set (this1 := this <| RetryQueue := q |>).
    destruct (session_Write this1 w (write_frame (frame s (flag p) b)) Hw Hok He) as (w1 & e & -> & T).
    destruct (bufioFacts.took_open _ _ _ _ T Hr) as [-> Hr1].
    destruct (IH (this1 <| wr := Some w1 |>) w1) as (this' & w' & ns' & E & Hw' & T' & Hc); try done.
    { apply T. } { apply T. }
    rewrite E. exists this', w', (ns (length b) ++ ns'). split; [done|]. split; [done|]. split; [|by rewrite Hc].
    rewrite fmap_cons, (pack_frame_eq s p b Hb). unfold frames_bytes. rewrite fmap_cons. cbn [concat].
    by eapply bufioFacts.took_trans.
Qed.

(** ** Opening *)

Lemma UpdateNetCypherKey_ok data s : sec_ok s -> sec_ok (UpdateNetCypherKey conf data s).1.
Proof.
  intros Hs. unfold UpdateNetCypherKey. repeat case_match; try exact Hs; unfold sec_ok; simpl; apply io_key.
Qed.

(** What comes before the frames on a connection. *)
Definition is_lead (lead : bytes) : Prop :=
  exists s, lead = keyReset conf s \/ exists addr, lead = keyResetToFowarder conf addr ++ keyReset conf s.

(** What an attempt does to the session: nothing to the writer and the retry queue; or
    the packs of the retry queue are on the wire of the new connection, which is open. *)
Definition attempt (s' : Secure) (this this' : t) : Prop :=
  (client this' = false /\ wr this' = wr this /\ items this' = items this) \/
  (client this' = true /\ items this' = [] /\ exists w lead, wr this' = Some w /\ bufioFacts.ok w /\ bufio.err w = false /\
     bufio.buf w = [] /\ is_lead lead /\ (NetFailoverRetrySendDataEnabled conf = true ->
       wire (bufio.conn w) = lead ++ frames_bytes (pack_frame s' <$> items this))).
Lemma attempt_fail s' this this1 :
  client this = false -> wr this1 = wr this -> client this1 = false -> items this1 = items this -> attempt s' this (Close this1).
Proof.
  intros Hc Hw Hc1 Hi. left. rewrite client_Close, items_Close. unfold Close. rewrite Hc1. done.
Qed.

Lemma handshake_attempt now dnow c stream s this :
  sec_ok s -> client this = false -> Forall modes_ok (items this) -> room c = None ->
  (wire c = [] \/ exists addr, wire c = keyResetToFowarder conf addr) ->
  let '(s', this', _, _) := handshake conf now dnow c stream s this in attempt s' this this' /\ sec_ok s'.
Proof.
  intros Hs Hc Hm Hr Hlead. unfold handshake.
  destruct (conn_Write c (keyReset conf s)) as [[c1 n1] e1] eqn:HC.
  apply bufioFacts.conn_Write_spec in HC as (Hw & _ & Hn & Ho). destruct (Ho Hr) as [-> Hr1].
  assert (is_lead (wire c1)) as Hl1.
  { exists s. rewrite Hw, Hn, firstn_all by done. destruct Hlead as [-> |[a ->]]; [by left|right; by exists a]. }
  destruct (readKeyReset s stream) as [[data rest]| |]; [|split; [by apply attempt_fail|done]..].
  pose proof (UpdateNetCypherKey_ok data s Hs) as Hs'.
  destruct (UpdateNetCypherKey conf data s) as [s' ok]. simpl in Hs'.
  destruct ok; cbn [negb]; [|split; [by apply attempt_fail|done]].
  set (this1 := this <| in_ := rest |> <| wr := Some (bufio.NewWriterSize c1 (NetWriteBufferSize conf)) |> <| LastConnectedTime := now |>).
  set (w1 := bufio.NewWriterSize c1 (NetWriteBufferSize conf)).
  assert (bufioFacts.ok w1) as Hok.
  { unfold bufioFacts.ok, w1, bufio.NewWriterSize. simpl. destruct (Z.leb_spec (NetWriteBufferSize conf) 0); lia. }
  assert (forall (this2 : t) w2, wr this2 = Some w2 -> bufioFacts.ok w2 -> bufio.err w2 = false -> bufio.buf w2 = [] ->
    (NetFailoverRetrySendDataEnabled conf = true -> wire (bufio.conn w2) = wire c1 ++ frames_bytes (pack_frame s' <$> items this)) ->
    attempt s' this (this2 <| RetryQueue ::= q_Clear |> <| client := true |>)) as Hdone.
  { intros this2 w2 H1 H2 H3 H4 H5. right. split; [done|]. split; [apply (items_Clear _ (RetryQueue this2))|]. by exists w2, (wire c1). }
  destruct (NetFailoverRetrySendDataEnabled conf) eqn:Hf; [|split; [by apply (Hdone this1 w1)|done]].
  unfold SendFailover. change (q_items (RetryQueue this1)) with (items this).
  destruct (items this) as [|p ps] eqn:Hi; cbn [length].
  { split; [|done]. apply (Hdone this1 w1); try done. intros _. simpl. by rewrite app_nil_r. }
  destruct (failover_loop_all s' dnow (p :: ps) this1 w1) as (this2 & w2 & ns & E & Hw2 & T & Hc2); try done.
  cbn [length] in E. rewrite E. cbn iota.
  destruct (bufioFacts.took_open _ _ _ _ T Hr1) as [_ Hr2].
  destruct (Flush this2) as [[this3 r]| |] eqn:HF; [|unfold Flush in HF; rewrite Hw2 in HF; by destruct (bufio.Flush w2)..].
  destruct (session_Flush this2 w2 this3 r Hw2) as (w3 & -> & T3 & Hb3); [apply T|apply T|done|].
  destruct r as [k|]; [|destruct (bufioFacts.took_open _ _ _ _ T3 Hr2); done].
  split; [|done]. apply (Hdone _ w3); [by unfold meter; destruct (MeterSelfEnabled conf)|apply T3|apply T3|by apply Hb3|].
  intros _. pose proof (bufioFacts.took_all _ _ _ _ (bufioFacts.took_trans _ _ _ _ _ _ T T3) eq_refl) as HS.
  unfold bufioFacts.stream in HS. rewrite Hb3, !app_nil_r in HS by done. exact HS.
Qed.

Lemma open_attempt now dnow dial s this :
  sec_ok s -> client this = false -> Forall modes_ok (items this) -> (forall d, dial = Some d -> d_room d = None) ->
  let '(s', this', _, _) := open conf now dnow dial s this in attempt s' this this' /\ sec_ok s'.
Proof.
  intros Hs Hc Hm Hd. unfold open, isOpen. rewrite Hc.
  destruct (bool_decide (TrimSpace (AccessKey conf) = [])); [split; [by left|done]|].
  destruct (bool_decide (WhatapHost conf = [])); [split; [by apply attempt_fail|done]|].
  set (this1 := set dest _ this).
  destruct (FowarderEnabled conf).
  - destruct dial as [d|]; [|split; [by apply attempt_fail|done]].
    destruct (conn_Write _ _) as [[c n] e] eqn:HC. apply bufioFacts.conn_Write_spec in HC as (Hw & _ & Hn & Ho).
    destruct (Ho (Hd d eq_refl)) as [-> Hr]. rewrite Hn, firstn_all in Hw by done.
    destruct (readKeyResetFromFowarder (d_local d) (d_in d)) as [[[[pcode ip] data] rest]|]; [|split; [by apply attempt_fail|done]].
    destruct (_ =? 0)%Z; [split; [by apply attempt_fail|done]|].
    destruct (d_named d); cbn [negb]; [|split; [by apply attempt_fail|done]].
    match goal with |- context [handshake conf _ _ _ _ ?s1 this1] =>
      exact (handshake_attempt now dnow c rest s1 this1 Hs Hc Hm Hr (or_intror (ex_intro _ _ Hw))) end.
  - destruct (_ =? 0)%Z; [split; [by apply attempt_fail|done]|].
    destruct dial as [d|]; [|split; [by apply attempt_fail|done]].
    destruct (d_named d); cbn [negb]; [|split; [by apply attempt_fail|done]].
    match goal with |- context [handshake conf _ _ _ _ ?s1 this1] =>
      exact (handshake_attempt now dnow (mkConn [] (d_room d)) (d_in d) s1 this1 Hs Hc Hm (Hd d eq_refl) (or_introl eq_refl)) end.
Qed.
End SessionFacts.

(** * Runs *)

Section Delivery.
Context {A : Aes} {D : DataIO} {DL : DataIOLaws D} {SU : StringUtil} {PI : PackI} {PB : PackBytes} {RQ : RequestQueue}
  {QL : QueueLaws RQ} {DQ : DoubleQueue}.
Import Sender.

(** The frame of a pack, whole, under the keys of some session, after the exchange of keys
    and other frames. *)
Definition delivered (cf : NetConf) (wires : list bytes) (p : TcpSend) : Prop :=
  exists W lead s b fs r, W ∈ wires /\ is_lead cf lead /\ payload cf s p = Ret b /\
    W = lead ++ frames_bytes (fs ++ [frame s (flag p) b]) ++ r.

(** A run with what it has sent, and the wires of the connections before the present one. *)
Record Log := mkLog { sent : list TcpSend; past : list bytes; net : Net }.
Definition transmitted (n : Net) (e : event) : list TcpSend :=
  match e, holding n with
  | EvTransmit _, Some p =>
      if TcpSession.isOpen (session n) && (cypher_level n =? CypherLevel (conf n))%Z then [p] else []
  | _, _ => []
  end.
Definition log_step (g : Log) (e : event) : Log :=
  mkLog (sent g ++ transmitted (net g) e)
    (match e with EvOpen _ _ _ => wire_of (session (net g)) :: past g | _ => past g end) (step (net g) e).
Definition log_run (g : Log) (es : list event) : Log := foldl log_step g es.

(** The settings stay, the retry queue has room, deadlines can be set, what is sent is
    hidden when anything is, and a new connection lasts until the retry is over. *)
Definition orderly (n : Net) (e : event) : Prop :=
  match e with
  | EvTransmit t =>
      dl_send t = true /\ q_room (TcpSession.RetryQueue (session n)) = true /\
      match holding n with Some p => modes_ok (conf n) p | None => True end
  | EvOpen _ _ dial => match dial with Some d => TcpSession.d_room d = None | None => True end
  | EvConf _ => False
  | _ => True
  end.
Fixpoint orderly_run (n : Net) (es : list event) : Prop :=
  match es with [] => True | e :: es => orderly n e /\ orderly_run (step n e) es end.

Definition pending (cf : NetConf) (ps : list bytes) (this : TcpSession.t) (p : TcpSend) : Prop :=
  delivered cf (wire_of this :: ps) p \/ p ∈ items this.
(** What was taken since some point of the wire is what the retry queue holds. *)
Definition covered (cf : NetConf) (s : Secure) (this : TcpSession.t) : Prop :=
  TcpSession.client this = true ->
  exists w lead fs, TcpSession.wr this = Some w /\ bufioFacts.ok w /\ bufio.err w = false /\ is_lead cf lead /\
    lead ++ frames_bytes fs `prefix_of` wire (bufio.conn w) /\
    bufioFacts.stream w = lead ++ frames_bytes (fs ++ (pack_frame cf s <$> items this)).
Record sound (cf : NetConf) (g : Log) : Prop := {
  s_conf : conf (net g) = cf;
  s_keys : sec_ok (sec (net g));
  s_modes : Forall (modes_ok cf) (items (session (net g)));
  s_covered : covered cf (sec (net g)) (session (net g));
  s_sent : Forall (pending cf (past g) (session (net g))) (sent g)
}.

Lemma delivered_mono cf ws W W' p : W `prefix_of` W' -> delivered cf (W :: ws) p -> delivered cf (W' :: ws) p.
Proof.
  intros [x ->] (V & lead & s & b & fs & r & HV & Hl & Hp & HE). apply elem_of_cons in HV as [->|HV].
  - exists (W ++ x), lead, s, b, fs, (r ++ x). split; [apply list_elem_of_here|]. split; [done|]. split; [done|].
    rewrite HE at 1. by rewrite <- !app_assoc.
  - exists V, lead, s, b, fs, r. split; [by apply list_elem_of_further|done].
Qed.
Lemma delivered_more cf ws ws' p : (forall W, W ∈ ws -> W ∈ ws') -> delivered cf ws p -> delivered cf ws' p.
Proof. intros H (W & lead & s & b & fs & r & HW & HE). exists W, lead, s, b, fs, r. split; [by apply H|done]. Qed.
Lemma frames_delivered cf s ws W lead fs ps r p :
  sec_ok s -> is_lead cf lead -> W = lead ++ frames_bytes (fs ++ (pack_frame cf s <$> ps)) ++ r -> p ∈ ps -> delivered cf (W :: ws) p.
Proof.
  intros Hs Hl -> (l1 & l2 & ->)%list_elem_of_split.
  destruct (payload_returns cf s p Hs) as [b Hb].
  eexists _, lead, s, b, (fs ++ (pack_frame cf s <$> l1)), (frames_bytes (pack_frame cf s <$> l2) ++ r).
  split; [apply list_elem_of_here|]. split; [done|]. split; [done|].
  rewrite fmap_app, fmap_cons, (pack_frame_eq cf s p b Hb), (cons_middle _ (pack_frame cf s <$> l1)).
  by rewrite (app_assoc fs), (app_assoc (_ ++ _)), (frames_bytes_app _ (pack_frame cf s <$> l2)), <- !app_assoc.
Qed.
Lemma covered_live cf s this : covered cf s this -> live this.
Proof. intros H Hc. destruct (H Hc) as (w & lead & fs & H1 & H2 & H3 & _). by exists w. Qed.

(** A frame that is flushed delivers the retry queue; one that is not leaves it. *)
Lemma Send_sync_pending cf s dl code b ps this this' r :
  sec_ok s -> covered cf s this -> TcpSession.Send cf s dl code b true this = (this', r) ->
  covered cf s this' /\ (forall p, pending cf ps this p -> pending cf ps this' p) /\
  (TcpSession.RetryQueue this' = TcpSession.RetryQueue this \/
   TcpSession.RetryQueue this' = q_Clear (TcpSession.RetryQueue this)).
Proof.
  intros Hs HC HE. destruct (TcpSession.client this) eqn:Hc.
  2:{ rewrite Send_closed in HE by done. simplify_eq. auto. }
  destruct dl; [|rewrite Send_no_deadline in HE; simplify_eq; auto].
  pose proof (Send_open cf s code b true this (covered_live _ _ _ HC) Hc) as HS. rewrite HE in HS.
  destruct (HC Hc) as (w0 & lead & fs & Hw0 & Hok & Herr & Hl & HF & Hst).
  destruct HS as [(w & w' & Hw & Hw' & Hc' & T & Hb & HR)|(Hc' & HR & Hpre)].
  - simplify_eq. assert (items this' = []) as Hi by (unfold items; rewrite HR; apply items_Clear).
    pose proof (bufioFacts.took_all _ _ _ _ T eq_refl) as Ha. unfold bufioFacts.stream in Ha at 1.
    rewrite Hb, app_nil_r, Hst, <- app_assoc in Ha.
    split; [|split; [|by right]].
    + intros _. exists w', lead, (fs ++ (pack_frame cf s <$> items this) ++ [frame s code b]). rewrite Hi.
      split; [done|]. split; [apply T|]. split; [apply T|]. split; [done|].
      unfold bufioFacts.stream. rewrite Hb, Ha, !app_nil_r. rewrite (app_assoc fs), (frames_bytes_app (fs ++ _)), frames_bytes_1.
      done.
    + intros p [Hd|Hp]; left.
      * eapply delivered_mono; [|exact Hd]. unfold wire_of. rewrite Hw, Hw'. apply T.
      * unfold wire_of. rewrite Hw'. by apply (frames_delivered cf s ps _ lead fs (items this) _ p Hs Hl Ha).
  - split; [by intros ?; congruence|]. split; [|by left].
    intros p [Hd|Hp]; [left|right; unfold items in *; by rewrite HR]. by eapply delivered_mono.
Qed.
Lemma Send_pack_pending cf s b p ps this this' r :
  sec_ok s -> covered cf s this -> payload cf s p = Ret b -> q_room (TcpSession.RetryQueue this) = true ->
  TcpSession.Send cf s true (flag p) b (flush p) (this <| TcpSession.RetryQueue ::= fun q => q_PutForce q p |>) = (this', r) ->
  covered cf s this' /\ (forall q, pending cf ps this q \/ q = p -> pending cf ps this' q) /\
  (items this' = items this ++ [p] \/ items this' = []).
Proof.
  intros Hs HC Hp Hr HE. set (this1 := set TcpSession.RetryQueue _ this) in HE.
  assert (items this1 = items this ++ [p]) as Hi1.
  { unfold items. simpl. destruct (items_PutForce _ (TcpSession.RetryQueue this) p) as (d & k & E & E' & Hd).
    rewrite E', E, Hd by done. done. }
  assert (wire_of this1 = wire_of this) as Hw1 by done.
  assert (forall q, pending cf ps this q \/ q = p -> pending cf ps this1 q) as Hp1.
  { intros q [[Hd|Hq]| ->]; [by left|right..]; rewrite Hi1; set_solver. }
  destruct (TcpSession.client this) eqn:Hc.
  2:{ rewrite Send_closed in HE by done. simplify_eq. split; [by intros H; simpl in H; congruence|]. auto. }
  destruct (HC Hc) as (w0 & lead & fs & Hw0 & Hok & Herr & Hl & HF & Hst).
  assert (live this1) as HL by (intros _; by exists w0).
  pose proof (Send_open cf s (flag p) b (flush p) this1 HL Hc) as HS. rewrite HE in HS.
  destruct HS as [(w & w' & Hw & Hw' & Hc' & T & Hfl)|(Hc' & Hi & Hpre)].
  2:{ assert (items this' = items this1) as Hi' by (unfold items; by rewrite Hi).
      split; [by intros ?; congruence|]. split; [|left; by rewrite Hi'].
      intros q Hq. destruct (Hp1 q Hq) as [Hd|Hd]; [left|right; by rewrite Hi']. by eapply delivered_mono. }
  change (TcpSession.wr this = Some w) in Hw. simplify_eq.
  pose proof (bufioFacts.took_all _ _ _ _ T eq_refl) as Ha. rewrite Hst in Ha.
  assert (bufioFacts.stream w' = lead ++ frames_bytes (fs ++ (pack_frame cf s <$> items this1))) as Ha'.
  { rewrite Ha, Hi1, fmap_app, (app_assoc fs), (frames_bytes_app (fs ++ _)), <- !app_assoc. do 2 f_equal.
    rewrite fmap_cons, fmap_nil, (pack_frame_eq cf s p b Hp). by rewrite frames_bytes_1. }
  assert (wire (bufio.conn w0) `prefix_of` wire (bufio.conn w')) as HW by apply T.
  assert (forall q, delivered cf (wire_of this1 :: ps) q -> delivered cf (wire_of this' :: ps) q) as Hmono.
  { intros q. apply delivered_mono. rewrite Hw1. unfold wire_of. by rewrite Hw0, Hw'. }
  destruct (flush p).
  - destruct Hfl as [Hb HR]. assert (items this' = []) as Hi by (unfold items; rewrite HR; apply items_Clear).
    unfold bufioFacts.stream in Ha'. rewrite Hb, app_nil_r in Ha'.
    split; [|split; [|by right]].
    + intros _. exists w', lead, (fs ++ (pack_frame cf s <$> items this1)). rewrite Hi.
      split; [done|]. split; [apply T|]. split; [apply T|]. split; [done|].
      unfold bufioFacts.stream. by rewrite Hb, Ha', !app_nil_r.
    + intros q Hq. left. destruct (Hp1 q Hq) as [Hd|Hd]; [by apply Hmono|].
      unfold wire_of. rewrite Hw'. apply (frames_delivered cf s ps _ lead fs (items this1) [] q Hs Hl); [|done].
      by rewrite app_nil_r.
  - assert (items this' = items this1) as Hi by (unfold items; by rewrite Hfl). split; [|split; [|left; by rewrite Hi]].
    + intros _. exists w', lead, fs. rewrite Hi. split; [done|]. split; [apply T|]. split; [apply T|]. split; [done|].
      split; [by etransitivity|done].
    + intros q Hq. destruct (Hp1 q Hq) as [Hd|Hd]; [left; by apply Hmono|right; by rewrite Hi].
Qed.

(** ** Each step keeps the log sound *)

Lemma notices_same ps n :
  session (notices ps n) = session n /\ sec (notices ps n) = sec n /\ conf (notices ps n) = conf n.
Proof. unfold notices. revert n. induction ps as [|p ps IH]; intros n; [done|]. simpl. by destruct (IH (Send (flag p) (tpack p) (flush p) n)) as (-> & -> & ->). Qed.

Lemma runSend_take_same n :
  session (runSend_take n) = session n /\ sec (runSend_take n) = sec n /\ conf (runSend_take n) = conf n.
Proof.
  unfold runSend_take. destruct (holding n); [done|]. destruct (bool_decide _); by destruct (GetTimeout _).
Qed.

(** A step that only changes what is not on the wire or in the retry queue. *)
Lemma sound_quiet cf g n' ws :
  sound cf g -> conf n' = cf -> sec n' = sec (net g) -> items (session n') = items (session (net g)) ->
  wire_of (session n') = wire_of (session (net g)) -> covered cf (sec n') (session n') ->
  (forall W, W ∈ past g -> W ∈ ws) -> sound cf (mkLog (sent g ++ []) ws n').
Proof.
  intros [H1 H2 H3 H4 H5] Hc Hs Hi Hw HC Hsub. split; simpl; [done|by rewrite Hs|by rewrite Hi|done|].
  rewrite app_nil_r. eapply Forall_impl; [exact H5|]. intros p [Hd|Hp]; [left|right; by rewrite Hi].
  rewrite Hw. eapply delivered_more; [|exact Hd]. set_solver.
Qed.
Lemma covered_closed cf s this : TcpSession.client this = false -> covered cf s this.
Proof. intros H H'. congruence. Qed.
Lemma covered_break cf s this k : covered cf s this -> covered cf s (break k this).
Proof.
  intros H Hc. destruct (H Hc) as (w & lead & fs & Hw & Hok & He & Hl & HF & HS).
  eexists _, lead, fs. unfold break. simpl. rewrite Hw. split; [reflexivity|]. done.
Qed.
Lemma wire_of_break k this : wire_of (break k this) = wire_of this.
Proof. unfold wire_of, break. simpl. by destruct (TcpSession.wr this). Qed.

Lemma sound_receive cf g clock : sound cf g -> sound cf (log_step g (EvReceive clock)).
Proof.
  intros H. unfold log_step. cbn [transmitted step]. unfold receive.
  assert (sound cf (mkLog (sent g ++ []) (past g) (net g))) as H0.
  { apply (sound_quiet cf g (net g) (past g) H); try done; apply H. }
  destruct (TcpSession.isOpen (session (net g))) eqn:Ho; cbn [negb]; [|done].
  set (n1 := (net g) <| session := (TcpSession.Read (sec (net g)) (session (net g))).1 |>).
  assert (sound cf (mkLog (sent g ++ []) (past g) n1)) as H1.
  { apply (sound_quiet cf g n1 (past g) H); try done; unfold n1, TcpSession.Read; rewrite Ho; simpl; [apply H|..];
      destruct (read_frame _) as [[f rest]| |]; simpl; try (destruct (bool_decide _)); simpl;
      rewrite ?items_Close, ?wire_of_Close; try done; try apply H.
    all: apply covered_closed, client_Close. }
  subst n1. destruct (TcpSession.Read (sec (net g)) (session (net g))) as [this out]. simpl fst in H1.
  repeat (case_match; simpl; try exact H1).
Qed.

Lemma sound_open cf g clock dnow dial :
  NetFailoverRetrySendDataEnabled cf = true -> sound cf g -> orderly (net g) (EvOpen clock dnow dial) ->
  sound cf (log_step g (EvOpen clock dnow dial)).
Proof.
  intros Hf H Hd. unfold log_step. cbn [transmitted step]. unfold open.
  destruct (TcpSession.isOpen (session (net g))) eqn:Ho.
  { unfold TcpSession.open. rewrite Ho.
    destruct (notices_same [] ((net g) <| sec := sec (net g) |> <| session := session (net g) |>)) as (E1 & E2 & E3).
    apply (sound_quiet cf g _ _ H); try done; try apply H. set_solver. }
  destruct H as [H1 H2 H3 H4 H5]. rewrite H1.
  pose proof (open_attempt cf clock dnow dial (sec (net g)) (session (net g)) H2 Ho H3) as HA.
  destruct (TcpSession.open cf clock dnow dial (sec (net g)) (session (net g))) as [[[s' this'] ns] ok].
  destruct HA as [HA Hs']. { intros d ->. exact Hd. }
  set (n1 := (net g) <| sec := s' |> <| session := this' |>). destruct (notices_same ns n1) as (E1 & E2 & E3).
  split; simpl; rewrite ?E1, ?E2, ?E3; simpl; [done|done|..].
  all: destruct HA as [(Hc & Hw & Hi)|(Hc & Hi & w & lead & Hw & Hok & He & Hb & Hl & Hwire)].
  - by rewrite Hi.
  - rewrite Hi. constructor.
  - by apply covered_closed.
  - intros _. exists w, lead, (pack_frame cf s' <$> items (session (net g))). rewrite Hi.
    split; [done|]. split; [done|]. split; [done|]. split; [done|].
    unfold bufioFacts.stream. by rewrite Hb, (Hwire Hf), !app_nil_r.
  - rewrite app_nil_r. eapply Forall_impl; [exact H5|]. intros p [Hd'|Hp]; [left|right; by rewrite Hi].
    eapply delivered_more; [|exact Hd']. set_solver.
  - rewrite app_nil_r. eapply Forall_impl; [exact H5|]. intros p [Hd'|Hp]; left.
    + eapply delivered_more; [|exact Hd']. set_solver.
    + unfold wire_of at 1. rewrite Hw.
      apply (frames_delivered cf s' _ _ lead [] (items (session (net g))) [] p Hs' Hl); [|done].
      by rewrite app_nil_r, (Hwire Hf).
Qed.

Lemma sound_transmit cf g t :
  NetFailoverRetrySendDataEnabled cf = true -> sound cf g -> orderly (net g) (EvTransmit t) ->
  sound cf (log_step g (EvTransmit t)).
Proof.
  intros Hf H (Hdl & Hroom & Hm). unfold log_step. cbn [transmitted step]. unfold runSend_send.
  assert (sound cf (mkLog (sent g ++ []) (past g) (net g))) as H0.
  { apply (sound_quiet cf g (net g) (past g) H); try done; apply H. }
  destruct (holding (net g)) as [p|] eqn:Hh; [|exact H0].
  destruct (TcpSession.isOpen (session (net g))) eqn:Ho; cbn [andb]; [|exact H0]. simpl cypher_level. simpl conf.
  destruct (Z.eqb_spec (cypher_level (net g)) (CypherLevel (conf (net g)))) as [Hl|Hl]; cbn [negb].
  2:{ apply (sound_quiet cf g _ _ H); simpl;
        [apply H|done|apply items_Close|apply wire_of_Close|apply covered_closed, client_Close|done]. }
  destruct H as [H1 H2 H3 H4 H5]. rewrite H1 in *.
  (* the time is sent first *)
  set (n0 := (net g) <| holding := None |>).
  assert (conf (time_sync t n0) = cf /\ sec (time_sync t n0) = sec (net g) /\
    covered cf (sec (net g)) (session (time_sync t n0)) /\
    (forall q, pending cf (past g) (session (net g)) q -> pending cf (past g) (session (time_sync t n0)) q) /\
    Forall (modes_ok cf) (items (session (time_sync t n0))) /\
    q_room (TcpSession.RetryQueue (session (time_sync t n0))) = true) as (Hc1 & Hs1 & HC1 & Hp1 & Hm1 & Hr1).
  { unfold time_sync. case_match; [|done]. subst n0. simpl. rewrite H1.
    destruct (TcpSession.Send _ _ _ _ _ _ (session (net g))) as [this' r] eqn:HE.
    destruct (Send_sync_pending _ _ _ _ _ (past g) _ _ _ H2 H4 HE) as (C & P & HR). simpl.
    split; [done|]. split; [done|]. split; [exact C|]. split; [exact P|].
    destruct (items_Clear _ (TcpSession.RetryQueue (session (net g)))) as [Hi Hr].
    unfold items. destruct HR as [-> | ->]; [done|]. rewrite Hi. by split. }
  generalize dependent (time_sync t n0). clear n0. intros n1 Hc1 Hs1 HC1 Hp1 Hm1 Hr1.
  unfold send_pack. rewrite Hc1, Hs1. destruct (payload_returns cf (sec (net g)) p H2) as [b Hb]. rewrite Hb, Hf, Hdl.
  set (n2 := n1 <| session ::= _ |>).
  assert (sound cf (mkLog (sent g ++ [p]) (past g) n2)) as HS.
  { destruct (TcpSession.Send cf (sec (net g)) true (flag p) b (flush p)
      ((session n1) <| TcpSession.RetryQueue ::= fun q => q_PutForce q p |>)) as [this' r] eqn:HE.
    destruct (Send_pack_pending cf _ b p (past g) _ _ _ H2 HC1 Hb Hr1 HE) as (C & P & HR).
    assert (session n2 = this') as Hn2 by exact (f_equal fst HE).
    assert (sec n2 = sec (net g)) as Hs2 by exact Hs1.
    split; cbn [net sent past]; rewrite ?Hn2, ?Hs2; [exact Hc1|exact H2|..|exact C|].
    - destruct HR as [-> | ->]; [|constructor]. apply Forall_app. split; [done|]. by apply Forall_singleton.
    - apply Forall_app. split; [|apply Forall_singleton, P; by right].
      eapply Forall_impl; [exact H5|]. intros q Hq. apply P. left. by apply Hp1. }
  case_match; [|exact HS]. destruct (notices_same [TcpSession.tooBig cf (dnow t)] n2) as (E1 & E2 & E3).
  destruct HS as [S1 S2 S3 S4 S5]. cbn [net sent past] in *.
  split; cbn [net sent past]; by rewrite ?E1, ?E2, ?E3.
Qed.

Lemma sound_step cf g e :
  NetFailoverRetrySendDataEnabled cf = true -> sound cf g -> orderly (net g) e -> sound cf (log_step g e).
Proof.
  intros Hf H He. destruct e as [f p fl|f p fl| |t|clock dnow dial|clock|k|c].
  - apply (sound_quiet cf g _ (past g) H); try done; apply H.
  - apply (sound_quiet cf g _ (past g) H); try done; apply H.
  - destruct (runSend_take_same (net g)) as (E1 & E2 & E3).
    apply (sound_quiet cf g _ (past g) H); cbn [step]; rewrite ?E1, ?E2, ?E3; try done; apply H.
  - by apply sound_transmit.
  - by apply sound_open.
  - by apply sound_receive.
  - apply (sound_quiet cf g _ (past g) H); try done; [apply H|apply wire_of_break|]. apply covered_break, H.
  - done.
Qed.
Lemma sound_init cf s : sec_ok s -> sound cf (mkLog [] [] (InitSender cf s TcpSession.new)).
Proof.
  intros Hs. assert (items TcpSession.new = []) as Hi by apply items_fresh.
  split; [done|exact Hs| |by apply covered_closed|constructor]. simpl. rewrite Hi. constructor.
Qed.

(** C15. With the retry of sent data switched on, in every orderly run of the sender, the
    opener, the receiver and the network, from a fresh session: each pack that was sent is
    whole on the wire of some connection, or waits in the retry queue for the next one;
    whatever connections broke, and when. *)
Theorem sent_is_delivered_or_waits cf s es :
  NetFailoverRetrySendDataEnabled cf = true -> sec_ok s -> orderly_run (InitSender cf s TcpSession.new) es ->
  let g := log_run (mkLog [] [] (InitSender cf s TcpSession.new)) es in
  net g = run (InitSender cf s TcpSession.new) es /\
  forall p, p ∈ sent g -> delivered cf (wire_of (session (net g)) :: past g) p \/ p ∈ items (session (net g)).
Proof.
  intros Hf Hs Ho. pose proof (sound_init cf s Hs) as H.
  assert (forall g, sound cf g -> orderly_run (net g) es ->
    net (log_run g es) = run (net g) es /\ sound cf (log_run g es)) as HG.
  { clear Ho H. induction es as [|e es IH]; intros g Hg Hr; [done|]. destruct Hr as [He Hr].
    apply (IH (log_step g e)); [by apply sound_step|done]. }
  destruct (HG _ H Ho) as [E HS]. split; [done|]. intros p Hp.
  by apply (proj1 (Forall_forall _ _) (s_sent _ _ HS)).
Qed.
End Delivery.

(** * What is lost *)

Module Runs.
Import Sender BigEndian ListQueue ListDouble TextPacks Server.
Definition start (level : Z) : Net := InitSender (conf level) keys TcpSession.new.
Definition tick : Tick := mkTick 5 5 true true.
(** What was written, taken apart into frames. *)
Fixpoint read_frames (fuel : nat) (stream : bytes) : list Frame :=
  match fuel with
  | O => []
  | S fuel => match read_frame stream with Ret (f, stream) => f :: read_frames fuel stream | _ => [] end
  end.
Definition wire_after (level : Z) (es : list event) : list Frame :=
  read_frames 9 (drop (length (keyReset (conf level) (DecideAgentOnameOid 1 (str "ab") keys))) (wire_of (session (run (start level) es)))).
(** Two packs; the connection breaks under the second, and there is another. *)
Definition broken (level flag : Z) : list event :=
  [EvSend flag (str "one") false; EvSend flag (str "two") false; EvOpen 1 1 (dial level None []);
   EvTake; EvTransmit tick; EvBreak 0; EvTake; EvTransmit tick; EvOpen 2 2 (dial level None [])].

Lemma sent_is_delivered_or_waits_witness :
  let g := log_run (mkLog [] [] (start 0)) (broken 0 1) in
  sent g = [mkSend 1 (str "one") false; mkSend 1 (str "two") false] /\
  (delivered (conf 0) (wire_of (session (net g)) :: past g) (mkSend 1 (str "one") false) \/
   mkSend 1 (str "one") false ∈ items (session (net g))).
Proof.
  set (g := log_run (mkLog [] [] (start 0)) (broken 0 1)).
  assert (sent g = [mkSend 1 (str "one") false; mkSend 1 (str "two") false]) as E by (vm_compute; reflexivity).
  split; [exact E|].
  refine (proj2 (sent_is_delivered_or_waits (conf 0) keys (broken 0 1) eq_refl I _) _ _).
  - vm_compute. repeat split; auto.
  - change (mkSend 1 (str "one") false ∈ sent g). rewrite E. apply list_elem_of_here.
Defined.
(** Both are there again. *)
Example broken_resent : f_data <$> wire_after 0 (broken 0 1) = [TextPacks.write (str "one"); TextPacks.write (str "two")].
Proof. vm_compute. reflexivity. Qed.

(** When the others are encrypted, a pack in the clear is sent as it is, and without its
    data when it is sent again. *)
Example clear_retried_empty : f_data <$> wire_after 128 (broken 128 0) = [[]; []].
Proof. vm_compute. reflexivity. Qed.
(** A pack whose deadline cannot be set is not written, and the next flush forgets it. *)
Example no_deadline_lost :
  let es := [EvSend 1 (str "one") false; EvSend 1 (str "two") true; EvOpen 1 1 (dial 0 None []);
             EvTake; EvTransmit (mkTick 5 5 true false); EvTake; EvTransmit tick] in
  (f_data <$> wire_after 0 es, items (session (run (start 0) es))) = ([TextPacks.write (str "two")], []).
Proof. vm_compute. reflexivity. Qed.
(** A pack that is taken when the level has changed closes the connection and is lost. *)
Example level_change_lost :
  let es := [EvSend 1 (str "one") true; EvOpen 1 1 (dial 0 None []); EvConf (conf 128); EvTake; EvTransmit tick] in
  let n := run (start 0) es in
  (wire_after 0 es, items (session n), holding n, TcpSession.isOpen (session n)) = ([], [], None, false).
Proof. vm_compute. reflexivity. Qed.
(** The retry queue is cleared even when the new connection breaks during the retry. *)
Example retry_broken_lost :
  let es := [EvSend 1 (str "one") false; EvOpen 1 1 (dial 0 None []); EvTake; EvBreak 0; EvTransmit tick;
             EvSend 1 (str "two") true; EvTake; EvTransmit tick; EvOpen 2 2 (dial 0 (Some 50) [])] in
  (wire_after 0 es, items (session (run (start 0) es)), TcpSession.isOpen (session (run (start 0) es))) = ([], [], true).
Proof. vm_compute. reflexivity. Qed.
(** The notice of a pack that is too large names the type of the notice. *)
Example notice_type p :
  tpack (TcpSession.tooBig (conf 0) p) = str "Too big data: 0".
Proof. reflexivity. Qed.
End Runs.
