(* ===== verification/NetReceiverFacts.v ===== *)
(** What the receiver accepts: the packs a server with the same keys sends, and nothing
    that is addressed to another agent or session. *)

From S2P Require Import Prelude UrlPattern DataPack NetCypher NetFrame NetSession NetSender NetSamples.

(** A pack is read back from its bytes, with the padding of the cipher after it or not. *)
Class PackBytesLaws {PI : PackI} (PB : PackBytes) : Prop := {
  ToPack_plain p : ToPack (ToBytesPack p) = Ret p /\ ToBytesPack p <> [];
  ToPack_ecb p n : (0 < n)%Z -> ToPack (ToBytesPackECB p n) = Ret p /\ ToBytesPackECB p n <> [] /\
    (Z.of_nat (length (ToBytesPackECB p n)) mod n = 0)%Z
}.

Section ReceiverFacts.
Context {A : Aes} {AL : AesLaws A} {D : DataIO} {DL : DataIOLaws D} {SU : StringUtil} {PI : PackI} {PB : PackBytes}
  {PL : PackBytesLaws PB} {RQ : RequestQueue} {DQ : DoubleQueue}.
Import Sender.

(** The keys a session has at level 128. *)
Definition keys_128 (s : Secure) : Prop :=
  match session_Cypher s with
  | Some c => Cypher.block c = 16 /\ (exists key, Cypher.cypher c = Some key) /\ Cypher.xor_key c <> []
  | None => True
  end.
Lemma NewCypher_128 key hide s : session_Cypher s = Some (Cypher.NewCypher 128 key (ToBytesInt hide)) -> keys_128 s.
Proof.
  intros H. unfold keys_128. rewrite H. unfold Cypher.NewCypher. simpl. split; [done|]. split; [|apply io_key].
  unfold Cypher.aes_NewCipher. rewrite Cypher.length_padding. eexists. by rewrite decide_True by set_solver.
Qed.

(** The level is 0 or 128, and the frame says how it is hidden, when anything is. *)
Definition readable (conf : NetConf) (s : Secure) (code : Z) : Prop :=
  code <> NET_TIME_SYNC /\
  (CypherLevel conf = 0%Z \/
   (CypherLevel conf = 128%Z /\ keys_128 s /\
    (GetSecureMask code = NET_SECURE_HIDE \/ GetSecureMask code = NET_SECURE_CYPHER))).

(** The data a receiver makes of a payload. *)
Definition unhidden (conf : NetConf) (s : Secure) (code : Z) (data : bytes) : res bytes :=
  if (0 <? CypherLevel conf)%Z then
    if (GetSecureMask code =? NET_SECURE_HIDE)%Z then
      match session_Cypher s with Some c => Cypher.Hide c data | None => Ret data end
    else match session_Cypher s with Some c => Cypher.Decrypt c data | None => Ret data end
  else Ret data.
Lemma padded_exact n data : length data mod n = 0 -> Cypher.padded n data = data.
Proof. intros H. unfold Cypher.padded. rewrite decide_True by done. apply app_nil_r. Qed.
Lemma unhidden_payload conf s p b :
  readable conf s (flag p) -> payload conf s p = Ret b ->
  exists data, unhidden conf s (flag p) b = Ret data /\ data <> [] /\ ToPack data = Ret (tpack p).
Proof.
  intros (_ & HL) Hb. destruct (ToPack_plain (tpack p)) as [Hp Hne]. unfold payload, unhidden in *.
  destruct HL as [E|(E & HK & HM)]; rewrite E in *.
  { cbn in Hb |- *. simplify_eq. by eexists. }
  change ((128 =? 0)%Z) with false in Hb. change ((0 <? 128)%Z) with true. change (128 ÷ 8)%Z with 16%Z in Hb. cbn iota in *.
  unfold keys_128 in HK. destruct HM as [Em|Em]; rewrite Em in *; cbn in Hb |- *.
  - destruct (session_Cypher s) as [c|]; [|simplify_eq; by eexists].
    destruct (Cypher.Hide_Hide c (ToBytesPack (tpack p))) as (h & E1 & _ & E2); [apply HK|].
    rewrite E1 in Hb. simplify_eq. by eexists.
  - destruct (session_Cypher s) as [c|]; [|simplify_eq; by eexists].
    destruct HK as (Hbl & [key Hk] & _).
    destruct (Cypher.Encrypt_Decrypt c key (ToBytesPackECB (tpack p) 16) Hbl Hk) as (e & E1 & _ & E2).
    destruct (ToPack_ecb (tpack p) 16) as (H1 & H2 & H3); [done|].
    rewrite E1 in Hb. simplify_eq. rewrite padded_exact in E2 by (apply Nat2Z.inj; by rewrite Nat2Z.inj_mod).
    by eexists.
Qed.

(** C29. A pack sent by a side with the same identity and keys is received: the receiver
    delivers the pack, and goes on after its frame.  That is for frames that are [readable]:
    data of at most 8 MB under another code than that of the time, at level 0, or at level
    128 with the keys of a handshake and a mode that says how they are hidden.  At the
    other levels, and without a mode when data are hidden, it does not hold. *)
Theorem receive_sent clock n p b rest :
  TcpSession.isOpen (session n) = true -> readable (conf n) (sec n) (flag p) ->
  payload (conf n) (sec n) p = Ret b -> good_frame (frame (sec n) (flag p) b) ->
  TcpSession.in_ (session n) = write_frame (frame (sec n) (flag p) b) ++ rest ->
  receive clock n = (n <| session ::= (fun this => this <| TcpSession.in_ := rest |>) |>, Deliver (tpack p)).
Proof.
  intros Ho HR Hb Hg Hin. unfold receive, TcpSession.Read. rewrite Ho, Hin, read_write_frame by done. cbn [negb].
  rewrite bool_decide_eq_false_2 by (simpl; tauto). cbn [TcpSession.Code TcpSession.Data TcpSession.TransferKey frame f_code f_data f_key].
  set (n1 := n <| session := _ |>). change (conf n1) with (conf n). change (sec n1) with (sec n).
  pose proof HR as [Hc HL]. apply Z.eqb_neq in Hc. rewrite Hc.
  destruct (unhidden_payload _ _ _ _ HR Hb) as (data & Hd & Hne & Hp). unfold unhidden in Hd.
  destruct data as [|x data]; [done|].
  destruct HL as [E|(E & HK & HM)]; rewrite E in *; cbn [Z.ltb Z.compare] in *.
  - simplify_eq. by rewrite Hp.
  - rewrite Z.eqb_refl. cbn [negb]. destruct HM as [Em|Em]; rewrite Em in *; cbn in Hd |- *; rewrite Hd, Hp; done.
Qed.

(** ** A stream that breaks *)

(** Rounds of [Read], as the receiver makes them. *)
Fixpoint reads (k : nat) (s : Secure) (this : TcpSession.t) : TcpSession.t * list TcpSession.TcpReturn :=
  match k with
  | O => (this, [])
  | S k => let '(this, r) := TcpSession.Read s this in let '(this, rs) := reads k s this in (this, r :: rs)
  end.
(** What a frame gives: nothing, when it is for another agent. *)
Definition read_as (s : Secure) (f : Frame) : TcpSession.TcpReturn :=
  if bool_decide (f_pcode f <> PCODE s \/ f_oid f <> OID s) then TcpSession.empty
  else TcpSession.mkReturn (f_code f) (f_data f) (f_key f).
Lemma reads_closed k s this : TcpSession.isOpen this = false -> reads k s this = (this, replicate k TcpSession.empty).
Proof. intros Ho. induction k as [|k IH]; [done|]. simpl. unfold TcpSession.Read. rewrite Ho. cbn [negb]. by rewrite IH. Qed.
Lemma Read_frame s this f rest :
  TcpSession.isOpen this = true -> good_frame f -> TcpSession.in_ this = write_frame f ++ rest ->
  TcpSession.Read s this = (this <| TcpSession.in_ := rest |>, read_as s f).
Proof.
  intros Ho Hg Hin. unfold TcpSession.Read, read_as. rewrite Ho, Hin, read_write_frame by done. cbn [negb]. by case_bool_decide.
Qed.
Lemma Read_broken s this :
  read_frame (TcpSession.in_ this) = Panic -> TcpSession.isOpen this = true ->
  TcpSession.Read s this = (TcpSession.Close this, TcpSession.empty).
Proof. intros E Ho. unfold TcpSession.Read. by rewrite Ho, E. Qed.
Lemma reads_broken k s this :
  read_frame (TcpSession.in_ this) = Panic -> TcpSession.isOpen this = true ->
  reads (S k) s this = (TcpSession.Close this, replicate (S k) TcpSession.empty).
Proof.
  intros E Ho. simpl. rewrite Read_broken, reads_closed by done. done.
Qed.
(** The frames that are whole in what came of the stream, and no more. *)
Definition whole_frames (n : nat) (fs : list Frame) (p : bytes) : Prop :=
  n <= length fs /\ concat (write_frame <$> take n fs) `prefix_of` p /\
  (forall m, m <= length fs -> concat (write_frame <$> take m fs) `prefix_of` p -> m <= n).
Lemma whole_nil p : whole_frames 0 [] p.
Proof. split; [done|]. split; [apply prefix_nil|]. simpl. lia. Qed.
Lemma whole_cut f fs p : cut p (write_frame f) -> whole_frames 0 (f :: fs) p.
Proof.
  intros (x & s & E). split; [lia|]. split; [apply prefix_nil|]. intros [|m] _ Hm; [done|]. exfalso.
  simpl in Hm. apply prefix_length in Hm. apply (f_equal length) in E. rewrite !length_app in *. simpl in E. lia.
Qed.
Lemma whole_cons n f fs q : whole_frames n fs q -> whole_frames (S n) (f :: fs) (write_frame f ++ q).
Proof.
  intros (H1 & H2 & H3). split; [simpl; lia|]. split; [by apply prefix_app|].
  intros [|m] Hl Hm; [lia|]. simpl in *. apply prefix_app_inv in Hm. apply le_n_S, H3; [lia|done].
Qed.

(** C31. Whatever frames were written and wherever the stream breaks, the rounds of [Read]
    of a session give the frames that are whole in what came, in order, each its code, data
    and key or nothing when it is for another agent, and not one less; the next round
    closes the session, and it and all later ones give nothing. *)
Theorem frames_roundtrip fs p s this :
  TcpSession.isOpen this = true -> TcpSession.in_ this = p -> Forall good_frame fs ->
  p `prefix_of` concat (write_frame <$> fs) ->
  exists n, whole_frames n fs p /\
    forall k, reads (n + S k) s this =
      (TcpSession.Close (this <| TcpSession.in_ := drop (length (concat (write_frame <$> take n fs))) p |>),
       (read_as s <$> take n fs) ++ replicate (S k) TcpSession.empty).
Proof.
  revert p this. induction fs as [|f fs IH]; intros p this Ho Hin Hf Hp.
  - apply prefix_nil_inv in Hp as ->. exists 0. split; [apply whole_nil|]. intros k. cbn [take fmap list_fmap concat length drop app Nat.add].
    rewrite reads_broken; [|by rewrite Hin, read_frame_nil|done]. f_equal. f_equal. destruct this; simpl in *; by subst.
  - apply Forall_cons in Hf as [Hg Hf]. simpl in Hp.
    destruct (prefix_or_cut p (write_frame f) (concat (write_frame <$> fs)) Hp) as [(q & -> & Hq)|Hc].
    + destruct (IH q (this <| TcpSession.in_ := q |>)) as (n & Hw & Hr); [done..|].
      exists (S n). split; [by apply whole_cons|]. intros k. cbn [Nat.add reads].
      rewrite (Read_frame s this f q) by done. rewrite Hr. simpl.
      rewrite length_app, <- drop_drop, drop_app_length. done.
    + exists 0. split; [by apply whole_cut|]. intros k. cbn [take fmap list_fmap concat length drop app Nat.add].
      rewrite reads_broken; [|rewrite Hin; by apply (read_cut_frame f)|done]. f_equal. f_equal. destruct this; simpl in *; by subst.
Qed.

Lemma Hide_nil c : Cypher.Hide c [] = Ret [].
Proof. unfold Cypher.Hide. by destruct (Cypher.block c). Qed.
Lemma Decrypt_nil c : Cypher.Decrypt c [] = Ret [].
Proof. unfold Cypher.Decrypt. destruct (Cypher.block c); [done|]. by destruct (Cypher.cypher c). Qed.
(** A delivery is of data. *)
Lemma delivered_data (n n' : Net) (data : res bytes) r :
  (match data with
   | Ret ((_ :: _) as b) => match ToPack b with Ret p => (n, Deliver p) | _ => (n, Nothing) end
   | _ => (n, Nothing)
   end) = (n', r) -> (exists p, r = Deliver p /\ data <> Ret []) \/ (n' = n /\ r = Nothing).
Proof.
  destruct data as [[|x d]| |]; [by intros [= <- <-]; right| |by intros [= <- <-]; right..].
  destruct (ToPack (x :: d)) as [p| |]; intros [= <- <-]; [left; by exists p|by right..].
Qed.

(** C30. Whatever the server sends, a pack or a time is only taken from a whole frame with the
    agent's project and identity; and a pack, when data are hidden, only with the key of the
    session and a mode that hides. *)
Theorem receive_only_own clock n n' r :
  receive clock n = (n', r) -> r <> Nothing ->
  exists f rest, read_frame (TcpSession.in_ (session n)) = Ret (f, rest) /\ TcpSession.isOpen (session n) = true /\
    f_pcode f = PCODE (sec n) /\ f_oid f = OID (sec n) /\
    match r with
    | Deliver p => f_data f <> [] /\ ((0 < CypherLevel (conf n))%Z -> f_key f = TRANSFER_KEY (sec n) /\
        (GetSecureMask (f_code f) = NET_SECURE_HIDE \/ GetSecureMask (f_code f) = NET_SECURE_CYPHER))
    | _ => f_code f = NET_TIME_SYNC
    end.
Proof.
  unfold receive, TcpSession.Read. intros HE Hr.
  destruct (TcpSession.isOpen (session n)); cbn [negb] in HE; [|simplify_eq; done].
  assert (forall m : Net, conf m = conf n -> sec m = sec n ->
    forall n'' x, (if (0 <? CypherLevel (conf m))%Z
      then if negb (0 =? TRANSFER_KEY (sec m))%Z then (m, Nothing) else (m, Nothing) else (m, Nothing)) = (n'', x) -> x = Nothing)
    as Hempty by (intros m _ _ n'' x; repeat case_match; by intros [= _ <-]).
  destruct (read_frame (TcpSession.in_ (session n))) as [[f rest]| |]; [|by apply Hempty in HE..].
  exists f, rest. split; [done|]. split; [done|].
  destruct (bool_decide _) eqn:Hid; [by apply Hempty in HE|].
  apply bool_decide_eq_false in Hid.
  assert (f_pcode f = PCODE (sec n) /\ f_oid f = OID (sec n)) as [-> ->].
  { split; destruct (decide (f_pcode f = PCODE (sec n))), (decide (f_oid f = OID (sec n))); tauto. }
  split; [done|]. split; [done|]. clear Hid. cbn [TcpSession.Code TcpSession.Data TcpSession.TransferKey] in HE.
  set (n1 := n <| session := _ |>) in HE. change (conf n1) with (conf n) in HE. change (sec n1) with (sec n) in HE.
  destruct (Z.eqb_spec (f_code f) NET_TIME_SYNC) as [Hc|Hc].
  { destruct (ReadLong (f_data f)) as [[prev rest']| |]; [|simplify_eq; done..].
    destruct (ReadLong rest') as [[server rest'']| |]; [|simplify_eq; done..].
    destruct (_ <? 500)%Z; by simplify_eq. }
  destruct (Z.ltb_spec 0 (CypherLevel (conf n))) as [Hl|Hl].
  - destruct (Z.eqb_spec (f_key f) (TRANSFER_KEY (sec n))) as [Hk|Hk]; cbn [negb] in HE; [|by simplify_eq].
    destruct (Z.eqb_spec (GetSecureMask (f_code f)) NET_SECURE_HIDE) as [Hm|Hm];
      [|destruct (Z.eqb_spec (GetSecureMask (f_code f)) NET_SECURE_CYPHER) as [Hm'|Hm']; [|by simplify_eq]].
    all: apply delivered_data in HE as [(p & -> & Hd)|[_ ->]]; [|done]; split; [|by auto].
    all: intros E; rewrite E in Hd; destruct (session_Cypher (sec n)); by rewrite ?Hide_nil, ?Decrypt_nil in Hd.
  - apply (delivered_data n1 n' (Ret (f_data f))) in HE as [(p & -> & Hd)|[_ ->]]; [|done]. split; [|lia]. intros E. by rewrite E in Hd.
Qed.
End ReceiverFacts.

(** * A server with the same keys *)

Module Receive.
Import Sender BigEndian ListQueue ListDouble TextPacks Server.
#[export] Instance text_bytes_laws : PackBytesLaws text_bytes.
Proof.
  assert (forall p, write p <> []) as Hne by by intros [].
  split; intros p; cbn.
  - split; [|apply Hne]. by rewrite <- (read_write p []), app_nil_r.
  - intros n Hn. split; [apply read_write|]. split; [by destruct p|].
    pose proof (Cypher.padded_whole (Z.to_nat n) (write p)) as H. rewrite <- (Z2Nat.id n) at 2 by lia.
    rewrite <- Nat2Z.inj_mod, H by lia. done.
Qed.
(** A session at level 128 with the keys of a handshake. *)
Definition opened : Net := run (InitSender (conf 128) keys TcpSession.new) [EvOpen 1 1 (dial 128 None [])].
Definition hidden : TcpSend := mkSend 2 (str "one") false.
(** The data under those keys. *)
Definition hidden_data : bytes := match payload (conf 128) (sec opened) hidden with Ret b => b | _ => [] end.
Definition receiving : Net := opened <| session ::= fun this => this <| TcpSession.in_ := write_frame (frame (sec opened) 2 hidden_data) |> |>.
Lemma receive_sent_witness :
  payload (conf 128) (sec receiving) hidden = Ret hidden_data /\ (receive 9 receiving).2 = Deliver (str "one").
Proof.
  assert (payload (conf 128) (sec receiving) hidden = Ret hidden_data) as E by (vm_compute; reflexivity).
  split; [exact E|].
  refine (f_equal snd (receive_sent 9 receiving hidden hidden_data [] _ _ E _ _)).
  - vm_compute. reflexivity.
  - split; [by vm_compute|]. right. split; [by vm_compute|]. split; [|right; by vm_compute].
    apply (NewCypher_128 (str "0123456789abcdef") 5). vm_compute. reflexivity.
  - vm_compute. repeat split; by intros.
  - rewrite app_nil_r. reflexivity.
Defined.
(** Three frames, the second for another agent, the third cut. *)
Definition three : list Frame := [mkFrame 1 2 7 2 11 (str "data"); mkFrame 1 0 7 3 11 []; mkFrame 1 0 7 2 11 (str "more")].
Definition two_and_more : bytes := take 60 (concat (write_frame <$> three)).
Definition me : Secure := (sec opened) <| PCODE := 7%Z |> <| OID := 2%Z |>.
Lemma frames_roundtrip_witness :
  exists n, whole_frames n three two_and_more /\
    (reads (n + 2) me (TcpSession.new <| TcpSession.client := true |> <| TcpSession.in_ := two_and_more |>)).2 =
      (read_as me <$> take n three) ++ [TcpSession.empty; TcpSession.empty].
Proof.
  destruct (frames_roundtrip three two_and_more me (TcpSession.new <| TcpSession.client := true |> <| TcpSession.in_ := two_and_more |>))
    as (n & Hw & Hr).
  - reflexivity.
  - reflexivity.
  - repeat constructor; vm_compute; done.
  - apply prefix_take.
  - exists n. split; [exact Hw|]. by rewrite (Hr 1).
Defined.
(** The first two are whole. *)
Example two_read :
  (reads 3 me (TcpSession.new <| TcpSession.client := true |> <| TcpSession.in_ := two_and_more |>)).2 =
    [TcpSession.mkReturn 2 (str "data") 11; TcpSession.empty; TcpSession.empty].
Proof. vm_compute. reflexivity. Qed.
Lemma receive_only_own_witness :
  (receive 9 receiving).2 <> Nothing /\
  exists f rest, read_frame (TcpSession.in_ (session receiving)) = Ret (f, rest) /\ f_oid f = OID (sec receiving).
Proof.
  assert ((receive 9 receiving).2 <> Nothing) as E by by vm_compute. split; [exact E|].
  destruct (receive_only_own 9 receiving (receive 9 receiving).1 (receive 9 receiving).2) as (f & rest & H & _ & _ & Ho & _);
    [by destruct (receive 9 receiving)|exact E|].
  exists f, rest. split; [exact H|exact Ho].
Defined.
End Receive.
