(* ===== verification/ZipSend.v ===== *)
(** The senders that put many packs in one compressed pack:
    [src/agent/agent/data/ZipPackThread.go], [data/ZipProfileThread.go],
    [trace/ZipProfileThread.go] and [src/agent/logsink/zip/ZipSendProxyThread.go].

    The four have one body, whose parts call each other through parameters: each sender
    ties them with its own.  What they send goes to the two bounded queues of the network
    ([src/agent/net/Sender.go]), which refuse a pack when they are full: [Send] to the
    first, [SendProfile] to the second.  The buffer is Go's
    [bytes.Buffer]: an array, and how much of it is used.  [Bytes] is a slice of that array,
    not a copy, and [Reset] keeps the array: arrays are locations of a heap, and a pack that
    waits to be sent holds a location. *)

From S2P Require Import Prelude DataPack NetSender NetSamples.

(** * [bytes.Buffer] *)

Record Heap := mkHeap { cells : gmap nat bytes; fresh_cell : nat }.
Definition cell (h : Heap) (l : nat) : bytes := default [] (cells h !! l).
Definition alloc (b : bytes) (h : Heap) : Heap * nat :=
  (mkHeap (<[fresh_cell h := b]> (cells h)) (S (fresh_cell h)), fresh_cell h).
Record Slice := mkSlice { s_arr : nat; s_len : nat }.
Definition slice_bytes (h : Heap) (s : Slice) : bytes := take (s_len s) (cell h (s_arr s)).

Module Buffer.
Record t := mk { arr : nat; used : nat; cap : nat }.
Definition contents (h : Heap) (b : t) : bytes := take (used b) (cell h (arr b)).
(** [Write]: into the array when there is room, else into a new one; how large that is is
    the runtime's choice. *)
Definition Write (grown : nat) (p : bytes) (h : Heap) (b : t) : Heap * t :=
  if decide (used b + length p <= cap b) then
    let a := cell h (arr b) in
    (mkHeap (<[arr b := take (used b) a ++ p ++ drop (used b + length p) a]> (cells h)) (fresh_cell h),
     mk (arr b) (used b + length p) (cap b))
  else
    let n := max grown (used b + length p) in
    let '(h, l) := alloc (contents h b ++ p ++ repeat zero (n - (used b + length p))) h in
    (h, mk l (used b + length p) n).
Definition Bytes (b : t) : Slice := mkSlice (arr b) (used b).
Definition Reset (b : t) : t := mk (arr b) 0 (cap b).
End Buffer.

(** * The senders *)

(** golib's [ZipPack]; [Status] 1 is compressed. *)
Record ZipPack := mkZip { Time : Z; RecordCount : Z; Records : Slice; Status : Z; who : option Ident }.
Class Zip {PI : PackI} := {
  WritePack : pack -> bytes;
  GetTime : pack -> Z;
  (** nil on an error *)
  DoZip : bytes -> option bytes;
  UnZip : bytes -> bytes
}.

(** The settings. *)
Record ZipConf := mkZipConf {
  ZipMaxWaitTime : Z; ZipMaxBufferSize : Z; ZipMinSize : Z; DebugZipEnabled : bool; DebugZipInterval : Z
}.
(** What waits in the queues of the network: packs as they are, compressed ones, and what
    other parts of the agent send. *)
Inductive outgoing (P : Type) := Plain (p : P) | Zipped (z : ZipPack) | Other.
Arguments Plain {P}. Arguments Zipped {P}. Arguments Other {P}.

Section ZipThread.
Context {PI : PackI} {Z_ : Zip} {RQ : RequestQueue} {DQ : DoubleQueue}.

(** The state of a sender, and the queues of the network. *)
Record t := mk {
  Queue : queue pack; heap : Heap; buffer : Buffer.t; packCount : Z; firstTime : Z;
  lastLog : Z; zipSent : Z; noZipSent : Z;
  net : dqueue (outgoing pack)
}.
Definition new (size : nat) (n : dqueue (outgoing pack)) : t :=
  mk (NewRequestQueue size) (mkHeap ∅ 1) (Buffer.mk 0 0 0) 0 0 0 0 0 n.

Definition doZip (c : ZipConf) (p : ZipPack) (s : t) : t * ZipPack :=
  if negb (Status p =? 0)%Z then (s, p)
  else if (Z.of_nat (s_len (Records p)) <? ZipMinSize c)%Z then (s, p)
  else
    let b := default [] (DoZip (slice_bytes (heap s) (Records p))) in
    let '(h, l) := alloc b (heap s) in
    (s <| heap := h |>, mkZip (Time p) (RecordCount p) (mkSlice l (length b)) 1 (who p)).

(** [note] is the bookkeeping of the debug log, [put] the queue of the network that is
    used; [id] is stamped on the pack, or left to the sender of packs. *)
Definition sendAndClear (doZip_ : ZipPack -> t -> t * ZipPack) (note : t -> t)
    (put : dqueue (outgoing pack) -> outgoing pack -> dqueue (outgoing pack)) (id : option Ident) (now : Z) (s : t) : t :=
  match Buffer.used (buffer s) with
  | O => s
  | _ =>
      let '(s, p) := doZip_ (mkZip now (packCount s) (Buffer.Bytes (buffer s)) 0 None) s in
      let s := note s in
      s <| net ::= (fun q => put q (Zipped (mkZip (Time p) (RecordCount p) (Records p) (Status p) id))) |>
        <| buffer ::= Buffer.Reset |> <| firstTime := 0%Z |> <| packCount := 0%Z |>
  end.
Definition append (c : ZipConf) (send_ : t -> t) (grown : nat) (p : pack) (s : t) : t :=
  let '(h, b) := Buffer.Write grown (WritePack p) (heap s) (buffer s) in
  let s := s <| heap := h |> <| buffer := b |> <| packCount ::= Z.add 1 |> in
  let large := (ZipMaxBufferSize c <=? Z.of_nat (Buffer.used b))%Z in
  if (firstTime s =? 0)%Z then
    let s := s <| firstTime := GetTime p |> in
    if large then send_ s else s
  else if large || (ZipMaxWaitTime c <=? int64 (GetTime p - firstTime s))%Z then send_ s
  else s.
(** A round of [run]: a pack, or the end of the wait. *)
Definition run_round (append_ : pack -> t -> t) (send_ : t -> t) (s : t) : t :=
  let '(tmp, q) := q_Get (Queue s) in
  let s := s <| Queue := q |> in
  match tmp with Some p => append_ p s | None => send_ s end.
(** A change of the settings. *)
Definition Run (TraceZipQueueSize : Z) (s : t) : t := s <| Queue ::= q_SetCapacity TraceZipQueueSize |>.
(** A full queue: the pack is sent as it is. *)
Definition Add (p : pack) (s : t) : t :=
  let '(q, ok) := q_Put (Queue s) p in
  let s := s <| Queue := q |> in
  if ok then s else s <| net ::= (fun q => Put1 q (Plain p)) |> <| noZipSent ::= Z.add 1 |>.
(** [AddWait] tries [n] more times; with no time to wait the pack is dropped. *)
Fixpoint AddWait (n : nat) (waitTimeForFull : Z) (p : pack) (s : t) : t :=
  let '(q, ok) := q_Put (Queue s) p in
  let s := s <| Queue := q |> in
  if ok then s
  else if (0 <? waitTimeForFull)%Z then match n with O => s | S n => AddWait n waitTimeForFull p s end
  else s.
(** A round of [flush]; the queue is emptied by [run]. *)
Definition flush_round (send_ : t -> t) (s : t) : t :=
  match q_items (Queue s) with [] => s | _ => send_ s end.

(** The debug log of the profile senders, and the one that logs each time. *)
Definition note_interval (c : ZipConf) (now : Z) (s : t) : t :=
  if DebugZipEnabled c then
    if (DebugZipInterval c <=? 0)%Z then s
    else
      let s := s <| zipSent ::= Z.add 1 |> in
      if (lastLog s + DebugZipInterval c <? now)%Z then s <| lastLog := now |> <| zipSent := 0%Z |> else s
  else s.
End ZipThread.

(** ** The four *)

(** [src/agent/agent/data/ZipPackThread.go] *)
Module ZipPackThread.
Section S.
Context {PI : PackI} {Z_ : Zip} {RQ : RequestQueue} {DQ : DoubleQueue}.
Variables (c : ZipConf) (id : Ident) (now clock : Z) (grown : nat).
Definition newZipPackThread : nat -> dqueue (outgoing pack) -> t := ZipSend.new.
Definition Run : Z -> t -> t := ZipSend.Run.
Definition Add : pack -> t -> t := ZipSend.Add.
Definition AddWait : nat -> Z -> pack -> t -> t := ZipSend.AddWait.
Definition doZip : ZipPack -> t -> t * ZipPack := ZipSend.doZip c.
Definition sendAndClear : t -> t := ZipSend.sendAndClear doZip (note_interval c clock) Put2 (Some id) now.
Definition append : pack -> t -> t := ZipSend.append c sendAndClear grown.
Definition run : t -> t := run_round append sendAndClear.
Definition flush : t -> t := flush_round sendAndClear.
End S.
End ZipPackThread.
(** [src/agent/agent/data/ZipProfileThread.go] *)
Module DataZipProfileThread.
Section S.
Context {PI : PackI} {Z_ : Zip} {RQ : RequestQueue} {DQ : DoubleQueue}.
Variables (c : ZipConf) (id : Ident) (now clock : Z) (grown : nat).
Definition newZipProfileThread : nat -> dqueue (outgoing pack) -> t := ZipSend.new.
Definition Run : Z -> t -> t := ZipSend.Run.
Definition Add : pack -> t -> t := ZipSend.Add.
Definition AddWait : nat -> Z -> pack -> t -> t := ZipSend.AddWait.
Definition doZip : ZipPack -> t -> t * ZipPack := ZipSend.doZip c.
Definition sendAndClear : t -> t := ZipSend.sendAndClear doZip (note_interval c clock) Put2 (Some id) now.
Definition append : pack -> t -> t := ZipSend.append c sendAndClear grown.
Definition run : t -> t := run_round append sendAndClear.
Definition flush : t -> t := flush_round sendAndClear.
End S.
End DataZipProfileThread.
(** [src/agent/agent/trace/ZipProfileThread.go]; for profiles, the one in use. *)
Module ZipProfileThread.
Section S.
Context {PI : PackI} {Z_ : Zip} {RQ : RequestQueue} {DQ : DoubleQueue}.
Variables (c : ZipConf) (id : Ident) (now clock : Z) (grown : nat).
Definition newZipProfileThread : nat -> dqueue (outgoing pack) -> t := ZipSend.new.
Definition Run : Z -> t -> t := ZipSend.Run.
Definition Add : pack -> t -> t := ZipSend.Add.
Definition AddWait : nat -> Z -> pack -> t -> t := ZipSend.AddWait.
Definition doZip : ZipPack -> t -> t * ZipPack := ZipSend.doZip c.
Definition sendAndClear : t -> t := ZipSend.sendAndClear doZip (note_interval c clock) Put2 (Some id) now.
Definition append : pack -> t -> t := ZipSend.append c sendAndClear grown.
Definition run : t -> t := run_round append sendAndClear.
Definition flush : t -> t := flush_round sendAndClear.
End S.
End ZipProfileThread.
(** [src/agent/logsink/zip/ZipSendProxyThread.go]: log lines; [data.Send] stamps the pack. *)
Module ZipSendProxyThread.
Section S.
Context {PI : PackI} {Z_ : Zip} {RQ : RequestQueue} {DQ : DoubleQueue}.
Variables (c : ZipConf) (now : Z) (grown : nat).
Definition GetInstance : nat -> dqueue (outgoing pack) -> t := ZipSend.new.
(** A full queue: the line is lost. *)
Definition Add (p : pack) (s : t) : t := s <| Queue ::= fun q => (q_Put q p).1 |>.
Definition doZip : ZipPack -> t -> t * ZipPack := ZipSend.doZip c.
Definition sendAndClear : t -> t := ZipSend.sendAndClear doZip (fun s => s) Put1 None now.
Definition append : pack -> t -> t := ZipSend.append c sendAndClear grown.
Definition run : t -> t := run_round append sendAndClear.
End S.
End ZipSendProxyThread.

(** What the compressing senders keep: the packs that are sent hold the packs that were
    added, in order and counted, when a pack that was too small to be compressed is written
    before the next one is added; and what happens when it is not. *)

(** What is compressed can be read again. *)
Class ZipLaws {PI : PackI} (Z_ : Zip) : Prop :=
  DoZip_UnZip b : exists z, DoZip b = Some z /\ UnZip z = b.

Section ZipFacts.
Context {PI : PackI} {Z_ : Zip} {ZL : ZipLaws Z_} {RQ : RequestQueue} {QL : QueueLaws RQ} {DQ : DoubleQueue} {DL : DoubleQueueLaws DQ}.

(** ** The buffer *)

Definition buf_ok (h : Heap) (b : Buffer.t) : Prop :=
  Buffer.used b <= Buffer.cap b /\ length (cell h (Buffer.arr b)) = Buffer.cap b /\ Buffer.arr b < fresh_cell h.
(** A slice of an array, which is not the buffer's. *)
Definition apart (h : Heap) (b : Buffer.t) (s : Slice) : Prop := s_arr s < fresh_cell h /\ s_arr s <> Buffer.arr b.

Lemma cell_insert h l m b n : l <> m -> cell (mkHeap (<[m := b]> (cells h)) n) l = cell h l.
Proof. intros H. unfold cell. simpl. by rewrite lookup_insert_ne by congruence. Qed.
Lemma cell_same h l b n : cell (mkHeap (<[l := b]> (cells h)) n) l = b.
Proof. unfold cell. simpl. by rewrite lookup_insert_eq. Qed.

Lemma Write_spec grown p h b :
  buf_ok h b ->
  let '(h', b') := Buffer.Write grown p h b in
  buf_ok h' b' /\ Buffer.contents h' b' = Buffer.contents h b ++ p /\ fresh_cell h <= fresh_cell h' /\
  (Buffer.arr b' = Buffer.arr b \/ Buffer.arr b' = fresh_cell h) /\
  (forall s, apart h b s -> apart h' b' s /\ slice_bytes h' s = slice_bytes h s).
Proof.
  intros (Hu & Hc & Hf). unfold Buffer.Write. case_decide as Hd.
  - unfold buf_ok, Buffer.contents. simpl. rewrite cell_same. split; [|split; [|split; [done|split; [by left|]]]].
    + rewrite !length_app, length_take, length_drop. lia.
    + rewrite app_assoc. rewrite take_app_length'; [done|]. rewrite length_app, length_take. lia.
    + intros s [H1 H2]. split; [done|]. unfold slice_bytes. by rewrite cell_insert.
  - simpl. unfold buf_ok, Buffer.contents, alloc. simpl. rewrite cell_same.
    split; [|split; [|split; [lia|split; [by right|]]]].
    + rewrite !length_app, length_take, repeat_length. lia.
    + rewrite app_assoc, take_app_length'; [done|]. rewrite length_app, length_take. lia.
    + intros s [H1 H2]. split; [unfold apart; simpl; lia|]. unfold slice_bytes. rewrite cell_insert by lia. done.
Qed.

(** ** What is sent *)

(** A compressed pack on the wire: how many packs, whether compressed, the bytes. *)
Record Wire := mkWire { w_count : Z; w_status : Z; w_bytes : bytes }.
Definition render (h : Heap) (z : ZipPack) : Wire := mkWire (RecordCount z) (Status z) (slice_bytes h (Records z)).
Definition plain_bytes (w : Wire) : bytes := if (w_status w =? 1)%Z then UnZip (w_bytes w) else w_bytes w.
Definition zips (l : list (outgoing pack)) : list ZipPack := omap (fun o => match o with Zipped z => Some z | _ => None end) l.
Definition plains (l : list (outgoing pack)) : list pack := omap (fun o => match o with Plain p => Some p | _ => None end) l.

(** What waits in the queues of the network, in the order it is taken. *)
Definition waiting (q : dqueue (outgoing pack)) : list (outgoing pack) := dq1 q ++ dq2 q.

(** The four senders. *)
Inductive sender := PackSender | DataProfileSender | ProfileSender | LogSender.
Variables (c : ZipConf) (id : Ident) (k : sender).
Definition Add_ (p : pack) (s : t) : t :=
  match k with
  | PackSender => ZipPackThread.Add p s | DataProfileSender => DataZipProfileThread.Add p s
  | ProfileSender => ZipProfileThread.Add p s | LogSender => ZipSendProxyThread.Add p s
  end.
Definition run_ (now clock : Z) (grown : nat) (s : t) : t :=
  match k with
  | PackSender => ZipPackThread.run c id now clock grown s
  | DataProfileSender => DataZipProfileThread.run c id now clock grown s
  | ProfileSender => ZipProfileThread.run c id now clock grown s
  | LogSender => ZipSendProxyThread.run c now grown s
  end.
(** The queue of the network it uses for compressed packs has room. *)
Definition room_ (q : dqueue (outgoing pack)) : bool := match k with LogSender => dq_room1 q | _ => dq_room2 q end.
(** A record that finds its queue full is sent as it is, if there is room for it; a line of
    a log is not. *)
Definition loses (s : t) : bool :=
  negb (q_room (Queue s)) && match k with LogSender => true | _ => negb (dq_room1 (net s)) end.

(** The thread, with what its queue was given, what it took from it, what the network has
    written, the records lost when they were added, and how many of its rounds found the
    queue of the network full. *)
Record Log := mkLog {
  added : list pack; taken : list pack; w_plain : list pack; wires : list Wire; lost : list pack; full : nat; thread : t
}.
(** [EvOther]: another part of the agent sends something, to the first or the second queue. *)
Inductive event := EvAdd (p : pack) | EvRun (now clock : Z) (grown : nat) | EvWrite | EvOther (first : bool).
Definition step (L : Log) (e : event) : Log :=
  let s := thread L in
  match e with
  | EvAdd p =>
      mkLog (added L ++ [p]) (taken L) (w_plain L) (wires L) (lost L ++ if loses s then [p] else []) (full L) (Add_ p s)
  | EvRun now clock grown =>
      mkLog (added L) (taken L ++ option_list (q_Get (Queue s)).1) (w_plain L) (wires L) (lost L)
        (full L + if room_ (net s) then 0 else 1) (run_ now clock grown s)
  | EvWrite =>
      let '(v, q) := GetTimeout (net s) in
      let s' := s <| net := q |> in
      match v with
      | Some (Plain p) => mkLog (added L) (taken L) (w_plain L ++ [p]) (wires L) (lost L) (full L) s'
      | Some (Zipped z) => mkLog (added L) (taken L) (w_plain L) (wires L ++ [render (heap s) z]) (lost L) (full L) s'
      | Some Other | None => mkLog (added L) (taken L) (w_plain L) (wires L) (lost L) (full L) s'
      end
  | EvOther first =>
      mkLog (added L) (taken L) (w_plain L) (wires L) (lost L) (full L)
        (s <| net ::= fun q => if first then Put1 q Other else Put2 q Other |>)
  end.
Definition run (L : Log) (es : list event) : Log := foldl step L es.
Definition start (size : nat) (size1 size2 : Z) : Log := mkLog [] [] [] [] [] 0 (new size (NewRequestDoubleQueue size1 size2)).

(** No pack is taken from the queue while an uncompressed one waits for the network. *)
Definition in_time (L : Log) (e : event) : Prop :=
  match e with
  | EvRun _ _ _ => q_items (Queue (thread L)) <> [] -> Forall (fun z => Status z = 1%Z) (zips (waiting (net (thread L))))
  | _ => True
  end.
Fixpoint in_time_run (L : Log) (es : list event) : Prop :=
  match es with [] => True | e :: es => in_time L e /\ in_time_run (step L e) es end.

Definition holds (seg : list pack) (w : Wire) : Prop :=
  w_count w = Z.of_nat (length seg) /\ plain_bytes w = concat (WritePack <$> seg).
(** ** Each operation *)

Definition zips_ok (s : t) : Prop :=
  Forall (fun z => s_arr (Records z) < fresh_cell (heap s) /\ (Status z = 1%Z -> s_arr (Records z) <> Buffer.arr (buffer s)))
    (zips (waiting (net s))).
(** The buffer holds the packs of [cur]. *)
Record buffers (s : t) (cur : list pack) : Prop := {
  b_ok : buf_ok (heap s) (buffer s);
  b_zips : zips_ok s;
  b_contents : Buffer.contents (heap s) (buffer s) = concat (WritePack <$> cur);
  b_count : packCount s = Z.of_nat (length cur)
}.
Definition renders (s : t) : list Wire := render (heap s) <$> zips (waiting (net s)).
Definition quiet (note : t -> t) : Prop :=
  forall s, heap (note s) = heap s /\ buffer (note s) = buffer s /\ net (note s) = net s /\ Queue (note s) = Queue s /\
    packCount (note s) = packCount s.
Lemma note_interval_quiet clock : quiet (note_interval c clock).
Proof. intros s. unfold note_interval. by repeat case_match. Qed.

Lemma zips_app l m : zips (l ++ m) = zips l ++ zips m.
Proof. apply omap_app. Qed.
Lemma plains_app l m : plains (l ++ m) = plains l ++ plains m.
Proof. apply omap_app. Qed.
(** A queue to which a compressed pack is put behind the others, if it takes it. *)
Definition puts_last (put : dqueue (outgoing pack) -> outgoing pack -> dqueue (outgoing pack)) (room : bool) (q : dqueue (outgoing pack)) : Prop :=
  forall z, zips (waiting (put q (Zipped z))) = zips (waiting q) ++ (if room then [z] else []) /\
    plains (waiting (put q (Zipped z))) = plains (waiting q).
Lemma Put2_last q : puts_last Put2 (dq_room2 q) q.
Proof.
  intros z. unfold waiting. destruct (dq_Put2 _ q (Zipped z)) as [-> ->]. rewrite !zips_app, !plains_app.
  destruct (dq_room2 q); rewrite ?zips_app, ?plains_app; simpl; by rewrite ?app_nil_r, <- ?(assoc_L (++)).
Qed.
Lemma Put1_last q : zips (dq2 q) = [] -> puts_last Put1 (dq_room1 q) q.
Proof.
  intros H z. unfold waiting. destruct (dq_Put1 _ q (Zipped z)) as [-> ->]. rewrite !zips_app, !plains_app, H.
  destruct (dq_room1 q); rewrite ?zips_app, ?plains_app; simpl; by rewrite ?app_nil_r, <- ?(assoc_L (++)).
Qed.
(** A new array changes nothing that is reachable. *)
Lemma alloc_cell b h l : l < fresh_cell h -> cell (alloc b h).1 l = cell h l.
Proof. intros H. unfold alloc. simpl. apply cell_insert. lia. Qed.

(** The pack that is sent shows what the buffer held. *)
Lemma doZip_spec s now n cur s' p :
  buffers s cur -> doZip c (mkZip now n (Buffer.Bytes (buffer s)) 0 None) s = (s', p) ->
  exists h, s' = s <| heap := h |> /\ (forall l, l < fresh_cell (heap s) -> cell h l = cell (heap s) l) /\
    fresh_cell (heap s) <= fresh_cell h /\ RecordCount p = n /\ plain_bytes (render h p) = concat (WritePack <$> cur) /\
    s_arr (Records p) < fresh_cell h /\ (Status p = 1%Z -> s_arr (Records p) <> Buffer.arr (buffer s)).
Proof.
  intros [[Hu [Hc Hf]] Hz Hb Hn]. unfold doZip. simpl negb. cbn iota.
  destruct (_ <? ZipMinSize c)%Z; intros [= <- <-].
  - exists (heap s). split; [by destruct s|]. split; [done|]. split; [done|]. split; [done|].
    split; [exact Hb|]. split; [exact Hf|]. simpl. lia.
  - destruct (DoZip_UnZip (slice_bytes (heap s) (Buffer.Bytes (buffer s)))) as (z & Hz1 & Hz2). rewrite Hz1. simpl default.
    eexists. split; [reflexivity|]. split; [intros l Hl; by apply alloc_cell|]. simpl.
    split; [lia|]. split; [done|]. split; [|split; lia].
    unfold plain_bytes, render, slice_bytes. simpl. rewrite cell_same, take_ge, Hz2 by done. exact Hb.
Qed.
Lemma renders_heap s h :
  zips_ok s -> (forall l, l < fresh_cell (heap s) -> cell h l = cell (heap s) l) -> render h <$> zips (waiting (net s)) = renders s.
Proof.
  intros Hz Hc. unfold renders. apply list_fmap_ext. intros i z Hi. unfold render, slice_bytes.
  rewrite Hc; [done|]. unfold zips_ok in Hz. rewrite Forall_lookup in Hz. by destruct (Hz i z Hi).
Qed.

(** What a send leaves: the buffer as it was, or its packs in a pack that was put. *)
Record sends (put : dqueue (outgoing pack) -> outgoing pack -> dqueue (outgoing pack)) (room : bool) (s s' : t) (cur : list pack) : Prop := {
  sn_queue : Queue s' = Queue s;
  sn_plains : plains (waiting (net s')) = plains (waiting (net s));
  sn_net : net s' = net s \/ exists z, net s' = put (net s) (Zipped z);
  sn_cases : (renders s' = renders s /\ buffers s' cur) \/
    exists w, holds cur w /\ renders s' = renders s ++ (if room then [w] else []) /\ buffers s' []
}.

Lemma sendAndClear_spec note put room who_ now s cur :
  quiet note -> puts_last put room (net s) -> buffers s cur ->
  sends put room s (sendAndClear (doZip c) note put who_ now s) cur.
Proof.
  intros Hq Hput HB. unfold sendAndClear. destruct (Buffer.used (buffer s)) eqn:Hu; [split; auto|].
  destruct (doZip c _ s) as [s1 p] eqn:HD. destruct (doZip_spec s now (packCount s) cur s1 p HB HD) as (h & -> & Hc & Hf & Hn & Hp & Ha & Hs).
  destruct HB as [[H1 [H2 H3]] Hz Hb Hn'].
  destruct (Hq (s <| heap := h |>)) as (E1 & E2 & E3 & E4 & _). set (s2 := note _) in *.
  set (z := mkZip _ _ _ _ who_). destruct (Hput z) as [Z1 Z2].
  assert (renders (s <| heap := h |>) = renders s) as Hr by exact (renders_heap s h Hz Hc).
  assert (render h z = render h p) as Hzp by done.
  split.
  - exact E4.
  - simpl. rewrite E3. exact Z2.
  - right. exists z. simpl. by rewrite E3.
  - right. exists (render h p). split; [split; [simpl; by rewrite Hn|exact Hp]|].
    split.
    + unfold renders at 1. simpl. rewrite E1, E3. simpl. rewrite Z1, fmap_app. f_equal; [exact Hr|]. by destruct room.
    + split; simpl; rewrite ?E1, ?E2; simpl.
      * unfold buf_ok. simpl. rewrite Hc by done. split; [lia|]. split; [done|lia].
      * unfold zips_ok. simpl. rewrite ?E1, ?E2, E3. simpl. rewrite Z1. apply Forall_app. split.
        -- eapply Forall_impl; [exact Hz|]. intros z' [Hz1 Hz2]. split; [lia|done].
        -- destruct room; [|constructor]. by apply Forall_singleton.
      * unfold Buffer.contents. simpl. by rewrite take_0.
      * done.
Qed.

Lemma append_spec note put room who_ now grown p s cur :
  quiet note -> puts_last put room (net s) -> buffers s cur -> Forall (fun z => Status z = 1%Z) (zips (waiting (net s))) ->
  sends put room s (append c (sendAndClear (doZip c) note put who_ now) grown p s) (cur ++ [p]).
Proof.
  intros Hq Hput [Ho Hz Hb Hn] H1. unfold append.
  pose proof (Write_spec grown (WritePack p) (heap s) (buffer s) Ho) as HW.
  destruct (Buffer.Write grown (WritePack p) (heap s) (buffer s)) as [h b]. destruct HW as (Ho' & Hc & Hf & Ha & Hs).
  set (s1 := s <| heap := h |> <| buffer := b |> <| packCount ::= Z.add 1 |>).
  assert (forall z, z ∈ zips (waiting (net s)) -> apart (heap s) (buffer s) (Records z)) as Hap.
  { intros z Hin. unfold zips_ok in Hz. rewrite Forall_forall in Hz, H1. destruct (Hz z Hin) as [A B].
    split; [done|]. by apply B, H1. }
  assert (renders s1 = renders s) as Hr.
  { unfold renders, s1. simpl. apply list_fmap_ext. intros i z Hi. unfold render. f_equal.
    apply Hs, Hap. by eapply list_elem_of_lookup_2. }
  assert (buffers s1 (cur ++ [p])) as HB.
  { split; [exact Ho'| | |].
    - unfold zips_ok. apply Forall_forall. intros z Hin. destruct (Hs _ (Hap z Hin)) as [[A B] _]. done.
    - simpl. rewrite Hc, Hb, fmap_app, concat_app. simpl. by rewrite app_nil_r.
    - simpl. rewrite Hn, length_app. simpl. lia. }
  assert (forall fT, buffers (s1 <| firstTime := fT |>) (cur ++ [p])) as HB' by (intros fT; by destruct HB).
  assert (forall s2, net s2 = net s -> Queue s2 = Queue s -> renders s2 = renders s -> buffers s2 (cur ++ [p]) ->
    sends put room s s2 (cur ++ [p])) as Hstay.
  { intros s2 En Eq Er Eb. split; [done|by rewrite En|by left|by left]. }
  assert (forall s2, net s2 = net s -> Queue s2 = Queue s -> renders s2 = renders s -> buffers s2 (cur ++ [p]) ->
    sends put room s (sendAndClear (doZip c) note put who_ now s2) (cur ++ [p])) as Hsend.
  { intros s2 En Eq Er Eb.
    destruct (sendAndClear_spec note put room who_ now s2 (cur ++ [p]) Hq ltac:(by rewrite En) Eb) as [F1 F2 F3 F4].
    rewrite En in *. rewrite Er in F4. split; [by rewrite F1|done|done|exact F4]. }
  destruct (firstTime s1 =? 0)%Z.
  - destruct (_ <=? _)%Z; [apply Hsend|apply Hstay]; try done; apply HB'.
  - destruct (_ || _); [by apply Hsend|by apply Hstay].
Qed.

(** ** Runs *)

(** The packs that were made, with whether the network's queue took them. *)
Definition kept (segs : list (list pack * bool)) : list (list pack) := (filter (fun x => x.2 = true) segs).*1.
Definition refused (segs : list (list pack * bool)) : list (list pack) := (filter (fun x => x.2 = false) segs).*1.
Record sound (L : Log) : Prop := {
  so_segs : exists segs cur, taken L = concat segs.*1 ++ cur /\ Forall2 holds (kept segs) (wires L ++ renders (thread L)) /\
      length (refused segs) <= full L /\ buffers (thread L) cur;
  so_all : added L ≡ₚ w_plain L ++ plains (waiting (net (thread L))) ++ taken L ++ q_items (Queue (thread L)) ++ lost L;
  so_second : k = LogSender -> zips (dq2 (net (thread L))) = []
}.
Lemma sound_start size a b : sound (start size a b).
Proof.
  assert (waiting (NewRequestDoubleQueue (A := outgoing pack) a b) = []) as Hw.
  { unfold waiting. by destruct (dq_fresh (outgoing pack) a b) as [-> ->]. }
  split.
  - exists [], []. split; [done|]. split; [unfold renders; simpl; rewrite Hw; constructor|]. split; [simpl; lia|].
    split; [unfold buf_ok; simpl; split_and!; [lia|done|lia]|unfold zips_ok; simpl; rewrite Hw; constructor|done|done].
  - simpl. by rewrite items_fresh, Hw.
  - intros _. simpl. by destruct (dq_fresh (outgoing pack) a b) as [_ ->].
Qed.

(** What does not touch the compressed packs that wait, nor the buffer. *)
Lemma quiet_sound L s' add' plain' lost' :
  sound L -> heap s' = heap (thread L) -> buffer s' = buffer (thread L) -> packCount s' = packCount (thread L) ->
  zips (waiting (net s')) = zips (waiting (net (thread L))) ->
  (k = LogSender -> zips (dq2 (net s')) = []) ->
  add' ≡ₚ plain' ++ plains (waiting (net s')) ++ taken L ++ q_items (Queue s') ++ lost' ->
  sound (mkLog add' (taken L) plain' (wires L) lost' (full L) s').
Proof.
  intros [(segs & cur & Ht & Hs & Hl & [B1 B2 B3 B4]) _ _] E1 E2 E3 E4 E5 E6. split; simpl; [|done|done].
  exists segs, cur. split; [done|]. unfold renders. rewrite E1, E4. split; [done|]. split; [done|].
  split; [by rewrite E1, E2|unfold zips_ok; by rewrite E1, E2, E4|by rewrite E1, E2|by rewrite E3].
Qed.
Lemma Put1_other x (q : dqueue (outgoing pack)) : (forall z, x <> Zipped z) ->
  zips (waiting (Put1 q x)) = zips (waiting q) /\ zips (dq2 (Put1 q x)) = zips (dq2 q).
Proof.
  intros Hx. unfold waiting. destruct (dq_Put1 _ q x) as [-> ->]. split; [|done].
  destruct (dq_room1 q); [|done]. rewrite !zips_app. destruct x; [by rewrite app_nil_r|by destruct (Hx z)|by rewrite app_nil_r].
Qed.
Lemma Put2_other x (q : dqueue (outgoing pack)) : (forall z, x <> Zipped z) ->
  zips (waiting (Put2 q x)) = zips (waiting q) /\ zips (dq2 (Put2 q x)) = zips (dq2 q).
Proof.
  intros Hx. unfold waiting. destruct (dq_Put2 _ q x) as [-> ->].
  destruct (dq_room2 q); [|done]. rewrite !zips_app. destruct x; [by rewrite app_nil_r|by destruct (Hx z)|by rewrite app_nil_r].
Qed.
Lemma plains_Put1 p (q : dqueue (outgoing pack)) :
  plains (waiting (Put1 q (Plain p))) ≡ₚ plains (waiting q) ++ (if dq_room1 q then [p] else []).
Proof.
  unfold waiting. destruct (dq_Put1 _ q (Plain p)) as [-> ->]. destruct (dq_room1 q); rewrite !plains_app; simpl; solve_Permutation.
Qed.

Lemma sound_add L p : sound L -> sound (step L (EvAdd p)).
Proof.
  intros H. pose proof (so_all _ H) as Ha. pose proof (so_second _ H) as H2. simpl. unfold loses, Add_.
  destruct (items_Put _ (Queue (thread L)) p) as [Hi Ho].
  assert (forall x, ZipSend.Add p (thread L) = x ->
    sound (mkLog (added L ++ [p]) (taken L) (w_plain L) (wires L)
      (lost L ++ (if negb (q_room (Queue (thread L))) && negb (dq_room1 (net (thread L))) then [p] else [])) (full L) x)) as HA.
  { intros x <-. unfold ZipSend.Add. destruct (q_Put (Queue (thread L)) p) as [q ok]. simpl in Hi, Ho. subst ok.
    destruct (q_room (Queue (thread L))); cbn [negb andb].
    - apply quiet_sound; try done. simpl. rewrite Hi, Ha, app_nil_r. solve_Permutation.
    - destruct (Put1_other (Plain p) (net (thread L)) ltac:(done)) as [Z1 Z2].
      apply quiet_sound; try done; simpl; [intros; rewrite Z2; auto|].
      rewrite (plains_Put1 p (net (thread L))), Hi, Ha. destruct (dq_room1 _); simpl; solve_Permutation. }
  destruct k; try (by apply HA). clear HA. unfold ZipSendProxyThread.Add. rewrite andb_true_r.
  apply quiet_sound; try done; [by auto|]. simpl. rewrite Hi, Ha.
  destruct (q_room (Queue (thread L))); simpl; rewrite ?app_nil_r; solve_Permutation.
Qed.

(** A round is the one of the body, with the queue of the sender. *)
Lemma run_round_sound put L note who_ now grown :
  sound L -> quiet note -> puts_last put (room_ (net (thread L))) (net (thread L)) ->
  (q_items (Queue (thread L)) <> [] -> Forall (fun z => Status z = 1%Z) (zips (waiting (net (thread L))))) ->
  (k = LogSender -> forall z, zips (dq2 (put (net (thread L)) (Zipped z))) = []) ->
  let send_ := sendAndClear (doZip c) note put who_ now in
  sound (mkLog (added L) (taken L ++ option_list (q_Get (Queue (thread L))).1) (w_plain L) (wires L) (lost L)
    (full L + if room_ (net (thread L)) then 0 else 1) (run_round (append c send_ grown) send_ (thread L))).
Proof.
  intros [(segs & cur & Ht & Hs & Hl & HB) Ha H2] Hq Hput Hin Hsec. unfold run_round.
  pose proof (items_Get _ (Queue (thread L))) as HG. destruct (q_Get (Queue (thread L))) as [tmp q]. simpl in *.
  set (s1 := (thread L) <| Queue := q |>). set (room := room_ (net (thread L))) in *.
  assert (buffers s1 cur) as HB1 by by destruct HB.
  assert (forall s' cur', sends put room s1 s' cur' ->
    q_items (Queue (thread L)) = option_list tmp ++ q_items q ->
    taken L ++ option_list tmp = concat segs.*1 ++ cur' ->
    sound (mkLog (added L) (taken L ++ option_list tmp) (w_plain L) (wires L) (lost L) (full L + if room then 0 else 1) s')) as Hnext.
  { intros s' cur' [F1 F2 F3 F4] Hi Ht'. split; simpl.
    - change (renders s1) with (renders (thread L)) in F4. destruct F4 as [[Hr HB']|(w & Hh & Hr & HB')].
      + exists segs, cur'. rewrite Hr. split; [done|]. split; [done|]. split; [lia|done].
      + exists (segs ++ [(cur', room)]), []. rewrite fmap_app, concat_app. simpl. rewrite !app_nil_r. split; [done|].
        unfold kept, refused in *. rewrite !filter_app, !fmap_app, !filter_cons. simpl.
        rewrite Hr, (assoc_L (++)). destruct room; simpl; rewrite ?app_nil_r, ?length_app; simpl.
        * split; [apply Forall2_app; [done|by constructor]|]. split; [lia|done].
        * split; [done|]. split; [lia|done].
    - rewrite Ha, Hi, F1, F2. simpl. by rewrite <- !(assoc_L (++)).
    - intros Hk. destruct F3 as [->|[z ->]]; [by apply H2|by apply Hsec]. }
  destruct (q_items (Queue (thread L))) as [|x xs]; destruct HG as [-> Hi].
  - apply (Hnext _ cur); [by apply sendAndClear_spec|by rewrite Hi|simpl; by rewrite app_nil_r].
  - apply (Hnext _ (cur ++ [x])); [apply append_spec; [done|done|done|by apply Hin]|simpl; by rewrite Hi|].
    simpl. by rewrite Ht, (assoc_L (++)).
Qed.
Lemma sound_run L now clock grown :
  sound L -> in_time L (EvRun now clock grown) -> sound (step L (EvRun now clock grown)).
Proof.
  intros H Hin. pose proof (so_second _ H) as H2. simpl. unfold run_.
  assert (k <> LogSender -> sound (mkLog (added L) (taken L ++ option_list (q_Get (Queue (thread L))).1) (w_plain L) (wires L) (lost L)
    (full L + if room_ (net (thread L)) then 0 else 1)
    (run_round (append c (sendAndClear (doZip c) (note_interval c clock) Put2 (Some id) now) grown)
       (sendAndClear (doZip c) (note_interval c clock) Put2 (Some id) now) (thread L)))) as H3.
  { intros Hk. apply (run_round_sound Put2); [done|apply note_interval_quiet| |exact Hin|by intros ?].
    unfold room_. destruct k; try done; apply Put2_last. }
  assert (k = LogSender -> sound (mkLog (added L) (taken L ++ option_list (q_Get (Queue (thread L))).1) (w_plain L) (wires L) (lost L)
    (full L + if room_ (net (thread L)) then 0 else 1)
    (run_round (append c (sendAndClear (doZip c) (fun s => s) Put1 None now) grown)
       (sendAndClear (doZip c) (fun s => s) Put1 None now) (thread L)))) as H4.
  { intros Hk. apply (run_round_sound Put1); [done|by intros s| |exact Hin|].
    - unfold room_. rewrite Hk. apply Put1_last, H2, Hk.
    - intros _ z. destruct (dq_Put1 _ (net (thread L)) (Zipped z)) as [-> _]. by apply H2. }
  destruct k; [by apply H3|by apply H3|by apply H3|by apply H4].
Qed.

Lemma sound_write L : sound L -> sound (step L EvWrite).
Proof.
  intros H. pose proof (so_all _ H) as Ha. pose proof (so_second _ H) as H2. simpl.
  assert (match (GetTimeout (net (thread L))).1 with
          | Some x => waiting (net (thread L)) = x :: waiting (GetTimeout (net (thread L))).2
          | None => waiting (GetTimeout (net (thread L))).2 = waiting (net (thread L))
          end /\ (k = LogSender -> zips (dq2 (GetTimeout (net (thread L))).2) = [])) as [Hw Hz].
  { pose proof (dq_Get _ (net (thread L))) as HG. unfold waiting.
    destruct (dq1 (net (thread L))) as [|x l1] eqn:E1; [destruct (dq2 (net (thread L))) as [|y l2] eqn:E2|];
      destruct HG as (-> & -> & ->); split; simpl; try done.
    intros Hk. specialize (H2 Hk). destruct y; simpl in H2; naive_solver. }
  destruct (GetTimeout (net (thread L))) as [v q]. simpl in *.
  destruct v as [[p|z|]|].
  - apply quiet_sound; try done; simpl; [by rewrite Hw|]. rewrite Ha, Hw. simpl. solve_Permutation.
  - destruct H as [(segs & cur & Ht & Hs & Hl & [B1 B2 B3 B4]) _ _].
    assert (renders (thread L) = render (heap (thread L)) z :: (render (heap (thread L)) <$> zips (waiting q))) as Hr
      by (unfold renders; by rewrite Hw).
    split; simpl.
    + exists segs, cur. split; [done|]. rewrite Hr in Hs. rewrite <- (assoc_L (++)). split; [done|]. split; [done|].
      split; try done. unfold zips_ok in *. rewrite Hw in B2. simpl in B2. by apply Forall_cons in B2 as [_ B2].
    + by rewrite Ha, Hw.
    + done.
  - apply quiet_sound; try done; simpl; [by rewrite Hw|]. by rewrite Ha, Hw.
  - apply quiet_sound; try done; simpl; [by rewrite Hw|]. by rewrite Ha, Hw.
Qed.
Lemma plains_other (q : dqueue (outgoing pack)) :
  plains (waiting (Put1 q Other)) = plains (waiting q) /\ plains (waiting (Put2 q Other)) = plains (waiting q).
Proof.
  unfold waiting. destruct (dq_Put1 _ q Other) as [-> ->], (dq_Put2 _ q Other) as [-> ->].
  destruct (dq_room1 q), (dq_room2 q); rewrite !plains_app; simpl; by rewrite ?app_nil_r.
Qed.
Lemma sound_other L first : sound L -> sound (step L (EvOther first)).
Proof.
  intros H. pose proof (so_all _ H) as Ha. pose proof (so_second _ H) as H2. destruct (plains_other (net (thread L))) as [P1 P2].
  destruct (Put1_other Other (net (thread L)) ltac:(done)) as [Z1 Z2].
  destruct (Put2_other Other (net (thread L)) ltac:(done)) as [Y1 Y2].
  simpl. apply quiet_sound; try done; destruct first; simpl; try done.
  - intros Hk. rewrite Z2. by apply H2.
  - intros Hk. rewrite Y2. by apply H2.
  - by rewrite P1.
  - by rewrite P2.
Qed.

(** C35. For each of the four senders, in every run in which no record is taken while an
    uncompressed pack waits to be written, whatever else goes through the two bounded queues
    of the network: the records the sender took are, in order, those of the packs it made
    and of its buffer; the packs the network's queue took, read back, hold their records in
    order, each with its number; no more packs were refused than rounds found that queue
    full; and every record that was added was taken, waits in the sender's queue, was sent
    as it is, or was lost when the queue and, but for lines of logs, that of the network
    were full. *)
Theorem zip_exact size size1 size2 es :
  in_time_run (start size size1 size2) es ->
  let L := run (start size size1 size2) es in
  exists segs cur,
    taken L = concat segs.*1 ++ cur /\ Forall2 holds (kept segs) (wires L ++ renders (thread L)) /\
    length (refused segs) <= full L /\
    Buffer.contents (heap (thread L)) (buffer (thread L)) = concat (WritePack <$> cur) /\
    packCount (thread L) = Z.of_nat (length cur) /\
    added L ≡ₚ w_plain L ++ plains (waiting (net (thread L))) ++ taken L ++ q_items (Queue (thread L)) ++ lost L.
Proof.
  intros Hin. cbn zeta. assert (sound (run (start size size1 size2) es)) as [(segs & cur & H1 & H2 & H3 & [_ _ H4 H5]) H6 _].
  { revert Hin. generalize (sound_start size size1 size2). generalize (start size size1 size2).
    induction es as [|e es IH]; intros L HL Hin; [done|]. destruct Hin as [He Hin]. apply (IH (step L e)); [|done].
    destruct e; [by apply sound_add|by apply sound_run|by apply sound_write|by apply sound_other]. }
  by exists segs, cur.
Qed.
End ZipFacts.

(** * What is overwritten *)

Module Sample.
Import ListQueue ListDouble TextPacks.
(** A compression that turns the bytes round. *)
#[export] Instance turned : Zip := {| WritePack := write; GetTime p := Z.of_nat (length p); DoZip b := Some (rev b); UnZip := @rev ascii |}.
#[export] Instance turned_laws : ZipLaws turned.
Proof. intros b. exists (rev b). split; [done|]. apply rev_involutive. Qed.
Definition conf (min : Z) : ZipConf := mkZipConf 1000 1000 min true 0.
Definition ident : Ident := mkIdent 2 7 0 0 [] [] [].
(** Two records, each alone in its pack; the first is written before or after the second is added. *)
Definition early : list event := [EvAdd (str "one"); EvRun 1 1 64; EvRun 2 2 64; EvWrite; EvAdd (str "two"); EvRun 3 3 64; EvRun 4 4 64; EvWrite].
Definition late : list event := [EvAdd (str "one"); EvRun 1 1 64; EvRun 2 2 64; EvAdd (str "two"); EvRun 3 3 64; EvWrite; EvRun 4 4 64; EvWrite].
Lemma zip_exact_witness :
  (exists segs cur,
    taken (run (conf 100) ident PackSender (start 9 9 9) early) = concat segs.*1 ++ cur /\
    Forall2 holds (kept segs) (wires (run (conf 100) ident PackSender (start 9 9 9) early) ++
      renders (thread (run (conf 100) ident PackSender (start 9 9 9) early)))) /\
  (exists segs cur,
    taken (run (conf 100) ident LogSender (start 9 9 9) early) = concat segs.*1 ++ cur /\
    Forall2 holds (kept segs) (wires (run (conf 100) ident LogSender (start 9 9 9) early) ++
      renders (thread (run (conf 100) ident LogSender (start 9 9 9) early)))).
Proof.
  split.
  - destruct (zip_exact (conf 100) ident PackSender 9 9 9 early) as (segs & cur & H1 & H2 & _).
    + vm_compute. repeat split; repeat constructor; congruence.
    + exists segs, cur. split; [exact H1|exact H2].
  - destruct (zip_exact (conf 100) ident LogSender 9 9 9 early) as (segs & cur & H1 & H2 & _).
    + vm_compute. repeat split; repeat constructor; congruence.
    + exists segs, cur. split; [exact H1|exact H2].
Defined.
Example early_whole : plain_bytes <$> wires (run (conf 100) ident PackSender (start 9 9 9) early) = [write (str "one"); write (str "two")].
Proof. vm_compute. reflexivity. Qed.
(** The array of the first pack has been written over: the second record is sent twice, the
    first never. *)
Example late_overwritten : plain_bytes <$> wires (run (conf 100) ident PackSender (start 9 9 9) late) = [write (str "two"); write (str "two")].
Proof. vm_compute. reflexivity. Qed.
Example late_compressed : plain_bytes <$> wires (run (conf 1) ident PackSender (start 9 9 9) late) = [write (str "one"); write (str "two")].
Proof. vm_compute. reflexivity. Qed.
(** An error of the compression leaves a pack that says it is compressed, and is empty. *)
Example zip_error :
  let z : Zip := {| WritePack := write; GetTime p := 0%Z; DoZip b := None; UnZip b := b |} in
  wires (run (Z_ := z) (conf 1) ident PackSender (start 9 9 9) early) = [mkWire 1 1 []; mkWire 1 1 []].
Proof. vm_compute. reflexivity. Qed.
End Sample.
