(* ===== verification/LogSink.v ===== *)
(** Lines of logs on their way to the server: [src/agent/logsink] (the buffer that joins
    lines, the limit of their length, the pack of a line), the captured standard streams
    ([logsink/std]) and the writer of transactions ([src/logsink/TraceLogWriter.go]).

    The original stream and the clock are outside; a line is a [LineLog]. *)

From S2P Require Import Prelude LlmChunk LlmPack LlmState LlmSender DataPack.

(** * [bufio.Scanner] over a text that is all there *)

(** A line without its end; a carriage return before the end is dropped too. *)
Definition dropCR (l : bytes) : bytes :=
  match rev l with c :: r => if bool_decide (c = ascii_of_N 13) then rev r else l | [] => l end.
Definition newline : ascii := ascii_of_N 10.
Definition MaxScanTokenSize : nat := N.to_nat 65536.
(** The pieces between the ends of lines; no piece after a last end. *)
Fixpoint split_lines (cur : bytes) (s : bytes) : list bytes :=
  match s with
  | [] => match cur with [] => [] | _ => [rev cur] end
  | c :: s => if bool_decide (c = newline) then rev cur :: split_lines [] s else split_lines (c :: cur) s
  end.
(** A line as long as the largest buffer ends the scan. *)
Fixpoint until_long (ls : list bytes) : list bytes :=
  match ls with
  | [] => []
  | l :: ls => if (N.of_nat (length l) <? 65536)%N then dropCR l :: until_long ls else []
  end.
Definition scan_lines (s : bytes) : list bytes := until_long (split_lines [] s).

(** * Joining lines *)

Module LineBuffer.
Record t := mk { isMulti : bool; out : bytes }.
Definition NewLineBuffer : t := mk false [].
Definition tab : bytes := [ascii_of_N 9].

Definition Append (LogSinkLineSize : Z) (line : bytes) (b : t) : t * list bytes :=
  match line with
  | [] => (b, [])
  | _ =>
      if HasSuffix line [newline] then
        if HasPrefix line tab then
          if nonempty (out b) && negb (isMulti b) then (mk true (out b ++ line), [out b])
          else (mk true (out b ++ line), [])
        else if nonempty (out b) then (mk false [], [out b ++ line])
        else (mk false (out b), [line])
      else if (LogSinkLineSize <=? Z.of_nat (length (out b)))%Z then (mk (isMulti b) line, [out b])
      else (mk (isMulti b) (out b ++ line), [])
  end.
Definition AppendLine (line : bytes) (b : t) : t * list bytes :=
  match line with
  | [] => if nonempty (out b) then (mk (isMulti b) [], [out b]) else (b, [])
  | _ =>
      if HasPrefix line tab then
        let o := out b ++ line ++ [newline] in
        if nonempty (out b) && negb (isMulti b) then (mk true o, [o]) else (mk true o, [])
      else if nonempty (out b) then (mk false [], [out b; line])
      else (mk false (out b), [line])
  end.
Definition Flush (b : t) : t * bytes := if nonempty (out b) then (mk (isMulti b) [], out b) else (b, []).
End LineBuffer.

(** * Lines and their limit *)

Record SinkConf := mkSinkConf {
  LogSinkEnabled : bool; LogSinkLineSize : Z;
  LogSinkLimitContentEnabled : bool; LogSinkLimitContentLength : Z;
  DebugLogSinkLimitContentEnabled : bool; LogSinkLimitContentLogSilentTime : Z;
  LogsinkLimitContentAlertEnabled : bool; LogSinkLimitContentAlertSilentTime : Z;
  LogSinkZipEnabled : bool; HasLogSinkTags_ : bool; LogSinkTags : list (list bytes);
  DebugLogSinkEnabled : bool; DebugLogSinkLineLimit : Z; LogSinkCategoryStdOut : bytes; LogSinkCategoryStdErr : bytes;
  LogSinkTraceEnabled : bool; LogSinkTraceTxidEnabled : bool; LogSinkTraceMtidEnabled : bool;
  LogSinkStdOutEnabled : bool; LogSinkStdErrEnabled : bool
}.

Section Sink.
Variable conf : SinkConf.

Definition truncated_mark : bytes := str "...(truncated)".
Definition CheckLogContent (orgContent : bytes) (lineLog : LineLog) : res LineLog :=
  match orgContent with
  | [] => Ret lineLog
  | _ =>
      let sz := Z.of_nat (length orgContent) in
      if LogSinkLimitContentEnabled conf && (LogSinkLimitContentLength conf <? sz)%Z then
        if (LogSinkLimitContentLength conf <? 0)%Z then Panic
        else
          s ← slice orgContent 0 (Z.to_nat (LogSinkLimitContentLength conf));
          Ret (mkLineLog true sz (Time lineLog) (LogCategory lineLog) (Tags lineLog) (Fields lineLog) (s ++ truncated_mark))
      else Ret (mkLineLog (Truncated lineLog) (OrgContentLength lineLog) (Time lineLog) (LogCategory lineLog) (Tags lineLog)
                  (Fields lineLog) orgContent)
  end.

(** The last value put under a key. *)
Definition mget (k : bytes) (m : MapValue) : option mvalue :=
  match list_find (fun kv : bytes * mvalue => kv.1 = k) (rev m) with Some (_, (_, v)) => Some v | None => None end.
Definition AppendLn (s : bytes) : bytes := s ++ [newline].
(** The first twenty bytes of the content are quoted. *)
Definition CreateLogMessage (lineLog : LineLog) : res bytes :=
  s ← slice (Content lineLog) 0 20;
  Ret (AppendLn (str "LOG_TRUNCATED: too big log") ++
       AppendLn (str "category: " ++ LogCategory lineLog) ++
       match mget (str "@txid") (Fields lineLog) with
       | Some v => AppendLn (str "txid: " ++ FormatInt (match v with MLong z => z | _ => 0%Z end))
       | None => []
       end ++
       AppendLn (str "content: " ++ s ++ str "...") ++
       AppendLn (str "original content length: " ++ FormatInt (OrgContentLength lineLog))).

(** When the last note and the last alert were made. *)
Record Silence := mkSilence { LastLog : Z; LastAlert : Z }.
(** A log-sink pack, as far as this code fills it in. *)
Record LogSinkPack := mkLogSinkPack {
  l_Time : Z; l_Category : bytes; l_Tags : MapValue; l_Fields : MapValue; l_Content : bytes; l_Line : Z
}.
Inductive effect :=
| LogPrint (message : bytes)
| SendEvent (title message : bytes)
| ZipAdd (p : LogSinkPack)
| DataSend (p : LogSinkPack)
| DebugPrint (content : bytes).

Definition LogStr (now : Z) (message : bytes) (q : Silence) : Silence * list effect :=
  if negb (DebugLogSinkLimitContentEnabled conf) then (q, [])
  else if (now - LastLog q <? LogSinkLimitContentLogSilentTime conf)%Z then (q, [])
  else (mkSilence now (LastAlert q), [LogPrint message]).
Definition AlertLogTruncated (now : Z) (message : bytes) (q : Silence) : Silence * list effect :=
  if negb (LogsinkLimitContentAlertEnabled conf) then (q, [])
  else if (now - LastAlert q <? LogSinkLimitContentAlertSilentTime conf)%Z then (q, [])
  else (mkSilence (LastLog q) now, [SendEvent (str "LOG_TRUNCATED") message]).
Definition Log (now : Z) (lineLog : LineLog) (q : Silence) : res (Silence * list effect) :=
  message ← CreateLogMessage lineLog;
  let '(q, a) := LogStr now message q in
  let '(q, b) := AlertLogTruncated now message q in
  Ret (q, a ++ b).

(** * Packs of lines *)

Definition tag_pair (v : list bytes) (m : MapValue) : MapValue :=
  match v with k :: x :: _ => m ++ [(k, MString x)] | _ => m end.
Definition buildLogSinkPack (id : Ident) (now : Z) (alog : LineLog) : LogSinkPack :=
  let tags := [] in
  let tags := if nonempty (ONAME id) then PutString "oname" (ONAME id) tags else tags in
  let tags := if bool_decide (OKIND id <> 0%Z) then PutString "okindName" (OKIND_NAME id) tags else tags in
  let tags := if bool_decide (ONODE id <> 0%Z) then PutString "onodeName" (ONODE_NAME id) tags else tags in
  let tags := tags ++ Tags alog in
  let tags := if HasLogSinkTags_ conf then foldl (fun m v => tag_pair v m) tags (LogSinkTags conf) else tags in
  let tags := if Truncated alog then tags ++ [(str "@truncated", MBool true)] else tags in
  mkLogSinkPack (if (Time alog <=? 0)%Z then now else Time alog) (LogCategory alog) tags (Fields alog) (Content alog) 0.

(** Lines of the captured streams are not printed again. *)
Definition writeDebugLogSink (alog : LineLog) : res (list effect) :=
  if bool_decide (LogCategory alog = LogSinkCategoryStdOut conf \/ LogCategory alog = LogSinkCategoryStdErr conf) then Ret []
  else
    s ← (if (0 <? DebugLogSinkLineLimit conf)%Z && (DebugLogSinkLineLimit conf <? Z.of_nat (length (Content alog)))%Z then
           if (DebugLogSinkLineLimit conf - 2 <? 0)%Z then Panic
           else slice (Content alog) 0 (Z.to_nat (DebugLogSinkLineLimit conf - 2))
         else Ret (Content alog));
    Ret [DebugPrint (s ++ if HasSuffix (Content alog) [newline] then [] else [newline])].
Definition Send (id : Ident) (now : Z) (alog : LineLog) (q : Silence) : res (Silence * list effect) :=
  let p := buildLogSinkPack id now alog in
  '(q, a) ← (if Truncated alog then Log now alog q else Ret (q, []));
  d ← (if DebugLogSinkEnabled conf then writeDebugLogSink alog else Ret []);
  Ret (q, a ++ [if LogSinkZipEnabled conf then ZipAdd p else DataSend p] ++ d).

End Sink.

(** * Captured streams *)

Module ProxyStream.
Section S.
Variable conf : SinkConf.
Record t := mk { enabled : bool; lineBuffer : LineBuffer.t; category : bytes }.
Definition NewProxyStream (category : bytes) : t := mk false LineBuffer.NewLineBuffer category.
Definition SetEnabled (b : bool) (s : t) : t := mk b (lineBuffer s) (category s).
Definition line_of (category content : bytes) : res LineLog :=
  CheckLogContent conf content (mkLineLog false 0 0 category [] [] []).
Definition LogFlush (s : t) : res (t * option LineLog) :=
  let '(b, content) := LineBuffer.Flush (lineBuffer s) in
  let s := mk (enabled s) b (category s) in
  match content with
  | [] => Ret (s, None)
  | _ => l ← line_of (category s) content; Ret (s, Some l)
  end.
(** One line of a write; a record of one byte is dropped. *)
Definition write_line (st : t * list LineLog) (text : bytes) : res (t * list LineLog) :=
  let '(s, added) := st in
  let '(b, lines) := LineBuffer.AppendLine text (lineBuffer s) in
  logs ← mapM (line_of (category s)) (filter (fun l => 1 < length l) lines);
  Ret (mk (enabled s) b (category s), added ++ logs).
Definition Write (data : bytes) (s : t) : res (t * list LineLog) :=
  if enabled s then foldM write_line (s, []) (scan_lines data) else Ret (s, []).
End S.
End ProxyStream.

(** The two senders have one body; [cat] is the category of the stream.  A new stream takes
    the place of the standard one. *)
Module StdSenderThread.
Section S.
Context {RQ : RequestQueue}.
Variables (conf : SinkConf) (cat : bytes).
Record t := mk { queue_ : queue LineLog; logWaitTime : Z; stream : option ProxyStream.t }.
Definition Flush (id : Ident) (now : Z) (s : t) (q : Silence) : res (t * Silence * list effect) :=
  match stream s with
  | None => Ret (s, q, [])
  | Some p =>
      '(p, log) ← ProxyStream.LogFlush conf p;
      let s := mk (queue_ s) (logWaitTime s) (Some p) in
      match log with None => Ret (s, q, []) | Some l => '(q, e) ← Send conf id now l q; Ret (s, q, e) end
  end.
Definition reset (enabled : bool) (id : Ident) (now : Z) (s : t) (q : Silence) : res (t * Silence * list effect) :=
  if enabled then
    let p := default (ProxyStream.NewProxyStream cat) (stream s) in
    Ret (mk (queue_ s) 500 (Some (ProxyStream.SetEnabled true p)), q, [])
  else Flush id now (mk (queue_ s) 30000 (ProxyStream.SetEnabled false <$> stream s)) q.
(** A change of the settings. *)
Definition Run (enabled Shutdown : bool) (LogSinkQueueSize : Z) (id : Ident) (now : Z) (s : t) (q : Silence) : res (t * Silence * list effect) :=
  '(s, q, e) ← reset enabled id now s q;
  let s := mk (q_SetCapacity LogSinkQueueSize (queue_ s)) (logWaitTime s) (stream s) in
  if Shutdown then
    '(s, q, e') ← reset false id now s q;
    Ret (match stream s with None => s | Some _ => mk (q_Clear (queue_ s)) (logWaitTime s) None end, q, e ++ e')
  else Ret (s, q, e).
Definition Add (l : LineLog) (s : t) : t := mk (q_Put (queue_ s) l).1 (logWaitTime s) (stream s).
(** A round of [run]. *)
Definition run (id : Ident) (now : Z) (s : t) (q : Silence) : res (t * Silence * list effect) :=
  let '(tmp, qu) := q_Get (queue_ s) in
  let s := mk qu (logWaitTime s) (stream s) in
  match tmp with None => Ret (s, q, []) | Some l => '(q, e) ← Send conf id now l q; Ret (s, q, e) end.
(** What the program prints: each record is put in the queue. *)
Definition print (data : bytes) (s : t) : res t :=
  match stream s with
  | None => Ret s
  | Some p => '(p, logs) ← ProxyStream.Write conf data p; Ret (foldl (fun s l => Add l s) (mk (queue_ s) (logWaitTime s) (Some p)) logs)
  end.
End S.
End StdSenderThread.
Module StdOutSenderThread.
Section S.
Context {RQ : RequestQueue}.
Variable conf : SinkConf.
Definition Flush := StdSenderThread.Flush conf.
Definition reset := StdSenderThread.reset conf (LogSinkCategoryStdOut conf).
Definition Run (Shutdown : bool) := StdSenderThread.Run conf (LogSinkCategoryStdOut conf) (LogSinkStdOutEnabled conf) Shutdown.
Definition Add := StdSenderThread.Add.
Definition run := StdSenderThread.run conf.
Definition GetInstanceStdOut (LogSinkQueueSize : nat) (id : Ident) (now : Z) :=
  reset (LogSinkStdOutEnabled conf) id now (StdSenderThread.mk (NewRequestQueue LogSinkQueueSize) 0 None).
End S.
End StdOutSenderThread.
Module StdErrSenderThread.
Section S.
Context {RQ : RequestQueue}.
Variable conf : SinkConf.
Definition Flush := StdSenderThread.Flush conf.
Definition reset := StdSenderThread.reset conf (LogSinkCategoryStdErr conf).
Definition Run (Shutdown : bool) := StdSenderThread.Run conf (LogSinkCategoryStdErr conf) (LogSinkStdErrEnabled conf) Shutdown.
Definition Add := StdSenderThread.Add.
Definition run := StdSenderThread.run conf.
Definition GetInstanceStdErr (LogSinkQueueSize : nat) (id : Ident) (now : Z) :=
  reset (LogSinkStdErrEnabled conf) id now (StdSenderThread.mk (NewRequestQueue LogSinkQueueSize) 0 None).
End S.
End StdErrSenderThread.
(** The sender of [TraceLogWriter]'s lines. *)
Module TraceLogSenderThread.
Section S.
Context {RQ : RequestQueue}.
Variable conf : SinkConf.
Record t := mk { queue_ : queue LineLog; logWaitTime : Z }.
Definition reset (enabled : bool) (s : t) : t := mk (queue_ s) (if enabled then 500 else 30000).
Definition GetTraceLogSenderInstance (LogSinkQueueSize : nat) : t := reset (LogSinkEnabled conf) (mk (NewRequestQueue LogSinkQueueSize) 0).
Definition Run (Shutdown : bool) (LogSinkQueueSize : Z) (s : t) : t :=
  let s := reset (LogSinkEnabled conf) s in
  let s := mk (q_SetCapacity LogSinkQueueSize (queue_ s)) (logWaitTime s) in
  if Shutdown then let s := reset false s in mk (q_Clear (queue_ s)) (logWaitTime s) else s.
Definition run (id : Ident) (now : Z) (s : t) (q : Silence) : res (t * Silence * list effect) :=
  let '(tmp, qu) := q_Get (queue_ s) in
  let s := mk qu (logWaitTime s) in
  match tmp with None => Ret (s, q, []) | Some l => '(q, e) ← Send conf id now l q; Ret (s, q, e) end.
Definition Add (l : LineLog) (s : t) : t := mk (q_Put (queue_ s) l).1 (logWaitTime s).
End S.
End TraceLogSenderThread.

(** * The writer of transactions *)

Module TraceLogWriter.
Section S.
Variable conf : SinkConf.
Record t := mk { category : bytes; lineBuffer : LineBuffer.t }.
Definition NewTraceLogWriter (category : bytes) : t := mk category LineBuffer.NewLineBuffer.
(** [ctx] is the transaction and the trace of the goroutine, when it has one. *)
Definition sendLine (gid : Z) (ctx : option (Z * Z)) (w : t) (content : bytes) : res LineLog :=
  l ← CheckLogContent conf content (mkLineLog false 0 0 (category w) [] [] []);
  match (if LogSinkTraceEnabled conf then ctx else None) with
  | None => Ret l
  | Some (txid, mtid) =>
      let f := Fields l in
      let f := if LogSinkTraceTxidEnabled conf && bool_decide (txid <> 0%Z) then PutLong (str "@txid") txid f else f in
      let f := if LogSinkTraceMtidEnabled conf && bool_decide (mtid <> 0%Z) then PutLong (str "@mtid") mtid f else f in
      let f := PutLong (str "@gid") gid f in
      Ret (mkLineLog (Truncated l) (OrgContentLength l) (Time l) (LogCategory l) (Tags l) f (Content l))
  end.
(** The original is written first, whatever happens. *)
Definition Write (gid : Z) (ctx : option (Z * Z)) (data : bytes) (w : t) : res (t * list LineLog) :=
  if negb (LogSinkEnabled conf) then Ret (w, [])
  else
    let '(b, lines) := LineBuffer.Append (LogSinkLineSize conf) data (lineBuffer w) in
    logs ← mapM (sendLine gid ctx w) (filter (fun l => l <> []) lines);
    Ret (mk (category w) b, logs).
End S.
End TraceLogWriter.

(** What the buffer of lines keeps and repeats, and when a truncated line stops the sender. *)

(** * Joining lines *)

Module LineBufferFacts.
Import LineBuffer.

Definition append_all (size : Z) (st : t * list bytes) (chunks : list bytes) : t * list bytes :=
  foldl (fun '(b, outs) c => let '(b, o) := Append size c b in (b, outs ++ o)) st chunks.

(** A chunk that is a whole line with a tab in front, when part of a line waits. *)
Definition repeats (b : t) (chunk : bytes) : bool :=
  HasSuffix chunk [newline] && HasPrefix chunk tab && nonempty (out b) && negb (isMulti b).
(** What is given twice in a run. *)
Fixpoint repeated (size : Z) (b : t) (chunks : list bytes) : list bytes :=
  match chunks with
  | [] => []
  | c :: cs => (if repeats b c then [out b] else []) ++ repeated size (Append size c b).1 cs
  end.

Lemma Append_step size c b :
  let '(b', o) := Append size c b in
  if repeats b c then o = [out b] /\ out b' = out b ++ c else concat o ++ out b' = out b ++ c.
Proof.
  unfold Append, repeats. destruct c as [|x c]; [simpl; by rewrite app_nil_r|]. set (l := x :: c).
  destruct (HasSuffix l [newline]); cbn [andb].
  - destruct (HasPrefix l tab); cbn [andb].
    + destruct (nonempty (out b)) eqn:E; cbn [andb]; [|done]. by destruct (isMulti b).
    + destruct (out b) as [|y o] eqn:E; simpl; [by rewrite ?E, !app_nil_r|by rewrite !app_nil_r].
  - destruct (_ <=? _)%Z; simpl; [by rewrite app_nil_r|done].
Qed.

(** Whatever is written, every byte is in the records given or in the buffer, in order, once;
    but for the parts of a line that were waiting when a whole line with a tab came: those
    are given, and stay in the buffer. *)
Theorem Append_conserves size chunks b :
  let '(b', outs) := append_all size (b, []) chunks in
  length (concat outs) + length (out b') = length (out b) + length (concat chunks) + length (concat (repeated size b chunks)) /\
  (repeated size b chunks = [] -> concat outs ++ out b' = out b ++ concat chunks).
Proof.
  assert (forall outs0, let '(b', outs) := append_all size (b, outs0) chunks in
    length (concat outs) + length (out b') =
      length (concat outs0) + length (out b) + length (concat chunks) + length (concat (repeated size b chunks)) /\
    (repeated size b chunks = [] -> concat outs ++ out b' = concat outs0 ++ out b ++ concat chunks)) as H.
  2:{ specialize (H []). destruct (append_all size (b, []) chunks). exact H. }
  revert b. induction chunks as [|c cs IH]; intros b outs0; simpl.
  { split; [lia|]. by rewrite app_nil_r. }
  pose proof (Append_step size c b) as HA. destruct (Append size c b) as [b1 o1]. cbn [fst].
  specialize (IH b1 (outs0 ++ o1)). unfold append_all in IH |- *. destruct (foldl _ _ cs) as [b' outs].
  destruct IH as [IH1 IH2]. rewrite concat_app, length_app in IH1. destruct (repeats b c).
  - destruct HA as [-> HA]. split; [|done]. rewrite HA in IH1. simpl in *. rewrite !length_app in *. simpl in *. lia.
  - pose proof (f_equal length HA) as HL. rewrite !length_app in HL. simpl. rewrite !length_app.
    split; [lia|]. intros Hr. rewrite (IH2 Hr), concat_app, <- !app_assoc. f_equal.
    by rewrite (app_assoc (concat o1)), HA, <- app_assoc.
Qed.

(** [log.Print] of a part, a stack line and another line: the part is sent twice. *)
Example part_repeated :
  (append_all 512 (NewLineBuffer, []) [str "part"; tab ++ str "at main" ++ [newline]; str "next" ++ [newline]]).2
  = [str "part"; str "part" ++ tab ++ str "at main" ++ [newline] ++ str "next" ++ [newline]].
Proof. vm_compute. reflexivity. Qed.
(** Lines with a tab in front are not bounded by the size of a line. *)
Lemma tabs_unbounded size n b :
  n * 2 <= length (out (append_all size (b, []) (repeat (tab ++ [newline]) n)).1).
Proof.
  assert (forall o, n * 2 + length (out b) <= length (out (append_all size (b, o) (repeat (tab ++ [newline]) n)).1)) as H.
  2:{ specialize (H []). lia. }
  revert b. induction n as [|n IH]; intros b o; simpl; [lia|]. unfold append_all in *. simpl.
  destruct (nonempty (out b) && negb (isMulti b)); simpl.
  - specialize (IH (mk true (out b ++ [Ascii.ascii_of_N 9; newline])) (o ++ [out b])). simpl in IH. rewrite length_app in IH. simpl in IH. lia.
  - specialize (IH (mk true (out b ++ [Ascii.ascii_of_N 9; newline])) (o ++ [])). simpl in IH. rewrite length_app in IH. simpl in IH. lia.
Qed.

(** [AppendLine] never finds text that is not of lines with a tab. *)
Lemma AppendLine_multi line b :
  (out b <> [] -> isMulti b = true) -> out (AppendLine line b).1 <> [] -> isMulti (AppendLine line b).1 = true.
Proof.
  intros H. unfold AppendLine. destruct line as [|x l].
  - destruct (nonempty (out b)) eqn:E; simpl; [done|by apply H].
  - destruct (HasPrefix _ _); [by destruct (_ && _)|]. by destruct (out b) eqn:E.
Qed.
End LineBufferFacts.

(** * Truncated lines *)

Section Truncated.
Variable conf : SinkConf.

Lemma CheckLogContent_spec content l l' :
  Truncated l = false -> CheckLogContent conf content l = Ret l' ->
  (Truncated l' = true ->
     LogSinkLimitContentEnabled conf = true /\ (0 <= LogSinkLimitContentLength conf < Z.of_nat (length content))%Z /\
     Content l' = take (Z.to_nat (LogSinkLimitContentLength conf)) content ++ truncated_mark /\
     OrgContentLength l' = Z.of_nat (length content)) /\
  (Truncated l' = false -> content <> [] -> Content l' = content).
Proof.
  intros Hl. unfold CheckLogContent. destruct content as [|x c]; [intros [= <-]; by rewrite Hl|]. set (s := x :: c).
  destruct (LogSinkLimitContentEnabled conf) eqn:He; cbn [andb]; [|intros [= <-]; simpl; by rewrite Hl].
  destruct (Z.ltb_spec (LogSinkLimitContentLength conf) (Z.of_nat (length s))) as [H1|H1]; [|intros [= <-]; simpl; by rewrite Hl].
  destruct (Z.ltb_spec (LogSinkLimitContentLength conf) 0) as [H2|H2]; [done|].
  unfold slice. rewrite decide_True by lia. intros [= <-]. simpl. split; [|done]. intros _.
  subst s. simpl length in *. split; [done|]. split; [lia|]. split; [by rewrite Nat.sub_0_r|done].
Qed.

(** Without the debug print, sending a line that was checked panics exactly when it was
    truncated to a limit below 6: the note on it quotes twenty bytes, and the mark has
    fourteen. *)
Theorem Send_panics content l l' id now q :
  Truncated l = false -> CheckLogContent conf content l = Ret l' -> DebugLogSinkEnabled conf = false ->
  (Send conf id now l' q = Panic <-> Truncated l' = true /\ (LogSinkLimitContentLength conf < 6)%Z).
Proof.
  intros Hl HC Hd. destruct (CheckLogContent_spec _ _ _ Hl HC) as [HT _]. unfold Send, Log, CreateLogMessage. rewrite Hd.
  destruct (Truncated l') eqn:Et; [|by split; [|intros []]].
  destruct (HT eq_refl) as (_ & Hr & Hc & _). unfold slice. rewrite Hc.
  assert (length (take (Z.to_nat (LogSinkLimitContentLength conf)) content ++ truncated_mark) =
    Z.to_nat (LogSinkLimitContentLength conf) + 14) as Hlen.
  { rewrite length_app, length_take. change (length truncated_mark) with 14. lia. }
  rewrite Hlen. case_decide as H20; cbn [mbind res_bind].
  - destruct (LogStr conf now _ q) as [q1 e1]. destruct (AlertLogTruncated conf now _ q1) as [q2 e2].
    cbn [mbind res_bind]. split; [done|]. intros [_ H6]. lia.
  - split; [|done]. intros _. split; [done|]. lia.
Qed.
End Truncated.

Module Sample.
Definition conf (limit : Z) : SinkConf :=
  mkSinkConf true 512 true limit true 1000 false 1000 false false [] false 0 (str "AppStdOut") (str "AppStdErr") true true true true true.
Definition id : Ident := mkIdent 2 7 0 0 (str "app") [] [].
Definition line : LineLog := mkLineLog false 0 0 (str "AppLog") [] [] [].
Lemma Send_panics_witness :
  exists l', CheckLogContent (conf 5) (str "a line of text") line = Ret l' /\ Send (conf 5) id 9 l' (mkSilence 0 0) = Panic.
Proof.
  eexists. split; [reflexivity|].
  apply (Send_panics (conf 5) (str "a line of text") line _ id 9 (mkSilence 0 0)); [reflexivity|reflexivity|reflexivity|].
  split; [reflexivity|simpl; lia].
Defined.
End Sample.
