(* ===== verification/Watch.v ===== *)
(** Files of logs that are watched, [src/agent/logsink/watch]: what a poll of a file reads
    and sends ([WatchLog.go]), the tags found in a line ([AppLogParser.go]) and the table
    of watched files ([WatchLogManager.go]).

    A poll sees one state of the file.  The reader is Go's [bufio.Scanner] over the file: it
    fills its buffer, so the position of the file afterwards is that of the buffer and not of
    the lines it gave.  The pattern of tags and the parser of their text are arguments, as
    the dates in file names; no file has the encoding [euc-kr], which is never set. *)

From S2P Require Import Prelude LlmChunk LlmPack LlmState LlmSender DataPack LogSink Hmap.

(** * [bufio.Scanner] over a file *)

Module Scanner.
(** The bytes in the buffer with their place in it, the length of the buffer, the position
    of the file, and whether its end was met. *)
Record t := mk { pending : bytes; start : nat; blen : N; pos : nat; eof : bool; failed : bool }.
Definition NewScanner (pos : nat) : t := mk [] 0 0 pos false false.
Definition startBufSize : N := 4096.

(** The first line of the buffer, with the length of its end. *)
Fixpoint cut_line (cur s : bytes) : option (bytes * bytes) :=
  match s with
  | [] => None
  | c :: s => if bool_decide (c = newline) then Some (rev cur, s) else cut_line (c :: cur) s
  end.
(** One turn of the loop of [Scan]: a line, the end, or a read. *)
Inductive turn := Line (l : bytes) (s : t) | End_ (s : t) | Again (s : t).
Definition fill (file : bytes) (s : t) : t :=
  let n := N.to_nat (blen s) - (start s + length (pending s)) in
  let got := take n (drop (pos s) file) in
  match got with
  | [] => mk (pending s) (start s) (blen s) (pos s) true (failed s)
  | _ => mk (pending s ++ got) (start s) (blen s) (pos s + length got) (eof s) (failed s)
  end.
Definition read_more (file : bytes) (s : t) : turn :=
  if eof s then End_ (mk [] 0 (blen s) (pos s) true (failed s))
  else
    let finish := N.of_nat (start s + length (pending s)) in
    let start' := if bool_decide (0 < start s) && ((finish =? blen s)%N || (blen s / 2 <? N.of_nat (start s))%N) then 0 else start s in
    if (N.of_nat (start' + length (pending s)) =? blen s)%N then
      if (65536 <=? blen s)%N then End_ (mk (pending s) start' (blen s) (pos s) false true)
      else
        let size := if (blen s =? 0)%N then startBufSize else (blen s * 2)%N in
        Again (fill file (mk (pending s) 0 (N.min size 65536) (pos s) false (failed s)))
    else Again (fill file (mk (pending s) start' (blen s) (pos s) false (failed s))).
Definition scan_turn (file : bytes) (s : t) : turn :=
  match pending s with
  | [] => read_more file s
  | _ =>
      match cut_line [] (pending s) with
      | Some (l, rest) =>
          Line (dropCR l) (mk rest (start s + (length (pending s) - length rest)) (blen s) (pos s) (eof s) (failed s))
      | None => if eof s then Line (dropCR (pending s)) (mk [] (start s + length (pending s)) (blen s) (pos s) true (failed s)) else read_more file s
      end
  end.
(** [Scan]: false at the end, or when a line does not fit. *)
Fixpoint Scan (fuel : nat) (file : bytes) (s : t) : res (t * option bytes) :=
  match fuel with
  | O => OutOfFuel
  | S fuel =>
      if failed s then Ret (s, None)
      else match scan_turn file s with Line l s => Ret (s, Some l) | End_ s => Ret (s, None) | Again s => Scan fuel file s end
  end.
Definition scan_fuel (file : bytes) : nat := length file + 8.
End Scanner.

(** * A watched file *)

(** The tags of a line: the texts the pattern finds, and what a text says. *)
Class AppLog := {
  find_logs : bytes -> list bytes;
  unmarshal : bytes -> option (list (bytes * bytes))
}.
Record WatchConf := mkWatchConf {
  WatchLogReadCount : Z; WatchLogLineSize : Z; ZipEnabled : bool;
  LogSendThreshold : Z; TxIdTag : bytes; AppLogCategory : bytes
}.
(** [filepath.Base] *)
Definition slash : ascii := "/"%char.
Fixpoint trim_slashes (s : bytes) : bytes := match s with c :: s' => if bool_decide (c = slash) then trim_slashes s' else s | [] => [] end.
Fixpoint upto_slash (s : bytes) : bytes := match s with c :: s => if bool_decide (c = slash) then [] else c :: upto_slash s | [] => [] end.
Definition Base (path : bytes) : bytes :=
  match path with
  | [] => str "."
  | _ => match trim_slashes (rev path) with [] => [slash] | r => rev (upto_slash r) end
  end.

Module WatchLog.
Section S.
Context {AL : AppLog}.
Record t := mk {
  Id : bytes; Activated : bool; FileName : bytes; FileInfo : option Z; FilePos : Z;
  Words : list bytes; CheckInterval : Z; ExpirationTime : Z; LastCheckTime : Z; trxLogFound : bool; Category : bytes
}.
Definition NewWatchLog (id : bytes) : t := mk id false [] None 0 [] 0 0 0 false (Base id).
(** [file] is what the name has on the disk. *)
Definition Config (id fileName : bytes) (file : option bytes) (w : t) : t :=
  w <| Category := Base id |> <| FileName := fileName |> <| FileInfo := (fun b => Z.of_nat (length b)) <$> file |>.

(** ** Sending *)

Definition apply_match (conf : WatchConf) (st : LogSinkPack * bool) (jsonString : bytes) : LogSinkPack * bool :=
  let '(p, ret) := st in
  match jsonString with
  | [] => (p, ret)
  | _ =>
      match unmarshal jsonString with
      | None => (p, ret)
      | Some tags =>
          (foldl (fun p '(k, v) =>
             mkLogSinkPack (l_Time p) (if bool_decide (k = TxIdTag conf) then AppLogCategory conf else l_Category p)
               (l_Tags p ++ [(k, MString v)]) (l_Fields p) (l_Content p) (l_Line p)) p tags, true)
      end
  end.
Definition ApplyAppLog (conf : WatchConf) (p : LogSinkPack) (line : bytes) : LogSinkPack * bool :=
  match line with [] => (p, false) | _ => foldl (apply_match conf) (p, false) (find_logs line) end.
Definition validateTxHeader (line : bytes) : bool := nonempty (find_logs line).

(** A file whose information is gone panics at its size. *)
Definition send (conf : WatchConf) (id : Ident) (now : Z) (w : t) (line : bytes) : res (t * effect) :=
  let tags := PutString "file" (FileName w) [] in
  let tags := if nonempty (ONAME id) then PutString "oname" (ONAME id) tags else tags in
  let tags := if bool_decide (OKIND id <> 0%Z) then PutString "okindName" (OKIND_NAME id) tags else tags in
  let tags := if bool_decide (ONODE id <> 0%Z) then PutString "onodeName" (ONODE_NAME id) tags else tags in
  let '(p, found) := ApplyAppLog conf (mkLogSinkPack now (Category w) tags [] [] 0) line in
  let w := w <| trxLogFound := found || trxLogFound w |> in
  match FileInfo w with
  | None => Panic
  | Some size =>
      let p := mkLogSinkPack (l_Time p) (l_Category p) (l_Tags p) (l_Fields p) line size in
      Ret (w, if ZipEnabled conf then ZipAdd p else DataSend p)
  end.
(** A line is sent once for each word it has. *)
Definition send_words (conf : WatchConf) (id : Ident) (now : Z) (st : t * list effect) (line : bytes) : res (t * list effect) :=
  let '(w, es) := st in
  match Words w with
  | [] => '(w, e) ← send conf id now w line; Ret (w, es ++ [e])
  | words => foldM (fun '(w, es) word => if Contains line word then '(w, e) ← send conf id now w line; Ret (w, es ++ [e]) else Ret (w, es)) (w, es) words
  end.
Definition parseAndSend (conf : WatchConf) (id : Ident) (now : Z) (lines : list bytes) (w : t) : res (t * list effect) :=
  foldM (send_words conf id now) (w, []) lines.

(** ** A poll *)

(** [for scanner.Scan() && lineCount < lineLimit]: the line after the last is read and lost. *)
Fixpoint read_loop (fuel : nat) (file : bytes) (lineLimit : Z) (s : Scanner.t) (result : list bytes) : res (Scanner.t * list bytes) :=
  match fuel with
  | O => OutOfFuel
  | S fuel =>
      '(s, tok) ← Scanner.Scan (Scanner.scan_fuel file) file s;
      match tok with
      | None => Ret (s, result)
      | Some text =>
          if (Z.of_nat (length result) <? lineLimit)%Z then
            read_loop fuel file lineLimit s (match TrimSpace text with [] => result | l => result ++ [l] end)
          else Ret (s, result)
      end
  end.
Definition read (file : bytes) (pos : nat) (lineLimit : Z) : res (nat * list bytes) :=
  '(s, lines) ← read_loop (S (length file)) file lineLimit (Scanner.NewScanner pos) [];
  Ret (Scanner.pos s, lines).
(** What is done before a panic stays done. *)
Fixpoint process_reads (conf : WatchConf) (id : Ident) (now : Z) (file : bytes) (n : nat) (w : t) : t * list effect :=
  match n with
  | O => (w, [])
  | S n =>
      if (Z.of_nat (length file) <=? FilePos w)%Z then (w, [])
      else
        match read file (Z.to_nat (FilePos w)) (WatchLogLineSize conf) with
        | Ret (cur, lines) =>
            let w := w <| FilePos := Z.of_nat cur |> in
            match lines with
            | [] => (w, [])
            | _ =>
                match parseAndSend conf id now lines w with
                | Ret (w, es) => let '(w, es') := process_reads conf id now file n w in (w, es ++ es')
                | _ => (w, [])
                end
            end
        | _ => (w, [])
        end
  end.
(** [now] is read twice; the file may be gone. *)
Definition process (conf : WatchConf) (id : Ident) (now : Z) (file : option bytes) (w : t) : t * list effect :=
  let w := match file with
           | Some b => w <| FileInfo := Some (Z.of_nat (length b)) |>
           | None => w <| FileInfo := None |> <| FilePos := (-1)%Z |>
           end in
  if (FilePos w <? 0)%Z then (match FileInfo w with Some size => w <| FilePos := size |> | None => w end, [])
  else if (now <? LastCheckTime w + CheckInterval w)%Z then (w, [])
  else
    let w := w <| LastCheckTime := now |> in
    match file, FileInfo w with
    | Some b, Some size =>
        if (size <? FilePos w)%Z then (w <| FilePos := size |>, [])
        else process_reads conf id now b (Z.to_nat (WatchLogReadCount conf)) w
    | _, _ => (w, [])
    end.

(** With tags found, lines are joined up to the next line with tags. *)
Fixpoint multi_loop (fuel : nat) (conf : WatchConf) (id : Ident) (now : Z) (file : bytes) (s : Scanner.t)
    (buffer : bytes) (lineCount : Z) (w : t) (es : list effect) : res (Scanner.t * bytes * t * list effect) :=
  match fuel with
  | O => OutOfFuel
  | S fuel =>
      '(s, tok) ← Scanner.Scan (Scanner.scan_fuel file) file s;
      match tok with
      | None => Ret (s, buffer, w, es)
      | Some line =>
          let lineCount := (lineCount + 1)%Z in
          '(w, es, buffer, lineCount) ← (
            if (validateTxHeader line || (LogSendThreshold conf <? lineCount)%Z) && nonempty buffer then
              '(w, e) ← parseAndSend conf id now [buffer] w; Ret (w, es ++ e, [], 0%Z)
            else Ret (w, es, buffer, lineCount));
          multi_loop fuel conf id now file s (buffer ++ (if nonempty buffer then [newline] else []) ++ line) lineCount w es
      end
  end.
Definition processMultilineLogs (conf : WatchConf) (id : Ident) (now : Z) (file : option bytes) (w : t) : res (t * list effect) :=
  match file with
  | None => Ret (w, [])
  | Some b =>
      let size := Z.of_nat (length b) in
      if (size =? FilePos w)%Z then Ret (w, [])
      else
        let w := if (size <? FilePos w)%Z then w <| FilePos := 0%Z |> else w in
        if (FilePos w <? 0)%Z then Ret (w, [])
        else
          '(s, buffer, w, es) ← multi_loop (S (length b)) conf id now b (Scanner.NewScanner (Z.to_nat (FilePos w))) [] 0 w [];
          '(w, es) ← (match buffer with [] => Ret (w, es) | _ => '(w, e) ← parseAndSend conf id now [buffer] w; Ret (w, es ++ e) end);
          Ret (w <| FilePos := Z.of_nat (Scanner.pos s) |>, es)
  end.
Definition Process (conf : WatchConf) (id : Ident) (now : Z) (file : option bytes) (w : t) : res (t * list effect) :=
  if trxLogFound w then processMultilineLogs conf id now file w else Ret (process conf id now file w).

Definition Activate (w : t) : t :=
  (if Activated w then w else w <| FilePos := default (-1)%Z (FileInfo w) |>) <| Activated := true |>.
Definition ActivateFirst (w : t) : t :=
  (if Activated w then w else w <| FilePos := match FileInfo w with Some _ => 0%Z | None => (-1)%Z end |>) <| Activated := true |>.
Definition Stop (w : t) : t := w <| Activated := false |>.
Definition Reset (w : t) : t := w <| FilePos := (-1)%Z |>.
End S.
End WatchLog.
