(* ===== verification/WatchFacts.v ===== *)
(** What the polls of a watched file send: every line that is not blank, once and in order,
    as long as the lines between two polls are fewer than the limit; and what is lost when
    they are not. *)

From S2P Require Import Prelude LlmChunk LlmPack LlmState LlmSender DataPack LogSink Hmap Watch.

(** * Lines *)

Lemma cut_line_spec cur s :
  match Scanner.cut_line cur s with
  | Some (l, rest) => exists k, l = rev cur ++ k /\ s = k ++ newline :: rest /\ newline ∉ k
  | None => newline ∉ s
  end.
Proof.
  revert cur; induction s as [|c s IH]; intros cur; simpl; [apply not_elem_of_nil|].
  case_bool_decide as Hc.
  - subst c. exists []. rewrite app_nil_r. repeat split. apply not_elem_of_nil.
  - specialize (IH (c :: cur)). destruct (Scanner.cut_line (c :: cur) s) as [[l rest]|].
    + destruct IH as (k & -> & -> & Hk). exists (c :: k). simpl. rewrite <- app_assoc. repeat split.
      apply not_elem_of_cons. by split.
    + apply not_elem_of_cons. by split.
Qed.
Lemma split_lines_cons cur k s :
  newline ∉ k -> split_lines cur (k ++ newline :: s) = (rev cur ++ k) :: split_lines [] s.
Proof.
  revert cur; induction k as [|c k IH]; intros cur Hk; simpl.
  - by rewrite app_nil_r.
  - apply not_elem_of_cons in Hk as [Hc Hk]. rewrite bool_decide_eq_false_2 by congruence.
    rewrite IH by done. simpl. by rewrite <- app_assoc.
Qed.
Lemma split_lines_last cur k : newline ∉ k -> split_lines cur k = match rev cur ++ k with [] => [] | l => [l] end.
Proof.
  revert cur; induction k as [|c k IH]; intros cur Hk; simpl.
  - rewrite app_nil_r. destruct cur as [|x cur]; [done|]. simpl. by destruct (rev cur ++ [x]) eqn:E; [destruct (rev cur)|].
  - apply not_elem_of_cons in Hk as [Hc Hk]. rewrite bool_decide_eq_false_2 by congruence.
    rewrite IH by done. simpl. by rewrite <- app_assoc.
Qed.
(** Whole lines in front split off. *)
Definition whole (s : bytes) : Prop := s = [] \/ exists k, s = k ++ [newline].
Lemma split_lines_whole s t : whole s -> split_lines [] (s ++ t) = split_lines [] s ++ split_lines [] t.
Proof.
  intros [-> |[k ->]]; [done|]. rewrite <- app_assoc. simpl.
  assert (forall cur, split_lines cur (k ++ newline :: t) = split_lines cur (k ++ [newline]) ++ split_lines [] t) as H; [|apply H].
  induction k as [|c k IH]; intros cur; simpl; [done|].
  case_bool_decide; simpl; by rewrite IH.
Qed.

(** * The scanner *)

Import Scanner.
Definition short (l : bytes) : Prop := (N.of_nat (length l) < 65536)%N.
Definition todo (file : bytes) (s : t) : bytes := pending s ++ drop (pos s) file.
Record ok (file : bytes) (s : t) : Prop := {
  ok_room : (N.of_nat (start s + length (pending s)) <= blen s <= 65536)%N;
  ok_pos : pos s <= length file;
  ok_eof : eof s = true -> pos s = length file;
  ok_fail : failed s = false
}.

Lemma fill_spec file s :
  ok file s -> eof s = false -> (N.of_nat (start s + length (pending s)) < blen s)%N ->
  ok file (fill file s) /\ todo file (fill file s) = todo file s /\
  (eof (fill file s) = true \/ pos s < pos (fill file s)) /\ pos s <= pos (fill file s).
Proof.
  intros [H1 H2 H3 H4] He Hr. unfold fill, todo.
  set (n := N.to_nat (blen s) - (start s + length (pending s))).
  destruct (take n (drop (pos s) file)) as [|x g] eqn:E.
  - assert (pos s = length file) as Hp.
    { apply (f_equal length) in E. rewrite length_take, length_drop in E. simpl in E. subst n. lia. }
    split; [|split; [done|split; [by left|simpl; lia]]]. by split.
  - assert (length (x :: g) <= n /\ length (x :: g) <= length file - pos s /\ drop (pos s) file = (x :: g) ++ drop (pos s + length (x :: g)) file) as (L1 & L2 & L3).
    { rewrite <- E, length_take, length_drop. split; [lia|split; [lia|]]. rewrite <- drop_drop.
      rewrite <- (take_drop (min n (length file - pos s)) (drop (pos s) file)) at 1. f_equal.
      destruct (decide (n <= length file - pos s)); [by rewrite Nat.min_l by done|].
      rewrite Nat.min_r by lia. rewrite !take_ge; [done|rewrite length_drop; lia..]. }
    assert (0 < length (x :: g)) by (simpl; lia). clear E. revert L1 L2 L3 H. generalize (x :: g) as got. intros got L1 L2 L3 L4.
    split; [|split; [|simpl; split; [right|]; lia]].
    + split; simpl; [rewrite length_app; lia|lia|congruence|done].
    + simpl. rewrite L3. by rewrite <- app_assoc.
Qed.

(** What the first line of the rest of the file gives. *)
Definition first_line (s : bytes) : option (bytes * bytes) :=
  match cut_line [] s with Some r => Some r | None => match s with [] => None | _ => Some (s, []) end end.
Lemma first_line_app a b l rest :
  cut_line [] a = Some (l, rest) -> first_line (a ++ b) = Some (l, rest ++ b).
Proof.
  intros E. pose proof (cut_line_spec [] a) as H. rewrite E in H. destruct H as (k & Hl & -> & Hk). simpl in Hl. subst k.
  unfold first_line. pose proof (cut_line_spec [] ((l ++ newline :: rest) ++ b)) as H.
  destruct (cut_line [] ((l ++ newline :: rest) ++ b)) as [[l' r']|].
  - destruct H as (k' & -> & E' & Hk'). simpl. rewrite <- app_assoc in E'. simpl in E'.
    assert (l = k' /\ rest ++ b = r') as [-> ->]; [|done].
    clear E. revert k' Hk' E'. induction l as [|c l IH]; intros [|c' k'] Hk' E'; simpl in *; simplify_eq; [done|..].
    + exfalso. apply Hk'. apply list_elem_of_here.
    + exfalso. apply Hk. apply list_elem_of_here.
    + apply not_elem_of_cons in Hk as [_ Hk], Hk' as [_ Hk']. by destruct (IH Hk k' Hk') as [-> ->].
  - exfalso. apply H. rewrite <- app_assoc. simpl. set_solver.
Qed.
Lemma first_line_split s :
  split_lines [] s = match first_line s with Some (l, rest) => l :: split_lines [] rest | None => [] end.
Proof.
  unfold first_line. pose proof (cut_line_spec [] s) as H. destruct (cut_line [] s) as [[l rest]|].
  - destruct H as (k & -> & -> & Hk). by rewrite split_lines_cons.
  - rewrite split_lines_last by done. by destruct s.
Qed.
Lemma first_line_prefix a b l rest :
  newline ∉ a -> first_line (a ++ b) = Some (l, rest) -> length a <= length l.
Proof.
  intros Ha. unfold first_line. pose proof (cut_line_spec [] (a ++ b)) as H. destruct (cut_line [] (a ++ b)) as [[l' r']|].
  - intros [= -> ->]. destruct H as (k & -> & E & Hk). simpl.
    destruct (decide (length a <= length k)) as [|Hlt]; [done|]. exfalso. apply Ha.
    assert (a !! length k = Some newline) as Hlk.
    { rewrite <- (lookup_app_l a b) by lia. rewrite E. by rewrite list_lookup_middle. }
    by eapply list_elem_of_lookup_2.
  - destruct (a ++ b) eqn:E; [done|]. intros [= <- <-]. rewrite <- E, length_app. lia.
Qed.
(** A turn without a line reads. *)
Definition due (file : bytes) (s : t) : nat := (length file - pos s) + (if eof s then 0 else 1).
Definition keeps (file : bytes) (s s' : t) : Prop := ok file s' /\ todo file s' = todo file s /\ pos s <= pos s'.
Lemma fill_keeps file s st bl :
  ok file s -> eof s = false -> (N.of_nat (st + length (pending s)) < bl <= 65536)%N ->
  let s' := fill file (mk (pending s) st bl (pos s) false (failed s)) in
  keeps file s s' /\ due file s' < due file s.
Proof.
  intros [H1 H2 H3 H4] He Hr. destruct (fill_spec file (mk (pending s) st bl (pos s) false (failed s))) as (F1 & F2 & F3 & F4);
    [split; simpl; try done; lia|done|simpl; lia|].
  split; [split; [done|split; [exact F2|exact F4]]|]. unfold due. rewrite He. simpl in F3, F4.
  pose proof (ok_pos _ _ F1). cbv zeta. destruct F3 as [->|]; [lia|]. case_match; lia.
Qed.
Lemma read_more_spec file s :
  ok file s -> newline ∉ pending s ->
  (forall l rest, first_line (todo file s) = Some (l, rest) -> short l) ->
  match read_more file s with
  | Line _ _ => False
  | End_ s' => eof s = true /\ s' = mk [] 0 (blen s) (pos s) true (failed s)
  | Again s' => keeps file s s' /\ due file s' < due file s
  end.
Proof.
  intros Ho Hn Hs. pose proof Ho as [H1 H2 H3 H4]. unfold read_more. destruct (eof s) eqn:He; [done|]. cbv zeta.
  set (start' := if _ && _ then 0 else start s).
  assert (start' <= start s /\ (start' + length (pending s) = start s + length (pending s) -> (N.of_nat (start s + length (pending s)) = blen s)%N -> start s = 0)) as [Hle Hfull].
  { unfold start'. destruct (decide (0 < start s)); [|split; [destruct (_ && _)|]; lia].
    rewrite bool_decide_eq_true_2 by done. destruct (N.eqb_spec (N.of_nat (start s + length (pending s))) (blen s)); simpl; [lia|]. split; [destruct (_ <? _)%N; lia|]. lia. }
  clearbody start'.
  destruct (N.eqb_spec (N.of_nat (start' + length (pending s))) (blen s)) as [Eb|Eb]; [|apply fill_keeps; [done|done|lia]].
  assert (start s = 0 /\ start' = 0) as [Z1 Z2] by lia.
  destruct (N.leb_spec 65536 (blen s)) as [Hb|Hb].
  - exfalso. destruct (first_line (todo file s)) as [[l rest]|] eqn:E.
    + pose proof (Hs l rest eq_refl) as Hl. apply first_line_prefix in E; [|done]. unfold short in Hl. lia.
    + unfold first_line in E. destruct (cut_line [] (todo file s)); [done|].
      destruct (todo file s) eqn:Et; [|done]. unfold todo in Et. apply app_eq_nil in Et as [Et _]. rewrite Et in Eb. simpl in Eb. lia.
  - apply fill_keeps; [done|done|]. destruct (N.eqb_spec (blen s) 0); unfold startBufSize; lia.
Qed.
Lemma turn_spec file s :
  ok file s ->
  (forall l rest, first_line (todo file s) = Some (l, rest) -> short l) ->
  match scan_turn file s with
  | Line l s' => exists k, first_line (todo file s) = Some (k, todo file s') /\ l = dropCR k /\ ok file s' /\ pos s' = pos s
  | End_ s' => todo file s = [] /\ todo file s' = [] /\ ok file s' /\ pos s' = length file
  | Again s' => keeps file s s' /\ due file s' < due file s
  end.
Proof.
  intros Ho Hs. pose proof Ho as [H1 H2 H3 H4].
  pose proof (cut_line_spec [] (pending s)) as Hc. pose proof (fun H => read_more_spec file s Ho H Hs) as Hmore.
  unfold scan_turn. destruct (pending s) as [|c p] eqn:Ep.
  { specialize (Hmore (not_elem_of_nil _)). destruct (read_more file s) as [l' s'|s'|s']; [done| |done].
    destruct Hmore as [He ->]. unfold todo. rewrite Ep. simpl. rewrite drop_ge by (rewrite H3; done). split; [done|]. split; [done|]. split; [|auto]. split; simpl; [lia|done|auto|done]. }
  destruct (cut_line [] (c :: p)) as [[l rest]|] eqn:Ec.
  - exists l. destruct Hc as (k & Hk & Hk2 & Hk3). split; [|split; [done|split; [|done]]].
    + unfold todo at 1. rewrite Ep. by apply first_line_app.
    + apply (f_equal length) in Hk2. rewrite length_app in Hk2. cbn [length] in Hk2.
      split; cbn [pending start blen pos eof failed]; [cbn [length] in *; lia|done|done|done].
  - specialize (Hmore Hc). destruct (eof s) eqn:He.
    + exists (c :: p). unfold todo. rewrite Ep. cbn [pending pos]. rewrite (drop_ge file) by (rewrite H3; done). rewrite app_nil_r.
      unfold first_line. rewrite Ec. split; [done|]. split; [done|]. split; [|done].
      split; simpl; [cbn [length] in *; lia|done|auto|done].
    + destruct (read_more file s) as [l' s'|s'|s']; [done| |done]. by destruct Hmore as [[=] _].
Qed.
Lemma Scan_spec fuel file s :
  ok file s ->
  (forall l rest, first_line (todo file s) = Some (l, rest) -> short l) ->
  due file s < fuel ->
  exists s', ok file s' /\ pos s <= pos s' /\
    match first_line (todo file s) with
    | Some (l, rest) => Scan fuel file s = Ret (s', Some (dropCR l)) /\ todo file s' = rest
    | None => Scan fuel file s = Ret (s', None) /\ todo file s' = [] /\ pos s' = length file
    end.
Proof.
  revert s; induction fuel as [|fuel IH]; intros s Ho Hs Hd; [lia|]. simpl.
  rewrite (ok_fail _ _ Ho). pose proof (turn_spec file s Ho Hs) as Ht. destruct (scan_turn file s) as [l s'|s'|s'].
  - destruct Ht as (k & -> & -> & Ho' & Hp). exists s'. split; [done|]. split; [lia|]. done.
  - destruct Ht as (E1 & E2 & Ho' & Hp). exists s'. split; [done|]. split; [pose proof (ok_pos _ _ Ho); lia|].
    by rewrite E1.
  - destruct Ht as [(Ho' & E & Hp) Hdue]. rewrite <- E in Hs |- *.
    destruct (IH s' Ho' Hs) as (s2 & A & B & C); [lia|]. exists s2. split; [done|]. split; [lia|done].
Qed.

(** * A poll *)

Definition line_of (l : bytes) : option bytes := match TrimSpace (dropCR l) with [] => None | l => Some l end.
(** The lines of the text that are not blank, trimmed. *)
Definition texts (s : bytes) : list bytes := omap line_of (split_lines [] s).
Lemma texts_first s :
  texts s = match first_line s with Some (l, rest) => match line_of l with Some x => x :: texts rest | None => texts rest end | None => [] end.
Proof. unfold texts. rewrite first_line_split. destruct (first_line s) as [[l rest]|]; [|done]. simpl. by destruct (line_of l). Qed.
Lemma texts_whole s t : whole s -> texts (s ++ t) = texts s ++ texts t.
Proof. intros H. unfold texts. by rewrite split_lines_whole, omap_app. Qed.
Lemma first_line_length s l rest : first_line s = Some (l, rest) -> length rest < length s.
Proof.
  unfold first_line. pose proof (cut_line_spec [] s) as H. destruct (cut_line [] s) as [[l' r']|].
  - destruct H as (k & -> & -> & _). intros [= <- <-]. rewrite length_app. simpl. lia.
  - destruct s; [done|]. intros [= <- <-]. simpl. lia.
Qed.
Lemma read_loop_spec file limit fuel s result :
  ok file s -> Forall short (split_lines [] (todo file s)) -> length (todo file s) < fuel ->
  (Z.of_nat (length result + length (texts (todo file s))) < limit)%Z ->
  exists s', WatchLog.read_loop fuel file limit s result = Ret (s', result ++ texts (todo file s)) /\ pos s' = length file.
Proof.
  revert s result; induction fuel as [|fuel IH]; intros s result Ho Hs Hf Hl; [lia|]. simpl.
  assert (forall l rest, first_line (todo file s) = Some (l, rest) -> short l) as Hs1.
  { intros l rest E. rewrite first_line_split, E in Hs. by inversion Hs. }
  destruct (Scan_spec (scan_fuel file) file s Ho Hs1) as (s1 & Ho1 & Hp & Hsc).
  { unfold due, scan_fuel. destruct (eof s); lia. }
  rewrite texts_first in Hl |- *. rewrite first_line_split in Hs.
  destruct (first_line (todo file s)) as [[l rest]|] eqn:E.
  - destruct Hsc as [-> <-]. cbn [mbind res_bind]. apply first_line_length in E. inversion Hs as [|? ? Hs2 Hs3]; subst.
    rewrite (proj2 (Z.ltb_lt _ _)) by lia. unfold line_of in Hl |- *.
    destruct (TrimSpace (dropCR l)) as [|c x].
    + apply (IH s1 result Ho1 Hs3); [lia|done].
    + destruct (IH s1 (result ++ [c :: x]) Ho1 Hs3) as (s2 & A & B); [lia|rewrite length_app; simpl in *; lia|].
      exists s2. rewrite A. by rewrite <- app_assoc.
  - destruct Hsc as (-> & _ & Hend). cbn [mbind res_bind]. exists s1. by rewrite app_nil_r.
Qed.
Lemma read_spec file p limit :
  p <= length file -> Forall short (split_lines [] (drop p file)) -> (Z.of_nat (length (texts (drop p file))) < limit)%Z ->
  WatchLog.read file p limit = Ret (length file, texts (drop p file)).
Proof.
  intros Hp Hs Hl. unfold WatchLog.read.
  destruct (read_loop_spec file limit (S (length file)) (NewScanner p) []) as (s' & -> & E).
  - split; simpl; [lia|done|done|done].
  - done.
  - unfold todo. simpl. rewrite length_drop. lia.
  - done.
  - cbn [mbind res_bind]. by rewrite E.
Qed.

Section Poll.
Context {AL : AppLog}.
Import WatchLog.
Definition content (e : effect) : option bytes := match e with ZipAdd p | DataSend p => Some (l_Content p) | _ => None end.
Definition sent (es : list effect) : list bytes := omap content es.

Lemma ApplyAppLog_plain conf p line : find_logs line = [] -> ApplyAppLog conf p line = (p, false).
Proof. intros Hf. unfold ApplyAppLog. rewrite Hf. by destruct line. Qed.
Lemma send_plain conf id now w line size :
  find_logs line = [] -> FileInfo w = Some size -> trxLogFound w = false ->
  exists e, send conf id now w line = Ret (w, e) /\ content e = Some line.
Proof.
  intros Hf Hi Ht. unfold send. cbv zeta. rewrite ApplyAppLog_plain by done. simpl in *. destruct w; simpl in *; subst.
  eexists. split; [reflexivity|]. by destruct (ZipEnabled conf).
Qed.
(** What is sent of a line: once without words to find, else once for each that it has. *)
Definition chosen (words : list bytes) (line : bytes) : list bytes :=
  match words with [] => [line] | _ => (fun _ => line) <$> filter (fun word => Contains line word = true) words end.
Definition all_chosen (words lines : list bytes) : list bytes := mjoin (chosen words <$> lines).
Lemma all_chosen_app words l1 l2 : all_chosen words (l1 ++ l2) = all_chosen words l1 ++ all_chosen words l2.
Proof. unfold all_chosen. by rewrite fmap_app, join_app. Qed.
Lemma sent_app es es' : sent (es ++ es') = sent es ++ sent es'.
Proof. apply omap_app. Qed.
Lemma send_words_plain conf id now w line size es :
  find_logs line = [] -> FileInfo w = Some size -> trxLogFound w = false ->
  exists es', send_words conf id now (w, es) line = Ret (w, es ++ es') /\ sent es' = chosen (Words w) line.
Proof.
  intros Hf Hi Ht. destruct (send_plain conf id now w line size Hf Hi Ht) as (e & He & Hc).
  unfold send_words, chosen. destruct (Words w) as [|wd words].
  { rewrite He. exists [e]. split; [done|]. unfold sent. simpl. by rewrite Hc. }
  revert es. induction (wd :: words) as [|x xs IH]; intros es; cbn [foldM].
  { exists []. by rewrite app_nil_r. }
  rewrite filter_cons. destruct (Contains line x) eqn:Ex.
  - rewrite decide_True by done. rewrite He. cbn [mbind res_bind]. destruct (IH (es ++ [e])) as (es' & -> & Hs).
    exists (e :: es'). rewrite <- app_assoc. split; [done|]. unfold sent in *. simpl. rewrite Hc. by f_equal.
  - rewrite decide_False by done. cbn [mbind res_bind]. apply IH.
Qed.
Lemma parseAndSend_plain conf id now w lines size :
  Forall (fun l => find_logs l = []) lines -> FileInfo w = Some size -> trxLogFound w = false ->
  exists es, parseAndSend conf id now lines w = Ret (w, es) /\ sent es = all_chosen (Words w) lines.
Proof.
  intros Hf Hi Ht. unfold parseAndSend.
  assert (forall es, exists es', foldM (send_words conf id now) (w, es) lines = Ret (w, es ++ es') /\
    sent es' = all_chosen (Words w) lines) as H; [|apply (H [])].
  induction Hf as [|l lines Hl Hf IH]; intros es; cbn [foldM]; [exists []; by rewrite app_nil_r|].
  destruct (send_words_plain conf id now w l size es Hl Hi Ht) as (e & -> & He). cbn [mbind res_bind].
  destruct (IH (es ++ e)) as (es' & -> & Hs). exists (e ++ es'). rewrite <- app_assoc. split; [done|].
  unfold all_chosen in *. by rewrite sent_app, He, Hs.
Qed.
(** A poll that is due sends the lines added since the last one. *)
Lemma process_plain conf id now file w p :
  FilePos w = Z.of_nat p -> p <= length file -> trxLogFound w = false ->
  (LastCheckTime w + CheckInterval w <= now)%Z -> (1 <= WatchLogReadCount conf)%Z ->
  Forall short (split_lines [] (drop p file)) -> (Z.of_nat (length (texts (drop p file))) < WatchLogLineSize conf)%Z ->
  Forall (fun l => find_logs l = []) (texts (drop p file)) ->
  exists es, Process conf id now (Some file) w =
    Ret (w <| FileInfo := Some (Z.of_nat (length file)) |> <| LastCheckTime := now |> <| FilePos := Z.of_nat (length file) |>, es) /\
    sent es = all_chosen (Words w) (texts (drop p file)).
Proof.
  intros Hp Hle Ht Hd Hn Hs Hl Hf. unfold Process. rewrite Ht. unfold process. cbv zeta. simpl. rewrite ?Hp.
  rewrite (proj2 (Z.ltb_ge _ _)) by lia. rewrite (proj2 (Z.ltb_ge _ _)) by lia.
  simpl. rewrite ?Hp. rewrite (proj2 (Z.ltb_ge _ _)) by lia.
  destruct (Z.to_nat (WatchLogReadCount conf)) as [|n] eqn:En; [lia|]. simpl. rewrite ?Hp.
  destruct (Z.leb_spec (Z.of_nat (length file)) (Z.of_nat p)) as [Hc|Hc].
  - assert (p = length file) as -> by lia. rewrite drop_all. exists []. split; [|done].
    destruct w; simpl in *; by subst.
  - rewrite Nat2Z.id, read_spec by done. destruct (texts (drop p file)) as [|x xs] eqn:Ex; [by exists []|].
    match goal with |- context [parseAndSend conf id now _ ?w'] => destruct (parseAndSend_plain conf id now w' (x :: xs) (Z.of_nat (length file))) as (es & -> & Hes) end; [done|done|done|].
    exists es. split; [|done]. f_equal. destruct n as [|n]; simpl; [by rewrite app_nil_r|].
    by rewrite (proj2 (Z.leb_le _ _)), app_nil_r by lia.
Qed.

(** ** A file that grows *)

(** The polls of a file, each with its time and what was written before it. *)
Fixpoint polls (conf : WatchConf) (id : Ident) (file : bytes) (w : t) (es : list effect) (ps : list (Z * bytes)) : res (t * list effect) :=
  match ps with
  | [] => Ret (w, es)
  | (now, more) :: ps => '(w, e) ← Process conf id now (Some (file ++ more)) w; polls conf id (file ++ more) w (es ++ e) ps
  end.
Fixpoint spaced (step last : Z) (ps : list (Z * bytes)) : Prop :=
  match ps with [] => True | (now, _) :: ps => (last + step <= now)%Z /\ spaced step now ps end.
(** Whole lines, none as long as the buffer of the scanner, fewer than a poll reads, and without tags. *)
Definition plain (conf : WatchConf) (more : bytes) : Prop :=
  whole more /\ Forall short (split_lines [] more) /\ (Z.of_nat (length (texts more)) < WatchLogLineSize conf)%Z /\
  Forall (fun l => find_logs l = []) (texts more).

(** C22. A watched file in which no tags were found, polled at its interval from its end on
    while whole lines are added to it, each under 64 KiB (the scanner's limit) and without
    tags, and fewer between two polls than a poll reads: every line that is not blank is
    sent, trimmed and in order, once if there are no words to find and else once for each
    of the words that is in it, and the position is the end of the file. *)
Theorem polls_send_every_line conf id file w ps :
  (1 <= WatchLogReadCount conf)%Z -> FilePos w = Z.of_nat (length file) -> trxLogFound w = false ->
  spaced (CheckInterval w) (LastCheckTime w) ps -> Forall (fun p => plain conf p.2) ps ->
  exists w' es, polls conf id file w [] ps = Ret (w', es) /\
    sent es = all_chosen (Words w) (texts (concat (map snd ps))) /\
    FilePos w' = Z.of_nat (length (file ++ concat (map snd ps))).
Proof.
  intros Hn Hp Ht Hs Hps.
  assert (forall es, exists w' es', polls conf id file w es ps = Ret (w', es ++ es') /\
    sent es' = all_chosen (Words w) (texts (concat (map snd ps))) /\
    FilePos w' = Z.of_nat (length (file ++ concat (map snd ps)))) as H; [|apply (H [])].
  revert file w Hp Ht Hs. induction Hps as [|[now more] ps (Hwh & Hsh & Hfew & Htag) _ IH]; intros file w Hp Ht Hs es.
  { exists w, []. simpl. by rewrite !app_nil_r. }
  destruct Hs as [Hdue Hs]. simpl in *.
  destruct (process_plain conf id now (file ++ more) w (length file)) as (e & -> & He);
    rewrite ?drop_app_length; [done|rewrite length_app; lia|done..|].
  rewrite drop_app_length in He. cbn [mbind res_bind].
  match goal with |- context [polls conf id (file ++ more) ?w' _ ps] => edestruct (IH (file ++ more) w') as (w2 & es2 & -> & Hs2 & Hp2) end;
    [reflexivity|done|done|].
  exists w2, (e ++ es2). rewrite <- app_assoc. split; [done|]. rewrite texts_whole, all_chosen_app by done.
  rewrite sent_app, He, Hs2. split; [done|]. by rewrite app_assoc.
Qed.
End Poll.

(** * Runs *)

Module Runs.
Import WatchLog.
#[local] Instance no_tags : AppLog := { find_logs := fun _ => []; unmarshal := fun _ => None }.
Definition conf : WatchConf := mkWatchConf 10 512 false 100 (str "@txid") (str "AppLog").
Definition id : Ident := mkIdent 2 7 0 0 (str "app") [] [].
Definition nl : bytes := [newline].
Definition old : bytes := str "before" ++ nl.
Definition dog : t := Activate ((Config (str "/var/log/app.log") (str "/var/log/app.log") (Some old) (NewWatchLog (str "/var/log/app.log"))) <| CheckInterval := 1000%Z |>).
Definition ps : list (Z * bytes) :=
  [(5000%Z, str "one" ++ nl ++ nl ++ str "  two" ++ nl); (6000%Z, []); (7500%Z, str "three" ++ nl)].

Lemma plain_whole more :
  whole more -> forallb (fun l => N.of_nat (length l) <? 65536)%N (split_lines [] more) && (Z.of_nat (length (texts more)) <? 512)%Z = true ->
  plain conf more.
Proof.
  intros Hw [Hs Hl]%andb_prop. apply Z.ltb_lt in Hl. split; [done|split; [|split; [done|apply Forall_forall; done]]].
  apply Forall_forall. intros l Hin. apply N.ltb_lt. apply (proj1 (List.forallb_forall _ _) Hs). by apply list_elem_of_In.
Qed.
(** Without words each line is sent; of the words [o] and [tw] the first has one, the
    second both, so that it is sent twice, and the third none. *)
Lemma polls_send_every_line_witness :
  (exists w' es, polls conf id old dog [] ps = Ret (w', es) /\ sent es = [str "one"; str "two"; str "three"] /\ FilePos w' = 24%Z) /\
  (exists w' es, polls conf id old (dog <| Words := [str "o"; str "tw"] |>) [] ps = Ret (w', es) /\
     sent es = [str "one"; str "two"; str "two"] /\ FilePos w' = 24%Z).
Proof.
  assert (Forall (fun p => plain conf p.2) ps) as Hps.
  { unfold ps. apply List.Forall_cons; [|apply List.Forall_cons; [|apply List.Forall_cons; [|apply List.Forall_nil]]].
    - apply plain_whole; [|reflexivity]. right. exists (str "one" ++ nl ++ nl ++ str "  two"). reflexivity.
    - apply plain_whole; [|reflexivity]. left. reflexivity.
    - apply plain_whole; [|reflexivity]. right. exists (str "three"). reflexivity. }
  split.
  - destruct (polls_send_every_line conf id old dog ps) as (w' & es & E & Es & Ep); [simpl; lia|reflexivity|reflexivity| |exact Hps|].
    { vm_compute. repeat split; discriminate. }
    exists w', es. split; [exact E|]. rewrite Es, Ep. split; vm_compute; reflexivity.
  - destruct (polls_send_every_line conf id old (dog <| Words := [str "o"; str "tw"] |>) ps) as (w' & es & E & Es & Ep);
      [simpl; lia|reflexivity|reflexivity| |exact Hps|].
    { vm_compute. repeat split; discriminate. }
    exists w', es. split; [exact E|]. rewrite Es, Ep. split; vm_compute; reflexivity.
Defined.

(** The line after the last of a poll is read and dropped, and so is what the scanner had
    in its buffer: of five lines with a limit of two, three are lost. *)
Definition few : WatchConf := mkWatchConf 10 2 false 100 (str "@txid") (str "AppLog").
Definition five : bytes := mjoin ((fun s => str s ++ nl) <$> ["1"; "2"; "3"; "4"; "5"]%string).
Example lines_lost :
  (let '(w, es) := process few id 5000 (Some (old ++ five)) dog in (sent es, FilePos w)) = ([str "1"; str "2"], 17%Z).
Proof. vm_compute. reflexivity. Qed.
(** A line that is not complete at a poll is sent in two parts. *)
Example line_split :
  (let '(w, es) := process conf id 5000 (Some (old ++ str "hel")) dog in
   let '(w, es') := process conf id 6000 (Some (old ++ str "hello" ++ nl)) w in sent (es ++ es')) = [str "hel"; str "lo"].
Proof. vm_compute. reflexivity. Qed.
(** A file that became shorter is read from its new end on. *)
Example truncated_file :
  (let '(w, es) := process conf id 5000 (Some (str "x" ++ nl)) dog in (sent es, FilePos w)) = ([], 2%Z).
Proof. vm_compute. reflexivity. Qed.
(** A file whose lines have tags is not read again after [Reset]: its position is negative
    and only the reader of lines without tags mends that. *)
Example reset_stuck file now :
  processMultilineLogs conf id now (Some file) (Reset (dog <| trxLogFound := true |>)) = Ret (Reset (dog <| trxLogFound := true |>), []).
Proof.
  unfold processMultilineLogs. cbv zeta. change (FilePos (Reset _)) with (-1)%Z.
  rewrite (proj2 (Z.eqb_neq _ _)) by lia. rewrite (proj2 (Z.ltb_ge (Z.of_nat (length file)) (-1))) by lia. reflexivity.
Qed.
End Runs.
