(* ===== verification/WatchManager.v ===== *)
(** The table of watched files, [src/agent/logsink/watch/WatchLogManager.go].

    [hmap.StringKeyLinkedMap] is golib's; the dogs are reached through its entries.  The
    names of files with dates come from [strftime]; the disk is a function of names, and a
    step reads the clock once. *)

From S2P Require Import Prelude LlmChunk LlmPack LlmState LlmSender DataPack LogSink Hmap Watch WatchFacts.

(** [strftime.Format], nothing on an error. *)
Class Dates := { strftime : bytes -> Z -> option bytes }.
(** [sort.StringSlice] orders by bytes. *)
Fixpoint bytes_leb (a b : bytes) : bool :=
  match a, b with
  | [], _ => true
  | _ :: _, [] => false
  | x :: a, y :: b => (N_of_ascii x <? N_of_ascii y)%N || (bool_decide (x = y) && bytes_leb a b)
  end.
Definition Sort : list bytes -> list bytes := merge_sort (fun a b => Is_true (bytes_leb a b)).

Record DateFormatFile := mkDFF { fileName : bytes; prevFileName : bytes; curFileName : bytes }.
Definition NewDateFormatFile (fileName curFileName : bytes) : DateFormatFile := mkDFF fileName curFileName curFileName.

(** The settings of one [watchlog.] name. *)
Record Watched := mkWatched { enabled : bool; file : bytes; words : list bytes; check_interval : Z }.
Record ManagerConf := mkManagerConf {
  WatchLogEnabled : bool; LogSinkFiles : list bytes; LogSinkInterval : Z; LogSinkStopInterval : Z;
  watchlogs : list (bytes * Watched);
  conf_TxIdTag : bytes; conf_AppLogCategory : bytes; conf_LogSendThreshold : Z;
  watch : WatchConf
}.

Module WatchLogManager.
Section S.
Context {AL : AppLog} {DT : Dates} {LM : LinkedMap bytes}.
Record t := mk { watchEnabled : bool; table : lmap WatchLog.t; dateFormatFiles : lmap DateFormatFile }.
Definition new : t := mk false (lm_new 0) (lm_new 0).

Section Step.
Variables (conf : ManagerConf) (disk : bytes -> option bytes) (now : Z).

Definition configure (id file category : bytes) (words : list bytes) (checkInterval : Z) (dog : WatchLog.t) : WatchLog.t :=
  let dog := WatchLog.Config id file (disk file) dog <| WatchLog.Words := words |> <| WatchLog.CheckInterval := Z.max checkInterval 1000 |> in
  match category with [] => dog | _ => dog <| WatchLog.Category := category |> end.
(** The dog is the one the table has under [id]. *)
Definition Add (id file category : bytes) (words : list bytes) (checkInterval : Z) (m : t) : t :=
  m <| table ::= fun ds => touch ds id (WatchLog.NewWatchLog id) (configure id file category words checkInterval) |>.
Definition tell (id : bytes) (f : WatchLog.t -> WatchLog.t) (m : t) : t := m <| table ::= fun ds => lm_write ds id f |>.

(** ** The list of files *)

Definition reset_file (reset : bool) (st : t * list bytes) (file : bytes) : t * list bytes :=
  let '(m, ids) := st in
  match file with
  | [] => (m, ids ++ [file])
  | _ =>
      let '(m, id, category) :=
        match strftime file now with
        | Some str =>
            if bool_decide (file = str) then (m, file, [])
            else (m <| dateFormatFiles ::= fun ds => lm_put ds file (NewDateFormatFile file str) |>, str, Base file)
        | None => (m, file, [])
        end in
      let m := Add id id category [] (LogSinkInterval conf) m in
      let m := if reset then tell id WatchLog.Reset m else m in
      (tell id WatchLog.Activate m, ids ++ [id])
  end.
(** A name of the settings gets a new dog each time. *)
Definition reset_watched (reset : bool) (m : t) (id : bytes) : t :=
  match alookup (watchlogs conf) id with
  | None => m
  | Some w =>
      match file w with
      | [] => m
      | _ =>
          let dog := WatchLog.Config id (file w) (disk (file w)) (WatchLog.NewWatchLog id)
                       <| WatchLog.Words := words w |> <| WatchLog.CheckInterval := Z.max (check_interval w) 1000 |> in
          let dog := if reset then WatchLog.Reset dog else dog in
          let dog := if enabled w then WatchLog.Activate dog else WatchLog.Stop dog in
          m <| table ::= fun ds => lm_put ds id dog |>
      end
  end.
Definition clear_removed (ids : list bytes) (m : t) : t :=
  m <| table ::= fun ds => foldl (fun ds id => if bool_decide (id ∈ ids) then ds else lm_remove ds id) ds (lm_entries ds).*1 |>.
Definition resetDogList (reset : bool) (m : t) : t :=
  match LogSinkFiles conf with
  | [] =>
      let ids := Sort (watchlogs conf).*1 in
      clear_removed ids (foldl (reset_watched reset) m ids)
  | files =>
      let '(m, ids) := foldl (reset_file reset) (m, []) (Sort (TrimSpace <$> files)) in
      clear_removed ids m
  end.
(** A change of the settings. *)
Definition Run (m : t) : t :=
  resetDogList (negb (Bool.eqb (WatchLogEnabled conf) (watchEnabled m))) m <| watchEnabled := WatchLogEnabled conf |>.
(** The globals of [consts.go] take what the settings have. *)
Definition Run_consts (w : WatchConf) : WatchConf :=
  mkWatchConf (WatchLogReadCount w) (WatchLogLineSize w) (ZipEnabled w)
    (if (0 <? conf_LogSendThreshold conf)%Z then conf_LogSendThreshold conf else LogSendThreshold w)
    (if nonempty (conf_TxIdTag conf) then conf_TxIdTag conf else TxIdTag w)
    (if nonempty (conf_AppLogCategory conf) then conf_AppLogCategory conf else AppLogCategory w).
Definition start (m : t) : t := resetDogList true m <| watchEnabled := WatchLogEnabled conf |>.

(** ** A round *)

(** A name that changed with the date: the new file is read from its start, the old one
    until its time is over. *)
Definition date_change (m : t) (key : bytes) : t :=
  match lm_get (dateFormatFiles m) key with
  | None => m
  | Some dff =>
      match strftime (fileName dff) now with
      | None => m
      | Some str =>
          if bool_decide (str = curFileName dff) then m
          else
            let prev := curFileName dff in
            let m := m <| dateFormatFiles ::= fun ds => lm_write ds key (fun d => mkDFF (fileName d) prev str) |> in
            let m := Add str str (Base (fileName dff)) [] (LogSinkInterval conf) m in
            let m := tell str WatchLog.ActivateFirst m in
            tell prev (fun dog => dog <| WatchLog.ExpirationTime := (now + LogSinkStopInterval conf)%Z |>) m
      end
  end.
Definition processDateFormatFiles (m : t) : t := foldl date_change m (lm_entries (dateFormatFiles m)).*1.
(** One dog; a panic stops it. *)
Definition process_dog (id : Ident) (st : t * list effect) (key : bytes) : t * list effect :=
  let '(m, es) := st in
  match lm_get (table m) key with
  | None => (m, es)
  | Some dog =>
      match (if WatchLog.Activated dog then WatchLog.Process (watch conf) id now (disk (WatchLog.FileName dog)) dog else Ret (dog, [])) with
      | Ret (dog, e) =>
          let m := tell key (fun _ => dog) m in
          let m := if bool_decide (WatchLog.ExpirationTime dog <> 0%Z) && (WatchLog.ExpirationTime dog <? now)%Z
                   then m <| table ::= fun ds => lm_remove ds (WatchLog.Id dog) |> else m in
          (m, es ++ e)
      | _ => (tell key WatchLog.Stop m, es)
      end
  end.
Definition process (id : Ident) (m : t) : t * list effect :=
  let m := processDateFormatFiles m in
  foldl (process_dog id) (m, []) (lm_entries (table m)).*1.
Definition run_round (id : Ident) (m : t) : t * list effect := if watchEnabled m then process id m else (m, []).
End Step.
End S.
End WatchLogManager.

(** The table of watched files follows the settings: after a change it has exactly the
    files they name, all active, and a file that was read before goes on where it was. *)

Section Facts.
Context {AL : AppLog} {DT : Dates} {LM : LinkedMap bytes} {LL : LinkedMapLaws bytes LM}.
Import WatchLogManager.
Variables (conf : ManagerConf) (disk : bytes -> option bytes) (now : Z).
Implicit Types (m : t) (k id file : bytes).

Definition unbounded m : Prop := lm_max (table m) = 0.
(** The name a file of the settings has now. *)
Definition name_of file : bytes := default file (strftime file now).
Definition look m k : option WatchLog.t := lm_get (table m) k.

Lemma look_Add id file category words n m k :
  unbounded m ->
  look (Add disk id file category words n m) k =
    if decide (k = id) then Some (configure disk id file category words n (default (WatchLog.NewWatchLog id) (look m id))) else look m k.
Proof.
  intros Hu. unfold look, Add. simpl. case_decide as Hk.
  - subst k. by rewrite get_touch.
  - rewrite get_touch_ne; [done|done|]. right. left. exact Hu.
Qed.
Lemma look_tell id f m k : look (tell id f m) k = if decide (k = id) then f <$> look m id else look m k.
Proof. unfold look, tell. simpl. by rewrite get_write. Qed.
Lemma unbounded_Add id file category words n m : unbounded m -> unbounded (Add disk id file category words n m).
Proof. unfold unbounded, Add. simpl. by rewrite max_touch. Qed.
Lemma unbounded_tell id f m : unbounded m -> unbounded (tell id f m).
Proof. unfold unbounded, tell. simpl. by rewrite max_write. Qed.

(** What a dog is after its file was in the settings. *)
Record follows k (old : option WatchLog.t) (dog : WatchLog.t) : Prop := {
  f_active : WatchLog.Activated dog = true;
  f_file : WatchLog.FileName dog = k;
  f_all : WatchLog.Words dog = [];
  f_interval : (1000 <= WatchLog.CheckInterval dog)%Z;
  f_kept d : old = Some d -> WatchLog.Activated d = true ->
    WatchLog.FilePos dog = WatchLog.FilePos d /\ WatchLog.trxLogFound dog = WatchLog.trxLogFound d
}.
Definition kept k (category : bytes) (d : WatchLog.t) : WatchLog.t :=
  WatchLog.Activate (configure disk k k category [] (LogSinkInterval conf) d).
Lemma kept_follows k category old d :
  (old = None \/ old = Some d \/ follows k old d) -> follows k old (kept k category d).
Proof.
  intros H. unfold kept, configure. cbv zeta.
  set (c := WatchLog.Config k k (disk k) d <| WatchLog.Words := [] |> <| WatchLog.CheckInterval := Z.max (LogSinkInterval conf) 1000 |>).
  assert (forall d', (forall d0, old = Some d0 -> WatchLog.Activated d0 = true -> WatchLog.Activated d' = true /\ WatchLog.FilePos d' = WatchLog.FilePos d0 /\ WatchLog.trxLogFound d' = WatchLog.trxLogFound d0) ->
    WatchLog.FileName d' = k -> WatchLog.Words d' = [] -> (1000 <= WatchLog.CheckInterval d')%Z ->
    follows k old (WatchLog.Activate d')) as Hf.
  { intros d' H1 H2 H3 H4. unfold WatchLog.Activate. split; try done; [by destruct (WatchLog.Activated d')..|].
    intros d0 E0 A0. destruct (H1 d0 E0 A0) as (-> & E1 & E2). done. }
  assert (forall d0, old = Some d0 -> WatchLog.Activated d0 = true -> WatchLog.Activated d = true /\ WatchLog.FilePos d = WatchLog.FilePos d0 /\ WatchLog.trxLogFound d = WatchLog.trxLogFound d0) as Hd.
  { intros d0 E0 A0. destruct H as [H|[H|H]]; [by simplify_eq..|]. split; [apply (f_active _ _ _ H)|by apply (f_kept _ _ _ H)]. }
  destruct category; apply Hf; try exact Hd; try done; simpl; lia.
Qed.

Lemma reset_file_spec m ids file :
  unbounded m -> file <> [] ->
  let '(m', ids') := reset_file conf disk now false (m, ids) file in
  unbounded m' /\ ids' = ids ++ [name_of file] /\
  exists category, forall k, look m' k = if decide (k = name_of file) then
    Some (kept k category (default (WatchLog.NewWatchLog k) (look m k))) else look m k.
Proof.
  intros Hu Hne. unfold reset_file, name_of. destruct file as [|x xs]; [done|]. set (file := x :: xs) in *.
  assert (forall m0 id category, unbounded m0 -> table m0 = table m ->
    unbounded (tell id WatchLog.Activate (Add disk id id category [] (LogSinkInterval conf) m0)) /\
    forall k, look (tell id WatchLog.Activate (Add disk id id category [] (LogSinkInterval conf) m0)) k =
      if decide (k = id) then Some (kept k category (default (WatchLog.NewWatchLog k) (look m k))) else look m k) as H.
  { intros m0 id category Hu0 Ht. split; [by apply unbounded_tell, unbounded_Add|]. intros k.
    assert (look m = look m0) as -> by (unfold look; by rewrite Ht).
    rewrite look_tell, !look_Add by done. case_decide as Hk; [|done]. subst k. by rewrite decide_True by done. }
  destruct (strftime file now) as [s|] eqn:Es; [case_bool_decide as Hs|]; cbv beta iota zeta.
  - destruct (H m file [] Hu eq_refl) as [H1 H2]. subst s. split; [done|]. split; [done|]. by exists [].
  - edestruct (H (m <| dateFormatFiles ::= fun ds => lm_put ds file (NewDateFormatFile file s) |>) s (Base file)) as [H1 H2]; [exact Hu|done|].
    split; [exact H1|]. split; [done|]. by exists (Base file).
  - destruct (H m file [] Hu eq_refl) as [H1 H2]. split; [done|]. split; [done|]. by exists [].
Qed.
Lemma reset_files_spec m files :
  unbounded m -> Forall (fun f => f <> []) files ->
  let '(m', ids) := foldl (reset_file conf disk now false) (m, []) files in
  unbounded m' /\ ids = name_of <$> files /\
  forall k, (k ∈ ids -> exists dog, look m' k = Some dog /\ follows k (look m k) dog) /\ (k ∉ ids -> look m' k = look m k).
Proof.
  intros Hu. induction files as [|f files IH] using rev_ind; intros Hf.
  { simpl. split; [done|]. split; [done|]. intros k. split; [by intros ?%elem_of_nil|done]. }
  apply Forall_app in Hf as [Hf Hl]. apply Forall_cons in Hl as [Hl _]. specialize (IH Hf). rewrite foldl_app. simpl.
  destruct (foldl (reset_file conf disk now false) (m, []) files) as [m1 ids1]. destruct IH as (Hu1 & -> & IH).
  pose proof (reset_file_spec m1 (name_of <$> files) f Hu1 Hl) as Hs.
  destruct (reset_file conf disk now false (m1, name_of <$> files) f) as [m2 ids2]. destruct Hs as (Hu2 & -> & category & Hs).
  split; [done|]. split; [by rewrite fmap_app|]. intros k. specialize (IH k). rewrite Hs.
  destruct (decide (k = name_of f)) as [->|Hk].
  - split; [intros _|set_solver]. eexists. split; [reflexivity|]. apply kept_follows. destruct IH as [IH1 IH2].
    destruct (decide (name_of f ∈ name_of <$> files)) as [Hin|Hin]; [right; right; destruct (IH1 Hin) as (dog & -> & H); exact H|].
    rewrite IH2 by done. destruct (look m (name_of f)); [right; by left|by left].
  - destruct IH as [IH1 IH2]. split; intros Hin; [apply IH1|apply IH2]; set_solver.
Qed.

Lemma look_removed (ks ids : list bytes) m k :
  lm_get (foldl (fun ds id => if bool_decide (id ∈ ids) then ds else lm_remove ds id) (table m) ks) k =
    if decide (k ∈ ids \/ k ∉ ks) then look m k else None.
Proof.
  unfold look. induction ks as [|j ks IH] using rev_ind; simpl; [rewrite decide_True; [done|right; apply not_elem_of_nil]|].
  rewrite foldl_app. simpl. case_bool_decide as Hj; [|rewrite get_remove]; rewrite IH.
  - destruct (decide (k = j)) as [->|Hk]; [by rewrite !decide_True by (by left)|].
    apply decide_ext. set_solver.
  - destruct (decide (k = j)) as [->|Hk]; [rewrite decide_False by set_solver; done|].
    apply decide_ext. set_solver.
Qed.

Lemma look_clear_removed (ids : list bytes) m k : look (clear_removed ids m) k = if decide (k ∈ ids) then look m k else None.
Proof.
  etransitivity; [exact (look_removed (lm_entries (table m)).*1 ids m k)|]. case_decide as H; case_decide as H'; try done; [|tauto].
  destruct H as [H|H]; [done|]. by apply alookup_None.
Qed.

(** After a change of the settings that names files, the table has exactly these, under
    their names of now: each is active, read whole, and at most once a second; and a file
    that was already read goes on at the same place and in the same way. *)
Theorem resetDogList_follows m k :
  unbounded m -> LogSinkFiles conf <> [] -> Forall (fun f => TrimSpace f <> []) (LogSinkFiles conf) ->
  let m' := resetDogList conf disk now false m in
  (k ∈ name_of <$> (TrimSpace <$> LogSinkFiles conf) /\ exists dog, look m' k = Some dog /\ follows k (look m k) dog) \/
  (k ∉ name_of <$> (TrimSpace <$> LogSinkFiles conf) /\ look m' k = None).
Proof.
  intros Hu Hne Hf m'. unfold m', resetDogList. destruct (LogSinkFiles conf) as [|f fs]; [done|]. set (files := f :: fs) in *.
  pose proof (reset_files_spec m (Sort (TrimSpace <$> files)) Hu) as H.
  assert (Sort (TrimSpace <$> files) ≡ₚ (TrimSpace <$> files)) as Hp by apply merge_sort_Permutation.
  specialize (H ltac:(rewrite Hp; by apply Forall_fmap)).
  destruct (foldl (reset_file conf disk now false) (m, []) (Sort (TrimSpace <$> files))) as [m1 ids]. destruct H as (_ & -> & H).
  specialize (H k). rewrite look_clear_removed.
  assert (k ∈ name_of <$> Sort (TrimSpace <$> files) <-> k ∈ name_of <$> (TrimSpace <$> files)) as Hk by (by rewrite Hp).
  destruct H as [H1 H2]. case_decide as Hin; [left; split; [tauto|by apply H1]|right; split; [tauto|done]].
Qed.
End Facts.

(** * Runs *)

Module Manager.
Import WatchLogManager.
#[local] Existing Instance Runs.no_tags.
#[local] Instance lmap_names : LinkedMap bytes := ListMap.list_map.
#[local] Instance lmap_names_laws : LinkedMapLaws bytes lmap_names := ListMap.list_map_laws.
Definition dated : bytes := str "/var/log/%d.log".
(** Names change once, at time 1000000. *)
#[local] Instance dates : Dates := {
  strftime f now := if bool_decide (f = dated) then Some (if (now <? 1000000)%Z then str "/var/log/1.log" else str "/var/log/2.log") else Some f }.
Definition conf (files : list bytes) : ManagerConf :=
  mkManagerConf true files 1000 60000 [] [] [] 0 (mkWatchConf 10 512 false 100 (str "@txid") (str "AppLog")).
Definition id : Ident := mkIdent 2 7 0 0 (str "app") [] [].
Definition app : bytes := str "/var/log/app.log".
Definition lines (n : nat) : bytes := mjoin (repeat (str "line" ++ [newline]) n).
Definition disk (files : list (bytes * nat)) (name : bytes) : option bytes := lines <$> alookup files name.
Definition sent_by (st : t * list effect) : nat := length (sent st.2).

Definition m0 : t := start (conf [app]) (disk [(app, 2)]) 1000 new.
(** A poll: the dog was reset, so it goes to the end of the file. *)
Definition m1 : t := (process (conf [app]) (disk [(app, 2)]) 3000 id m0).1.
Lemma resetDogList_follows_witness :
  exists dog, look (resetDogList (conf [app; dated]) (disk [(app, 5)]) 4000 false m1) app = Some dog /\ WatchLog.FilePos dog = 10%Z.
Proof.
  destruct (resetDogList_follows (conf [app; dated]) (disk [(app, 5)]) 4000 m1 app) as [(_ & dog & E & F)|[Hn _]].
  - vm_compute. reflexivity.
  - discriminate.
  - repeat (apply List.Forall_cons || apply List.Forall_nil); discriminate.
  - exists dog. split; [exact E|].
    destruct (look m1 app) as [d|] eqn:Ed; [|vm_compute in Ed; discriminate].
    destruct (f_kept _ _ _ F d eq_refl) as [-> _]; [|]; clear -Ed; vm_compute in Ed; injection Ed as <-; reflexivity.
  - exfalso. apply Hn. left.
Defined.

(** The lines written to a new file of the day before its first poll are lost when the
    file was not there at the change of its name. *)
Definition d0 : t := start (conf [dated]) (disk [(str "/var/log/1.log", 2)]) 1000 new.
Example rotation_loses :
  (let '(m, _) := process (conf [dated]) (disk [(str "/var/log/1.log", 2)]) 3000 id d0 in
   let '(m, es) := process (conf [dated]) (disk [(str "/var/log/1.log", 2)]) 1001000 id m in
   let '(m, es') := process (conf [dated]) (disk [(str "/var/log/1.log", 2); (str "/var/log/2.log", 3)]) 1003000 id m in
   length (sent (es ++ es'))) = 0.
Proof. vm_compute. reflexivity. Qed.
(** When the file is there at the change, all its lines are sent. *)
Example rotation_sends :
  (let '(m, _) := process (conf [dated]) (disk [(str "/var/log/1.log", 2)]) 3000 id d0 in
   let '(m, es) := process (conf [dated]) (disk [(str "/var/log/1.log", 2); (str "/var/log/2.log", 3)]) 1001000 id m in
   length (sent es)) = 3.
Proof. vm_compute. reflexivity. Qed.
(** A file with a date that is no longer in the settings comes back with its next name. *)
Example dated_comes_back :
  (let m := resetDogList (conf [app]) (disk []) 4000 false d0 in
   let gone := look m (str "/var/log/1.log") in
   let '(m, _) := process (conf [app]) (disk [(str "/var/log/2.log", 3)]) 1001000 id m in
   (bool_decide (gone = None), WatchLog.Activated <$> look m (str "/var/log/2.log"))) = (true, Some true).
Proof. vm_compute. reflexivity. Qed.
(** Files named by [watchlog.] settings get new dogs at every change: what was written
    since the last poll is not sent. *)
Definition by_name : ManagerConf :=
  (conf []) <| watchlogs := [(str "app", mkWatched true app [] 1000)] |>.
Example reload_skips :
  (let m := start by_name (disk [(app, 2)]) 1000 new in
   let '(m, _) := process by_name (disk [(app, 2)]) 3000 id m in
   let '(m, es) := process by_name (disk [(app, 3)]) 5000 id m in
   let m := Run by_name (disk [(app, 5)]) 6000 m in
   let '(m, es') := process by_name (disk [(app, 6)]) 7000 id m in
   (length (sent es), length (sent es'))) = (1, 1).
Proof. vm_compute. reflexivity. Qed.
(** The same change with a list of files skips nothing. *)
Example reload_keeps :
  (let '(m, es) := process (conf [app]) (disk [(app, 3)]) 5000 id m1 in
   let m := Run (conf [app]) (disk [(app, 5)]) 6000 m in
   let '(m, es') := process (conf [app]) (disk [(app, 6)]) 7000 id m in
   (length (sent es), length (sent es'))) = (1, 3).
Proof. vm_compute. reflexivity. Qed.
End Manager.
