(* ===== verification/CounterLLM.v ===== *)
(** The counter task of LLM calls, [src/agent/agent/counter/TaskLLM.go]: every five seconds
    it drains the meter into packs of tags, one for each kind of entry and key, and every
    quarter of an hour it sends the calls of the hour.

    A pack of tags is golib's: its category, time, tags and fields, in the order they were
    put.  The order in which Go ranges over a map is an argument. *)

From S2P Require Import Prelude LlmPack LlmState Hmap MeterLLM MeterLLMFacts.

(** * Packs of tags *)

Inductive tagvalue := VLong (z : Z) | VDouble (x : float64) | VString (s : bytes) | VList (l : list tagvalue).
Record TagCountPack := mkTagPack {
  tc_Time : Z; Category : bytes; Tags : list (bytes * tagvalue); Fields : list (bytes * tagvalue)
}.
Definition PutTag (k : bytes) (v : tagvalue) (p : TagCountPack) : TagCountPack := p <| Tags ::= fun l => l ++ [(k, v)] |>.
Definition Put (k : bytes) (v : tagvalue) (p : TagCountPack) : TagCountPack := p <| Fields ::= fun l => l ++ [(k, v)] |>.
(** The value last put under a key. *)
Definition field (k : bytes) (p : TagCountPack) : option tagvalue :=
  match list_find (fun kv : bytes * tagvalue => kv.1 = k) (rev (Fields p)) with Some (_, (_, v)) => Some v | None => None end.

Module TaskLLM.
Section S.
Context {LM : LinkedMap meter_key}.
(** [llmPid] *)
Variable llmPid : Z.
Variable range : forall V : Type, gmap bytes V -> list (bytes * V).
Arguments range {V}.

Record t := mk { currentCount : Z; currentError : Z; currentHourStart : Z; next15minTime : Z }.
Definition NewTaskLLM : t := mk 0 0 0 0.

Definition putBaseAndCommonTags (now : Z) (category : bytes) (key : meter_key) : TagCountPack :=
  let '(provider, model, operation, url) := key in
  PutTag (str "url") (VString url) $ PutTag (str "operation_type") (VString operation) $
  PutTag (str "model") (VString model) $ PutTag (str "provider") (VString provider) $
  PutTag (str "pid") (VLong llmPid) $ mkTagPack now category [] [].

Definition active_row (now : Z) (e : meter_key * Z) : option TagCountPack :=
  if (e.2 =? 0)%Z then None
  else Some (Put (str "count") (VLong e.2) (putBaseAndCommonTags now (str "llm_active_stat") e.1)).
Definition sendActiveStats (now : Z) (active : list (meter_key * Z)) : list TagCountPack := omap (active_row now) active.

Definition status_row (now : Z) (e : meter_key * MeterLLM.LLMApiStatusEntry) : option TagCountPack :=
  if (MeterLLM.FourXX e.2 =? 0)%Z && (MeterLLM.FiveXX e.2 =? 0)%Z then None
  else Some (Put (str "5xx_total_count") (VLong (MeterLLM.FiveXX e.2)) $
             Put (str "4xx_total_count") (VLong (MeterLLM.FourXX e.2)) $ putBaseAndCommonTags now (str "llm_api_status") e.1).
Definition sendApiStatusStats (now : Z) (b : MeterLLM.LLMBucket) : list TagCountPack :=
  omap (status_row now) (lm_entries (MeterLLM.b_ApiStatus b)).

Definition error_row (now : Z) (e : meter_key * MeterLLM.LLMErrorEntry) : option TagCountPack :=
  let total := int64 (MeterLLM.ApiError e.2 + MeterLLM.ProgramError e.2) in
  if (total =? 0)%Z && (MeterLLM.LastApiError e.2 =? 0)%Z then None
  else Some (Put (str "last_api_error_count") (VLong (MeterLLM.LastApiError e.2)) $ Put (str "error_count") (VLong total) $
             Put (str "program_error_count") (VLong (MeterLLM.ProgramError e.2)) $
             Put (str "api_error_count") (VLong (MeterLLM.ApiError e.2)) $ putBaseAndCommonTags now (str "llm_error_stat") e.1).
Definition sendErrorStats (now : Z) (b : MeterLLM.LLMBucket) : list TagCountPack :=
  omap (error_row now) (lm_entries (MeterLLM.b_Error b)).

Definition feature_row (now : Z) (e : meter_key * MeterLLM.LLMFeatureEntry) : option TagCountPack :=
  if (MeterLLM.f_CallCount e.2 =? 0)%Z then None
  else
    let features := range (MeterLLM.f_Features e.2) in
    Some (Put (str "features_count") (VList ((fun f => VLong f.2) <$> features)) $
          Put (str "features") (VList ((fun f => VString f.1) <$> features)) $
          Put (str "error_count") (VLong (MeterLLM.f_ErrorCount e.2)) $ Put (str "call_count") (VLong (MeterLLM.f_CallCount e.2)) $
          PutTag (str "!rectype") (VLong 2) $ putBaseAndCommonTags now (str "llm_feature_stat") e.1).
Definition sendFeatureStats (now : Z) (b : MeterLLM.LLMBucket) : list TagCountPack :=
  omap (feature_row now) (lm_entries (MeterLLM.b_Feature b)).

Definition perf_row (now : Z) (e : meter_key * MeterLLM.LLMPerfEntry) : option TagCountPack :=
  if (MeterLLM.p_CallCount e.2 =? 0)%Z then None
  else
    Some (Put (str "tpot_count") (VLong (MeterLLM.TpotCount e.2)) $ Put (str "tpot_sum") (VDouble (MeterLLM.TpotSum e.2)) $
          Put (str "ttft_count") (VLong (MeterLLM.TtftCount e.2)) $ Put (str "ttft_sum") (VDouble (MeterLLM.TtftSum e.2)) $
          Put (str "latency_sum") (VDouble (MeterLLM.LatencySum e.2)) $
          Put (str "error_count") (VLong (MeterLLM.p_ErrorCount e.2)) $ Put (str "call_count") (VLong (MeterLLM.p_CallCount e.2)) $
          putBaseAndCommonTags now (str "llm_perf_stat") e.1).
Definition sendPerfStats (now : Z) (b : MeterLLM.LLMBucket) : list TagCountPack :=
  omap (perf_row now) (lm_entries (MeterLLM.b_Perf b)).

(** A token without a cost has cost 0; a cost without tokens is not listed. *)
Definition token_row (now : Z) (e : meter_key * MeterLLM.LLMTokenEntry) : option TagCountPack :=
  if (MeterLLM.t_CallCount e.2 =? 0)%Z then None
  else
    let tokens := range (MeterLLM.TokenCounts e.2) in
    Some (Put (str "total_cost") (VDouble (MeterLLM.TotalCost e.2)) $ Put (str "total_tokens") (VLong (MeterLLM.TotalTokens e.2)) $
          Put (str "tokens_count") (VList ((fun t => VLong t.2) <$> tokens)) $
          Put (str "tokens_cost") (VList ((fun t => VDouble (default f64_zero (MeterLLM.TokenCosts e.2 !! t.1))) <$> tokens)) $
          Put (str "tokens") (VList ((fun t => VString t.1) <$> tokens)) $
          Put (str "stream_count") (VLong (MeterLLM.StreamCount e.2)) $
          Put (str "error_count") (VLong (MeterLLM.t_ErrorCount e.2)) $ Put (str "call_count") (VLong (MeterLLM.t_CallCount e.2)) $
          PutTag (str "!rectype") (VLong 2) $ putBaseAndCommonTags now (str "llm_token_usage") e.1).
Definition sendTokenUsageStats (now : Z) (b : MeterLLM.LLMBucket) : list TagCountPack :=
  omap (token_row now) (lm_entries (MeterLLM.b_Token b)).

(** The calls and the failed calls of the hour so far. *)
Definition sendMeter (units errorCount sendTime : Z) : TagCountPack :=
  Put (str "error_count") (VLong errorCount) $ Put (str "units") (VLong units) $
  PutTag (str "msize") (VString (str "3600")) $ PutTag (str "mperiod") (VString (str "900")) $
  PutTag (str "munit") (VString (str "LLM_TRANSACTION")) $ PutTag (str "mtype") (VString (str "LLM_TRANSACTION")) $
  mkTagPack sendTime (str "meter") [] [].

Definition MILLIS_PER_HOUR : Z := 3600000.
Definition millisPerFifteenMin : Z := 900000.
Definition floor_to (unit now : Z) : Z := (Z.quot now unit * unit)%Z.
(** What [process] does after the five-second packs. *)
Definition process_meter (now : Z) (b : MeterLLM.LLMBucket) (s : t) : t * list TagCountPack :=
  let s := s <| currentCount ::= (fun n => int64 (n + MeterLLM.b_MeterCount b)) |>
             <| currentError ::= (fun n => int64 (n + MeterLLM.b_MeterError b)) |> in
  let s := if (currentHourStart s =? 0)%Z then s <| currentHourStart := floor_to MILLIS_PER_HOUR now |> else s in
  let next := (floor_to millisPerFifteenMin now + millisPerFifteenMin)%Z in
  let s := if (next15minTime s =? 0)%Z then s <| next15minTime := next |> else s in
  let '(s, ps) :=
    if (next15minTime s <=? now)%Z
    then (s <| next15minTime := next |>, [sendMeter (currentCount s) (currentError s) (next15minTime s)])
    else (s, []) in
  let hourStart := floor_to MILLIS_PER_HOUR now in
  (if (currentHourStart s <? hourStart)%Z
   then s <| currentCount := 0%Z |> <| currentError := 0%Z |> <| currentHourStart := hourStart |> else s, ps).
Definition process (now : Z) (m : MeterLLM.t) (s : t) : MeterLLM.t * t * list TagCountPack :=
  let '(b, m) := MeterLLM.GetBucketReset m in
  let active := MeterLLM.ActiveSnapshot m in
  let stats := sendActiveStats now active ++ sendApiStatusStats now b ++ sendErrorStats now b ++ sendFeatureStats now b ++
    sendPerfStats now b ++ sendTokenUsageStats now b in
  let '(s, meter) := process_meter now b s in
  (m, s, stats ++ meter).
End S.
End TaskLLM.

(** The packs of the LLM counter task: each call is in the units of exactly one closing
    pack of an hour, and the five-second rows are those of the entries that count. *)

Import TaskLLM.

Section Facts.
Context {LM : LinkedMap meter_key}.
Variable llmPid : Z.
Variable range : forall V : Type, gmap bytes V -> list (bytes * V).

(** * The hour *)

Inductive event := Call (c : meter_call) | Tick (now : Z).
(** The meter, the task, and the units and errors of the packs that closed an hour. *)
Record Run := mkRun { meter : MeterLLM.t; task : TaskLLM.t; closed : Z; closedError : Z }.
Definition long (k : bytes) (p : TagCountPack) : Z := match field k p with Some (VLong z) => z | _ => 0%Z end.
Definition total (k : bytes) (ps : list TagCountPack) : Z :=
  foldr Z.add 0%Z (long k <$> filter (fun p => Category p = str "meter") ps).
(** The tick is the first of a later hour. *)
Definition closing (s : TaskLLM.t) (now : Z) : bool :=
  negb (currentHourStart s =? 0)%Z && (currentHourStart s <? floor_to MILLIS_PER_HOUR now)%Z.
Definition step (r : Run) (e : event) : Run :=
  match e with
  | Call c => r <| meter ::= fun m => MeterLLM.apply_call m c |>
  | Tick now =>
      let '(m, s, ps) := process llmPid range now (meter r) (task r) in
      if closing (task r) now
      then mkRun m s (closed r + total (str "units") ps) (closedError r + total (str "error_count") ps)
      else mkRun m s (closed r) (closedError r)
  end.
Definition fresh : Run := mkRun MeterLLM.newMeterLLM NewTaskLLM 0 0.
Definition run (es : list event) : Run := foldl step fresh es.
Definition one (e : event) : Z := match e with Call LlmState.IncrementMeter => 1 | _ => 0 end.
Definition one_error (e : event) : Z := match e with Call LlmState.IncrementMeterError => 1 | _ => 0 end.
Definition count (f : event -> Z) (es : list event) : Z := foldr Z.add 0%Z (f <$> es).
(** The times of the ticks do not go back, and the first is past the first hour of 1970. *)
Fixpoint forward (last : Z) (es : list event) : Prop :=
  match es with
  | [] => True
  | Call _ :: es => forward last es
  | Tick now :: es => (Z.max last MILLIS_PER_HOUR <= now)%Z /\ forward now es
  end.

(** The five-second packs are of other categories. *)
Lemma rows_not_meter now b active :
  filter (fun p => Category p = str "meter")
    (sendActiveStats llmPid now active ++ sendApiStatusStats llmPid now b ++ sendErrorStats llmPid now b ++
     sendFeatureStats llmPid range now b ++ sendPerfStats llmPid now b ++ sendTokenUsageStats llmPid range now b) = [].
Proof.
  assert (forall A (f : meter_key * A -> option TagCountPack) l,
    (forall e p, f e = Some p -> Category p <> str "meter") -> filter (fun p => Category p = str "meter") (omap f l) = []) as H.
  { intros A f l Hf. induction l as [|e l IH]; [done|]. simpl. destruct (f e) as [p|] eqn:E; [|done].
    rewrite filter_cons, decide_False by (by eapply Hf). done. }
  rewrite !filter_app. unfold sendActiveStats, sendApiStatusStats, sendErrorStats, sendFeatureStats, sendPerfStats, sendTokenUsageStats.
  rewrite !H; [done|..]; intros [[[[a1 a2] a3] a4] e] p;
    unfold active_row, status_row, error_row, feature_row, perf_row, token_row; cbv zeta; case_match; try done; intros [= <-]; done.
Qed.
Lemma total_meter k now b active ps :
  total k ((sendActiveStats llmPid now active ++ sendApiStatusStats llmPid now b ++ sendErrorStats llmPid now b ++
     sendFeatureStats llmPid range now b ++ sendPerfStats llmPid now b ++ sendTokenUsageStats llmPid range now b) ++ ps) = total k ps.
Proof. unfold total. by rewrite filter_app, rows_not_meter. Qed.

Definition congr (a b : Z) : Prop := (a mod 2 ^ 64 = b mod 2 ^ 64)%Z.
#[export] Instance congr_equiv : Equivalence congr.
Proof. split; unfold congr; [done|by intros a b|by intros a b c -> ]. Qed.
Lemma congr_int64 a : congr (int64 a) a.
Proof. apply int64_mod. Qed.
Lemma congr_plus a b c d : congr a b -> congr c d -> congr (a + c) (b + d).
Proof. unfold congr. intros H1 H2. by rewrite Zplus_mod, H1, H2, <- Zplus_mod. Qed.

(** The next quarter is after the last tick and not after the end of its hour. *)
Record clock (last : Z) (s : TaskLLM.t) : Prop := {
  c_hour : currentHourStart s = floor_to MILLIS_PER_HOUR last;
  c_next : (last < next15minTime s <= floor_to MILLIS_PER_HOUR last + MILLIS_PER_HOUR)%Z;
  c_last : (MILLIS_PER_HOUR <= last)%Z
}.
Lemma floor_spec unit now : (0 < unit)%Z -> (0 <= now)%Z -> (floor_to unit now <= now < floor_to unit now + unit)%Z.
Proof. intros H1 H2. unfold floor_to. rewrite Z.quot_div_nonneg by lia. pose proof (Z.div_mod now unit). pose proof (Z.mod_pos_bound now unit). nia. Qed.
Lemma quarter_in_hour now :
  (0 <= now)%Z -> (floor_to millisPerFifteenMin now + millisPerFifteenMin <= floor_to MILLIS_PER_HOUR now + MILLIS_PER_HOUR)%Z.
Proof.
  intros H. unfold floor_to, millisPerFifteenMin, MILLIS_PER_HOUR. rewrite !Z.quot_div_nonneg by lia.
  pose proof (Z.div_mod now 900000). pose proof (Z.mod_pos_bound now 900000).
  pose proof (Z.div_mod now 3600000). pose proof (Z.mod_pos_bound now 3600000). nia.
Qed.

Definition unset (s : TaskLLM.t) : Prop := currentHourStart s = 0%Z /\ next15minTime s = 0%Z.
Lemma hour_pos now : (MILLIS_PER_HOUR <= now)%Z -> (0 < floor_to MILLIS_PER_HOUR now)%Z.
Proof. intros H. pose proof (floor_spec MILLIS_PER_HOUR now). unfold MILLIS_PER_HOUR in *. lia. Qed.
Lemma hour_mono a b : (0 <= a <= b)%Z -> (floor_to MILLIS_PER_HOUR a <= floor_to MILLIS_PER_HOUR b)%Z.
Proof.
  intros H. unfold floor_to, MILLIS_PER_HOUR. rewrite !Z.quot_div_nonneg by lia.
  pose proof (Z.div_le_mono a b 3600000). lia.
Qed.
(** An hour begins a whole hour later. *)
Lemma hour_step a b :
  (0 <= a <= b)%Z -> (floor_to MILLIS_PER_HOUR a < floor_to MILLIS_PER_HOUR b)%Z ->
  (floor_to MILLIS_PER_HOUR a + MILLIS_PER_HOUR <= b)%Z.
Proof.
  intros H. pose proof (floor_spec MILLIS_PER_HOUR b) as Hb. unfold floor_to, MILLIS_PER_HOUR in *.
  rewrite !Z.quot_div_nonneg in * by lia. nia.
Qed.
Lemma tick_meter now b s :
  (MILLIS_PER_HOUR <= now)%Z -> (unset s \/ exists last, clock last s /\ (last <= now)%Z) ->
  let '(s', ps) := process_meter now b s in
  let n := int64 (currentCount s + MeterLLM.b_MeterCount b) in
  let e := int64 (currentError s + MeterLLM.b_MeterError b) in
  clock now s' /\
  (if closing s now
   then total (str "units") ps = n /\ total (str "error_count") ps = e /\ currentCount s' = 0%Z /\ currentError s' = 0%Z
   else currentCount s' = n /\ currentError s' = e).
Proof.
  intros Hn Hs. pose proof (hour_pos now Hn) as Hp. assert (0 < MILLIS_PER_HOUR)%Z as HM by (unfold MILLIS_PER_HOUR; lia).
  pose proof (floor_spec MILLIS_PER_HOUR now HM ltac:(lia)) as Hf.
  pose proof (floor_spec millisPerFifteenMin now ltac:(unfold millisPerFifteenMin; lia) ltac:(lia)) as Hq.
  pose proof (quarter_in_hour now ltac:(lia)) as Hqh.
  unfold process_meter, closing. destruct s as [cc ce hs nx]. simpl. destruct Hs as [[Hh Hx]|(last & [Hh Hx Hl] & Hle)]; simpl in *.
  - subst hs nx. simpl. rewrite (proj2 (Z.leb_gt _ _)) by lia. rewrite Z.ltb_irrefl. simpl. split; [|done]. by split; simpl; [|lia|].
  - pose proof (hour_pos last Hl) as Hlp. rewrite !(proj2 (Z.eqb_neq hs 0)) by lia. simpl. rewrite !(proj2 (Z.eqb_neq nx 0)) by lia. simpl.
    pose proof (hour_mono last now ltac:(lia)) as Hm.
    destruct (Z.ltb_spec hs (floor_to MILLIS_PER_HOUR now)) as [Hlt|Hge].
    + pose proof (hour_step last now ltac:(lia) ltac:(lia)). rewrite (proj2 (Z.leb_le _ _)) by lia. simpl.
      rewrite (proj2 (Z.ltb_lt _ _)) by lia. simpl. split; [by split; simpl; [|lia|]|].
      unfold total, long. simpl. by rewrite !Z.add_0_r.
    + destruct (Z.leb_spec nx now); simpl; rewrite (proj2 (Z.ltb_ge _ _)) by lia; simpl; (split; [split; simpl; lia|done]).
Qed.

(** ** Every call is counted once *)

Record balanced (n e : Z) (r : Run) : Prop := {
  b_units : congr n (closed r + currentCount (task r) + MeterLLM.meterCount (meter r));
  b_errors : congr e (closedError r + currentError (task r) + MeterLLM.meterError (meter r))
}.
Lemma balanced_call n e r c :
  balanced n e r -> balanced (n + one (Call c)) (e + one_error (Call c)) (step r (Call c)).
Proof.
  intros [Hu He]. destruct (call_counters (meter r) c) as [Hc Hd]. simpl in Hc, Hd.
  split; simpl; [rewrite Hc|rewrite Hd].
  - destruct c; rewrite ?Z.add_0_r; try done. unfold congr, MeterLLM.inc in *.
    rewrite (Zplus_mod (closed r + _)), int64_mod, <- Zplus_mod. rewrite Z.add_assoc, (Zplus_mod n), Hu, <- Zplus_mod. done.
  - destruct c; rewrite ?Z.add_0_r; try done. unfold congr, MeterLLM.inc in *.
    rewrite (Zplus_mod (closedError r + _)), int64_mod, <- Zplus_mod. rewrite Z.add_assoc, (Zplus_mod e), He, <- Zplus_mod. done.
Qed.
Lemma balanced_tick n e r now :
  (MILLIS_PER_HOUR <= now)%Z -> (unset (task r) \/ exists last, clock last (task r) /\ (last <= now)%Z) ->
  balanced n e r -> balanced n e (step r (Tick now)) /\ clock now (task (step r (Tick now))).
Proof.
  intros Hn Hs [Hu He]. unfold step, process, MeterLLM.GetBucketReset. cbv beta iota zeta. set (b := MeterLLM.mkBucket _ _ _ _ _ _ _).
  pose proof (tick_meter now b (task r) Hn Hs) as Ht. destruct (process_meter now b (task r)) as [s' ps].
  destruct Ht as [Hc Ht]. cbv beta iota zeta. rewrite !total_meter.
  assert (congr (int64 (currentCount (task r) + MeterLLM.b_MeterCount b)) (currentCount (task r) + MeterLLM.b_MeterCount b)) as C1 by apply congr_int64.
  assert (congr (int64 (currentError (task r) + MeterLLM.b_MeterError b)) (currentError (task r) + MeterLLM.b_MeterError b)) as C2 by apply congr_int64.
  destruct (closing (task r) now).
  - destruct Ht as (-> & -> & E1 & E2). split; [|done]. split; simpl; [rewrite E1|rewrite E2]; rewrite !Z.add_0_r.
    + etransitivity; [exact Hu|]. rewrite <- Z.add_assoc. symmetry. by apply congr_plus.
    + etransitivity; [exact He|]. rewrite <- Z.add_assoc. symmetry. by apply congr_plus.
  - destruct Ht as (E1 & E2). split; [|done]. split; simpl; [rewrite E1|rewrite E2]; rewrite !Z.add_0_r.
    + etransitivity; [exact Hu|]. rewrite <- Z.add_assoc. symmetry. by apply congr_plus.
    + etransitivity; [exact He|]. rewrite <- Z.add_assoc. symmetry. by apply congr_plus.
Qed.
(** C7. Over any calls and ticks whose times do not go back, the calls and the failed calls
    that were published are those of the packs that closed an hour, of the hour that is
    open, and of the meter that waits for the next tick (as 64-bit integers). *)
Theorem LLM_hours_exact es :
  forward 0 es ->
  let r := run es in
  int64 (count one es) = int64 (closed r + currentCount (task r) + MeterLLM.meterCount (meter r)) /\
  int64 (count one_error es) = int64 (closedError r + currentError (task r) + MeterLLM.meterError (meter r)).
Proof.
  intros Hf r.
  assert (forall es r n e last, forward last es -> balanced n e r ->
    (unset (task r) \/ exists last', clock last' (task r) /\ (last' <= last)%Z) ->
    balanced (n + count one es) (e + count one_error es) (foldl step r es)) as H.
  { clear. induction es as [|[c|now] es IH]; intros r n e last Hf Hb Hs; simpl.
    - unfold count. simpl. by rewrite !Z.add_0_r.
    - unfold count in *. simpl. rewrite !Z.add_assoc. eapply IH; [exact Hf|by apply balanced_call|done].
    - destruct Hf as [H1 Hf]. unfold count in *. simpl. rewrite !Z.add_0_l.
      destruct (balanced_tick n e r now) as [B C]; [lia|destruct Hs as [Hs|(l & Hl & Hle)]; [by left|right; exists l; split; [done|lia]]|done|].
      eapply IH; [exact Hf|exact B|]. right. by exists now. }
  destruct (H es fresh 0%Z 0%Z 0%Z Hf) as [Hu He]; [by split|by left|].
  split; by apply int64_congr.
Qed.
End Facts.

(** * Runs *)

Module Hours.
#[local] Existing Instance ListMap.list_map.
Definition range (V : Type) (m : gmap bytes V) : list (bytes * V) := map_to_list m.
Definition failed : event := Call LlmState.IncrementMeterError.
Definition published : event := Call LlmState.IncrementMeter.
(** Two calls in the first hour, one of them failed; one in the second; one not yet seen. *)
Definition es : list event :=
  [published; Tick 3605000; published; failed; Tick 7200001; published; Tick 7205000; published].
Definition the_run : Run := run 7 range es.
Lemma LLM_hours_exact_witness :
  int64 (count one es) = int64 (closed the_run + currentCount (task the_run) + MeterLLM.meterCount (meter the_run)) /\
  closed the_run = 2%Z /\ currentCount (task the_run) = 1%Z /\ MeterLLM.meterCount (meter the_run) = 1%Z.
Proof.
  destruct (LLM_hours_exact 7 range es) as [H _].
  - vm_compute. repeat split; discriminate.
  - split; [exact H|]. vm_compute. repeat split.
Defined.
(** A cost of a name without tokens is in the total and in no row. *)
Example cost_without_tokens :
  match token_row 7 range 0 ((str "a", str "b", str "c", str "d"),
          MeterLLM.add_cost (MeterLLM.mkToken 1 0 0 0 ∅ ∅ f64_zero) (str "cached", f64_of_Z 3)) with
  | Some p => field (str "tokens_cost") p = Some (VList []) /\ field (str "total_cost") p = Some (VDouble (f64_of_Z 3))
  | None => False
  end.
Proof. vm_compute. by split. Qed.
End Hours.
