(* ===== verification/CounterActive.v ===== *)
(** The transactions that run and the users that are there, counted every five seconds:
    [src/agent/agent/counter/TaskActiveTranCount.go], [TaskRealtimeUser.go] and
    [counter/meter/MeterUsers.go].

    The task goes over the table of running transactions as it is at the start; a context
    is read at its location.  golib's [HyperLogLog] is an interface; the fields of its
    counter pack that the task writes are kept, and wrap at their widths ([CounterWidths]). *)

From stdpp Require Import gmap.
From S2P Require Import Prelude EscapeSQL Hmap UrlPattern TraceCtx MeterService Meters MeterActiveX DataPack DataText ParsedSql Stat StatError TraceContext.
From S2P Require Import TraceApi TraceSteps TraceMain TraceManager TraceSamples TraceManagerFacts.

Record ActiveConf := mkActiveConf {
  CounterEnabledAct_ : bool; TraceActiveTransactionLostTime : Z;
  TraceActiveTransactionSlowTime : Z; TraceActiveTransactionVerySlowTime : Z;
  CounterEnabledUser_ : bool; RealtimeUserThinktimeMax : Z
}.
(** The counts of golib's pack, of which the source shows that [ActSvcSlice] is of 16 bits;
    the widths of the others are golib's. *)
Class CounterWidths := { ActSvcCount_bits : Z; ActiveStat_bits : Z }.
Class CounterWidthLaws (CW : CounterWidths) := {
  count_bits_pos : (0 < ActSvcCount_bits)%Z; stat_bits_pos : (0 < ActiveStat_bits)%Z
}.
(** [ActSvcSlice], [ActSvcCount] and the four positions of [ActiveStat] in use. *)
Record Statuses := mkStatus { s_method : Z; s_sql : Z; s_httpc : Z; s_dbc : Z }.
Record ActivePack := mkActivePack { ActSvcSlice : list Z; ActSvcCount : Z; ActiveStat : Statuses }.

Class HyperLogLog := { hll : Type; NewHyperLogLogDefault : hll; OfferLong : Z -> hll -> hll; GetBytes : hll -> bytes }.

Section Counter.
Context {LMz : LinkedMap Z} {LMi : LinkedMap (Z * Z)} {LMh : LinkedMap StatHttpc.HTTPC}
  {LMm : LinkedMap StatTranxMtCaller.MtraceKEY} {BU : BitUtil} {SU : StringUtil} {SM : StringMore} {TT : TextTypes}
  {RQ : RequestQueue} {CT : CountTable} {PT : PathTree} {HM : MeterService.Pack} {UU : UrlUtil} {PC : IProfileCollector}
  {HX : Hexa32} {AC : AppContext} {HL : HyperLogLog} {CW : CounterWidths}.
Abbreviation ctx_t := TraceContext.t.
Import TraceContext.
Variable conf : ApiConf.
Variable WebMethodName : bytes -> option Z.
Variable INFO : Z.
Variable ip_of : bytes -> Z.
Variable pool_get : list nat -> option nat.
Variable act : ActiveConf.

(** ** Users *)

(** [meter.AddActiveMeterUsers]: [Put], which leaves a known user in its place. *)
Definition AddActiveMeterUsers (now wClientId : Z) (w : World) : World :=
  if negb (wClientId =? 0)%Z && RealtimeUserEnabled conf then w <| w_users ::= fun m => lm_put m wClientId now |> else w.
Definition MeterUsers_Clear (w : World) : World := w <| w_users ::= fun m => lm_new (lm_max m) |>.
(** Users not seen for the thinking time are removed, the others are offered. *)
Definition offer_user (now : Z) (st : lmap (K := Z) Z * hll) (e : Z * Z) : lmap (K := Z) Z * hll :=
  if (RealtimeUserThinktimeMax act <? int64 (now - e.2))%Z then (lm_remove st.1 e.1, st.2)
  else (st.1, OfferLong (wrap_u 64 e.1) st.2).
Definition GetRealtimeUsers (now : Z) (w : World) : World * hll :=
  let '(users, loglog) := foldl (offer_user now) (w_users w, NewHyperLogLogDefault) (lm_entries (w_users w)) in
  (w <| w_users := users |>, loglog).
(** [TaskRealtimeUser.process]: the bits of the pack it sends. *)
Definition TaskRealtimeUser (now : Z) (w : World) : World * option bytes :=
  if negb (RealtimeUserEnabled conf) || negb (CounterEnabledUser_ act) then (w, None)
  else let '(w, loglog) := GetRealtimeUsers now w in (w, Some (GetBytes loglog)).

(** ** Running transactions *)

(** [p.ActiveStat[i]++] *)
Definition stat_inc (n : Z) : Z := wrap_s ActiveStat_bits (n + 1).
Definition CountingStatus (c : ctx_t) (p : ActivePack) : ActivePack :=
  p <| ActiveStat ::= fun s =>
    if negb (ActiveSqlhash c =? 0)%Z then s <| s_sql ::= stat_inc |>
    else if negb (ActiveHttpcHash c =? 0)%Z then s <| s_httpc ::= stat_inc |>
    else if negb (ActiveDbc c =? 0)%Z then s <| s_dbc ::= stat_inc |>
    else s <| s_method ::= stat_inc |> |>.
(** [int32(dateutil.SystemNow()-ctx.StartTime) > int32(conf...LostTime)] *)
Definition lost (now : Z) (c : ctx_t) : bool := (int32 (TraceActiveTransactionLostTime act) <? since now c)%Z.
(** The part of the slice a transaction that is not lost counts in. *)
Definition speed (now : Z) (c : ctx_t) : nat :=
  if (since now c <? int32 (TraceActiveTransactionSlowTime act))%Z then 0
  else if (since now c <? int32 (TraceActiveTransactionVerySlowTime act))%Z then 1 else 2.
Definition count_one (now wall : Z) (st : Agent * ActivePack) (e : Z * nat) : res (Agent * ActivePack) :=
  let '(a, p) := st in
  match ag_heap a !! e.2 with
  | None => Ret (a, p)
  | Some c =>
      '(a, p) ← (if lost now c then a ← RemoveLostContext conf WebMethodName INFO ip_of pool_get now wall (ProfileSeq c) a; Ret (a, p)
                 else Ret (a, p <| ActSvcSlice ::= alter (fun n => int16 (n + 1)) (speed now c) |>));
      let c := default c (ag_heap a !! e.2) in
      Ret (a <| ag_w ::= AddActiveMeterUsers now (WClientId c) |>, CountingStatus c (p <| ActSvcCount ::= fun n => wrap_s ActSvcCount_bits (n + 1) |>))
  end.
(** A panic would be recovered. *)
Definition TaskActiveTranCount (now wall : Z) (a : Agent) (p : ActivePack) : res (Agent * ActivePack) :=
  if negb (CounterEnabledAct_ act) then Ret (a, p)
  else foldM (count_one now wall) (a, p <| ActSvcSlice := [0; 0; 0]%Z |>) (lm_entries (w_table (ag_w a))).
End Counter.

(** The counts of a pack are those of the running transactions, and the lost ones leave
    the table; the users offered are those seen in the thinking time. *)

Section Facts.
Context {LMz : LinkedMap Z} {LLz : LinkedMapLaws Z LMz} {LMi : LinkedMap (Z * Z)} {LMh : LinkedMap StatHttpc.HTTPC}
  {LMm : LinkedMap StatTranxMtCaller.MtraceKEY} {BU : BitUtil} {SU : StringUtil} {SM : StringMore} {TT : TextTypes}
  {RQ : RequestQueue} {QL : QueueLaws RQ} {CT : CountTable} {PT : PathTree} {HM : MeterService.Pack} {UU : UrlUtil}
  {PC : IProfileCollector} {HX : Hexa32} {AC : AppContext} {CW : CounterWidths} {CL : CounterWidthLaws CW}.
Abbreviation ctx_t := TraceContext.t.
Import TraceContext.
Variable conf : ApiConf.
Variable WebMethodName : bytes -> option Z.
Variable INFO : Z.
Variable ip_of : bytes -> Z.
Variable pool_get : list nat -> option nat.
Hypothesis pool_get_in : forall free l, pool_get free = Some l -> l ∈ free.
Variable act : ActiveConf.

(** * Lost transactions *)

Lemma endTx_gone wall h e a : GetContext (h_Txid h) (endTx conf WebMethodName wall h e a) = None.
Proof.
  unfold endTx. destruct (GetContext (h_Txid h) a) as [l|] eqn:El; [|exact El]. cbv zeta.
  set (a1 := RemoveContext (h_Txid h) a).
  assert (GetContext (h_Txid h) a1 = None) as Hg.
  { unfold GetContext, a1, RemoveContext. simpl. by rewrite get_remove, decide_True. }
  clearbody a1. destruct (ag_heap a1 !! l) as [c|]; [|exact Hg].
  match goal with |- context [IsStaticContents ?c0] => set (c1 := c0); clearbody c1 end.
  destruct (IsStaticContents c1); [by rewrite store_get|]. set (c2 := udp_poid _ _). clearbody c2.
  destruct (ExtraFields c2) as [c3 fs]. match goal with |- context [meter_end conf ?t c3 ?w] =>
    pose proof (meter_end_same conf t c3 w) as Hm; destruct (meter_end conf t c3 w) as [w5 tx] end. simpl in Hm.
  rewrite send_get; [exact Hg|]. by destruct (AppContextEnabled conf).
Qed.
(** What a transaction is doing, as the three fields say. *)
Definition same_activity (c c' : ctx_t) : Prop :=
  ActiveSqlhash c' = ActiveSqlhash c /\ ActiveHttpcHash c' = ActiveHttpcHash c /\ ActiveDbc c' = ActiveDbc c.
Lemma poid_activity c : same_activity c (parse_poid c).
Proof. unfold parse_poid. by repeat case_match. Qed.
(** The end of a transaction leaves its record where it was, doing what it did. *)
Lemma endTx_activity wall h e a l c :
  context_of (h_Txid h) a = Some (l, c) ->
  exists c', ag_heap (endTx conf WebMethodName wall h e a) !! l = Some c' /\ same_activity c c'.
Proof.
  intros [Hg Hc]%context_of_Some. unfold endTx. rewrite Hg. cbv zeta. cbn [ag_heap]. 
  change (ag_heap (RemoveContext (h_Txid h) a)) with (ag_heap a). rewrite Hc.
  set (c1 := c <| TraceContext.Elapsed := int32 (int64 (h_Time h - StartTime c)) |>).
  assert (same_activity c c1) as H1 by done. clearbody c1.
  destruct (IsStaticContents c1); [eexists; split; [apply lookup_insert_eq|done]|].
  match goal with |- context [udp_poid ?k ?x] => set (c2 := udp_poid k x) end.
  assert (same_activity c c2) as H2.
  { subst c2. unfold udp_poid. match goal with |- context [parse_poid ?x] => pose proof (poid_activity x) as Hp end.
    unfold same_activity in *; simpl in *. naive_solver congruence. }
  clearbody c2. unfold ExtraFields. cbv beta iota zeta.
  match goal with |- context [meter_end conf ?t ?c3 ?w] => destruct (meter_end conf t c3 w) as [w5 tx] end.
  eexists. split; [apply lookup_insert_eq|exact H2].
Qed.
(** A live context is not changed by what concerns another transaction. *)
Lemma kept_context key k a a' :
  owned a -> owned a' -> isolated key a a' -> table_kept key a a' -> k <> key -> context_of k a' = context_of k a.
Proof.
  intros Ho Ho' Hi Ht Hk. destruct (context_of k a') as [x|] eqn:E; [by rewrite (Hi k x Hk E)|].
  destruct (context_of k a) as [[l c]|] eqn:E'; [|done]. exfalso. apply context_of_Some in E' as [Hg Hc].
  rewrite <- (Ht k Hk) in Hg. pose proof (ow_live _ Ho' k l Hg) as [c' Hc']%elem_of_dom.
  rewrite (proj2 (context_of_Some k a' l c') (conj Hg Hc')) in E. done.
Qed.
Lemma lost_spec now wall key a l c :
  owned a -> context_of key a = Some (l, c) -> exists a', RemoveLostContext conf WebMethodName INFO ip_of pool_get now wall key a = Ret a' /\ owned a' /\
    GetContext key a' = None /\ (exists c', ag_heap a' !! l = Some c' /\ same_activity c c') /\ (forall k, k <> key -> context_of k a' = context_of k a /\ GetContext k a' = GetContext k a).
Proof.
  intros Ho Hkey. unfold RemoveLostContext. cbn [TxPut mbind res_bind]. eexists. split; [reflexivity|].
  set (m := profileMsg _ _ _ _ _ _). set (h := mkHead key now 0 (-1) (-1)).
  assert (owned m /\ isolated key a m /\ table_kept key a m) as (H1 & I1 & T1).
  { pose proof (profileMsg_frame conf (mkHead key now 0 0 0) (str "Lost Connection") (str "0") [] a) as Hf. fold m in Hf.
    destruct (at_most_owned pool_get pool_get_in _ _ _ Hf Ho) as [H1 H2]. split; [done|]. split; [exact H2|]. intros k _. unfold GetContext.
    destruct Hf as ([-> _] & _ & _). done. }
  assert (exists c1, context_of key m = Some (l, c1) /\ same_activity c c1) as (c1 & Hm & Hc1).
  { subst m. unfold profileMsg. cbn [h_Txid]. rewrite Hkey. apply context_of_Some in Hkey as [Hg _].
    eexists. split; [apply context_of_Some; split; [exact Hg|apply lookup_insert_eq]|done]. }
  clearbody m. destruct (endTx_owned conf WebMethodName pool_get pool_get_in wall h NewEndPack m H1) as (H2 & I2 & T2).
  split; [exact H2|]. split; [apply (endTx_gone wall h)|]. split.
  { destruct (endTx_activity wall h NewEndPack m l c1 Hm) as (c2 & Hl & Hc2). exists c2. split; [exact Hl|].
    unfold same_activity in *. naive_solver congruence. }
  intros k Hk. split.
  - rewrite (kept_context key k m _ H1 H2 I2 T2 Hk). by apply (kept_context key).
  - rewrite (T2 k Hk). by apply T1.
Qed.

(** * Counts *)

(** Every transaction is in the table under its own number. *)
Definition keyed (a : Agent) : Prop := forall key l c, context_of key a = Some (l, c) -> ProfileSeq c = key.
Definition after (now : Z) (x : option (nat * ctx_t)) : option (nat * ctx_t) :=
  match x with Some (l, c) => if lost act now c then None else Some (l, c) | None => None end.
Definition at_speed (now : Z) (i : nat) (cs : list ctx_t) : Z :=
  Z.of_nat (length (filter (fun c => lost act now c = false /\ speed act now c = i) cs)).
Definition how_many (P : ctx_t -> Prop) `{!forall c, Decision (P c)} (cs : list ctx_t) : Z := Z.of_nat (length (filter P cs)).
(** The tests of [CountingStatus], the first that holds. *)
Definition in_sql (c : ctx_t) : Prop := ActiveSqlhash c <> 0%Z.
Definition in_httpc (c : ctx_t) : Prop := ActiveSqlhash c = 0%Z /\ ActiveHttpcHash c <> 0%Z.
Definition in_dbc (c : ctx_t) : Prop := ActiveSqlhash c = 0%Z /\ ActiveHttpcHash c = 0%Z /\ ActiveDbc c <> 0%Z.
Definition in_method (c : ctx_t) : Prop := ActiveSqlhash c = 0%Z /\ ActiveHttpcHash c = 0%Z /\ ActiveDbc c = 0%Z.
#[export] Instance in_sql_dec c : Decision (in_sql c).
Proof. unfold in_sql. apply _. Defined.
#[export] Instance in_httpc_dec c : Decision (in_httpc c).
Proof. unfold in_httpc. apply _. Defined.
#[export] Instance in_dbc_dec c : Decision (in_dbc c).
Proof. unfold in_dbc. apply _. Defined.
#[export] Instance in_method_dec c : Decision (in_method c).
Proof. unfold in_method. apply _. Defined.
(** The counts [s] with those of [cs] added, at the width of the fields. *)
Definition counts_of (s : Statuses) (cs : list ctx_t) : Statuses :=
  mkStatus (wrap_s ActiveStat_bits (s_method s + how_many in_method cs)) (wrap_s ActiveStat_bits (s_sql s + how_many in_sql cs))
    (wrap_s ActiveStat_bits (s_httpc s + how_many in_httpc cs)) (wrap_s ActiveStat_bits (s_dbc s + how_many in_dbc cs)).
(** The counts of a pack are values of its fields. *)
Definition in_width (p : ActivePack) : Prop :=
  in_s ActSvcCount_bits (ActSvcCount p) /\ in_s ActiveStat_bits (s_method (ActiveStat p)) /\ in_s ActiveStat_bits (s_sql (ActiveStat p)) /\
  in_s ActiveStat_bits (s_httpc (ActiveStat p)) /\ in_s ActiveStat_bits (s_dbc (ActiveStat p)).
(** The contexts of the entries, as they are before. *)
Definition contexts (a : Agent) (es : list (Z * nat)) : list ctx_t := omap (fun e => ag_heap a !! e.2) es.

(** What is known after the entries [es] of the table of [a0]. *)
Record counted (now : Z) (a0 : Agent) (p0 : ActivePack) (es : list (Z * nat)) (a : Agent) (p : ActivePack) : Prop := {
  n_owned : owned a;
  n_done key : key ∈ es.*1 -> context_of key a = after now (context_of key a0);
  n_rest key : key ∉ es.*1 -> context_of key a = context_of key a0;
  n_slice : ActSvcSlice p = (fun i => int16 (at_speed now i (contexts a0 es))) <$> [0; 1; 2];
  n_count : ActSvcCount p = wrap_s ActSvcCount_bits (ActSvcCount p0 + Z.of_nat (length es));
  n_status : ActiveStat p = counts_of (ActiveStat p0) (contexts a0 es)
}.
Lemma inc_wrap w z : (0 < w)%Z -> wrap_s w (wrap_s w z + 1) = wrap_s w (z + 1).
Proof. intros Hw. apply wrap_s_eq; [done|]. rewrite Zplus_mod, wrap_s_mod by done. by rewrite <- Zplus_mod. Qed.
Lemma how_many_snoc P `{!forall c, Decision (P c)} cs c :
  how_many P (cs ++ [c]) = (how_many P cs + (if decide (P c) then 1 else 0))%Z.
Proof. unfold how_many. rewrite filter_app, length_app, filter_cons. case_decide; simpl; lia. Qed.
(** A context is counted in one position, by what it is doing. *)
Lemma CountingStatus_counts s cs c c' p :
  same_activity c c' -> ActiveStat p = counts_of s cs -> ActiveStat (CountingStatus c' p) = counts_of s (cs ++ [c]).
Proof.
  intros (E1 & E2 & E3) Hp. unfold CountingStatus, counts_of. rewrite !how_many_snoc. simpl. rewrite Hp, E1, E2, E3.
  pose proof stat_bits_pos as Hw.
  destruct (Z.eqb_spec (ActiveSqlhash c) 0); destruct (Z.eqb_spec (ActiveHttpcHash c) 0); destruct (Z.eqb_spec (ActiveDbc c) 0);
    cbn [negb]; unfold stat_inc, counts_of; simpl; unfold in_sql, in_httpc, in_dbc, in_method;
    repeat (case_decide; try (exfalso; tauto));
    rewrite inc_wrap by done; by rewrite ?Z.add_0_r, ?Z.add_assoc.
Qed.
Lemma counts_of_nil s :
  in_s ActiveStat_bits (s_method s) -> in_s ActiveStat_bits (s_sql s) -> in_s ActiveStat_bits (s_httpc s) -> in_s ActiveStat_bits (s_dbc s) ->
  counts_of s [] = s.
Proof.
  intros. destruct s. unfold counts_of, how_many; simpl in *. pose proof stat_bits_pos. by rewrite !Z.add_0_r, !wrap_s_id.
Qed.
Lemma int16_inc z : int16 (int16 z + 1) = int16 (z + 1).
Proof. by apply inc_wrap. Qed.
Lemma users_owned now id a :
  owned a -> owned (a <| ag_w ::= AddActiveMeterUsers conf now id |>) /\
    (forall k, context_of k (a <| ag_w ::= AddActiveMeterUsers conf now id |>) = context_of k a).
Proof.
  intros Ho. assert (same_txs (ag_w a) (AddActiveMeterUsers conf now id (ag_w a))) as Hs.
  { unfold AddActiveMeterUsers. by destruct (_ && _). }
  split.
  - apply (at_most_owned pool_get pool_get_in 0 a); [|done]. by apply at_most_world.
  - intros k. unfold context_of, GetContext. simpl. by rewrite (proj1 Hs).
Qed.

Lemma count_one_spec now wall a0 p0 es a p key l :
  keyed a0 -> counted now a0 p0 es a p -> key ∉ es.*1 -> GetContext key a0 = Some l -> is_Some (ag_heap a0 !! l) ->
  exists a' p', count_one conf WebMethodName INFO ip_of pool_get act now wall (a, p) (key, l) = Ret (a', p') /\
    counted now a0 p0 (es ++ [(key, l)]) a' p'.
Proof.
  intros Hk [Ho Hd Hr Hs Hn Ht] Hkey Hg [c Hc].
  assert (context_of key a0 = Some (l, c)) as H0 by (by apply context_of_Some).
  pose proof (Hr key Hkey) as Ha. rewrite H0 in Ha. apply context_of_Some in Ha as [Hga Hca].
  unfold count_one. cbn [snd]. rewrite Hca.
  assert (contexts a0 (es ++ [(key, l)]) = contexts a0 es ++ [c]) as Hcs.
  { unfold contexts. rewrite omap_app. simpl. by rewrite Hc. }
  assert (forall a1 q, owned a1 -> same_activity c (default c (ag_heap a1 !! l)) -> (forall k, context_of k a1 = if decide (k = key) then after now (context_of key a0) else context_of k a) ->
    ActSvcCount q = ActSvcCount p -> ActiveStat q = ActiveStat p ->
    ActSvcSlice q = (fun i => int16 (at_speed now i (contexts a0 (es ++ [(key, l)])))) <$> [0; 1; 2] ->
    exists a' p', (let c := default c (ag_heap a1 !! l) in
      Ret (a1 <| ag_w ::= AddActiveMeterUsers conf now (WClientId c) |>, CountingStatus c (q <| ActSvcCount ::= fun n => wrap_s ActSvcCount_bits (n + 1) |>))) = Ret (a', p') /\
      counted now a0 p0 (es ++ [(key, l)]) a' p') as Hend.
  { intros a1 q Ho1 Hact Hctx E1 E2 E3. eexists _, _. split; [reflexivity|].
    set (c1 := default c (ag_heap a1 !! l)). destruct (users_owned now (WClientId c1) a1 Ho1) as [Ho2 Hu].
    split; [exact Ho2|..].
    - intros k Hin. rewrite Hu, Hctx. case_decide as Hd'; [by subst|]. apply Hd. set_solver.
    - intros k Hin. rewrite Hu, Hctx. rewrite decide_False by set_solver. apply Hr. set_solver.
    - exact E3.
    - simpl. rewrite E1, Hn, inc_wrap, length_app by apply count_bits_pos. simpl. f_equal. lia.
    - rewrite Hcs. apply (CountingStatus_counts _ _ c c1); [exact Hact|]. simpl. by rewrite E2, Ht. }
  assert (forall i, at_speed now i (contexts a0 es ++ [c]) =
    (at_speed now i (contexts a0 es) + (if decide (lost act now c = false /\ speed act now c = i) then 1 else 0))%Z) as Hadd.
  { intros i. unfold at_speed. rewrite filter_app, length_app. rewrite filter_cons. case_decide; simpl; lia. }
  destruct (lost act now c) eqn:El.
  - assert (ProfileSeq c = key) as -> by (by apply (Hk key l)).
    destruct (lost_spec now wall key a l c Ho) as (a1 & -> & Ho1 & Hgone & (c' & Hl' & Hact) & Hrest);
      [by apply context_of_Some|]. cbn [mbind res_bind]. apply Hend; try done.
    + by rewrite Hl'.
    + intros k. destruct (decide (k = key)) as [Hd'|Hd']; [|by apply Hrest]. subst k. rewrite H0. simpl. rewrite El. unfold context_of. by rewrite Hgone.
    + rewrite Hs, Hcs. apply list_fmap_ext. intros _ i _. rewrite Hadd. destruct (decide (true = false /\ speed act now c = i)) as [[? _]|_]; [done|]. by rewrite Z.add_0_r.
  - cbn [mbind res_bind]. apply Hend; try done.
    + by rewrite Hca.
    + intros k. destruct (decide (k = key)) as [Hd'|Hd']; [|done]. subst k. rewrite H0. simpl. rewrite El. by apply context_of_Some.
    + rewrite Hcs. change (ActSvcSlice (p <| ActSvcSlice ::= alter (fun n => int16 (n + 1)) (speed act now c) |>))
        with (alter (fun n => int16 (n + 1)) (speed act now c) (ActSvcSlice p)). rewrite Hs.
      assert (forall i, at_speed now i (contexts a0 es ++ [c]) = (at_speed now i (contexts a0 es) + (if decide (speed act now c = i) then 1 else 0))%Z) as Hi.
      { intros i. rewrite Hadd. f_equal. repeat case_decide; naive_solver. }
      cbn [fmap list_fmap]. rewrite !Hi. assert (speed act now c = 0 \/ speed act now c = 1 \/ speed act now c = 2) as [E|[E|E]].
      { unfold speed. destruct (_ <? _)%Z; [by left|]. destruct (_ <? _)%Z; [right; by left|right; by right]. }
      all: rewrite E; simpl; by rewrite ?int16_inc, ?Z.add_0_r.
Qed.

(** C20. A round over the running transactions of an agent in which each context has one
    owner and each transaction is under its own number, on a pack whose counts are values
    of its fields: no panic; the count of the pack grows by the number of transactions, and
    each of the four counts by status by the number of those doing that, a statement before
    a call before a connection before none of them, at the widths of the fields, the lost
    ones by what they were doing; those that are not lost are in the part of the slice of
    their age (as 16-bit counts), and stay as they were; the lost ones leave the table. *)
Theorem active_counts now wall a p :
  owned a -> keyed a -> CounterEnabledAct_ act = true -> in_width p ->
  let running := contexts a (lm_entries (w_table (ag_w a))) in
  exists a' p', TaskActiveTranCount conf WebMethodName INFO ip_of pool_get act now wall a p = Ret (a', p') /\ owned a' /\
    ActSvcCount p' = wrap_s ActSvcCount_bits (ActSvcCount p + Z.of_nat (length running)) /\
    s_sql (ActiveStat p') = wrap_s ActiveStat_bits (s_sql (ActiveStat p) + how_many in_sql running) /\
    s_httpc (ActiveStat p') = wrap_s ActiveStat_bits (s_httpc (ActiveStat p) + how_many in_httpc running) /\
    s_dbc (ActiveStat p') = wrap_s ActiveStat_bits (s_dbc (ActiveStat p) + how_many in_dbc running) /\
    s_method (ActiveStat p') = wrap_s ActiveStat_bits (s_method (ActiveStat p) + how_many in_method running) /\
    ActSvcSlice p' = (fun i => int16 (at_speed now i running)) <$> [0; 1; 2] /\
    (forall key, context_of key a' = after now (context_of key a)).
Proof.
  intros Ho Hk He (Hw & Hw1 & Hw2 & Hw3 & Hw4) running. unfold TaskActiveTranCount. rewrite He. cbn [negb].
  set (es := lm_entries (w_table (ag_w a))) in *. set (p1 := p <| ActSvcSlice := [0; 0; 0]%Z |>).
  assert (NoDup es.*1) as Hnd by apply keys_NoDup.
  assert (forall key l, (key, l) ∈ es -> GetContext key a = Some l) as Hes.
  { intros key l Hin. unfold GetContext, lm_get. fold es. by apply alookup_Some. }
  assert (forall key l, (key, l) ∈ es -> is_Some (ag_heap a !! l)) as Hlive.
  { intros key l Hin. apply elem_of_dom. by apply (ow_live _ Ho key), Hes. }
  assert (length running = length es) as Hlen.
  { unfold running, contexts. clear -Hlive. induction es as [|[k l] es IH]; [done|]. simpl.
    destruct (Hlive k l) as [c ->]; [left|]. simpl. f_equal. apply IH. intros k' l' H. apply (Hlive k'). by right. }
  assert (exists a' p', foldM (count_one conf WebMethodName INFO ip_of pool_get act now wall) (a, p1) es = Ret (a', p') /\
    counted now a p1 es a' p') as (a' & p' & E & [Ho' Hd Hr Hs Hn Ht]).
  { clear Hlen running. revert Hnd Hes Hlive. clearbody es.
    induction es as [|[k l] es IH] using rev_ind; intros Hnd Hes Hlive.
    { exists a, p1. split; [done|]. split; try done; [intros key ?%elem_of_nil; done|..]; simpl.
      - by rewrite Z.add_0_r, wrap_s_id by (done || apply count_bits_pos).
      - by rewrite counts_of_nil. }
    rewrite fmap_app in Hnd. apply NoDup_app in Hnd as (Hnd & Hni & _).
    destruct IH as (a1 & q & E & H); [done|intros; apply Hes; set_solver|intros k' l' ?; apply (Hlive k'); set_solver|].
    destruct (count_one_spec now wall a p1 es a1 q k l Hk H) as (a2 & q2 & E2 & H2);
      [intros Hin; apply (Hni k Hin); by left|apply Hes; set_solver|apply (Hlive k); set_solver|].
    exists a2, q2. split; [|done]. rewrite foldM_app, E. cbn [mbind res_bind foldM]. by rewrite E2. }
  exists a', p'. split; [exact E|]. split; [done|]. rewrite Hlen. split; [exact Hn|].
  fold running in Ht. rewrite Ht. do 4 (split; [done|]). split; [exact Hs|].
  intros key. destruct (decide (key ∈ es.*1)) as [Hin|Hin]; [by apply Hd|]. rewrite Hr by done.
  assert (GetContext key a = None) as Hg by (by apply alookup_None). unfold context_of. by rewrite Hg.
Qed.
End Facts.

(** ** Users *)

Section Users.
Context {LMz : LinkedMap Z} {LLz : LinkedMapLaws Z LMz} {HL : HyperLogLog}.
Variable act : ActiveConf.
Definition present (now : Z) (e : Z * Z) : Prop := (int64 (now - e.2) <= RealtimeUserThinktimeMax act)%Z.
#[export] Instance present_dec now e : Decision (present now e).
Proof. unfold present. apply _. Defined.
(** The users that stay are those seen in the thinking time, and they are those offered. *)
Lemma offered_users now (m : lmap (K := Z) Z) :
  let r := foldl (offer_user act now) (m, NewHyperLogLogDefault) (lm_entries m) in
  lm_entries r.1 = filter (present now) (lm_entries m) /\
  r.2 = foldl (fun h e => OfferLong (wrap_u 64 e.1) h) NewHyperLogLogDefault (filter (present now) (lm_entries m)).
Proof.
  intros r. unfold r. clear r. pose proof (keys_NoDup (K := Z) Z m) as Hn.
  set (es := lm_entries m) in *. assert (lm_entries m = [] ++ es) as Hm by done. clearbody es.
  assert (forall done h, lm_entries m = done ++ es -> NoDup (done ++ es).*1 ->
    lm_entries (foldl (offer_user act now) (m, h) es).1 = done ++ filter (present now) es /\
    (foldl (offer_user act now) (m, h) es).2 = foldl (fun h e => OfferLong (wrap_u 64 e.1) h) h (filter (present now) es)) as H;
    [|exact (H [] NewHyperLogLogDefault Hm Hn)].
  clear Hm Hn. revert m. induction es as [|[k t] es IH]; intros m dn h Hm Hn; [by split|]. cbn [foldl].
  unfold offer_user at 2 4. cbn [fst snd]. rewrite filter_cons. destruct (Z.ltb_spec (RealtimeUserThinktimeMax act) (int64 (now - t))) as [Hlt|Hge].
  - rewrite decide_False by (unfold present; simpl; lia).
    assert (lm_entries (lm_remove m k) = dn ++ es) as Hr.
    { rewrite remove_entries, Hm. unfold aremove. rewrite fmap_app in Hn. simpl in Hn. apply NoDup_app in Hn as (H1 & H2 & H3).
      apply NoDup_cons in H3 as [H3 H4]. rewrite filter_app, filter_cons, decide_False by (simpl; congruence).
      assert (forall l : list (Z * Z), k ∉ l.*1 -> filter (fun p => p.1 <> k) l = l) as Hf.
      { clear. induction l as [|[j u] l IH]; intros Hl; [done|]. simpl in Hl. apply not_elem_of_cons in Hl as [Hj Hl].
        rewrite filter_cons, decide_True by (simpl; congruence). by rewrite IH. }
      rewrite !Hf; [done|done|]. intros Hin. apply (H2 k Hin). by left. }
    apply IH; [exact Hr|]. rewrite !fmap_app in *. simpl in Hn. apply NoDup_app in Hn as (H1 & H2 & H3). apply NoDup_app.
    apply NoDup_cons in H3 as [H3 H4]. split; [done|]. split; [|done]. intros x Hx Hx'. apply (H2 x Hx). by right.
  - rewrite decide_True by done. cbn [foldl].
    destruct (IH m (dn ++ [(k, t)]) (OfferLong (wrap_u 64 k) h)) as [E1 E2]; [rewrite <- app_assoc; exact Hm|rewrite <- app_assoc; exact Hn|].
    rewrite E1, E2. by rewrite <- app_assoc.
Qed.
End Users.

Module Counted.
#[local] Instance widths : CounterWidths := {| ActSvcCount_bits := 32; ActiveStat_bits := 16 |}.
#[local] Instance width_laws : CounterWidthLaws widths.
Proof. by split. Qed.
Definition act (lost : Z) : ActiveConf := mkActiveConf true lost 3000 8000 true 1000.
Definition ip (b : bytes) : Z := 99.
Definition pack0 : ActivePack := mkActivePack [] 0 (mkStatus 0 0 0 0).
Lemma pack0_in_width : in_width pack0.
Proof. unfold in_width, in_s. by repeat split. Qed.
Lemma agent2_owned : owned agent2.
Proof.
  apply (run_owned apiconf1 method0 20 ip head head_in Panic Panic 30 (idle world1)); [exact agent2_run|].
  by apply (idle_owned head head_in).
Qed.
Lemma agent2_keyed : keyed agent2.
Proof.
  intros key l c H. apply context_of_Some in H as [Hg Hc].
  assert (lm_entries (w_table (ag_w agent2)) = [(2%Z, 1)]) as He by (vm_compute; reflexivity).
  revert Hg. unfold GetContext, lm_get. rewrite He. cbn [alookup]. destruct (decide (2%Z = key)) as [Hk|Hk]; [|intros Hg; discriminate Hg].
  intros Hg. injection Hg as <-. subst key.
  assert (TraceContext.ProfileSeq <$> (ag_heap agent2 !! 1) = Some 2%Z) as Hp by (vm_compute; reflexivity).
  rewrite Hc in Hp. injection Hp as Hp. exact Hp.
Qed.
(** One transaction runs: four seconds old it counts in the middle part, and with a limit
    of two seconds it is lost and leaves the table. *)
Lemma active_counts_witness :
  (exists a' p', TaskActiveTranCount apiconf1 method0 20 ip head (act 60000) 4100 4100 agent2 pack0 = Ret (a', p') /\
     ActSvcSlice p' = [0; 1; 0]%Z) /\
  (exists a' p', TaskActiveTranCount apiconf1 method0 20 ip head (act 2000) 4100 4100 agent2 pack0 = Ret (a', p') /\
     ActSvcSlice p' = [0; 0; 0]%Z /\ ActSvcCount p' = 1%Z /\ s_method (ActiveStat p') = 1%Z /\ context_of 2 a' = None).
Proof.
  split.
  - destruct (active_counts apiconf1 method0 20 ip head head_in (act 60000) 4100 4100 agent2 pack0 agent2_owned agent2_keyed eq_refl pack0_in_width)
      as (a' & p' & E & _ & _ & _ & _ & _ & _ & Hs & _).
    exists a', p'. split; [exact E|]. rewrite Hs. vm_compute. reflexivity.
  - destruct (active_counts apiconf1 method0 20 ip head head_in (act 2000) 4100 4100 agent2 pack0 agent2_owned agent2_keyed eq_refl pack0_in_width)
      as (a' & p' & E & _ & Hc & _ & _ & _ & Hm & Hs & Hx).
    exists a', p'. split; [exact E|]. split; [rewrite Hs; vm_compute; reflexivity|]. split; [rewrite Hc; vm_compute; reflexivity|].
    split; [rewrite Hm; vm_compute; reflexivity|].
    rewrite Hx. vm_compute. reflexivity.
Defined.
End Counted.
