(* ===== verification/MeterSelf.v ===== *)
(** The agent's own load, [src/agent/agent/counter/meter/MeterSelf.go], and the loop of the
    counters, [src/agent/agent/counter/CounterManager.go].

    A sample is added to the interval it is in; the first sample of another interval
    closes the one before, under the time of the new one.  The three kinds of samples
    differ in what is kept of an interval.  The clock is an argument, as the readings of
    it a wait makes. *)

From Stdlib Require Import SpecFloat.
From S2P Require Import Prelude Hmap CounterTasks.

Definition f32_add : float32 -> float32 -> float32 := SFadd 24 128.
Definition f32_ltb : float32 -> float32 -> bool := SFltb.

Module MeterSelf.
Section S.
Context {LM : LinkedMap Z}.
(** The interval that is open: its time, samples, sum and maximum. *)
Record open (A : Type) := mkOpen { lastTime : Z; cnt : Z; sum : A; max : A }.
Arguments mkOpen {A}. Arguments lastTime {A}. Arguments cnt {A}. Arguments sum {A}. Arguments max {A}.
Record t := mk {
  packet : open Z; cpu : open float32; mem : open Z;
  packetMap : lmap (K := Z) Z; packetMaxMap : lmap (K := Z) Z;
  cpuMap : lmap (K := Z) float32; cpuMaxMap : lmap (K := Z) float32;
  memMap : lmap (K := Z) Z; memMaxMap : lmap (K := Z) Z
}.
Definition newMeterSelf (MeterSelfBufferMax : nat) : t :=
  mk (mkOpen 0 0 0 0)%Z (mkOpen 0 0 (S754_zero false) (S754_zero false))%Z (mkOpen 0 0 0 0)%Z
    (lm_new MeterSelfBufferMax) (lm_new MeterSelfBufferMax) (lm_new MeterSelfBufferMax)
    (lm_new MeterSelfBufferMax) (lm_new MeterSelfBufferMax) (lm_new MeterSelfBufferMax).
(** [Clear] keeps the open intervals. *)
Definition Clear (m : t) : t :=
  mk (packet m) (cpu m) (mem m) (lm_new (lm_max (packetMap m))) (lm_new (lm_max (packetMaxMap m)))
    (lm_new (lm_max (cpuMap m))) (lm_new (lm_max (cpuMaxMap m))) (lm_new (lm_max (memMap m))) (lm_new (lm_max (memMaxMap m))).

Variable MeterSelfInterval : Z.
(** A division by an interval of 0 is a panic that is recovered. *)
Definition slot (now : Z) : option Z :=
  if (MeterSelfInterval =? 0)%Z then None else Some (int64 (Z.quot now MeterSelfInterval * MeterSelfInterval)).

Definition AddMeterSelfPacket (clock x : Z) (m : t) : t :=
  match slot clock with
  | None => m
  | Some now =>
      let o := packet m in
      let o := if (lastTime o =? 0)%Z then mkOpen now (cnt o) (sum o) (max o) else o in
      if (lastTime o =? now)%Z then
        mk (mkOpen now (cnt o) (int64 (sum o + x)) (if (max o <? x)%Z then x else max o)) (cpu m) (mem m)
          (packetMap m) (packetMaxMap m) (cpuMap m) (cpuMaxMap m) (memMap m) (memMaxMap m)
      else
        mk (mkOpen now (cnt o) x x) (cpu m) (mem m)
          (lm_put (packetMap m) now (Z.quot (sum o) 1024)) (lm_put (packetMaxMap m) now (Z.quot (max o) 1024))
          (cpuMap m) (cpuMaxMap m) (memMap m) (memMaxMap m)
  end.
Definition AddMeterSelfCpu (clock : Z) (x : float32) (m : t) : t :=
  match slot clock with
  | None => m
  | Some now =>
      let o := cpu m in
      let o := if (lastTime o =? 0)%Z then mkOpen now (cnt o) (sum o) (max o) else o in
      if (lastTime o =? now)%Z then
        mk (packet m) (mkOpen now (int32 (cnt o + 1)) (f32_add (sum o) x) (if f32_ltb (max o) x then x else max o)) (mem m)
          (packetMap m) (packetMaxMap m) (cpuMap m) (cpuMaxMap m) (memMap m) (memMaxMap m)
      else
        mk (packet m) (mkOpen now 1 x x) (mem m) (packetMap m) (packetMaxMap m)
          (lm_put (cpuMap m) now (f32_div (sum o) (f32_of_Z (cnt o)))) (lm_put (cpuMaxMap m) now (max o)) (memMap m) (memMaxMap m)
  end.
(** The division of a sum by no samples is a panic that is recovered. *)
Definition AddMeterSelfMem (clock x : Z) (m : t) : t :=
  match slot clock with
  | None => m
  | Some now =>
      let o := mem m in
      let o := if (lastTime o =? 0)%Z then mkOpen now (cnt o) (sum o) (max o) else o in
      if (lastTime o =? now)%Z then
        mk (packet m) (cpu m) (mkOpen now (int32 (cnt o + 1)) (int64 (sum o + x)) (if (max o <? x)%Z then x else max o))
          (packetMap m) (packetMaxMap m) (cpuMap m) (cpuMaxMap m) (memMap m) (memMaxMap m)
      else if (cnt o =? 0)%Z then m
      else
        mk (packet m) (cpu m) (mkOpen now 1 x x) (packetMap m) (packetMaxMap m) (cpuMap m) (cpuMaxMap m)
          (lm_put (memMap m) now (Z.quot (sum o) (cnt o))) (lm_put (memMaxMap m) now (max o))
  end.

Record SelfStat := mkSelfStat {
  packetTime : list Z; packet_ : list Z; packetMax : list Z;
  cpuTime : list Z; cpu_ : list float32; cpuMax : list float32;
  memTime : list Z; mem_ : list Z; memMax : list Z
}.
Definition GetMeterSelfStat (m : t) : SelfStat :=
  mkSelfStat (lm_entries (packetMap m)).*1 (lm_entries (packetMap m)).*2 (lm_entries (packetMaxMap m)).*2
    (lm_entries (cpuMap m)).*1 (lm_entries (cpuMap m)).*2 (lm_entries (cpuMaxMap m)).*2
    (lm_entries (memMap m)).*1 (lm_entries (memMap m)).*2 (lm_entries (memMaxMap m)).*2.
End S.
End MeterSelf.

(** * The loop *)

Module CounterManager.
Record Settings := mkSettings { CountInterval : Z; CounterEnabled : bool; Shutdown : bool }.
Definition INTERVAL (c : Settings) : Z := Z.max (CountInterval c) 5000.
Definition slot (interval now : Z) : Z := (Z.quot now interval * interval)%Z.
(** [sleepx]: how long it sleeps at once, and the first reading of the clock in another
    slot than the first. *)
Definition sleep_time (next now : Z) : Z := Z.min (Z.max (Z.quot (next - now) 1000 * 1000) 0) 3000.
Fixpoint poll (interval stime : Z) (readings : list Z) : option Z :=
  match readings with
  | [] => None
  | r :: rs => if (slot interval (slot interval r) =? stime)%Z then poll interval stime rs else Some r
  end.
Definition sleepx (interval : Z) (readings : list Z) : option Z :=
  match readings with [] => None | r :: rs => poll interval (slot interval r) rs end.

(** What a round puts in the pack before the tasks. *)
Record Round := mkRound { r_Time : Z; r_CollectIntervalMs : Z; r_Duration : Z; r_tasks : bool }.
(** [lastSysTime] after the round, and the pack, when one is made.  [now] follows the wait. *)
Definition round (c : Settings) (PCODE OID : Z) (lastSysTime now sys : Z) : Z * option Round :=
  if (PCODE =? 0)%Z || (OID =? 0)%Z then (lastSysTime, None)
  else
    let ms := (sys - lastSysTime)%Z in
    let d := int32 (Z.quot (ms + 499) 1000) in
    if (d <=? 0)%Z then (sys, None)
    else (sys, Some (mkRound (slot (INTERVAL c) now) ms d (CounterEnabled c))).
End CounterManager.

(** The closed intervals of the agent's own meter are the sums and maxima of their packets,
    and the wait of the counter loop ends in another slot. *)

Import MeterSelf.

Arguments lastTime {A}. Arguments cnt {A}. Arguments sum {A}. Arguments max {A}. Arguments mkOpen {A}.

Section Packets.
Context {LM : LinkedMap Z}.
Variable interval : Z.

(** A sample in its interval; the samples of one interval. *)
Definition samples (cs : list (Z * Z)) : list (Z * Z) := omap (fun c => s ← slot interval c.1; Some (s, c.2)) cs.
Definition uniform (s : Z) (l : list (Z * Z)) : Prop := l <> [] /\ Forall (fun p => p.1 = s) l.
Fixpoint total (l : list (Z * Z)) : Z := match l with [] => 0 | p :: l => p.2 + total l end.
Fixpoint maximum (l : list (Z * Z)) : Z := match l with [] => 0 | p :: l => Z.max p.2 (maximum l) end.
(** The entries of closed intervals: the time under which each is put, and its samples. *)
Definition put_all (f : list (Z * Z) -> Z) (segs : list (Z * list (Z * Z))) (m : lmap (K := Z) Z) : lmap (K := Z) Z :=
  foldl (fun m seg => lm_put m seg.1 (Z.quot (f seg.2) 1024)) m segs.
Definition add_all (cs : list (Z * Z)) (m : t) : t := foldl (fun m c => AddMeterSelfPacket interval c.1 c.2 m) m cs.

Lemma total_snoc l p : total (l ++ [p]) = (total l + p.2)%Z.
Proof. induction l as [|q l IH]; cbn [total app]; lia. Qed.
Lemma maximum_snoc l p : maximum (l ++ [p]) = Z.max (maximum l) p.2.
Proof. induction l as [|q l IH]; cbn [maximum app]; lia. Qed.

(** Whatever packets are added at whatever times: the samples split, in order, into
    closed intervals and an open one; each closed interval was put in both maps under the
    time of the first packet after it, with the sum and the maximum of its own packets. *)
Theorem packets_exact cs n :
  interval <> 0%Z -> Forall (fun c => slot interval c.1 <> Some 0%Z /\ (0 <= c.2)%Z) cs -> (total (samples cs) < 2 ^ 63)%Z ->
  let m := add_all cs (newMeterSelf n) in
  exists segs cur,
    samples cs = concat segs.*2 ++ cur /\
    Forall (fun seg => exists s, s <> seg.1 /\ uniform s seg.2) segs /\
    (samples cs <> [] -> uniform (lastTime (packet m)) cur) /\
    packetMap m = put_all total segs (lm_new n) /\ packetMaxMap m = put_all maximum segs (lm_new n) /\
    sum (packet m) = total cur /\ max (packet m) = maximum cur.
Proof.
  intros Hi Hf. induction cs as [|[clock x] cs IH] using rev_ind; intros Ht m.
  { exists [], []. repeat split; try done. }
  apply Forall_app in Hf as [Hf Hx]. apply Forall_cons in Hx as [[Hs Hx] _]. simpl in Hs, Hx.
  unfold slot in Hs. rewrite (proj2 (Z.eqb_neq interval 0) Hi) in Hs. set (now := int64 (Z.quot clock interval * interval)) in *.
  assert (now <> 0)%Z as Hnow by congruence. clear Hs.
  assert (samples (cs ++ [(clock, x)]) = samples cs ++ [(now, x)]) as Hsm.
  { unfold samples. rewrite omap_app. simpl. unfold slot. by rewrite (proj2 (Z.eqb_neq interval 0) Hi). }
  rewrite Hsm, total_snoc in Ht. simpl in Ht. specialize (IH Hf ltac:(lia)).
  destruct IH as (segs & cur & E1 & E2 & E3 & E4 & E5 & E6 & E7).
  assert (0 <= total cur <= total (samples cs))%Z as Htot.
  { assert (forall l, Forall (fun p : Z * Z => (0 <= p.2)%Z) l -> (0 <= total l)%Z) as Hpos by (intros l; induction 1; cbn [total]; lia).
    assert (Forall (fun p : Z * Z => (0 <= p.2)%Z) (samples cs)) as Hall.
    { unfold samples. clear -Hf. induction Hf as [|[c y] cs [_ Hy] _ IH]; [constructor|]. simpl. destruct (slot interval c); [by constructor|done]. }
    rewrite E1 in Hall |- *. apply Forall_app in Hall as [H1 H2]. apply Hpos in H1, H2.
    assert (forall l l', total (l ++ l') = (total l + total l')%Z) as -> by (intros l l'; induction l; cbn [total app]; lia). lia. }
  unfold m, add_all. rewrite foldl_app. fold (add_all cs (newMeterSelf n)). set (m0 := add_all cs (newMeterSelf n)) in *. simpl.
  unfold AddMeterSelfPacket, slot. rewrite (proj2 (Z.eqb_neq interval 0) Hi). fold now.
  assert ((if (maximum cur <? x)%Z then x else maximum cur) = maximum (cur ++ [(now, x)])) as Hmax.
  { rewrite maximum_snoc. simpl. destruct (Z.ltb_spec (maximum cur) x); lia. }
  assert (int64 (total cur + x) = total (cur ++ [(now, x)])) as Hsum by (rewrite total_snoc; simpl; apply int64_id; lia).
  assert (samples cs = [] -> lastTime (packet m0) = 0)%Z as Hnone.
  { intros Hn. destruct cs as [|[c y] cs]; [done|]. exfalso. unfold samples, slot in Hn. simpl in Hn.
    by rewrite (proj2 (Z.eqb_neq interval 0) Hi) in Hn. }
  assert (Forall (fun p : Z * Z => p.1 <> 0%Z) (samples cs)) as Hnz.
  { unfold samples. clear -Hf. induction Hf as [|[c y] cs [Hc _] _ IH]; [constructor|]. simpl in *.
    destruct (slot interval c); simpl; [constructor; [simpl; congruence|done]|done]. }
  rewrite Hsm. clearbody m0. clear Hsm m. destruct m0 as [[lt ct su mx] cp me pm pmm cm cmm mm mmm]. simpl in *. subst su mx pm pmm.
  assert (cur = [] \/ uniform lt cur /\ lt <> 0%Z) as Hcur.
  { destruct (samples cs) as [|q qs] eqn:Eq; [left; by destruct cur, (concat segs.*2)|right].
    destruct E3 as [Hc Hu]; [done|]. split; [by split|]. intros ->. destruct cur as [|p cur]; [done|].
    rewrite E1 in Hnz. apply Forall_app in Hnz as [_ Hnz]. apply Forall_cons in Hnz as [Hp _]. by apply Forall_cons in Hu as [Hu _]. }
  destruct (Z.eqb_spec lt 0) as [->|Hlt]; cbn [lastTime cnt sum max].
  - destruct Hcur as [->|[_ ?]]; [|done]. rewrite Z.eqb_refl. simpl. exists segs, [(now, x)]. rewrite app_nil_r in E1.
    rewrite E1. simpl in Hsum, Hmax. split; [done|]. split; [done|]. split; [intros _; split; [done|by repeat constructor]|].
    split; [done|]. split; [done|]. by split.
  - destruct Hcur as [->|[Hu _]].
    { exfalso. apply Hlt, Hnone. destruct (samples cs); [done|]. by destruct E3. }
    destruct (Z.eqb_spec lt now) as [->|Hne]; simpl.
    + exists segs, (cur ++ [(now, x)]). rewrite E1, <- app_assoc. split; [done|]. split; [done|].
      split; [intros _; split; [by destruct cur|]; apply Forall_app; split; [apply Hu|by repeat constructor]|].
      split; [done|]. split; [done|]. by split.
    + exists (segs ++ [(now, cur)]), [(now, x)]. rewrite E1, fmap_app, concat_app. simpl. rewrite app_nil_r.
      split; [done|]. split; [apply Forall_app; split; [done|]; repeat constructor; by exists lt|].
      split; [intros _; split; [done|by repeat constructor]|]. unfold put_all. rewrite !foldl_app. simpl.
      split; [done|]. split; [done|]. split; lia.
Qed.
End Packets.

(** A wait ends with the first reading in another slot than the first one. *)
Lemma sleepx_spec interval rs r :
  CounterManager.sleepx interval rs = Some r ->
  exists r0 before after, rs = r0 :: before ++ r :: after /\
    CounterManager.slot interval (CounterManager.slot interval r) <> CounterManager.slot interval r0 /\
    Forall (fun x => CounterManager.slot interval (CounterManager.slot interval x) = CounterManager.slot interval r0) before.
Proof.
  destruct rs as [|r0 rs]; [done|]. simpl. intros H. exists r0. revert H.
  induction rs as [|x rs IH]; [done|]. simpl. destruct (Z.eqb_spec (CounterManager.slot interval (CounterManager.slot interval x)) (CounterManager.slot interval r0)) as [E|E].
  - intros (before & after & [= ->] & H1 & H2)%IH. exists (x :: before), after. split; [done|]. split; [done|]. by constructor.
  - intros [= ->]. by exists [], rs.
Qed.

Module Load.
#[local] Instance lmap_times : LinkedMap Z := ListMap.list_map.
(** Three packets in one interval, one in the next. *)
Definition cs : list (Z * Z) := [(60000, 2048); (61000, 4096); (65000, 1024); (120500, 512)]%Z.
Lemma packets_exact_witness :
  lm_entries (packetMap (add_all 60000 cs (newMeterSelf 100))) = [(120000, 7)]%Z /\
  exists segs cur, samples 60000 cs = concat segs.*2 ++ cur /\
    packetMap (add_all 60000 cs (newMeterSelf 100)) = put_all total segs (lm_new 100).
Proof.
  split; [vm_compute; reflexivity|]. destruct (packets_exact 60000 cs 100) as (segs & cur & E1 & _ & _ & E2 & _).
  - discriminate.
  - repeat (apply List.Forall_cons || apply List.Forall_nil); (split; [discriminate|simpl; lia]).
  - vm_compute. reflexivity.
  - exists segs, cur. split; [exact E1|exact E2].
Defined.
End Load.
