(* ===== verification/InstSql.v ===== *)
(** What the instrumented libraries share: a program of the application runs on the agent's
    state, the state of the wrapped library, and a clock that it reads; [selectContext],
    which [src/instrumentation/net/http/whataphttp/http.go] and
    [src/instrumentation/database/sql/whatapsql/driver.go] both declare.

    The wrapped library is an argument: its calls are programs like those of the wrapper,
    so that a wrapper may be wrapped again. *)

From stdpp Require Import gmap.
From S2P Require Import Prelude LlmUrl LlmPack LlmState LlmSender EscapeSQL Hmap UrlPattern TraceCtx MeterService Meters DataPack DataText ParsedSql.
From S2P Require Import Stat StatError TraceContext TraceApi TraceSteps TraceMain TraceManager AppState AppTrace AppCalls.

Section Inst.
Context {LMz : LinkedMap Z} {LMi : LinkedMap (Z * Z)} {LMh : LinkedMap StatHttpc.HTTPC}
  {LMm : LinkedMap StatTranxMtCaller.MtraceKEY} {BU : BitUtil} {SU : StringUtil} {SM : StringMore} {TT : TextTypes}
  {RQ : RequestQueue} {CT : CountTable} {PT : PathTree} {HM : MeterService.Pack} {UU : UrlUtil} {PC : IProfileCollector}
  {HX : Hexa32} {AC : AppContext}.
(** The state of the library. *)
Context {D : Type}.

Record Inst := mkInst { i_app : App; i_lib : D; i_time : nat }.
Definition iprog (A : Type) : Type := Inst -> Inst * option A.
#[export] Instance iprog_ret : MRet iprog := fun A x i => (i, Some x).
#[export] Instance iprog_bind : MBind iprog := fun A B f m i =>
  match m i with (i, Some x) => f x i | (i, None) => (i, None) end.
#[export] Instance iprog_fmap : FMap iprog := fun A B f m => x ← m; mret (f x).
(** A call of the tracing API. *)
Definition agent {A} (m : prog A) : iprog A := fun i => let '(a, x) := m (i_app i) in (i <| i_app := a |>, x).
(** A call of the library; [None] is a panic. *)
Definition library {A} (m : D -> D * option A) : iprog A := fun i => let '(d, x) := m (i_lib i) in (i <| i_lib := d |>, x).

(** The readings of the clock, with the goroutine that reads. *)
Variable clock : nat -> Env.
Definition tick : iprog Env := fun i => (i <| i_time ::= S |>, Some (clock (i_time i))).

Variable conf : AppConf.
(** The first of the contexts that leads to a transaction, else the first. *)
Fixpoint select_from (first : goctx) (contexts : list goctx) : iprog goctx :=
  match contexts with
  | [] => mret first
  | it :: contexts =>
      e ← tick;
      '(_, traceCtx) ← agent (GetTraceContext conf e it);
      match traceCtx with Some _ => mret it | None => select_from first contexts end
  end.
Definition selectContext (contexts : list goctx) : iprog goctx := select_from (default None (head contexts)) contexts.
End Inst.
#[global] Arguments iprog {LMz LMi LMh LMm RQ CT PT HM UU PC AC} D A.
#[global] Arguments Inst {LMz LMi LMh LMm RQ CT PT HM UU PC AC} D.

(** The wrappers of [database/sql] drivers, [src/instrumentation/database/sql/whatapsql]:
    [driver.go], whose wrappers record the calls of a driver, and [sql.go], which opens
    databases through them.

    The interfaces of [database/sql/driver] are records of programs; those a driver may
    leave out are options, as the type assertions of the wrappers see them.  [Result],
    [Rows] and [TxOptions] are the driver's.  A constructor gives an error or a value. *)

(** * [database/sql/driver] *)

Record NamedValue := mkNamed { nv_Name : bytes; nv_Ordinal : Z; nv_Value : param }.
Definition ErrSkip : error := Errorf (str "driver: skip fast-path; continue as if unimplemented").
#[export] Instance error_eq_dec : EqDecision error.
Proof. solve_decision. Defined.
Definition is_skip (err : option error) : bool := bool_decide (err = Some ErrSkip).

Section Interfaces.
Variables Result Rows TxOptions : Type.
(** The programs the interface is of. *)
Variable M : Type -> Type.
Definition answer (A : Type) : Type := option A * option error.
Record Tx := mkTx { tx_Commit : M (option error); tx_Rollback : M (option error) }.
Record Stmt := mkStmt {
  st_Close : M (option error); st_NumInput : M Z;
  st_Exec : list param -> M (answer Result); st_Query : list param -> M (answer Rows);
  st_ExecContext : option (goctx -> list NamedValue -> M (answer Result));
  st_QueryContext : option (goctx -> list NamedValue -> M (answer Rows))
}.
Record Conn := mkConn {
  cn_Prepare : bytes -> M (error + Stmt)%type; cn_Close : M (option error); cn_Begin : M (error + Tx)%type;
  cn_Exec : option (bytes -> list param -> M (answer Result));
  cn_ExecContext : option (goctx -> bytes -> list NamedValue -> M (answer Result));
  cn_Query : option (bytes -> list param -> M (answer Rows));
  cn_QueryContext : option (goctx -> bytes -> list NamedValue -> M (answer Rows));
  cn_PrepareContext : option (goctx -> bytes -> M (error + Stmt)%type);
  cn_ResetSession : option (goctx -> M (option error));
  cn_BeginTx : option (goctx -> TxOptions -> M (error + Tx)%type)
}.
(** [co_Close]: [io.Closer]. *)
Record Connector := mkConnector { co_Connect : goctx -> M (error + Conn)%type; co_Close : option (M (option error)) }.
Record Driver := mkDriver { dr_Open : bytes -> M (error + Conn)%type; dr_OpenConnector : option (bytes -> M (error + Connector)%type) }.
End Interfaces.
Arguments mkTx {M}. Arguments tx_Commit {M}. Arguments tx_Rollback {M}.
Arguments mkStmt {Result Rows M}. Arguments st_Close {Result Rows M}. Arguments st_NumInput {Result Rows M}.
Arguments st_Exec {Result Rows M}. Arguments st_Query {Result Rows M}.
Arguments st_ExecContext {Result Rows M}. Arguments st_QueryContext {Result Rows M}.
Arguments mkConn {Result Rows TxOptions M}. Arguments cn_Prepare {Result Rows TxOptions M}.
Arguments cn_Close {Result Rows TxOptions M}. Arguments cn_Begin {Result Rows TxOptions M}.
Arguments cn_Exec {Result Rows TxOptions M}. Arguments cn_ExecContext {Result Rows TxOptions M}.
Arguments cn_Query {Result Rows TxOptions M}. Arguments cn_QueryContext {Result Rows TxOptions M}.
Arguments cn_PrepareContext {Result Rows TxOptions M}. Arguments cn_ResetSession {Result Rows TxOptions M}.
Arguments cn_BeginTx {Result Rows TxOptions M}.
Arguments mkConnector {Result Rows TxOptions M}. Arguments co_Connect {Result Rows TxOptions M}.
Arguments co_Close {Result Rows TxOptions M}.
Arguments mkDriver {Result Rows TxOptions M}. Arguments dr_Open {Result Rows TxOptions M}.
Arguments dr_OpenConnector {Result Rows TxOptions M}.

(** * The values of a call *)

Definition convertDriverValue (args : list param) : list param := args.
(** The names and positions are dropped where the text of the parameters is made. *)
Definition convertDriverNamedValue (args : list NamedValue) : list param := nv_Value <$> args.
Fixpoint namedValueToValue (named : list NamedValue) : error + list param :=
  match named with
  | [] => inr []
  | x :: named =>
      if nonempty (nv_Name x) then inl (Errorf (str "sql: driver does not support the use of Named Parameters"))
      else match namedValueToValue named with inl err => inl err | inr dargs => inr (nv_Value x :: dargs) end
  end.

Section Wrap.
Context {LMz : LinkedMap Z} {LMi : LinkedMap (Z * Z)} {LMh : LinkedMap StatHttpc.HTTPC}
  {LMm : LinkedMap StatTranxMtCaller.MtraceKEY} {BU : BitUtil} {SU : StringUtil} {SM : StringMore} {TT : TextTypes}
  {RQ : RequestQueue} {CT : CountTable} {PT : PathTree} {HM : MeterService.Pack} {UU : UrlUtil} {PC : IProfileCollector}
  {HX : Hexa32} {AC : AppContext}.
Context {D Result Rows TxOptions : Type}.
Variable clock : nat -> Env.
Variable conf : AppConf.
Variable GoSqlProfileEnabled : bool.
Variable INFO : Z.
Variable call_get : list nat -> option nat.
Abbreviation iprog := (iprog D).
Abbreviation Tx := (Tx iprog).
Abbreviation Stmt := (Stmt Result Rows iprog).
Abbreviation Conn := (Conn Result Rows TxOptions iprog).
Abbreviation Connector := (Connector Result Rows TxOptions iprog).
Abbreviation Driver := (Driver Result Rows TxOptions iprog).
Abbreviation selectContext := (selectContext clock conf).
Abbreviation tick := (tick clock).
Definition disabled : bool := DISABLE (mt conf).

(** ** Recording *)

Definition End (sqlCtx : nat) (err : option error) : iprog unit :=
  e ← tick; agent (EndSqlCall conf INFO e (Some sqlCtx) err (is_skip err));; mret tt.
(** A call between the start and the end of a statement. *)
Definition with_statement {A} (ctx : goctx) (dataSourceName query : bytes) (args : list param) (err : A -> option error)
    (call : iprog A) : iprog A :=
  e ← tick;
  sqlCtx ← agent (StartWithParam conf call_get e ctx dataSourceName query args);
  x ← call;
  End sqlCtx (err x);;
  mret x.
Definition answer_error {A} (x : answer A) : option error := x.2.
Definition left_error {A} (x : error + A) : option error := match x with inl err => Some err | inr _ => None end.
(** A call recorded as a step with its time, and its error. *)
Definition with_step {A} (ctx : goctx) (title : bytes) (err : A -> option error) (call : iprog A) : iprog A :=
  st ← tick;
  x ← call;
  e ← tick;
  let elapsed := int64 (SystemNow e - SystemNow st) in
  agent (Step conf e ctx title title (if (elapsed <? 0)%Z then 0 else elapsed) 0);;
  match err x with
  | Some er => agent (Error conf INFO e ctx (Some er));; mret x
  | None => mret x
  end.

(** ** Transactions and statements *)

Definition WrapTx (t : Tx) (ctx : goctx) (dataSourceName : bytes) : Tx :=
  mkTx (if disabled then tx_Commit t else with_step ctx (str "Commit") id (tx_Commit t))
    (if disabled then tx_Rollback t else with_step ctx (str "Rollback") id (tx_Rollback t)).

Definition stmt_call {A} (s_ctx : goctx) (dataSourceName preparedSql : bytes) (call : list param -> iprog (answer A))
    (args : list param) : iprog (answer A) :=
  if disabled then call args
  else with_statement s_ctx dataSourceName preparedSql (convertDriverValue args) answer_error (call args).
(** A statement without the method with a context has its plain one called, unrecorded. *)
Definition stmt_call_context {A} (s_ctx : goctx) (dataSourceName preparedSql : bytes)
    (callCtx : option (goctx -> list NamedValue -> iprog (answer A))) (call : list param -> iprog (answer A))
    (ctx : goctx) (args : list NamedValue) : iprog (answer A) :=
  wCtx ← selectContext [ctx; s_ctx];
  match callCtx with
  | Some execCtx =>
      if disabled then execCtx ctx args
      else with_statement wCtx dataSourceName preparedSql (convertDriverNamedValue args) answer_error (execCtx ctx args)
  | None =>
      match namedValueToValue args with
      | inl err => mret (None, Some err)
      | inr dargs => call dargs
      end
  end.
Definition WrapStmt (s : Stmt) (ctx : goctx) (dataSourceName preparedSql : bytes) : Stmt :=
  mkStmt (st_Close s) (st_NumInput s)
    (stmt_call ctx dataSourceName preparedSql (st_Exec s))
    (stmt_call ctx dataSourceName preparedSql (st_Query s))
    (Some (stmt_call_context ctx dataSourceName preparedSql (st_ExecContext s) (st_Exec s)))
    (Some (stmt_call_context ctx dataSourceName preparedSql (st_QueryContext s) (st_Query s))).

(** ** Connections *)

Definition conn_call {A} (c_ctx : goctx) (dataSourceName : bytes) (call : option (bytes -> list param -> iprog (answer A)))
    (query : bytes) (args : list param) : iprog (answer A) :=
  match call with
  | Some exec =>
      if disabled then exec query args
      else with_statement c_ctx dataSourceName query (convertDriverValue args) answer_error (exec query args)
  | None => mret (None, Some ErrSkip)
  end.
Definition conn_call_context {A} (c_ctx : goctx) (dataSourceName : bytes)
    (call : option (goctx -> bytes -> list NamedValue -> iprog (answer A)))
    (ctx : goctx) (query : bytes) (args : list NamedValue) : iprog (answer A) :=
  wCtx ← selectContext [ctx; c_ctx];
  match call with
  | Some execCtx =>
      if disabled then execCtx ctx query args
      else with_statement wCtx dataSourceName query (convertDriverNamedValue args) answer_error (execCtx ctx query args)
  | None => mret (None, Some ErrSkip)
  end.
Definition wrap_stmt (ctx : goctx) (dataSourceName query : bytes) (x : error + Stmt) : error + Stmt :=
  match x with inl err => inl err | inr stmt => inr (WrapStmt stmt ctx dataSourceName query) end.
Definition wrap_tx (ctx : goctx) (dataSourceName : bytes) (x : error + Tx) : error + Tx :=
  match x with inl err => inl err | inr tx => inr (WrapTx tx ctx dataSourceName) end.
Definition Prepare (c : Conn) (c_ctx : goctx) (dataSourceName query : bytes) : iprog (error + Stmt) :=
  wrap_stmt c_ctx dataSourceName query <$> cn_Prepare c query.
Definition PrepareContext (c : Conn) (c_ctx : goctx) (dataSourceName : bytes) (ctx : goctx) (query : bytes) : iprog (error + Stmt) :=
  wCtx ← selectContext [ctx; c_ctx];
  wrap_stmt wCtx dataSourceName query <$>
    match cn_PrepareContext c with Some prep => prep ctx query | None => cn_Prepare c query end.
Definition Begin (c : Conn) (c_ctx : goctx) (dataSourceName : bytes) : iprog (error + Tx) :=
  if disabled then cn_Begin c
  else wrap_tx c_ctx dataSourceName <$> with_step c_ctx (str "Begin") left_error (cn_Begin c).
(** A driver without [BeginTx] begins without the options, unrecorded. *)
Definition BeginTx (c : Conn) (c_ctx : goctx) (dataSourceName : bytes) (ctx : goctx) (opts : TxOptions) : iprog (error + Tx) :=
  wCtx ← selectContext [ctx; c_ctx];
  match cn_BeginTx c with
  | Some beginTx =>
      if disabled then beginTx ctx opts
      else wrap_tx wCtx dataSourceName <$> with_step wCtx (str "BeginTx") left_error (beginTx ctx opts)
  | None => wrap_tx wCtx dataSourceName <$> cn_Begin c
  end.
Definition WrapConn (c : Conn) (ctx : goctx) (dataSourceName : bytes) : Conn :=
  mkConn (Prepare c ctx dataSourceName)
    (if disabled then cn_Close c else with_step ctx (str "Close") id (cn_Close c))
    (Begin c ctx dataSourceName)
    (Some (conn_call ctx dataSourceName (cn_Exec c)))
    (Some (conn_call_context ctx dataSourceName (cn_ExecContext c)))
    (Some (conn_call ctx dataSourceName (cn_Query c)))
    (Some (conn_call_context ctx dataSourceName (cn_QueryContext c)))
    (Some (PrepareContext c ctx dataSourceName))
    (Some (fun ctx => match cn_ResetSession c with Some reset => reset ctx | None => mret None end))
    (Some (BeginTx c ctx dataSourceName)).

(** ** Connectors and drivers *)

Definition Connect (ct : Connector) (ct_ctx : goctx) (dataSourceName : bytes) (ctx : goctx) : iprog (error + Conn) :=
  if disabled || negb GoSqlProfileEnabled then co_Connect ct ctx
  else
    wCtx ← selectContext [ctx; ct_ctx];
    e ← tick;
    sqlCtx ← agent (StartOpen conf call_get e wCtx dataSourceName);
    c ← co_Connect ct ctx;
    End sqlCtx (left_error c);;
    mret (match c with inl err => inl err | inr c => inr (WrapConn c wCtx dataSourceName) end).
(** The connector embeds an interface without [Close]. *)
Definition WrapConnector (ct : Connector) (ctx : goctx) (dataSourceName : bytes) : Connector :=
  mkConnector (Connect ct ctx dataSourceName) None.
Definition dsnConnector (dsn : bytes) (d : Driver) : Connector := mkConnector (fun _ => dr_Open d dsn) None.
Definition OpenConnectorContext (d : Driver) (name : bytes) (ctx : goctx) : iprog (error + Connector) :=
  match dr_OpenConnector d with
  | Some open => (fun c => match c with inl err => inl err | inr c => inr (WrapConnector c ctx name) end) <$> open name
  | None => mret (inr (WrapConnector (dsnConnector name d) ctx name))
  end.
Definition WhatapDriver (d : Driver) (ctx : goctx) : Driver :=
  mkDriver (dr_Open d) (Some (fun name => OpenConnectorContext d name ctx)).

(** * [sql.go] *)

(** The drivers registered with [database/sql], and the type of its databases, which are
    a connector each. *)
Variable drivers : bytes -> option Driver.
Definition unknown_driver (name : bytes) : error := Errorf (str "sql: unknown driver " ++ name ++ str " (forgotten import?)").
(** [sql.Open] *)
Definition sql_Open (driverName dataSourceName : bytes) : iprog (error + Connector) :=
  match drivers driverName with
  | None => mret (inl (unknown_driver driverName))
  | Some d =>
      match dr_OpenConnector d with
      | Some open => open dataSourceName
      | None => mret (inr (dsnConnector dataSourceName d))
      end
  end.
(** [db.Close] of a database without connections. *)
Definition db_Close (db : Connector) : iprog (option error) :=
  match co_Close db with Some close => close | None => mret None end.

(** The table of wrapped drivers and its lock, which an early return leaves locked. *)
Record Registry := mkRegistry { regMux : bool; whatapDrivers : gmap bytes (Driver * goctx) }.
(** A program that may wait for the lock for ever: it gives [None]. *)
Definition register (ctx : goctx) (driverName dataSourceName : bytes) (r : Registry)
  : iprog (Registry * option (error + Driver)) :=
  let regName := str "whatap-" ++ driverName in
  if regMux r then mret (r, None)
  else
    match whatapDrivers r !! regName with
    | Some (d, _) => mret (r, Some (inr d))
    | None =>
        db ← sql_Open driverName dataSourceName;
        match db, drivers driverName with
        | inl err, _ => mret (r <| regMux := true |>, Some (inl err))
        | inr db, d =>
            err ← db_Close db;
            match err, d with
            | Some err, _ => mret (r <| regMux := true |>, Some (inl err))
            | None, Some d => mret (r <| whatapDrivers ::= <[regName := (d, ctx)]> |>, Some (inr d))
            | None, None => mret (r, Some (inl (unknown_driver driverName)))
            end
        end
    end.
Definition OpenWithRegister (ctx : goctx) (driverName dataSourceName : bytes) (r : Registry)
  : iprog (Registry * option (error + Connector)) :=
  if disabled || negb GoSqlProfileEnabled then db ← sql_Open driverName dataSourceName; mret (r, Some db)
  else
    '(r, d) ← register ctx driverName dataSourceName r;
    match d with
    | None => mret (r, None)
    | Some (inl err) => mret (r, Some (inl err))
    | Some (inr d) => db ← OpenConnectorContext d dataSourceName ctx; mret (r, Some db)
    end.
Definition Open (driverName dataSourceName : bytes) := OpenWithRegister (Some Background) driverName dataSourceName.
Definition OpenDB (ctx : goctx) (dataSourceName : bytes) (connector : Connector) : Connector :=
  WrapConnector connector ctx dataSourceName.
End Wrap.
