(* ===== verification/InstFacts.v ===== *)
(** The calls of the tracing API return, whatever is traced: references stay good, and each
    context that a call takes from a pool goes back to it. *)

From stdpp Require Import gmap.
From S2P Require Import Prelude LlmUrl LlmPack LlmState LlmStateFacts LlmSender.
From S2P Require Import EscapeSQL Hmap UrlPattern TraceCtx MeterService Meters DataPack DataText.
From S2P Require Import ParsedSql Stat StatError TraceContext TraceApi TraceSteps TraceMain TraceManager AppState AppTrace AppCalls.

(** * Pools *)

(** The contexts a call holds. *)
Definition lent {T} (p : Pool T) : gmap nat T := filter (fun kv : nat * T => kv.1 ∉ o_free p) (o_heap p).
(** A free context is as new. *)
Definition pool_wf {T} (new : T) (p : Pool T) : Prop := forall l, l ∈ o_free p -> o_heap p !! l = Some new.

Section Pools.
Context {T : Type}.
Implicit Types (p : Pool T) (l : nat) (x new : T).
Lemma lookup_lent p l x : lent p !! l = Some x <-> o_heap p !! l = Some x /\ l ∉ o_free p.
Proof. unfold lent. by rewrite map_lookup_filter_Some. Qed.
Lemma lent_eq p (m : gmap nat T) : (forall l x, m !! l = Some x <-> o_heap p !! l = Some x /\ l ∉ o_free p) -> lent p = m.
Proof. intros H. apply map_eq. intros l. apply option_eq. intros x. by rewrite lookup_lent, H. Qed.
Lemma lent_take get new p l p' :
  (forall free l, get free = Some l -> l ∈ free) -> pool_wf new p -> pool_take get new p = (l, p') ->
  lent p !! l = None /\ lent p' = <[l := new]> (lent p) /\ pool_wf new p'.
Proof.
  intros Hget Hp. unfold pool_take. destruct (get (o_free p)) as [k|] eqn:E; intros [= <- <-].
  - apply Hget in E. assert (lent p !! k = None) as Hn.
    { destruct (lent p !! k) eqn:Ek; [|done]. by apply lookup_lent in Ek as [_ []]. }
    split; [done|]. split.
    + apply lent_eq. intros j x. simpl. rewrite list_elem_of_filter. destruct (decide (j = k)) as [->|Hj].
      * rewrite lookup_insert_eq, (Hp k E). split; [intros [= <-]; split; [done|by intros [[] ?]]|by intros [[= ->] _]].
      * rewrite lookup_insert_ne, lookup_lent by done. naive_solver.
    + intros j. simpl. intros [_ Hj]%list_elem_of_filter. by apply Hp.
  - set (k := base.fresh (dom (o_heap p))). assert (o_heap p !! k = None) as Hk by (apply not_elem_of_dom, is_fresh).
    assert (k ∉ o_free p) as Hf by (intros Hin; apply Hp in Hin; congruence). clearbody k.
    split; [destruct (lent p !! k) eqn:Ek; [apply lookup_lent in Ek as [? _]; congruence|done]|]. split.
    + apply lent_eq. intros j x. simpl. destruct (decide (j = k)) as [->|Hj].
      * rewrite !lookup_insert_eq. naive_solver.
      * rewrite !lookup_insert_ne, lookup_lent by done. done.
    + intros j Hj. simpl in *. rewrite lookup_insert_ne by (by intros ->). by apply Hp.
Qed.
Lemma lent_alter f new p l x :
  lent p !! l = Some x -> pool_wf new p ->
  lent (p <| o_heap ::= alter f l |>) = <[l := f x]> (lent p) /\ pool_wf new (p <| o_heap ::= alter f l |>).
Proof.
  intros [Hx Hf]%lookup_lent Hp. split.
  - apply lent_eq. intros j y. simpl. destruct (decide (j = l)) as [->|Hj].
    + rewrite lookup_insert_eq, lookup_alter_eq, Hx. naive_solver.
    + rewrite lookup_insert_ne, lookup_alter_ne, lookup_lent by done. done.
  - intros j Hj. simpl in *. rewrite lookup_alter_ne by (by intros ->). by apply Hp.
Qed.
Lemma lent_close new p l : pool_wf new p -> lent (pool_close new l p) = delete l (lent p) /\ pool_wf new (pool_close new l p).
Proof.
  intros Hp. split.
  - apply lent_eq. intros j y. simpl. rewrite not_elem_of_cons. destruct (decide (j = l)) as [->|Hj].
    + rewrite lookup_delete_eq. naive_solver.
    + rewrite lookup_delete_ne, lookup_insert_ne, lookup_lent by done. naive_solver.
  - intros j. simpl. intros [->|Hj]%elem_of_cons; [by rewrite lookup_insert_eq|].
    destruct (decide (j = l)) as [->|Hne]; [by rewrite lookup_insert_eq|]. rewrite lookup_insert_ne by done. by apply Hp.
Qed.
End Pools.

Section Facts.
Context {LMz : LinkedMap Z} {LLz : LinkedMapLaws Z LMz} {LMi : LinkedMap (Z * Z)} {LMh : LinkedMap StatHttpc.HTTPC}
  {LMm : LinkedMap StatTranxMtCaller.MtraceKEY} {BU : BitUtil} {SU : StringUtil} {SM : StringMore} {TT : TextTypes}
  {RQ : RequestQueue} {CT : CountTable} {PT : PathTree} {HM : MeterService.Pack} {UU : UrlUtil} {PC : IProfileCollector}
  {HX : Hexa32} {AC : AppContext}.
Variable conf : AppConf.
Variable INFO : Z.

(** * Good references *)

Record wf (a : App) : Prop := {
  wf_gids g l : lm_get (p_gids a) g = Some l -> l ∈ dom (p_heap a);
  wf_sqls : pool_wf NewSqlCtx (p_sqls a);
  wf_sql s c l : lent (p_sqls a) !! s = Some c -> s_ctx c = Some l -> l ∈ dom (p_heap a);
  wf_httpcs : pool_wf NewHttpcCtx (p_httpcs a);
  wf_httpc h c l : lent (p_httpcs a) !! h = Some c -> h_ctx c = Some l -> l ∈ dom (p_heap a);
  wf_extra h c s : lent (p_httpcs a) !! h = Some c -> Extra c = Some s -> s ∈ dom (p_states a);
  wf_state s st : p_states a !! s = Some st -> LlmState.pack st ∈ dom (LlmState.packs (p_llm a));
  wf_txslot s st l : p_states a !! s = Some st -> txSlot st = Some l -> l ∈ dom (LlmState.slots (p_llm a));
  wf_slots : dom (p_heap a) ⊆ dom (LlmState.slots (p_llm a))
}.
(** What a context leads to. *)
Definition refs (ctx : goctx) : gset nat := match ctx ≫= g_whatap with Some l => {[l]} | None => ∅ end.
Definition pending_ok (ctx : goctx) (a : App) : Prop := forall c s, ctx = Some c -> s ∈ g_pending c -> s ∈ dom (p_states a).
Record grow (a a' : App) : Prop := {
  g_wf : wf a';
  g_heap : dom (p_heap a) ⊆ dom (p_heap a');
  g_states : dom (p_states a) ⊆ dom (p_states a')
}.
Lemma grow_refl a : wf a -> grow a a.
Proof. by split. Qed.
Lemma grow_trans a b c : grow a b -> grow b c -> grow a c.
Proof. intros [_ H1 H2] [H3 H4 H5]. split; [done|by etrans|by etrans]. Qed.
Lemma grow_agent a ag : wf a -> grow a (a <| p_agent := ag |>).
Proof. intros [H1 H2 H3 H4 H5 H6 H7 H8 H9]. by split; [split|..]. Qed.
Abbreviation sqls a := (lent (p_sqls a)).
Abbreviation httpcs a := (lent (p_httpcs a)).

(** * Programs that return *)

Definition wp {A} (m : prog A) (a : App) (Q : A -> App -> Prop) : Prop := match m a with (a', Some v) => Q v a' | (_, None) => False end.
Lemma wp_bind {A B} (m : prog A) (f : A -> prog B) a Q : wp m a (fun v a' => wp (f v) a' Q) -> wp (m ≫= f) a Q.
Proof. unfold wp, mbind, prog_bind. destruct (m a) as [a' [v|]]; done. Qed.
Lemma wp_mono {A} (m : prog A) a (Q Q' : A -> App -> Prop) : wp m a Q -> (forall v a', Q v a' -> Q' v a') -> wp m a Q'.
Proof. unfold wp. destruct (m a) as [a' [v|]]; naive_solver. Qed.
Lemma wp_ret {A} (v : A) a (Q : A -> App -> Prop) : Q v a -> wp (mret v) a Q.
Proof. done. Qed.
Lemma wp_modify f a (Q : unit -> App -> Prop) : Q tt (f a) -> wp (modify f) a Q.
Proof. done. Qed.
Lemma wp_get_tc l t a (Q : TraceCtx -> App -> Prop) : p_heap a !! l = Some t -> Q t a -> wp (get_tc l) a Q.
Proof. unfold wp, get_tc. by intros ->. Qed.
(** A call of the agent changes the agent. *)
Lemma wp_agent_call {A} o (f : World -> option TraceContext.t -> World * option TraceContext.t * A) a (Q : A -> App -> Prop) :
  (forall v ag, Q v (a <| p_agent := ag |>)) -> wp (agent_call o f) a Q.
Proof. intros H. unfold wp, agent_call. by destruct (f _ _) as [[w c] x]. Qed.

Lemma wp_GetTraceContext e ctx a (Q : goctx * option nat -> App -> Prop) :
  wf a -> refs ctx ⊆ dom (p_heap a) ->
  (forall ctx' tc, (forall l, tc = Some l -> l ∈ dom (p_heap a)) -> Q (ctx', tc) a) -> wp (GetTraceContext conf e ctx) a Q.
Proof.
  intros Hw Hr HQ. unfold GetTraceContext, gets, wp.
  assert (forall l, GetGIDTraceCtx conf (gid e) a = Some l -> l ∈ dom (p_heap a)) as Hg.
  { unfold GetGIDTraceCtx. destruct (GoUseGoroutineIDEnabled conf); [|done]. apply (wf_gids a Hw). }
  destruct ctx as [[[l|] p]|].
  - apply HQ. intros l' [= <-]. unfold refs in Hr. simpl in Hr. set_solver.
  - destruct (GetGIDTraceCtx conf (gid e) a) as [l|]; apply HQ; naive_solver.
  - destruct (GetGIDTraceCtx conf (gid e) a) as [l|]; apply HQ; naive_solver.
Qed.
Lemma wp_tx_seen e ctx a (Q : option (nat * TraceCtx) -> App -> Prop) :
  wf a -> refs ctx ⊆ dom (p_heap a) ->
  (forall tx, (forall l t, tx = Some (l, t) -> p_heap a !! l = Some t) -> Q tx a) -> wp (tx_seen conf e ctx) a Q.
Proof.
  intros Hw Hr HQ. unfold tx_seen. apply wp_bind, wp_GetTraceContext; [done..|]. intros ctx' [l|] Hl.
  - pose proof (Hl l eq_refl) as [t Ht]%elem_of_dom. apply wp_bind, (wp_get_tc l t); [done|]. apply wp_ret, HQ. naive_solver.
  - apply wp_ret, HQ. naive_solver.
Qed.
Lemma wp_GetAgentTraceContext o a (Q : option nat -> App -> Prop) :
  (forall l, o = Some l -> l ∈ dom (p_heap a)) -> (forall c, Q c a) -> wp (GetAgentTraceContext o) a Q.
Proof.
  intros Ho HQ. unfold GetAgentTraceContext. destruct o as [l|]; [|by apply wp_ret].
  pose proof (Ho l eq_refl) as [t Ht]%elem_of_dom. apply wp_bind, (wp_get_tc l t); [done|]. by apply wp_ret.
Qed.
(** What changes only the agent, or nothing. *)
Definition at_agent (a a' : App) : Prop := exists ag, a' = a <| p_agent := ag |>.
Lemma at_agent_refl a : at_agent a a.
Proof. exists (p_agent a). by destruct a. Qed.
Lemma at_agent_grow a a' : wf a -> at_agent a a' -> grow a a' /\ sqls a' = sqls a /\ httpcs a' = httpcs a.
Proof. intros Hw [ag ->]. split; [by apply grow_agent|done]. Qed.
Lemma wp_Step e ctx title message elapsed value a :
  wf a -> refs ctx ⊆ dom (p_heap a) -> wp (Step conf e ctx title message elapsed value) a (fun _ => at_agent a).
Proof.
  intros Hw Hr. unfold Step. destruct (DISABLE _); [apply wp_ret, at_agent_refl|]. destruct (negb _); [apply wp_ret, at_agent_refl|].
  apply wp_bind, wp_GetTraceContext; [done..|]. intros ctx' [l|] Hl; [|apply wp_ret, at_agent_refl].
  pose proof (Hl l eq_refl) as [t Ht]%elem_of_dom. apply wp_bind, (wp_get_tc l t); [done|].
  destruct (Ctx t) as [c|]; [|apply wp_ret, at_agent_refl]. apply wp_bind, wp_agent_call. intros v ag. apply wp_ret. by exists ag.
Qed.
Lemma wp_Error e ctx err a :
  wf a -> refs ctx ⊆ dom (p_heap a) -> wp (AppTrace.Error conf INFO e ctx err) a (fun _ => at_agent a).
Proof.
  intros Hw Hr. unfold AppTrace.Error. destruct (DISABLE _); [apply wp_ret, at_agent_refl|]. destruct (negb _); [apply wp_ret, at_agent_refl|].
  destruct err as [er|]; [|apply wp_ret, at_agent_refl].
  apply wp_bind, wp_GetTraceContext; [done..|]. intros ctx' [l|] Hl; [|apply wp_agent_call; intros v ag; by exists ag].
  pose proof (Hl l eq_refl) as [t Ht]%elem_of_dom. apply wp_bind, (wp_get_tc l t); [done|].
  destruct (Ctx t) as [c|]; [|apply wp_ret, at_agent_refl]. apply wp_agent_call. intros v ag. by exists ag.
Qed.

(** * Statements *)

Variable call_get : list nat -> option nat.
Hypothesis call_get_in : forall free l, call_get free = Some l -> l ∈ free.
Definition traced : Prop := DISABLE (mt conf) = false /\ Enabled conf = true.
Lemma traced_dec : {traced} + {DISABLE (mt conf) || negb (Enabled conf) = true}.
Proof. unfold traced. destruct (DISABLE (mt conf)), (Enabled conf); simpl; auto. Defined.
Lemma traced_guard : traced -> DISABLE (mt conf) || negb (Enabled conf) = false.
Proof. by intros [-> ->]. Qed.
(** What the contexts of statements become; the rest is as it was, but for the agent. *)
Record at_sqls (m : gmap nat SqlCtx) (a a' : App) : Prop := {
  as_grow : grow a a';
  as_httpcs : httpcs a' = httpcs a;
  as_sqls : sqls a' = m
}.
Lemma at_sqls_agent m a a' ag : at_sqls m a a' -> at_sqls m a (a' <| p_agent := ag |>).
Proof. intros [H1 H2 H3]. split; [|done..]. eapply grow_trans; [exact H1|]. apply grow_agent, H1. Qed.
Lemma at_sqls_pool a p' m :
  wf a -> pool_wf NewSqlCtx p' -> lent p' = m -> (forall s c l, m !! s = Some c -> s_ctx c = Some l -> l ∈ dom (p_heap a)) ->
  at_sqls m a (a <| p_sqls := p' |>).
Proof. intros [H1 H2 H3 H4 H5 H6 H7 H8 H9] Hp <- Hm. split; [|done..]. split; [|done..]. by split. Qed.
Lemma at_sqls_trans m m' a b c : at_sqls m a b -> at_sqls m' b c -> at_sqls m' a c.
Proof. intros [H1 H2 _] [H4 H5 H6]. split; [by eapply grow_trans|congruence|done]. Qed.

Lemma wp_PoolSqlContext a :
  wf a -> wp (PoolSqlContext call_get) a (fun s a' => sqls a !! s = None /\ at_sqls (<[s := NewSqlCtx]> (sqls a)) a a').
Proof.
  intros Hw. unfold wp, PoolSqlContext. destruct (pool_take call_get NewSqlCtx (p_sqls a)) as [s p'] eqn:E.
  destruct (lent_take call_get NewSqlCtx _ _ _ call_get_in (wf_sqls a Hw) E) as (H1 & H2 & H3). split; [done|].
  apply at_sqls_pool; [done..|]. intros s' c l. destruct (decide (s' = s)) as [->|Hs].
  - rewrite lookup_insert_eq. by intros [= <-].
  - rewrite lookup_insert_ne by done. apply (wf_sql a Hw).
Qed.
Lemma wp_on_sql s c f a :
  wf a -> sqls a !! s = Some c -> (forall l, s_ctx (f c) = Some l -> l ∈ dom (p_heap a)) ->
  wp (on_sql s f) a (fun _ => at_sqls (<[s := f c]> (sqls a)) a).
Proof.
  intros Hw Hs Hf. unfold on_sql. apply wp_modify. destruct (lent_alter f NewSqlCtx _ _ _ Hs (wf_sqls a Hw)) as [H1 H2].
  change (at_sqls (<[s := f c]> (sqls a)) a (a <| p_sqls := ((p_sqls a) <| o_heap ::= alter f s |>) |>)).
  apply at_sqls_pool; [done..|]. intros s' c' l. destruct (decide (s' = s)) as [->|Hne].
  - rewrite lookup_insert_eq. intros [= <-]. apply Hf.
  - rewrite lookup_insert_ne by done. apply (wf_sql a Hw).
Qed.
(** A statement that was started holds one context more, which has a step if anything
    is traced. *)
Definition opened_sql (a : App) (s : nat) (a' : App) : Prop :=
  sqls a !! s = None /\ exists c, at_sqls (<[s := c]> (sqls a)) a a' /\ (traced -> has_step (s_step c) = true).
Lemma wp_start_step e ctx a (g : option (nat * TraceCtx) -> SqlCtx -> SqlCtx) (f : option nat -> prog call_step) :
  wf a -> refs ctx ⊆ dom (p_heap a) ->
  (forall tx c, s_ctx (g tx c) = s_ctx (seen_sql tx c)) ->
  (forall o b, wp (f o) b (fun st b' => has_step st = true /\ at_agent b b')) ->
  wp (s ← PoolSqlContext call_get; tx ← tx_seen conf e ctx; on_sql s (g tx);; st ← f (the_ctx tx);
      on_sql s (fun c => c <| s_step := st |>);; mret s) a (opened_sql a).
Proof.
  intros Hw Hr Hg Hf. apply wp_bind. eapply wp_mono; [by apply wp_PoolSqlContext|]. intros s a1 [Hs H1].
  pose proof (g_wf _ _ (as_grow _ _ _ H1)) as W1. assert (refs ctx ⊆ dom (p_heap a1)) as R1 by (etrans; [exact Hr|apply H1]).
  apply wp_bind, wp_tx_seen; [done..|]. intros tx Htx. apply wp_bind.
  assert (sqls a1 !! s = Some NewSqlCtx) as S1 by (rewrite (as_sqls _ _ _ H1); apply lookup_insert_eq).
  eapply wp_mono; [apply (wp_on_sql s _ _ a1 W1 S1)|].
  { rewrite Hg. destruct tx as [[l t]|]; [|done]. simpl. intros l' [= <-]. apply elem_of_dom. exists t. by apply Htx. }
  intros [] a2 H2. assert (sqls a2 !! s = Some (g tx NewSqlCtx)) as S2 by (rewrite (as_sqls _ _ _ H2); apply lookup_insert_eq).
  apply wp_bind. eapply wp_mono; [apply Hf|]. intros st a3 [Hst [ag ->]]. apply wp_bind.
  pose proof (at_sqls_agent _ _ _ ag H2) as H3. pose proof (g_wf _ _ (as_grow _ _ _ H3)) as W3.
  eapply wp_mono; [eapply (wp_on_sql s); [done|exact S2|]|].
  { intros l Hl. apply (wf_sql _ W3 s _ l S2). exact Hl. }
  intros [] a4 H4. apply wp_ret. split; [done|]. eexists. split.
  - eapply at_sqls_trans; [exact H1|]. eapply at_sqls_trans; [exact H3|].
    rewrite (as_sqls _ _ _ H3), (as_sqls _ _ _ H1), !insert_insert_eq in H4. exact H4.
  - done.
Qed.
Lemma wp_StartOpen e ctx dbhost a :
  wf a -> refs ctx ⊆ dom (p_heap a) -> wp (StartOpen conf call_get e ctx dbhost) a (opened_sql a).
Proof.
  intros Hw Hr. unfold StartOpen. destruct traced_dec as [Ht|E].
  - rewrite (traced_guard Ht).
    assert (forall a, (s ← PoolSqlContext call_get; tx ← tx_seen conf e ctx;
      on_sql s (fun c => (seen_sql tx c) <| s_StartTime := SystemNow e |> <| s_Dbc := hidePwd dbhost |> <| s_Type := SQL_TYPE_DBC |>);;
      st ← (st ← agent_call (the_ctx tx) (fun w c => StartDBC w c (SystemNow e) (hidePwd dbhost)); mret (DbcStep st));
      on_sql s (fun c => c <| s_step := st |>);; mret s) a =
     (s ← PoolSqlContext call_get; tx ← tx_seen conf e ctx;
      on_sql s (fun c => (seen_sql tx c) <| s_StartTime := SystemNow e |> <| s_Dbc := hidePwd dbhost |> <| s_Type := SQL_TYPE_DBC |>);;
      st ← agent_call (the_ctx tx) (fun w c => StartDBC w c (SystemNow e) (hidePwd dbhost));
      on_sql s (fun c => c <| s_step := DbcStep st |>);; mret s) a) as Heq.
    { intros a0. unfold mbind, prog_bind. destruct (PoolSqlContext _ _) as [a1 [s|]]; [|done].
      destruct (tx_seen _ _ _ _) as [a2 [tx|]]; [|done]. destruct (on_sql _ _ _) as [a3 [[]|]]; [|done].
      by destruct (agent_call _ _ _) as [a4 [st|]]. }
    unfold wp. rewrite <- Heq. apply (wp_start_step e ctx a _ (fun o => st ← agent_call o _; mret (DbcStep st))); [done..| |].
    + by intros [[l t]|] c.
    + intros o b. apply wp_bind, wp_agent_call. intros v ag. apply wp_ret. split; [done|by exists ag].
  - rewrite E. eapply wp_mono; [by apply wp_PoolSqlContext|]. intros s a' [H1 H2]. split; [done|]. eexists. split; [exact H2|].
    intros Ht. by rewrite (traced_guard Ht) in E.
Qed.
Lemma wp_start_sql e ctx dbhost sql Param ty a :
  wf a -> refs ctx ⊆ dom (p_heap a) -> wp (start_sql conf call_get e ctx dbhost sql Param ty) a (opened_sql a).
Proof.
  intros Hw Hr. unfold start_sql.
  pose proof (wp_start_step e ctx a (fun tx c => (seen_sql tx c) <| s_StartTime := SystemNow e |> <| s_Dbc := hidePwd dbhost |> <| s_Sql := sql |>
                       <| s_Type := ty |> <| s_Param := Param |>)
    (fun o => st ← agent_call o (fun w x => StartSql (api conf) w x (SystemNow e) (hidePwd dbhost) sql Param); mret (SqlStep st)) Hw Hr) as H.
  assert (forall P Q : Prop, (P = Q) -> P -> Q) as Hc by (by intros P Q ->).
  eapply Hc, H; [|by intros [[l t]|] c|].
  - unfold wp, mbind, prog_bind. destruct (PoolSqlContext _ _) as [a1 [s|]]; [|done].
    destruct (tx_seen _ _ _ _) as [a2 [tx|]]; [|done]. destruct (on_sql _ _ _) as [a3 [[]|]]; [|done].
    by destruct (agent_call _ _ _) as [a4 [st|]].
  - intros o b. apply wp_bind, wp_agent_call. intros v ag. apply wp_ret. split; [done|by exists ag].
Qed.
Lemma wp_StartWithParam e ctx dbhost sql ps a :
  wf a -> refs ctx ⊆ dom (p_heap a) -> wp (StartWithParam conf call_get e ctx dbhost sql ps) a (opened_sql a).
Proof.
  intros Hw Hr. unfold StartWithParam. destruct traced_dec as [Ht|E].
  - rewrite (traced_guard Ht). destruct (ProfileSqlParamEnabled _); by apply wp_start_sql.
  - rewrite E. eapply wp_mono; [by apply wp_PoolSqlContext|]. intros s a' [H1 H2]. split; [done|]. eexists. split; [exact H2|].
    intros Ht. by rewrite (traced_guard Ht) in E.
Qed.
(** The end gives the context back. *)
Lemma wp_EndSqlCall e s c err skip a :
  wf a -> sqls a !! s = Some c -> (traced -> has_step (s_step c) = true) ->
  wp (EndSqlCall conf INFO e (Some s) err skip) a
    (fun _ a' => grow a a' /\ httpcs a' = httpcs a /\ delete s (sqls a) ⊆ sqls a' /\ (traced -> sqls a' = delete s (sqls a))).
Proof.
  intros Hw Hs Hstep. unfold EndSqlCall. destruct traced_dec as [Ht|E].
  - rewrite (traced_guard Ht). pose proof Hs as [Hh _]%lookup_lent. apply wp_bind. unfold gets, wp. cbn [mbind option_bind]. rewrite Hh, (Hstep Ht).
    match goal with |- match ?m a with _ => _ end => change (wp m a (fun _ a' => grow a a' /\ httpcs a' = httpcs a /\
      delete s (sqls a) ⊆ sqls a' /\ (traced -> sqls a' = delete s (sqls a)))) end.
    apply wp_bind, wp_GetAgentTraceContext; [intros l Hl; by apply (wf_sql a Hw s c)|]. intros x. apply wp_bind.
    assert (wp (end_step conf INFO e x (s_step c) (s_Type c) (elapsed_since e (s_StartTime c)) (s_Cpu c) (s_Mem c) (not_skip skip err)) a
      (fun _ => at_agent a)) as Hend.
    { unfold end_step. destruct (s_step c) as [|st|st]; [apply wp_ret, at_agent_refl|..];
        match goal with |- wp (if ?b then _ else _) _ _ => destruct b end; try (apply wp_ret, at_agent_refl); apply wp_agent_call; intros v ag; by exists ag. }
    eapply wp_mono; [exact Hend|]. intros [] a1 [ag ->]. apply wp_bind, wp_modify, wp_ret.
    destruct (lent_close NewSqlCtx (p_sqls a) s (wf_sqls a Hw)) as [H1 H2].
    set (a1 := a <| p_agent := ag |>). assert (wf a1) as W1 by (by apply grow_agent).
    assert (at_sqls (delete s (sqls a)) a1 (a1 <| p_sqls := pool_close NewSqlCtx s (p_sqls a1) |>)) as H.
    { apply at_sqls_pool; [done..|]. intros s' c' l [_ Hl]%lookup_delete_Some. by apply (wf_sql a Hw s' c'). }
    split; [eapply grow_trans; [by apply (grow_agent a ag)|apply H]|]. split; [done|].
    change (sqls (a1 <| p_sqls ::= pool_close NewSqlCtx s |>)) with (sqls (a1 <| p_sqls := pool_close NewSqlCtx s (p_sqls a1) |>)).
    by rewrite (as_sqls _ _ _ H).
  - rewrite E. apply wp_ret. split; [by apply grow_refl|]. split; [done|]. split; [apply delete_subseteq|].
    intros Ht. by rewrite (traced_guard Ht) in E.
Qed.
End Facts.
