(* ===== verification/InstSqlFacts.v ===== *)
(** A wrapped driver is the driver it wraps, whatever is traced: the same calls reach it in
    the same order, with the same results, and every context a call takes is given back.

    The driver as it is is a record of programs on its own state; [connect_rel] and its
    parts relate it to a record of programs of the application, at the transactions the
    wrapper has kept. *)

From stdpp Require Import gmap.
From S2P Require Import Prelude LlmUrl LlmPack LlmState LlmSender.
From S2P Require Import EscapeSQL Hmap UrlPattern TraceCtx MeterService Meters DataPack DataText.
From S2P Require Import ParsedSql Stat StatError TraceContext TraceApi TraceSteps TraceMain TraceManager AppState AppTrace AppCalls TraceSamples AppFacts.
From S2P Require Import InstSql InstFacts.

(** * Optional methods *)

(** A method of a driver and that of the driver it is compared with: one that is there is
    there on both sides and [same], and one that is only [added] is told by what it does. *)
Definition offers {F F'} (same : F -> F' -> Prop) (added : F' -> Prop) (o : option F) (o' : option F') : Prop :=
  match o, o' with
  | Some f, Some f' => same f f'
  | Some _, None => False
  | None, Some f' => added f'
  | None, None => True
  end.

Section Facts.
Context {LMz : LinkedMap Z} {LLz : LinkedMapLaws Z LMz} {LMi : LinkedMap (Z * Z)} {LMh : LinkedMap StatHttpc.HTTPC}
  {LMm : LinkedMap StatTranxMtCaller.MtraceKEY} {BU : BitUtil} {SU : StringUtil} {SM : StringMore} {TT : TextTypes}
  {RQ : RequestQueue} {CT : CountTable} {PT : PathTree} {HM : MeterService.Pack} {UU : UrlUtil} {PC : IProfileCollector}
  {HX : Hexa32} {AC : AppContext}.
Context {D Result Rows TxOptions : Type}.
Variable clock : nat -> Env.
Variable conf : AppConf.
Abbreviation iprog := (iprog D).
Abbreviation sqls a := (lent (p_sqls a)).

(** The programs of the driver. *)
Definition lib (A : Type) : Type := D -> D * option A.
#[local] Instance lib_ret : MRet lib := fun A x d => (d, Some x).

(** * Refinement *)

(** [m'] does to the driver what [m] does and returns what it returns, at any state in
    which the transactions [w] exist; the contexts that were taken are still there, and
    no others if it returns. *)
Definition refines {A B} (w : gset nat) (R : A -> B -> Prop) (m : lib A) (m' : iprog B) : Prop :=
  forall i, wf (i_app i) -> w ⊆ dom (p_heap (i_app i)) ->
    let '(d, r) := m (i_lib i) in
    let '(i', r') := m' i in
    i_lib i' = d /\ grow (i_app i) (i_app i') /\ sqls (i_app i) ⊆ sqls (i_app i') /\
    match r, r' with
    | Some x, Some y => R x y /\ (traced conf -> sqls (i_app i') = sqls (i_app i))
    | None, None => True
    | _, _ => False
    end.
Definition sum_rel {A B} (R : A -> B -> Prop) (x : error + A) (y : error + B) : Prop :=
  match x, y with inl e, inl e' => e = e' | inr a, inr b => R a b | _, _ => False end.

Lemma refines_mono {A B} w w' (R R' : A -> B -> Prop) m m' :
  refines w R m m' -> w ⊆ w' -> (forall x y, R x y -> R' x y) -> refines w' R' m m'.
Proof.
  intros H Hw HR i Hi Hd. specialize (H i Hi ltac:(by etrans)). destruct (m (i_lib i)) as [d r], (m' i) as [i' r'].
  destruct r, r'; naive_solver.
Qed.
Lemma refines_ret {A B} w (R : A -> B -> Prop) x y : R x y -> refines w R (mret x) (mret y).
Proof. intros H i Hi Hd. simpl. split; [done|]. split; [by apply grow_refl|]. done. Qed.
Lemma refines_library {A} (m : lib A) : refines ∅ eq m (library m).
Proof.
  intros i Hi Hd. unfold library. destruct (m (i_lib i)) as [d r]. simpl. split; [done|]. split; [by apply grow_refl|].
  split; [done|]. by destruct r.
Qed.
Lemma refines_fmap {A B C} w (R : A -> B -> Prop) (R' : A -> C -> Prop) m m' (f : B -> C) :
  refines w R m m' -> (forall x y, R x y -> R' x (f y)) -> refines w R' m (f <$> m').
Proof.
  intros H Hf i Hi Hd. specialize (H i Hi Hd). unfold fmap, iprog_fmap, mbind, iprog_bind.
  destruct (m (i_lib i)) as [d r], (m' i) as [i' [y|]]; destruct r; naive_solver.
Qed.
Lemma refines_tick {A B} w (R : A -> B -> Prop) m (f : Env -> iprog B) :
  (forall e, refines w R m (f e)) -> refines w R m (e ← tick clock; f e).
Proof. intros H i Hi Hd. set (j := i <| i_time ::= S |>). exact (H (clock (i_time i)) j Hi Hd). Qed.

(** The context chosen is one of them, and nothing else happens. *)
Lemma select_from_spec first l (i : Inst D) :
  exists x i', select_from clock conf first l i = (i', Some x) /\ (x = first \/ x ∈ l) /\ i_app i' = i_app i /\ i_lib i' = i_lib i.
Proof.
  revert i. induction l as [|it l IH]; intros i; simpl; [by exists first, i; auto|].
  unfold mbind, iprog_bind, tick, agent. simpl. unfold GetTraceContext, gets. simpl.
  match goal with |- context [match ?o with (_, _) => _ end] => destruct o as [ctx' [k|]] eqn:E end.
  - eexists it, _. split; [reflexivity|]. split; [right; by left|done].
  - match goal with |- context [select_from _ _ _ _ ?j] => destruct (IH j) as (x & i' & E1 & H1 & H2 & H3) end.
    exists x, i'. rewrite E1, H2, H3. split; [done|]. split; [|done]. destruct H1 as [H1|H1]; [by left|right; by right].
Qed.
Lemma refines_select {A B} w (R : A -> B -> Prop) m a b (f : goctx -> iprog B) :
  refines w R m (f a) -> refines w R m (f b) -> refines w R m (x ← selectContext clock conf [a; b]; f x).
Proof.
  intros Ha Hb i Hi Hd. destruct (select_from_spec a [a; b] i) as (x & i' & E & Hx & H1 & H2).
  unfold selectContext, mbind, iprog_bind. simpl default. cbn [head]. simpl default. rewrite E. rewrite <- H1, <- H2.
  rewrite <- H1 in Hi, Hd. assert (x = a \/ x = b) as [->| ->] by (set_solver).
  - by apply Ha.
  - by apply Hb.
Qed.

(** * The interfaces *)

Record tx_rel (w : gset nat) (t : Tx lib) (t' : Tx iprog) : Prop := {
  r_commit : refines w eq (tx_Commit t) (tx_Commit t');
  r_rollback : refines w eq (tx_Rollback t) (tx_Rollback t')
}.
(** What the wrappers add to a driver without the method: a statement's method with a
    context calls the plain one with the values alone, and refuses names. *)
Definition plain_values {A} (call : list param -> lib (answer A)) (args : list NamedValue) : lib (answer A) :=
  match namedValueToValue args with inl err => mret (None, Some err) | inr dargs => call dargs end.
Definition skipped {A} : lib (answer A) := mret (None, Some ErrSkip).
Definition context_rel {A} (w : gset nat) (f : goctx -> list NamedValue -> lib (answer A)) (f' : goctx -> list NamedValue -> iprog (answer A)) : Prop :=
  forall ctx args, refines (w ∪ refs ctx) eq (f ctx args) (f' ctx args).
Definition query_rel {A} (w : gset nat) (f : bytes -> list param -> lib (answer A)) (f' : bytes -> list param -> iprog (answer A)) : Prop :=
  forall query args, refines w eq (f query args) (f' query args).
Definition query_context_rel {A} (w : gset nat) (f : goctx -> bytes -> list NamedValue -> lib (answer A))
    (f' : goctx -> bytes -> list NamedValue -> iprog (answer A)) : Prop :=
  forall ctx query args, refines (w ∪ refs ctx) eq (f ctx query args) (f' ctx query args).
Record stmt_rel (w : gset nat) (s : Stmt Result Rows lib) (s' : Stmt Result Rows iprog) : Prop := {
  r_st_close : refines w eq (st_Close s) (st_Close s');
  r_st_num : refines w eq (st_NumInput s) (st_NumInput s');
  r_st_exec args : refines w eq (st_Exec s args) (st_Exec s' args);
  r_st_query args : refines w eq (st_Query s args) (st_Query s' args);
  r_st_exec_context : offers (context_rel w) (context_rel w (fun _ => plain_values (st_Exec s))) (st_ExecContext s) (st_ExecContext s');
  r_st_query_context : offers (context_rel w) (context_rel w (fun _ => plain_values (st_Query s))) (st_QueryContext s) (st_QueryContext s')
}.
Definition prepare_rel (w : gset nat) (f : goctx -> bytes -> lib (error + Stmt Result Rows lib))
    (f' : goctx -> bytes -> iprog (error + Stmt Result Rows iprog)) : Prop :=
  forall ctx query, refines (w ∪ refs ctx) (sum_rel (stmt_rel (w ∪ refs ctx))) (f ctx query) (f' ctx query).
Definition begin_rel (w : gset nat) (f : goctx -> TxOptions -> lib (error + Tx lib)) (f' : goctx -> TxOptions -> iprog (error + Tx iprog)) : Prop :=
  forall ctx opts, refines (w ∪ refs ctx) (sum_rel (tx_rel (w ∪ refs ctx))) (f ctx opts) (f' ctx opts).
Definition reset_rel (w : gset nat) (f : goctx -> lib (option error)) (f' : goctx -> iprog (option error)) : Prop :=
  forall ctx, refines (w ∪ refs ctx) eq (f ctx) (f' ctx).
(** On a driver without them, [Exec], [ExecContext], [Query] and [QueryContext] answer
    [ErrSkip] and leave the driver alone, whichever of the others it has; [PrepareContext]
    prepares and [BeginTx] begins, without the options; [ResetSession] does nothing. *)
Record conn_rel (w : gset nat) (c : Conn Result Rows TxOptions lib) (c' : Conn Result Rows TxOptions iprog) : Prop := {
  r_prepare query : refines w (sum_rel (stmt_rel w)) (cn_Prepare c query) (cn_Prepare c' query);
  r_close : refines w eq (cn_Close c) (cn_Close c');
  r_begin : refines w (sum_rel (tx_rel w)) (cn_Begin c) (cn_Begin c');
  r_exec : offers (query_rel w) (query_rel w (fun _ _ => skipped)) (cn_Exec c) (cn_Exec c');
  r_query : offers (query_rel w) (query_rel w (fun _ _ => skipped)) (cn_Query c) (cn_Query c');
  r_exec_context : offers (query_context_rel w) (query_context_rel w (fun _ _ _ => skipped)) (cn_ExecContext c) (cn_ExecContext c');
  r_query_context : offers (query_context_rel w) (query_context_rel w (fun _ _ _ => skipped)) (cn_QueryContext c) (cn_QueryContext c');
  r_prepare_context : offers (prepare_rel w) (prepare_rel w (fun _ => cn_Prepare c)) (cn_PrepareContext c) (cn_PrepareContext c');
  r_reset : offers (reset_rel w) (reset_rel w (fun _ => mret None)) (cn_ResetSession c) (cn_ResetSession c');
  r_begin_tx : offers (begin_rel w) (begin_rel w (fun _ _ => cn_Begin c)) (cn_BeginTx c) (cn_BeginTx c')
}.
(** What comes of the connector's own method; its [Close] is told apart. *)
Definition connect_rel (w : gset nat) (c : Connector Result Rows TxOptions lib) (c' : Connector Result Rows TxOptions iprog) : Prop :=
  forall ctx, refines (w ∪ refs ctx) (sum_rel (conn_rel (w ∪ refs ctx))) (co_Connect c ctx) (co_Connect c' ctx).

(** ** The driver itself *)

Definition lift_tx (t : Tx lib) : Tx iprog := mkTx (library (tx_Commit t)) (library (tx_Rollback t)).
Definition lift_stmt (s : Stmt Result Rows lib) : Stmt Result Rows iprog :=
  mkStmt (library (st_Close s)) (library (st_NumInput s)) (fun args => library (st_Exec s args)) (fun args => library (st_Query s args))
    ((fun f ctx args => library (f ctx args)) <$> st_ExecContext s) ((fun f ctx args => library (f ctx args)) <$> st_QueryContext s).
Definition lift_sum {A B} (f : A -> B) (x : error + A) : error + B := match x with inl e => inl e | inr a => inr (f a) end.
Definition lift_conn (c : Conn Result Rows TxOptions lib) : Conn Result Rows TxOptions iprog :=
  mkConn (fun q => lift_sum lift_stmt <$> library (cn_Prepare c q)) (library (cn_Close c)) (lift_sum lift_tx <$> library (cn_Begin c))
    ((fun f q args => library (f q args)) <$> cn_Exec c) ((fun f ctx q args => library (f ctx q args)) <$> cn_ExecContext c)
    ((fun f q args => library (f q args)) <$> cn_Query c) ((fun f ctx q args => library (f ctx q args)) <$> cn_QueryContext c)
    ((fun f ctx q => lift_sum lift_stmt <$> library (f ctx q)) <$> cn_PrepareContext c)
    ((fun f ctx => library (f ctx)) <$> cn_ResetSession c)
    ((fun f ctx opts => lift_sum lift_tx <$> library (f ctx opts)) <$> cn_BeginTx c).
Definition lift_connector (c : Connector Result Rows TxOptions lib) : Connector Result Rows TxOptions iprog :=
  mkConnector (fun ctx => lift_sum lift_conn <$> library (co_Connect c ctx)) (library <$> co_Close c).
Lemma refines_library' {A} w (m : lib A) : refines w eq m (library m).
Proof. eapply refines_mono; [apply refines_library|set_solver|done]. Qed.
Lemma refines_lift {A B} w (R : A -> B -> Prop) (f : A -> B) (m : lib (error + A)) :
  (forall x, R x (f x)) -> refines w (sum_rel R) m (lift_sum f <$> library m).
Proof. intros H. eapply refines_fmap; [apply refines_library'|]. intros [e|x] y <-; simpl; auto. Qed.
Lemma lift_tx_rel w t : tx_rel w t (lift_tx t).
Proof. split; apply refines_library'. Qed.
Lemma lift_stmt_rel w s : stmt_rel w s (lift_stmt s).
Proof.
  split; simpl; intros; try apply refines_library'.
  - destruct (st_ExecContext s); simpl; [|done]. intros ctx args. apply refines_library'.
  - destruct (st_QueryContext s); simpl; [|done]. intros ctx args. apply refines_library'.
Qed.
Lemma lift_conn_rel w c : conn_rel w c (lift_conn c).
Proof.
  pose proof (lift_tx_rel) as Ht. pose proof (lift_stmt_rel) as Hs. split; simpl; intros; try apply refines_library'.
  - by apply refines_lift.
  - by apply refines_lift.
  - destruct (cn_Exec c); simpl; [|done]. intros q args. apply refines_library'.
  - destruct (cn_Query c); simpl; [|done]. intros q args. apply refines_library'.
  - destruct (cn_ExecContext c); simpl; [|done]. intros ctx q args. apply refines_library'.
  - destruct (cn_QueryContext c); simpl; [|done]. intros ctx q args. apply refines_library'.
  - destruct (cn_PrepareContext c); simpl; [|done]. intros ctx q. by apply refines_lift.
  - destruct (cn_ResetSession c); simpl; [|done]. intros ctx. apply refines_library'.
  - destruct (cn_BeginTx c); simpl; [|done]. intros ctx opts. by apply refines_lift.
Qed.
Lemma lift_connector_rel w c : connect_rel w c (lift_connector c).
Proof. intros ctx. apply refines_lift. intros x. apply lift_conn_rel. Qed.

(** * Recorded calls *)

Variable GoSqlProfileEnabled : bool.
Variable INFO : Z.
Variable call_get : list nat -> option nat.
Hypothesis call_get_in : forall free l, call_get free = Some l -> l ∈ free.
Lemma run_wp {A} (m : prog A) (i : Inst D) Q : wp m (i_app i) Q ->
  exists v a', agent m i = (i <| i_app := a' |>, Some v) /\ Q v a'.
Proof. unfold wp, agent. destruct (m (i_app i)) as [a' [v|]]; [|done]. intros H. by exists v, a'. Qed.
Lemma with_call_refines {A B C} w (R : A -> B -> Prop) (R' : A -> C -> Prop) (start : Env -> prog nat) err m m' (f : B -> C) :
  (forall e a, wf a -> w ⊆ dom (p_heap a) -> wp (start e) a (opened_sql conf a)) ->
  refines w R m m' -> (forall x y, R x y -> R' x (f y)) ->
  refines w R' m (e ← tick clock; sqlCtx ← agent (start e); x ← m'; End clock conf INFO sqlCtx (err x);; mret (f x)).
Proof.
  intros Hs H HR. apply refines_tick. intros e i Hi Hd. unfold mbind at 1, iprog_bind at 1.
  destruct (run_wp (start e) i _ (Hs e _ Hi Hd)) as (s & a1 & -> & Hn & c & [G1 _ E1] & Hst).
  set (i1 := i <| i_app := a1 |>). specialize (H i1 (g_wf _ _ G1) ltac:(etrans; [exact Hd|apply G1])).
  change (i_lib i1) with (i_lib i) in H. change (i_app i1) with a1 in H.
  unfold mbind at 1, iprog_bind at 1. destruct (m (i_lib i)) as [d r], (m' i1) as [i2 r'].
  destruct H as (H1 & H2 & H3 & H4). assert (sqls (i_app i) ⊆ sqls a1) as Hsub by (rewrite E1; by apply insert_subseteq).
  destruct r' as [y|].
  2:{ split; [done|]. split; [by eapply grow_trans|]. split; [by etrans|]. by destruct r. }
  assert (sqls (i_app i2) !! s = Some c) as Hc by (eapply lookup_weaken; [|exact H3]; rewrite E1; apply lookup_insert_eq).
  set (i3 := i2 <| i_time ::= S |>).
  assert (exists v a3, agent (EndSqlCall conf INFO (clock (i_time i2)) (Some s) (err y) (is_skip (err y))) i3 = (i3 <| i_app := a3 |>, Some v) /\
    grow (i_app i2) a3 /\ delete s (sqls (i_app i2)) ⊆ sqls a3 /\ (traced conf -> sqls a3 = delete s (sqls (i_app i2)))) as (v & a3 & E3 & H5 & H6 & H7).
  { destruct (run_wp (EndSqlCall conf INFO (clock (i_time i2)) (Some s) (err y) (is_skip (err y))) i3 _
      (wp_EndSqlCall conf INFO _ s c _ _ (i_app i2) (g_wf _ _ H2) Hc Hst)) as (v & a3 & E3 & H5 & _ & H6 & H7).
    by exists v, a3. }
  unfold End, mbind, iprog_bind, tick. fold i3. rewrite E3. simpl.
  split; [done|]. split; [eapply grow_trans; [exact G1|by eapply grow_trans]|]. split.
  - etrans; [|exact H6]. rewrite <- (delete_id (sqls (i_app i)) s Hn). apply delete_mono. by etrans.
  - destruct r as [x|]; [|done]. destruct H4 as [H4 H8]. split; [by apply HR|]. intros Ht. rewrite (H7 Ht), (H8 Ht), E1.
    rewrite delete_insert_eq. by apply delete_id.
Qed.
Lemma with_statement_refines {A B} w (R : A -> B -> Prop) ctx dsn query args err m m' :
  refs ctx ⊆ w -> refines w R m m' -> refines w R m (with_statement clock conf INFO call_get ctx dsn query args err m').
Proof.
  intros Hr H. apply (with_call_refines w R R (fun e => StartWithParam conf call_get e ctx dsn query args) err m m' id); [|done..].
  intros e a Ha Hd. apply wp_StartWithParam; [done..|by etrans].
Qed.
Lemma with_step_refines {A B} w (R : A -> B -> Prop) ctx title err m m' :
  refs ctx ⊆ w -> refines w R m m' -> refines w R m (with_step clock conf INFO ctx title err m').
Proof.
  intros Hr H. apply refines_tick. intros st i Hi Hd. specialize (H i Hi Hd). unfold mbind at 1, iprog_bind at 1.
  destruct (m (i_lib i)) as [d r], (m' i) as [i2 r']. destruct H as (H1 & H2 & H3 & H4).
  destruct r' as [y|]; [|by destruct r].
  set (i3 := i2 <| i_time ::= S |>). set (e := clock (i_time i2)).
  assert (refs ctx ⊆ dom (p_heap (i_app i2))) as Hr2 by (etrans; [exact Hr|]; etrans; [exact Hd|apply H2]).
  set (el := int64 (SystemNow e - SystemNow st)).
  destruct (run_wp (Step conf e ctx title title (if (el <? 0)%Z then 0 else el) 0) i3 _ (wp_Step conf e ctx title title _ 0 (i_app i2) (g_wf _ _ H2) Hr2))
    as (v & a3 & E3 & Ha3). destruct (at_agent_grow _ _ (g_wf _ _ H2) Ha3) as (G3 & S3 & _).
  unfold mbind, iprog_bind, tick. fold i3. fold e. cbv zeta. fold el. rewrite E3.
  assert (forall a4 : App, grow a3 a4 -> sqls a4 = sqls a3 -> i_lib i2 = d /\ grow (i_app i) a4 /\ sqls (i_app i) ⊆ sqls a4 /\
    match r, Some y with Some x, Some y => R x y /\ (traced conf -> sqls a4 = sqls (i_app i)) | None, None => True | _, _ => False end) as Hfin.
  { intros a4 G4 S4. split; [done|]. split; [eapply grow_trans; [exact H2|by eapply grow_trans]|]. rewrite S4, S3. split; [done|]. by destruct r. }
  destruct (err y) as [er|].
  - set (i4 := i3 <| i_app := a3 |>).
    assert (refs ctx ⊆ dom (p_heap a3)) as Hr3 by (etrans; [exact Hr2|apply G3]).
    destruct (run_wp (AppTrace.Error conf INFO e ctx (Some er)) i4 _ (wp_Error conf INFO e ctx (Some er) a3 (g_wf _ _ G3) Hr3)) as (u & a4 & E4 & Ha4).
    destruct (at_agent_grow _ _ (g_wf _ _ G3) Ha4) as (G4 & S4 & _). rewrite E4. by apply Hfin.
  - apply Hfin; [apply grow_refl, G3|done].
Qed.

(** * Wrappers *)

Lemma tx_rel_mono w w' t t' : tx_rel w t t' -> w ⊆ w' -> tx_rel w' t t'.
Proof. intros [H1 H2] Hw. split; by eapply refines_mono. Qed.
Lemma offers_mono {F F'} (P P' : F -> F' -> Prop) (Q Q' : F' -> Prop) o o' :
  offers P Q o o' -> (forall f f', P f f' -> P' f f') -> (forall f', Q f' -> Q' f') -> offers P' Q' o o'.
Proof. destruct o, o'; naive_solver. Qed.
Lemma context_rel_mono {A} w w' f f' : @context_rel A w f f' -> w ⊆ w' -> context_rel w' f f'.
Proof. intros H Hw ctx args. eapply refines_mono; [apply H|set_solver|done]. Qed.
Lemma query_rel_mono {A} w w' f f' : @query_rel A w f f' -> w ⊆ w' -> query_rel w' f f'.
Proof. intros H Hw q args. eapply refines_mono; [apply H|set_solver|done]. Qed.
Lemma query_context_rel_mono {A} w w' f f' : @query_context_rel A w f f' -> w ⊆ w' -> query_context_rel w' f f'.
Proof. intros H Hw ctx q args. eapply refines_mono; [apply H|set_solver|done]. Qed.
Lemma reset_rel_mono w w' f f' : reset_rel w f f' -> w ⊆ w' -> reset_rel w' f f'.
Proof. intros H Hw ctx. eapply refines_mono; [apply H|set_solver|done]. Qed.
Lemma stmt_rel_mono w w' s s' : stmt_rel w s s' -> w ⊆ w' -> stmt_rel w' s s'.
Proof.
  intros [H1 H2 H3 H4 H5 H6] Hw. split; intros; try (eapply refines_mono; eauto; set_solver).
  - eapply offers_mono; [exact H5|intros..]; by eapply context_rel_mono.
  - eapply offers_mono; [exact H6|intros..]; by eapply context_rel_mono.
Qed.
Lemma sum_rel_mono {A B} (R R' : A -> B -> Prop) x y : sum_rel R x y -> (forall a b, R a b -> R' a b) -> sum_rel R' x y.
Proof. destruct x, y; naive_solver. Qed.
Lemma refines_sum_mono {A B} w w' (R R' : A -> B -> Prop) m m' :
  refines w (sum_rel R) m m' -> w ⊆ w' -> (forall x y, R x y -> R' x y) -> refines w' (sum_rel R') m m'.
Proof. intros H Hw HR. eapply refines_mono; [exact H|done|]. intros x y Hxy. by eapply sum_rel_mono. Qed.
Lemma prepare_rel_mono w w' f f' : prepare_rel w f f' -> w ⊆ w' -> prepare_rel w' f f'.
Proof. intros H Hw ctx q. eapply refines_sum_mono; [apply H|set_solver|]. intros. eapply stmt_rel_mono; [done|set_solver]. Qed.
Lemma begin_rel_mono w w' f f' : begin_rel w f f' -> w ⊆ w' -> begin_rel w' f f'.
Proof. intros H Hw ctx q. eapply refines_sum_mono; [apply H|set_solver|]. intros. eapply tx_rel_mono; [done|set_solver]. Qed.
Lemma conn_rel_mono w w' c c' : conn_rel w c c' -> w ⊆ w' -> conn_rel w' c c'.
Proof.
  intros [H1 H2 H3 H4 H5 H6 H7 H8 H9 H10] Hw. split; intros.
  - eapply refines_sum_mono; [apply H1|done|]. intros. by eapply stmt_rel_mono.
  - by eapply refines_mono.
  - eapply refines_sum_mono; [apply H3|done|]. intros. by eapply tx_rel_mono.
  - eapply offers_mono; [exact H4|intros..]; by eapply query_rel_mono.
  - eapply offers_mono; [exact H5|intros..]; by eapply query_rel_mono.
  - eapply offers_mono; [exact H6|intros..]; by eapply query_context_rel_mono.
  - eapply offers_mono; [exact H7|intros..]; by eapply query_context_rel_mono.
  - eapply offers_mono; [exact H8|intros..]; by eapply prepare_rel_mono.
  - eapply offers_mono; [exact H9|intros..]; by eapply reset_rel_mono.
  - eapply offers_mono; [exact H10|intros..]; by eapply begin_rel_mono.
Qed.
Lemma WrapTx_rel w t t' ctx dsn : tx_rel w t t' -> tx_rel (w ∪ refs ctx) t (WrapTx clock conf INFO t' ctx dsn).
Proof.
  intros [H1 H2]%(tx_rel_mono _ (w ∪ refs ctx)); [|set_solver].
  split; simpl; destruct (disabled conf); try done; apply with_step_refines; [set_solver|done|set_solver|done].
Qed.
Lemma stmt_call_refines {A} w ctx dsn query (call : list param -> iprog (answer A)) m args :
  refines w eq m (call args) -> refines (w ∪ refs ctx) eq m (stmt_call clock conf INFO call_get ctx dsn query call args).
Proof.
  intros H. unfold stmt_call. destruct (disabled conf); [|apply with_statement_refines; [set_solver|]];
    (eapply refines_mono; [exact H|set_solver|done]).
Qed.
(** With or without the method of the driver, what the wrapper's own does. *)
Lemma stmt_context_offers {A} w s_ctx dsn query (o : option (goctx -> list NamedValue -> lib (answer A))) o' call (call' : list param -> iprog (answer A)) :
  offers (context_rel w) (context_rel w (fun _ => plain_values call)) o o' ->
  (forall args, refines w eq (call args) (call' args)) ->
  offers (context_rel (w ∪ refs s_ctx)) (context_rel (w ∪ refs s_ctx) (fun _ => plain_values call)) o
    (Some (stmt_call_context clock conf INFO call_get s_ctx dsn query o' call')).
Proof.
  intros H Hc.
  assert (forall g : goctx -> list NamedValue -> lib (answer A),
    match o' with Some f' => context_rel w g f' | None => g = (fun _ => plain_values call) end ->
    context_rel (w ∪ refs s_ctx) g (stmt_call_context clock conf INFO call_get s_ctx dsn query o' call')) as Hw.
  { intros g Hg ctx args.
    assert (refines (w ∪ refs s_ctx ∪ refs ctx) eq (g ctx args)
      (match o' with Some f' => f' ctx args | None => match namedValueToValue args with inl err => mret (None, Some err) | inr dargs => call' dargs end end)) as H'.
    { destruct o' as [f'|]; [eapply refines_mono; [apply Hg|set_solver|done]|]. subst g. unfold plain_values.
      destruct (namedValueToValue args); [by apply refines_ret|eapply refines_mono; [apply Hc|set_solver|done]]. }
    apply refines_select; (destruct o' as [f'|]; [|exact H']);
      (destruct (disabled conf); [exact H'|apply with_statement_refines; [set_solver|exact H']]). }
  destruct o as [f|], o' as [f'|]; try done; simpl in *; by apply Hw.
Qed.
Lemma WrapStmt_rel w s s' ctx dsn query : stmt_rel w s s' -> stmt_rel (w ∪ refs ctx) s (WrapStmt clock conf INFO call_get s' ctx dsn query).
Proof.
  intros [H1 H2 H3 H4 H5 H6]. split; simpl.
  - eapply refines_mono; [exact H1|set_solver|done].
  - eapply refines_mono; [exact H2|set_solver|done].
  - intros. by apply stmt_call_refines.
  - intros. by apply stmt_call_refines.
  - by apply stmt_context_offers.
  - by apply stmt_context_offers.
Qed.
Lemma wrap_stmt_rel w ctx dsn query x y :
  sum_rel (stmt_rel w) x y -> sum_rel (stmt_rel (w ∪ refs ctx)) x (wrap_stmt clock conf INFO call_get ctx dsn query y).
Proof. destruct x, y; try done. apply WrapStmt_rel. Qed.
Lemma wrap_tx_rel w ctx dsn x y : sum_rel (tx_rel w) x y -> sum_rel (tx_rel (w ∪ refs ctx)) x (wrap_tx clock conf INFO ctx dsn y).
Proof. destruct x, y; try done. apply WrapTx_rel. Qed.
Lemma conn_call_refines {A} w ctx dsn (call : option (bytes -> list param -> iprog (answer A))) m query args :
  refines w eq m (match call with Some f => f query args | None => mret (None, Some ErrSkip) end) ->
  refines (w ∪ refs ctx) eq m (conn_call clock conf INFO call_get ctx dsn call query args).
Proof.
  intros H. unfold conn_call. destruct call as [f|]; [destruct (disabled conf); [|apply with_statement_refines; [set_solver|]]|];
    (eapply refines_mono; [exact H|set_solver|done]).
Qed.
Lemma conn_call_context_refines {A} w c_ctx dsn (call : option (goctx -> bytes -> list NamedValue -> iprog (answer A))) m ctx query args :
  refines (w ∪ refs ctx) eq m (match call with Some f => f ctx query args | None => mret (None, Some ErrSkip) end) ->
  refines (w ∪ refs c_ctx ∪ refs ctx) eq m (conn_call_context clock conf INFO call_get c_ctx dsn call ctx query args).
Proof.
  intros H. assert (refines (w ∪ refs c_ctx ∪ refs ctx) eq m (match call with Some f => f ctx query args | None => mret (None, Some ErrSkip) end)) as H'
    by (eapply refines_mono; [exact H|set_solver|done]).
  apply refines_select; (destruct call as [f|]; [|exact H']);
    (destruct (disabled conf); [exact H'|apply with_statement_refines; [set_solver|exact H']]).
Qed.
Lemma conn_call_offers {A} w ctx dsn (o : option (bytes -> list param -> lib (answer A))) o' :
  offers (query_rel w) (query_rel w (fun _ _ => skipped)) o o' ->
  offers (query_rel (w ∪ refs ctx)) (query_rel (w ∪ refs ctx) (fun _ _ => skipped)) o (Some (conn_call clock conf INFO call_get ctx dsn o')).
Proof.
  destruct o as [f|], o' as [f'|]; try done; intros H q args; apply conn_call_refines; 
    first [exact (H q args) | by apply refines_ret].
Qed.
Lemma conn_call_context_offers {A} w c_ctx dsn (o : option (goctx -> bytes -> list NamedValue -> lib (answer A))) o' :
  offers (query_context_rel w) (query_context_rel w (fun _ _ _ => skipped)) o o' ->
  offers (query_context_rel (w ∪ refs c_ctx)) (query_context_rel (w ∪ refs c_ctx) (fun _ _ _ => skipped)) o
    (Some (conn_call_context clock conf INFO call_get c_ctx dsn o')).
Proof.
  destruct o as [f|], o' as [f'|]; try done; intros H ctx q args; apply conn_call_context_refines; 
    first [exact (H ctx q args) | by apply refines_ret].
Qed.
Lemma PrepareContext_rel w ctx dsn g (c' : Conn Result Rows TxOptions iprog) :
  match cn_PrepareContext c' with
  | Some f' => prepare_rel w g f'
  | None => forall ctx' query, refines w (sum_rel (stmt_rel w)) (g ctx' query) (cn_Prepare c' query)
  end -> prepare_rel (w ∪ refs ctx) g (PrepareContext clock conf INFO call_get c' ctx dsn).
Proof.
  intros H ctx' query. set (W := w ∪ refs ctx ∪ refs ctx').
  assert (refines W (sum_rel (stmt_rel (w ∪ refs ctx'))) (g ctx' query)
    (match cn_PrepareContext c' with Some prep => prep ctx' query | None => cn_Prepare c' query end)) as H'.
  { destruct (cn_PrepareContext c'); (eapply refines_sum_mono; [apply H|set_solver|]); [done|].
    intros. eapply stmt_rel_mono; [done|set_solver]. }
  assert (forall x, refs x ⊆ W -> refines W (sum_rel (stmt_rel W)) (g ctx' query)
    (wrap_stmt clock conf INFO call_get x dsn query <$> match cn_PrepareContext c' with Some prep => prep ctx' query | None => cn_Prepare c' query end)) as Hx.
  { intros x Hx. eapply refines_fmap; [exact H'|]. intros a b Hab%(wrap_stmt_rel _ x dsn query). eapply sum_rel_mono; [exact Hab|].
    intros s s' Hs. eapply stmt_rel_mono; [exact Hs|set_solver]. }
  apply refines_select; apply Hx; set_solver.
Qed.
Lemma BeginTx_rel w ctx dsn g (c' : Conn Result Rows TxOptions iprog) :
  match cn_BeginTx c' with
  | Some f' => begin_rel w g f'
  | None => forall ctx' opts, refines w (sum_rel (tx_rel w)) (g ctx' opts) (cn_Begin c')
  end -> begin_rel (w ∪ refs ctx) g (BeginTx clock conf INFO c' ctx dsn).
Proof.
  intros H ctx' opts. set (W := w ∪ refs ctx ∪ refs ctx').
  assert (refines W (sum_rel (tx_rel (w ∪ refs ctx'))) (g ctx' opts)
    (match cn_BeginTx c' with Some f => f ctx' opts | None => cn_Begin c' end)) as H'.
  { destruct (cn_BeginTx c'); (eapply refines_sum_mono; [apply H|set_solver|]); [done|].
    intros. eapply tx_rel_mono; [done|set_solver]. }
  assert (forall x y z, refs x ⊆ W -> sum_rel (tx_rel (w ∪ refs ctx')) y z -> sum_rel (tx_rel W) y (wrap_tx clock conf INFO x dsn z)) as Hx.
  { intros x y z Hx Hyz%(wrap_tx_rel _ x dsn). eapply sum_rel_mono; [exact Hyz|].
    intros t t' Ht. eapply tx_rel_mono; [exact Ht|set_solver]. }
  apply refines_select; (destruct (cn_BeginTx c') as [f|]; [destruct (disabled conf)|]).
  1,4: eapply refines_sum_mono; [exact H'|done|]; intros t t' Ht; eapply tx_rel_mono; [exact Ht|set_solver].
  1,3: eapply refines_fmap; [apply with_step_refines; [set_solver|exact H']|]; intros x y; apply Hx; set_solver.
  all: eapply refines_fmap; [exact H'|]; intros x y; apply Hx; set_solver.
Qed.
Lemma WrapConn_rel w c c' ctx dsn : conn_rel w c c' -> conn_rel (w ∪ refs ctx) c (WrapConn clock conf INFO call_get c' ctx dsn).
Proof.
  intros [H1 H2 H3 H4 H5 H6 H7 H8 H9 H10]. split; simpl.
  - intros query. eapply refines_fmap; [eapply refines_mono; [apply H1|set_solver|intros x y Hxy; exact Hxy]|]. intros x y. apply wrap_stmt_rel.
  - destruct (disabled conf); [|apply with_step_refines; [set_solver|]]; (eapply refines_mono; [exact H2|set_solver|done]).
  - unfold Begin. destruct (disabled conf).
    + eapply refines_mono; [exact H3|set_solver|]. intros x y Hxy. eapply sum_rel_mono; [exact Hxy|].
      intros t t' Ht. eapply tx_rel_mono; [exact Ht|set_solver].
    + eapply refines_fmap; [apply with_step_refines; [set_solver|]; eapply refines_mono; [exact H3|set_solver|intros x y Hxy; exact Hxy]|].
      intros x y. apply wrap_tx_rel.
  - by apply conn_call_offers.
  - by apply conn_call_offers.
  - by apply conn_call_context_offers.
  - by apply conn_call_context_offers.
  - destruct (cn_PrepareContext c) as [f|], (cn_PrepareContext c') as [f'|] eqn:E; try done; simpl in *;
      apply PrepareContext_rel; rewrite E; done.
  - destruct (cn_ResetSession c) as [f|], (cn_ResetSession c') as [f'|]; try done; simpl in *;
      first [by eapply reset_rel_mono; [eassumption|set_solver] | intros ctx'; by apply refines_ret].
  - destruct (cn_BeginTx c) as [f|], (cn_BeginTx c') as [f'|] eqn:E; try done; simpl in *;
      apply BeginTx_rel; rewrite E; done.
Qed.


(** * Opening databases *)

Variable drivers : bytes -> option (Driver Result Rows TxOptions iprog).
Abbreviation opening := (OpenWithRegister clock conf GoSqlProfileEnabled INFO call_get drivers).
Abbreviation Registry := (Registry (D := D) (Result := Result) (Rows := Rows) (TxOptions := TxOptions)).
Definition registered (name : bytes) (r : Registry) : Prop := is_Some (whatapDrivers r !! (str "whatap-" ++ name)).
(** The driver is opened, to be wrapped, with an error. *)
Definition fails (name dsn : bytes) (i : Inst D) : Prop :=
  exists i1 err, sql_Open (D := D) drivers name dsn i = (i1, Some (inl err)) \/
    exists i0 db, sql_Open (D := D) drivers name dsn i = (i0, Some (inr db)) /\ db_Close db i0 = (i1, Some (Some err)).
Lemma register_spec ctx name dsn (r : Registry) (i : Inst D) :
  regMux r = false ->
  match register drivers ctx name dsn r i with
  | (_, Some (r1, Some (inr _))) =>
      regMux r1 = false /\ registered name r1 /\ (forall name', registered name' r -> registered name' r1) /\
      ~ (~ registered name r /\ fails name dsn i)
  | (_, Some (r1, Some (inl _))) => ~ registered name r /\ fails name dsn i /\ regMux r1 = true /\ whatapDrivers r1 = whatapDrivers r
  | (_, Some (_, None)) => False
  | (_, None) => True
  end.
Proof.
  intros Hl. unfold register. rewrite Hl. unfold registered.
  destruct (whatapDrivers r !! (str "whatap-" ++ name)) as [[d c0]|] eqn:El.
  { unfold mret, iprog_ret. split; [done|]. rewrite El. split; [by eexists|]. split; [done|]. intros [[] _]. by eexists. }
  unfold mbind, iprog_bind. destruct (sql_Open drivers name dsn i) as [i1 [[err|db]|]] eqn:Eo; [|..|done].
  { unfold mret, iprog_ret. simpl. split; [by intros [? [=]]|]. split; [exists i1, err; by left|done]. }
  destruct (drivers name) as [d|] eqn:Ed; [|unfold sql_Open in Eo; by rewrite Ed in Eo].
  destruct (db_Close db i1) as [i2 [[err|]|]] eqn:Ec; [|..|done]; unfold mret, iprog_ret; simpl.
  - split; [by intros [? [=]]|]. split; [exists i2, err; right; by exists i1, db|done].
  - split; [done|]. split; [by rewrite lookup_insert_eq; eexists|]. split.
    + intros name' H. rewrite lookup_insert_is_Some'. by right.
    + intros [_ (j & err & [H|(j0 & db0 & H1 & H2)])]; congruence.
Qed.
(** An open that returns leaves the lock free, and the driver registered, unless it was
    the first for its driver and that failed: then it returns the error with the lock held,
    and no later open of any driver returns. *)
Theorem OpenWithRegister_locks ctx name dsn r i i' r' o :
  disabled conf = false -> GoSqlProfileEnabled = true -> regMux r = false ->
  opening ctx name dsn r i = (i', Some (r', o)) ->
  o <> None /\
  (~ registered name r /\ fails name dsn i <-> regMux r' = true) /\
  (regMux r' = false -> registered name r' /\ forall name', registered name' r -> registered name' r') /\
  (regMux r' = true -> (exists err, o = Some (inl err)) /\ whatapDrivers r' = whatapDrivers r /\
     forall ctx2 name2 dsn2 i2, opening ctx2 name2 dsn2 r' i2 = (i2, Some (r', None))).
Proof.
  intros Hd Hg Hl. pose proof (register_spec ctx name dsn r i Hl) as H. unfold OpenWithRegister. rewrite Hd, Hg. cbn [orb negb].
  unfold mbind at 1, iprog_bind at 1. destruct (register drivers ctx name dsn r i) as [i1 [[r1 [[err|d]|]]|]]; [..|done|done].
  - destruct H as (H1 & H2 & H3 & H4). intros [= <- <- <-]. split; [done|]. rewrite H3. split; [done|]. split; [done|].
    intros _. split; [by eexists|]. split; [done|]. intros. unfold register, mbind, iprog_bind. by rewrite H3.
  - destruct H as (H1 & H2 & H3 & H4). unfold mbind, iprog_bind.
    destruct (OpenConnectorContext _ _ _ _ _ _ _ _ _) as [i2 [db|]]; [|done]. intros [= <- <- <-].
    split; [done|]. rewrite H1. split; [split; [by intros ?%H4|done]|]. by split.
Qed.
End Facts.

(** * A session *)

Module Session.
Import TraceSamples.
(** A driver that keeps what it was told, and knows no [QueryContext]. *)
Definition said (x : bytes) : lib (D := list bytes) (answer nat) := fun d => (d ++ [x], Some (Some (length d), None)).
Definition told (x : bytes) : lib (D := list bytes) (option error) := fun d => (d ++ [x], Some None).
Definition conn1 : Conn nat nat unit (lib (D := list bytes)) :=
  mkConn (M := lib (D := list bytes)) (fun q d => (d, Some (inl (Errorf (str "no statements"))))) (told (str "close"))
    (fun d => (d, Some (inr (mkTx (M := lib (D := list bytes)) (told (str "commit")) (told (str "rollback"))))))
    None (Some (fun _ q _ => said q)) None None None None None.
Definition connector1 : Connector nat nat unit (lib (D := list bytes)) := mkConnector (M := lib (D := list bytes)) (fun _ d => (d ++ [str "connect"], Some (inr conn1))) None.
Definition clock1 (n : nat) : Env := env1 (200 + Z.of_nat n).
Definition ctx1 : goctx := Some (mkGo (Some 0) []).
Definition inst1 : Inst (list bytes) := mkInst appstate2 [] 0.
Lemma appstate2_wf : wf appstate2.
Proof.
  assert (p_heap appstate2 = {[0 := default NewTraceCtx (p_heap appstate2 !! 0)]}) as Hh by (vm_compute; reflexivity).
  assert (p_sqls appstate2 = mkPool ∅ []) as Hs by (vm_compute; reflexivity).
  assert (p_httpcs appstate2 = mkPool ∅ []) as Hp by (vm_compute; reflexivity).
  assert (p_states appstate2 = ∅) as Ht by (vm_compute; reflexivity).
  assert (LlmState.slots (p_llm appstate2) = {[0 := INil]}) as Hl by (vm_compute; reflexivity).
  assert (p_gids appstate2 = lm_put (lm_new 100) 5%Z 0) as Hg by (vm_compute; reflexivity).
  assert (dom (p_heap appstate2) = {[0]}) as Hd by (rewrite Hh; apply dom_singleton_L). clear Hh.
  split; rewrite ?Hs, ?Hp, ?Ht, ?Hl, ?Hg, ?Hd; clear.
  - intros g l. unfold lm_get. simpl. destruct (decide _); [intros [= <-]; set_solver|done].
  - by intros l Hl%elem_of_nil.
  - intros s c l [H _]%lookup_lent. simpl in H. by apply lookup_empty_Some in H.
  - by intros l Hl%elem_of_nil.
  - intros s c l [H _]%lookup_lent. simpl in H. by apply lookup_empty_Some in H.
  - intros s c l [H _]%lookup_lent. simpl in H. by apply lookup_empty_Some in H.
  - intros s st H. by apply lookup_empty_Some in H.
  - intros s st l H. by apply lookup_empty_Some in H.
  - by rewrite dom_singleton_L.
Qed.
Abbreviation wrapped1 := (WrapConnector clock1 appconf1 true 20 head (lift_connector connector1) (Some Background) (str "db:3306")).
Lemma head_in_inst (free : list nat) (l : nat) : head free = Some l -> l ∈ free.
Proof. destruct free; [done|]. intros [= ->]. by left. Qed.
(** Only one driver is registered; a name is misspelt. *)
Definition drivers1 (name : bytes) : option (Driver nat nat unit (iprog (list bytes))) :=
  if bool_decide (name = str "mysql") then Some (mkDriver (M := iprog (list bytes)) (fun _ i => (i, Some (inr (lift_conn conn1)))) None) else None.
Definition open1 := OpenWithRegister clock1 appconf1 true 20 head drivers1.
Lemma OpenWithRegister_locks_witness :
  exists r1, open1 (Some Background) (str "mysqll") (str "db") (mkRegistry false ∅) inst1 = (inst1, Some (r1, Some (inl (unknown_driver (str "mysqll"))))) /\
    open1 (Some Background) (str "mysql") (str "db") r1 inst1 = (inst1, Some (r1, None)).
Proof.
  assert (open1 (Some Background) (str "mysqll") (str "db") (mkRegistry false ∅) inst1 =
    (inst1, Some (mkRegistry true ∅, Some (inl (unknown_driver (str "mysqll")))))) as E by reflexivity.
  destruct (OpenWithRegister_locks clock1 appconf1 true 20 head drivers1 (Some Background) (str "mysqll") (str "db") (mkRegistry false ∅)
    inst1 inst1 (mkRegistry true ∅) _ eq_refl eq_refl eq_refl E) as (_ & _ & _ & H).
  destruct (H eq_refl) as (_ & _ & H2). exists (mkRegistry true ∅). split; [exact E|]. apply H2.
Defined.
End Session.
