(* ===== verification/InstHttp.v ===== *)
(** The wrappers of [net/http], [src/instrumentation/net/http/whataphttp/http.go]: the
    handlers, which are those of [src/trace], the [RoundTripper] that records the calls of
    a client, and the functions that stand for [http.Get] and its relatives.

    A request is the part of [http.Request] the wrappers read; they change its header,
    which the caller and the transport share, so it is given back.  A transport is a
    program, which answers with a response, an error or both. *)

From stdpp Require Import gmap.
From S2P Require Import Prelude LlmUrl LlmPack LlmState LlmSender.
From S2P Require Import EscapeSQL Hmap UrlPattern TraceCtx MeterService Meters DataPack DataText.
From S2P Require Import ParsedSql Stat StatError TraceContext TraceApi TraceSteps TraceMain TraceManager AppState AppTrace AppCalls InstSql.

(** [Header.Get]; the header of a request that a client made may be nil. *)
Record HttpReq (Body : Type) := mkReq {
  q_Context : GoContext; q_Method : bytes; q_URL : bytes; q_Header : option Header; q_Body : option Body
}.
Arguments mkReq {Body}. Arguments q_Context {Body}. Arguments q_Method {Body}. Arguments q_URL {Body}.
Arguments q_Header {Body}. Arguments q_Body {Body}.

Section Http.
Context {LMz : LinkedMap Z} {LMi : LinkedMap (Z * Z)} {LMh : LinkedMap StatHttpc.HTTPC}
  {LMm : LinkedMap StatTranxMtCaller.MtraceKEY} {BU : BitUtil} {SU : StringUtil} {SM : StringMore} {TT : TextTypes}
  {RQ : RequestQueue} {CT : CountTable} {PT : PathTree} {HM : MeterService.Pack} {UU : UrlUtil} {PC : IProfileCollector}
  {HX : Hexa32} {AC : AppContext}.
Context {D Body Response : Type}.
Variable StatusCode : Response -> Z.
Variable clock : nat -> Env.
Variable conf : AppConf.
Variable INFO : Z.
Variable Next : nat -> Z.
Variable call_get : list nat -> option nat.
Variable customHosts : list hostPattern.
Variable url_Parse_Host : bytes -> option bytes.
Abbreviation iprog := (iprog D).
Abbreviation HttpReq := (HttpReq Body).
Definition transport_t : Type := HttpReq -> iprog (answer Response).
Abbreviation selectContext := (selectContext clock conf).
Abbreviation tick := (tick clock).

(** ** Headers *)

Definition crash {A} : iprog A := fun i => (i, None).
(** [req.Header.Set]: a nil map panics. *)
Definition Header_Set (k v : bytes) (req : HttpReq) : iprog HttpReq :=
  match q_Header req with
  | None => crash
  | Some h => mret (req <| q_Header := Some (header_Set h k v) |>)
  end.
(** [for key := range headers { req.Header.Set(key, headers.Get(key)) }] *)
Fixpoint set_headers (keys : list bytes) (headers : Header) (req : HttpReq) : iprog HttpReq :=
  match keys with
  | [] => mret req
  | k :: keys => req ← Header_Set k (header_Get headers k) req; set_headers keys headers req
  end.
Definition set_mtrace (ctx : goctx) (req : HttpReq) : iprog HttpReq :=
  if MtraceEnabled (mt conf) then
    e ← tick;
    headers ← agent (GetMTrace_of conf Next e ctx);
    set_headers headers.*1 headers req
  else mret req.
(** [httpc.End] with the status of the response, if any. *)
Definition end_call (httpcCtx : nat) (x : answer Response) : iprog unit :=
  e ← tick;
  agent (EndHttpcCall conf INFO e (Some httpcCtx) (match x.1 with Some res => StatusCode res | None => (-1)%Z end) x.2);;
  mret tt.

(** ** Transports *)

Variable DefaultTransport : transport_t.
Record WrapRoundTrip := mkWrap { rt_ctx : goctx; transport : option transport_t; llmMark : bool }.
Definition RoundTrip (this : WrapRoundTrip) (req : HttpReq) : iprog (WrapRoundTrip * HttpReq * answer Response) :=
  let t := default DefaultTransport (transport this) in
  let this := this <| transport := Some t |> in
  if DISABLE (mt conf) then x ← t req; mret (this, req, x)
  else if negb (Enabled conf) then x ← t req; mret (this, req, x)
  else
    wCtx ← selectContext [Some (q_Context req); rt_ctx this];
    req ← set_mtrace wCtx req;
    e ← tick;
    httpcCtx ← agent (if llmMark this
                      then StartLLM conf call_get customHosts url_Parse_Host e wCtx (q_URL req)
                      else StartHttpcCall conf call_get customHosts e wCtx (q_URL req));
    x ← t req;
    end_call httpcCtx x;;
    mret (this, req, x).
Definition NewWrapRoundTrip (ctx : goctx) (t : option transport_t) : WrapRoundTrip := mkWrap ctx t false.
Definition NewRoundTrip (ctx : goctx) (t : option transport_t) : WrapRoundTrip := mkWrap ctx t false.
Definition NewLLMRoundTrip (ctx : goctx) (t : option transport_t) : WrapRoundTrip := mkWrap ctx t true.
Definition NewRoundTripWithEmptyTransport (ctx : goctx) : WrapRoundTrip := mkWrap ctx (Some DefaultTransport) false.
(** The wrapper as a [http.RoundTripper]. *)
Definition as_transport (this : WrapRoundTrip) : transport_t := fun req => snd <$> RoundTrip this req.

(** ** [http.Get] and its relatives *)

(** [http.NewRequestWithContext]: the error of a method or a URL, and the URL as it is
    printed once it is parsed; [http.DefaultClient.Do]. *)
Variable request_error : bytes -> bytes -> option error.
Variable URL_String : bytes -> bytes.
Variable DefaultClient_Do : transport_t.
Definition NewRequestWithContext (ctx : GoContext) (method url : bytes) (body : option Body) : error + HttpReq :=
  match request_error method url with
  | Some err => inl err
  | None => inr (mkReq ctx method (URL_String url) (Some []) body)
  end.
Definition with_request (x : error + HttpReq) (f : HttpReq -> iprog (answer Response)) : iprog (answer Response) :=
  match x with inl err => mret (None, Some err) | inr req => f req end.
(** The library's own; a form is posted with its type. *)
Definition http_Get (url : bytes) : iprog (answer Response) :=
  with_request (NewRequestWithContext Background (str "GET") url None) DefaultClient_Do.
Definition http_Post (url contentType : bytes) (body : option Body) : iprog (answer Response) :=
  with_request (NewRequestWithContext Background (str "POST") url body)
    (fun req => req ← Header_Set (str "Content-Type") contentType req; DefaultClient_Do req).
Definition form_type : bytes := str "application/x-www-form-urlencoded".
(** A call of the default client that is recorded. *)
Definition do_traced (ctx : goctx) (urlStr : bytes) (req : HttpReq) : iprog (answer Response) :=
  req ← set_mtrace ctx req;
  e ← tick;
  httpcCtx ← agent (StartHttpcCall conf call_get customHosts e ctx urlStr);
  x ← DefaultClient_Do req;
  end_call httpcCtx x;;
  mret x.
Definition HttpGet (ctx : goctx) (urlStr : bytes) : iprog (answer Response) :=
  if DISABLE (mt conf) then http_Get urlStr
  else
    let ctx := default Background ctx in
    with_request (NewRequestWithContext ctx (str "GET") urlStr None) (do_traced (Some ctx) urlStr).
Definition HttpPost (ctx : goctx) (urlStr contentType : bytes) (body : option Body) : iprog (answer Response) :=
  if DISABLE (mt conf) then http_Post urlStr contentType body
  else
    let ctx := default Background ctx in
    with_request (NewRequestWithContext ctx (str "POST") urlStr body)
      (fun req => req ← Header_Set (str "Content-Type") contentType req; do_traced (Some ctx) urlStr req).
(** [url.Values.Encode], which sorts by key. *)
Variable Values : Type.
Variable Encode : Values -> Body.
Definition HttpPostForm (ctx : goctx) (urlStr : bytes) (data : Values) : iprog (answer Response) :=
  if DISABLE (mt conf) then http_Post urlStr form_type (Some (Encode data))
  else
    let ctx := default Background ctx in
    with_request (NewRequestWithContext ctx (str "POST") urlStr (Some (Encode data)))
      (fun req => req ← Header_Set (str "Content-Type") form_type req; do_traced (Some ctx) urlStr req).
Definition DefaultClientGet := HttpGet.
Definition DefaultClientPost := HttpPost.
Definition DefaultClientPostForm := HttpPostForm.

(** ** Handlers *)

Variable WebMethodName : bytes -> option Z.
Variable nil_String : res bytes.
Variable ip_of : bytes -> Z.
Variable StatusText : Z -> bytes.
Variables pool_get ctx_get : list nat -> option nat.
Definition Func (e e' : Env) (handler : goctx -> prog Handled) (r : Request) : prog (option bytes) :=
  AppTrace.Func conf WebMethodName nil_String INFO ip_of StatusText Next pool_get ctx_get e e' handler r.
Definition HandlerFunc := Func.
Definition WrapHandler (e e' : Env) (handler : option (goctx -> prog Handled)) : option (Request -> prog (option bytes)) :=
  HandlerFunc e e' <$> handler.
End Http.
