(* ===== verification/InstHttpFacts.v ===== *)
(** A recorded HTTP call: what the server is told is what is recorded, the caller gets what
    the transport gave, and the context of the call is given back. *)

From stdpp Require Import gmap.
From S2P Require Import Prelude LlmUrl LlmPack LlmState LlmStateFacts LlmSender.
From S2P Require Import EscapeSQL Hmap UrlPattern TraceCtx TraceCtxFacts MeterService Meters DataPack DataText.
From S2P Require Import ParsedSql Stat StatError TraceContext TraceApi TraceSteps TraceMain TraceManager AppState AppTrace AppCalls TraceSamples AppFacts.
From S2P Require Import InstSql InstFacts InstSqlFacts InstHttp.

(** * LLM calls return *)

(** The records of LLM calls and the slots of transactions stay. *)
Definition llm_grow (w w' : LlmState.world) : Prop :=
  dom (LlmState.packs w) ⊆ dom (LlmState.packs w') /\ dom (LlmState.slots w) ⊆ dom (LlmState.slots w').
Lemma llm_grow_trans a b c : llm_grow a b -> llm_grow b c -> llm_grow a c.
Proof. intros [H1 H2] [H3 H4]. split; by etrans. Qed.
Lemma on_pack_grow s w f : LlmState.pack s ∈ dom (LlmState.packs w) -> exists w', on_pack s w f = Ret w' /\ llm_grow w w' /\ LlmState.slots w' = LlmState.slots w.
Proof.
  intros [p Hp]%elem_of_dom. unfold on_pack. rewrite Hp. eexists. split; [done|]. split; [|done]. split; [|done].
  simpl. rewrite dom_insert_L. set_solver.
Qed.
Definition slot_in (o : option nat) (w : LlmState.world) : Prop := forall l, o = Some l -> l ∈ dom (LlmState.slots w).
Lemma accumulate_grow w o p : slot_in o w -> exists w', accumulate_slot w o p = Ret w' /\ llm_grow w w'.
Proof.
  intros Ho. destruct o as [l|]; simpl; [|exists w; by split]. pose proof (Ho l eq_refl) as [i Hi]%elem_of_dom. rewrite Hi.
  destruct i; [destruct (nonempty _)|destruct (nonempty _)|exists w; by split]; (eexists; split; [done|]);
    split; simpl; rewrite ?dom_insert_L; set_solver.
Qed.
Lemma Publish_grow mode now s w :
  LlmState.pack s ∈ dom (LlmState.packs w) -> slot_in (LlmState.txSlot s) w ->
  exists s' w', Publish mode now s w = Ret (s', w') /\ llm_grow w w' /\ LlmState.pack s' = LlmState.pack s /\ LlmState.txSlot s' = LlmState.txSlot s.
Proof.
  intros Hp Ho. unfold Publish. destruct (_ || _); [exists s, w; by split|].
  destruct (on_pack_grow s w (flush now s) Hp) as (w1 & -> & [G1 G1'] & E1). cbn [mbind res_bind].
  unfold get_pack. assert (LlmState.pack s ∈ dom (LlmState.packs w1)) as [p ->]%elem_of_dom by set_solver. cbn [mbind res_bind].
  match goal with |- context [accumulate_slot ?x _ _] => set (w2 := x) end. destruct (accumulate_grow w2 (LlmState.txSlot s) p) as (w3 & -> & G3).
  { intros l Hl. unfold w2. simpl. rewrite E1. by apply Ho. }
  cbn [mbind res_bind]. do 2 eexists. split; [done|]. split; [|done].
  assert (llm_grow w2 (DispatchStep mode w3 (LlmState.pack s))) as G by (unfold DispatchStep; destruct (negb mode); apply G3).
  eapply llm_grow_trans; [|exact G]. by split.
Qed.
Lemma HandleHttpcEnd_grow mode now s w txid slot stepID elapsed code err :
  LlmState.pack s ∈ dom (LlmState.packs w) -> slot_in (LlmState.txSlot s) w -> slot_in slot w ->
  exists s' w', HandleHttpcEnd mode now s w txid slot stepID elapsed code err = Ret (s', w') /\ llm_grow w w' /\
    LlmState.pack s' = LlmState.pack s /\ (LlmState.txSlot s' = LlmState.txSlot s \/ LlmState.txSlot s' = slot).
Proof.
  intros Hp Ho Hs. unfold HandleHttpcEnd. destruct (_ || _); [exists s, w; split; [done|]; split; [done|]; auto|].
  destruct (on_pack_grow s w (httpc_timings elapsed s) Hp) as (w1 & -> & G1 & E1). cbn [mbind res_bind].
  set (s1 := if bool_decide _ then _ else _). assert (LlmState.pack s1 = LlmState.pack s) as P1 by (unfold s1; by case_bool_decide).
  assert (exists s2 w2, match terminalErr s1 with None => SetError s1 w1 err ErrorTypeAPI | Some _ => Ret (s1, w1) end = Ret (s2, w2) /\
    llm_grow w1 w2 /\ LlmState.pack s2 = LlmState.pack s1 /\ LlmState.slots w2 = LlmState.slots w1) as (s2 & w2 & -> & G2 & P2 & E2).
  { destruct (terminalErr s1); [by exists s1, w1|]. unfold SetError. destruct err as [msg|]; [|by exists s1, w1].
    destruct (LlmState.disabled s1); [by exists s1, w1|].
    destruct (on_pack_grow s1 w1 (fun p => StepStatus_SetError p msg ErrorTypeAPI)) as (w2 & -> & G2 & E2); [rewrite P1; by apply G1|].
    cbn [mbind res_bind]. eexists _, w2. split; [done|]. by split. }
  cbn [mbind res_bind].
  assert (LlmState.pack s2 ∈ dom (LlmState.packs w2)) as Hp2 by (rewrite P2, P1; apply G2, G1, Hp).
  destruct (on_pack_grow s2 w2 (httpc_ids txid stepID) Hp2) as (w3 & -> & G3 & E3). cbn [mbind res_bind].
  set (s3 := s2 <| LlmState.txSlot := slot |>). assert (LlmState.pack s3 = LlmState.pack s) as P3 by (unfold s3; simpl; by rewrite P2).
  assert (llm_grow w w3) as G by (eapply llm_grow_trans; [exact G1|]; by eapply llm_grow_trans).
  destruct (negb (manualPublish s3)).
  - destruct (Publish_grow mode now s3 w3) as (s4 & w4 & -> & G4 & P4 & T4); [rewrite P3; apply G, Hp|unfold s3, slot_in; simpl; by rewrite E3, E2, E1|].
    exists s4, w4. split; [done|]. split; [by eapply llm_grow_trans|]. split; [congruence|]. right. by rewrite T4.
  - exists s3, w3. split; [done|]. split; [done|]. split; [done|]. by right.
Qed.

Section Calls.
Context {LMz : LinkedMap Z} {LLz : LinkedMapLaws Z LMz} {LMi : LinkedMap (Z * Z)} {LMh : LinkedMap StatHttpc.HTTPC}
  {LMm : LinkedMap StatTranxMtCaller.MtraceKEY} {BU : BitUtil} {SU : StringUtil} {SM : StringMore} {TT : TextTypes}
  {RQ : RequestQueue} {CT : CountTable} {PT : PathTree} {HM : MeterService.Pack} {UU : UrlUtil} {PC : IProfileCollector}
  {HX : Hexa32} {AC : AppContext}.
Variable conf : AppConf.
Variable INFO : Z.
Variable customHosts : list hostPattern.
Variable url_Parse_Host : bytes -> option bytes.
Variable Next : nat -> Z.
Abbreviation sqls a := (lent (p_sqls a)).
Abbreviation httpcs a := (lent (p_httpcs a)).
Abbreviation traced := (traced conf).

(** * Contexts of calls *)

(** Since [a0] only [h] was taken, and holds [c]; the transactions' records are as in [a1]. *)
Record holding (h : nat) (c : HttpcCtx) (a0 a : App) : Prop := {
  ho_new : httpcs a0 !! h = None;
  ho_grow : grow a0 a;
  ho_sqls : sqls a = sqls a0;
  ho_httpcs : httpcs a = <[h := c]> (httpcs a0);
  ho_heap : p_heap a = p_heap a0
}.
Lemma holding_agent h c a0 a ag : holding h c a0 a -> holding h c a0 (a <| p_agent := ag |>).
Proof. intros [H1 H2 H3 H4 H5]. split; [done| |done..]. eapply grow_trans; [exact H2|]. apply grow_agent, H2. Qed.
Lemma holding_c h c a0 a : holding h c a0 a -> httpcs a !! h = Some c.
Proof. intros H. rewrite (ho_httpcs _ _ _ _ H). apply lookup_insert_eq. Qed.
Lemma wp_get_httpc h c a0 a (Q : HttpcCtx -> App -> Prop) : holding h c a0 a -> Q c a -> wp (get_httpc h) a Q.
Proof. intros H HQ. unfold wp, get_httpc. pose proof (holding_c _ _ _ _ H) as [E _]%lookup_lent. by rewrite E. Qed.
Lemma wp_on_httpc h c f a0 a (Q : unit -> App -> Prop) :
  holding h c a0 a ->
  (forall l, h_ctx (f c) = Some l -> l ∈ dom (p_heap a)) -> (forall s, Extra (f c) = Some s -> s ∈ dom (p_states a)) ->
  (forall a', holding h (f c) a0 a' -> dom (p_states a) ⊆ dom (p_states a') -> Q tt a') -> wp (on_httpc h f) a Q.
Proof.
  intros H Hl Hs HQ. unfold on_httpc. apply wp_modify. pose proof (g_wf _ _ (ho_grow _ _ _ _ H)) as Hw.
  destruct (lent_alter f NewHttpcCtx _ _ _ (holding_c _ _ _ _ H) (wf_httpcs a Hw)) as [H1 H2].
  change (Q tt (a <| p_httpcs := ((p_httpcs a) <| o_heap ::= alter f h |>) |>)). set (p' := (p_httpcs a) <| o_heap ::= alter f h |>) in *.
  apply HQ; [|done]. destruct H as [K1 K2 K3 K4 K5]. split; [done| |done| |done].
  - eapply grow_trans; [exact K2|]. destruct Hw as [W1 W2 W3 W4 W5 W6 W7 W8 W9]. split; [|done..].
    split; try done; intros h' c' x; change (p_httpcs (a <| p_httpcs := p' |>)) with p'; rewrite H1.
    + destruct (decide (h' = h)) as [->|Hne]; [rewrite lookup_insert_eq; intros [= <-]; apply Hl|rewrite lookup_insert_ne by done; apply W5].
    + destruct (decide (h' = h)) as [->|Hne]; [rewrite lookup_insert_eq; intros [= <-]; apply Hs|rewrite lookup_insert_ne by done; apply W6].
  - change (httpcs (a <| p_httpcs := p' |>)) with (lent p'). by rewrite H1, K4, insert_insert_eq.
Qed.
(** A change of the LLM calls that keeps them. *)
Lemma wf_llm a (st : gmap nat LLMState) w :
  wf a -> llm_grow (p_llm a) w -> dom (p_states a) ⊆ dom st ->
  (forall s x, st !! s = Some x -> LlmState.pack x ∈ dom (LlmState.packs w) /\ slot_in (LlmState.txSlot x) w) ->
  grow a (a <| p_states := st |> <| p_llm := w |>).
Proof.
  intros [W1 W2 W3 W4 W5 W6 W7 W8 W9] [G1 G2] Hd Hs. split; [|done..]. split; try done; simpl.
  - intros h c s Hh He. apply Hd. by eapply W6.
  - intros s x Hx. by apply (Hs s).
  - intros s x l Hx Hl. by apply (Hs s x).
  - by etrans.
Qed.
Lemma state_ok a s x : wf a -> p_states a !! s = Some x -> LlmState.pack x ∈ dom (LlmState.packs (p_llm a)) /\ slot_in (LlmState.txSlot x) (p_llm a).
Proof. intros Hw Hx. split; [by apply (wf_state a Hw s)|]. intros l. by apply (wf_txslot a Hw s x). Qed.
Lemma states_kept a w (st : gmap nat LLMState) : wf a -> llm_grow (p_llm a) w ->
  (forall s x, st !! s = Some x -> p_states a !! s = Some x \/ LlmState.pack x ∈ dom (LlmState.packs w) /\ slot_in (LlmState.txSlot x) w) ->
  forall s x, st !! s = Some x -> LlmState.pack x ∈ dom (LlmState.packs w) /\ slot_in (LlmState.txSlot x) w.
Proof.
  intros Hw [G1 G2] Hs s x Hx. destruct (Hs s x Hx) as [H|H]; [|done]. destruct (state_ok a s x Hw H) as [H1 H2].
  split; [by apply G1|]. intros l Hl. by apply G2, H2.
Qed.
Lemma holding_llm h c a0 a (st : gmap nat LLMState) w :
  holding h c a0 a -> grow a (a <| p_states := st |> <| p_llm := w |>) -> holding h c a0 (a <| p_states := st |> <| p_llm := w |>).
Proof. intros [K1 K2 K3 K4 K5] G. split; [done|by eapply grow_trans|done..]. Qed.
Lemma wp_on_state s f a (Q : unit -> App -> Prop) :
  wf a -> s ∈ dom (p_states a) ->
  (forall x, p_states a !! s = Some x -> exists x' w', f x (p_llm a) = Ret (x', w') /\ llm_grow (p_llm a) w' /\
     LlmState.pack x' = LlmState.pack x /\ slot_in (LlmState.txSlot x') w') ->
  (forall st w, grow a (a <| p_states := st |> <| p_llm := w |>) -> Q tt (a <| p_states := st |> <| p_llm := w |>)) ->
  wp (on_state s f) a Q.
Proof.
  intros Hw [x Hx]%elem_of_dom Hf HQ. unfold on_state. apply wp_bind. unfold wp at 1, get_state. rewrite Hx.
  apply wp_bind. unfold wp at 1, on_llm. destruct (Hf x Hx) as (x' & w' & -> & G & Hp & Hs). apply wp_modify.
  change (Q tt (a <| p_states := <[s := x']> (p_states a) |> <| p_llm := w' |>)). apply HQ, wf_llm; [done..|rewrite dom_insert_L; set_solver|].
  apply (states_kept a); [done..|]. intros s' y. destruct (decide (s' = s)) as [->|Hne].
  - rewrite lookup_insert_eq. intros [= <-]. right. split; [|done]. rewrite Hp. apply G. by apply (wf_state a Hw s).
  - rewrite lookup_insert_ne by done. by left.
Qed.
Lemma wp_set_url s url h c a0 a (Q : unit -> App -> Prop) :
  holding h c a0 a -> s ∈ dom (p_states a) ->
  (forall a', holding h c a0 a' -> dom (p_states a) ⊆ dom (p_states a') -> Q tt a') -> wp (set_url customHosts s url) a Q.
Proof.
  intros H Hs HQ. pose proof (g_wf _ _ (ho_grow _ _ _ _ H)) as Hw. unfold set_url. apply wp_on_state; [done..| |].
  - intros x Hx. destruct (state_ok a s x Hw Hx) as [Hp Ho]. unfold SetURL. destruct (skip x url); [exists x, (p_llm a); by split|].
    match goal with |- context [on_pack x _ ?f] => destruct (on_pack_grow x (p_llm a) f Hp) as (w' & -> & G & E) end.
    exists x, w'. split; [done|]. split; [done|]. split; [done|]. unfold slot_in. by rewrite E.
  - intros st w G. apply HQ; [by apply holding_llm|apply G].
Qed.
(** A new record of an LLM call. *)
Lemma wp_attach (f : LlmState.world -> option LLMState * LlmState.world) h c a0 a (Q : unit -> App -> Prop) :
  (forall w, match f w with
             | (None, w') => w' = w
             | (Some s, w') => llm_grow w w' /\ LlmState.pack s ∈ dom (LlmState.packs w') /\ LlmState.txSlot s = None end) ->
  holding h c a0 a ->
  (forall a' x, holding h (c <| Extra := x |>) a0 a' -> Q tt a') -> wp (attach h f) a Q.
Proof.
  intros Hf H HQ. pose proof (g_wf _ _ (ho_grow _ _ _ _ H)) as Hw. unfold attach. apply wp_bind. unfold wp at 1, on_llm.
  specialize (Hf (p_llm a)). destruct (f (p_llm a)) as [[s|] w'].
  - destruct Hf as (G & Hp & Ho). apply wp_bind. unfold wp at 1, new_state. cbv zeta. cbn [p_states]. 
    set (l := base.fresh _).
    change (wp (on_httpc h (fun c => c <| Extra := Some l |>)) (a <| p_states := <[l := s]> (p_states a) |> <| p_llm := w' |>) Q).
    assert (grow a (a <| p_states := <[l := s]> (p_states a) |> <| p_llm := w' |>)) as Hg.
    { apply wf_llm; [done..|rewrite dom_insert_L; set_solver|]. apply (states_kept a); [done..|]. intros s' y.
      destruct (decide (s' = l)) as [->|Hne]; [rewrite lookup_insert_eq; intros [= <-]; right; split; [done|]; unfold slot_in; by rewrite Ho|].
      rewrite lookup_insert_ne by done. by left. }
    pose proof (holding_llm _ _ _ _ _ _ H Hg) as H'. eapply wp_on_httpc; [exact H'|..].
    + simpl. intros l' Hl'. apply (wf_httpc _ (g_wf _ _ Hg) h c l'); [by eapply holding_c|done].
    + simpl. intros s' [= <-]. rewrite dom_insert_L. set_solver.
    + intros a' Ha' _. by eapply HQ.
  - subst w'. apply wp_ret. apply (HQ _ (Extra c)). replace (c <| Extra := Extra c |>) with c by (by destruct c). by destruct a.
Qed.

(** * Start and end *)

Variable call_get : list nat -> option nat.
Hypothesis call_get_in : forall free l, call_get free = Some l -> l ∈ free.
Lemma wp_PoolHttpcContext a : wf a -> wp (PoolHttpcContext call_get) a (fun h a' => holding h NewHttpcCtx a a').
Proof.
  intros Hw. unfold wp, PoolHttpcContext. destruct (pool_take call_get NewHttpcCtx (p_httpcs a)) as [h p'] eqn:E.
  destruct (lent_take call_get NewHttpcCtx _ _ _ call_get_in (wf_httpcs a Hw) E) as (H1 & H2 & H3).
  split; [done| |done| |done].
  - destruct Hw as [W1 W2 W3 W4 W5 W6 W7 W8 W9]. split; [|done..].
    split; try done; intros h' c x; change (p_httpcs (a <| p_httpcs := p' |>)) with p'; rewrite H2.
    + destruct (decide (h' = h)) as [->|Hne]; [rewrite lookup_insert_eq; by intros [= <-]|rewrite lookup_insert_ne by done; apply W5].
    + destruct (decide (h' = h)) as [->|Hne]; [rewrite lookup_insert_eq; by intros [= <-]|rewrite lookup_insert_ne by done; apply W6].
  - exact H2.
Qed.
(** What a started call knows of the transaction. *)
Definition of_tx (l : nat) (t : TraceCtx) (c : HttpcCtx) : Prop :=
  h_ctx c = Some l /\ h_txid c = Txid t /\ h_StepId c = MStepId t /\ exists st, h_step c = Some st /\ hc_StepId st = MStepId t.
Definition started (ctx : goctx) (a : App) (h : nat) (a' : App) : Prop :=
  exists c, holding h c a a' /\
    (traced -> forall l t, ctx ≫= g_whatap = Some l -> p_heap a !! l = Some t -> of_tx l t c).
Lemma wp_tx_seen_http e ctx a (Q : option (nat * TraceCtx) -> App -> Prop) :
  wf a -> refs ctx ⊆ dom (p_heap a) ->
  (forall tx, (forall l t, tx = Some (l, t) -> p_heap a !! l = Some t) ->
     (forall l t, ctx ≫= g_whatap = Some l -> p_heap a !! l = Some t -> tx = Some (l, t)) -> Q tx a) -> wp (tx_seen conf e ctx) a Q.
Proof.
  intros Hw Hr HQ. destruct (ctx ≫= g_whatap) as [l|] eqn:El.
  - unfold tx_seen. destruct ctx as [[[l'|] p]|]; [|done..]. injection El as ->.
    assert (l ∈ dom (p_heap a)) as [t Ht]%elem_of_dom by (unfold refs in Hr; simpl in Hr; set_solver).
    apply wp_bind. unfold wp at 1, GetTraceContext, gets. apply wp_bind, (wp_get_tc l t); [done|]. apply wp_ret, HQ; [by intros ?? [= <- <-]|].
    intros ?? [= <-]. rewrite Ht. by intros [= <-].
  - apply (wp_tx_seen conf); [done..|]. intros tx Htx. by apply HQ.
Qed.
Lemma core_tx l t c c' : h_ctx c' = h_ctx c -> h_txid c' = h_txid c -> h_StepId c' = h_StepId c -> h_step c' = h_step c -> of_tx l t c -> of_tx l t c'.
Proof. unfold of_tx. by intros -> -> -> ->. Qed.
Lemma wp_StartHttpcCall e ctx url a :
  wf a -> refs ctx ⊆ dom (p_heap a) -> pending_ok ctx a -> wp (StartHttpcCall conf call_get customHosts e ctx url) a (started ctx a).
Proof.
  intros Hw Hr Hpe. unfold StartHttpcCall. destruct (traced_dec conf) as [Ht|E].
  2:{ rewrite E. eapply wp_mono; [by apply wp_PoolHttpcContext|]. intros h a' H. exists NewHttpcCtx. split; [done|].
      intros Ht. by rewrite (traced_guard _ Ht) in E. }
  rewrite (traced_guard _ Ht). apply wp_bind. eapply wp_mono; [by apply wp_PoolHttpcContext|]. intros h a1 H1.
  apply wp_bind. eapply wp_on_httpc; [exact H1|done..|]. intros a2 H2 D2. simpl in H2. apply wp_bind.
  pose proof (g_wf _ _ (ho_grow _ _ _ _ H2)) as W2. apply wp_tx_seen_http; [done|by rewrite (ho_heap _ _ _ _ H2)|]. intros tx Htx Hfind.
  rewrite (ho_heap _ _ _ _ H2) in Htx, Hfind. apply wp_bind.
  set (Q := fun (_ : unit) a3 => exists c, holding h c a a3 /\ Extra c = None /\
    (forall l t, ctx ≫= g_whatap = Some l -> p_heap a !! l = Some t -> of_tx l t c)).
  apply (wp_mono _ _ Q).
  { destruct tx as [[l t]|].
    - pose proof (Htx l t eq_refl) as Hl. apply wp_bind. eapply wp_on_httpc; [exact H2|..]; simpl.
      { rewrite (ho_heap _ _ _ _ H2). intros ? [= <-]. apply elem_of_dom. by exists t. }
      { done. }
      intros a3 H3 D3. apply wp_bind, wp_agent_call. intros st ag. pose proof (holding_agent _ _ _ _ ag H3) as H4.
      eapply wp_on_httpc; [exact H4|..]; simpl.
      { rewrite (ho_heap _ _ _ _ H3). intros ? [= <-]. apply elem_of_dom. by exists t. }
      { done. }
      intros a5 H5 D5. eexists. split; [exact H5|]. split; [done|]. intros l' t' E1 E2. injection (Hfind l' t' E1 E2) as <- <-.
      split; [done|]. split; [done|]. split; [done|]. eexists. split; [reflexivity|done].
    - apply wp_ret. eexists. split; [exact H2|]. split; [done|]. intros l t E1 E2. by specialize (Hfind l t E1 E2). }
  intros [] a3 (c & H3 & He & Hc). apply wp_bind, (wp_get_httpc h c a); [done|]. rewrite He. apply wp_bind.
  set (Q2 := fun (_ : unit) a4 => exists c, holding h c a a4 /\ (forall l t, ctx ≫= g_whatap = Some l -> p_heap a !! l = Some t -> of_tx l t c)).
  apply (wp_mono _ _ Q2).
  { destruct (ctx ≫= fun g => head (g_pending g)) as [s|] eqn:Ep; [|apply wp_ret; by exists c].
    destruct ctx as [g|]; [|done]. simpl in Ep.
    assert (s ∈ dom (p_states a)) as Hs by (apply (Hpe g s eq_refl); destruct (g_pending g); [done|injection Ep as ->; by left]).
    assert (s ∈ dom (p_states a3)) as Hs3 by (by apply (g_states _ _ (ho_grow _ _ _ _ H3))).
    apply wp_bind. eapply wp_set_url; [exact H3|done|]. intros a4 H4 D4. eapply wp_on_httpc; [exact H4|..]; simpl.
    - intros l Hl. apply (wf_httpc _ (g_wf _ _ (ho_grow _ _ _ _ H4)) h c l); [by eapply holding_c|done].
    - intros s' [= <-]. by apply D4.
    - intros a5 H5 D5. eexists. split; [exact H5|]. intros l t E1 E2. eapply core_tx; [..|exact (Hc l t E1 E2)]; done. }
  intros [] a4 (c4 & H4 & Hc4). apply wp_bind, (wp_get_httpc h c4 a); [done|]. apply wp_bind. destruct (Extra c4).
  { apply wp_ret, wp_ret. exists c4. split; [done|]. intros _. exact Hc4. }
  eapply wp_attach; [|exact H4|].
  - intros w. unfold MaybeAttachAuto. destruct (_ || _); [done|]. destruct (MatchURL customHosts url) as [m ok]. destruct (negb ok); [done|].
    unfold NewLLMState. cbv zeta. split; [split; simpl; rewrite ?dom_insert_L; set_solver|]. split; [simpl; rewrite dom_insert_L; set_solver|done].
  - intros a5 x H5. apply wp_ret. eexists. split; [exact H5|]. intros _ l t E1 E2. eapply core_tx; [..|exact (Hc4 l t E1 E2)]; done.
Qed.
Lemma wp_StartLLM e ctx url a :
  wf a -> refs ctx ⊆ dom (p_heap a) -> pending_ok ctx a -> wp (StartLLM conf call_get customHosts url_Parse_Host e ctx url) a (started ctx a).
Proof.
  intros Hw Hr Hpe. unfold StartLLM. apply wp_bind. eapply wp_mono; [by apply wp_StartHttpcCall|]. intros h a1 (c & H & Hc).
  apply wp_bind, (wp_get_httpc h c a); [done|]. apply wp_bind. destruct (Extra c).
  { apply wp_ret, wp_ret. by exists c. }
  eapply wp_attach; [|exact H|].
  - intros w. unfold AttachForced. destruct (_ || _); [done|]. destruct (MatchURL customHosts url) as [m ok].
    unfold NewLLMState. cbv zeta. split; [split; simpl; rewrite ?dom_insert_L; set_solver|]. split; [simpl; rewrite dom_insert_L; set_solver|done].
  - intros a5 x H5. apply wp_ret. eexists. split; [exact H5|]. intros Ht l t E1 E2. eapply core_tx; [..|exact (Hc Ht l t E1 E2)]; done.
Qed.
(** What the end of a call leaves alone until it gives the context back. *)
Definition kept (a a' : App) : Prop := grow a a' /\ sqls a' = sqls a /\ httpcs a' = httpcs a.
Lemma kept_refl a : wf a -> kept a a.
Proof. intros Hw. split; [by apply grow_refl|done]. Qed.
Lemma kept_inst_trans a b c : kept a b -> kept b c -> kept a c.
Proof. intros (G1 & S1 & H1) (G2 & S2 & H2). split; [by eapply grow_trans|]. split; congruence. Qed.
Lemma kept_tc a l f : wf a -> kept a (a <| p_heap ::= alter f l |>).
Proof.
  intros [W1 W2 W3 W4 W5 W6 W7 W8 W9].
  assert (dom (alter f l (p_heap a)) = dom (p_heap a)) as Hd by apply dom_alter_L.
  split; [|done]. split; [|simpl; rewrite Hd; done|done]. split; try done; simpl; rewrite Hd; done.
Qed.
Lemma wp_end_llm e c h id elapsed status err a :
  wf a -> httpcs a !! h = Some c -> wp (end_llm conf e c id elapsed status err) a (fun _ => kept a).
Proof.
  intros Hw Hh. unfold end_llm. destruct (Extra c) as [s|] eqn:Es; [|by apply wp_ret, kept_refl].
  assert (s ∈ dom (p_states a)) as Hs by (by apply (wf_extra a Hw h c)).
  assert (forall l, h_ctx c = Some l -> l ∈ dom (p_heap a)) as Hc by (intros l; by apply (wf_httpc a Hw h c)).
  apply wp_bind. apply (wp_mono _ _ (fun _ => kept a)).
  { destruct (h_ctx c) as [l|]; [apply wp_modify; by apply kept_tc|by apply wp_ret, kept_refl]. }
  intros [] a1 H1. pose proof (g_wf _ _ (proj1 H1)) as W1. apply wp_on_state; [done|by apply H1|..].
  - intros x Hx. destruct (state_ok a1 s x W1 Hx) as [Hp Ho].
    assert (slot_in (h_ctx c) (p_llm a1)) as Hsl by (intros l Hl; apply (wf_slots a1 W1); apply H1; by apply Hc).
    destruct (HandleHttpcEnd_grow (LLMMode conf) (SystemNow e) x (p_llm a1) (h_txid c) (h_ctx c) id elapsed status (err_text <$> err) Hp Ho Hsl)
      as (x' & w' & -> & G & P & T). exists x', w'. split; [done|]. split; [done|]. split; [done|].
    destruct T as [-> | ->]; intros l Hl; apply G; [by apply Ho|by apply Hsl].
  - intros st w G. eapply kept_inst_trans; [exact H1|]. by split.
Qed.
Lemma wp_EndHttpcCall e h c status err a :
  wf a -> httpcs a !! h = Some c ->
  wp (EndHttpcCall conf INFO e (Some h) status err) a
    (fun _ a' => grow a a' /\ delete h (httpcs a) ⊆ httpcs a' /\ (traced -> httpcs a' = delete h (httpcs a))).
Proof.
  intros Hw Hh. unfold EndHttpcCall. destruct (traced_dec conf) as [Ht|E].
  2:{ rewrite E. apply wp_ret. split; [by apply grow_refl|]. split; [apply delete_subseteq|]. intros Ht. by rewrite (traced_guard _ Ht) in E. }
  rewrite (traced_guard _ Ht). apply wp_bind. pose proof Hh as [Hl _]%lookup_lent.
  unfold wp at 1, get_httpc. rewrite Hl. apply wp_bind, wp_GetAgentTraceContext; [intros l; by apply (wf_httpc a Hw h c)|]. intros x.
  apply wp_bind. apply (wp_mono _ _ (fun _ => kept a)).
  { destruct (h_step c) as [st|]; [|by apply wp_ret, kept_refl]. cbv zeta. apply wp_agent_call. intros v ag. split; [by apply grow_agent|done]. }
  intros id a1 H1. pose proof (g_wf _ _ (proj1 H1)) as W1. apply wp_bind.
  assert (httpcs a1 !! h = Some c) as Hh1 by (destruct H1 as (_ & _ & E1); by rewrite E1).
  eapply wp_mono; [by apply (wp_end_llm e c h)|]. intros [] a2 H2. pose proof (kept_inst_trans _ _ _ H1 H2) as H3.
  apply wp_bind, wp_modify, wp_ret. pose proof (g_wf _ _ (proj1 H3)) as W3. destruct H3 as (G3 & _ & E3).
  destruct (lent_close NewHttpcCtx (p_httpcs a2) h (wf_httpcs a2 W3)) as [K1 K2].
  change (a2 <| p_httpcs ::= pool_close NewHttpcCtx h |>) with (a2 <| p_httpcs := pool_close NewHttpcCtx h (p_httpcs a2) |>).
  set (p' := pool_close NewHttpcCtx h (p_httpcs a2)) in *.
  change (httpcs (a2 <| p_httpcs := p' |>)) with (lent p'). rewrite K1, E3. split; [|done].
  eapply grow_trans; [exact G3|]. destruct W3 as [V1 V2 V3 V4 V5 V6 V7 V8 V9]. split; [|done..].
  split; try done; intros h' c' y; change (p_httpcs (a2 <| p_httpcs := p' |>)) with p'; rewrite K1; intros [_ Hl']%lookup_delete_Some;
    [by eapply V5|by eapply V6].
Qed.
Lemma wp_GetMTrace_of e ctx a :
  wf a -> refs ctx ⊆ dom (p_heap a) ->
  wp (GetMTrace_of conf Next e ctx) a (fun hdr a' => kept a a' /\ p_states a' = p_states a /\
    (DISABLE (mt conf) = false -> forall l t, ctx ≫= g_whatap = Some l -> p_heap a !! l = Some t ->
      exists t', TraceCtx.GetMTrace (mt conf) Next (p_keys a) (Some t) = (hdr, Some t', S (p_keys a)) /\
        p_heap a' = <[l := t']> (p_heap a) /\ p_keys a' = S (p_keys a))).
Proof.
  intros Hw Hr. unfold GetMTrace_of. destruct (DISABLE (mt conf)) eqn:Ed; [by apply wp_ret|].
  assert (wp (tx_seen conf e ctx) a (fun tx a' => a' = a /\ (forall l t, tx = Some (l, t) -> p_heap a !! l = Some t) /\
    (forall l t, ctx ≫= g_whatap = Some l -> p_heap a !! l = Some t -> tx = Some (l, t)))) as H by (by apply wp_tx_seen_http).
  unfold tx_seen, wp, mbind, prog_bind in H. unfold wp, mbind, prog_bind.
  destruct (GetTraceContext conf e ctx a) as [a1 [[ctx' [l|]]|]]; [|..|done].
  - destruct (get_tc l a1) as [a2 [t|]]; [|done]. simpl in H. destruct H as (-> & H1 & H2).
    unfold gets. cbn [fst snd]. unfold TraceCtx.GetMTrace. rewrite Ed. unfold modify.
    pose proof (H1 l t eq_refl) as Hl. split.
    + destruct Hw as [W1 W2 W3 W4 W5 W6 W7 W8 W9].
      set (t' := set_values (t <| MStepId := Next (p_keys a) |>)).
      assert (dom (<[l := t']> (p_heap a)) = dom (p_heap a)) as Hd.
      { rewrite dom_insert_L. assert (l ∈ dom (p_heap a)) by (apply elem_of_dom; by exists t). set_solver. }
      split; [|done]. split; [|simpl; rewrite Hd; done|done]. split; try done; simpl; rewrite Hd; done.
    + split; [done|]. intros _ l' t' E1 E2. injection (H2 l' t' E1 E2) as <- <-. eexists. split; [reflexivity|done].
  - simpl in H. destruct H as (-> & H1 & H2). split; [by apply kept_refl|]. split; [done|]. intros _ l t E1 E2. by specialize (H2 l t E1 E2).
Qed.

(** * The round trip *)

Context {D Body Response : Type}.
Variable StatusCode : Response -> Z.
Variable clock : nat -> Env.
Variable DefaultTransport : transport_t (D := D) (Body := Body) (Response := Response).
Abbreviation HttpReq := (HttpReq Body).
Lemma ibind {A B} (m : iprog D A) (f : A -> iprog D B) i i' v : m i = (i', Some v) -> (m ≫= f) i = f v i'.
Proof. intros E. unfold mbind, iprog_bind. by rewrite E. Qed.

Definition put_all (keys : list bytes) (headers h : Header) : Header := foldl (fun h k => header_Set h k (header_Get headers k)) h keys.
Lemma set_headers_run keys headers (req : HttpReq) h (i : Inst D) :
  q_Header req = Some h -> set_headers keys headers req i = (i, Some (req <| q_Header := Some (put_all keys headers h) |>)).
Proof.
  revert req h. induction keys as [|k keys IH]; intros req h Hh.
  - simpl. unfold mret, iprog_ret. do 2 f_equal. destruct req. simpl in *. by rewrite Hh.
  - cbn [set_headers]. rewrite (ibind _ _ i i (req <| q_Header := Some (header_Set h k (header_Get headers k)) |>)).
    + rewrite (IH _ (header_Set h k (header_Get headers k))); [|done]. by destruct req.
    + unfold Header_Set. by rewrite Hh.
Qed.
Lemma header_Get_canonical h j k : canonical j = canonical k -> header_Get h j = header_Get h k.
Proof. unfold header_Get. by intros ->. Qed.
Lemma put_all_Get keys headers h j : canonical_keys h ->
  header_Get (put_all keys headers h) j = if decide (canonical j ∈ canonical <$> keys) then header_Get headers j else header_Get h j.
Proof.
  intros Hh. assert (forall ks h, canonical_keys h -> canonical_keys (put_all ks headers h)) as Hk.
  { induction ks as [|k ks IH]; intros h' H'; [done|]. simpl. by apply IH, header_Set_keys. }
  induction keys as [|k keys IH] using rev_ind; [done|]. unfold put_all. rewrite foldl_app. simpl. fold (put_all keys headers h).
  rewrite header_Get_Set by (by apply Hk). rewrite IH, fmap_app. simpl. destruct (decide (canonical j = canonical k)) as [E|E].
  - rewrite decide_True by (rewrite E; apply elem_of_app; right; by left). by apply header_Get_canonical.
  - destruct (decide (canonical j ∈ canonical <$> keys)) as [Hin|Hin].
    + rewrite decide_True; [done|]. apply elem_of_app. by left.
    + rewrite decide_False; [done|]. rewrite elem_of_app, list_elem_of_singleton. tauto.
Qed.
(** The keys of the headers that pass a transaction on. *)
Lemma header_Set_fst h k v j : j ∈ (header_Set h k v).*1 <-> j = canonical k \/ j ∈ h.*1.
Proof.
  unfold header_Set. rewrite fmap_app, elem_of_app. simpl. rewrite list_elem_of_singleton. split.
  - intros [(kv & -> & [_ Hin]%list_elem_of_filter)%list_elem_of_fmap|]; [right; by apply list_elem_of_fmap_2|by left].
  - intros [->|(kv & -> & Hin)%list_elem_of_fmap]; [by right|]. destruct (decide (kv.1 = canonical k)); [by right|left].
    apply list_elem_of_fmap_2. by apply list_elem_of_filter.
Qed.
Lemma mtrace_fst t n hdr t' n' : DISABLE (mt conf) = false -> TraceCtx.GetMTrace (mt conf) Next n (Some t) = (hdr, Some t', n') ->
  forall j, canonical j ∈ canonical <$> hdr.*1 <-> canonical j ∈ canonical <$> mtrace_keys (mt conf).
Proof.
  intros Hd. unfold TraceCtx.GetMTrace. rewrite Hd. intros [= <- _ _] j. rewrite !list_elem_of_fmap. split.
  - intros (k & E & Hk). rewrite !header_Set_fst in Hk. unfold mtrace_keys.
    destruct Hk as [->|[->|[->|[->|[]%elem_of_nil]]]]; rewrite canonical_idem in E; eexists; (split; [exact E|set_solver]).
  - intros (k & E & Hk). exists (canonical k). rewrite canonical_idem. split; [done|]. rewrite !header_Set_fst.
    unfold mtrace_keys in Hk. set_solver.
Qed.

(** What the transport is given. *)
Definition passed (hdr h0 h' : Header) : Prop :=
  forall j, header_Get h' j = if decide (canonical j ∈ canonical <$> mtrace_keys (mt conf)) then header_Get hdr j else header_Get h0 j.
Abbreviation round_trip := (RoundTrip StatusCode clock conf INFO Next call_get customHosts url_Parse_Host DefaultTransport).
Lemma start_call_wp (b : bool) e ctx url a :
  wf a -> refs ctx ⊆ dom (p_heap a) -> pending_ok ctx a ->
  wp (if b then StartLLM conf call_get customHosts url_Parse_Host e ctx url else StartHttpcCall conf call_get customHosts e ctx url) a (started ctx a).
Proof. intros. destruct b; [by apply wp_StartLLM|by apply wp_StartHttpcCall]. Qed.
Lemma run_agent {A} (m : prog A) (i : Inst D) (a : App) Q : i_app i = a -> wp m a Q ->
  exists v a', agent m i = (i <| i_app := a' |>, Some v) /\ Q v a'.
Proof. intros <-. unfold wp, agent. destruct (m (i_app i)) as [a' [v|]]; [|done]. intros H. by exists v, a'. Qed.
(** C14. A call of a client in a transaction: the transport gets the request once, with the
    headers that pass the transaction on and no other change, while a context is open that
    records the call of this transaction under the very step those headers name; the
    caller gets what the transport gave, errors and panics included, and if it returned
    the contexts of calls are those from before. *)
Theorem RoundTrip_linked (this : WrapRoundTrip) tr (req : HttpReq) h0 l t (i : Inst D) :
  traced -> mtrace_on (mt conf) -> wf (i_app i) -> pending_ok (Some (q_Context req)) (i_app i) ->
  g_whatap (q_Context req) = Some l -> p_heap (i_app i) !! l = Some t ->
  q_Header req = Some h0 -> canonical_keys h0 -> transport this = Some (fun r => library (tr r)) ->
  exists hdr t' h' i1 h c,
    let req' := req <| q_Header := Some h' |> in
    TraceCtx.GetMTrace (mt conf) Next (p_keys (i_app i)) (Some t) = (hdr, Some t', S (p_keys (i_app i))) /\ passed hdr h0 h' /\
    i_lib i1 = i_lib i /\ httpcs (i_app i1) = <[h := c]> (httpcs (i_app i)) /\ of_tx l t' c /\
    round_trip this req i =
      (x ← library (tr req'); end_call StatusCode clock conf INFO h x;; mret (this, req', x)) i1 /\
    let '(d, r) := tr req' (i_lib i) in
    let '(i', r') := round_trip this req i in
    i_lib i' = d /\ wf (i_app i') /\ r' = (fun x => (this, req', x)) <$> r /\
    httpcs (i_app i') = match r with Some _ => httpcs (i_app i) | None => httpcs (i_app i1) end.
Proof.
  intros Ht Hm Hw Hp Hl Hh Hq H0 Htr. set (ctx := Some (q_Context req)).
  assert (refs ctx ⊆ dom (p_heap (i_app i))) as Hr.
  { unfold refs, ctx. simpl. rewrite Hl. apply singleton_subseteq_l, elem_of_dom. by exists t. }
  unfold RoundTrip. rewrite Htr. cbn [default from_option id]. rewrite (proj1 Ht), (proj2 Ht). cbn [negb].
  replace (this <| transport := Some _ |>) with this by (destruct this as [x y z]; simpl in Htr; by rewrite Htr).
  set (i0 := i <| i_time ::= S |>).
  assert (selectContext clock conf [ctx; rt_ctx this] i = (i0, Some ctx)) as Esel.
  { unfold selectContext. cbn [head default from_option select_from]. rewrite (ibind _ _ i i0 (clock (i_time i))) by done.
    rewrite (ibind _ _ i0 i0 (ctx, Some l)); [done|]. unfold agent, GetTraceContext, gets, ctx.
    destruct (q_Context req) as [w p]. simpl in Hl. subst w. reflexivity. }
  rewrite (ibind _ _ _ _ _ Esel). unfold set_mtrace. rewrite (proj1 (proj2 Hm)).
  set (i2 := i0 <| i_time ::= S |>). destruct (run_agent (GetMTrace_of conf Next (clock (i_time i0)) ctx) i2 (i_app i) _ eq_refl
    (wp_GetMTrace_of (clock (i_time i0)) ctx (i_app i) Hw Hr)) as (hdr & a3 & E3 & (G3 & S3 & K3) & T3 & M3).
  destruct (M3 (proj1 Ht) l t Hl Hh) as (t' & EM & Hh3 & _).
  set (i3 := i2 <| i_app := a3 |>). set (h' := put_all hdr.*1 hdr h0). set (req' := req <| q_Header := Some h' |>).
  rewrite (ibind _ _ i0 i3 req').
  2:{ rewrite (ibind _ _ i0 i2 (clock (i_time i0))) by done. rewrite (ibind _ _ i2 i3 hdr) by exact E3. by apply set_headers_run. }
  set (i4 := i3 <| i_time ::= S |>). rewrite (ibind _ _ i3 i4 (clock (i_time i3))) by done.
  assert (q_URL req' = q_URL req) as -> by done.
  destruct (run_agent _ i4 a3 _ eq_refl (start_call_wp (llmMark this) (clock (i_time i3)) ctx (q_URL req) a3 (g_wf _ _ G3)
    ltac:(etrans; [exact Hr|apply G3]) ltac:(intros g s E Hin; rewrite T3; by apply (Hp g s)))) as (h & a5 & E5 & c & Hc & Htx).
  set (i5 := i4 <| i_app := a5 |>). rewrite (ibind _ _ i4 i5 h) by exact E5.
  exists hdr, t', h', i5, h, c. split; [exact EM|]. split.
  { intros j. unfold h'. rewrite put_all_Get by done. pose proof (mtrace_fst _ _ _ _ _ (proj1 Ht) EM j).
    destruct (decide _) as [H1|H1], (decide _) as [H2|H2]; tauto. }
  split; [done|]. assert (httpcs a5 = <[h := c]> (httpcs (i_app i))) as Ha5 by (by rewrite (ho_httpcs _ _ _ _ Hc), K3).
  assert (httpcs (i_app i) !! h = None) as Hn by (rewrite <- K3; apply Hc).
  split; [exact Ha5|]. split; [apply (Htx Ht); [exact Hl|by rewrite Hh3, lookup_insert_eq]|]. split; [done|]. fold req'.
  pose proof (g_wf _ _ (ho_grow _ _ _ _ Hc)) as W5.
  unfold mbind at 1, iprog_bind at 1, library. change (i_lib i5) with (i_lib i). destruct (tr req' (i_lib i)) as [d [x|]].
  2:{ split; [done|]. split; [exact W5|]. done. }
  set (i6 := i5 <| i_lib := d |>). set (i7 := i6 <| i_time ::= S |>). set (e := clock (i_time i6)).
  assert (httpcs a5 !! h = Some c) as Hc5 by (rewrite Ha5; apply lookup_insert_eq).
  destruct (run_agent _ i7 a5 _ eq_refl (wp_EndHttpcCall e h c (match x.1 with Some res => StatusCode res | None => (-1)%Z end) x.2 a5 W5 Hc5))
    as (v & a8 & E8 & G8 & _ & D8).
  unfold end_call, mbind, iprog_bind, tick. fold i7. fold e. rewrite E8. simpl.
  split; [done|]. split; [apply G8|]. split; [done|]. rewrite (D8 Ht), Ha5, delete_insert_eq. by apply delete_id.
Qed.
End Calls.

(** * A call in a transaction *)

Module Trip.
Import TraceSamples Session.
Abbreviation Req := (HttpReq unit).
Definition tr1 (r : Req) (d : list Req) : list Req * option (answer Z) := (d ++ [r], Some (Some 200%Z, None)).
Definition trip1 : WrapRoundTrip := NewRoundTrip (Some Background) (Some (fun r => library (tr1 r))).
Definition req1 : Req := mkReq (mkGo (Some 0) []) (str "GET") (str "http://stock/items") (Some [(str "Accept", [str "text/plain"])]) None.
Definition inst2 : Inst (list Req) := mkInst appstate2 [] 0.
Definition go1 (r : WrapRoundTrip) (q : Req) := RoundTrip id clock1 appconf1 20 next1 head [] (fun _ => None) (fun r => library (tr1 r)) r q.
Lemma mtrace_on1 : mtrace_on (mt appconf1).
Proof. split; [done|]. split; [done|]. apply (bool_decide_unpack _). by vm_compute. Qed.
(** The server is told the transaction and the step; what it asked for stays. *)
Lemma RoundTrip_linked_witness :
  exists hdr h', i_lib (go1 trip1 req1 inst2).1 = [req1 <| q_Header := Some h' |>] /\
    header_Get h' (str "x-wtap-mst") = header_Get hdr (str "x-wtap-mst") /\ header_Get h' (str "Accept") = str "text/plain" /\
    (snd <$> (go1 trip1 req1 inst2).2) = Some (Some 200%Z, None).
Proof.
  destruct (RoundTrip_linked appconf1 20 [] (fun _ => None) next1 head head_in_inst id clock1 (fun r => library (tr1 r)) trip1 tr1 req1
    [(str "Accept", [str "text/plain"])] 0 (default NewTraceCtx (p_heap appstate2 !! 0)) inst2 (conj eq_refl eq_refl) mtrace_on1 appstate2_wf)
    as (hdr & t' & h' & i1 & h & c & _ & Hp & Hi & _ & _ & _ & H).
  - intros g s [= <-] Hs. by apply elem_of_nil in Hs.
  - reflexivity.
  - vm_compute. reflexivity.
  - reflexivity.
  - apply List.Forall_cons; [vm_compute; reflexivity|apply List.Forall_nil].
  - reflexivity.
  - exists hdr, h'. unfold go1. destruct (RoundTrip _ _ _ _ _ _ _ _ _ _ _ inst2) as [i' r']. cbn in H. destruct H as (H1 & _ & -> & _).
    split; [exact H1|]. split; [rewrite (Hp (str "x-wtap-mst")); by vm_compute|]. split; [rewrite (Hp (str "Accept")); by vm_compute|done].
Defined.
End Trip.
