(* ===== verification/Conf.v ===== *)
(** The settings of the agent: [src/agent/agent/config].

    [Config] is the struct with its embedded parts ([ConfLLM], [ConfStat], ...); a field is
    a constructor of an enumeration, one for each Go type, so that the struct is a
    function of its fields.  A function that assigns fields is a list of statements
    ([stmt]) over expressions that read the struct, the environment and the file.  Then
    the functions that read one setting.

    The file of settings is a value of the package [properties] and the sets are
    golib's: both are parameters, as are [strconv.ParseFloat] and golib's numbers of the
    kinds of agent. *)

From Stdlib Require Import SpecFloat.
From S2P Require Import Prelude UrlPattern TraceCtx.

(** * Enumerations *)

Fixpoint position {A} (eqb : A -> A -> bool) (l : list A) (x : A) : nat :=
  match l with [] => 0 | y :: l => if eqb x y then 0 else S (position eqb l x) end.
(** An enumeration is decided by the positions in the list of its constructors. *)
Lemma enum_dec {A} (eqb : A -> A -> bool) (l : list A) :
  (forall x, l !! position eqb l x = Some x) -> EqDecision A.
Proof.
  intros Hl x y. destruct (decide (position eqb l x = position eqb l y)) as [E|E]; [left|right; congruence].
  apply (inj Some). by rewrite <- (Hl x), <- (Hl y), E.
Defined.

(** * The fields, by their types

    [bool]; the integers; [string]; [[]string]; [float32]; [*hmap.IntSet];
    [*hmap.StringSet].  The last two of the booleans and of the integers are the variables
    of [logutil] that [apply] sets. *)

Module Fields.
Inductive bfield :=
  | UseEnvFirst | Shutdown | ExitWithParentProcessEnabled | Enabled | Debug | TransactionEnabled |
  CounterEnabled | CounterEnabledTranx_ | CounterEnabledAct_ | CounterEnabledUser_ | CounterEnabledHttpc_ |
  CounterEnabledSql_ | CounterEnabledAgentInfo_ | CounterEnabledHeap_ | CounterEnabledProc_ |
  CounterEnabledPackVer_ | CounterEnabledSysPerfKube_ | CounterEnabledSysPerf_ | CounterEnabledActiveStats_ |
  CounterEnabledDBPool_ | CounterLogEnabled | RealtimeUserEnabled | ActiveStackEnabled | NetWriteLockEnabled |
  UdpFlushStart | UdpFlushEnd | UdpFlushError | UdpProfileBaseTimeEnabled | UdpTraceIgnoreTimeEnabled |
  QueueLogEnabled | QueueYieldEnabled | QueueUdpEnabled | QueueControlEnabled | ProfileHttpHeaderEnabled |
  ProfileHttpParameterEnabled | ProfileConnectionOpenEnabled | ProfileDbcClose | ProfileSqlParamEnabled |
  ProfileSqlCommentEnabled | ProfileSqlResourceEnabled | ProfileMethodResourceEnabled |
  ProfileHttpcResourceEnabled | ProfileHttpHostEnabled | TraceUserEnabled | TraceUserUsingIp |
  TraceUserHeaderTicketEnabled | TraceUserSetCookie | TraceHttpClientIpHeaderKeyEnabled |
  TraceAutoTransactionEnabled | TraceAutoTransactionBackstackEnabled | TraceBackgroundSocketEnabled |
  TraceDbcLeakEnabled | TraceDbcLeakFullstackEnabled | DebugDbcStackEnabled | TraceNormalizeEnabled |
  TraceAutoNormalizeEnabled | TraceHttpcNormalizeEnabled | TraceSqlNormalizeEnabled | TraceUserAgentEnabled |
  TraceRefererEnabled | LogRotationEnabled | LogStdoutEnabled | ActiveStackZipEnabled | CounterProcfdEnabled |
  CounterNetstatEnabled | DetectDeadlockEnabled | AutoOnameEnabled | QueryStringEnabled | ErrorSnapEnabled |
  MtraceEnabled | MtraceAutoInjectEnabled | MtraceCalleeTxidEnabled | MeterSelfEnabled | TxCallerMeterEnabled
  | TxCallerMeterPKindEnabled | SqlDbcMeterEnabled | HttpcHostMeterEnabled | ActxMeterEnabled |
  TpsAvg30Enabled | TagCounterEnabled | TelegrafEnabled | EnableBizExceptions_ | EnableIgnoreExceptions_ |
  IsTraceIgnoreUrlPrefix | HitMapVerEventEnabled | HitMapVerEventErrorOnly | HitMapHorizEventEnabled |
  HitMapHorizEventErrorOnly | PProfEnabled | PProfCpuEnabled | PProfHttpEnabled | WmiEnabled |
  NativeAPIEnabled | ProcessFallback | ActiveStatEnabled | ActiveStatLogEnabled | ShmEnabled |
  ShmSendMetricsEnabled | ShmTxCounterEnabled | ExtErrorEnabled | ExtExceptionEnabled | ProfileMethodEnabled |
  ProfileMethodStackEnabled | ProfileInternalMethodEnabled | ProfileInternalMethodParamEnabled |
  ProfileCompileFileEnabled | ProfileSessionEnabled | WhatapMicroEnabled | PerfCounterEnabled |
  ServerProcessFDCheck | UnixSocketEnabled | ProfileCurlReturnEnabled | ProfileCurlErrorInfoEnabled |
  ProfileCurlErrorIgnoreEmpty | ProfileMysqlReturnEnabled | ProfileMysqlErrorInfoEnabled |
  ProfileMysqlErrorIgnoreEmpty | ProfileMysqliReturnEnabled | ProfileMysqliErrorInfoEnabled |
  ProfileMysqliErrorIgnoreEmpty | ProfilePDOReturnEnabled | ProfilePDOErrorInfoEnabled |
  ProfilePDOErrorIgnoreEmpty | ProfilePgsqlReturnEnabled | ProfilePgsqlErrorInfoEnabled |
  ProfilePgsqlErrorIgnoreEmpty | ProfileOci8ReturnEnabled | ProfileOci8ErrorInfoEnabled |
  ProfileOci8ErrorIgnoreEmpty | ProfileMssqlReturnEnabled | ProfileMssqlErrorInfoEnabled |
  ProfileMssqlErrorIgnoreEmpty | ProfileSqlsrvReturnEnabled | ProfileSqlsrvErrorInfoEnabled |
  ProfileSqlsrvErrorIgnoreEmpty | ProfileRedisReturnEnabled | ProfileRedisErrorInfoEnabled |
  ProfileRedisErrorIgnoreEmpty | ProfileCubridReturnEnabled | ProfileCubridErrorInfoEnabled |
  ProfileCubridErrorIgnoreEmpty | ProfileOdbcReturnEnabled | ProfileOdbcErrorInfoEnabled |
  ProfileOdbcErrorIgnoreEmpty | DebugTcpSendEnabled | DebugTcpSendTimeSyncEnabled | DebugTcpReadEnabled |
  DebugCounterEnabled | DebugControlEnabled | DebugUdpEnabled | DebugShmEnabled | DebugTxCounterEnabled |
  TraceDaemonEnabled | TraceCLIEnabled | NvidiasmiEnabled | PidLockEnabled | MeteringUseLinuxUUIDEnabled |
  AppContextEnabled | LLMMode | StatEnabled | StatZipEnabled | Stat1MEnabled | StatIpEnabled |
  StatIPURLEnabled | StatDomainEnabled | StatMtraceEnabled | StatLoginEnabled | StatRefererEnabled |
  TxStatusMeterEnabled | StatTxStatusEnabled | WatchLogEnabled | LogSinkEnabled | DebugLogSinkEnabled |
  LogSinkLimitContentEnabled | DebugLogSinkLimitContentEnabled | LogsinkLimitContentAlertEnabled |
  LogSinkZipEnabled | DebugLogSinkZipEnabled | LogSinkStdOutEnabled | LogSinkStdErrEnabled | LogSinkFmtEnabled
  | HasLogSinkTags_ | LogSinkRtEnabled | LogSinkRtDbcOkEnabled | LogSinkRtDbcErrorEnabled |
  LogSinkRtHttpcOkEnabled | LogSinkRtHttpcErrorEnabled | LogSinkRtSocketEnabled | LogSinkTraceEnabled |
  LogSinkTraceTxidEnabled | LogSinkTraceMtidEnabled | LogSinkTraceLoginEnabled | LogSinkTraceHttpHostEnabled |
  LogSinkHighSecureEnabled | NetFailoverRetrySendDataEnabled | NetFailoverRetryCounterPackEnabled |
  DebugTcpFailoverEnabled | GoSqlProfileEnabled | GoCounterEnabled | GoRecoverEnabled |
  GoUseGoroutineIDEnabled | GoGrpcProfileEnabled | GoGrpcProfileStreamClientEnabled |
  GoGrpcProfileStreamServerEnabled | GoGrpcProfileStreamIdentify | ProfileMissingTxidEnabled |
  ProfileMissingTxidLogEnabled | DebugProfileMissingTxidEnabled | FowarderEnabled | DebugFowarderEnalbed |
  TraceZipEnabled | CircularProfileEnabled | LargeProfileEnabled | SplitProfileEnabled | DebugTraceZipEnabled
  | TxTextTxnameEnabled | TxTextErrorEnabled | TraceStatusErrorEnable | HttpStatusErrorEnabled |
  HasHttpcStatusURLIgnoreSet | HasHttpcStatusURLAlertIgnoreSet | HasHttpcStatusHostIgnoreSet |
  logutil_LogRotationEnabled | logutil_LogStdoutEnabled.
Definition bfields : list bfield :=
  [UseEnvFirst; Shutdown; ExitWithParentProcessEnabled; Enabled; Debug; TransactionEnabled; CounterEnabled;
  CounterEnabledTranx_; CounterEnabledAct_; CounterEnabledUser_; CounterEnabledHttpc_; CounterEnabledSql_;
  CounterEnabledAgentInfo_; CounterEnabledHeap_; CounterEnabledProc_; CounterEnabledPackVer_;
  CounterEnabledSysPerfKube_; CounterEnabledSysPerf_; CounterEnabledActiveStats_; CounterEnabledDBPool_;
  CounterLogEnabled; RealtimeUserEnabled; ActiveStackEnabled; NetWriteLockEnabled; UdpFlushStart; UdpFlushEnd;
  UdpFlushError; UdpProfileBaseTimeEnabled; UdpTraceIgnoreTimeEnabled; QueueLogEnabled; QueueYieldEnabled;
  QueueUdpEnabled; QueueControlEnabled; ProfileHttpHeaderEnabled; ProfileHttpParameterEnabled;
  ProfileConnectionOpenEnabled; ProfileDbcClose; ProfileSqlParamEnabled; ProfileSqlCommentEnabled;
  ProfileSqlResourceEnabled; ProfileMethodResourceEnabled; ProfileHttpcResourceEnabled;
  ProfileHttpHostEnabled; TraceUserEnabled; TraceUserUsingIp; TraceUserHeaderTicketEnabled;
  TraceUserSetCookie; TraceHttpClientIpHeaderKeyEnabled; TraceAutoTransactionEnabled;
  TraceAutoTransactionBackstackEnabled; TraceBackgroundSocketEnabled; TraceDbcLeakEnabled;
  TraceDbcLeakFullstackEnabled; DebugDbcStackEnabled; TraceNormalizeEnabled; TraceAutoNormalizeEnabled;
  TraceHttpcNormalizeEnabled; TraceSqlNormalizeEnabled; TraceUserAgentEnabled; TraceRefererEnabled;
  LogRotationEnabled; LogStdoutEnabled; ActiveStackZipEnabled; CounterProcfdEnabled; CounterNetstatEnabled;
  DetectDeadlockEnabled; AutoOnameEnabled; QueryStringEnabled; ErrorSnapEnabled; MtraceEnabled;
  MtraceAutoInjectEnabled; MtraceCalleeTxidEnabled; MeterSelfEnabled; TxCallerMeterEnabled;
  TxCallerMeterPKindEnabled; SqlDbcMeterEnabled; HttpcHostMeterEnabled; ActxMeterEnabled; TpsAvg30Enabled;
  TagCounterEnabled; TelegrafEnabled; EnableBizExceptions_; EnableIgnoreExceptions_; IsTraceIgnoreUrlPrefix;
  HitMapVerEventEnabled; HitMapVerEventErrorOnly; HitMapHorizEventEnabled; HitMapHorizEventErrorOnly;
  PProfEnabled; PProfCpuEnabled; PProfHttpEnabled; WmiEnabled; NativeAPIEnabled; ProcessFallback;
  ActiveStatEnabled; ActiveStatLogEnabled; ShmEnabled; ShmSendMetricsEnabled; ShmTxCounterEnabled;
  ExtErrorEnabled; ExtExceptionEnabled; ProfileMethodEnabled; ProfileMethodStackEnabled;
  ProfileInternalMethodEnabled; ProfileInternalMethodParamEnabled; ProfileCompileFileEnabled;
  ProfileSessionEnabled; WhatapMicroEnabled; PerfCounterEnabled; ServerProcessFDCheck; UnixSocketEnabled;
  ProfileCurlReturnEnabled; ProfileCurlErrorInfoEnabled; ProfileCurlErrorIgnoreEmpty;
  ProfileMysqlReturnEnabled; ProfileMysqlErrorInfoEnabled; ProfileMysqlErrorIgnoreEmpty;
  ProfileMysqliReturnEnabled; ProfileMysqliErrorInfoEnabled; ProfileMysqliErrorIgnoreEmpty;
  ProfilePDOReturnEnabled; ProfilePDOErrorInfoEnabled; ProfilePDOErrorIgnoreEmpty; ProfilePgsqlReturnEnabled;
  ProfilePgsqlErrorInfoEnabled; ProfilePgsqlErrorIgnoreEmpty; ProfileOci8ReturnEnabled;
  ProfileOci8ErrorInfoEnabled; ProfileOci8ErrorIgnoreEmpty; ProfileMssqlReturnEnabled;
  ProfileMssqlErrorInfoEnabled; ProfileMssqlErrorIgnoreEmpty; ProfileSqlsrvReturnEnabled;
  ProfileSqlsrvErrorInfoEnabled; ProfileSqlsrvErrorIgnoreEmpty; ProfileRedisReturnEnabled;
  ProfileRedisErrorInfoEnabled; ProfileRedisErrorIgnoreEmpty; ProfileCubridReturnEnabled;
  ProfileCubridErrorInfoEnabled; ProfileCubridErrorIgnoreEmpty; ProfileOdbcReturnEnabled;
  ProfileOdbcErrorInfoEnabled; ProfileOdbcErrorIgnoreEmpty; DebugTcpSendEnabled; DebugTcpSendTimeSyncEnabled;
  DebugTcpReadEnabled; DebugCounterEnabled; DebugControlEnabled; DebugUdpEnabled; DebugShmEnabled;
  DebugTxCounterEnabled; TraceDaemonEnabled; TraceCLIEnabled; NvidiasmiEnabled; PidLockEnabled;
  MeteringUseLinuxUUIDEnabled; AppContextEnabled; LLMMode; StatEnabled; StatZipEnabled; Stat1MEnabled;
  StatIpEnabled; StatIPURLEnabled; StatDomainEnabled; StatMtraceEnabled; StatLoginEnabled; StatRefererEnabled;
  TxStatusMeterEnabled; StatTxStatusEnabled; WatchLogEnabled; LogSinkEnabled; DebugLogSinkEnabled;
  LogSinkLimitContentEnabled; DebugLogSinkLimitContentEnabled; LogsinkLimitContentAlertEnabled;
  LogSinkZipEnabled; DebugLogSinkZipEnabled; LogSinkStdOutEnabled; LogSinkStdErrEnabled; LogSinkFmtEnabled;
  HasLogSinkTags_; LogSinkRtEnabled; LogSinkRtDbcOkEnabled; LogSinkRtDbcErrorEnabled; LogSinkRtHttpcOkEnabled;
  LogSinkRtHttpcErrorEnabled; LogSinkRtSocketEnabled; LogSinkTraceEnabled; LogSinkTraceTxidEnabled;
  LogSinkTraceMtidEnabled; LogSinkTraceLoginEnabled; LogSinkTraceHttpHostEnabled; LogSinkHighSecureEnabled;
  NetFailoverRetrySendDataEnabled; NetFailoverRetryCounterPackEnabled; DebugTcpFailoverEnabled;
  GoSqlProfileEnabled; GoCounterEnabled; GoRecoverEnabled; GoUseGoroutineIDEnabled; GoGrpcProfileEnabled;
  GoGrpcProfileStreamClientEnabled; GoGrpcProfileStreamServerEnabled; GoGrpcProfileStreamIdentify;
  ProfileMissingTxidEnabled; ProfileMissingTxidLogEnabled; DebugProfileMissingTxidEnabled; FowarderEnabled;
  DebugFowarderEnalbed; TraceZipEnabled; CircularProfileEnabled; LargeProfileEnabled; SplitProfileEnabled;
  DebugTraceZipEnabled; TxTextTxnameEnabled; TxTextErrorEnabled; TraceStatusErrorEnable;
  HttpStatusErrorEnabled; HasHttpcStatusURLIgnoreSet; HasHttpcStatusURLAlertIgnoreSet;
  HasHttpcStatusHostIgnoreSet; logutil_LogRotationEnabled; logutil_LogStdoutEnabled].
Scheme Boolean Equality for bfield.
Lemma bfields_all f : bfields !! position bfield_beq bfields f = Some f.
Proof. by destruct f. Qed.
#[export] Instance bfield_dec : EqDecision bfield := enum_dec _ _ bfields_all.
Inductive ifield :=
  | PCODE | OID | OKIND | ONODE | WhatapPort | AppType | CounterVersion | CounterTimeout | CypherLevel |
  EncryptLevel | CountInterval | TcpSoTimeout | TcpSoSendTimeout | TcpConnectionTimeout | NetSendMaxBytes |
  NetSendBufferSize | NetWriteBufferSize | NetSendQueue1Size | NetSendQueue2Size | NetUdpPort |
  NetUdpReadBytes | UdpProfileBaseTime | UdpTraceIgnoreTime | QueueTcpSenderThreadCount | QueueUdpSize |
  QueueUdpOverflowedSize | QueueUdpReadThreadCount | QueueUdpProcessThreadCount | QueueProfileSize |
  QueueProfileProcessThreadCount | QueueTextSize | QueueTextProcessThreadCount | QueueControlSize |
  QueueControlProcessThreadCount | TxMaxCount | TxDefaultCapacity | ProfileStepNormalCount |
  ProfileStepHeavyCount | ProfileStepMaxCount | ProfileStepHeavyTime | ProfileBasetime |
  ProfilePositionSqlHash | ProfilePositionHttpcHash | ProfilePositionMethodHash | ProfilePositionDepth |
  ProfileErrorSqlFetchMax | ProfileErrorSqlTimeMax | TraceUserCookieLimit | TraceUserUsingType |
  TraceErrorCallstackDepth | TraceActiveCallstackDepth | TraceActiveTransactionSlowTime |
  TraceActiveTransactionVerySlowTime | TraceActiveTransactionLostTime | TraceGtxRate | LogKeepDays |
  LogInterval | HookSignature | ActiveStackSecond | RealtimeUserThinktimeMax | TimeSyncIntervalMs | TextReset
  | AutoOnameReset | MtraceRate | MtraceSendUrlLength | MtraceSpecHash | MeterSelfInterval |
  MeterSelfBufferMax | MeterSelfBufferMin | TagCountInterval | TelegrafMaxSize | TelegrafTcpPort |
  TelegrafTcpSoTimeout | HitMapVerEventDuration | HitMapVerEventWarningPercent | HitMapVerEventFatalPercent |
  HitMapVerEventInterval | HitMapHorizEventBasetime | HitMapHorizEventDuration | HitMapHorizEventInterval |
  PProfInterval | ActiveStatResetInterval | ActiveStatResetIntervalByActiveTxCount |
  ActiveStatResetRateByActiveTxCount | ShmKey | ProfileMethodTime | ProfileInternalMethodTime |
  ProfileCompileFileBasetime | MasterAgentPort | LogCoolTime | PerformanceCounterInterval |
  ActiveStatsResetDuration | ApdexTime | ApdexTime4T | ActiveStackCount | DebugGCPercent | DebugGCPercentLast
  | AppContextParserReset | AppContextPathDepth | StatIPURLMaxCount | StatDomainMaxCount | StatMtraceMaxCount
  | StatLoginMaxCount | StatRefererMaxCount | StatRefererFormat | StatTxMaxCount | StatSqlMaxCount |
  StatHttpcMaxCount | StatErrorMaxCount | StatUseragentMaxCount | StatTxStatusMaxCount | WatchLogCheckInterval
  | WatchLogReadCount | WatchLogBufferSize | WatchLogLineSize | WatchLogSendCount | LogSinkQueueSize |
  LogSinkLineSize | LogSinkLimitContentLogSilentTime | LogSinkLimitContentAlertSilentTime |
  LogSinkLimitContentLength | DebugLogSinkLineLimit | LogSinkInterval | LogSinkMaxBufferSize |
  LogSinkMaxWaitTime | LogSinkZipMinSize | LogSendThreshold | LogSinkStopInterval | LogSinkRtErrorInterval |
  LogSinkRtOkInterval | DebugCloseTcp | GoCounterInterval | GoCounterTimeout | GoGrpcProfileStreamRate |
  ProfileMissingTxidMaxTime | ProfileMissingTxidInterval | NetIPCPort | TraceZipQueueSize |
  TraceZipMaxWaitTime | TraceZipMaxWait2Time | TraceZipMaxBufferSize | TraceZipMinSize | TraceTxSplitQueueSize
  | TraceStepNormalCount | TraceStepHeavyCount | TraceStepMaxCount | TraceStepHeavyTime |
  InternalTraceCollectingMode | DebugTraceZipInterval | TxTextErrorLength | TraceStatusErrorMode |
  HttpStatusErrorMode | logutil_LogKeepDays | logutil_LogInterval.
Definition ifields : list ifield :=
  [PCODE; OID; OKIND; ONODE; WhatapPort; AppType; CounterVersion; CounterTimeout; CypherLevel; EncryptLevel;
  CountInterval; TcpSoTimeout; TcpSoSendTimeout; TcpConnectionTimeout; NetSendMaxBytes; NetSendBufferSize;
  NetWriteBufferSize; NetSendQueue1Size; NetSendQueue2Size; NetUdpPort; NetUdpReadBytes; UdpProfileBaseTime;
  UdpTraceIgnoreTime; QueueTcpSenderThreadCount; QueueUdpSize; QueueUdpOverflowedSize;
  QueueUdpReadThreadCount; QueueUdpProcessThreadCount; QueueProfileSize; QueueProfileProcessThreadCount;
  QueueTextSize; QueueTextProcessThreadCount; QueueControlSize; QueueControlProcessThreadCount; TxMaxCount;
  TxDefaultCapacity; ProfileStepNormalCount; ProfileStepHeavyCount; ProfileStepMaxCount; ProfileStepHeavyTime;
  ProfileBasetime; ProfilePositionSqlHash; ProfilePositionHttpcHash; ProfilePositionMethodHash;
  ProfilePositionDepth; ProfileErrorSqlFetchMax; ProfileErrorSqlTimeMax; TraceUserCookieLimit;
  TraceUserUsingType; TraceErrorCallstackDepth; TraceActiveCallstackDepth; TraceActiveTransactionSlowTime;
  TraceActiveTransactionVerySlowTime; TraceActiveTransactionLostTime; TraceGtxRate; LogKeepDays; LogInterval;
  HookSignature; ActiveStackSecond; RealtimeUserThinktimeMax; TimeSyncIntervalMs; TextReset; AutoOnameReset;
  MtraceRate; MtraceSendUrlLength; MtraceSpecHash; MeterSelfInterval; MeterSelfBufferMax; MeterSelfBufferMin;
  TagCountInterval; TelegrafMaxSize; TelegrafTcpPort; TelegrafTcpSoTimeout; HitMapVerEventDuration;
  HitMapVerEventWarningPercent; HitMapVerEventFatalPercent; HitMapVerEventInterval; HitMapHorizEventBasetime;
  HitMapHorizEventDuration; HitMapHorizEventInterval; PProfInterval; ActiveStatResetInterval;
  ActiveStatResetIntervalByActiveTxCount; ActiveStatResetRateByActiveTxCount; ShmKey; ProfileMethodTime;
  ProfileInternalMethodTime; ProfileCompileFileBasetime; MasterAgentPort; LogCoolTime;
  PerformanceCounterInterval; ActiveStatsResetDuration; ApdexTime; ApdexTime4T; ActiveStackCount;
  DebugGCPercent; DebugGCPercentLast; AppContextParserReset; AppContextPathDepth; StatIPURLMaxCount;
  StatDomainMaxCount; StatMtraceMaxCount; StatLoginMaxCount; StatRefererMaxCount; StatRefererFormat;
  StatTxMaxCount; StatSqlMaxCount; StatHttpcMaxCount; StatErrorMaxCount; StatUseragentMaxCount;
  StatTxStatusMaxCount; WatchLogCheckInterval; WatchLogReadCount; WatchLogBufferSize; WatchLogLineSize;
  WatchLogSendCount; LogSinkQueueSize; LogSinkLineSize; LogSinkLimitContentLogSilentTime;
  LogSinkLimitContentAlertSilentTime; LogSinkLimitContentLength; DebugLogSinkLineLimit; LogSinkInterval;
  LogSinkMaxBufferSize; LogSinkMaxWaitTime; LogSinkZipMinSize; LogSendThreshold; LogSinkStopInterval;
  LogSinkRtErrorInterval; LogSinkRtOkInterval; DebugCloseTcp; GoCounterInterval; GoCounterTimeout;
  GoGrpcProfileStreamRate; ProfileMissingTxidMaxTime; ProfileMissingTxidInterval; NetIPCPort;
  TraceZipQueueSize; TraceZipMaxWaitTime; TraceZipMaxWait2Time; TraceZipMaxBufferSize; TraceZipMinSize;
  TraceTxSplitQueueSize; TraceStepNormalCount; TraceStepHeavyCount; TraceStepMaxCount; TraceStepHeavyTime;
  InternalTraceCollectingMode; DebugTraceZipInterval; TxTextErrorLength; TraceStatusErrorMode;
  HttpStatusErrorMode; logutil_LogKeepDays; logutil_LogInterval].
Scheme Boolean Equality for ifield.
Lemma ifields_all f : ifields !! position ifield_beq ifields f = Some f.
Proof. by destruct f. Qed.
#[export] Instance ifield_dec : EqDecision ifield := enum_dec _ _ ifields_all.
Inductive sfield :=
  | OKIND_NAME | ONODE_NAME | License | AccessKey | ObjectName | AppName | AppProcessName |
  ApacheServerStatusUrl | NginxServerStatusUrl | FpmServerStatusUrl | NetUdpHost | ProfileHttpHeaderUrlPrefix
  | ProfileHttpParameterUrlPrefix | ProfilePositionSql | ProfilePositionHttpc | ProfilePositionMethod |
  TraceUserHeaderTicket | TraceHttpClientIpHeaderKey | TraceTransactionNameHeaderKey | TraceTransactionNameKey
  | TraceGtxCallerKey | WebStaticContentExtensions | TraceNormalizeUrls | TraceHttpcNormalizeUrls |
  AutoOnamePrefix | TraceMtraceCallerKey | TraceMtraceCalleeKey | TraceMtraceInfoKey | TraceMtracePoidKey |
  TraceMtraceSpecKey | TraceMtraceSpecKey1 | TraceMtraceTraceparentKey | MtraceSpec | TelegrafPrefix |
  TraceIgnoreUrlPrefix | PProfHttpAddress | MasterAgentHost | PodName | EnvOKind | PerfCounterJsonPath |
  UnixSocket | AppContextParser | AppContextPathSet | LLMAccessKey | LogSinkZipLibpath | TxIdTag |
  AppLogCategory | AppLogPattern | LogSinkCategoryStdErr | LogSinkCategoryStdOut | LogSinkTagsStr | NetIPCHost.
Definition sfields : list sfield :=
  [OKIND_NAME; ONODE_NAME; License; AccessKey; ObjectName; AppName; AppProcessName; ApacheServerStatusUrl;
  NginxServerStatusUrl; FpmServerStatusUrl; NetUdpHost; ProfileHttpHeaderUrlPrefix;
  ProfileHttpParameterUrlPrefix; ProfilePositionSql; ProfilePositionHttpc; ProfilePositionMethod;
  TraceUserHeaderTicket; TraceHttpClientIpHeaderKey; TraceTransactionNameHeaderKey; TraceTransactionNameKey;
  TraceGtxCallerKey; WebStaticContentExtensions; TraceNormalizeUrls; TraceHttpcNormalizeUrls; AutoOnamePrefix;
  TraceMtraceCallerKey; TraceMtraceCalleeKey; TraceMtraceInfoKey; TraceMtracePoidKey; TraceMtraceSpecKey;
  TraceMtraceSpecKey1; TraceMtraceTraceparentKey; MtraceSpec; TelegrafPrefix; TraceIgnoreUrlPrefix;
  PProfHttpAddress; MasterAgentHost; PodName; EnvOKind; PerfCounterJsonPath; UnixSocket; AppContextParser;
  AppContextPathSet; LLMAccessKey; LogSinkZipLibpath; TxIdTag; AppLogCategory; AppLogPattern;
  LogSinkCategoryStdErr; LogSinkCategoryStdOut; LogSinkTagsStr; NetIPCHost].
Scheme Boolean Equality for sfield.
Lemma sfields_all f : sfields !! position sfield_beq sfields f = Some f.
Proof. by destruct f. Qed.
#[export] Instance sfield_dec : EqDecision sfield := enum_dec _ _ sfields_all.
Inductive afield :=
  | WhatapHost | TraceUserCookieKeys | QueryStringUrls | QueryStringKeys | IgnoreHttpMethod | LLMWhatapHost |
  LogSinkFiles | GoGrpcProfileIgnoreMethod | GoGrpcProfileStreamMethod.
Definition afields : list afield :=
  [WhatapHost; TraceUserCookieKeys; QueryStringUrls; QueryStringKeys; IgnoreHttpMethod; LLMWhatapHost;
  LogSinkFiles; GoGrpcProfileIgnoreMethod; GoGrpcProfileStreamMethod].
Scheme Boolean Equality for afield.
Lemma afields_all f : afields !! position afield_beq afields f = Some f.
Proof. by destruct f. Qed.
#[export] Instance afield_dec : EqDecision afield := enum_dec _ _ afields_all.
Inductive ffield :=
  | TxDefaultLoadFactor | CorrectionFactorCpu | CorrectionFactorPCpu.
Definition ffields : list ffield :=
  [TxDefaultLoadFactor; CorrectionFactorCpu; CorrectionFactorPCpu].
Scheme Boolean Equality for ffield.
Lemma ffields_all f : ffields !! position ffield_beq ffields f = Some f.
Proof. by destruct f. Qed.
#[export] Instance ffield_dec : EqDecision ffield := enum_dec _ _ ffields_all.
Inductive nfield :=
  | BizExceptions | IgnoreExceptions | TraceIgnoreUrlSet | StatusIgnore | StatusAlertIgnore |
  HttpcStatusIgnore | HttpcStatusAlertIgnore.
Definition nfields : list nfield :=
  [BizExceptions; IgnoreExceptions; TraceIgnoreUrlSet; StatusIgnore; StatusAlertIgnore; HttpcStatusIgnore;
  HttpcStatusAlertIgnore].
Scheme Boolean Equality for nfield.
Lemma nfields_all f : nfields !! position nfield_beq nfields f = Some f.
Proof. by destruct f. Qed.
#[export] Instance nfield_dec : EqDecision nfield := enum_dec _ _ nfields_all.
Inductive tfield :=
  | ProfileHttpHeaderIgnoreKeys | DebugTcpSendPacks | TraceDaemonUrls.
Definition tfields : list tfield :=
  [ProfileHttpHeaderIgnoreKeys; DebugTcpSendPacks; TraceDaemonUrls].
Scheme Boolean Equality for tfield.
Lemma tfields_all f : tfields !! position tfield_beq tfields f = Some f.
Proof. by destruct f. Qed.
#[export] Instance tfield_dec : EqDecision tfield := enum_dec _ _ tfields_all.
End Fields.
Export Fields.

(** * The code that is not in the repository *)

(** golib's sets, and [properties.Properties]; [None] is a nil pointer. *)
Class ConfLib := {
  intset : Type; NewIntSet : intset; PutInt : intset -> Z -> intset;
  ContainsInt : intset -> Z -> bool; SizeInt : intset -> nat;
  stringset : Type; NewStringSet : stringset; PutString : stringset -> bytes -> stringset;
  IsNotEmpty : bytes -> bool; TruncateRune : bytes -> nat -> bytes;
  properties : Type; NewProperties : properties;
  prop_Get : option properties -> bytes -> res (option bytes);
  ParseFloat32 : bytes -> option spec_float;
  APP_TYPE_GO : Z; APP_TYPE_PHP : Z; APP_TYPE_DOTNET : Z; APP_TYPE_BSM_PHP : Z;
  APP_TYPE_BSM_PYTHON : Z; APP_TYPE_BSM_DOTNET : Z; APP_TYPE_BSM_GO : Z
}.

Section Struct.
Context {CL : ConfLib}.

(** * The struct *)

Record Config := mkConfig {
  bools : bfield -> bool; ints : ifield -> Z; strs : sfield -> bytes; arrs : afield -> list bytes;
  floats : ffield -> spec_float; intsets : nfield -> option intset; stringsets : tfield -> option stringset;
  LogSinkTags : list (list bytes)
}.
(** [new(Config)] *)
Definition zero_config : Config := mkConfig (fun _ => false) (fun _ => 0%Z) (fun _ => []) (fun _ => [])
  (fun _ => S754_zero false) (fun _ => None) (fun _ => None) [].

Inductive field := FB (f : bfield) | FI (f : ifield) | FS (f : sfield) | FA (f : afield) | FF (f : ffield)
  | FN (f : nfield) | FT (f : tfield).
#[export] Instance field_dec : EqDecision field.
Proof. solve_decision. Defined.

(** Two structs with the same value in a field. *)
Definition same (f : field) (c c' : Config) : Prop :=
  match f with
  | FB f => bools c f = bools c' f | FI f => ints c f = ints c' f | FS f => strs c f = strs c' f
  | FA f => arrs c f = arrs c' f | FF f => floats c f = floats c' f
  | FN f => intsets c f = intsets c' f | FT f => stringsets c f = stringsets c' f
  end.

(** The fields of one type: how they are read and assigned. *)
Class Kind (F V : Type) := {
  the : F -> Config -> V; set_field : F -> V -> Config -> Config; name : F -> field;
  the_set f v c : the f (set_field f v c) = v;
  set_other f v c g : g <> name f -> same g (set_field f v c) c;
  same_the f c c' : same (name f) c c' <-> the f c = the f c'
}.
Ltac solve_kind :=
  [> intros; simpl; apply fn_lookup_insert
   | intros f v c [] Hne; simpl; try reflexivity; apply fn_lookup_insert_ne; congruence
   | reflexivity ].
#[export] Instance kind_bool : Kind bfield bool.
Proof.
  refine {| the f c := bools c f; set_field f v c := c <| bools ::= <[f := v]> |>; name := FB |}; solve_kind.
Defined.
#[export] Instance kind_int : Kind ifield Z.
Proof.
  refine {| the f c := ints c f; set_field f v c := c <| ints ::= <[f := v]> |>; name := FI |}; solve_kind.
Defined.
#[export] Instance kind_string : Kind sfield bytes.
Proof.
  refine {| the f c := strs c f; set_field f v c := c <| strs ::= <[f := v]> |>; name := FS |}; solve_kind.
Defined.
#[export] Instance kind_array : Kind afield (list bytes).
Proof.
  refine {| the f c := arrs c f; set_field f v c := c <| arrs ::= <[f := v]> |>; name := FA |}; solve_kind.
Defined.
#[export] Instance kind_float : Kind ffield spec_float.
Proof.
  refine {| the f c := floats c f; set_field f v c := c <| floats ::= <[f := v]> |>; name := FF |}; solve_kind.
Defined.
#[export] Instance kind_intset : Kind nfield (option intset).
Proof.
  refine {| the f c := intsets c f; set_field f v c := c <| intsets ::= <[f := v]> |>; name := FN |}; solve_kind.
Defined.
#[export] Instance kind_stringset : Kind tfield (option stringset).
Proof.
  refine {| the f c := stringsets c f; set_field f v c := c <| stringsets ::= <[f := v]> |>; name := FT |}; solve_kind.
Defined.

(** * Statements *)

Inductive stmt :=
| Assign {F V} (K : Kind F V) (f : F) (e : Config -> V)
| If (b : Config -> bool) (th el : list stmt).

Fixpoint exec (c : Config) (s : stmt) : Config :=
  match s with
  | Assign _ f e => set_field f (e c) c
  | If b th el => foldl exec c (if b c then th else el)
  end.
Definition run (l : list stmt) (c : Config) : Config := foldl exec c l.

Definition both (a b : Config -> bool) (c : Config) : bool := a c && b c.
Definition neg (a : Config -> bool) (c : Config) : bool := negb (a c).
Definition equals {A} `{EqDecision A} (e : Config -> A) (v : A) (c : Config) : bool := bool_decide (e c = v).
Definition lt (a b : Config -> Z) (c : Config) : bool := (a c <? b c)%Z.
Definition val {A} (v : A) (c : Config) : A := v.
End Struct.

Declare Scope conf_scope.
Delimit Scope conf_scope with conf.
Notation "f <- e" := (Assign _ f e) (at level 70) : conf_scope.
Notation "a &&& b" := (both a b) (at level 40, left associativity) : conf_scope.
Notation "a <?? b" := (lt a b) (at level 35) : conf_scope.

(** * Go's strings *)

(** [strings.Split] with a separator of one byte. *)
Fixpoint SplitByte (sep : ascii) (s : bytes) : list bytes :=
  match s with
  | [] => [[]]
  | c :: s => if bool_decide (c = sep) then [] :: SplitByte sep s
              else match SplitByte sep s with p :: ps => (c :: p) :: ps | [] => [[c]] end
  end.
(** [strings.ReplaceAll] of a byte by another. *)
Definition ReplaceByte (a b : ascii) (s : bytes) : bytes := (fun c => if bool_decide (c = a) then b else c) <$> s.
(** [strings.LastIndex] of a byte. *)
Fixpoint LastIndexByte (s : bytes) (sep : ascii) : option nat :=
  match s with
  | [] => None
  | c :: s => match LastIndexByte s sep with
              | Some i => Some (S i)
              | None => if bool_decide (c = sep) then Some 0 else None
              end
  end.
(** [strings.Trim(s, " ")] *)
Fixpoint trim_blanks (s : bytes) : bytes :=
  match s with " "%char :: s => trim_blanks s | _ => s end.
Definition TrimBlanks (s : bytes) : bytes := rev (trim_blanks (rev (trim_blanks s))).

(** [strconv.ParseBool] and [strconv.ParseInt(s, 10, width)]. *)
Definition ParseBool (s : bytes) : option bool :=
  if bool_decide (s ∈ [str "1"; str "t"; str "T"; str "true"; str "TRUE"; str "True"]) then Some true
  else if bool_decide (s ∈ [str "0"; str "f"; str "F"; str "false"; str "FALSE"; str "False"]) then Some false
  else None.
Definition ParseInt (s : bytes) (width : Z) : option Z :=
  n ← Atoi s; if (- 2 ^ (width - 1) <=? n)%Z && (n <? 2 ^ (width - 1))%Z then Some n else None.
(** The number that [strconv.Atoi] returns with an error: the nearest one when the text
    is a number out of range, and 0.  Digits after the 64th bit are not read. *)
Fixpoint parse_uint (acc : Z) (s : bytes) : option Z :=
  match s with
  | [] => Some acc
  | c :: s =>
      let b := byteZ c in
      if (48 <=? b)%Z && (b <=? 57)%Z then
        let acc := (acc * 10 + (b - 48))%Z in if (2 ^ 64 <=? acc)%Z then Some acc else parse_uint acc s
      else None
  end.
Definition Atoi_with_error (s : bytes) : Z :=
  let '(neg, digits) := match s with
                        | "-"%char :: s => (true, s)
                        | "+"%char :: s => (false, s)
                        | _ => (false, s)
                        end in
  match digits with
  | [] => 0
  | _ => match parse_uint 0 digits with
         | Some _ => if neg : bool then - 2 ^ 63 else 2 ^ 63 - 1
         | None => 0
         end
  end%Z.

(** [filepath.Clean] and [filepath.Join] of Unix paths. *)
Definition clean_step (rooted : bool) (out : list bytes) (elem : bytes) : list bytes :=
  if bool_decide (elem = []) || bool_decide (elem = str ".") then out
  else if bool_decide (elem = str "..") then
    match rev out with
    | last :: rest => if bool_decide (last = str "..") then out ++ [elem] else rev rest
    | [] => if rooted then [] else [elem]
    end
  else out ++ [elem].
Definition Clean (path : bytes) : bytes :=
  let rooted := HasPrefix path (str "/") in
  match Join (foldl (clean_step rooted) [] (SplitByte "/"%char path)) (str "/") with
  | [] => if rooted then str "/" else str "."
  | p => if rooted then str "/" ++ p else p
  end.
Fixpoint filepath_Join (elems : list bytes) : bytes :=
  match elems with
  | [] => []
  | [] :: elems => filepath_Join elems
  | _ => Clean (Join elems (str "/"))
  end.

(** * Reading a setting *)

(** The names of the environment for the keys that cannot be names there. *)
Definition envKeys (key : bytes) : option bytes :=
  snd <$> find (fun p => bool_decide (p.1 = key)) [
    (str "accesskey", str "WHATAP_ACCESSKEY"); (str "license", str "WHATAP_LICENSE");
    (str "object_name", str "WHATAP_OBJECT_NAME"); (str "whatap.name", str "WHATAP_NAME");
    (str "whatap.oname", str "WHATAP_ONAME"); (str "whatap.okind", str "WHATAP_OKIND");
    (str "whatap.onode", str "WHATAP_ONODE"); (str "whatap.server.host", str "WHATAP_SERVER_HOST");
    (str "whatap.server.port", str "WHATAP_SERVER_PORT"); (str "net_ipc_port", str "WHATAP_NET_IPC_PORT");
    (str "net_udp_port", str "WHATAP_NET_UDP_PORT"); (str "otel_grpc_server_port", str "WHATAP_OTEL_GRPC_SERVER_PORT");
    (str "use_env_first", str "WHATAP_USE_ENV_FIRST"); (str "llm_enabled", str "WHATAP_LLM_ENABLED");
    (str "llm_accesskey", str "WHATAP_LLM_ACCESSKEY"); (str "llm_license", str "WHATAP_LLM_LICENSE");
    (str "llm.whatap.server.host", str "WHATAP_LLM_SERVER_HOST")].

Section Readers.
Context {CL : ConfLib} {SU : StringUtil}.
(** The environment and the file in use. *)
Variable Getenv : bytes -> bytes.
Variable prop : option properties.

(** The prefix that the keys of some agents have in the file. *)
Definition prefixed (c : Config) (key : bytes) : bytes :=
  if bool_decide (the AppType c = APP_TYPE_PHP)
  then if HasPrefix key (str "whatap.") then key else str "whatap." ++ key
  else if bool_decide (the AppType c = APP_TYPE_BSM_PHP)
  then if HasPrefix key (str "opsnowbsm.") then key else str "opsnowbsm." ++ key
  else key.
(** The value of the environment for a key. *)
Definition envValue (key : bytes) : bytes :=
  match Getenv key with
  | [] => match envKeys key with Some v => TrimSpace (Getenv v) | None => [] end
  | v => v
  end.
(** A panic of the library is recovered: the value is empty then. *)
Definition getValue (key : bytes) (c : Config) : bytes :=
  let envVal := envValue key in
  if the UseEnvFirst c && nonempty envVal then envVal
  else match prop_Get prop (prefixed c key) with
       | Ret (Some value) => match TrimSpace value with [] => TrimSpace envVal | v => v end
       | Ret None => TrimSpace envVal
       | _ => []
       end.
Definition getValueDef (key def : bytes) (c : Config) : bytes :=
  match getValue key c with [] => def | v => v end.
Definition getBoolean (key : bytes) (def : bool) (c : Config) : bool :=
  match getValue key c with [] => def | v => default def (ParseBool v) end.
Definition getInt (key : bytes) (def : Z) (c : Config) : Z :=
  match getValue key c with [] => int32 def | v => default (int32 def) (ParseInt v 32) end.
Definition getLong (key : bytes) (def : Z) (c : Config) : Z :=
  match getValue key c with [] => def | v => default def (ParseInt v 64) end.
Definition getFloat (key : bytes) (def : spec_float) (c : Config) : spec_float :=
  match getValue key c with [] => def | v => default def (ParseFloat32 v) end.

Definition tokens (v deli : bytes) : list bytes :=
  match v with [] => [] | _ => TrimSpace <$> Tokenizer v deli end.
Definition getStringArray (key deli : bytes) (c : Config) : list bytes := tokens (getValue key c) deli.
Definition getStringArrayDef (key deli def : bytes) (c : Config) : list bytes := tokens (getValueDef key def c) deli.

(** The sets.  A number is put in the set when it is not one ([err != nil]). *)
Definition GetIntSet (key defaultValue deli : bytes) (c : Config) : intset :=
  foldl (fun set x =>
    match Atoi (TrimEmpty x) with
    | None => PutInt set (int32 (Atoi_with_error (TrimEmpty x)))
    | Some _ => set
    end) NewIntSet (Tokenizer (getValueDef key defaultValue c) deli).
Definition GetStringHashSet (key defaultValue deli : bytes) (c : Config) : intset :=
  foldl (fun set x => PutInt set (HashStr (TrimEmpty x))) NewIntSet (Tokenizer (getValueDef key defaultValue c) deli).
Definition GetStringHashCodeSet (key defaultValue deli : bytes) (c : Config) : intset :=
  foldl (fun set x => PutInt set (int32 (HashCode (TrimEmpty x)))) NewIntSet
    (Tokenizer (getValueDef key defaultValue c) deli).
Definition toHashSet (key def : bytes) (c : Config) : intset :=
  foldl (fun set x => match TrimSpace x with [] => set | x => PutInt set (HashStr x) end) NewIntSet
    (SplitByte ","%char (getValueDef key def c)).
Definition toStringSet (key def : bytes) (c : Config) : stringset :=
  foldl (fun set x => match TrimSpace x with [] => set | x => PutString set x end) NewStringSet
    (SplitByte ","%char (getValueDef key def c)).

(** [val[0:x]] up to the last delimiter; nothing when that is the first byte. *)
Definition cutOut (val : bytes) (delim : ascii) : bytes :=
  match LastIndexByte val delim with Some (S x) => take (S x) val | _ => [] end.

(** * Where the file is *)

Definition GetWhatapHome (c : Config) : bytes :=
  let home := match Getenv (str "WHATAP_HOME") with [] => str "." | h => h end in
  if bool_decide (the AppType c = APP_TYPE_DOTNET) || bool_decide (the AppType c = APP_TYPE_BSM_DOTNET)
  then match Getenv (str "WHATAP_DOTNET_HOME") with [] => home | h => h end else home.
Definition GetConfFile (c : Config) : bytes :=
  let home := match Getenv (str "WHATAP_CONFIG_HOME") with [] => GetWhatapHome c | h => h end in
  let confName := match Getenv (str "WHATAP_CONFIG") with [] => str "whatap.conf" | n => n end in
  filepath_Join [home; confName].

(** * Uses of the settings *)

Definition IsIgnoreTrace (h : Z) (service : bytes) (c : Config) : bool :=
  match the TraceIgnoreUrlSet c with
  | None => false
  | Some set =>
      ContainsInt set h || (the IsTraceIgnoreUrlPrefix c && HasPrefix service (the TraceIgnoreUrlPrefix c))
  end.
End Readers.

Definition InArray (s : bytes) (list : list bytes) : bool :=
  existsb (fun it => bool_decide (to_upper <$> TrimSpace s = to_upper <$> TrimSpace it)) list.
Definition InArrayCaseSensitive (s : bytes) (list : list bytes) : bool :=
  existsb (fun it => bool_decide (TrimSpace s = TrimSpace it)) list.
