(* ===== verification/ConfApply.v ===== *)
(** [apply] and the [Apply] functions of the parts of the struct
    ([src/agent/agent/config/Config.go] and [Conf*.go]), a list of statements for each
    group of settings, in the order of the code.

    [Load] is the whole of [apply]: a panic of the function that closes the session is
    recovered, and the settings after it are left as they were. *)

From Stdlib Require Import SpecFloat.
From S2P Require Import Prelude UrlPattern TraceCtx Conf.
#[local] Open Scope string_scope.
#[local] Open Scope conf_scope.
#[local] Coercion str : string >-> list.

Definition DEFAULT_IGNORE_HEADER : bytes := "host,accept,user-agent,referer, accept-language, connection".
Definition APP_NAME_MAX_SIZE : nat := 50.
Definition DEFAULT_APP_NAME : bytes := "GO".
Definition Millisecond : Z := 1000000.
Definition Second : Z := 1000000000.
Definition float32_one : spec_float := S754_finite false 8388608 (-23).

Section Apply.
Context {CL : ConfLib} {SU : StringUtil}.
Variable Getenv : bytes -> bytes.
Variable prop : option properties.

#[local] Abbreviation getValue := (getValue Getenv prop).
#[local] Abbreviation getValueDef := (getValueDef Getenv prop).
#[local] Abbreviation getBoolean := (getBoolean Getenv prop).
#[local] Abbreviation getInt := (getInt Getenv prop).
#[local] Abbreviation getLong := (getLong Getenv prop).
#[local] Abbreviation getFloat := (getFloat Getenv prop).
#[local] Abbreviation getStringArray := (getStringArray Getenv prop).
#[local] Abbreviation getStringArrayDef := (getStringArrayDef Getenv prop).
#[local] Abbreviation GetIntSet := (GetIntSet Getenv prop).
#[local] Abbreviation GetStringHashCodeSet := (GetStringHashCodeSet Getenv prop).
#[local] Abbreviation toHashSet := (toHashSet Getenv prop).
#[local] Abbreviation toStringSet := (toStringSet Getenv prop).

(** Conditions on settings. *)
Definition blank (e : Config -> bytes) (c : Config) : bool := bool_decide (TrimSpace (e c) = []).
Definition empty (e : Config -> bytes) (c : Config) : bool := bool_decide (e c = []).
Definition app_is (t : Z) : Config -> bool := equals (the AppType) t.
Definition either (a b : Config -> bool) (c : Config) : bool := a c || b c.
(** [if conf.F > conf.G { conf.F = conf.G }], and values kept between two bounds. *)
Definition at_most (f g : ifield) : stmt := If (the g <?? the f) [f <- the g] [].
Definition above (f : ifield) (v : Z) : list stmt := [If (val v <?? the f) [f <- val v] []].
Definition below (f : ifield) (v : Z) : list stmt := [If (the f <?? val v) [f <- val v] []].

(** * The keys of the agent *)

Definition applyKeys : list stmt := [
  UseEnvFirst <- val true;
  UseEnvFirst <- getBoolean "use_env_first" false;
  License <- getValue "license";
  AccessKey <- getValue "accesskey";
  If (blank (the AccessKey) &&& neg (blank (the License))) [AccessKey <- the License] [];
  If (either (app_is APP_TYPE_BSM_PHP) (app_is APP_TYPE_BSM_PYTHON)) [
    WhatapHost <- getStringArray "opsnowbsm.server.host" "/:,";
    WhatapPort <- getInt "opsnowbsm.server.port" 6600
  ] [
    WhatapHost <- getStringArray "whatap.server.host" "/:,";
    WhatapPort <- getInt "whatap.server.port" 6600
  ]].

(** [ConfLLM] *)
Definition ConfLLM_Load : list stmt := [
  LLMMode <- getBoolean "llm_enabled" false;
  LLMAccessKey <- getValue "llm_accesskey";
  If (blank (the LLMAccessKey)) [
    LLMAccessKey <- getValue "llm_license"
  ] [];
  LLMWhatapHost <- getStringArray "llm.whatap.server.host" "/:,"
  ].
Definition ApplyChannelOverride : list stmt := [
  If (neg (the LLMMode)) [] [
    If (neg (blank (the LLMAccessKey))) [AccessKey <- the LLMAccessKey; License <- the LLMAccessKey] [];
    If (neg (equals (the LLMWhatapHost) [])) [WhatapHost <- the LLMWhatapHost] []
  ]].
Definition ConfLLM_Apply : list stmt := ConfLLM_Load ++ ApplyChannelOverride.

Definition applyNames : list stmt := [
  If (app_is APP_TYPE_PHP) [
    ObjectName <- getValueDef "object_name" "{type}-{ip2}-{ip3}-{process}-{docker}-{ips}"
  ] [If (app_is APP_TYPE_BSM_PHP) [
    ObjectName <- getValueDef "object_name" "BSM-{type}-{ip2}-{ip3}-{process}-{docker}"
  ] [If (app_is APP_TYPE_GO) [
    ObjectName <- getValueDef "object_name" "{type}-{ip2}-{ip3}-{cmd}-{cmd_full}"
  ] [
    ObjectName <- getValueDef "object_name" "{type}-{ip2}-{ip3}-{process}"
  ]]];
  If (neg (blank (getValueDef "whatap.name" ""))) [ObjectName <- getValueDef "whatap.name" ""] [];
  AppName <- getValueDef "app_name" DEFAULT_APP_NAME;
  AppName <- (fun c => TruncateRune (the AppName c) APP_NAME_MAX_SIZE);
  AppProcessName <- getValue "app_process_name"
  ].

(** * Counters, queues, statistics *)

(** 0 turns the limit off; otherwise it is between one second and four. *)
Definition counterTimeout : list stmt := [
  CounterTimeout <- getInt "counter_timeout" 0;
  If (fun c => the CounterTimeout c <=? 0)%Z [CounterTimeout <- val 0%Z]
    (below CounterTimeout 1000 ++ [CounterTimeout <- (fun c => Z.min (the CounterTimeout c) 4000)])
  ].
Definition applyCounters : list stmt := [
  Shutdown <- getBoolean "shutdown" false;
  Enabled <- neg (the Shutdown) &&& getBoolean "enabled" true;
  TransactionEnabled <- the Enabled &&& getBoolean "transaction_enabled" true;
  CounterEnabled <- the Enabled &&& getBoolean "counter_enabled" true;
  CounterVersion <- (fun c => uint8 (getInt "counter_version" 2 c))
] ++ counterTimeout ++ [
  CounterLogEnabled <- getBoolean "_counter_log_enabled" false;
  CounterEnabledTranx_ <- the Enabled &&& getBoolean "_counter_enabled_tranx" true;
  CounterEnabledAct_ <- the Enabled &&& getBoolean "_counter_enabled_act" true;
  CounterEnabledUser_ <- the Enabled &&& getBoolean "_counter_enabled_user" true;
  CounterEnabledHttpc_ <- the Enabled &&& getBoolean "_counter_enabled_httpc" true;
  CounterEnabledSql_ <- the Enabled &&& getBoolean "_counter_enabled_sql" true;
  CounterEnabledAgentInfo_ <- the Enabled &&& getBoolean "_counter_enabled_agentinfo" true;
  CounterEnabledHeap_ <- the Enabled &&& getBoolean "_counter_enabled_heap" true;
  CounterEnabledProc_ <- the Enabled &&& getBoolean "_counter_enabled_proc" true;
  CounterEnabledPackVer_ <- the Enabled &&& getBoolean "_counter_enabled_pack_ver" true;
  CounterEnabledSysPerfKube_ <- the Enabled &&& getBoolean "_counter_enabled_sys_perf_kube" true;
  CounterEnabledSysPerf_ <- the Enabled &&& getBoolean "_counter_enabled_sys_perf" true;
  CounterEnabledActiveStats_ <- the Enabled &&& getBoolean "_counter_enabled_act_stat" true;
  CounterEnabledDBPool_ <- the Enabled &&& getBoolean "_counter_enabled_db_pool" true
  ].

Definition applyQueues : list stmt := [
  QueueLogEnabled <- getBoolean "queue_log_enabled" false;
  QueueYieldEnabled <- getBoolean "queue_yield_enabled" false;
  QueueTcpSenderThreadCount <- getInt "queue_tcp_sender_thread_count" 2;
  QueueUdpEnabled <- getBoolean "queue_udp_enabled" false;
  QueueUdpSize <- getInt "queue_udp_size" 2048;
  QueueUdpOverflowedSize <- getInt "queue_udp_overflowed_size" 4096;
  QueueUdpReadThreadCount <- getInt "queue_udp_read_thread_count" 3;
  QueueUdpProcessThreadCount <- getInt "queue_udp_process_thread_count" 1;
  QueueProfileSize <- getInt "queue_profile_size" 8192;
  QueueProfileProcessThreadCount <- getInt "queue_profile_process_thread_count" 1;
  QueueTextSize <- getInt "queue_text_size" 4096;
  QueueTextProcessThreadCount <- getInt "queue_text_process_thread_count" 1;
  QueueControlEnabled <- getBoolean "queue_control_enabled" false;
  QueueControlSize <- getInt "queue_control_size" 100;
  QueueControlProcessThreadCount <- getInt "queue_control_process_thread_count" 1
  ].

Definition applyStatDefaults : list stmt := [
  StatDomainEnabled <- the Enabled &&& getBoolean "stat_domain_enabled" true;
  StatDomainMaxCount <- getInt "stat_domain_max_count" 7000;
  StatMtraceEnabled <- getBoolean "stat_mtrace_enabled" false;
  StatMtraceMaxCount <- getInt "stat_mtrace_max_count" 7000;
  StatLoginEnabled <- getBoolean "stat_login_enabled" false;
  StatLoginMaxCount <- getInt "stat_login_max_count" 7000;
  StatRefererEnabled <- getBoolean "stat_referer_enabled" false;
  StatRefererMaxCount <- getInt "stat_referer_max_count" 7000;
  StatRefererFormat <- getInt "stat_referer_format" 0;
  StatTxMaxCount <- getInt "stat_tx_max_count" 5000;
  StatSqlMaxCount <- getInt "stat_sql_max_count" 5000;
  StatHttpcMaxCount <- getInt "stat_httpc_max_count" 5000;
  StatErrorMaxCount <- getInt "stat_error_max_count" 1000;
  StatUseragentMaxCount <- getInt "stat_useragent_max_count" 500;
  StatEnabled <- the Enabled &&& getBoolean "stat_enabled" true;
  StatIpEnabled <- the Enabled &&& getBoolean "stat_ip_enabled" true;
  RealtimeUserEnabled <- the Enabled &&& getBoolean "realtime_user_enabled" true;
  If (either (app_is APP_TYPE_PHP) (app_is APP_TYPE_BSM_PHP)) [
    ActiveStackEnabled <- the Enabled &&& getBoolean "active_stack_enabled" false
  ] [If (either (app_is APP_TYPE_GO) (app_is APP_TYPE_BSM_GO)) [
    ActiveStackEnabled <- the Enabled &&& getBoolean "active_stack_enabled" false
  ] [
    ActiveStackEnabled <- the Enabled &&& getBoolean "active_stack_enabled" true
  ]];
  CypherLevel <- getInt "cypher_level" 128;
  EncryptLevel <- getInt "encrypt_level" 2
  ].

(** The names of the kind and of the node, from the environment of a container. *)
Definition podName (c : Config) : bytes :=
  match TrimSpace (the EnvOKind c) with [] => cutOut (the PodName c) "-"%char | p => p end.
Definition applyPod : list stmt := [
  PodName <- val (Getenv "POD_NAME");
  If (empty (the PodName)) [PodName <- val (Getenv "PODNAME")] [];
  EnvOKind <- val (Getenv "OKIND");
  WhatapMicroEnabled <- neg (empty (the PodName));
  OKIND_NAME <- (fun c => getValueDef "whatap.okind" (podName c) c);
  If (empty (the OKIND_NAME)) [OKIND <- val 0%Z] [OKIND <- (fun c => HashStr (the OKIND_NAME c))];
  ONODE_NAME <- (fun c => getValueDef "whatap.onode" (Getenv "NODE_NAME") c);
  If (empty (the ONODE_NAME)) [ONODE_NAME <- val (Getenv "NODE_IP")] [];
  If (empty (the ONODE_NAME)) [ONODE <- val 0%Z] [ONODE <- (fun c => HashStr (the ONODE_NAME c))]
  ].

Definition applyNet : list stmt := [
  CountInterval <- getInt "_counter_interval" 5000;
  TcpSoTimeout <- getInt "tcp_so_timeout" 120000;
  TcpSoSendTimeout <- getInt "tcp_so_send_timeout" 20000;
  TcpConnectionTimeout <- getInt "tcp_connection_timeout" 5000;
  NetSendMaxBytes <- getInt "net_send_max_bytes" 5242880;
  NetSendBufferSize <- getInt "net_send_buffer_size" 1024;
  NetWriteBufferSize <- getInt "net_write_buffer_size" 2097152;
  NetSendQueue1Size <- getInt "net_send_queue1_size" 512;
  NetSendQueue2Size <- getInt "net_send_queue2_size" 1024;
  NetWriteLockEnabled <- getBoolean "net_write_lock_enabled" true;
  NetUdpHost <- getValueDef "net_udp_host" "127.0.0.1";
  NetUdpPort <- getInt "net_udp_port" 6600;
  NetUdpReadBytes <- getInt "net_udp_read_bytes" 2097152;
  UdpFlushStart <- getBoolean "net_udp_flush_start" true;
  UdpFlushEnd <- getBoolean "net_udp_flush_end" true;
  UdpFlushError <- getBoolean "net_udp_flush_error" false;
  UdpProfileBaseTimeEnabled <- getBoolean "net_udp_profile_basetime_enabled" false;
  UdpProfileBaseTime <- getInt "net_udp_profile_basetime" 200;
  UdpTraceIgnoreTimeEnabled <- getBoolean "net_udp_trace_ignoretime_enabled" false;
  UdpTraceIgnoreTime <- getInt "net_udp_trace_ignoretime" 50;
  TxMaxCount <- getInt "tx_max_count" 5000;
  TxDefaultCapacity <- getInt "tx_default_capacity" 101;
  TxDefaultLoadFactor <- (fun c => default (the TxDefaultLoadFactor c) (ParseFloat32 (getValueDef "tx_load_factor" "0.75" c)))
  ].

(** * Profiles, users, traces *)

Definition profileStepCounts : list stmt := [
  ProfileStepNormalCount <- getInt "profile_step_normal_count" 800;
  ProfileStepHeavyCount <- getInt "profile_step_heavy_count" 1000;
  ProfileStepMaxCount <- getInt "profile_step_max_count" 1024;
  ProfileStepHeavyTime <- getInt "profile_step_heavy_time" 100;
  at_most ProfileStepHeavyCount ProfileStepMaxCount;
  at_most ProfileStepNormalCount ProfileStepHeavyCount
  ].
Definition applyProfile : list stmt := [
  ProfileHttpHeaderEnabled <- getBoolean "profile_http_header_enabled" false;
  ProfileHttpHeaderUrlPrefix <- getValueDef "profile_http_header_url_prefix" "/";
  ProfileHttpHeaderIgnoreKeys <- (fun c =>
    Some (toStringSet "profile_http_header_ignore_keys" (ReplaceByte "-"%char "_"%char DEFAULT_IGNORE_HEADER) c));
  ProfileHttpParameterEnabled <- getBoolean "profile_http_parameter_enabled" false;
  ProfileHttpParameterUrlPrefix <- getValueDef "profile_http_parameter_url_prefix" "/";
  ProfileConnectionOpenEnabled <- getBoolean "profile_connection_open_enabled" true;
  ProfileDbcClose <- getBoolean "profile_dbc_close" false
] ++ profileStepCounts ++ [
  ProfileBasetime <- getInt "profile_basetime" 500;
  TraceSqlNormalizeEnabled <- val true;
  If (neg (getBoolean "trace_sql_normalize_enabled" true)) [
    ProfileSqlParamEnabled <- getBoolean "profile_sql_param_enabled" true
  ] [
    ProfileSqlParamEnabled <- getBoolean "profile_sql_param_enabled" false
  ];
  ProfileSqlParamEnabled <- getBoolean "profile_sql_param_enabled" false;
  ProfileSqlResourceEnabled <- getBoolean "profile_sql_resource_enabled" false;
  ProfileSqlCommentEnabled <- getBoolean "profile_sql_comment_enabled" false;
  ProfileMethodResourceEnabled <- getBoolean "profile_method_resource_enabled" false;
  ProfileHttpcResourceEnabled <- getBoolean "profile_httpc_resource_enabled" false;
  ProfilePositionSqlHash <- getInt "_profile_position_sql_hash" 0;
  ProfilePositionHttpcHash <- getInt "_profile_position_httpc_hash" 0;
  ProfilePositionMethodHash <- getInt "_profile_position_method_hash" 0;
  ProfilePositionSql <- getValue "profile_position_sql";
  ProfilePositionHttpc <- getValue "profile_position_httpc";
  ProfilePositionMethod <- getValue "profile_position_method";
  If (neg (empty (the ProfilePositionSql)))
    [ProfilePositionSqlHash <- (fun c => int32 (HashStr (the ProfilePositionSql c)))] [];
  If (neg (empty (the ProfilePositionHttpc)))
    [ProfilePositionHttpcHash <- (fun c => int32 (HashStr (the ProfilePositionHttpc c)))] [];
  If (neg (empty (the ProfilePositionMethod)))
    [ProfilePositionMethodHash <- (fun c => int32 (HashStr (the ProfilePositionMethod c)))] [];
  ProfilePositionDepth <- getInt "profile_position_depth" 50;
  ProfileErrorSqlFetchMax <- getInt "profile_error_sql_fetch_max" 10000;
  ProfileErrorSqlTimeMax <- getInt "profile_error_sql_time_max" 30000;
  ProfileHttpHostEnabled <- getBoolean "profile_http_host_enabled" false
  ].

Definition applyUsers : list stmt := [
  TraceUserEnabled <- getBoolean "trace_user_enabled" true;
  TraceUserUsingIp <- getBoolean "trace_user_using_ip" true;
  TraceUserHeaderTicket <- getValue "trace_user_header_ticket";
  TraceUserHeaderTicketEnabled <- (fun c => IsNotEmpty (the TraceUserHeaderTicket c));
  TraceUserSetCookie <- getBoolean "trace_user_set_cookie" false;
  TraceUserCookieLimit <- getInt "trace_user_cookie_limit" 2048;
  TraceUserCookieKeys <- getStringArray "trace_user_cookie_keys" ",";
  TraceUserUsingType <- val 2%Z;
  If (neg (the TraceUserEnabled)) [TraceUserUsingType <- val 0%Z]
    [If (the TraceUserUsingIp) [TraceUserUsingType <- val 1%Z] [TraceUserUsingType <- val 2%Z]];
  TraceHttpClientIpHeaderKeyEnabled <- getBoolean "trace_http_client_ip_header_key_enabled" true;
  TraceHttpClientIpHeaderKey <- getValueDef "trace_http_client_ip_header_key" "X-Forwarded-For";
  TraceAutoTransactionEnabled <- getBoolean "trace_auto_transaction_enabled" false;
  TraceAutoTransactionBackstackEnabled <- getBoolean "trace_auto_transaction_backstack_enabled" true;
  TraceBackgroundSocketEnabled <- getBoolean "trace_background_socket_enabled" false;
  TraceTransactionNameHeaderKey <- getValue "trace_transaction_name_header_key";
  TraceTransactionNameKey <- getValue "trace_transaction_name_key";
  TraceErrorCallstackDepth <- getInt "trace_error_callstack_depth" 50;
  TraceActiveCallstackDepth <- getInt "trace_active_callstack_depth" 50;
  TraceActiveTransactionSlowTime <- getLong "trace_active_transaction_slow_time" 3000;
  TraceActiveTransactionVerySlowTime <- getLong "trace_active_transaction_very_slow_time" 8000;
  TraceActiveTransactionLostTime <- getLong "trace_active_transaction_lost_time" 300000;
  TraceDbcLeakEnabled <- getBoolean "trace_dbc_leak_enabled" false;
  TraceDbcLeakFullstackEnabled <- getBoolean "trace_dbc_leak_fullstack_enabled" false;
  DebugDbcStackEnabled <- getBoolean "debug_dbc_stack_enabled" false;
  TraceGtxRate <- getInt "trace_gtx_rate" 0;
  TraceGtxCallerKey <- getValue "_trace_gtx_caller_key";
  WebStaticContentExtensions <- getValueDef "web_static_content_extensions" "js, htm, html, gif, png, jpg, css, swf, ico";
  TraceNormalizeEnabled <- getBoolean "trace_normalize_enabled" true;
  TraceNormalizeUrls <- getValue "trace_normalize_urls";
  TraceAutoNormalizeEnabled <- getBoolean "trace_auto_normalize_enabled" true;
  TraceHttpcNormalizeEnabled <- getBoolean "trace_httpc_normalize_enabled" true;
  TraceHttpcNormalizeUrls <- getValue "trace_httpc_normalize_urls";
  TraceUserAgentEnabled <- getBoolean "trace_useragent_enabled" false;
  TraceRefererEnabled <- getBoolean "trace_referer_enabled" false
  ].

Definition applyLog : list stmt := [
  LogRotationEnabled <- getBoolean "log_rotation_enabled" true;
  logutil_LogRotationEnabled <- the LogRotationEnabled;
  LogKeepDays <- getInt "log_keep_days" 7;
  logutil_LogKeepDays <- the LogKeepDays;
  LogInterval <- getInt "_log_interval" 10;
  logutil_LogInterval <- the LogInterval;
  LogStdoutEnabled <- getBoolean "log_stdout_enabled" false;
  logutil_LogStdoutEnabled <- the LogStdoutEnabled;
  HookSignature <- getInt "hook_signature" 1;
  ActiveStackSecond <- getInt "active_stack_second" 10;
  ActiveStackZipEnabled <- getBoolean "active_stack_zip_enabled" true;
  CounterProcfdEnabled <- getBoolean "counter_procfd_enabled" false;
  CounterNetstatEnabled <- getBoolean "counter_netstat_enabled" false;
  RealtimeUserThinktimeMax <- getInt "realtime_user_thinktime_max" 300000;
  TimeSyncIntervalMs <- getLong "time_sync_interval_ms" 30000;
  DetectDeadlockEnabled <- getBoolean "detect_deadlock_enabled" false;
  TextReset <- getInt "text_reset" 0;
  AutoOnameEnabled <- getBoolean "auto_oname_enabled" false;
  AutoOnamePrefix <- getValueDef "auto_oname_prefix" "agent";
  AutoOnameReset <- getInt "auto_oname_reset" 0;
  QueryStringEnabled <- getBoolean "query_string_enabled" false;
  QueryStringUrls <- getStringArray "query_string_urls" ",";
  QueryStringKeys <- getStringArray "query_string_keys" ",";
  ErrorSnapEnabled <- getBoolean "error_snap_enabled" true
  ].

Definition mtraceRate : list stmt := [
  MtraceRate <- getInt "mtrace_rate" 10;
  If (val 100%Z <?? the MtraceRate) [MtraceRate <- val 100%Z] (below MtraceRate 0)
  ].
Definition applyMtrace : list stmt := [
  MtraceEnabled <- getBoolean "mtrace_enabled" false;
  MtraceAutoInjectEnabled <- getBoolean "mtrace_auto_inject_enabled" true
] ++ mtraceRate ++ [
  TraceMtraceCallerKey <- getValueDef "mtrace_caller_key" "x-wtap-mst";
  TraceMtraceCalleeKey <- getValueDef "mtrace_callee_key" "x-wtap-tx";
  TraceMtraceInfoKey <- getValueDef "mtrace_info_key" "x-wtap-inf";
  TraceMtracePoidKey <- getValueDef "mtrace_poid_key" "x-wtap-po";
  TraceMtraceSpecKey <- getValueDef "mtrace_spec_key" "x-wtap-sp";
  TraceMtraceSpecKey1 <- getValueDef "mtrace_spec_key1" "x-wtap-sp1";
  TraceMtraceTraceparentKey <- getValueDef "mtrace_traceparent_key" "traceparent";
  MtraceSendUrlLength <- getInt "mtrace_send_url_length" 80;
  MtraceSpec <- getValueDef "mtrace_spec" "";
  If (empty (the MtraceSpec)) [MtraceSpecHash <- val 0%Z] [
    MtraceSpec <- (fun c => ReplaceByte ","%char "_"%char (the MtraceSpec c));
    MtraceSpecHash <- (fun c => HashStr (the MtraceSpec c))];
  MtraceCalleeTxidEnabled <- getBoolean "mtrace_callee_txid_enabled" false
  ].

(** * Meters, sets of errors and URLs, alerts *)

Definition has_some (f : nfield) (c : Config) : bool :=
  match the f c with Some set => bool_decide (0 < SizeInt set)%nat | None => false end.
Definition meterSelfBuffers : list stmt := [
  MeterSelfBufferMin <- getInt "meter_self_buffer_min" 100;
  MeterSelfBufferMax <- getInt "meter_self_buffer_max" 300;
  If (the MeterSelfBufferMax <?? the MeterSelfBufferMin) [MeterSelfBufferMax <- the MeterSelfBufferMin] []
  ].
Definition applyMeters : list stmt := [
  MeterSelfEnabled <- getBoolean "meter_self_enabled" true;
  MeterSelfInterval <- getInt "meter_self_interval" 300000
] ++ meterSelfBuffers ++ [
  TxCallerMeterEnabled <- getBoolean "tx_caller_meter_enabled" true;
  TxCallerMeterPKindEnabled <- getBoolean "tx_caller_meter_pkind_enabled" true;
  SqlDbcMeterEnabled <- getBoolean "sql_dbc_meter_enabled" true;
  HttpcHostMeterEnabled <- getBoolean "httpc_host_meter_enabled" true;
  ActxMeterEnabled <- getBoolean "actx_meter_enabled" true;
  TpsAvg30Enabled <- getBoolean "service_metrics_spike_enabled" false;
  TagCounterEnabled <- the Enabled &&& getBoolean "tag_counter_enabled" true;
  TagCountInterval <- getInt "tag_counter_interval" 10000;
  TelegrafEnabled <- getBoolean "telegraf_enabled" false;
  TelegrafPrefix <- getValueDef "telegraf_prefix" "Telegraf.";
  TelegrafMaxSize <- getInt "telegraf_max_size" 500;
  TelegrafTcpPort <- getInt "telegraf_tcp_port" 6600;
  TelegrafTcpSoTimeout <- getInt "telegraf_tcp_so_timeout" 60000;
  BizExceptions <- (fun c => Some (GetStringHashCodeSet "biz_exceptions" "" "," c));
  EnableBizExceptions_ <- has_some BizExceptions;
  IgnoreExceptions <- (fun c => Some (GetStringHashCodeSet "ignore_exceptions" "" "," c));
  EnableIgnoreExceptions_ <- has_some IgnoreExceptions;
  TraceIgnoreUrlSet <- (fun c => Some (toHashSet "trace_ignore_url_set" "" c));
  TraceIgnoreUrlPrefix <- getValueDef "trace_ignore_url_prefix" "";
  If (blank (the TraceIgnoreUrlPrefix)) [IsTraceIgnoreUrlPrefix <- val false] [IsTraceIgnoreUrlPrefix <- val true]
  ].

Definition percent (f : ifield) (key : bytes) (def : Z) : list stmt :=
  [f <- getInt key def] ++ above f 100 ++ below f 0.
Definition applyHitMap : list stmt := [
  HitMapVerEventEnabled <- getBoolean "hitmap_ver_event_enabled" false;
  HitMapVerEventErrorOnly <- getBoolean "hitmap_ver_event_error_only" false;
  HitMapVerEventDuration <- getInt "hitmap_ver_event_duration" 30000
] ++ percent HitMapVerEventWarningPercent "hitmap_ver_event_warn_percent" 70
  ++ percent HitMapVerEventFatalPercent "hitmap_ver_event_fatal_percent" 90 ++ [
  HitMapVerEventInterval <- getInt "hitmap_ver_event_interval" 300000;
  HitMapHorizEventEnabled <- getBoolean "hitmap_horiz_event_enabled" false;
  HitMapHorizEventErrorOnly <- getBoolean "hitmap_horiz_event_error_only" false;
  HitMapHorizEventBasetime <- getInt "hitmap_hoirz_event_basetime" 10000;
  HitMapHorizEventDuration <- getInt "hitmap_horiz_event_duration" 30000;
  HitMapHorizEventInterval <- getInt "hitmap_horiz_event_interval" 300000
  ].

(** * Extensions, and the rest of [Config] *)

Definition applyPhp : list stmt := [
  ExtErrorEnabled <- getBoolean "ext.error_enabled" true;
  ExtExceptionEnabled <- getBoolean "ext.exception_enabled" true;
  ProfileMethodEnabled <- getBoolean "profile_method_enabled" true;
  ProfileMethodStackEnabled <- getBoolean "profile_method_stack_enabled" false;
  ProfileMethodTime <- getInt "profile_method_time" 1000;
  ProfileInternalMethodEnabled <- getBoolean "profile_internal_method_enabled" false;
  ProfileInternalMethodParamEnabled <- getBoolean "profile_internal_method_param_enabled" false;
  ProfileInternalMethodTime <- getInt "profile_internal_method_time" 1000;
  ProfileCompileFileEnabled <- getBoolean "profile_compile_file_enabled" false;
  ProfileCompileFileBasetime <- getInt "profile_compile_file_basetime" 200;
  ProfileSessionEnabled <- getBoolean "profile_session_enabled" true;
  If (either (either (app_is APP_TYPE_BSM_PHP) (app_is APP_TYPE_BSM_PYTHON)) (app_is APP_TYPE_BSM_DOTNET)) [
    RealtimeUserEnabled <- val false;
    TxCallerMeterEnabled <- val false; SqlDbcMeterEnabled <- val false;
    HttpcHostMeterEnabled <- val false; ActxMeterEnabled <- val false] []
  ].

Definition applyServer : list stmt := [
  PProfEnabled <- getBoolean "pprof_enabled" false;
  PProfCpuEnabled <- getBoolean "pprof_cpu_enabled" false;
  PProfHttpEnabled <- getBoolean "pprof_http_enabled" false;
  PProfHttpAddress <- getValueDef "pprof_http_address" "localhost:6600";
  PProfInterval <- getInt "pprof_interval" 30000;
  WmiEnabled <- getBoolean "wmi.enabled" true;
  NativeAPIEnabled <- getBoolean "native_api.enabled" false;
  ProcessFallback <- getBoolean "processfallback" false;
  ActiveStatEnabled <- getBoolean "active_stat_enabled" true;
  ActiveStatLogEnabled <- getBoolean "active_stat_log_enabled" false;
  ActiveStatsResetDuration <- (fun c => int64 (Millisecond * getInt "active_stat_reset_duration" 100 c));
  ActiveStatResetInterval <- getInt "active_stat_reset_interval" 3600;
  ActiveStatResetIntervalByActiveTxCount <- getInt "active_stat_reset_interval_atc" 1800;
  ActiveStatResetRateByActiveTxCount <- getInt "active_stat_reset_rate_atc" 150;
  ShmEnabled <- getBoolean "shm_enabled" true;
  ShmKey <- getLong "shm_key" 6600;
  ShmSendMetricsEnabled <- getBoolean "shm_send_metrics_enabled" false;
  ShmTxCounterEnabled <- getBoolean "shm_tx_counter_enabled" false;
  MasterAgentHost <- getValueDef "master_agent_host" "whatap-master-agent.whatap-monitoring.svc.cluster.local";
  MasterAgentPort <- (fun c => wrap_u 16 (getLong "master_agent_port" 6600 c));
  CorrectionFactorCpu <- getFloat "correction_factor_cpu" float32_one;
  CorrectionFactorPCpu <- getFloat "correction_factor_pcpu" float32_one;
  LogCoolTime <- (fun c => int64 (Second * getInt "log.cooltime" 180 c));
  PerfCounterEnabled <- getBoolean "perfcounter.enabled" false;
  PerformanceCounterInterval <- getInt "perfcounter.interval" 10;
  PerfCounterJsonPath <- (fun c =>
    getValueDef "perfcounter_jason_path" (filepath_Join [GetWhatapHome Getenv c; str "perfcounter.json"]) c);
  ServerProcessFDCheck <- getBoolean "process.fdcheck" false;
  ApdexTime <- getInt "apdex_time" 1200;
  ApdexTime4T <- (fun c => int32 (4 * the ApdexTime c));
  UnixSocketEnabled <- getBoolean "unix_socket_enabled" false;
  UnixSocket <- getValueDef "unix_socket" "whatap.sock"
  ].

Definition applyErrorInfo : list stmt := [
  ProfileCurlReturnEnabled <- getBoolean "profile_curl_return_enabled" true;
  ProfileCurlErrorInfoEnabled <- getBoolean "profile_curl_error_info_enabled" true;
  ProfileCurlErrorIgnoreEmpty <- getBoolean "profile_curl_error_ignore_empty" true;
  ProfileMysqlReturnEnabled <- getBoolean "profile_mysql_return_enabled" true;
  ProfileMysqlErrorInfoEnabled <- getBoolean "profile_mysql_error_info_enabled" true;
  ProfileMysqlErrorIgnoreEmpty <- getBoolean "profile_mysql_error_ignore_empty" true;
  ProfileMysqliReturnEnabled <- getBoolean "profile_mysqli_return_enabled" true;
  ProfileMysqliErrorInfoEnabled <- getBoolean "profile_mysqli_error_info_enabled" true;
  ProfileMysqliErrorIgnoreEmpty <- getBoolean "profile_mysqli_error_ignore_empty" true;
  ProfilePDOReturnEnabled <- getBoolean "profile_pdo_return_enabled" true;
  ProfilePDOErrorInfoEnabled <- getBoolean "profile_pdo_error_info_enabled" true;
  ProfilePDOErrorIgnoreEmpty <- getBoolean "profile_pdo_error_ignore_empty" true;
  ProfilePgsqlReturnEnabled <- getBoolean "profile_pgsql_return_enabled" true;
  ProfilePgsqlErrorInfoEnabled <- getBoolean "profile_pgsql_error_info_enabled" true;
  ProfilePgsqlErrorIgnoreEmpty <- getBoolean "profile_pgsql_error_ignore_empty" true;
  ProfileOci8ReturnEnabled <- getBoolean "profile_oci8_return_enabled" true;
  ProfileOci8ErrorInfoEnabled <- getBoolean "profile_oci8_error_info_enabled" true;
  ProfileOci8ErrorIgnoreEmpty <- getBoolean "profile_oci8_error_ignore_empty" true;
  ProfileMssqlReturnEnabled <- getBoolean "profile_mssql_return_enabled" true;
  ProfileMssqlErrorInfoEnabled <- getBoolean "profile_mssql_error_info_enabled" true;
  ProfileMssqlErrorIgnoreEmpty <- getBoolean "profile_mssql_error_ignore_empty" true;
  ProfileSqlsrvReturnEnabled <- getBoolean "profile_sqlsrv_return_enabled" true;
  ProfileSqlsrvErrorInfoEnabled <- getBoolean "profile_sqlsrv_error_info_enabled" true;
  ProfileSqlsrvErrorIgnoreEmpty <- getBoolean "profile_sqlsrv_error_ignore_empty" true;
  ProfileRedisReturnEnabled <- getBoolean "profile_redis_return_enabled" true;
  ProfileRedisErrorInfoEnabled <- getBoolean "profile_redis_error_info_enabled" true;
  ProfileRedisErrorIgnoreEmpty <- getBoolean "profile_redis_error_ignore_empty" false;
  ProfileCubridReturnEnabled <- getBoolean "profile_cubrid_return_enabled" true;
  ProfileCubridErrorInfoEnabled <- getBoolean "profile_cubrid_error_info_enabled" true;
  ProfileCubridErrorIgnoreEmpty <- getBoolean "profile_cubrid_error_ignore_empty" true;
  ProfileOdbcReturnEnabled <- getBoolean "profile_odbc_return_enabled" true;
  ProfileOdbcErrorInfoEnabled <- getBoolean "profile_odbc_error_info_enabled" true;
  ProfileOdbcErrorIgnoreEmpty <- getBoolean "profile_odbc_error_ignore_empty" true
  ].

Definition applyDebug : list stmt := [
  ActiveStackCount <- getInt "active_stack_count" 50;
  Debug <- getBoolean "debug" false;
  DebugTcpSendEnabled <- getBoolean "debug_tcpsend_enabled" false;
  DebugTcpSendTimeSyncEnabled <- getBoolean "debug_tcpsend_timesync_enabled" false;
  DebugTcpSendPacks <- (fun c => Some (toStringSet "debug_tcpsend_packs" "CounterPack1" c));
  DebugTcpReadEnabled <- getBoolean "debug_tcpread_enabled" false;
  DebugCounterEnabled <- getBoolean "debug_counter_enabled" false;
  DebugControlEnabled <- getBoolean "debug_control_enabled" false;
  DebugUdpEnabled <- getBoolean "debug_udp_enabled" false;
  DebugShmEnabled <- getBoolean "debug_shm_enabled" false;
  DebugTxCounterEnabled <- getBoolean "debug_tx_counter_enabled" false;
  TraceDaemonEnabled <- getBoolean "trace_daemon_enabled" false;
  TraceDaemonUrls <- (fun c => Some (toStringSet "trace_daemon_urls" "" c));
  TraceCLIEnabled <- getBoolean "trace_cli_enabled" true;
  NvidiasmiEnabled <- getBoolean "nvidiasmi_enabled" false;
  PidLockEnabled <- getBoolean "pidlock_enabled" false;
  IgnoreHttpMethod <- getStringArrayDef "ignore_http_method" "," "PATCH, OPTIONS, HEAD, TRACE";
  MeteringUseLinuxUUIDEnabled <- getBoolean "metering_use_linux_uuid_enabled" false;
  AppContextEnabled <- getBoolean "app_context_enabled" false;
  AppContextParser <- getValueDef "app_context_parser" "default";
  AppContextParserReset <- getInt "app_context_parser_reset" 0;
  AppContextPathDepth <- getInt "app_context_path_depth" 1;
  AppContextPathSet <- getValue "app_context_path_set"
  ].

(** * The parts *)

Definition ConfStat_Apply : list stmt := [
  StatEnabled <- the Enabled &&& getBoolean "stat_enabled" true;
  StatZipEnabled <- the StatEnabled &&& getBoolean "stat_zip_enabled" true;
  Stat1MEnabled <- the StatEnabled &&& getBoolean "stat_1m_enabled" false;
  StatIpEnabled <- the StatEnabled &&& getBoolean "stat_ip_enabled" true;
  StatIPURLEnabled <- getBoolean "stat_ipurl_enabled" false;
  StatIPURLMaxCount <- getInt "stat_ipurl_max_count" 10000;
  StatDomainEnabled <- the StatEnabled &&& getBoolean "stat_domain_enabled" true;
  StatDomainMaxCount <- getInt "stat_domain_max_count" 7000;
  StatMtraceEnabled <- the StatEnabled &&& getBoolean "stat_mtrace_enabled" false;
  StatMtraceMaxCount <- getInt "stat_mtrace_max_count" 7000;
  StatLoginEnabled <- the StatEnabled &&& getBoolean "stat_login_enabled" false;
  StatLoginMaxCount <- getInt "stat_login_max_count" 7000;
  StatRefererEnabled <- the StatEnabled &&& getBoolean "stat_referer_enabled" false;
  StatRefererMaxCount <- getInt "stat_referer_max_count" 7000;
  StatRefererFormat <- getInt "stat_referer_format" 0;
  StatTxMaxCount <- getInt "stat_tx_max_count" 5000;
  StatSqlMaxCount <- getInt "stat_sql_max_count" 5000;
  StatHttpcMaxCount <- getInt "stat_httpc_max_count" 5000;
  StatErrorMaxCount <- getInt "stat_error_max_count" 1000;
  StatUseragentMaxCount <- getInt "stat_useragent_max_count" 500;
  TxStatusMeterEnabled <- getBoolean "tx_status_meter_enabled" true;
  StatTxStatusEnabled <- getBoolean "stat_txstatus_enabled" true;
  StatTxStatusMaxCount <- getInt "stat_txstatus_max_count" 10000
  ].

Definition applyLogSink : list stmt := [
  LogSinkFiles <- getStringArray "logsink.files" ",";
  LogSinkInterval <- getInt "logsink_interval" 1000;
  WatchLogCheckInterval <- getLong "watchlog_check_interval" 2000;
  WatchLogReadCount <- getInt "watchlog_read_count" 4
] ++ below WatchLogReadCount 1 ++ [
  WatchLogSendCount <- getInt "watchlog_send_count" 0;
  WatchLogBufferSize <- getInt "watchlog_buffer_size" 131072;
  WatchLogLineSize <- getInt "watchlog_line_size" 512;
  LogSinkEnabled <- getBoolean "logsink_enabled" false;
  If (the LogSinkEnabled) [WatchLogEnabled <- val true] [
    WatchLogEnabled <- getBoolean "watchlog_enabled" false
  ];
  LogSinkQueueSize <- getInt "logsink_queue_size" 1000;
  LogSinkLineSize <- getInt "logsink_line_size" 512;
  DebugLogSinkEnabled <- getBoolean "debug_logsink_enabled" false;
  DebugLogSinkLineLimit <- getInt "debug_logsink_line_limit" 0;
  LogSinkZipEnabled <- the LogSinkEnabled &&& getBoolean "logsink_zip_enabled" true;
  LogSinkMaxBufferSize <- getInt "logsink_max_buffer_size" 65536;
  LogSinkMaxWaitTime <- getInt "logsink_max_wait_time" 2000;
  LogSinkZipMinSize <- getInt "logsink_zip_min_size" 100;
  DebugLogSinkZipEnabled <- getBoolean "debug_logsink_zip_enabled" false;
  LogSinkZipLibpath <- getValue "logsink_zip_libpath";
  TxIdTag <- getValue "logsink_txidtag";
  AppLogCategory <- getValue "logsink_applogcategory";
  AppLogPattern <- getValue "logsink_applogpattern";
  LogSendThreshold <- getInt "logsink_sendthreshold" 500;
  LogSinkStopInterval <- getLong "logsink_stop_interval" 1800000;
  LogSinkStdOutEnabled <- the LogSinkEnabled &&& getBoolean "logsink_stdout_enabled" false;
  LogSinkStdErrEnabled <- the LogSinkEnabled &&& getBoolean "logsink_stderr_enabled" false;
  LogSinkFmtEnabled <- the LogSinkEnabled &&& getBoolean "logsink_fmt_enabled" false;
  LogSinkCategoryStdOut <- getValueDef "logsink_category_stdout" "AppStdOut";
  LogSinkCategoryStdErr <- getValueDef "logsink_category_stderr" "AppStdErr";
  LogSinkLimitContentEnabled <- getBoolean "logsink_limit_content_enabled" false;
  LogSinkLimitContentLogSilentTime <- getInt "logsink_limit_content_log_silent_time" 1000;
  LogSinkLimitContentAlertSilentTime <- getInt "logsink_limit_content_alert_silent_time" 10000;
  LogsinkLimitContentAlertEnabled <- getBoolean "logsink_limit_content_alert_enabled" true;
  LogSinkLimitContentLength <- getInt "logsink_limit_content_length" 1000000;
  DebugLogSinkLimitContentEnabled <- getBoolean "debug_logsink_limit_content_enabled" true
  ].
(** [parseLogSinkTags]: [json.Unmarshal] gets a map that is nil and no pointer, which it
    refuses, so the tags are never read. *)
Definition parseLogSinkTags (tags : Config -> bytes) (c : Config) : Config :=
  match tags c with
  | [] =>
      let c := run [HasLogSinkTags_ <- val false; LogSinkTagsStr <- val []] c in
      match LogSinkTags c with [] => c | _ => c <| LogSinkTags := [] |> end
  | t => if bool_decide (t = the LogSinkTagsStr c) then c else run [LogSinkTagsStr <- val t] c
  end.
Definition logSinkRt (f : bfield) (key : bytes) : stmt :=
  f <- the LogSinkEnabled &&& (fun c => getBoolean key (the LogSinkEnabled c) c).
Definition applyLogSinkRt : list stmt := [
  LogSinkRtEnabled <- the LogSinkEnabled &&& getBoolean "logsink_rt_enabled" false;
  logSinkRt LogSinkRtDbcOkEnabled "logsink_rt_dbc_ok_enabled";
  logSinkRt LogSinkRtDbcErrorEnabled "logsink_rt_dbc_error_enabled";
  logSinkRt LogSinkRtHttpcOkEnabled "logsink_rt_httpc_ok_enabled";
  logSinkRt LogSinkRtHttpcErrorEnabled "logsink_rt_httpc_error_enabled";
  logSinkRt LogSinkRtSocketEnabled "logsink_rt_socket_enabled";
  LogSinkRtErrorInterval <- getLong "logsink_rt_error_interval" 5000;
  LogSinkRtOkInterval <- getLong "logsink_rt_ok_interval" 30000;
  LogSinkTraceTxidEnabled <- getBoolean "logsink_trace_txid_enabled" true;
  LogSinkTraceMtidEnabled <- getBoolean "logsink_trace_mtid_enabled" true;
  LogSinkTraceLoginEnabled <- getBoolean "logsink_trace_login_enabled" false;
  LogSinkTraceHttpHostEnabled <- getBoolean "logsink_trace_httphost_enabled" false;
  LogSinkTraceEnabled <- getBoolean "logsink_trace_enabled" true;
  LogSinkHighSecureEnabled <- getBoolean "logsink_high_secure_enabled" false
  ].
Definition ConfLogSink_Apply (c : Config) : Config :=
  run applyLogSinkRt (parseLogSinkTags (getValueDef "logsink_tags" "") (run applyLogSink c)).

Definition ConfFailover_Apply : list stmt := [
  NetFailoverRetrySendDataEnabled <- getBoolean "net_failover_retry_send_data_enabled" false;
  DebugTcpFailoverEnabled <- getBoolean "debug_tcp_failover_enabled" false
  ].

(** The new number is kept before the function is called; [None] is a nil function. *)
Definition ConfDebugTest_Apply (closeTcpFunc : option (res unit)) (c : Config) : Config * res unit :=
  let closeTcp := getInt "debug_close_tcp" 0 c in
  if bool_decide (the DebugCloseTcp c = closeTcp) then (c, Ret tt)
  else (set_field DebugCloseTcp closeTcp c, match closeTcpFunc with Some r => r | None => Panic end).

Definition ConfGo_Apply : list stmt := [
  GoSqlProfileEnabled <- the Enabled &&& getBoolean "go.sql_profile_enabled" true;
  GoCounterEnabled <- the Enabled &&& getBoolean "go.counter_enabled" true;
  GoCounterInterval <- getInt "go.counter_interval" 5000;
  GoCounterTimeout <- getInt "go.counter_interval" 5000;
  GoRecoverEnabled <- getBoolean "go.recover_enabled" false;
  GoUseGoroutineIDEnabled <- the Enabled &&& getBoolean "go.use_goroutine_id_enabled" true
  ].
Definition ConfGoGrpc_Apply : list stmt := [
  GoGrpcProfileEnabled <- the Enabled &&& getBoolean "go.grpc_profile_enabled" true;
  GoGrpcProfileStreamClientEnabled <- the GoGrpcProfileEnabled &&& getBoolean "go.grpc_profile_stream_client_enabled" true;
  GoGrpcProfileStreamServerEnabled <- the GoGrpcProfileEnabled &&& getBoolean "go.grpc_profile_stream_server_enabled" true;
  GoGrpcProfileIgnoreMethod <- getStringArray "go.grpc_profile_ignore_method" ",";
  GoGrpcProfileStreamMethod <- getStringArray "go.grpc_profile_stream_method" ",";
  GoGrpcProfileStreamIdentify <- the GoGrpcProfileEnabled &&& getBoolean "go.grpc_profile_stream_identify" false
  ].
(** The defaults that a boot file starts from. *)
Definition ConfGo_ApplyDefault (m : gmap bytes bytes) : gmap bytes bytes :=
  <[ "go.use_goroutine_id_enabled" : bytes := "false" : bytes ]> (<[ "go.counter_timeout" : bytes := "5000" : bytes ]>
  (<[ "go.counter_interval" : bytes := "5000" : bytes ]> (<[ "go.counter_enabled" : bytes := "true" : bytes ]>
  (<[ "go.sql_profile_enabled" : bytes := "true" : bytes ]> m)))).
Definition ConfGoGrpc_ApplyDefault (m : gmap bytes bytes) : gmap bytes bytes :=
  <[ "go.grpc_profile_stream_identify" : bytes := "false" : bytes ]> (<[ "go.grpc_profile_stream_method" : bytes := "" : bytes ]>
  (<[ "go.grpc_profile_ignore_method" : bytes := "" : bytes ]> (<[ "go.grpc_profile_stream_server_enabled" : bytes := "true" : bytes ]>
  (<[ "go.grpc_profile_stream_client_enabled" : bytes := "true" : bytes ]> (<[ "go.grpc_profile_enabled" : bytes := "true" : bytes ]> m))))).
Definition ConfProfile_Apply : list stmt := [
  ProfileMissingTxidEnabled <- getBoolean "profile_missing_txid_enabled" true;
  ProfileMissingTxidMaxTime <- getLong "profile_missing_txid_max_time" 30000;
  ProfileMissingTxidInterval <- getLong "profile_missing_txid_interval" 10000;
  ProfileMissingTxidLogEnabled <- getBoolean "profile_missing_txid_log_enabled" false;
  DebugProfileMissingTxidEnabled <- getBoolean "debug_profile_missing_txid_enabled" false
  ].
Definition ConfFowarder_Apply : list stmt := [
  FowarderEnabled <- getBoolean "fowarder_enabled" false;
  If (app_is APP_TYPE_GO) [
    FowarderEnabled <- getBoolean "fowarder_enabled" true
  ] [];
  NetIPCHost <- (fun c => getValueDef "net_ipc_host" (getValueDef "net_udp_host" "127.0.0.1" c) c);
  NetIPCPort <- (fun c => getInt "net_ipc_port" (getInt "net_udp_port" 6600 c) c);
  DebugFowarderEnalbed <- getBoolean "debug_fowarder_enabled" false
  ].

Definition traceStepCounts : list stmt := [
  TraceStepNormalCount <- getInt "profile_step_normal_count" 800;
  TraceStepHeavyCount <- getInt "profile_step_heavy_count" 1000;
  TraceStepMaxCount <- getInt "profile_step_max_count" 1024;
  TraceStepHeavyTime <- getInt "profile_step_heavy_time" 100;
  at_most TraceStepHeavyCount TraceStepMaxCount;
  at_most TraceStepNormalCount TraceStepHeavyCount
  ].
Definition ConfTrace_Apply : list stmt := [
  TraceZipEnabled <- getBoolean "profile_zip_enabled" true;
  TraceZipQueueSize <- getInt "profile_zip_queue_size" 1000;
  TraceZipMaxWaitTime <- getInt "profile_zip_max_wait_time" 1000;
  TraceZipMaxWait2Time <- getInt "profile_zip_max_wait2_time" 5000;
  TraceZipMaxBufferSize <- getInt "profile_zip_max_buffer_size" 1048576;
  TraceZipMinSize <- getInt "profile_zip_min_size" 100;
  TraceTxSplitQueueSize <- getInt "trace_txsplit_queue_size" 1000
] ++ traceStepCounts ++ [
  DebugTraceZipEnabled <- getBoolean "debug_profile_zip_enabled" false;
  DebugTraceZipInterval <- getInt "debug_profile_zip_interval" 5000;
  CircularProfileEnabled <- getBoolean "circular_profile_enabled" false;
  LargeProfileEnabled <- getBoolean "large_profile_enabled" false;
  SplitProfileEnabled <- getBoolean "split_profile_enabled" false;
  If (the SplitProfileEnabled) [InternalTraceCollectingMode <- val 4%Z]
    [If (the LargeProfileEnabled) [InternalTraceCollectingMode <- val 3%Z]
      [If (the CircularProfileEnabled) [InternalTraceCollectingMode <- val 2%Z] [InternalTraceCollectingMode <- val 1%Z]]];
  TxTextTxnameEnabled <- getBoolean "txtext_txname_enabled" false;
  TxTextErrorEnabled <- getBoolean "txtext_error_enabled" false;
  TxTextErrorLength <- getInt "txtext_error_length" 128;
  If (the TxTextErrorLength <?? val 1%Z) [TxTextErrorEnabled <- val false] [];
  TraceStatusErrorEnable <- getBoolean "transaction_status_error_enable" false;
  StatusIgnore <- (fun c => Some (GetIntSet "status_ignore" "" "," c))
  ].

(** * [apply] *)

Definition applyConfig : list stmt :=
  applyKeys ++ ConfLLM_Apply ++ applyNames ++ applyCounters ++ applyQueues ++ applyStatDefaults ++
  applyPod ++ applyNet ++ applyProfile ++ applyUsers ++ applyLog ++ applyMtrace ++ applyMeters ++
  applyHitMap ++ applyPhp ++ applyServer ++ applyErrorInfo ++ applyDebug ++ ConfStat_Apply.
Definition applyLast : list stmt :=
  ConfGo_Apply ++ ConfGoGrpc_Apply ++ ConfProfile_Apply ++ ConfFowarder_Apply ++ ConfTrace_Apply.
Definition apply (closeTcpFunc : option (res unit)) (c : Config) : Config :=
  let c := run ConfFailover_Apply (ConfLogSink_Apply (run applyConfig c)) in
  let '(c, closed) := ConfDebugTest_Apply closeTcpFunc c in
  match closed with Ret _ => run applyLast c | _ => c end.
End Apply.
