(* ===== verification/ConfApplyFacts.v ===== *)
(** What the settings are after [apply]: a function of the environment and the file
    alone, within their widths and bounds, and off when the agent is disabled. *)

From Stdlib Require Import SpecFloat.
From S2P Require Import Prelude UrlPattern TraceCtx Conf ConfApply.
#[local] Open Scope conf_scope.

(** * Statements *)

Section Statements.
Context {CL : ConfLib}.

(** Induction over statements with their branches. *)
Lemma stmt_ind' (P : stmt -> Prop) :
  (forall F V (K : Kind F V) f e, P (Assign K f e)) ->
  (forall b th el, Forall P th -> Forall P el -> P (If b th el)) -> forall s, P s.
Proof.
  intros HA HI. fix IH 1. intros [F V K f e|b th el]; [apply HA|].
  assert (forall l : list stmt, Forall P l) as Hl
    by (fix IHl 1; intros [|s l]; constructor; [apply IH|apply IHl]).
  by apply HI.
Defined.

#[export] Instance same_equiv f : Equivalence (same f).
Proof. split; destruct f; repeat intro; simpl in *; congruence. Qed.

Fixpoint writes (s : stmt) : list field :=
  match s with
  | Assign _ f _ => [name f]
  | If _ th el => concat (writes <$> th) ++ concat (writes <$> el)
  end.
Abbreviation all_writes l := (concat (writes <$> l)).

Lemma run_app l1 l2 c : run (l1 ++ l2) c = run l2 (run l1 c).
Proof. apply foldl_app. Qed.
Lemma run_assign {F V} (K : Kind F V) f e l c : run (Assign K f e :: l) c = run l (set_field f (e c) c).
Proof. done. Qed.
Lemma run_if b th el l c : run (If b th el :: l) c = run l (run (if b c then th else el) c).
Proof. done. Qed.

(** A field that is not assigned keeps its value. *)
Lemma run_same_of g l c :
  Forall (fun s => g ∉ writes s -> forall c, same g (exec c s) c) l -> g ∉ all_writes l -> same g (run l c) c.
Proof.
  intros Hl; revert c; induction Hl as [|s l Hs _ IH]; intros c Hg; [done|].
  simpl in Hg. apply not_elem_of_app in Hg as [Hg1 Hg2].
  change (run (s :: l) c) with (run l (exec c s)). rewrite (IH (exec c s) Hg2). by apply Hs.
Qed.
Lemma exec_same g s : g ∉ writes s -> forall c, same g (exec c s) c.
Proof.
  induction s as [F V K f e|b th el Hth Hel] using stmt_ind'; simpl; intros Hg c.
  - apply set_other. intros ->. by apply Hg, list_elem_of_singleton.
  - apply not_elem_of_app in Hg as [Hg1 Hg2]. destruct (b c); by apply run_same_of.
Qed.
Lemma run_same g l c : g ∉ all_writes l -> same g (run l c) c.
Proof. apply run_same_of, Forall_true. intros s. apply exec_same. Qed.
(** The same, with a test that evaluates. *)
Definition writes_not (g : field) (l : list stmt) : bool := negb (bool_decide (g ∈ all_writes l)).
Lemma run_the {F V} {K : Kind F V} f l c : writes_not (name f) l = true -> the f (run l c) = the f c.
Proof. intros H. apply same_the, run_same. by apply negb_true_iff, bool_decide_eq_false in H. Qed.

(** ** What is assigned whatever the settings were *)

Fixpoint assigned (s : stmt) : list field :=
  match s with
  | Assign _ f _ => [name f]
  | If _ th el => filter (.∈ concat (assigned <$> el)) (concat (assigned <$> th))
  end.
Abbreviation all_assigned l := (concat (assigned <$> l)).
Definition agree (S : list field) (c c' : Config) : Prop := Forall (fun f => same f c c') S.
(** [e] reads the fields of [S] only. *)
Definition dep {V} (S : list field) (e : Config -> V) : Prop := forall c c', agree S c c' -> e c = e c'.

(** Every expression reads fields of [S], or assigned before it; but for those of the
    fields of [E]. *)
Inductive fresh (E : list field) : list field -> list stmt -> Prop :=
| fresh_nil S : fresh E S []
| fresh_assign S F V (K : Kind F V) f e l : dep S e -> fresh E S l -> fresh E S (Assign K f e :: l)
| fresh_learn S F V (K : Kind F V) f e l :
    dep S e -> fresh E (name f :: S) l -> fresh E S (Assign K f e :: l)
| fresh_skip S F V (K : Kind F V) f e l :
    bool_decide (name f ∈ E) && negb (bool_decide (name f ∈ S)) = true -> fresh E S l ->
    fresh E S (Assign K f e :: l)
| fresh_if S b th el l : dep S b -> fresh E S th -> fresh E S el -> fresh E S l -> fresh E S (If b th el :: l).

Lemma agree_in S f c c' : agree S c c' -> f ∈ S -> same f c c'.
Proof. intros H Hf. by apply (proj1 (Forall_forall _ _) H). Qed.
Lemma same_set {F V} (K : Kind F V) f v g c c' :
  (same g c c' \/ g = name f) -> same g (set_field f v c) (set_field f v c').
Proof.
  intros Hg. destruct (decide (g = name f)) as [->|Hne]; [apply same_the; by rewrite !the_set|].
  rewrite !set_other by done. by destruct Hg.
Qed.
Lemma agree_set {F V} (K : Kind F V) S f v c c' : agree S c c' -> agree S (set_field f v c) (set_field f v c').
Proof. intros H. eapply Forall_impl; [exact H|]. intros g Hg. apply same_set. by left. Qed.

(** Two structs that agree on [S] agree after [l] on what they agreed on and on what [l]
    assigns. *)
Lemma fresh_run E S l : fresh E S l -> forall c c', agree S c c' ->
  agree S (run l c) (run l c') /\
  forall g, g ∉ E -> (same g c c' \/ g ∈ all_assigned l) -> same g (run l c) (run l c').
Proof.
  induction 1 as [S|S F V K f e l He _ IH|S F V K f e l He _ IH|S F V K f e l Hf _ IH|S b th el l Hb _ IH1 _ IH2 _ IH3];
    intros c c' Ha.
  - split; [done|]. intros g _ [H|H]; [done|]. by apply elem_of_nil in H.
  - rewrite !run_assign, (He c c' Ha). destruct (IH _ _ (agree_set K S f (e c') c c' Ha)) as [IHa IHg].
    split; [done|]. intros g Hg Hs. apply IHg; [done|]. simpl in Hs.
    destruct Hs as [Hs|[->|Hs]%elem_of_cons]; [left|left|by right]; apply same_set; auto.
  - rewrite !run_assign, (He c c' Ha).
    assert (agree (name f :: S) (set_field f (e c') c) (set_field f (e c') c')) as Ha'.
    { constructor; [apply same_set; by right|by apply agree_set]. }
    destruct (IH _ _ Ha') as [IHa IHg]. split; [by inversion IHa|].
    intros g Hg Hs. apply IHg; [done|]. simpl in Hs.
    destruct Hs as [Hs|[->|Hs]%elem_of_cons]; [left|left|by right]; apply same_set; auto.
  - rewrite !run_assign. apply andb_true_iff in Hf as [Hf Hn]. apply bool_decide_eq_true in Hf.
    apply negb_true_iff, bool_decide_eq_false in Hn.
    assert (forall g, g <> name f -> same g c c' -> same g (set_field f (e c) c) (set_field f (e c') c')) as Hk.
    { intros g Hne Hs. by rewrite !set_other. }
    destruct (IH (set_field f (e c) c) (set_field f (e c') c')) as [IHa IHg].
    { apply Forall_forall. intros g Hg. apply Hk; [congruence|]. by apply (agree_in S). }
    split; [done|]. intros g Hg Hs. apply IHg; [done|]. simpl in Hs.
    destruct Hs as [Hs|[->|Hs]%elem_of_cons]; [left|done|by right]. apply Hk; [congruence|done].
  - rewrite !run_if, (Hb c c' Ha).
    assert (agree S (run (if b c' then th else el) c) (run (if b c' then th else el) c') /\
      forall g, g ∉ E -> (same g c c' \/ g ∈ assigned (If b th el)) ->
        same g (run (if b c' then th else el) c) (run (if b c' then th else el) c')) as [Ha' Hg'].
    { destruct (b c'); [destruct (IH1 c c' Ha) as [? Hr]|destruct (IH2 c c' Ha) as [? Hr]]; (split; [done|]);
        intros g Hg [Hs|Hs]; apply Hr; auto; simpl in Hs; apply list_elem_of_filter in Hs; right; tauto. }
    destruct (IH3 _ _ Ha') as [IHa IHg]. split; [done|]. intros g Hg Hs. apply IHg; [done|].
    cbn [fmap list_fmap concat] in Hs. destruct Hs as [Hs|[Hs|Hs]%elem_of_app]; [left|left|by right]; apply Hg'; auto.
Qed.
End Statements.

Section Reading.
Context {CL : ConfLib} {SU : StringUtil}.
Variable Getenv : bytes -> bytes.
Variable prop : option properties.

(** What an expression reads: the struct through its fields and through [getValue]. *)
Lemma dep_the {F V} (K : Kind F V) S f : bool_decide (name f ∈ S) = true -> dep S (the f).
Proof. intros Hf%bool_decide_eq_true c c' H. by apply same_the, (agree_in S). Qed.
Lemma dep_getValue S key :
  bool_decide (FB UseEnvFirst ∈ S) && bool_decide (FI AppType ∈ S) = true -> dep S (getValue Getenv prop key).
Proof.
  intros [H1 H2]%andb_true_iff c c' H. unfold getValue, prefixed.
  by rewrite (dep_the kind_bool S UseEnvFirst H1 c c' H), (dep_the kind_int S AppType H2 c c' H).
Qed.

#[local] Ltac read Hb H :=
  intros Hb c c' H; repeat first [progress unfold getValueDef, getBoolean, getInt, getLong, getFloat, getStringArray,
    getStringArrayDef, GetIntSet, GetStringHashCodeSet, toHashSet, toStringSet
    | rewrite (dep_getValue _ _ Hb c c' H)]; reflexivity.
#[local] Abbreviation reads S e := (bool_decide (FB UseEnvFirst ∈ S) && bool_decide (FI AppType ∈ S) = true -> dep S (e)).
Lemma dep_getValueDef S key d : reads S (getValueDef Getenv prop key d).
Proof. read Hb H. Qed.
Lemma dep_getBoolean S key d : reads S (getBoolean Getenv prop key d).
Proof. read Hb H. Qed.
Lemma dep_getInt S key d : reads S (getInt Getenv prop key d).
Proof. read Hb H. Qed.
Lemma dep_getLong S key d : reads S (getLong Getenv prop key d).
Proof. read Hb H. Qed.
Lemma dep_getFloat S key d : reads S (getFloat Getenv prop key d).
Proof. read Hb H. Qed.
Lemma dep_getStringArray S key d : reads S (getStringArray Getenv prop key d).
Proof. read Hb H. Qed.
Lemma dep_getStringArrayDef S key d v : reads S (getStringArrayDef Getenv prop key d v).
Proof. read Hb H. Qed.
Lemma dep_GetIntSet S key d v : reads S (GetIntSet Getenv prop key d v).
Proof. read Hb H. Qed.
Lemma dep_GetStringHashCodeSet S key d v : reads S (GetStringHashCodeSet Getenv prop key d v).
Proof. read Hb H. Qed.
Lemma dep_toHashSet S key d : reads S (toHashSet Getenv prop key d).
Proof. read Hb H. Qed.
Lemma dep_toStringSet S key d : reads S (toStringSet Getenv prop key d).
Proof. read Hb H. Qed.
Lemma dep_home S : bool_decide (FI AppType ∈ S) = true -> dep S (GetWhatapHome Getenv).
Proof. intros H1 c c' H. unfold GetWhatapHome. by rewrite (dep_the kind_int S AppType H1 c c' H). Qed.
End Reading.

(** An expression that reads known fields only. *)
Ltac dep_step :=
  match goal with
  | H : agree ?S ?c ?c' |- context [the (Kind:=?K) ?f ?c] => rewrite (dep_the K S f eq_refl c c' H)
  | H : agree ?S ?c ?c' |- context [getValue ?G ?p ?k ?c] => rewrite (dep_getValue G p S k eq_refl c c' H)
  | H : agree ?S ?c ?c' |- context [getBoolean ?G ?p ?k ?d ?c] => rewrite (dep_getBoolean G p S k d eq_refl c c' H)
  | H : agree ?S ?c ?c' |- context [getInt ?G ?p ?k ?d ?c] => rewrite (dep_getInt G p S k d eq_refl c c' H)
  | H : agree ?S ?c ?c' |- context [getLong ?G ?p ?k ?d ?c] => rewrite (dep_getLong G p S k d eq_refl c c' H)
  | H : agree ?S ?c ?c' |- context [getFloat ?G ?p ?k ?d ?c] => rewrite (dep_getFloat G p S k d eq_refl c c' H)
  | H : agree ?S ?c ?c' |- context [GetWhatapHome ?G ?c] => rewrite (dep_home G S eq_refl c c' H)
  | H : agree ?S ?c ?c' |- context [getValueDef ?G ?p ?k ?d ?c] => rewrite (dep_getValueDef G p S k d eq_refl c c' H)
  | H : agree ?S ?c ?c' |- context [getStringArray ?G ?p ?k ?d ?c] =>
      rewrite (dep_getStringArray G p S k d eq_refl c c' H)
  | H : agree ?S ?c ?c' |- context [getStringArrayDef ?G ?p ?k ?d ?v ?c] =>
      rewrite (dep_getStringArrayDef G p S k d v eq_refl c c' H)
  | H : agree ?S ?c ?c' |- context [GetIntSet ?G ?p ?k ?d ?v ?c] => rewrite (dep_GetIntSet G p S k d v eq_refl c c' H)
  | H : agree ?S ?c ?c' |- context [GetStringHashCodeSet ?G ?p ?k ?d ?v ?c] =>
      rewrite (dep_GetStringHashCodeSet G p S k d v eq_refl c c' H)
  | H : agree ?S ?c ?c' |- context [toHashSet ?G ?p ?k ?d ?c] => rewrite (dep_toHashSet G p S k d eq_refl c c' H)
  | H : agree ?S ?c ?c' |- context [toStringSet ?G ?p ?k ?d ?c] => rewrite (dep_toStringSet G p S k d eq_refl c c' H)
  end.
Ltac solve_dep :=
  let c := fresh "c" in let c' := fresh "c'" in let H := fresh "H" in
  intros c c' H;
  cbv beta delta [both neg either equals lt val blank empty app_is has_some podName]; cbv beta;
  repeat dep_step; reflexivity.
(** A field is remembered when it is read later. *)
Ltac solve_fresh :=
  lazymatch goal with
  | |- fresh _ _ [] => apply fresh_nil
  | |- fresh _ _ (Assign _ UseEnvFirst _ :: _) => apply fresh_learn; [solve_dep|]; solve_fresh
  | |- fresh _ _ (Assign ?K ?f ?e :: ?l) =>
      let assign := first [apply fresh_assign; [solve_dep|] | apply fresh_skip; [reflexivity|]] in
      lazymatch l with
      | context [the (Kind:=K) f] => first [apply fresh_learn; [solve_dep|] | assign]
      | _ => assign
      end; solve_fresh
  | |- fresh _ _ (If _ _ _ :: _) => apply fresh_if; [solve_dep | solve_fresh | solve_fresh | solve_fresh]
  end.

(** The lists of [apply], in one. *)
Ltac flat :=
  cbv beta delta [applyConfig applyLast applyKeys ConfLLM_Apply ConfLLM_Load ApplyChannelOverride applyNames
    counterTimeout applyCounters applyQueues applyStatDefaults applyPod applyNet profileStepCounts applyProfile
    applyUsers applyLog mtraceRate applyMtrace meterSelfBuffers applyMeters percent applyHitMap applyPhp applyServer
    applyErrorInfo applyDebug ConfStat_Apply applyLogSink logSinkRt applyLogSinkRt ConfFailover_Apply ConfGo_Apply
    ConfGoGrpc_Apply ConfProfile_Apply ConfFowarder_Apply traceStepCounts ConfTrace_Apply at_most above below podName
    has_some]; cbn [app].
(** The fields that a list assigns in every branch. *)
Abbreviation all_assigned l := (concat (assigned <$> l)).

Section Facts.
Context {CL : ConfLib} {SU : StringUtil}.
Variable Getenv : bytes -> bytes.
Variable prop : option properties.

(** * A function of the environment and the file *)

(** What [apply] leaves as it was: the fields that it does not assign, and those whose
    new value depends on the old one. *)
Definition stale : list field := [FF TxDefaultLoadFactor; FB HasLogSinkTags_; FS LogSinkTagsStr].
Definition kept : list field := stale ++
  [FB ExitWithParentProcessEnabled; FB NetFailoverRetryCounterPackEnabled; FB HttpStatusErrorEnabled;
   FB HasHttpcStatusURLIgnoreSet; FB HasHttpcStatusURLAlertIgnoreSet; FB HasHttpcStatusHostIgnoreSet;
   FI PCODE; FI OID; FI DebugGCPercent; FI DebugGCPercentLast; FI GoGrpcProfileStreamRate; FI TraceStatusErrorMode;
   FI HttpStatusErrorMode; FS ApacheServerStatusUrl; FS NginxServerStatusUrl; FS FpmServerStatusUrl;
   FN HttpcStatusIgnore; FN HttpcStatusAlertIgnore; FN StatusAlertIgnore].

Lemma applyConfig_fresh : fresh stale [FI AppType] (applyConfig Getenv prop).
Proof. flat. solve_fresh. Qed.

#[local] Abbreviation reading := [FI AppType; FB UseEnvFirst; FB Enabled].
Lemma parts_fresh :
  fresh stale reading (applyLogSink Getenv prop) /\ fresh stale (FB LogSinkEnabled :: reading) (applyLogSinkRt Getenv prop) /\
  fresh stale reading (ConfFailover_Apply Getenv prop) /\ fresh stale reading (applyLast Getenv prop).
Proof. flat. repeat split; solve_fresh. Qed.

(** A step of [apply]: it keeps an agreement on what is read, and two structs agree after
    it on [A] as well. *)
Definition step_fresh (A : list field) (f : Config -> Config) (c c' : Config) : Prop :=
  agree reading (f c) (f c') /\
  forall g, g ∉ stale -> (same g c c' \/ g ∈ A) -> same g (f c) (f c').
Lemma run_step S l c c' :
  fresh stale S l -> agree S c c' -> reading ⊆ S -> step_fresh (all_assigned l) (run l) c c'.
Proof.
  intros Hl Ha Hs. destruct (fresh_run _ _ _ Hl c c' Ha) as [Ha' Hg]. split; [|done].
  apply Forall_forall. intros g Hr. by apply (agree_in S), Hs.
Qed.
Lemma step_trans A B f h c c' :
  step_fresh A f c c' -> step_fresh B h (f c) (f c') -> step_fresh (A ++ B) (fun c => h (f c)) c c'.
Proof.
  intros [_ Hf] [Ha Hh]. split; [done|]. intros g Hs Hg. apply Hh; [done|].
  destruct Hg as [Hg|[Hg|Hg]%elem_of_app]; auto.
Qed.
Lemma tags_same g c : g ∉ stale -> same g (parseLogSinkTags (getValueDef Getenv prop (str "logsink_tags") []) c) c.
Proof.
  intros Hg. unfold parseLogSinkTags. destruct (getValueDef _ _ _ _ _) as [|x t]; cbv zeta.
  - assert (same g (run [HasLogSinkTags_ <- val false; LogSinkTagsStr <- val []] c) c) as H.
    { apply run_same. cbn. set_solver. }
    destruct (LogSinkTags (run _ c)); [exact H|]. destruct g; exact H.
  - case_bool_decide; [done|]. apply run_same. cbn. set_solver.
Qed.
Lemma tags_step c c' : agree reading c c' ->
  step_fresh [] (parseLogSinkTags (getValueDef Getenv prop (str "logsink_tags") [])) c c'.
Proof.
  intros Ha. split.
  - apply Forall_forall. intros g Hg. rewrite !tags_same; [|set_solver..]. by apply (agree_in reading).
  - intros g Hg [Hs|Hs%elem_of_nil]; [|done]. by rewrite !tags_same.
Qed.
Lemma elem_check (g : field) (l : list field) : bool_decide (g ∈ l) = true -> g ∈ l.
Proof. apply bool_decide_eq_true. Qed.
Lemma not_elem_check (g : field) (l : list field) : bool_decide (g ∈ l) = false -> g ∉ l.
Proof. apply bool_decide_eq_false. Qed.
Lemma first_step c c' : the AppType c = the AppType c' ->
  step_fresh (all_assigned (applyConfig Getenv prop)) (run (applyConfig Getenv prop)) c c'.
Proof.
  intros Ht. assert (agree [FI AppType] c c') as Ha by (by repeat constructor).
  destruct (fresh_run _ _ _ applyConfig_fresh c c' Ha) as [Ha' Hg].
  assert (forall g, g ∈ [FB UseEnvFirst; FB Enabled] ->
    same g (run (applyConfig Getenv prop) c) (run (applyConfig Getenv prop) c')) as He.
  { intros g Hin. apply Hg; [clear -Hin; set_solver|]. right. apply elem_check.
    apply elem_of_cons in Hin as [->|Hin]; [by vm_compute|]. apply list_elem_of_singleton in Hin as ->. by vm_compute. }
  split; [|done]. constructor; [by inversion Ha'|].
  constructor; [by apply He, elem_check|]. constructor; [by apply He, elem_check|done].
Qed.
Lemma logsink_step c c' : agree reading c c' ->
  step_fresh (all_assigned (applyLogSink Getenv prop) ++ [] ++ all_assigned (applyLogSinkRt Getenv prop))
    (ConfLogSink_Apply Getenv prop) c c'.
Proof.
  intros Ha. destruct parts_fresh as (H1 & H2 & _).
  pose proof (run_step _ _ c c' H1 Ha ltac:(done)) as S1. pose proof S1 as [A1 G1].
  pose proof (tags_step _ _ A1) as S2. pose proof S2 as [A2 G2].
  refine (step_trans _ _ _ (fun d => run (applyLogSinkRt Getenv prop) (parseLogSinkTags _ d)) _ _ S1 _).
  refine (step_trans [] _ _ (run (applyLogSinkRt Getenv prop)) _ _ S2 _). apply run_step with (FB LogSinkEnabled :: reading); [done| |intros x Hx; by right].
  constructor; [|done]. apply G2; [by apply not_elem_check|]. left. apply G1; [by apply not_elem_check|]. right.
  apply (elem_check (FB LogSinkEnabled)). by vm_compute.
Qed.
Definition before_test : list field :=
  all_assigned (applyConfig Getenv prop) ++
  (all_assigned (applyLogSink Getenv prop) ++ [] ++ all_assigned (applyLogSinkRt Getenv prop)) ++
  all_assigned (ConfFailover_Apply Getenv prop).
Definition before (c : Config) : Config :=
  run (ConfFailover_Apply Getenv prop) (ConfLogSink_Apply Getenv prop (run (applyConfig Getenv prop) c)).
Lemma before_step c c' : the AppType c = the AppType c' -> step_fresh before_test before c c'.
Proof.
  intros Ht. pose proof (first_step c c' Ht) as S1. pose proof S1 as [A1 _].
  pose proof (logsink_step _ _ A1) as S2. pose proof S2 as [A2 _].
  refine (step_trans _ _ _ (fun d => run (ConfFailover_Apply Getenv prop) (ConfLogSink_Apply Getenv prop d)) _ _ S1 _).
  refine (step_trans _ _ _ (run (ConfFailover_Apply Getenv prop)) _ _ S2 _).
  apply run_step with reading; [apply parts_fresh|done..].
Qed.
(** Every field is in one of the lists. *)
Definition all_fields : list field :=
  (FB <$> bfields) ++ (FI <$> ifields) ++ (FS <$> sfields) ++ (FA <$> afields) ++ (FF <$> ffields) ++
  (FN <$> nfields) ++ (FT <$> tfields).
Lemma in_all_fields g : g ∈ all_fields.
Proof.
  assert (forall {A} (h : A -> field) (l : list A) x i, l !! i = Some x -> h x ∈ h <$> l) as Hf.
  { intros A h l x i H. apply list_elem_of_fmap_2. by eapply list_elem_of_lookup_2. }
  unfold all_fields. rewrite !elem_of_app.
  destruct g as [f|f|f|f|f|f|f]; [left|right;left|do 2 right;left|do 3 right;left|do 4 right;left|do 5 right;left|do 6 right];
    eapply Hf; [apply bfields_all|apply ifields_all|apply sfields_all|apply afields_all|apply ffields_all|apply nfields_all|
      apply tfields_all].
Qed.
Lemma assigned_or_kept g : g ∉ kept ->
  g ∈ FI AppType :: FI DebugCloseTcp :: before_test ++ all_assigned (applyLast Getenv prop).
Proof.
  intros Hk.
  assert (forallb (fun g => bool_decide (g ∈ kept) || bool_decide (g ∈ FI AppType :: FI DebugCloseTcp :: before_test ++
    all_assigned (applyLast Getenv prop))) all_fields = true) as Hb by by vm_compute.
  rewrite forallb_forall in Hb. specialize (Hb g (proj1 (list_elem_of_In _ _) (in_all_fields g))).
  rewrite (bool_decide_false (g ∈ kept)) in Hb by done. by apply bool_decide_eq_true in Hb.
Qed.

Lemma test_same closeTcp g c : g <> FI DebugCloseTcp -> same g (ConfDebugTest_Apply Getenv prop closeTcp c).1 c.
Proof.
  intros Hg. unfold ConfDebugTest_Apply. cbv zeta. case_bool_decide; [reflexivity|]. exact (set_other DebugCloseTcp _ c g Hg).
Qed.
Lemma test_returns c : (ConfDebugTest_Apply Getenv prop (Some (Ret tt)) c).2 = Ret tt.
Proof. unfold ConfDebugTest_Apply. cbv zeta. by case_bool_decide. Qed.
(** [apply] ends with its last lists, or before them. *)
Lemma apply_ends closeTcp c :
  let d := (ConfDebugTest_Apply Getenv prop closeTcp (before c)).1 in
  apply Getenv prop closeTcp c = run (applyLast Getenv prop) d \/ apply Getenv prop closeTcp c = d.
Proof.
  cbv zeta. unfold apply. fold (before c).
  destruct (ConfDebugTest_Apply Getenv prop closeTcp (before c)) as [d []]; [by left|by right..].
Qed.
Lemma apply_returns c :
  apply Getenv prop (Some (Ret tt)) c =
    run (applyLast Getenv prop) (ConfDebugTest_Apply Getenv prop (Some (Ret tt)) (before c)).1.
Proof.
  unfold apply. fold (before c). pose proof (test_returns (before c)) as H.
  destruct (ConfDebugTest_Apply _ _ _ (before c)) as [d r]. simpl in H. by subst r.
Qed.
Lemma reading_not_stale h : h ∈ reading -> h ∉ stale.
Proof. set_solver. Qed.

(** C12. After [apply] the settings depend on the environment, the file and the kind of
    agent only: whatever they were before, every field but those that the code leaves
    alone has the value of a fresh start, when the session closes as it was asked to. *)
Theorem apply_fresh closeTcp c c' g :
  closeTcp = Some (Ret tt) -> the AppType c = the AppType c' -> g ∉ kept ->
  same g (apply Getenv prop closeTcp c) (apply Getenv prop closeTcp c').
Proof.
  intros -> Ht Hk. pose proof (before_step c c' Ht) as [Ha Hg].
  unfold apply. fold (before c) (before c'). set (d := before c) in *. set (d' := before c') in *. clearbody d d'.
  assert (forall d, exists e, ConfDebugTest_Apply Getenv prop (Some (Ret tt)) d = (e, Ret tt) /\
    (forall g, g <> FI DebugCloseTcp -> same g e d) /\ the DebugCloseTcp e = getInt Getenv prop (str "debug_close_tcp") 0 d) as Ht'.
  { intros x. unfold ConfDebugTest_Apply. case_bool_decide; eexists; (split; [done|]); (split; [|done || apply the_set]);
      [done|]. intros h Hh. by apply set_other. }
  destruct (Ht' d) as (e & -> & He & Hd), (Ht' d') as (e' & -> & He' & Hd').
  assert (forall h, h ∉ stale -> same h d d' \/ h = FI DebugCloseTcp -> same h e e') as Hs.
  { intros h Hst [Hh | ->].
    - destruct (decide (h = FI DebugCloseTcp)) as [->|Hne]; [|by rewrite He, He'].
      change (the DebugCloseTcp e = the DebugCloseTcp e'). rewrite Hd, Hd'. by apply (dep_getInt Getenv prop reading _ _ eq_refl).
    - change (the DebugCloseTcp e = the DebugCloseTcp e'). rewrite Hd, Hd'. by apply (dep_getInt Getenv prop reading _ _ eq_refl). }
  destruct (run_step reading (applyLast Getenv prop) e e') as [_ Hl]; [apply parts_fresh| |done|].
  - apply Forall_forall. intros h Hh. apply Hs; [by apply reading_not_stale|]. left. by apply (agree_in reading).
  - assert (g ∉ stale) as Hst by (intros Hst; apply Hk; by apply elem_of_app; left).
    apply Hl; [done|]. pose proof (assigned_or_kept g Hk) as Hin.
    apply elem_of_cons in Hin as [->|Hin]; [left; apply Hs; [done|]; left; by apply (agree_in reading); [|left]|].
    apply elem_of_cons in Hin as [->|Hin]; [left; apply Hs; [done|by right]|].
    apply elem_of_app in Hin as [Hin|Hin]; [left; apply Hs; [done|]; left; apply Hg; auto|by right].
Qed.
End Facts.
