(* ===== verification/ConfBounds.v ===== *)
(** What [apply] ensures of the settings: an agent that is disabled has its switches
    off, the numbers are within their widths, and those with bounds are within them. *)

From S2P Require Import Prelude UrlPattern TraceCtx Conf ConfApply ConfApplyFacts.
#[local] Open Scope conf_scope.

Section Off.
Context {CL : ConfLib}.

(** * An agent that is disabled *)

(** The switches of [D] are off when the agent is. *)
Definition Off (D : list bfield) (c : Config) : Prop :=
  the Enabled c = false -> Forall (fun f => the f c = false) D.
Definition off_exp (D : list bfield) (e : Config -> bool) : Prop :=
  forall c, the Enabled c = false -> Forall (fun f => the f c = false) D -> e c = false.
Definition offs (D : list bfield) (l : list stmt) (D' : list bfield) : Prop := forall c, Off D c -> Off D' (run l c).

Lemma off_in D f c : Forall (fun f => the f c = false) D -> bool_decide (f ∈ D) = true -> the f c = false.
Proof. intros H Hf%bool_decide_eq_true. by apply (proj1 (Forall_forall _ _) H). Qed.
Lemma offs_nil D : offs D [] D.
Proof. by intros c H. Qed.
Lemma offs_other {F V} (K : Kind F V) D g e l D' :
  bool_decide (name g ∈ FB <$> Enabled :: D) = false -> offs D l D' -> offs D (Assign K g e :: l) D'.
Proof.
  intros Hg%bool_decide_eq_false Hl c H. rewrite run_assign. apply Hl. intros He.
  assert (forall f, f ∈ Enabled :: D -> the f (set_field g (e c) c) = the f c) as Hs.
  { intros f Hf. apply (set_other g (e c) c (FB f)). intros E. apply Hg. rewrite <- E. by apply (list_elem_of_fmap_2 FB). }
  rewrite Hs in He by by left. apply Forall_forall. intros f Hf. rewrite Hs by by right.
  exact (proj1 (Forall_forall _ _) (H He) f Hf).
Qed.
Lemma offs_learn D f e l D' :
  bool_decide (f = Enabled) = false -> off_exp D e -> offs (f :: D) l D' -> offs D (Assign kind_bool f e :: l) D'.
Proof.
  intros Hf%bool_decide_eq_false He Hl c H. rewrite run_assign. apply Hl. intros Hc.
  assert (the Enabled c = false) as Hc' by (rewrite <- Hc; symmetry; apply (set_other f (e c) c (FB Enabled)); simpl; congruence).
  specialize (H Hc'). assert (forall g, g = f \/ the g c = false -> the g (set_field f (e c) c) = false) as Hs.
  { intros g Hg. destruct (decide (g = f)) as [->|Hne]; [rewrite the_set; by apply He|].
    destruct Hg as [Hg|Hg]; [done|]. rewrite <- Hg. apply (set_other f (e c) c (FB g)). simpl; congruence. }
  constructor; [by apply Hs; left|]. eapply Forall_impl; [exact H|]. intros g Hg. apply Hs. by right.
Qed.
Lemma offs_again D f e l D' :
  bool_decide (f = Enabled) = false -> off_exp D e -> offs D l D' -> offs D (Assign kind_bool f e :: l) D'.
Proof. intros Hf He Hl. apply offs_learn; [done..|]. intros c H. apply Hl. intros Hc. pose proof (H Hc) as Hx. by inversion Hx. Qed.
Lemma offs_enabled D e l D' : offs [] l D' -> offs D (Assign kind_bool Enabled e :: l) D'.
Proof. intros Hl c _. rewrite run_assign. apply Hl. constructor. Qed.
Lemma offs_if D b th el l D1 D' : offs D th D1 -> offs D el D1 -> offs D1 l D' -> offs D (If b th el :: l) D'.
Proof. intros H1 H2 Hl c H. rewrite run_if. apply Hl. destruct (b c); auto. Qed.
Lemma offs_run D l D' c : offs D l D' -> Off D c -> Off D' (run l c).
Proof. auto. Qed.

(** The switches that follow [enabled]. *)
Definition switches : list bfield :=
  [TransactionEnabled; CounterEnabled; CounterEnabledTranx_; CounterEnabledAct_; CounterEnabledUser_; CounterEnabledHttpc_;
   CounterEnabledSql_; CounterEnabledAgentInfo_; CounterEnabledHeap_; CounterEnabledProc_; CounterEnabledPackVer_;
   CounterEnabledSysPerfKube_; CounterEnabledSysPerf_; CounterEnabledActiveStats_; CounterEnabledDBPool_;
   RealtimeUserEnabled; ActiveStackEnabled; TagCounterEnabled; StatEnabled; StatZipEnabled; Stat1MEnabled; StatIpEnabled;
   StatDomainEnabled; StatMtraceEnabled; StatLoginEnabled; StatRefererEnabled].
Definition goSwitches : list bfield :=
  [GoSqlProfileEnabled; GoCounterEnabled; GoUseGoroutineIDEnabled; GoGrpcProfileEnabled; GoGrpcProfileStreamClientEnabled;
   GoGrpcProfileStreamServerEnabled; GoGrpcProfileStreamIdentify].
End Off.

Ltac solve_off_exp :=
  let c := fresh "c" in let He := fresh "He" in let Hd := fresh "Hd" in
  intros c He Hd; cbv beta delta [both val]; cbv beta;
  first [ reflexivity | rewrite He; reflexivity
        | match goal with |- context [the (Kind:=kind_bool) ?f c] => rewrite (off_in _ f c Hd eq_refl) end; reflexivity ].
(** [goal]: the switches to establish. *)
Ltac solve_offs goal :=
  lazymatch goal with
  | |- offs _ [] _ => apply offs_nil
  | |- offs _ (Assign _ Enabled _ :: _) _ => apply offs_enabled; solve_offs goal
  | |- offs ?D (Assign ?K ?f ?e :: _) _ =>
      let k := eval vm_compute in
        (bool_decide (name (Kind:=K) f ∈ FB <$> goal), bool_decide (name (Kind:=K) f ∈ FB <$> D)) in
      lazymatch k with
      | (true, true) => apply offs_again; [reflexivity | solve_off_exp |]
      | (true, false) => first [apply offs_learn; [reflexivity | solve_off_exp |] | apply offs_other; [reflexivity|]]
      | _ => apply offs_other; [reflexivity|]
      end; solve_offs goal
  | |- offs _ (If _ _ _ :: _) _ => eapply offs_if; [solve_offs goal | solve_offs goal | solve_offs goal]
  end.

Section Disabled.
Context {CL : ConfLib} {SU : StringUtil}.
Variable Getenv : bytes -> bytes.
Variable prop : option properties.

Lemma applyConfig_off : exists D, offs [] (applyConfig Getenv prop) D /\ bool_decide (switches ⊆ D) = true.
Proof. eexists. split; [flat; solve_offs switches|]. vm_compute. reflexivity. Qed.
Lemma applyLast_off : exists D, offs [] (applyLast Getenv prop) D /\ bool_decide (goSwitches ⊆ D) = true.
Proof. eexists. split; [flat; solve_offs goSwitches|]. vm_compute. reflexivity. Qed.

Lemma Off_incl D D' c : bool_decide (D ⊆ D') = true -> Off D' c -> Off D c.
Proof.
  intros Hs%bool_decide_eq_true H He. apply Forall_forall. intros f Hf. by apply (proj1 (Forall_forall _ _) (H He)), Hs.
Qed.
Lemma Off_same D c d : (forall f, f ∈ Enabled :: D -> same (FB f) d c) -> Off D c -> Off D d.
Proof.
  intros Hs H He. assert (the Enabled c = false) as Hc by (rewrite <- He; symmetry; apply (Hs Enabled); by left).
  apply Forall_forall. intros f Hf. transitivity (the f c); [apply (Hs f); by right|].
  exact (proj1 (Forall_forall _ _) (H Hc) f Hf).
Qed.
(** Lists that assign no switch. *)
Definition apart (D : list bfield) (l : list stmt) : bool := forallb (fun f => writes_not (FB f) l) (Enabled :: D).
Lemma Off_run D l c : apart D l = true -> Off D c -> Off D (run l c).
Proof.
  intros Ha. apply Off_same. intros f Hf. unfold apart in Ha. rewrite forallb_forall in Ha.
  apply run_same. specialize (Ha f (proj1 (list_elem_of_In _ _) Hf)).
  by apply negb_true_iff, bool_decide_eq_false in Ha.
Qed.
(** The parts after the first one, when no list of theirs assigns a switch. *)
Lemma before_last D c :
  (forall f, f ∈ D -> FB f ∉ stale) ->
  forallb (apart D) [applyLogSink Getenv prop; applyLogSinkRt Getenv prop; ConfFailover_Apply Getenv prop] = true ->
  Off D (run (applyConfig Getenv prop) c) -> Off D (before Getenv prop c).
Proof.
  intros Hst Ha H. simpl in Ha. rewrite !andb_true_iff in Ha. destruct Ha as (H1 & H2 & H3 & _).
  unfold before. apply Off_run; [done|]. unfold ConfLogSink_Apply. apply Off_run; [done|].
  apply (Off_same D (run (applyLogSink Getenv prop) (run (applyConfig Getenv prop) c))); [|by apply Off_run].
  intros f Hf. apply tags_same. apply elem_of_cons in Hf as [->|Hf]; [by apply not_elem_check|by apply Hst].
Qed.

(** When the agent is disabled, by [enabled] or by [shutdown], every switch of the
    transactions, the counters and the statistics is off; and those of the Go part too,
    when the session closes as it was asked to. *)
Theorem apply_off closeTcp c f :
  the Enabled (apply Getenv prop closeTcp c) = false ->
  f ∈ switches \/ closeTcp = Some (Ret tt) /\ f ∈ goSwitches ->
  the f (apply Getenv prop closeTcp c) = false.
Proof.
  intros He Hf. destruct applyConfig_off as (D & HD & Hs), applyLast_off as (E & HE & Hg).
  assert (Off switches (before Getenv prop c)) as Hb.
  { apply before_last; [|by vm_compute|].
    - intros g Hin. assert (forallb (fun g => negb (bool_decide (FB g ∈ stale))) switches = true) as Hn by by vm_compute.
      rewrite forallb_forall in Hn. by eapply not_elem_check, negb_true_iff, Hn, list_elem_of_In.
    - apply (Off_incl _ D); [done|]. apply HD. intros _. constructor. }
  assert (Off switches (ConfDebugTest_Apply Getenv prop closeTcp (before Getenv prop c)).1) as Ht.
  { apply (Off_same _ (before Getenv prop c)); [|done]. intros g _. by apply test_same. }
  set (d := (ConfDebugTest_Apply Getenv prop closeTcp (before Getenv prop c)).1) in *.
  destruct Hf as [Hf|[-> Hf]].
  - apply (off_in switches); [|by apply bool_decide_eq_true].
    destruct (apply_ends Getenv prop closeTcp c) as [E1|E1]; rewrite E1 in He |- *; fold d in He |- *; [|exact (Ht He)].
    revert He. apply Off_run; [by vm_compute|exact Ht].
  - rewrite (apply_returns Getenv prop c) in He |- *. fold d in He |- *.
    apply (off_in E); [|apply bool_decide_eq_true in Hg; apply bool_decide_eq_true; by apply Hg].
    revert He. apply HE. intros _. constructor.
Qed.
End Disabled.

(** * Bounds *)

Section Bounds.
Context {CL : ConfLib} {SU : StringUtil}.
Variable Getenv : bytes -> bytes.
Variable prop : option properties.

Lemma the_other {F V G W} {K : Kind F V} {K' : Kind G W} (f : F) (g : G) v c :
  bool_decide (name f = name g) = false -> the f (set_field g v c) = the f c.
Proof. intros H%bool_decide_eq_false. by apply same_the, set_other. Qed.

(** A block ends within its bounds, whatever it started from. *)
Lemma above_below f hi lo c : (lo <= hi)%Z -> (lo <= the f (run (above f hi ++ below f lo) c) <= hi)%Z.
Proof.
  intros Hlh. unfold above, below, run. cbn [app foldl exec]. unfold lt, val.
  destruct (Z.ltb_spec hi (the f c)); cbn [foldl exec];
    [rewrite the_set | ]; case Z.ltb_spec; intros; cbn [foldl exec]; rewrite ?the_set; lia.
Qed.
Lemma mtraceRate_bounds c : (0 <= the MtraceRate (run (mtraceRate Getenv prop) c) <= 100)%Z.
Proof.
  unfold mtraceRate, below. rewrite run_assign, run_if. set (d := set_field _ _ _). unfold lt, val.
  destruct (Z.ltb_spec 100 (the MtraceRate d)); unfold run; cbn [foldl exec]; [rewrite the_set; lia|].
  case Z.ltb_spec; intros; cbn [foldl exec]; rewrite ?the_set; lia.
Qed.
Lemma counterTimeout_bounds c :
  the CounterTimeout (run (counterTimeout Getenv prop) c) = 0%Z \/
  (1000 <= the CounterTimeout (run (counterTimeout Getenv prop) c) <= 4000)%Z.
Proof.
  unfold counterTimeout, below. rewrite run_assign, run_if. set (d := set_field _ _ _). unfold lt, val. cbn [app].
  destruct (Z.leb_spec (the CounterTimeout d) 0); unfold run; cbn [foldl exec]; [left; apply the_set|right].
  case Z.ltb_spec; intros; cbn [foldl exec]; rewrite !the_set; lia.
Qed.
Lemma meterSelfBuffers_bounds c : let d := run (meterSelfBuffers Getenv prop) c in
  (the MeterSelfBufferMin d <= the MeterSelfBufferMax d)%Z.
Proof.
  unfold meterSelfBuffers. cbv zeta. rewrite !run_assign, run_if. set (d := set_field _ _ _). unfold lt.
  case Z.ltb_spec; intros; unfold run; cbn [foldl exec]; [|lia]. rewrite the_set, the_other by done. lia.
Qed.
(** Two fields kept below a third one. *)
Lemma at_most_chain (n h m : ifield) c :
  bool_decide (n = h) = false -> bool_decide (h = m) = false -> bool_decide (n = m) = false ->
  let d := run [at_most h m; at_most n h] c in (the n d <= the h d <= the m d)%Z.
Proof.
  intros H1 H2 H3. unfold at_most, run, lt. cbn [foldl exec].
  assert (forall f g : ifield, bool_decide (f = g) = false -> bool_decide (name f = name g) = false) as Hn.
  { intros f g H%bool_decide_eq_false. apply bool_decide_eq_false. simpl. congruence. }
  assert (forall f g : ifield, bool_decide (f = g) = false -> bool_decide (g = f) = false) as Hs.
  { intros f g H%bool_decide_eq_false. by apply bool_decide_eq_false. }
  repeat (case Z.ltb_spec; intros; cbn [foldl exec] in *); repeat split;
    repeat first [rewrite the_set in * | rewrite the_other in * by auto]; lia.
Qed.
(** A field that only the lists of [applyConfig] assign. *)
Definition settled (g : field) : bool :=
  negb (bool_decide (g ∈ FI DebugCloseTcp :: stale)) &&
  forallb (writes_not g) [applyLogSink Getenv prop; applyLogSinkRt Getenv prop; ConfFailover_Apply Getenv prop;
    applyLast Getenv prop].
Lemma apply_settled {F V} {K : Kind F V} (f : F) closeTcp c :
  settled (name f) = true -> the f (apply Getenv prop closeTcp c) = the f (run (applyConfig Getenv prop) c).
Proof.
  intros Hs. unfold settled in Hs. apply andb_true_iff in Hs as [Hn Hs]. apply negb_true_iff, bool_decide_eq_false in Hn.
  simpl in Hs. rewrite !andb_true_iff in Hs. destruct Hs as (H1 & H2 & H3 & H4 & _).
  assert (the f (ConfDebugTest_Apply Getenv prop closeTcp (before Getenv prop c)).1 = the f (run (applyConfig Getenv prop) c)) as Hd.
  { transitivity (the f (before Getenv prop c)); [apply same_the, test_same; intros E; apply Hn; rewrite E; by left|].
    unfold before, ConfLogSink_Apply. rewrite (run_the f _ _ H3), (run_the f _ _ H2).
    transitivity (the f (run (applyLogSink Getenv prop) (run (applyConfig Getenv prop) c))); [|by apply run_the].
    apply same_the, tags_same. intros E. apply Hn. by right. }
  destruct (apply_ends Getenv prop closeTcp c) as [-> | ->]; [by rewrite run_the|done].
Qed.
(** Leave the lists that do not assign a field. *)
#[local] Ltac skip f := repeat (rewrite (run_the f) by (vm_compute; reflexivity)).

Lemma profileStepCounts_bounds c : let d := run (profileStepCounts Getenv prop) c in
  (the ProfileStepNormalCount d <= the ProfileStepHeavyCount d <= the ProfileStepMaxCount d)%Z.
Proof. unfold profileStepCounts. rewrite !run_assign. by apply at_most_chain. Qed.
Lemma traceStepCounts_bounds c : let d := run (traceStepCounts Getenv prop) c in
  (the TraceStepNormalCount d <= the TraceStepHeavyCount d <= the TraceStepMaxCount d)%Z.
Proof. unfold traceStepCounts. rewrite !run_assign. by apply at_most_chain. Qed.

(** Down to the list of a block, in the segment that has it. *)
#[local] Ltac inside seg fields := unfold applyConfig; rewrite !run_app; fields; unfold seg; rewrite ?run_app; fields.
Lemma config_rate c : (0 <= the MtraceRate (run (applyConfig Getenv prop) c) <= 100)%Z.
Proof. inside @applyMtrace ltac:(idtac; skip MtraceRate). apply mtraceRate_bounds. Qed.
Lemma config_timeout c : let d := run (applyConfig Getenv prop) c in
  (the CounterTimeout d = 0 \/ 1000 <= the CounterTimeout d <= 4000)%Z.
Proof. cbv zeta. inside @applyCounters ltac:(idtac; skip CounterTimeout). apply counterTimeout_bounds. Qed.
Lemma config_buffers c : let d := run (applyConfig Getenv prop) c in
  (the MeterSelfBufferMin d <= the MeterSelfBufferMax d)%Z.
Proof. cbv zeta. inside @applyMeters ltac:(idtac; skip MeterSelfBufferMin; skip MeterSelfBufferMax). apply meterSelfBuffers_bounds. Qed.
Lemma config_steps c : let d := run (applyConfig Getenv prop) c in
  (the ProfileStepNormalCount d <= the ProfileStepHeavyCount d <= the ProfileStepMaxCount d)%Z.
Proof. cbv zeta. inside @applyProfile ltac:(idtac; skip ProfileStepNormalCount; skip ProfileStepHeavyCount; skip ProfileStepMaxCount). apply profileStepCounts_bounds. Qed.
Lemma percent_bounds f key def c : (0 <= the f (run (percent Getenv prop f key def) c) <= 100)%Z.
Proof. unfold percent. rewrite run_app. by apply above_below. Qed.
Lemma config_percents c : let d := run (applyConfig Getenv prop) c in
  (0 <= the HitMapVerEventWarningPercent d <= 100)%Z /\ (0 <= the HitMapVerEventFatalPercent d <= 100)%Z.
Proof. cbv zeta. inside @applyHitMap ltac:(idtac; skip HitMapVerEventWarningPercent; skip HitMapVerEventFatalPercent). split; apply percent_bounds. Qed.

(** C25. Whatever the environment and the file say, the numbers that the code bounds are
    within their bounds: the counts of steps are in order, the rates are percentages, the
    limit of a counter task is off or between one second and four, the buffers of the
    agent's own meter are in order. *)
Theorem apply_bounds closeTcp c :
  let d := apply Getenv prop closeTcp c in
  (the ProfileStepNormalCount d <= the ProfileStepHeavyCount d <= the ProfileStepMaxCount d)%Z /\
  (0 <= the MtraceRate d <= 100)%Z /\
  (0 <= the HitMapVerEventWarningPercent d <= 100)%Z /\ (0 <= the HitMapVerEventFatalPercent d <= 100)%Z /\
  (the CounterTimeout d = 0 \/ 1000 <= the CounterTimeout d <= 4000)%Z /\
  (the MeterSelfBufferMin d <= the MeterSelfBufferMax d)%Z.
Proof.
  cbv zeta. rewrite !(apply_settled _ closeTcp c) by (vm_compute; reflexivity).
  destruct (config_percents c) as [Hw Hf].
  exact (conj (config_steps c) (conj (config_rate c) (conj Hw (conj Hf (conj (config_timeout c) (config_buffers c)))))).
Qed.
End Bounds.
