(* ===== verification/ConfFile.v ===== *)
(** The file of settings: finding it and the kind of the agent at the start, reading it
    again when it has changed, and writing values into it ([GetConfig], [reload] and
    [SetValues] of [src/agent/agent/config/Config.go], [src/agent/lang/conf]).

    A poll is [reload] with the clock and what [os.Stat] and [LoadFile] find.  The text of
    the file is a list of bytes; [properties] reads it. *)

From S2P Require Import Prelude UrlPattern TraceCtx Conf ConfApply ConfApplyFacts ConfBounds.

(** The rest of [properties.Properties] that the code uses.  [LoadFile] gives nothing when
    the text is refused. *)
Class PropFile {CL : ConfLib} := {
  LoadFile : bytes -> option properties;
  prop_Set : properties -> bytes -> bytes -> properties;
  prop_Keys : properties -> list bytes;
  prop_FilterPrefix : properties -> bytes -> list (bytes * bytes)
}.

(** * [bufio.Reader.ReadLine] *)

(** A line without its end. *)
Definition drop_cr (l : bytes) : bytes :=
  match rev l with "013"%char :: r => rev r | _ => l end.
Definition BUFFER : nat := N.to_nat 4096.
(** The pieces that [ReadLine] gives of a line: as much as the buffer holds, but a carriage
    return at its end is left for the next one.  [ended]: the line has its end of line. *)
Fixpoint pieces (fuel : nat) (ended : bool) (line : bytes) : list bytes :=
  if bool_decide (BUFFER <= length line) then
    match fuel with
    | 0 => []
    | S fuel =>
        let n := if bool_decide (last (take BUFFER line) = Some "013"%char) then BUFFER - 1 else BUFFER in
        take n line :: pieces fuel ended (drop n line)
    end
  else if ended then [drop_cr line] else match line with [] => [] | _ => [line] end.
Fixpoint read_all (lines : list bytes) : list bytes :=
  match lines with
  | [] => []
  | [line] => pieces (length line) false line
  | line :: lines => pieces (length line) true line ++ read_all lines
  end.
Definition readLines (text : bytes) : list bytes := read_all (SplitByte "010"%char text).

Section File.
Context {CL : ConfLib} {PF : PropFile} {SU : StringUtil}.
Variable Getenv : bytes -> bytes.
(** The function that closes the session. *)
Variable closeTcp : option (res unit).

(** * The start *)

(** The text after [-t] or [-t...=] among the arguments: the first that starts so. *)
Fixpoint argsAppType (args : list bytes) : res bytes :=
  match args with
  | [] => Ret []
  | it :: args =>
      let it := to_lower <$> it in
      if HasPrefix it (str "-t") then
        if bool_decide (it = str "-t") then match args with next :: _ => Ret next | [] => Panic end
        else match Index it (str "=") with Some pos => Ret (drop (S pos) it) | None => Ret [] end
      else argsAppType args
  end.
Definition envAppType : Z :=
  match Getenv (str "WHATAP_APP_TYPE") with
  | [] => APP_TYPE_GO
  | aType => match Atoi aType with Some v => wrap_s 16 v | None => APP_TYPE_GO end
  end.
Definition appType (args : list bytes) : res Z :=
  t ← argsAppType args;
  match t with
  | [] => Ret envAppType
  | _ => Ret match Atoi t with Some v => wrap_s 16 v | None => envAppType end
  end.

(** * Reading the file again *)

(** What [os.Stat] finds: the time in seconds, and the text that [LoadFile] reads then;
    [None] when it cannot. *)
Inductive stat := NotExist | StatError | Found (mtime : Z) (text : option bytes).

(** [rest] is the state that the observers of the settings change. *)
Record State (X : Type) := mkState {
  conf : Config; file : option properties; last_check : Z; last_file_time : Z; rest : X
}.
#[global] Arguments mkState {X}.
#[global] Arguments conf {X}.
#[global] Arguments file {X}.
#[global] Arguments last_check {X}.
#[global] Arguments last_file_time {X}.
#[global] Arguments rest {X}.

Section Poll.
Context {X : Type}.
(** The observers in the order of [range]; a panic ends the round. *)
Variable observers : list (Config -> X -> X * res unit).
Fixpoint RunConfObserver (obs : list (Config -> X -> X * res unit)) (c : Config) (x : X) : X :=
  match obs with
  | [] => x
  | v :: obs => let '(x, r) := v c x in match r with Ret _ => RunConfObserver obs c x | _ => x end
  end.

Definition load (text : option bytes) : option properties := t ← text; LoadFile t.
(** [prop] is replaced and the settings are applied. *)
Definition use (p : option properties) (s : State X) : State X :=
  s <| file := p |> <| conf ::= apply Getenv p closeTcp |>.
Definition reload (now : Z) (st : stat) (s : State X) : State X :=
  if (now <? last_check s + 3000)%Z then s else
  let s := s <| last_check := now |> in
  match st with
  | NotExist =>
      if (last_file_time s =? -1)%Z || (last_file_time s =? 0)%Z then s
      else use (Some NewProperties) (s <| last_file_time := 0%Z |>)
  | StatError => s
  | Found new_time text =>
      if (last_file_time s =? new_time)%Z then s
      else
        let s := use (load text) (s <| last_file_time := new_time |>) in
        s <| rest ::= RunConfObserver observers (conf s) |>
  end.
(** [run]: a poll, and whether the loop ends. *)
Definition run_once (now : Z) (st : stat) (s : State X) : State X * bool :=
  let s := reload now st s in (s, the Shutdown (conf s)).

(** [GetConfig], the first time. *)
Definition start (t : Z) (x : X) : State X :=
  use (Some NewProperties) (mkState (set_field AppType t zero_config) None 0 (-1) x).
Definition GetConfig (args : list bytes) (now : Z) (st : stat) (x : X) : res (State X) :=
  t ← appType args; Ret (reload now st (start t x)).
End Poll.

(** * Writing values into the file *)

(** [regexp.MatchString("^\\w", key)] *)
Definition word_byte (c : ascii) : bool :=
  is_upper c || is_lower c || ((48 <=? byteZ c)%Z && (byteZ c <=? 57)%Z) || bool_decide (c = "_"%char).
Definition word_first (key : bytes) : bool := match key with c :: _ => word_byte c | [] => false end.
(** [\\] becomes [\], then [\] becomes [\\]. *)
Fixpoint unescape (s : bytes) : bytes :=
  match s with
  | "\"%char :: "\"%char :: s => "\"%char :: unescape s
  | c :: s => c :: unescape s
  | [] => []
  end.
Definition double (s : bytes) : bytes := concat ((fun c => if bool_decide (c = "\"%char) then [c; c] else [c]) <$> s).
Definition newline : ascii := "010"%char.
Definition entry (key value : bytes) : bytes := key ++ str "=" ++ double (unescape value) ++ [newline].

Definition setKey (c : Config) (key : bytes) : bytes :=
  match TrimSpace key with
  | [] => key
  | _ => if bool_decide (key = str "extension") then key else prefixed c key
  end.
(** The value of a key, or nothing. *)
Definition value_of (p : properties) (key : bytes) : res bytes :=
  v ← prop_Get (Some p) key; Ret (default [] v).
(** A line of the file: the text that replaces it, and the key it has. *)
Definition rewrite_line (p : properties) (data : bytes) : res (bytes * option bytes) :=
  match Index data (str "=") with
  | None => Ret (data ++ [newline], None)
  | Some _ =>
      let datas := SplitByte "="%char data in
      let key := TrimBlanks (nth 0 datas []) in
      let value := TrimBlanks (nth 1 datas []) in
      value ← (if word_first key then
                 tmp ← value_of p key; Ret match TrimSpace tmp with [] => value | _ => tmp end
               else Ret value);
      Ret (match TrimSpace value with [] => [] | _ => entry key value end, Some key)
  end.
(** The keys that no line has. *)
Definition new_entry (p : properties) (old : list bytes) (key : bytes) : res bytes :=
  if bool_decide (key ∈ old) || negb (word_first key) then Ret []
  else value ← value_of p key; Ret match TrimSpace value with [] => [] | _ => entry key value end.
Definition rewrite_file (p : properties) (text : bytes) : res bytes :=
  rs ← mapM (rewrite_line p) (readLines text);
  new ← mapM (new_entry p (omap snd rs)) (prop_Keys p);
  Ret (concat (fst <$> rs) ++ concat new).
(** The file after it; [canRead] and [canWrite]: whether it can be opened. *)
Definition SetValues (c : Config) (keyValues : list (bytes * bytes)) (canRead canWrite : bool) (text : bytes) : bytes :=
  match LoadFile text with
  | None => text
  | Some p =>
      let p := foldl (fun p kv => prop_Set p (setKey c kv.1) kv.2) p keyValues in
      if canRead && canWrite then match rewrite_file p text with Ret t => t | _ => text end else text
  end.

(** * Searching the settings *)

Definition SearchKey (p : properties) (keyPrefix : bytes) : res (list (bytes * bytes)) :=
  kvs ← mapM (fun key : bytes =>
    if HasPrefix key keyPrefix then v ← prop_Get (Some p) key; Ret (pair key <$> (v : option bytes)) else Ret None) (prop_Keys p);
  Ret (omap id kvs).
Definition FilterPrefix (c : Config) (p : properties) (keyPrefix : bytes) : list (bytes * bytes) :=
  prop_FilterPrefix p (prefixed c keyPrefix).
Definition line_of_key (key value : bytes) : bytes := key ++ str "=" ++ value ++ [newline].
Definition ToString (p : option properties) (c : Config) : res bytes :=
  match p with
  | None => Ret []
  | Some p =>
      lines ← mapM (fun key => v ← prop_Get (Some p) key; Ret (from_option (line_of_key key) [] v)) (prop_Keys p);
      Ret (concat lines ++
           line_of_key (str "pcode") (FormatInt (the PCODE c)) ++ line_of_key (str "oid") (FormatInt (the OID c)) ++
           line_of_key (str "okind") (FormatInt (the OKIND c)) ++ line_of_key (str "okind_name") (the OKIND_NAME c) ++
           line_of_key (str "onode") (FormatInt (the ONODE c)) ++ line_of_key (str "onode_name") (the ONODE_NAME c))
  end.
End File.

(** * The settings follow the file *)

Section Follow.
Context {CL : ConfLib} {PF : PropFile} {SU : StringUtil}.
Variable Getenv : bytes -> bytes.
Context {X : Type}.
Variable observers : list (Config -> X -> X * res unit).
#[local] Abbreviation returns_ok := (Some (Ret tt)).
#[local] Abbreviation reload := (reload Getenv returns_ok observers).
Definition polls (s : State X) (ps : list (Z * stat)) : State X := foldl (fun s p => reload p.1 p.2 s) s ps.

(** A time of modification names one text; it is neither of the numbers that the code
    gives a meaning of its own. *)
Definition honest (content : Z -> option bytes) (st : stat) : Prop :=
  match st with Found m text => m <> 0%Z /\ m <> (-1)%Z /\ text = content m | _ => True end.

Lemma apply_AppType prop closeTcp c : the AppType (apply Getenv prop closeTcp c) = the AppType c.
Proof. rewrite (apply_settled Getenv prop AppType) by (by vm_compute). apply run_the. by vm_compute. Qed.

#[local] Opaque apply.

(** The settings are those of the file in use, and that one is the text of its time. *)
Record follows (content : Z -> option bytes) (t : Z) (s : State X) : Prop := {
  fo_type : the AppType (conf s) = t;
  fo_conf : exists c, the AppType c = t /\ conf s = apply Getenv (file s) returns_ok c;
  fo_file : last_file_time s <> 0%Z -> last_file_time s <> (-1)%Z -> file s = load (content (last_file_time s))
}.
Lemma conf_use p (s : State X) : conf (use Getenv returns_ok p s) = apply Getenv p returns_ok (conf s).
Proof. reflexivity. Qed.
Lemma follows_use content t p s m now :
  the AppType (conf s) = t -> (m <> 0%Z -> m <> (-1)%Z -> p = load (content m)) ->
  follows content t (use Getenv returns_ok p (s <| last_check := now |> <| last_file_time := m |>)).
Proof.
  intros Ht Hm. split; [by rewrite conf_use, apply_AppType | by exists (conf s) | exact Hm].
Qed.
Lemma follows_reload content t now st s :
  honest content st -> follows content t s -> follows content t (reload now st s).
Proof.
  intros Hh Hs. unfold ConfFile.reload. destruct (now <? _)%Z; [done|]. cbv zeta.
  assert (follows content t (s <| last_check := now |>)) as Hs' by (destruct Hs; by split).
  destruct st as [| |m text]; [|done|].
  - destruct (_ || _); [done|]. apply (follows_use content t _ s 0%Z now); [apply Hs|by intros].
  - change (last_file_time (s <| last_check := now |>)) with (last_file_time s). destruct (Z.eqb_spec (last_file_time s) m) as [|Hne]; [exact Hs'|].
    destruct Hh as (H0 & H1 & ->).
    destruct (follows_use content t (load (content m)) s m now (fo_type _ _ _ Hs)) as [A B C]; [by intros|]. by split.
Qed.
Lemma follows_polls content t x ps :
  Forall (fun p => honest content p.2) ps -> follows content t (polls (start Getenv returns_ok t x) ps).
Proof.
  intros Hps. assert (follows content t (start Getenv returns_ok t x)) as H0.
  { unfold start. split; [rewrite conf_use, apply_AppType; apply (the_set AppType)| |by intros].
    rewrite conf_use. eexists. split; [|reflexivity]. apply (the_set AppType). }
  unfold polls. revert H0. generalize (start Getenv returns_ok t x).
  induction Hps as [|p ps Hp _ IH]; intros s Hs; [done|]. by apply IH, follows_reload.
Qed.

(** C13. When a time of modification names one text, a poll that looks at the file (three
    seconds after the last that did) leaves the settings of a fresh start with that text,
    whatever the polls before it found: other texts, no file, a text that is refused. *)
Theorem settings_follow content t x ps now m g :
  Forall (fun p => honest content p.2) ps -> honest content (Found m (content m)) ->
  (last_check (polls (start Getenv returns_ok t x) ps) + 3000 <= now)%Z -> g ∉ kept ->
  same g (conf (reload now (Found m (content m)) (polls (start Getenv returns_ok t x) ps)))
    (apply Getenv (load (content m)) returns_ok (set_field AppType t zero_config)).
Proof.
  intros Hps Hm Hnow Hg. pose proof (follows_polls content t x ps Hps) as Hs.
  set (s := polls _ ps) in *. set (s' := reload now _ s).
  assert (follows content t s') as [_ (c & Hc & Es) Hf] by (by apply follows_reload).
  assert (last_file_time s' = m) as Et.
  { unfold s', ConfFile.reload. rewrite (proj2 (Z.ltb_ge _ _)) by lia. cbv zeta.
    change (last_file_time (s <| last_check := now |>)) with (last_file_time s).
    destruct (Z.eqb_spec (last_file_time s) m) as [<-|]; reflexivity. }
  rewrite Et in Hf. rewrite Es, Hf by apply Hm. apply apply_fresh; [done| |done].
  rewrite Hc. symmetry. apply (the_set AppType).
Qed.
End Follow.

(** * What is written is read *)

Lemma SplitByte_none c s : c ∉ s -> SplitByte c s = [s].
Proof.
  induction s as [|a s IH]; intros H; [done|]. apply not_elem_of_cons in H as [Hc Hs]. simpl.
  rewrite bool_decide_false by done. by rewrite IH.
Qed.
Lemma SplitByte_app c s t : c ∉ s -> SplitByte c (s ++ c :: t) = s :: SplitByte c t.
Proof.
  induction s as [|a s IH]; intros H; simpl; [by rewrite bool_decide_true|].
  apply not_elem_of_cons in H as [Hc Hs]. rewrite bool_decide_false by done. by rewrite IH.
Qed.
Lemma Index_byte c s t : Index (s ++ c :: t) [c] <> None.
Proof.
  induction s as [|a s IH]; simpl; [by rewrite bool_decide_true|].
  destruct (_ && _); [done|]. by destruct (Index (s ++ c :: t) [c]).
Qed.
Lemma Index_no_byte c s : c ∉ s -> Index s [c] = None.
Proof.
  induction s as [|a s IH]; intros H; [done|]. apply not_elem_of_cons in H as [Hc Hs]. simpl.
  rewrite bool_decide_false by done. simpl. by rewrite IH.
Qed.

(** The lines of a file: settings and comments. *)
Inductive line := LSet (k v : bytes) | LText (t : bytes).
Definition render (l : line) : bytes := match l with LSet k v => k ++ "="%char :: v | LText t => t end.
Definition text_of (ls : list line) : bytes := concat ((fun l => render l ++ [newline]) <$> ls).
Definition lookup_last (ls : list line) (k : bytes) : option bytes :=
  foldl (fun r l => match l with LSet k' v => if bool_decide (k' = k) then Some v else r | LText _ => r end) None ls.

(** Keys and values as [properties] reads them literally: no end of line, no ["="], no
    escape and no reference in them, and no blanks around them; a key ends for it at a
    blank, a tab, a form feed, ["="] or [":"], so there are none of these in a key; and it
    decodes the file as UTF-8, so the bytes are of ASCII. *)
Definition return_ : ascii := "013"%char.
Definition plain (t : bytes) : Prop :=
  newline ∉ t /\ return_ ∉ t /\ "="%char ∉ t /\ "\"%char ∉ t /\ "$"%char ∉ t /\ TrimBlanks t = t /\ TrimSpace t = t.
Definition key_ends : list ascii := [" "; "009"; "012"; "="; ":"]%char.
Definition is_ascii (c : ascii) : Prop := (byteZ c < 128)%Z.
Definition plain_pair (k v : bytes) : Prop :=
  plain k /\ word_first k = true /\ plain v /\ v <> [] /\ length k + length v + 1 < BUFFER /\
  Forall (fun c => c ∉ key_ends) k /\ Forall is_ascii (k ++ v).
Definition comment (t : bytes) : Prop :=
  newline ∉ t /\ return_ ∉ t /\ "="%char ∉ t /\ length t < BUFFER /\
  match t with [] => True | c :: _ => c = "#"%char \/ c = "!"%char end.
Definition plain_line (l : line) : Prop := match l with LSet k v => plain_pair k v | LText t => comment t end.

(** What is relied on: [plain_props p f] says that [p] has the values of [f], as they
    are. *)
Class PropLaws {CL : ConfLib} (PF : PropFile) := {
  plain_props : properties -> (bytes -> option bytes) -> Prop;
  props_load ls : Forall plain_line ls ->
    exists p, LoadFile (text_of ls) = Some p /\ plain_props p (lookup_last ls);
  props_set p f k v : plain_props p f -> plain_pair k v -> plain_props (prop_Set p k v) (<[k := Some v]> f);
  props_get p f k : plain_props p f -> prop_Get (Some p) k = Ret (f k);
  props_keys p f k : plain_props p f -> k ∈ prop_Keys p <-> is_Some (f k)
}.

Lemma render_short l : plain_line l -> newline ∉ render l /\ return_ ∉ render l /\ length (render l) < BUFFER.
Proof.
  destruct l as [k v|t]; simpl.
  - intros ((K1 & K2 & _) & _ & (V1 & V2 & _) & _ & Hl & _). rewrite !elem_of_app, !elem_of_cons, length_app. simpl.
    repeat split; [intros [?|[?|?]]; done..|lia].
  - intros (H1 & H2 & _ & H3 & _). done.
Qed.
Lemma drop_cr_id l : return_ ∉ l -> drop_cr l = l.
Proof.
  intros H. unfold drop_cr. assert (return_ ∉ rev l) as Hr by (by rewrite list_elem_of_In, <- in_rev, <- list_elem_of_In).
  rewrite <- (rev_involutive l) at 2.
  destruct (rev l) as [|[[] [] [] [] [] [] [] []] r] eqn:E; try (by rewrite <- E, rev_involutive); try done.
  exfalso. apply Hr. by left.
Qed.
Lemma pieces_short fuel l : return_ ∉ l -> length l < BUFFER -> pieces fuel true l = [l].
Proof.
  intros Hr Hl. destruct fuel; simpl; rewrite bool_decide_false by lia; by rewrite drop_cr_id.
Qed.
(** Short lines are read as they are. *)
Lemma readLines_text ls : Forall plain_line ls -> readLines (text_of ls) = render <$> ls.
Proof.
  unfold readLines, text_of. induction 1 as [|l ls Hl _ IH]; [done|].
  destruct (render_short l Hl) as (Hn & Hr & Hs). cbn [fmap list_fmap concat]. rewrite <- app_assoc. cbn [app].
  change "010"%char with newline in *. rewrite SplitByte_app by done. cbn [read_all].
  destruct (SplitByte newline _) eqn:E; [by destruct (concat _) as [|c s] in E; simpl in E; [|destruct (bool_decide _), (SplitByte _ s)]|].
  rewrite <- E in *. rewrite pieces_short by done. by rewrite IH.
Qed.
Lemma unescape_id s : "\"%char ∉ s -> unescape s = s.
Proof.
  induction s as [|a s IH]; intros H; [done|]. apply not_elem_of_cons in H as [Hc Hs].
  specialize (IH Hs). destruct a as [[] [] [] [] [] [] [] []]; simpl; rewrite ?IH; done.
Qed.
Lemma double_id s : "\"%char ∉ s -> double s = s.
Proof.
  unfold double. induction s as [|a s IH]; intros H; [done|]. apply not_elem_of_cons in H as [Hc Hs]. simpl.
  rewrite bool_decide_false by done. simpl. f_equal. by apply IH.
Qed.
Lemma entry_plain k v : plain v -> entry k v = render (LSet k v) ++ [newline].
Proof.
  intros (_ & _ & _ & Hb & _). unfold entry. rewrite unescape_id, double_id by done. simpl. by rewrite <- app_assoc.
Qed.

Section WriteBack.
Context {CL : ConfLib} {PF : PropFile} {PL : PropLaws PF}.

(** The line that takes the place of one, when the settings are [f]. *)
Definition updated (f : bytes -> option bytes) (l : line) : line :=
  match l with LSet k v => LSet k (default v (f k)) | LText t => LText t end.
Definition key_of (l : line) : option bytes := match l with LSet k _ => Some k | LText _ => None end.

(** Settings of plain pairs. *)
Definition plain_map (f : bytes -> option bytes) : Prop := forall k v, f k = Some v -> plain_pair k v.

Lemma value_of_plain p f k : plain_props p f -> value_of p k = Ret (default [] (f k)).
Proof. intros Hp. unfold value_of. by rewrite (props_get p f k Hp). Qed.
Lemma entry_value k v : plain_pair k v -> TrimSpace v = v /\ v <> [] /\ entry k v = render (LSet k v) ++ [newline].
Proof. intros (_ & _ & Hv & Hne & _). repeat split; [apply Hv|done|by apply entry_plain]. Qed.

Lemma rewrite_line_plain p f l :
  plain_props p f -> plain_map f -> plain_line l ->
  rewrite_line p (render l) = Ret (render (updated f l) ++ [newline], key_of l).
Proof.
  intros Hp Hf Hl. unfold rewrite_line. destruct l as [k v|t]; cbn [render updated key_of].
  - destruct (Index _ (str "=")) eqn:E; [|exfalso; by apply (Index_byte "="%char k v)].
    destruct Hl as ((K1 & K2 & K3 & K4 & K5 & K6 & K7) & Hw & Hv & Hne & Hlen & _).
    pose proof Hv as (V1 & V2 & V3 & V4 & V5 & V6 & V7).
    rewrite SplitByte_app, (SplitByte_none _ v) by done. cbn [nth]. rewrite K6, V6, Hw, (value_of_plain p f k Hp). cbn [mbind res_bind].
    destruct (f k) as [w|] eqn:Ef; cbn [default from_option id].
    + destruct (entry_value k w (Hf k w Ef)) as (W1 & W2 & W3). rewrite W1. destruct w as [|a w]; [done|].
      rewrite W1. by rewrite W3.
    + cbn [TrimSpace]. change (TrimSpace []) with (@nil ascii). cbn match. rewrite V7. destruct v as [|a v]; [done|].
      by rewrite entry_plain.
  - destruct Hl as (_ & _ & H & _). by assert (Index t (str "=") = None) as -> by exact (Index_no_byte "="%char t H).
Qed.
Lemma mapM_ret {A B} (g : A -> res B) (h : A -> B) l :
  Forall (fun x => g x = Ret (h x)) l -> mapM g l = Ret (h <$> l).
Proof. induction 1 as [|x l Hx _ IH]; [done|]. cbn. by rewrite Hx, IH. Qed.
Lemma new_entry_plain p f old k :
  plain_props p f -> plain_map f -> k ∈ prop_Keys p -> exists ls,
  new_entry p old k = Ret (text_of ls) /\ Forall plain_line ls /\ omap key_of ls = filter (.∉ old) [k] /\
  (forall l, l ∈ ls -> exists v, l = LSet k v /\ f k = Some v).
Proof.
  intros Hp Hf Hk. apply (props_keys p f k Hp) in Hk as [v Hv]. pose proof (Hf k v Hv) as Hpv. unfold new_entry.
  rewrite filter_cons, filter_nil. destruct (decide (k ∈ old)) as [Hi|Hi].
  - rewrite bool_decide_true by done. exists []. rewrite decide_False by (intros H; by apply H). simpl.
    split; [done|]. split; [constructor|]. split; [done|]. by intros l ?%elem_of_nil.
  - rewrite bool_decide_false by done. destruct Hpv as (Hk' & Hw & Hr). rewrite Hw. cbn [negb orb].
    rewrite (value_of_plain p f k Hp), Hv. cbn [mbind res_bind default from_option id].
    destruct (entry_value k v) as (W1 & W2 & W3); [exact (conj Hk' (conj Hw Hr))|]. rewrite W1. destruct v as [|a v]; [done|].
    exists [LSet k (a :: v)]. rewrite decide_True by done. unfold text_of. cbn [fmap list_fmap concat]. rewrite app_nil_r, W3.
    split; [done|]. split; [by constructor|]. split; [done|]. intros l ->%list_elem_of_singleton. eauto.
Qed.
(** All the lines of the keys that the file has not. *)
Lemma new_entries p f old ks :
  plain_props p f -> plain_map f -> Forall (fun k => k ∈ prop_Keys p) ks -> exists news,
  mapM (new_entry p old) ks ≫= (fun new => Ret (concat new)) = Ret (text_of news) /\ Forall plain_line news /\
  (forall l, l ∈ news -> exists k v, l = LSet k v /\ f k = Some v) /\
  (forall k v, k ∈ ks -> k ∉ old -> f k = Some v -> LSet k v ∈ news).
Proof.
  intros Hp Hf Hks. induction Hks as [|k ks Hk _ (news & E & Hn & Hin & Hall)].
  { exists []. split; [done|]. split; [constructor|]. split; [by intros l ?%elem_of_nil|]. by intros k v ?%elem_of_nil. }
  destruct (new_entry_plain p f old k Hp Hf Hk) as (ls & El & Hl & Hkeys & Hls).
  exists (ls ++ news). cbn [mapM]. rewrite El. cbn [mbind res_bind].
  destruct (mapM (new_entry p old) ks) as [new| |]; [|done..]. cbn in E |- *. injection E as E. rewrite E.
  split; [by unfold text_of; rewrite fmap_app, concat_app|]. split; [by apply Forall_app|]. split.
  - intros l [Hi|Hi]%elem_of_app; [|by apply Hin]. destruct (Hls l Hi) as (v & ? & ?). eauto.
  - intros j v [->|Hj]%elem_of_cons Ho Hv; apply elem_of_app; [left|right; by apply Hall].
    rewrite filter_cons, decide_True in Hkeys by done. destruct ls as [|l ls]; [done|].
    destruct (Hls l) as (w & -> & Hw); [by left|]. rewrite Hv in Hw. injection Hw as <-. by left.
Qed.

Definition comments (ls : list line) : list bytes :=
  omap (fun l => match l with LText t => Some t | LSet _ _ => None end) ls.
Lemma rewrite_file_plain p f ls :
  plain_props p f -> plain_map f -> Forall plain_line ls -> exists news,
  rewrite_file p (text_of ls) = Ret (text_of ((updated f <$> ls) ++ news)) /\ Forall plain_line news /\
  (forall l, l ∈ news -> exists k v, l = LSet k v /\ f k = Some v) /\
  (forall k v, f k = Some v -> (exists w, LSet k w ∈ ls) \/ LSet k v ∈ news).
Proof.
  intros Hp Hf Hl. unfold rewrite_file. rewrite readLines_text by done.
  assert (mapM (rewrite_line p) (render <$> ls) = Ret ((fun l => (render (updated f l) ++ [newline], key_of l)) <$> ls)) as ->.
  { clear -Hl Hp Hf PL. induction Hl as [|l ls Hx _ IH]; [done|]. cbn [fmap list_fmap mapM].
    rewrite (rewrite_line_plain p f) by done. cbn in IH |- *. by rewrite IH. }
  cbn [mbind res_bind].
  set (old := omap snd _). destruct (new_entries p f old (prop_Keys p) Hp Hf) as (news & E & Hn & Hin & Hall); [by apply Forall_forall|].
  destruct (mapM (new_entry p old) (prop_Keys p)) as [new| |]; [|done..]. cbn in E |- *. injection E as E. rewrite E.
  exists news. split; [|split; [done|split; [done|]]].
  - f_equal. unfold text_of. rewrite fmap_app, concat_app. f_equal. rewrite <- !list_fmap_compose. done.
  - intros k v Hv. destruct (decide (k ∈ old)) as [Ho|Ho].
    + left. subst old. apply list_elem_of_omap in Ho as ((b & o) & Hb & Hs).
      apply list_elem_of_fmap in Hb as (l & El & Hi). destruct l as [k' w|]; simpl in *; simplify_eq. eauto.
    + right. apply Hall; [|done..]. apply (props_keys p f k Hp). eauto.
Qed.

Lemma lookup_agree ls f :
  (forall k v, LSet k v ∈ ls -> f k = Some v) -> (forall k v, f k = Some v -> LSet k v ∈ ls) -> forall k, lookup_last ls k = f k.
Proof.
  intros H1 H2 k. unfold lookup_last.
  assert (forall r : option bytes, (r = f k \/ r = None) -> let o := foldl (fun r l => match l with LSet k' v => if bool_decide (k' = k) then Some v else r | LText _ => r end) r ls in
    (o = f k \/ o = None) /\ (r = f k -> o = f k) /\ ((exists v, LSet k v ∈ ls) -> o = f k)) as Hg.
  { clear H2. induction ls as [|l ls IH]; intros r Hr; simpl.
    - split; [done|]. split; [done|]. by intros [v ?%elem_of_nil].
    - assert (forall k v, LSet k v ∈ ls -> f k = Some v) as H1' by (intros j v Hj; apply H1; by right).
      specialize (IH H1'). destruct l as [k' v|t].
      + case_bool_decide as Hk.
        * subst k'. assert (Some v = f k) as Hv by (symmetry; apply H1; by left).
          destruct (IH (Some v) (or_introl Hv)) as (A & B & C). split; [done|]. split; intros; by apply B.
        * destruct (IH r Hr) as (A & B & C). split; [done|]. split; [done|].
          intros [w [Hw|Hw]%elem_of_cons]; [congruence|eauto].
      + destruct (IH r Hr) as (A & B & C). split; [done|]. split; [done|].
        intros [w [Hw|Hw]%elem_of_cons]; [congruence|eauto]. }
  destruct (Hg None (or_intror eq_refl)) as (A & _ & C). destruct (f k) as [v|] eqn:Ef; [apply C; eauto|].
  by destruct A.
Qed.

(** The settings after the values of a call. *)
Definition after_set (c : Config) (kvs : list (bytes * bytes)) (f : bytes -> option bytes) : bytes -> option bytes :=
  foldl (fun f kv => <[setKey c kv.1 := Some kv.2]> f) f kvs.

Lemma after_set_props c kvs p f :
  Forall (fun kv => plain_pair (setKey c kv.1) kv.2) kvs -> plain_props p f -> plain_map f ->
  plain_props (foldl (fun p kv => prop_Set p (setKey c kv.1) kv.2) p kvs) (after_set c kvs f) /\
  plain_map (after_set c kvs f) /\ (forall k, is_Some (f k) -> is_Some (after_set c kvs f k)).
Proof.
  intros Hkvs. revert p f. induction Hkvs as [|kv kvs Hkv _ IH]; intros p f Hp Hf; [done|]. simpl.
  destruct (IH (prop_Set p (setKey c kv.1) kv.2) (<[setKey c kv.1 := Some kv.2]> f)) as (A & B & C).
  - by apply props_set.
  - intros k v. destruct (decide (setKey c kv.1 = k)) as [<-|Hne];
      [rewrite fn_lookup_insert; by intros [= <-]|rewrite fn_lookup_insert_ne by done; apply Hf].
  - split; [exact A|]. split; [exact B|]. intros k Hk. apply C.
    destruct (decide (setKey c kv.1 = k)) as [<-|Hne]; [by rewrite fn_lookup_insert|by rewrite fn_lookup_insert_ne].
Qed.
Lemma lookup_last_in ls k v : lookup_last ls k = Some v -> LSet k v ∈ ls.
Proof.
  unfold lookup_last. induction ls as [|l ls IH] using rev_ind; [done|]. rewrite foldl_snoc. intros H.
  apply elem_of_app. destruct l as [k' w|t]; [|by left; apply IH]. case_bool_decide; [|by left; apply IH].
  simplify_eq. right. by apply list_elem_of_singleton.
Qed.
Lemma lookup_last_some ls k v : LSet k v ∈ ls -> is_Some (lookup_last ls k).
Proof.
  unfold lookup_last. induction ls as [|l ls IH] using rev_ind; [by intros ?%elem_of_nil|]. rewrite foldl_snoc.
  intros [H|H%list_elem_of_singleton]%elem_of_app.
  - destruct l as [k' w|t]; [case_bool_decide; [done|]|]; by apply IH.
  - subst l. rewrite bool_decide_true by done. done.
Qed.

Lemma SetValues_text c kvs ls :
  Forall plain_line ls -> Forall (fun kv => plain_pair (setKey c kv.1) kv.2) kvs ->
  exists ls' p, SetValues c kvs true true (text_of ls) = text_of ls' /\ comments ls' = comments ls /\
    LoadFile (text_of ls') = Some p /\ plain_props p (lookup_last ls') /\
    plain_map (after_set c kvs (lookup_last ls)) /\
    forall k, lookup_last ls' k = after_set c kvs (lookup_last ls) k.
Proof.
  intros Hls Hkvs. destruct (props_load ls Hls) as (p & Ep & Hp).
  assert (plain_map (lookup_last ls)) as Hm.
  { intros k v Hv%lookup_last_in. exact (proj1 (Forall_forall _ _) Hls _ Hv). }
  destruct (after_set_props c kvs p _ Hkvs Hp Hm) as (Hp' & Hm' & Hk').
  set (f := after_set c kvs (lookup_last ls)) in *.
  destruct (rewrite_file_plain _ f ls Hp' Hm' Hls) as (news & En & Hn & Hin & Hall).
  set (ls' := (updated f <$> ls) ++ news).
  assert (forall k v, LSet k v ∈ ls' -> f k = Some v) as H1.
  { intros k v [H|H]%elem_of_app; [|by destruct (Hin _ H) as (? & ? & [= -> ->] & ?)].
    apply list_elem_of_fmap in H as ([k' w|t] & E & Hi); simplify_eq/=.
    destruct (Hk' k' (lookup_last_some ls k' w Hi)) as [u Eu]. by rewrite Eu. }
  assert (forall k v, f k = Some v -> LSet k v ∈ ls') as H2.
  { intros k v Hv. destruct (Hall k v Hv) as [[w Hw]|H]; [|by apply elem_of_app; right].
    apply elem_of_app; left. apply list_elem_of_fmap. exists (LSet k w). split; [|done]. simpl. by rewrite Hv. }
  assert (Forall plain_line ls') as Hl'.
  { apply Forall_forall. intros [k v|t] H; [by apply Hm', H1|].
    apply elem_of_app in H as [H|H]; [|by destruct (Hin _ H) as (? & ? & ? & ?)].
    apply list_elem_of_fmap in H as ([k' w|t'] & E & Hi); simplify_eq/=. exact (proj1 (Forall_forall _ _) Hls _ Hi). }
  destruct (props_load ls' Hl') as (q & Eq & Hq). exists ls', q. split_and!; [| |done|done|done|].
  - unfold SetValues. rewrite Ep. cbn [andb]. by rewrite En.
  - unfold comments, ls'. rewrite omap_app. rewrite <- (app_nil_r (omap _ ls)). f_equal.
    + clearbody f. clear. induction ls as [|[k v|t] ls IH]; simpl; [done|exact IH|by f_equal].
    + clear -Hin. induction news as [|l news IH]; [done|]. destruct (Hin l) as (? & ? & -> & _); [by left|]. simpl.
      apply IH. intros l Hl. apply Hin. by right.
  - intros k. by apply lookup_agree.
Qed.

(** C33. In a file of plain settings and comments, [SetValues] leaves the comments and the
    settings it is not given, and the file then reads each key it is given with its
    value, under the prefix of the agent's kind.  A setting is plain ([plain_pair]), in the
    file and in the call, when it is of ASCII and on a line under 4096 bytes, its key starts
    with a letter, a digit or ["_"] and has no blank, tab, form feed, ["="] or [":"], and
    its value is not empty, has no blanks around it and no ["="], escape or reference; a
    comment starts with ["#"] or ["!"], or is empty, and has no ["="]. *)
Theorem SetValues_reads_back c kvs ls :
  Forall plain_line ls -> Forall (fun kv => plain_pair (setKey c kv.1) kv.2) kvs ->
  exists ls' p, SetValues c kvs true true (text_of ls) = text_of ls' /\ comments ls' = comments ls /\
    LoadFile (text_of ls') = Some p /\
    forall k, prop_Get (Some p) k = Ret (after_set c kvs (lookup_last ls) k).
Proof.
  intros Hls Hkvs. destruct (SetValues_text c kvs ls Hls Hkvs) as (ls' & p & E1 & E2 & E3 & Hp & _ & E4).
  exists ls', p. split_and!; [done..|]. intros k. by rewrite (props_get p _ k Hp), E4.
Qed.
End WriteBack.

(** * Instances and witnesses *)

Module Sample.
Definition lookup_pairs (p : list (bytes * bytes)) (k : bytes) : option bytes :=
  foldl (fun r kv => if bool_decide (kv.1 = k) then Some kv.2 else r) None p.
Definition parse_line (l : bytes) : option (bytes * bytes) :=
  match SplitByte "="%char l with [k; v] => Some (k, v) | _ => None end.
#[export] Instance lib : ConfLib := {|
  intset := list Z; NewIntSet := []; PutInt s z := z :: s; ContainsInt s z := bool_decide (z ∈ s); SizeInt := length;
  stringset := list bytes; NewStringSet := []; PutString s t := t :: s; IsNotEmpty := nonempty; TruncateRune s n := take n s;
  properties := list (bytes * bytes); NewProperties := [];
  prop_Get p k := match p with Some p => Ret (lookup_pairs p k) | None => Panic end;
  ParseFloat32 _ := None; APP_TYPE_GO := 14; APP_TYPE_PHP := 3; APP_TYPE_DOTNET := 7; APP_TYPE_BSM_PHP := 12;
  APP_TYPE_BSM_PYTHON := 15; APP_TYPE_BSM_DOTNET := 16; APP_TYPE_BSM_GO := 17
|}%Z.
#[export] Instance prop_file : PropFile := {|
  LoadFile text := Some (omap parse_line (SplitByte newline text));
  prop_Set p k v := p ++ [(k, v)]; prop_Keys p := p.*1; prop_FilterPrefix p k := filter (fun kv => HasPrefix kv.1 k = true) p
|}.
#[export] Instance strings : StringUtil := {|
  Split s _ := [s]; Tokenizer s d := match d with c :: _ => SplitByte c s | [] => [s] end; TrimEmpty := TrimSpace;
  HashCode s := Z.of_nat (length s); HashStr s := Z.of_nat (length s)
|}.

Definition pair_of (l : line) : option (bytes * bytes) := match l with LSet k v => Some (k, v) | LText _ => None end.
Lemma parse_render l : plain_line l -> parse_line (render l) = pair_of l.
Proof.
  destruct l as [k v|t]; unfold parse_line; simpl.
  - intros ((_ & _ & Hk & _) & _ & (_ & _ & Hv & _) & _). by rewrite SplitByte_app, SplitByte_none.
  - intros (_ & _ & Ht & _). by rewrite SplitByte_none.
Qed.
Lemma parse_lines ls : Forall plain_line ls -> omap parse_line (render <$> ls) = omap pair_of ls.
Proof.
  induction 1 as [|l ls Hl _ IH]; [done|]. cbn. rewrite parse_render by done. destruct (pair_of l); [f_equal|]; exact IH.
Qed.
Lemma split_text ls : Forall plain_line ls -> SplitByte newline (text_of ls) = (render <$> ls) ++ [[]].
Proof.
  unfold text_of. induction 1 as [|l ls Hl _ IH]; [done|]. cbn [fmap list_fmap concat]. rewrite <- app_assoc. cbn [app].
  rewrite SplitByte_app by apply (render_short l Hl). by rewrite IH.
Qed.
Lemma pairs_last ls k : lookup_pairs (omap pair_of ls) k = lookup_last ls k.
Proof.
  unfold lookup_pairs, lookup_last. generalize (@None bytes). induction ls as [|[k' v|t] ls IH]; intros r; simpl; auto.
Qed.
#[export] Instance laws : PropLaws prop_file.
Proof.
  refine {| plain_props p f := forall k, lookup_pairs p k = f k |}.
  - intros ls Hls. eexists. split; [reflexivity|]. intros k. rewrite split_text, omap_app by done. cbn [omap list_omap].
    change (omap parse_line [[]]) with (@nil (bytes * bytes)).
    rewrite app_nil_r, parse_lines by done. apply pairs_last.
  - intros p f k v Hp _ k'. unfold lookup_pairs. simpl. rewrite foldl_snoc. simpl. case_bool_decide as Hk.
    + subst. by rewrite fn_lookup_insert.
    + rewrite fn_lookup_insert_ne by done. apply Hp.
  - intros p f k Hp. simpl. by rewrite Hp.
  - intros p f k Hp. simpl. rewrite <- Hp. clear Hp. unfold lookup_pairs.
    induction p as [|[k' v] p IH] using rev_ind; [split; [by intros ?%elem_of_nil|by intros []]|].
    rewrite fmap_app, elem_of_app, foldl_snoc, IH. simpl. rewrite list_elem_of_singleton.
    case_bool_decide; [subst; split; [eauto|by right]|]. split; [intros [?|?]; done|by left].
Defined.

Definition env (k : bytes) : bytes := if bool_decide (k = str "WHATAP_ACCESSKEY") then str "x12" else [].
Definition rate20 : bytes := str "mtrace_rate=20" ++ [newline] ++ str "enabled=false" ++ [newline].
Definition rate900 : bytes := str "mtrace_rate=900" ++ [newline].
Definition content (m : Z) : option bytes := if (m =? 5)%Z then Some rate20 else Some rate900.
Definition old : Config := set_field MtraceRate 77%Z (set_field GoCounterEnabled true zero_config).

(** A struct with other values before: the same rate after. *)
Lemma apply_fresh_witness :
  the MtraceRate (apply env (LoadFile rate20) (Some (Ret tt)) old) = 20%Z /\
  the AccessKey (apply env (LoadFile rate20) (Some (Ret tt)) old) = str "x12".
Proof.
  split.
  - etransitivity; [apply (apply_fresh env (LoadFile rate20) (Some (Ret tt)) old zero_config (FI MtraceRate)); [done|done|]|].
    + apply not_elem_check. vm_compute. reflexivity.
    + vm_compute. reflexivity.
  - vm_compute. reflexivity.
Defined.
Lemma apply_off_witness : the GoCounterEnabled (apply env (LoadFile rate20) (Some (Ret tt)) old) = false.
Proof.
  apply (apply_off env (LoadFile rate20) (Some (Ret tt)) old GoCounterEnabled); [vm_compute; reflexivity|].
  right. split; [done|]. apply (bool_decide_eq_true_1 (GoCounterEnabled ∈ goSwitches)). vm_compute. reflexivity.
Defined.
(** No file, the first text, an error, then the second text. *)
Lemma settings_follow_witness :
  the MtraceRate (conf (reload env (Some (Ret tt)) (X:=unit) [] 20000 (Found 9 (Some rate900))
    (polls env [] (start env (Some (Ret tt)) 14 tt) [(4000, NotExist); (8000, Found 5 (Some rate20)); (12000, StatError)])))%Z
  = 100%Z.
Proof.
  etransitivity; [apply (settings_follow env [] content 14 tt
    [(4000, NotExist); (8000, Found 5 (Some rate20)); (12000, StatError)]%Z 20000 9 (FI MtraceRate))|].
  - repeat constructor; done.
  - done.
  - vm_compute. discriminate.
  - apply not_elem_check. vm_compute. reflexivity.
  - vm_compute. reflexivity.
Defined.
Definition file1 : list line := [LText (str "# agent"); LSet (str "license") (str "abc"); LSet (str "mtrace_rate") (str "5")].
Definition given : list (bytes * bytes) := [(str "mtrace_rate", str "30"); (str "app_name", str "shop")].
(** The conditions on lines, as tests. *)
Definition free (bad : list ascii) (t : bytes) : bool := forallb (fun c => negb (bool_decide (c ∈ bad))) t.
Lemma free_check bad t c : free bad t = true -> c ∈ bad -> c ∉ t.
Proof.
  unfold free. rewrite forallb_forall. intros H Hb Hc%list_elem_of_In. specialize (H _ Hc).
  by rewrite bool_decide_true in H.
Qed.
Definition plain_b (t : bytes) : bool :=
  free [newline; return_; "="%char; "\"%char; "$"%char] t && bool_decide (TrimBlanks t = t) && bool_decide (TrimSpace t = t).
Lemma plain_check t : plain_b t = true -> plain t.
Proof.
  unfold plain_b. rewrite !andb_true_iff, !bool_decide_eq_true. intros [[H H1] H2].
  repeat split; try done; (eapply free_check; [exact H|]); set_solver.
Qed.
Definition pair_b (k v : bytes) : bool :=
  plain_b k && word_first k && plain_b v && nonempty v && (length k + length v + 1 <? BUFFER)%nat &&
  free key_ends k && forallb (fun c => byteZ c <? 128)%Z (k ++ v).
Lemma pair_check k v : pair_b k v = true -> plain_pair k v.
Proof.
  unfold pair_b. rewrite !andb_true_iff, Nat.ltb_lt. intros [[[[[[H1 H2] H3] H4] H5] H6] H7].
  assert (Forall (fun c => c ∉ key_ends) k) as H8.
  { apply Forall_forall. intros c Hc He. by apply (free_check key_ends k c H6). }
  assert (Forall is_ascii (k ++ v)) as H9.
  { apply Forall_forall. intros c Hc. unfold is_ascii. apply Z.ltb_lt. rewrite forallb_forall in H7.
    apply H7. by apply list_elem_of_In. }
  repeat split; try apply (plain_check _ H1); try apply (plain_check _ H3); try done. by intros ->.
Qed.
Lemma comment_check t : free [newline; return_; "="%char] t && (length t <? BUFFER)%nat = true ->
  match t with [] => True | c :: _ => c = "#"%char \/ c = "!"%char end -> comment t.
Proof.
  rewrite andb_true_iff, Nat.ltb_lt. intros [H H1] H2.
  repeat split; try done; (eapply free_check; [exact H|]); set_solver.
Qed.
Lemma SetValues_reads_back_witness :
  exists p, LoadFile (SetValues zero_config given true true (text_of file1)) = Some p /\
    prop_Get (Some p) (str "mtrace_rate") = Ret (Some (str "30")) /\ prop_Get (Some p) (str "license") = Ret (Some (str "abc")).
Proof.
  destruct (SetValues_reads_back zero_config given file1) as (ls & p & E & _ & Ep & Hg).
  - constructor; [apply comment_check; [vm_compute; reflexivity|by left]|].
    constructor; [apply pair_check; vm_compute; reflexivity|].
    constructor; [apply pair_check; vm_compute; reflexivity|constructor].
  - constructor; [apply pair_check; vm_compute; reflexivity|].
    constructor; [apply pair_check; vm_compute; reflexivity|constructor].
  - exists p. rewrite E. split; [done|]. rewrite !Hg. split; vm_compute; reflexivity.
Defined.
End Sample.
