(* ===== verification/LogPaths.v ===== *)
(** Two theories that the log needs: which floats of 53 bits are exact integers, and what
    [filepath.Clean] leaves of a path. *)

From Stdlib Require Import SpecFloat.
From S2P Require Import Prelude Hmap CounterTasks UrlPattern TraceCtx Conf ConfFile.

(** * Integers as floats *)

Lemma digits2_bounds m : (2 ^ (Z.pos (digits2_pos m) - 1) <= Z.pos m < 2 ^ Z.pos (digits2_pos m))%Z.
Proof.
  induction m as [m IH|m IH|]; simpl digits2_pos; [| |done];
    rewrite Pos2Z.inj_succ, Z.pow_succ_r, Z.sub_succ_l by lia;
    rewrite Z.pow_succ_r by lia; lia.
Qed.
Lemma iter_xO m d : Z.pos (Pos.iter xO m d) = (Z.pos m * 2 ^ Z.pos d)%Z.
Proof.
  induction d as [|d IH] using Pos.peano_ind; [simpl; lia|].
  rewrite Pos.iter_succ, Pos2Z.inj_xO, IH, Pos2Z.inj_succ, Z.pow_succ_r by lia. lia.
Qed.
Lemma digits2_iter m d : digits2_pos (Pos.iter xO m d) = (digits2_pos m + d)%positive.
Proof.
  induction d as [|d IH] using Pos.peano_ind; [simpl; lia|].
  rewrite Pos.iter_succ. simpl. rewrite IH. lia.
Qed.
(** A number of up to 53 bits is a float with a mantissa of 53. *)
Definition scaled (m : positive) : positive :=
  match (53 - Z.pos (digits2_pos m))%Z with Z.pos d => Pos.iter xO m d | _ => m end.
Lemma scaled_spec m : (Z.pos m < 2 ^ 53)%Z ->
  Z.pos (digits2_pos (scaled m)) = 53%Z /\
  Z.pos (scaled m) = (Z.pos m * 2 ^ (53 - Z.pos (digits2_pos m)))%Z /\ (Z.pos (digits2_pos m) <= 53)%Z.
Proof.
  intros H. assert (Z.pos (digits2_pos m) <= 53)%Z as Hd.
  { destruct (Z.le_gt_cases (Z.pos (digits2_pos m)) 53) as [|Hgt]; [done|]. exfalso.
    pose proof (digits2_bounds m) as [Hl _]. assert (2 ^ 53 <= 2 ^ (Z.pos (digits2_pos m) - 1))%Z by (apply Z.pow_le_mono_r; lia). lia. }
  unfold scaled. destruct (53 - _)%Z as [|d|d] eqn:E; [| |lia].
  - repeat split; lia.
  - rewrite digits2_iter, iter_xO. repeat split; lia.
Qed.
Lemma round_53 s m e : Z.pos (digits2_pos m) = 53%Z -> (-100 <= e <= 0)%Z ->
  binary_round_aux 53 1024 s (Z.pos m) e loc_Exact = S754_finite s m e.
Proof.
  intros Hd He. unfold binary_round_aux, shr_fexp, fexp, emin. simpl Zdigits2. rewrite Hd.
  replace (Z.max (53 + e - 53) (3 - 1024 - 53) - e)%Z with 0%Z by lia. simpl. rewrite Hd.
  replace (Z.max (53 + e - 53) (3 - 1024 - 53) - e)%Z with 0%Z by lia. simpl.
  rewrite (proj2 (Z.leb_le _ _)) by lia. done.
Qed.
Lemma binary_round_small s m : (Z.pos m < 2 ^ 53)%Z ->
  binary_round 53 1024 s m 0 = S754_finite s (scaled m) (Z.pos (digits2_pos m) - 53).
Proof.
  intros H. pose proof (scaled_spec m H) as (Hd & _ & Hle). unfold binary_round, shl_align, fexp, emin.
  replace (Z.max (Z.pos (digits2_pos m) + 0 - 53) (3 - 1024 - 53) - 0)%Z with (Z.pos (digits2_pos m) - 53)%Z by lia.
  unfold scaled in *. destruct (53 - _)%Z as [|d|d] eqn:E; [| |lia].
  - replace (Z.pos (digits2_pos m) - 53)%Z with 0%Z by lia. apply round_53; [done|lia].
  - replace (Z.pos (digits2_pos m) - 53)%Z with (Z.neg d) by lia.
    replace (Z.max (Z.pos (digits2_pos m) + 0 - 53) (3 - 1024 - 53))%Z with (Z.neg d) by lia. apply round_53; [done|lia].
Qed.
Definition small (z : Z) : Prop := (Z.abs z < 2 ^ 53)%Z.
Definition float_of (z : Z) : float64 :=
  match z with
  | 0 => S754_zero false
  | Z.pos m => S754_finite false (scaled m) (Z.pos (digits2_pos m) - 53)
  | Z.neg m => S754_finite true (scaled m) (Z.pos (digits2_pos m) - 53)
  end%Z.
Lemma f64_of_small z : small z -> f64_of_Z z = float_of z.
Proof. unfold small. destruct z as [|m|m]; simpl Z.abs; intros H; [done| |]; by apply binary_round_small. Qed.
Lemma scaled_div m : (Z.pos m < 2 ^ 53)%Z ->
  (if 0 <=? Z.pos (digits2_pos m) - 53 then Z.pos (scaled m) * 2 ^ (Z.pos (digits2_pos m) - 53)
   else Z.pos (scaled m) / 2 ^ (- (Z.pos (digits2_pos m) - 53)))%Z = Z.pos m.
Proof.
  intros H. pose proof (scaled_spec m H) as (_ & Hs & Hle). rewrite Hs. destruct (Z.leb_spec 0 (Z.pos (digits2_pos m) - 53)).
  - replace (Z.pos (digits2_pos m)) with 53%Z by lia. simpl. lia.
  - replace (- (Z.pos (digits2_pos m) - 53))%Z with (53 - Z.pos (digits2_pos m))%Z by lia. apply Z.div_mul.
    pose proof (Z.pow_pos_nonneg 2 (53 - Z.pos (digits2_pos m))). lia.
Qed.
Lemma f64_trunc_small z : small z -> f64_trunc (f64_of_Z z) = Some z.
Proof.
  intros H. rewrite f64_of_small by done. unfold small in H. destruct z as [|m|m]; simpl in H; [done| |];
    unfold float_of, f64_trunc; by rewrite scaled_div by done.
Qed.
(** Floats of numbers of different lengths are ordered by their exponents. *)
Lemma scaled_compare m n : (Z.pos m < 2 ^ 53)%Z -> (Z.pos n < 2 ^ 53)%Z ->
  match (Z.pos (digits2_pos m) - 53 ?= Z.pos (digits2_pos n) - 53)%Z with
  | Lt => Lt | Gt => Gt | Eq => Pos.compare_cont Eq (scaled m) (scaled n) end = (Z.pos m ?= Z.pos n)%Z.
Proof.
  intros Hm Hn. pose proof (scaled_spec m Hm) as (_ & Sm & _). pose proof (scaled_spec n Hn) as (_ & Sn & _).
  pose proof (digits2_bounds m). pose proof (digits2_bounds n).
  destruct (Z.compare_spec (Z.pos (digits2_pos m) - 53) (Z.pos (digits2_pos n) - 53)) as [E|E|E]; symmetry.
  - change (Pos.compare_cont Eq (scaled m) (scaled n)) with (Z.pos (scaled m) ?= Z.pos (scaled n))%Z. rewrite Sm, Sn.
    replace (Z.pos (digits2_pos n)) with (Z.pos (digits2_pos m)) by lia.
    pose proof (Z.pow_pos_nonneg 2 (53 - Z.pos (digits2_pos m))). apply Zmult_compare_compat_r. lia.
  - apply Z.compare_lt_iff. assert (2 ^ Z.pos (digits2_pos m) <= 2 ^ (Z.pos (digits2_pos n) - 1))%Z by (apply Z.pow_le_mono_r; lia). lia.
  - apply Z.compare_gt_iff. assert (2 ^ Z.pos (digits2_pos n) <= 2 ^ (Z.pos (digits2_pos m) - 1))%Z by (apply Z.pow_le_mono_r; lia). lia.
Qed.
Lemma f64_ltb_small a b : small a -> small b -> f64_ltb (f64_of_Z a) (f64_of_Z b) = (a <? b)%Z.
Proof.
  intros Ha Hb. rewrite !f64_of_small by done. unfold small in Ha, Hb. unfold f64_ltb, SFltb, Z.ltb.
  destruct a as [|m|m], b as [|n|n]; simpl in Ha, Hb; try done; cbn [float_of SFcompare].
  - by rewrite scaled_compare.
  - assert ((Z.neg m ?= Z.neg n)%Z = CompOpp (Z.pos m ?= Z.pos n)%Z) as -> by done.
    rewrite <- (scaled_compare m n Ha Hb). by destruct (_ ?= _)%Z.
Qed.

(** * Paths *)

(** An element of a path that stays in it. *)
Definition plain_elem (e : bytes) : Prop := e <> [] /\ e <> str "." /\ e <> str ".." /\ "/"%char ∉ e.
Lemma clean_step_plain rooted out e : plain_elem e -> clean_step rooted out e = out ++ [e].
Proof. intros (H1 & H2 & H3 & _). unfold clean_step. by rewrite !bool_decide_false. Qed.
Lemma clean_step_dotdot rooted out e : plain_elem e -> clean_step rooted (out ++ [e]) (str "..") = out.
Proof.
  intros (_ & _ & H & _). unfold clean_step. simpl. rewrite rev_app_distr. simpl.
  rewrite bool_decide_false by done. by rewrite rev_involutive.
Qed.
Definition elems (p : bytes) : list bytes := foldl (clean_step (HasPrefix p (str "/"))) [] (SplitByte "/"%char p).
(** The cleaned path of these elements. *)
Definition path_of (rooted : bool) (es : list bytes) : bytes :=
  match Join es (str "/") with
  | [] => if rooted then str "/" else str "."
  | p => if rooted then str "/" ++ p else p
  end.
Lemma Clean_elems p : Clean p = path_of (HasPrefix p (str "/")) (elems p).
Proof. reflexivity. Qed.
Lemma SplitByte_ne c s : SplitByte c s <> [].
Proof. destruct s as [|a s]; simpl; [done|]. case_bool_decide; [done|]. by destruct (SplitByte c s). Qed.
Lemma SplitByte_split c s t : SplitByte c (s ++ c :: t) = SplitByte c s ++ SplitByte c t.
Proof.
  induction s as [|a s IH]; simpl; [by rewrite bool_decide_true|].
  rewrite IH. case_bool_decide; [done|]. pose proof (SplitByte_ne c s). by destruct (SplitByte c s).
Qed.
Lemma slash_prefix p t : p <> [] -> HasPrefix (p ++ t) (str "/") = HasPrefix p (str "/").
Proof. by destruct p. Qed.
(** One more element. *)
Lemma elems_snoc p e : p <> [] -> "/"%char ∉ e ->
  elems (p ++ str "/" ++ e) = clean_step (HasPrefix p (str "/")) (elems p) e.
Proof.
  intros Hp He. unfold elems. rewrite slash_prefix by done.
  change (p ++ str "/" ++ e) with (p ++ "/"%char :: e). by rewrite SplitByte_split, (SplitByte_none _ e), foldl_snoc.
Qed.
Lemma Join_snoc es e : es <> [] -> Join (es ++ [e]) (str "/") = Join es (str "/") ++ str "/" ++ e.
Proof.
  induction es as [|x es IH]; intros H; [done|]. destruct es as [|y es]; [done|].
  change (Join ((x :: y :: es) ++ [e]) (str "/")) with (x ++ str "/" ++ Join ((y :: es) ++ [e]) (str "/")).
  rewrite IH by done. change (Join (x :: y :: es) (str "/")) with (x ++ str "/" ++ Join (y :: es) (str "/")).
  by rewrite <- !app_assoc.
Qed.
Lemma Join_ne es e : e <> [] -> Join (es ++ [e]) (str "/") <> [].
Proof.
  intros He. destruct es as [|x es]; [done|]. rewrite Join_snoc by done. intros H.
  by apply app_eq_nil in H as [_ H].
Qed.
Lemma path_of_snoc rooted es e x : x <> [] ->
  path_of rooted (es ++ [x] ++ [e]) = path_of rooted (es ++ [x]) ++ str "/" ++ e.
Proof.
  intros Hx. unfold path_of. rewrite (app_assoc es), Join_snoc by (by destruct es).
  destruct (Join (es ++ [x]) (str "/")) as [|a j] eqn:E; [by apply Join_ne in E|]. simpl. by destruct rooted.
Qed.

(** The path of a file in a directory. *)
Lemma Join2 a b : a <> [] -> b <> [] -> filepath_Join [a; b] = Clean (a ++ str "/" ++ b).
Proof. by destruct a, b. Qed.
Lemma Join3 a b c : a <> [] -> b <> [] -> c <> [] -> filepath_Join [a; b; c] = Clean (a ++ str "/" ++ b ++ str "/" ++ c).
Proof. by destruct a, b, c. Qed.
Lemma Clean_under p d e : p <> [] -> plain_elem d -> plain_elem e ->
  Clean (p ++ str "/" ++ d ++ str "/" ++ e) = Clean (p ++ str "/" ++ d) ++ str "/" ++ e.
Proof.
  intros Hp Hd He. rewrite (app_assoc (str "/") d), (app_assoc p). set (q := p ++ str "/" ++ d).
  assert (q <> []) as Hq by (by destruct p). rewrite !Clean_elems, (slash_prefix q) by done.
  rewrite elems_snoc, (clean_step_plain _ _ e) by (done || apply He).
  assert (elems q = elems p ++ [d]) as ->.
  { unfold q. rewrite elems_snoc by (done || apply Hd). by apply clean_step_plain. }
  rewrite <- app_assoc. apply path_of_snoc. apply Hd.
Qed.
(** Two steps down and two up again. *)
Lemma Clean_escape p d e t : p <> [] -> plain_elem d -> plain_elem e ->
  Clean (p ++ str "/" ++ d ++ str "/" ++ e ++ str "/../../" ++ t) = Clean (p ++ str "/" ++ t).
Proof.
  intros Hp Hd He. rewrite !Clean_elems, !slash_prefix by done. f_equal. unfold elems.
  rewrite !slash_prefix by done. set (r := HasPrefix p (str "/")).
  change (str "/../../" ++ t) with ("/"%char :: str ".." ++ "/"%char :: str ".." ++ "/"%char :: t).
  change (str "/" ++ d ++ ?x) with ("/"%char :: d ++ x). change (str "/" ++ e ++ ?x) with ("/"%char :: e ++ x).
  change (str "/" ++ t) with ("/"%char :: t).
  rewrite !SplitByte_split, !foldl_app, (SplitByte_none _ d), (SplitByte_none _ e) by (apply Hd || apply He).
  change (SplitByte "/" (str "..")) with [str ".."]. cbn [foldl].
  rewrite (clean_step_plain _ _ d Hd), (clean_step_plain _ _ e He), !clean_step_dotdot by done. done.
Qed.

(** The elements that [Clean] leaves. *)
Definition up : bytes := str "..".
Definition normal (rooted : bool) (es : list bytes) : Prop :=
  exists n l, es = replicate n up ++ l /\ Forall plain_elem l /\ (rooted = true -> n = 0).
Lemma up_no_slash : "/"%char ∉ up.
Proof. by apply (bool_decide_unpack (_ ∉ _)). Qed.
Lemma normal_step rooted es e : "/"%char ∉ e -> normal rooted es -> normal rooted (clean_step rooted es e).
Proof.
  intros He (n & l & -> & Hl & Hn). unfold clean_step.
  destruct (bool_decide_reflect (e = [])), (bool_decide_reflect (e = str ".")); cbn [orb]; try by exists n, l.
  destruct (bool_decide_reflect (e = str "..")) as [->|].
  - destruct l as [|x l _] using rev_ind.
    + rewrite app_nil_r. destruct n as [|n].
      * destruct rooted; [by exists 0, []|]. by exists 1, [].
      * rewrite replicate_S_end, rev_app_distr. simpl. exists (S (S n)), [].
        rewrite app_nil_r. split; [by rewrite (replicate_S_end (S n)), (replicate_S_end n)|].
        split; [constructor|intros E; by specialize (Hn E)].
    + rewrite app_assoc, rev_app_distr. simpl. apply Forall_app in Hl as [Hl Hx]. apply Forall_inv in Hx.
      rewrite bool_decide_false by apply Hx. rewrite rev_involutive. by exists n, l.
  - exists n, (l ++ [e]). split; [by rewrite app_assoc|]. split; [|done].
    apply Forall_app. split; [done|]. by apply Forall_singleton.
Qed.
Lemma SplitByte_elems c s e : e ∈ SplitByte c s -> c ∉ e.
Proof.
  revert e. induction s as [|a s IH]; intros e; simpl.
  - intros ->%list_elem_of_singleton. apply not_elem_of_nil.
  - case_bool_decide.
    + intros [->|He]%elem_of_cons; [apply not_elem_of_nil|by apply IH].
    + destruct (SplitByte c s) as [|x xs].
      * intros ->%list_elem_of_singleton. intros Hc%list_elem_of_singleton. congruence.
      * intros [->|He]%elem_of_cons; [|apply IH; by right].
        intros [Hc|Hc]%elem_of_cons; [congruence|]. by apply (IH x); [left|].
Qed.
Lemma normal_elems p : normal (HasPrefix p (str "/")) (elems p).
Proof.
  unfold elems. generalize (HasPrefix p (str "/")). intros r. assert (normal r []) as H0 by (by exists 0, []).
  revert H0. generalize (@nil bytes). pose proof (SplitByte_elems "/"%char p) as Hs. revert Hs.
  induction (SplitByte "/"%char p) as [|e l IH]; intros Hs out Ho; simpl; [done|].
  apply IH; [intros e' He'; apply Hs; by right|]. apply normal_step; [apply Hs; by left|done].
Qed.
Lemma foldl_normal rooted es : normal rooted es -> foldl (clean_step rooted) [] es = es.
Proof.
  intros (n & l & -> & Hl & Hn). assert (foldl (clean_step rooted) [] (replicate n up) = replicate n up) as Hup.
  { destruct rooted; [by rewrite Hn|]. clear Hn. induction n as [|n IH]; [done|].
    rewrite (replicate_S_end n), foldl_snoc, IH. unfold clean_step.
    rewrite !(bool_decide_false (up = @nil ascii)), (bool_decide_false (up = str ".")), bool_decide_true by done. simpl.
    destruct n as [|n]; [done|]. by rewrite (replicate_S_end n), rev_app_distr. }
  rewrite foldl_app, Hup. clear Hup Hn. generalize (replicate n up) as out. induction Hl as [|e l He _ IH]; intros out; simpl.
  - by rewrite app_nil_r.
  - rewrite clean_step_plain by done. rewrite IH. by rewrite <- app_assoc.
Qed.
Lemma SplitByte_Join es : es <> [] -> Forall (fun e => "/"%char ∉ e) es -> SplitByte "/"%char (Join es (str "/")) = es.
Proof.
  induction es as [|e es IH]; intros Hne H; [done|]. inversion H as [|? ? He Hes]; subst.
  destruct es as [|x es]; [by apply SplitByte_none|].
  change (Join (e :: x :: es) (str "/")) with (e ++ "/"%char :: Join (x :: es) (str "/")).
  by rewrite SplitByte_app, IH.
Qed.
Lemma normal_no_slash rooted es : normal rooted es -> Forall (fun e => e <> [] /\ "/"%char ∉ e) es.
Proof.
  intros (n & l & -> & Hl & _). apply Forall_app. split.
  - apply Forall_replicate. split; [done|apply up_no_slash].
  - eapply Forall_impl; [exact Hl|]. intros e (? & _ & _ & ?). done.
Qed.
(** A cleaned path keeps its elements. *)
Lemma elems_path_of rooted es : es <> [] -> normal rooted es ->
  elems (path_of rooted es) = es /\ HasPrefix (path_of rooted es) (str "/") = rooted.
Proof.
  intros Hne Hn. pose proof (normal_no_slash _ _ Hn) as Hf. pose proof (foldl_normal _ _ Hn) as Hfold. unfold path_of, elems.
  assert (SplitByte "/"%char (Join es (str "/")) = es) as Hs.
  { apply SplitByte_Join; [done|]. eapply Forall_impl; [exact Hf|]. by intros ? []. }
  destruct (Join es (str "/")) as [|a j] eqn:E.
  { destruct es as [|x es]; [done|]. inversion Hf as [|? ? [Hx _] _]; subst. destruct es; simpl in E; [done|]. by destruct x. }
  destruct rooted.
  - split; [|done]. change (str "/" ++ a :: j) with ("/"%char :: a :: j).
    change (SplitByte "/" ("/"%char :: a :: j)) with ([] :: SplitByte "/"%char (a :: j)).
    rewrite Hs. exact Hfold.
  - assert (HasPrefix (a :: j) (str "/") = false) as Hp.
    { destruct es as [|x es]; [done|]. inversion Hf as [|? ? [Hx Hx'] _]; subst. destruct x as [|b x]; [done|].
      assert (b = a) as -> by (destruct es; simpl in E; congruence). simpl. rewrite bool_decide_false; [done|].
      intros <-. apply Hx'. by left. }
    split; [|done]. by rewrite Hp, Hs.
Qed.
Lemma Clean_below p e : p <> [] -> elems p <> [] -> plain_elem e ->
  Clean (Clean p ++ str "/" ++ e) = Clean p ++ str "/" ++ e.
Proof.
  intros Hp He Hpe. rewrite (Clean_elems p). set (r := HasPrefix p (str "/")).
  destruct (elems_path_of r (elems p) He (normal_elems p)) as [E1 E2].
  pose proof (normal_no_slash _ _ (normal_elems p)) as Hf. fold r in E1, E2. revert He E1 E2 Hf.
  generalize (elems p) as es. intros es He E1 E2 Hf. destruct es as [|x es _] using rev_ind; [done|]. clear He.
  apply Forall_app in Hf as [_ [Hx _]%Forall_inv].
  set (q := path_of r (es ++ [x])) in *. assert (q <> []) as Hq.
  { unfold q, path_of. destruct (Join _ _) as [|a j]; by destruct r. }
  rewrite Clean_elems, slash_prefix, E2, elems_snoc, E1, clean_step_plain by (done || apply Hpe).
  rewrite <- app_assoc. by apply path_of_snoc.
Qed.
