(* ===== verification/Logger.v ===== *)
(** The log of the agent: [src/agent/util/logutil/Logger.go].

    [OS] is what the code sees of the operating system: the names of files and directories
    by cleaned path, the contents of files by number, the open handles, and the two
    standard streams.  A path in [refused] is one that a call on it fails for (no
    permission, for one); a write to an open file succeeds.  A file keeps its contents
    while a handle is open, whatever becomes of its name.

    [World] is a logger and the system.  An operation takes the time [now] at which it
    runs, and a message as [fmt] formats it.  golib's dates and colours, the text of
    [log]'s time and the texts of errors are parameters. *)

From Stdlib Require Import SpecFloat.
From S2P Require Import Prelude Hmap CounterTasks TraceCtx Conf.

(** [dateutil], [ansi]; the time that [log] writes before a line (date and time of day);
    the texts of errors; the value that [GetYmdTime] panics with; what [Stat] gives as the
    size of a directory. *)
Class LogLib := {
  YYYYMMDD : Z -> bytes; GetDateUnit : Z -> Z; GetYmdTime : bytes -> bytes + Z; TimeStamp : Z -> bytes;
  Red : bytes -> bytes; header : Z -> bytes; error_text : bytes -> bytes; dir_size : bytes -> Z
}.

(** * Files *)

Inductive node := Dir | File (inode : nat).
Record OS := mkOS {
  names : gmap bytes node; blocks : gmap nat bytes; next_inode : nat; handles : gmap nat node; next_handle : nat;
  stdout : bytes; stderr : bytes; refused : bytes -> bool
}.

Definition here (p : bytes) : bool := bool_decide (p = str ".") || bool_decide (p = str "/").
Definition node_at (s : OS) (p : bytes) : option node := if here p then Some Dir else names s !! p.
(** [filepath.Dir] of a cleaned path. *)
Definition parent (p : bytes) : bytes :=
  match LastIndexByte p "/"%char with Some i => Clean (take (S i) p) | None => str "." end.
Definition content (s : OS) (i : nat) : bytes := default [] (blocks s !! i).

Inductive found := NotExist | StatError | Is (n : node).
Definition os_Stat (s : OS) (p : bytes) : found :=
  if refused s p then StatError else match node_at s p with Some n => Is n | None => NotExist end.
Definition Mkdir (p : bytes) (s : OS) : OS :=
  match node_at s p, node_at s (parent p) with
  | None, Some Dir => if refused s p then s else s <| names ::= <[p := Dir]> |>
  | _, _ => s
  end.
Definition new_handle (n : node) (s : OS) : OS * option nat :=
  (s <| handles ::= <[next_handle s := n]> |> <| next_handle ::= S |>, Some (next_handle s)).
(** [os.OpenFile(p, os.O_CREATE|os.O_WRONLY|os.O_APPEND, 0666)] *)
Definition OpenAppend (p : bytes) (s : OS) : OS * option nat :=
  if refused s p then (s, None) else
  match node_at s p with
  | Some Dir => (s, None)
  | Some (File i) => new_handle (File i) s
  | None =>
      match node_at s (parent p) with
      | Some Dir =>
          let i := next_inode s in
          new_handle (File i) (s <| names ::= <[p := File i]> |> <| blocks ::= <[i := []]> |> <| next_inode ::= S |>)
      | _ => (s, None)
      end
  end.
Definition Open (p : bytes) (s : OS) : OS * option nat :=
  if refused s p then (s, None) else
  match node_at s p with Some n => new_handle n s | None => (s, None) end.
(** Closing a nil or a closed file is an error that no caller looks at. *)
Definition CloseFile (f : option nat) (s : OS) : OS :=
  match f with Some h => s <| handles ::= delete h |> | None => s end.
Definition WriteFile (f : option nat) (b : bytes) (s : OS) : OS * bool :=
  match f ≫= (fun h => handles s !! h) with
  | Some (File i) => (s <| blocks ::= <[i := content s i ++ b]> |>, true)
  | _ => (s, false)
  end.
(** [os.Remove] of a file. *)
Definition Remove (p : bytes) (s : OS) : OS * bool :=
  if refused s p then (s, false) else
  match names s !! p with Some (File _) => (s <| names ::= delete p |>, true) | _ => (s, false) end.

(** [ioutil.ReadDir]: what a directory holds, by name. *)
Definition child (dir p : bytes) : option bytes :=
  if HasPrefix p (dir ++ str "/") then
    let name := drop (S (length dir)) p in
    if bool_decide (name = []) || bool_decide ("/"%char ∈ name) then None else Some name
  else None.
Definition name_le (x y : bytes * node) : Prop := bytes_le x.1 y.1.
#[export] Instance name_le_dec : RelDecision name_le.
Proof. intros x y. unfold name_le. apply _. Defined.
Definition ReadDir (s : OS) (dir : bytes) : list (bytes * node) :=
  if refused s dir then [] else
  match node_at s dir with
  | Some Dir => merge_sort name_le (omap (fun '(p, n) => (fun name => (name, n)) <$> child dir p) (map_to_list (names s)))
  | _ => []
  end.

Definition node_size `{LogLib} (s : OS) (p : bytes) (n : node) : Z :=
  match n with Dir => dir_size p | File i => Z.of_nat (length (content s i)) end.
(** [f.Stat()] of an open file. *)
Definition fd_size `{LogLib} (s : OS) (p : bytes) (h : nat) : Z :=
  match handles s !! h with Some n => node_size s p n | None => 0 end.

(** * The logger *)

Definition LOG_LEVEL_ERROR : Z := 3.
Definition LOG_LEVEL_WARN : Z := 2.
Definition LOG_LEVEL_INFO : Z := 1.
Definition LOG_LEVEL_DEBUG : Z := 0.

(** Where [Log] writes: an [io.MultiWriter] stops at the first writer that fails. *)
Inductive writer := Stdout | Logfile (f : option nat).

Record Logger `{LinkedMap bytes} := mkLogger {
  Log : list writer; lastLog : lmap Z; oname : bytes; logID : bytes; logfile : option nat; last : Z;
  lastDataUnit : Z; lastFileRotation : bool; confLogInterval : Z; confLogRotationEnabled : bool;
  confLogKeepDays : Z; confLogStdoutEnabled : bool; Level : Z; Shutdown : bool
}.

Section Logger.
Context {LM : LinkedMap bytes} {CL : ConfLib} {LL : LogLib}.
Variable Getenv : bytes -> bytes.

Record World := mkWorld { lg : Logger; sys : OS }.

(** The number in WHATAP_APP_TYPE. *)
Definition env_type : option Z :=
  match Getenv (str "WHATAP_APP_TYPE") with [] => None | aType => wrap_s 16 <$> Atoi aType end.
Definition NewLogger : Logger := {|
  Log := [Stdout]; lastLog := lm_set_max (lm_new 0) 1000; oname := str "boot";
  logID := match env_type with
           | Some at_ => if bool_decide (at_ ∈ [APP_TYPE_BSM_PHP; APP_TYPE_BSM_PYTHON; APP_TYPE_BSM_DOTNET])
                         then str "opsnowbsm" else str "whatap"
           | None => str "whatap"
           end;
  logfile := None; last := 0; lastDataUnit := 0; lastFileRotation := false; confLogInterval := 10;
  confLogRotationEnabled := true; confLogKeepDays := 7; confLogStdoutEnabled := false; Level := 0; Shutdown := false |}.
Definition GetLogHome : bytes :=
  let home := match Getenv (str "WHATAP_HOME") with [] => str "." | h => h end in
  match env_type with
  | Some at_ =>
      if bool_decide (at_ ∈ [APP_TYPE_DOTNET; APP_TYPE_BSM_DOTNET])
      then match Getenv (str "WHATAP_DOTNET_HOME") with [] => home | h => h end else home
  | None => home
  end.
Definition logs : bytes := filepath_Join [GetLogHome; str "logs"].

(** ** Lines *)

Definition write1 (t : writer) (b : bytes) (s : OS) : OS * bool :=
  match t with Stdout => (s <| stdout ::= fun o => o ++ b |>, true) | Logfile f => WriteFile f b s end.
Fixpoint write_all (ts : list writer) (b : bytes) (s : OS) : OS :=
  match ts with
  | [] => s
  | t :: ts => let '(s, ok) := write1 t b s in if ok : bool then write_all ts b s else s
  end.
Definition newline : bytes := ["010"%char].
Definition line (now : Z) (message : bytes) : bytes := header now ++ message ++ newline.
(** [this.Log.Println(message)] *)
Definition Log_Println (now : Z) (message : bytes) (w : World) : World :=
  w <| sys ::= write_all (Log (lg w)) (line now message) |>.
Definition Print := Log_Println.
Definition build (id message : bytes) : bytes := str "[" ++ id ++ str "] " ++ message.

(** Whether a line of [id] may be written now. *)
Definition checkOk (now : Z) (id : bytes) (sec : Z) (l : Logger) : Logger * bool :=
  if (0 <? sec)%Z then
    let last := default 0%Z (lm_get (lastLog l) id) in
    if (now <? int64 (last + int64 (sec * 1000)))%Z then (l, false)
    else (l <| lastLog ::= fun m => lm_put m id now |>, true)
  else (l, true).
Definition println (now : Z) (id message : bytes) (w : World) : World :=
  let '(l, ok) := checkOk now id (confLogInterval (lg w)) (lg w) in
  let w := w <| lg := l |> in
  if ok : bool then Log_Println now (build id message) w else w.
(** The error is not written. *)
Definition printlnError (now : Z) (id message : bytes) (t : bytes) (w : World) : World := println now id message w.
Definition sysout (message : bytes) (w : World) : World :=
  w <| sys ::= fun s => s <| stdout ::= fun o => o ++ message ++ newline |> |>.
Definition printlnStd (now : Z) (msg : bytes) (to_stdout : bool) (w : World) : World :=
  if to_stdout then sysout msg w else Log_Println now msg w.
Definition info (now : Z) (id message : bytes) (w : World) : World := printlnStd now (build id message) false w.

(** ** The file *)

Definition log_name (l : Logger) (now : Z) : bytes :=
  if confLogRotationEnabled l then logID l ++ str "-" ++ oname l ++ str "-" ++ YYYYMMDD now ++ str ".log"
  else logID l ++ str "-" ++ oname l ++ str ".log".
Definition log_path (l : Logger) (now : Z) : bytes := filepath_Join [GetLogHome; str "logs"; log_name l now].

(** The directory of the logs is made when it is not there. *)
Definition make_logs (s : OS) : OS := match os_Stat s logs with NotExist => Mkdir logs s | _ => s end.
Definition set_output (ts : list writer) (w : World) : World := w <| lg ::= fun l => l <| Log := ts |> |>.
(** The writers for a file that may not be open; [None] is the panic. *)
Definition attach (now : Z) (w : World) : World * bool :=
  if confLogStdoutEnabled (lg w) then
    match logfile (lg w) with
    | None => (set_output [Stdout] (Log_Println now (str "WA1000401 Logger is set up by stdout") w), true)
    | f => (set_output [Logfile f; Stdout]
             (Log_Println now (str "WA1000402 Logger is set up by multiwriter have file and stdout") w), true)
    end
  else
    match logfile (lg w) with
    | None => (w, false)
    | f => (set_output [Logfile f] w, true)
    end.
Definition opened_banner (now : Z) (w : World) : World :=
  Log_Println now [] (Log_Println now (str "## OPEN LOG FILE  " ++ oname (lg w) ++ str "  " ++ TimeStamp now ++ str " ##")
    (Log_Println now [] w)).
Definition openFile (now : Z) (w : World) : World :=
  match logfile (lg w) with
  | Some _ => w
  | None =>
      let s := make_logs (sys w) in
      let path := log_path (lg w) now in
      let '(s, f) := OpenAppend path s in
      let l := (lg w) <| logfile := f |> in
      let l := match ParseBool (Getenv (str "log_stdout_enabled")) with
               | Some v => l <| confLogStdoutEnabled := v |> | None => l end in
      let '(w, ok) := attach now (mkWorld l s) in
      if ok : bool then opened_banner now w
      else Log_Println now (str "WA10004 openFile Recover  " ++ error_text path) w
  end.
Definition update (now : Z) (name : bytes) (w : World) : World :=
  let name := TrimSpace name in
  if bool_decide (name = oname (lg w)) then w else openFile now (w <| lg ::= fun l => l <| oname := name |> |>).

(** ** Old files *)

(** The date in the name of a file of this logger: eight bytes between the last ["-"] and
    the last ["."]. *)
Definition file_date (prefix name : bytes) : option bytes :=
  if HasPrefix name (prefix ++ str "-") then
    x ← LastIndexByte name "."%char;
    s ← LastIndexByte name "-"%char;
    if bool_decide (x - 1 <= s) then None
    else let date := take (x - (s + 1)) (drop (s + 1) name) in
         if bool_decide (length date = 8) then Some date else None
  else None.
Definition clear1 (now : Z) (w : World) (f : bytes * node) : World :=
  match f with
  | (_, Dir) => w
  | (name, File _) =>
      match file_date (logID (lg w)) name with
      | None => w
      | Some date =>
          match GetYmdTime date with
          | inl r => Log_Println now (str "WA10006  File Delete Error " ++ r) w
          | inr d =>
              if (confLogKeepDays (lg w) <? int64 (GetDateUnit now - GetDateUnit d))%Z then
                let path := filepath_Join [logs; name] in
                let '(s, ok) := Remove path (sys w) in
                let w := w <| sys := s |> in
                if ok : bool then w else Log_Println now (str "WA10007  File Remove Error " ++ error_text path) w
              else w
          end
      end
  end.
Definition clearOldLog (now : Z) (w : World) : World :=
  if negb (confLogRotationEnabled (lg w)) then w
  else if (confLogKeepDays (lg w) <=? 0)%Z then w
  else foldl (clear1 now) w (ReadDir (sys w) logs).

(** ** The loop *)

Definition MILLIS_PER_MINUTE : Z := 60000.
(** The file is closed, to be opened again. *)
Definition rotate (now : Z) (w : World) : World :=
  let l := lg w in
  if negb (bool_decide (lastFileRotation l = confLogRotationEnabled l)) ||
     negb (bool_decide (lastDataUnit l = GetDateUnit now)) || negb (bool_decide (is_Some (logfile l)))
  then mkWorld (l <| logfile := None |> <| lastFileRotation := confLogRotationEnabled l |> <| lastDataUnit := GetDateUnit now |>)
         (CloseFile (logfile l) (sys w))
  else w.
Definition process (now : Z) (w : World) : World :=
  let w := if (int64 (last (lg w) + MILLIS_PER_MINUTE) <? now)%Z
           then clearOldLog now (w <| lg ::= fun l => l <| last := now |> |>) else w in
  openFile now (rotate now w).
Definition run_start (now : Z) (w : World) : World :=
  w <| lg ::= fun l => l <| last := now |> <| lastDataUnit := GetDateUnit now |>
    <| lastFileRotation := confLogRotationEnabled l |> |>.
(** A round, and whether another follows it. *)
Definition run_once (now : Z) (w : World) : World * bool :=
  if Shutdown (lg w) then (info now (str "WA211-19") (str "Shutdown logutil") w, false) else (process now w, true).

(** ** Settings *)

Definition SetLogInterval (i : Z) (w : World) : World := w <| lg ::= fun l => l <| confLogInterval := i |> |>.
Definition SetLogRotationEnabled (b : bool) (w : World) : World :=
  w <| lg ::= fun l => l <| confLogRotationEnabled := b |> |>.
Definition SetLogKeepDays (i : Z) (w : World) : World := w <| lg ::= fun l => l <| confLogKeepDays := i |> |>.
Definition SetLogID (id : bytes) (w : World) : World := w <| lg ::= fun l => l <| logID := id |> |>.
Definition SetLogStdoutEnabled (b : bool) (w : World) : World :=
  if bool_decide (confLogStdoutEnabled (lg w) = b) then w
  else
    let l := (lg w) <| confLogStdoutEnabled := b |> in
    set_output (if b then [Logfile (logfile l); Stdout] else [Logfile (logfile l)]) (w <| lg := l |>).
Definition SetLevel (lv : Z) (w : World) : World := w <| lg ::= fun l => l <| Level := lv |> |>.

(** ** Reading the logs *)

(** The puts of a golib map, which keeps the order of its keys. *)
Definition map_put {V} (out : list (bytes * V)) (k : bytes) (v : V) : list (bytes * V) :=
  match alookup out k with Some _ => awrite out k (fun _ => v) | None => out ++ [(k, v)] end.
Abbreviation MapValue := (list (bytes * Z)).
Definition hook_log : bytes := str "whatap-hook.log".
Definition dotnet_log : bytes := str "dotnet-profiler.log".
(** Whether a file is in the list. *)
Definition listed (prefix name : bytes) : res bool :=
  match Index name (str ".") with
  | None => Ret false
  | Some x =>
      if bool_decide (name = hook_log) then Ret true
      else if HasPrefix name (prefix ++ str "-") then
        date ← slice name (length prefix + 1) x; Ret (bool_decide (length date = 8))
      else Ret false
  end.
Fixpoint list_files (s : OS) (prefix dir : bytes) (out : MapValue) (fs : list (bytes * node)) : res MapValue :=
  match fs with
  | [] => Ret out
  | (_, Dir) :: fs => list_files s prefix dir out fs
  | (name, File i) :: fs =>
      b ← listed prefix name;
      if b : bool then
        let out := map_put out name (node_size s (filepath_Join [dir; name]) (File i)) in
        if 100 <=? length out then Ret out else list_files s prefix dir out fs
      else list_files s prefix dir out fs
  end.
Definition dotnet_path : bytes := filepath_Join [Getenv (str "ProgramData"); str "WhaTap"; dotnet_log].
Definition GetLogFiles (w : World) : res MapValue :=
  out ← list_files (sys w) (logID (lg w) ++ str "-" ++ oname (lg w)) logs [] (ReadDir (sys w) logs);
  Ret match os_Stat (sys w) dotnet_path with
      | Is n => map_put out dotnet_log (node_size (sys w) dotnet_path n)
      | _ => out
      end.

Record LogData := mkLogData { Before : Z; Next : Z; Text : bytes }.

(** [math.Max], [math.Min] and [int64] of numbers that are [float64(z)]; an [int64] that is
    out of range is the least one, as on amd64. *)
Definition f64_to_int64 (x : float64) : Z :=
  match f64_trunc x with
  | Some z => if (- 2 ^ 63 <=? z)%Z && (z <? 2 ^ 63)%Z then z else (- 2 ^ 63)%Z
  | None => (- 2 ^ 63)%Z
  end.
Definition math_Max (x y : float64) : float64 := if f64_ltb y x then x else y.
Definition math_Min (x y : float64) : float64 := if f64_ltb x y then x else y.

(** The files that may be read. *)
Definition readable_name (l : Logger) (file : bytes) : bool :=
  bool_decide (file = dotnet_log) || bool_decide (file = hook_log) || HasPrefix file (logID l ++ str "-" ++ oname l).
Definition read_path (file : bytes) : bytes :=
  if bool_decide (file = dotnet_log) then filepath_Join [Getenv (str "ProgramData"); str "WhaTap"; file]
  else filepath_Join [GetLogHome; str "logs"; file].
(** [f.ReadAt(make([]byte, n), start)]: fewer bytes than [n] are an error. *)
Definition ReadAt (s : OS) (h : nat) (n start : Z) : option bytes :=
  match handles s !! h with
  | Some (File i) =>
      let got := take (Z.to_nat n) (drop (Z.to_nat start) (content s i)) in
      if (start <? 0)%Z || (Z.of_nat (length got) <? n)%Z then None else Some got
  | _ => None
  end.
(** A return before the end leaves the file open. *)
Definition Read (now : Z) (file : bytes) (endpos length_ : Z) (w : World) : World * res (option LogData) :=
  if bool_decide (file = []) || (length_ =? 0)%Z || negb (readable_name (lg w) file) then (w, Ret None)
  else
    let s := make_logs (sys w) in
    match Open (read_path file) s with
    | (s, None) => (w <| sys := s |>, Ret None)
    | (s, Some h) =>
        let w := w <| sys := s |> in
        let size := fd_size s (read_path file) h in
        if (size <? endpos)%Z then (w, Ret None)
        else
          let endpos := if (endpos <? 0)%Z then size else endpos in
          let start := f64_to_int64 (math_Max (f64_of_Z 0) (f64_of_Z (int64 (endpos - length_)))) in
          let available := int64 (size - start) in
          let readable := f64_to_int64 (math_Min (f64_of_Z available) (f64_of_Z length_)) in
          if (readable <? 0)%Z then (w, Panic)
          else
            match ReadAt s h readable start with
            | None => (Log_Println now (str "WA1000901  Read Error  " ++ error_text (read_path file)) w, Ret None)
            | Some buff =>
                let next := int64 (start + readable) in
                let next := if (size <? int64 (next + length_))%Z then (-1)%Z else int64 (next + length_) in
                (w <| sys ::= CloseFile (Some h) |>, Ret (Some (mkLogData start next buff)))
            end
    end.

(** ** [FileLog] *)

Record FileLog := mkFileLog { out : option nat }.
Definition NewFileLog (now : Z) (filename : bytes) (s : OS) : OS * FileLog :=
  let '(s, f) := OpenAppend (Clean filename) s in
  match f with
  | None => (s <| stderr ::= fun e => e ++ line now (str "WA100011  Open File Error " ++ error_text filename) |>, mkFileLog None)
  | _ => (s, mkFileLog f)
  end.
Definition FileLog_Println (now : Z) (message : bytes) (f : FileLog) (s : OS) : OS :=
  match out f with None => s | h => (WriteFile h (FormatInt now ++ str " " ++ message) s).1 end.
Definition FileLog_Close (f : FileLog) (s : OS) : OS := CloseFile (out f) s.

(** * The logger of the process *)

Record Process := mkProcess { logger : option Logger; os : OS }.
Definition GetLogger (p : Process) : World := mkWorld (default NewLogger (logger p)) (os p).
Definition after (w : World) : Process := mkProcess (Some (lg w)) (sys w).
(** A function that calls [GetLogger] first; [Infof] and [Debugf] do not, and a nil logger
    is then a panic in the deferred function too. *)
Definition on_logger (f : World -> World) (p : Process) : res Process := Ret (after (f (GetLogger p))).
Definition on_known (f : World -> World) (p : Process) : res Process :=
  match logger p with Some l => Ret (after (f (mkWorld l (os p)))) | None => Panic end.

(** [Info], [Infoln], [Debug] and [Debugln]; then [Infof] and [Debugf]. *)
Definition Infoln (now : Z) (id message : bytes) : Process -> res Process := on_logger (info now id message).
Definition Infof (now : Z) (id message : bytes) : Process -> res Process := on_known (info now id message).
(** [Println] and [Printf]. *)
Definition Println (now : Z) (id message : bytes) : Process -> res Process := on_logger (println now id message).
Definition PrintlnError (now : Z) (id message t : bytes) : Process -> res Process :=
  on_logger (printlnError now id message t).
(** The method [Println] takes the whole text as the id of the line. *)
Definition Errorln (now : Z) (id message : bytes) : Process -> res Process :=
  on_logger (println now (Red (build id message)) []).
Definition Errorf (now : Z) (id message : bytes) : Process -> res Process :=
  on_logger (Print now (Red (build id message))).
Definition PrintlnStd (now : Z) (msg : bytes) (to_stdout : bool) : Process -> res Process :=
  on_logger (printlnStd now msg to_stdout).
Definition Update (now : Z) (name : bytes) : Process -> res Process := on_logger (update now name).
Definition Sysout (message : bytes) : Process -> res Process := on_logger (sysout message).

(** golib's interface of a logger. *)
Inductive level := LError | LWarn | LInfo | LDebugf | LDebug.
Definition leveled (now : Z) (lv : level) (message : bytes) : Process -> res Process :=
  match lv with
  | LError => Println now (str "ERROR") message
  | LWarn => Println now (str "WARN") message
  | LInfo => Println now (str "INFO") message
  | LDebugf => Infof now (str "DEBUG") message
  | LDebug => Infoln now (str "DEBUG") message
  end.
End Logger.
