(* ===== verification/LoggerFacts.v ===== *)
(** What the log promises: [Println] spaces the lines of an id, [clearOldLog] removes the
    old files of the logger and no other, and every line lands in the file of the day. *)

From S2P Require Import Prelude Hmap CounterTasks UrlPattern TraceCtx Conf ConfFile LogPaths Logger.

(** * The rate of lines *)

Record call := mkCall { at_time : Z; of_id : bytes; text : bytes }.
(** The calls of one id that are written: each at least [sec] seconds after the last that
    was. *)
Fixpoint spaced (sec last : Z) (cs : list call) : list call :=
  match cs with
  | [] => []
  | c :: cs => if (at_time c <? last + sec * 1000)%Z then spaced sec last cs else c :: spaced sec (at_time c) cs
  end.
Definition with_id (id : bytes) (cs : list call) : list call := filter (fun c => of_id c = id) cs.

Section Rate.
Context {LM : LinkedMap bytes} {LmL : LinkedMapLaws bytes LM} {CL : ConfLib} {LL : LogLib}.
Implicit Types (w : World) (cs : list call).

Definition call_println (w : World) (c : call) : World := println (at_time c) (of_id c) (text c) w.
Definition write_call (ts : list writer) (s : OS) (c : call) : OS :=
  write_all ts (line (at_time c) (build (of_id c) (text c))) s.
Definition last_of (w : World) (id : bytes) : Z := default 0%Z (lm_get (lastLog (lg w)) id).
Definition ids_of (w : World) : list bytes := (lm_entries (lastLog (lg w))).*1.

(** The ids that the table has to hold, and times that are times. *)
Record rated (sec : Z) (ids : gset bytes) (w : World) : Prop := {
  rt_sec : confLogInterval (lg w) = sec;
  rt_ids : Forall (fun id => id ∈ ids) (ids_of w);
  rt_max : size ids <= lm_max (lastLog (lg w));
  rt_times : forall id, (0 <= last_of w id < 2 ^ 62)%Z
}.
Definition usable (sec : Z) (ids : gset bytes) (c : call) : Prop := of_id c ∈ ids /\ (0 <= at_time c < 2 ^ 62)%Z.

Lemma rated_room sec ids w id : rated sec ids w -> id ∈ ids -> lm_get (lastLog (lg w)) id = None -> lm_room (lastLog (lg w)).
Proof.
  intros [_ Hi Hm _] Hid Hn. right. apply Nat.lt_le_trans with (size ids); [|done]. unfold lm_size.
  unfold lm_get in Hn. apply alookup_None in Hn. pose proof (keys_NoDup Z (lastLog (lg w))) as Hd. unfold ids_of in Hi.
  rewrite <- (length_fmap fst). revert Hi Hd Hn. generalize (lm_entries (lastLog (lg w))).*1 as l. intros l Hi Hd Hn.
  rewrite <- (size_list_to_set (C := gset bytes) l Hd). apply subset_size. apply strict_spec_alt. split.
  - intros x Hx%elem_of_list_to_set. rewrite Forall_forall in Hi. by apply Hi.
  - intros E. apply Hn. rewrite <- (elem_of_list_to_set (C := gset bytes)), E. exact Hid.
Qed.
(** The time of an accepted line is kept; those of the other ids stay. *)
Lemma put_last sec ids w id now j :
  rated sec ids w -> id ∈ ids ->
  lm_get (lm_put (lastLog (lg w)) id now) j = if decide (j = id) then Some now else lm_get (lastLog (lg w)) j.
Proof.
  intros Hw Hid. destruct (lm_get (lastLog (lg w)) id) as [v|] eqn:E; [by apply (get_put_known _ _ _ v)|].
  apply get_put_room; [done|by apply (rated_room sec ids w id)].
Qed.
Lemma put_ids (m : lmap Z) id now ids :
  Forall (fun id => id ∈ ids) (lm_entries m).*1 -> id ∈ ids ->
  Forall (fun id => id ∈ (ids : gset bytes)) (lm_entries (lm_put m id now)).*1.
Proof.
  rewrite !Forall_forall. intros Hm Hid j Hj. destruct (decide (j = id)) as [->|Hne]; [done|].
  destruct (lm_get (lm_put m id now) j) as [v|] eqn:E.
  - apply Hm. apply put_old in E; [|done]. destruct (decide (j ∈ (lm_entries m).*1)) as [|Hn]; [done|].
    apply alookup_None in Hn. unfold lm_get in E. congruence.
  - unfold lm_get in E. by apply alookup_None in E.
Qed.

Lemma println_writes w c sec ids :
  (0 < sec < 2 ^ 31)%Z -> rated sec ids w -> usable sec ids c ->
  let ok := negb (at_time c <? last_of w (of_id c) + sec * 1000)%Z in
  sys (call_println w c) = (if ok then write_call (Log (lg w)) (sys w) c else sys w) /\
  Log (lg (call_println w c)) = Log (lg w) /\ rated sec ids (call_println w c) /\
  forall id, last_of (call_println w c) id = if ok && bool_decide (id = of_id c) then at_time c else last_of w id.
Proof.
  intros Hs Hw [Hid Ht]. pose proof (rt_times _ _ _ Hw (of_id c)) as Hl. cbv zeta.
  unfold call_println, println, checkOk. rewrite (rt_sec _ _ _ Hw), (proj2 (Z.ltb_lt _ _)) by lia.
  fold (last_of w (of_id c)). rewrite (int64_id (sec * 1000)), int64_id by lia.
  destruct (at_time c <? _)%Z eqn:E; simpl.
  { destruct w. repeat split; try apply Hw. }
  assert (forall j, last_of (Log_Println (at_time c) (build (of_id c) (text c))
    (w <| lg := (lg w) <| lastLog := lm_put (lastLog (lg w)) (of_id c) (at_time c) |> |>)) j =
    if bool_decide (j = of_id c) then at_time c else last_of w j) as Hlast.
  { intros j. unfold last_of. simpl. rewrite (put_last sec ids) by done. rewrite (bool_decide_decide (j = _)). by destruct (decide _). }
  split; [reflexivity|]. split; [reflexivity|]. split; [|exact Hlast]. split; simpl.
  - apply Hw.
  - apply put_ids; [apply Hw|done].
  - rewrite max_put. apply Hw.
  - intros id. rewrite Hlast. destruct (bool_decide _); [done|apply Hw].
Qed.
Lemma println_all cs : forall w sec ids,
  (0 < sec < 2 ^ 31)%Z -> rated sec ids w -> Forall (usable sec ids) cs -> exists kept,
  kept `sublist_of` cs /\ sys (foldl call_println w cs) = foldl (write_call (Log (lg w))) (sys w) kept /\
  forall id, with_id id kept = spaced sec (last_of w id) (with_id id cs).
Proof.
  induction cs as [|c cs IH]; intros w sec ids Hs Hw Hcs.
  { exists []. repeat split. constructor. }
  inversion Hcs as [|? ? Hc Hcs']; subst. destruct (println_writes w c sec ids Hs Hw Hc) as (E1 & E2 & E3 & E4).
  destruct (IH _ sec ids Hs E3 Hcs') as (kept & Hk & Es & Ek). cbn [foldl]. rewrite E1, E2 in Es.
  destruct (at_time c <? last_of w (of_id c) + sec * 1000)%Z eqn:E; simpl in *.
  - exists kept. split; [by apply sublist_cons|]. split; [done|]. intros id. rewrite Ek, E4.
    unfold with_id. rewrite (filter_cons _ c). destruct (decide (of_id c = id)) as [<-|]; [|done]. simpl. by rewrite E.
  - exists (c :: kept). split; [by apply sublist_skip|]. split; [done|]. intros id. specialize (Ek id). rewrite E4 in Ek.
    unfold with_id in *. rewrite !(filter_cons _ c). destruct (decide (of_id c = id)) as [<-|Hne].
    + rewrite bool_decide_true in Ek by done. simpl. by rewrite E, Ek.
    + by rewrite bool_decide_false in Ek by congruence.
Qed.

(** C19. What [Println] writes with an interval of [sec] seconds and at most a thousand ids:
    of the calls of each id those that are [sec] seconds or more after the last one written,
    whatever the other ids do; all in the order of the calls. *)
Theorem Println_spaced w cs sec ids :
  (0 < sec < 2 ^ 31)%Z -> rated sec ids w -> Forall (usable sec ids) cs -> exists kept,
  kept `sublist_of` cs /\ sys (foldl call_println w cs) = foldl (write_call (Log (lg w))) (sys w) kept /\
  forall id, with_id id kept = spaced sec (last_of w id) (with_id id cs).
Proof. apply println_all. Qed.
End Rate.

(** * Names of old files *)

Lemma LastIndexByte_None s c : LastIndexByte s c = None <-> c ∉ s.
Proof.
  induction s as [|a s IH]; simpl; [split; [intros _; apply not_elem_of_nil|done]|]. rewrite not_elem_of_cons, <- IH.
  destruct (LastIndexByte s c); [naive_solver|]. case_bool_decide; naive_solver.
Qed.
Lemma LastIndexByte_Some s c i :
  LastIndexByte s c = Some i <-> exists a b, s = a ++ c :: b /\ c ∉ b /\ i = length a.
Proof.
  revert i. induction s as [|x s IH]; intros i; simpl.
  { split; [done|]. intros (a & b & H & _). by destruct a. }
  destruct (LastIndexByte s c) as [j|] eqn:E.
  - destruct (proj1 (IH _) eq_refl) as (a & b & -> & Hb & ->). split.
    + intros [= <-]. by exists (x :: a), b.
    + intros (a' & b' & H & Hb' & ->). f_equal.
      assert (x :: a = a') as <-; [|done]. change (x :: a ++ c :: b) with ((x :: a) ++ c :: b) in H.
      revert H. generalize (x :: a). clear -Hb Hb'. intros l. revert a'.
      induction l as [|y l IH]; intros [|z a'] H; simpl in H; [done| | |f_equal; [congruence|apply IH; congruence]].
      * exfalso. injection H as -> ->. apply Hb. rewrite elem_of_app, elem_of_cons. auto.
      * exfalso. injection H as -> <-. apply Hb'. rewrite elem_of_app, elem_of_cons. auto.
  - apply LastIndexByte_None in E. case_bool_decide as Hx.
    + subst. split; [intros [= <-]; by exists [], s|]. intros ([|z a] & b & H & Hb & ->); [done|].
      exfalso. injection H as -> ->. apply E. rewrite elem_of_app, elem_of_cons. auto.
    + split; [done|]. intros ([|z a] & b & H & Hb & ->); [simpl in H; congruence|].
      exfalso. injection H as -> ->. apply E. rewrite elem_of_app, elem_of_cons. auto.
Qed.

Lemma drop_next {A} (a : list A) c t : drop (length a + 1) (a ++ c :: t) = t.
Proof. by rewrite <- drop_drop, drop_app_length. Qed.
(** A dated name of this logger. *)
Definition dated (prefix date name : bytes) : Prop :=
  HasPrefix name (prefix ++ str "-") = true /\ length date = 8 /\
  exists a ext, name = a ++ "-"%char :: date ++ "."%char :: ext /\ "-"%char ∉ date /\ "-"%char ∉ ext /\ "."%char ∉ ext.
Lemma file_date_spec prefix name date : file_date prefix name = Some date <-> dated prefix date name.
Proof.
  unfold file_date, dated. destruct (HasPrefix _ _); [|naive_solver]. split.
  - intros H. destruct (LastIndexByte name "."%char) as [x|] eqn:Ex; [|done]. cbn [mbind option_bind] in H.
    destruct (LastIndexByte name "-"%char) as [s|] eqn:Es; [|done]. cbn [mbind option_bind] in H.
    apply LastIndexByte_Some in Ex as (p & ext & Hn & Hext & ->). apply LastIndexByte_Some in Es as (a & r & Hn' & Hr & ->).
    destruct (bool_decide_reflect (length p - 1 <= length a)) as [|Hlt]; [done|].
    destruct (bool_decide_reflect (length (take (length p - (length a + 1)) (drop (length a + 1) name)) = 8)) as [Hd|]; [|done].
    injection H as <-. split; [done|]. split; [done|]. exists a, ext.
    rewrite Hn' in Hn. assert (p = a ++ "-"%char :: take (length p - (length a + 1)) r) as Hp.
    { apply (f_equal (take (length p))) in Hn. rewrite (take_app_length p) in Hn. rewrite <- Hn at 1. rewrite take_app.
      rewrite take_ge by lia. assert (length p - length a = S (length p - (length a + 1))) as -> by lia. reflexivity. }
    assert (drop (length a + 1) name = r) as ->.
    { by rewrite Hn', drop_next. }
    assert (r = take (length p - (length a + 1)) r ++ "."%char :: ext) as Hd'.
    { rewrite Hp in Hn at 1. rewrite <- app_assoc in Hn. by apply app_inv_head in Hn as [= ?]. }
    revert Hd'. generalize (take (length p - (length a + 1)) r) as d. intros d ->. split; [done|].
    rewrite elem_of_app, elem_of_cons in Hr. naive_solver.
  - intros (_ & Hd & a & ext & -> & H1 & H2 & H3).
    assert (LastIndexByte (a ++ "-"%char :: date ++ "."%char :: ext) "."%char = Some (length a + S (length date))) as ->.
    { apply LastIndexByte_Some. exists (a ++ "-"%char :: date), ext. by rewrite <- app_assoc, length_app. }
    assert (LastIndexByte (a ++ "-"%char :: date ++ "."%char :: ext) "-"%char = Some (length a)) as ->.
    { apply LastIndexByte_Some. exists a, (date ++ "."%char :: ext). rewrite elem_of_app, elem_of_cons. naive_solver. }
    cbn [mbind option_bind]. rewrite bool_decide_false by lia.
    rewrite drop_next.
    replace (length a + S (length date) - (length a + 1)) with (length date) by lia.
    by rewrite take_app_length, bool_decide_true.
Qed.
Lemma dated_plain prefix date name : "/"%char ∉ name -> dated prefix date name -> plain_elem name.
Proof.
  intros Hs (_ & Hd & a & ext & -> & _). repeat split; [| | |done]; intros E; apply (f_equal length) in E; 
    rewrite !length_app in E; simpl in E; rewrite length_app in E; lia.
Qed.

Section Clear.
Context {LM : LinkedMap bytes} {CL : ConfLib} {LL : LogLib}.
Variable Getenv : bytes -> bytes.
Implicit Types (w : World).
#[local] Abbreviation logs := (logs Getenv).
#[local] Abbreviation clear1 := (clear1 Getenv).
#[local] Abbreviation clearOldLog := (clearOldLog Getenv).

(** ** The directory of the logs *)

Lemma home_ne : GetLogHome Getenv <> [].
Proof.
  unfold GetLogHome. destruct (env_type Getenv) as [t|]; [case_bool_decide|]; by repeat case_match.
Qed.
Lemma plain_logs : plain_elem (str "logs").
Proof. repeat split; try done. by apply (bool_decide_unpack (_ ∉ _)). Qed.
Lemma logs_clean : logs = Clean (GetLogHome Getenv ++ str "/" ++ str "logs").
Proof. apply Join2; [apply home_ne|done]. Qed.
Lemma elems_logs : elems (GetLogHome Getenv ++ str "/" ++ str "logs") = elems (GetLogHome Getenv) ++ [str "logs"].
Proof. rewrite elems_snoc by (apply home_ne || apply plain_logs). apply clean_step_plain, plain_logs. Qed.
Lemma logs_ne : logs <> [] /\ here logs = false.
Proof.
  rewrite logs_clean, Clean_elems, elems_logs. unfold path_of. set (es := elems _).
  assert (exists j, Join (es ++ [str "logs"]) (str "/") = j ++ str "logs") as [j ->].
  { destruct es as [|x es]; [by exists []|]. exists (Join (x :: es) (str "/") ++ str "/"). by rewrite Join_snoc, <- app_assoc. }
  destruct (HasPrefix _ _); (destruct j as [|a [|b j]]; [done|split; [done|]; unfold here; by rewrite !bool_decide_false..]).
Qed.
(** The path of a file of the directory. *)
Lemma log_file name : plain_elem name -> filepath_Join [GetLogHome Getenv; str "logs"; name] = logs ++ str "/" ++ name.
Proof.
  intros Hn. rewrite Join3, logs_clean by (apply home_ne || apply Hn || done).
  apply Clean_under; [apply home_ne|apply plain_logs|done].
Qed.
Lemma log_file2 name : plain_elem name -> filepath_Join [logs; name] = logs ++ str "/" ++ name.
Proof.
  intros Hn. rewrite Join2 by (apply logs_ne || apply Hn). rewrite logs_clean. apply Clean_below; [|by rewrite elems_logs; destruct (elems _)|done].
  pose proof home_ne. by destruct (GetLogHome Getenv).
Qed.

Lemma child_spec dir p name :
  child dir p = Some name <-> p = dir ++ str "/" ++ name /\ name <> [] /\ "/"%char ∉ name.
Proof.
  unfold child. destruct (HasPrefix p (dir ++ str "/")) eqn:E.
  - apply HasPrefix_spec in E as [t ->]. rewrite <- app_assoc.
    assert (drop (S (length dir)) (dir ++ str "/" ++ t) = t) as ->.
    { rewrite <- Nat.add_1_r. apply drop_next. }
    destruct (bool_decide_reflect (t = [])), (bool_decide_reflect ("/"%char ∈ t)); cbn [orb]; split; try done;
      try (intros [= <-]; done); intros (E & H1 & H2); apply app_inv_head in E as [= ->]; done.
  - split; [done|]. intros (-> & _). rewrite app_assoc in E.
    assert (HasPrefix ((dir ++ str "/") ++ name) (dir ++ str "/") = true) by (apply HasPrefix_spec; by exists name). congruence.
Qed.
Lemma ReadDir_spec s dir name n :
  refused s dir = false -> node_at s dir = Some Dir ->
  (name, n) ∈ ReadDir s dir <-> names s !! (dir ++ str "/" ++ name) = Some n /\ name <> [] /\ "/"%char ∉ name.
Proof.
  intros Hr Hd. unfold ReadDir. rewrite Hr, Hd, merge_sort_Permutation, list_elem_of_omap. split.
  - intros ([p n'] & Hi%elem_of_map_to_list & H). destruct (child dir p) as [m|] eqn:E; [|done]. injection H as -> ->.
    by apply child_spec in E as (-> & H1 & H2).
  - intros (Hp & H1 & H2). exists (dir ++ str "/" ++ name, n). split; [by apply elem_of_map_to_list|].
    by rewrite (proj2 (child_spec dir _ name)).
Qed.

(** ** What a line leaves as it is *)

Definition same_names (s s' : OS) : Prop :=
  names s' = names s /\ handles s' = handles s /\ next_handle s' = next_handle s /\ next_inode s' = next_inode s /\
  refused s' = refused s.
Lemma same_names_refl s : same_names s s.
Proof. repeat split. Qed.
Lemma same_names_trans s1 s2 s3 : same_names s1 s2 -> same_names s2 s3 -> same_names s1 s3.
Proof. intros (A & B & C & D & E) (A' & B' & C' & D' & E'). repeat split; congruence. Qed.
Lemma write_all_names ts b s : same_names s (write_all ts b s).
Proof.
  revert s. induction ts as [|t ts IH]; intros s; simpl; [apply same_names_refl|].
  assert (same_names s (write1 t b s).1) as H1.
  { destruct t as [|f]; simpl; [repeat split|]. unfold WriteFile. destruct (f ≫= _) as [[|i]|]; repeat split. }
  destruct (write1 t b s) as [s' ok]. simpl in H1. destruct ok; [|done]. by eapply same_names_trans.
Qed.
Lemma Log_Println_names now m w : same_names (sys w) (sys (Log_Println now m w)) /\ lg (Log_Println now m w) = lg w.
Proof. split; [apply write_all_names|done]. Qed.

(** ** Old files *)

(** A file that is removed at [now]. *)
Definition victim (now : Z) (l : Logger) (s : OS) (name : bytes) : Prop :=
  exists date d, dated (logID l) date name /\ GetYmdTime date = inr d /\
    (confLogKeepDays l < int64 (GetDateUnit now - GetDateUnit d))%Z /\ refused s (logs ++ str "/" ++ name) = false.
Definition old_file (now : Z) (w : World) (p : bytes) : Prop :=
  exists name i, p = logs ++ str "/" ++ name /\ "/"%char ∉ name /\ names (sys w) !! p = Some (File i) /\
    victim now (lg w) (sys w) name.

(** What [names] is without some files. *)
Definition without (s s' : OS) (gone : bytes -> Prop) : Prop :=
  handles s' = handles s /\ next_handle s' = next_handle s /\ next_inode s' = next_inode s /\ refused s' = refused s /\
  forall p n, names s' !! p = Some n <-> names s !! p = Some n /\ ~ ((exists i, n = File i) /\ gone p).
Lemma without_none s s' gone : same_names s s' -> (forall p i, names s !! p = Some (File i) -> ~ gone p) -> without s s' gone.
Proof.
  intros (E & ? & ? & ? & ?) Hg. split_and!; [done..|]. intros p n. rewrite E. split; [|by intros []].
  intros Hp. split; [done|]. intros [[i ->] H']. by eapply Hg.
Qed.
Lemma clear1_names now w name i :
  "/"%char ∉ name ->
  lg (clear1 now w (name, File i)) = lg w /\
  without (sys w) (sys (clear1 now w (name, File i)))
    (fun p => p = logs ++ str "/" ++ name /\ victim now (lg w) (sys w) name).
Proof.
  intros Hs. unfold Logger.clear1.
  destruct (file_date (logID (lg w)) name) as [date|] eqn:Ed.
  2: { split; [done|]. apply without_none; [apply same_names_refl|]. intros p j _ (_ & date & d & Hd & _).
       apply file_date_spec in Hd. congruence. }
  pose proof (proj1 (file_date_spec _ _ _) Ed) as Hdt.
  assert (forall date', dated (logID (lg w)) date' name -> date' = date) as Huniq.
  { intros date' H%file_date_spec. congruence. }
  destruct (GetYmdTime date) as [r|d] eqn:Ey.
  { split; [done|]. apply without_none; [apply write_all_names|]. intros p j _ (_ & date' & d & Hd & Hy & _).
    rewrite (Huniq _ Hd) in Hy. congruence. }
  destruct (_ <? _)%Z eqn:Ek.
  2: { split; [done|]. apply without_none; [apply same_names_refl|]. intros p j _ (_ & date' & d' & Hd & Hy & Hk & _).
       rewrite (Huniq _ Hd), Ey in Hy. injection Hy as <-. apply Z.ltb_ge in Ek. lia. }
  rewrite log_file2 by (by eapply dated_plain). set (q := logs ++ str "/" ++ name).
  unfold Remove. destruct (refused (sys w) q) eqn:Er.
  { split; [done|]. apply without_none; [apply (write_all_names _ _ (sys w))|]. intros p j _ (_ & date' & d' & _ & _ & _ & Hr).
    unfold q in Er. congruence. }
  destruct (names (sys w) !! q) as [[|j]|] eqn:Eq.
  1,3: split; [done|]; apply without_none; [apply (write_all_names _ _ (sys w))|]; intros p j Hp [-> _]; congruence.
  apply Z.ltb_lt in Ek. split; [done|]. split_and!; [done..|]. intros p n. simpl. split.
  - intros [Hne Hp]%lookup_delete_Some. split; [done|]. by intros [_ [-> _]].
  - intros [Hp Hg]. apply lookup_delete_Some. split; [|done]. intros <-. apply Hg.
    rewrite Eq in Hp. injection Hp as <-. split; [by exists j|]. split; [done|]. by exists date, d.
Qed.
Lemma clear_fold now fs : forall w,
  Forall (fun f => "/"%char ∉ f.1) fs ->
  lg (foldl (clear1 now) w fs) = lg w /\
  without (sys w) (sys (foldl (clear1 now) w fs))
    (fun p => exists name i, (name, File i) ∈ fs /\ p = logs ++ str "/" ++ name /\ victim now (lg w) (sys w) name).
Proof.
  induction fs as [|[name n] fs IH]; intros w Hfs.
  { split; [done|]. apply without_none; [apply same_names_refl|]. by intros p i _ (? & ? & ?%elem_of_nil & _). }
  inversion Hfs as [|? ? Hn Hfs']; subst. simpl in Hn. cbn [foldl]. destruct n as [|i].
  { destruct (IH w Hfs') as (E & A & B & C & D & F). split; [done|]. split_and!; [done..|]. intros p n. split.
    - intros [Hp Hng]%F. split; [done|]. intros [Hi (m & j & Hm & Hg)]. apply Hng. split; [done|]. exists m, j. split; [|done].
      by apply elem_of_cons in Hm as [[=]|].
    - intros [Hp Hg]. apply F. split; [done|]. intros [Hi (m & j & Hm & Hg')]. apply Hg. split; [done|].
      exists m, j. split; [by right|done]. }
  destruct (clear1_names now w name i Hn) as (E1 & A1 & B1 & C1 & D1 & F1).
  destruct (IH (clear1 now w (name, File i)) Hfs') as (E2 & A2 & B2 & C2 & D2 & F2).
  rewrite E1 in *. assert (forall m, victim now (lg w) (sys (clear1 now w (name, File i))) m <-> victim now (lg w) (sys w) m) as Hv.
  { intros m. unfold victim. by rewrite D1. }
  split; [done|]. unfold without. rewrite A2, B2, C2, D2. split_and!; [done..|]. intros p n. split.
  - intros [[Hp H1]%F1 H2]%F2. split; [done|]. intros [Hi (m & j & Hm & -> & Hg)].
    apply elem_of_cons in Hm as [[= -> ->]|Hm]; [apply H1; done|]. apply H2. split; [done|]. exists m, j. by rewrite Hv.
  - intros [Hp Hg]. apply F2. split.
    + apply F1. split; [done|]. intros (Hi & -> & Hg'). apply Hg. split; [done|]. exists name, i. split; [by left|done].
    + intros (Hi & m & j & Hm & -> & Hg'). apply Hg. split; [done|]. exists m, j. rewrite Hv in Hg'. split; [by right|done].
Qed.

(** C24. With rotation on and a limit in days, [clearOldLog] removes exactly the files of the
    directory of the logs that have the prefix of the logger, a date of eight bytes between
    the last ["-"] and the last ["."], and a day more than the limit before today, but not
    those the system refuses to remove; and it changes nothing of the logger. *)
Theorem clearOldLog_exact now w :
  confLogRotationEnabled (lg w) = true -> (0 < confLogKeepDays (lg w))%Z ->
  refused (sys w) logs = false -> names (sys w) !! logs = Some Dir ->
  lg (clearOldLog now w) = lg w /\
  forall p n, names (sys (clearOldLog now w)) !! p = Some n <-> names (sys w) !! p = Some n /\ ~ old_file now w p.
Proof.
  intros Hrot Hkeep Hr Hd. assert (node_at (sys w) logs = Some Dir) as Hd'.
  { unfold node_at. by rewrite (proj2 logs_ne). }
  unfold Logger.clearOldLog. rewrite Hrot, (proj2 (Z.leb_gt _ _)) by done. cbn [negb].
  destruct (clear_fold now (ReadDir (sys w) logs) w) as (E & _ & _ & _ & _ & F).
  { apply Forall_forall. intros [name n] Hi. by apply ReadDir_spec in Hi as (_ & _ & ?). }
  split; [done|]. intros p n. rewrite F. split; intros [Hp Hg]; (split; [done|]); contradict Hg.
  - destruct Hg as (name & i & -> & Hs & Hi & Hv). rewrite Hp in Hi. injection Hi as ->. split; [by exists i|]. exists name, i.
    split; [|done]. apply ReadDir_spec; [done..|]. split; [done|]. split; [|done].
    destruct Hv as (date & d & (_ & _ & a & ext & -> & _) & _). by destruct a.
  - destruct Hg as ((i & ->) & name & j & Hi & -> & Hv). apply ReadDir_spec in Hi as (Hi & _ & Hs); [|done..]. by exists name, i.
Qed.
End Clear.

Section Land.
Context {LM : LinkedMap bytes} {CL : ConfLib} {LL : LogLib}.
Variable Getenv : bytes -> bytes.
Implicit Types (w : World).
#[local] Abbreviation logs := (logs Getenv).
#[local] Abbreviation clearOldLog := (clearOldLog Getenv).
#[local] Abbreviation openFile := (openFile Getenv).
#[local] Abbreviation process := (process Getenv).

(** * Where lines go *)

(** What can happen to the logger: its operations, and whatever the rest of the system
    does to files. *)
Inductive op :=
| OPrintln (now : Z) (id message : bytes) | OPrint (now : Z) (message : bytes) | OInfo (now : Z) (id message : bytes)
| OSysout (message : bytes) | OUpdate (now : Z) (name : bytes) | OStart (now : Z) | ORound (now : Z)
| OInterval (i : Z) | ORotation (b : bool) | OKeepDays (i : Z) | OLogID (id : bytes) | OStdout (b : bool) | OLevel (lv : Z)
| OList | ORead (now : Z) (file : bytes) (endpos len : Z) | OSystem (f : OS -> OS).
Definition do_op (w : World) (o : op) : World :=
  match o with
  | OPrintln now id m => println now id m w | OPrint now m => Print now m w | OInfo now id m => info now id m w
  | OSysout m => sysout m w | OUpdate now name => update Getenv now name w | OStart now => run_start now w
  | ORound now => (run_once Getenv now w).1 | OInterval i => SetLogInterval i w | ORotation b => SetLogRotationEnabled b w
  | OKeepDays i => SetLogKeepDays i w | OLogID id => SetLogID id w | OStdout b => SetLogStdoutEnabled b w
  | OLevel lv => SetLevel lv w | OList => w | ORead now file endpos len => (Read Getenv now file endpos len w).1
  | OSystem f => w <| sys ::= f |>
  end.
(** The rest of the system does not touch the handles of the process. *)
Definition allowed (o : op) : Prop :=
  match o with OSystem f => forall s, handles (f s) = handles s /\ next_handle (f s) = next_handle s | _ => True end.
Definition quiet (o : op) : Prop := match o with ORound _ => False | _ => allowed o end.

Definition writers_of (h : nat) (to_stdout : bool) : list writer :=
  if to_stdout then [Logfile (Some h); Stdout] else [Logfile (Some h)].
(** The open file of the logger is the first that it writes to. *)
Record sound (w : World) : Prop := {
  so_fresh : map_Forall (fun h _ => h < next_handle (sys w)) (handles (sys w));
  so_file : forall h, logfile (lg w) = Some h ->
    (exists i, handles (sys w) !! h = Some (File i)) /\ Log (lg w) = writers_of h (confLogStdoutEnabled (lg w))
}.
(** The same file, open and written to. *)
Definition keeps (w w' : World) : Prop :=
  next_handle (sys w) <= next_handle (sys w') /\ logfile (lg w') = logfile (lg w) /\
  (forall h, h < next_handle (sys w) -> handles (sys w') !! h = handles (sys w) !! h).

Lemma logger_sound_init : forall s, handles s = ∅ -> sound (mkWorld (NewLogger Getenv) s).
Proof. intros s Hs. split; simpl; [rewrite Hs; apply map_Forall_empty|done]. Qed.

(** Steps that leave the handles alone. *)
Lemma keeps_same w w' :
  handles (sys w') = handles (sys w) -> next_handle (sys w') = next_handle (sys w) ->
  logfile (lg w') = logfile (lg w) -> keeps w w'.
Proof. intros E1 E2 E3. unfold keeps. rewrite E1, E2. repeat split; [lia|done]. Qed.
Lemma sound_same w w' :
  handles (sys w') = handles (sys w) -> next_handle (sys w') = next_handle (sys w) ->
  (forall h, logfile (lg w') = Some h -> logfile (lg w) = Some h /\
    (Log (lg w) = writers_of h (confLogStdoutEnabled (lg w)) -> Log (lg w') = writers_of h (confLogStdoutEnabled (lg w')))) ->
  sound w -> sound w'.
Proof.
  intros E1 E2 Hl [H1 H2]. split; rewrite E1; [by rewrite E2|]. intros h Hh. destruct (Hl h Hh) as [Hh' Hw].
  destruct (H2 h Hh') as [Hi HL]. split; [done|by apply Hw].
Qed.
Lemma sound_lines w w' :
  same_names (sys w) (sys w') -> Log (lg w') = Log (lg w) -> logfile (lg w') = logfile (lg w) ->
  confLogStdoutEnabled (lg w') = confLogStdoutEnabled (lg w) -> sound w -> sound w' /\ keeps w w'.
Proof.
  intros (_ & E1 & E2 & _) E3 E4 E5 Hs. split; [|by apply keeps_same]. revert Hs. apply sound_same; [done..|].
  intros h. rewrite E3, E4, E5. done.
Qed.
Lemma sound_println now m w : sound w -> sound (Log_Println now m w) /\ keeps w (Log_Println now m w).
Proof. apply sound_lines; [apply write_all_names|done..]. Qed.
Lemma println_sound now id m w : sound w -> sound (println now id m w) /\ keeps w (println now id m w).
Proof.
  intros Hs. unfold println, checkOk. destruct (0 <? _)%Z; [destruct (_ <? _)%Z|];
    (apply sound_lines; [simpl; try apply same_names_refl; apply write_all_names|done..|exact Hs]).
Qed.

(** ** Opening *)

Definition openable (w : World) (path : bytes) : Prop :=
  node_at (sys w) logs = Some Dir /\ refused (sys w) path = false /\ names (sys w) !! path <> Some Dir.

Lemma make_logs_handles s : handles (make_logs Getenv s) = handles s /\ next_handle (make_logs Getenv s) = next_handle s.
Proof. unfold make_logs, os_Stat, Mkdir. repeat case_match; done. Qed.
Lemma make_logs_there s : node_at s logs = Some Dir -> make_logs Getenv s = s.
Proof. intros H. unfold make_logs, os_Stat. rewrite H. by destruct (refused s logs). Qed.
Lemma OpenAppend_handles p s :
  match OpenAppend p s with
  | (s', Some h) => h = next_handle s /\ next_handle s' = S h /\ exists i, handles s' = <[h := File i]> (handles s) /\
      (here p = false -> names s' !! p = Some (File i))
  | (s', None) => s' = s
  end.
Proof.
  unfold OpenAppend, node_at. destruct (refused s p); [done|]. destruct (here p) eqn:Eh; [done|].
  destruct (names s !! p) as [[|i]|] eqn:Ep; [done| |].
  - simpl. repeat split. exists i. done.
  - destruct (if here (parent p) then _ else _) as [[]|]; try done. simpl. repeat split.
    exists (next_inode s). split; [done|]. intros _. by rewrite lookup_insert_eq.
Qed.

Lemma attach_writers now w :
  let w' := (attach now w).1 in
  same_names (sys w) (sys w') /\ logfile (lg w') = logfile (lg w) /\ confLogStdoutEnabled (lg w') = confLogStdoutEnabled (lg w) /\
  oname (lg w') = oname (lg w) /\
  forall h, logfile (lg w) = Some h -> (attach now w).2 = true /\ Log (lg w') = writers_of h (confLogStdoutEnabled (lg w)).
Proof.
  unfold attach. destruct (confLogStdoutEnabled (lg w)) eqn:E, (logfile (lg w)) as [h|] eqn:Ef; simpl;
    (split; [first [apply write_all_names | apply same_names_refl]|]); rewrite ?E, ?Ef; repeat split; try done; intros; simplify_eq; done.
Qed.
Lemma banner_names now w : same_names (sys w) (sys (opened_banner now w)).
Proof. do 2 (eapply same_names_trans; [|apply write_all_names]). apply write_all_names. Qed.
Lemma banner_sound now w : sound w -> sound (opened_banner now w) /\ keeps w (opened_banner now w).
Proof. apply sound_lines; [apply banner_names|done..]. Qed.
Lemma openFile_sound now w :
  sound w ->
  sound (openFile now w) /\ next_handle (sys w) <= next_handle (sys (openFile now w)) /\
  (forall h, h < next_handle (sys w) -> handles (sys (openFile now w)) !! h = handles (sys w) !! h) /\
  (forall h, logfile (lg w) = Some h -> openFile now w = w).
Proof.
  intros Hs. unfold Logger.openFile. destruct (logfile (lg w)) as [h0|] eqn:Ef; [done|].
  destruct (make_logs_handles (sys w)) as [M1 M2]. pose proof (OpenAppend_handles (log_path Getenv (lg w) now) (make_logs Getenv (sys w))) as Ho.
  destruct (OpenAppend _ _) as [s f]. set (l := match ParseBool _ with Some v => _ | None => _ end).
  assert (logfile l = f) as El by (unfold l; by destruct (ParseBool _)).
  destruct (attach_writers now (mkWorld l s)) as (N & A1 & A2 & A3 & A4). destruct (attach now (mkWorld l s)) as [w' ok]. simpl in *.
  assert (next_handle (sys w) <= next_handle s /\ (forall h, h < next_handle (sys w) -> handles s !! h = handles (sys w) !! h) /\
          map_Forall (fun h _ => h < next_handle s) (handles s) /\ forall h, f = Some h -> exists i, handles s !! h = Some (File i)) as (P1 & P2 & P3 & P4).
  { destruct Hs as [H1 _]. destruct f as [h|].
    - destruct Ho as (E1 & E2 & i & E3 & _). rewrite M1, M2 in *. rewrite E2, E3. subst h. split_and!; [lia|..].
      + intros h Hh. apply lookup_insert_ne. lia.
      + apply map_Forall_insert_2; [lia|]. eapply map_Forall_impl; [exact H1|]. simpl. lia.
      + intros ? [= <-]. exists i. apply lookup_insert_eq.
    - subst s. rewrite M1, M2. split_and!; [lia|done..]. }
  destruct N as (_ & N1 & N2 & _).
  assert (sound w') as Hw'.
  { split; rewrite N1; [by rewrite N2|]. intros h Hh. rewrite A1, El in Hh. split; [by apply P4|].
    rewrite A2. apply A4. by rewrite El. }
  assert (forall w'', sound w'' /\ keeps w' w'' -> sound w'' /\ next_handle (sys w) <= next_handle (sys w'') /\
    (forall h, h < next_handle (sys w) -> handles (sys w'') !! h = handles (sys w) !! h) /\
    (forall h : nat, @None nat = Some h -> w'' = w)) as Hfin.
  { intros w'' [H1 (K1 & _ & K2)]. rewrite N2 in K1, K2. split_and!; [done|lia| |done]. intros h Hh. rewrite K2, N1 by lia. by apply P2. }
  destruct ok; apply Hfin; [by apply banner_sound|by apply sound_println].
Qed.

(** ** Rounds *)

Lemma ReadDir_no_slash s dir : Forall (fun f => "/"%char ∉ f.1) (ReadDir s dir).
Proof.
  unfold ReadDir. destruct (refused s dir); [constructor|]. destruct (node_at s dir) as [[]|]; try constructor.
  rewrite merge_sort_Permutation. apply Forall_forall. intros [name n] Hi%list_elem_of_omap.
  destruct Hi as ([p m] & _ & H). destruct (child dir p) as [c|] eqn:E; [|done]. injection H as <- _. by apply child_spec in E as (_ & _ & ?).
Qed.
(** [clearOldLog] takes names of files away and nothing else. *)
Lemma clearOldLog_keeps now w :
  lg (clearOldLog now w) = lg w /\ exists gone, without (sys w) (sys (clearOldLog now w)) gone.
Proof.
  unfold Logger.clearOldLog. assert (exists gone, without (sys w) (sys w) gone) as Hn.
  { exists (fun _ => False). apply without_none; [apply same_names_refl|]. by intros p i _ []. }
  destruct (negb _); [done|]. destruct (_ <=? _)%Z; [done|].
  destruct (clear_fold Getenv now (ReadDir (sys w) logs) w (ReadDir_no_slash _ _)) as [E H]. split; [done|]. eexists. exact H.
Qed.
Lemma clearOldLog_sound now w : sound w -> sound (clearOldLog now w) /\ keeps w (clearOldLog now w).
Proof.
  destruct (clearOldLog_keeps now w) as (E & gone & E1 & E2 & _). intros Hs. split; [|by apply keeps_same; rewrite ?E].
  revert Hs. apply sound_same; [done..|]. rewrite E. done.
Qed.
Lemma rotate_sound now w : sound w ->
  sound (rotate now w) /\ next_handle (sys (rotate now w)) = next_handle (sys w) /\
  (forall h, logfile (lg w) <> Some h -> handles (sys (rotate now w)) !! h = handles (sys w) !! h).
Proof.
  intros Hs. unfold rotate. destruct (_ || _ || _); [|done]. destruct Hs as [H1 H2]. simpl.
  destruct (logfile (lg w)) as [h|]; simpl; (split; [split; [|done]|split; [done|]]).
  - by apply map_Forall_delete.
  - intros h' Hne. apply lookup_delete_ne. congruence.
  - done.
  - done.
Qed.
Lemma process_sound now w : sound w -> sound (process now w) /\ next_handle (sys w) <= next_handle (sys (process now w)).
Proof.
  intros Hs. unfold Logger.process. cbv zeta.
  set (w1 := if (_ <? now)%Z then _ else _).
  assert (sound w1 /\ next_handle (sys w1) = next_handle (sys w)) as [S1 N1].
  { unfold w1. destruct (_ <? now)%Z; [|done]. set (w0 := w <| lg ::= fun l => l <| last := now |> |>).
    assert (sound w0) as S0 by (revert Hs; apply sound_same; done). destruct (clearOldLog_sound now w0 S0) as [S1 _].
    split; [done|]. by destruct (clearOldLog_keeps now w0) as (_ & gone & _ & E & _). }
  destruct (rotate_sound now w1 S1) as (S2 & N2 & _). destruct (openFile_sound now _ S2) as (S3 & N3 & _). split; [done|]. lia.
Qed.
Lemma step_sound w w' :
  handles (sys w') = handles (sys w) -> next_handle (sys w') = next_handle (sys w) -> logfile (lg w') = logfile (lg w) ->
  Log (lg w') = Log (lg w) -> confLogStdoutEnabled (lg w') = confLogStdoutEnabled (lg w) -> sound w -> sound w' /\ keeps w w'.
Proof.
  intros E1 E2 E3 E4 E5 Hs. split; [|by apply keeps_same]. revert Hs. apply sound_same; [done..|].
  intros h. by rewrite E3, E4, E5.
Qed.
Lemma Read_sound now file endpos len w :
  sound w -> sound (Read Getenv now file endpos len w).1 /\ keeps w (Read Getenv now file endpos len w).1.
Proof.
  intros Hs. unfold Read. destruct (_ || _ || _); [by apply step_sound|]. cbv zeta.
  destruct (make_logs_handles (sys w)) as [M1 M2]. unfold Open.
  destruct (refused _ _); [by apply step_sound|]. destruct (node_at _ _) as [n|]; [|by apply step_sound].
  cbn [new_handle]. set (s := _ <| next_handle ::= S |>). set (h := next_handle (make_logs Getenv (sys w))).
  assert (h = next_handle (sys w)) as Eh by done.
  assert (sound (w <| sys := s |>) /\ keeps w (w <| sys := s |>)) as Hopen.
  { destruct Hs as [H1 H2]. split; [split|split_and!]; simpl.
    - rewrite M1. apply map_Forall_insert_2; [lia|]. eapply map_Forall_impl; [exact H1|]. simpl. lia.
    - intros f Hf. destruct (H2 f Hf) as [[i Hi] HL]. split; [|done]. exists i. rewrite lookup_insert_ne by (apply H1 in Hi; lia). by rewrite M1.
    - lia.
    - done.
    - intros f Hf. rewrite lookup_insert_ne by lia. by rewrite M1. }
  destruct (_ <? endpos)%Z; [done|]. destruct (_ <? 0)%Z; [done|]. destruct (ReadAt _ _ _ _) as [b|].
  - cbn [fst]. destruct Hopen as [[H1 H2] (K1 & K2 & K3)]. split; [split|split_and!]; simpl in *; try done.
    + by apply map_Forall_delete.
    + intros f Hf. destruct (H2 f Hf) as [[i Hi] HL]. split; [|done]. exists i. rewrite lookup_delete_ne; [done|].
      destruct Hs as [H1' H2']. destruct (H2' f Hf) as [[j Hj] _]. apply H1' in Hj. lia.
    + intros f Hf. rewrite lookup_delete_ne by lia. by apply K3.
  - cbn [fst]. destruct Hopen as [H K]. destruct (sound_println now (str "WA1000901  Read Error  " ++ error_text (read_path Getenv file)) _ H) as [H' K'].
    split; [done|]. destruct K as (K1 & K2 & K3), K' as (L1 & L2 & L3). split_and!; [lia|congruence|]. intros f Hf. rewrite L3 by lia. by apply K3.
Qed.

Lemma op_sound o w : allowed o -> sound w -> sound (do_op w o).
Proof.
  intros Ho Hs. destruct o; simpl.
  - by apply println_sound.
  - by apply sound_println.
  - by apply sound_println.
  - by apply (step_sound w).
  - unfold update. case_bool_decide; [done|]. apply openFile_sound. by apply (step_sound w).
  - by apply (step_sound w).
  - unfold run_once. destruct (Shutdown _); [by apply sound_println|by apply process_sound].
  - by apply (step_sound w).
  - by apply (step_sound w).
  - by apply (step_sound w).
  - by apply (step_sound w).
  - unfold SetLogStdoutEnabled. case_bool_decide as E; [done|]. revert Hs. apply sound_same; [done..|]. simpl. intros h Hh.
    split; [done|]. intros _. rewrite Hh. by destruct b.
  - by apply (step_sound w).
  - done.
  - by apply Read_sound.
  - destruct (Ho (sys w)). by apply (step_sound w).
Qed.
Lemma ops_sound os : forall w, Forall allowed os -> sound w -> sound (foldl do_op w os).
Proof.
  induction os as [|o os IH]; intros w Ho Hs; [done|]. inversion Ho; subst. simpl. apply IH; [done|]. by apply op_sound.
Qed.
(** An operation that is not a round leaves an open file open. *)
Lemma quiet_keeps o w h : quiet o -> sound w -> logfile (lg w) = Some h -> keeps w (do_op w o).
Proof.
  intros Ho Hs Hh. destruct o; simpl in *.
  - by apply println_sound.
  - by apply sound_println.
  - by apply sound_println.
  - by apply keeps_same.
  - unfold update. case_bool_decide; [by apply keeps_same|]. unfold Logger.openFile. simpl. rewrite Hh. by apply keeps_same.
  - by apply keeps_same.
  - done.
  - by apply keeps_same.
  - by apply keeps_same.
  - by apply keeps_same.
  - by apply keeps_same.
  - unfold SetLogStdoutEnabled. case_bool_decide; by apply keeps_same.
  - by apply keeps_same.
  - by apply keeps_same.
  - by apply Read_sound.
  - destruct (Ho (sys w)). by apply keeps_same.
Qed.
Lemma quiet_ops os : forall w h i,
  Forall quiet os -> sound w -> logfile (lg w) = Some h -> handles (sys w) !! h = Some (File i) ->
  let w' := foldl do_op w os in sound w' /\ logfile (lg w') = Some h /\ handles (sys w') !! h = Some (File i).
Proof.
  induction os as [|o os IH]; intros w h i Ho Hs Hh Hi; [done|]. inversion Ho as [|? ? Hq Hos]; subst. simpl.
  destruct (quiet_keeps o w h Hq Hs Hh) as (K1 & K2 & K3). apply IH; [done| |congruence|].
  - apply op_sound; [by destruct o|done].
  - rewrite K3; [done|]. destruct Hs as [H1 _]. by apply H1 in Hi.
Qed.

(** ** The file of the day *)

(** Why a round opens a file. *)
Definition due (now : Z) (l : Logger) : Prop :=
  lastFileRotation l <> confLogRotationEnabled l \/ lastDataUnit l <> GetDateUnit now \/ logfile l = None.
Lemma parent_log name : plain_elem name -> parent (logs ++ str "/" ++ name) = logs.
Proof.
  intros (Hne & _ & _ & Hs). unfold parent. assert (LastIndexByte (logs ++ str "/" ++ name) "/"%char = Some (length logs)) as ->.
  { apply LastIndexByte_Some. by exists logs, name. }
  replace (S (length logs)) with (length (logs ++ str "/")) by (rewrite length_app; simpl; lia).
  rewrite app_assoc, take_app_length, Clean_elems, slash_prefix by apply (logs_ne Getenv). rewrite logs_clean.
  set (q := GetLogHome Getenv ++ str "/" ++ str "logs"). assert (elems q <> []) as Hq.
  { unfold q. rewrite elems_logs. by destruct (elems _). }
  destruct (elems_path_of _ (elems q) Hq (normal_elems q)) as [E1 E2]. rewrite <- Clean_elems in E1, E2. rewrite E2.
  change (Clean q ++ str "/") with (Clean q ++ str "/" ++ []). rewrite elems_snoc; [|unfold q; rewrite <- logs_clean; apply (logs_ne Getenv)|apply not_elem_of_nil].
  rewrite E2, E1. rewrite (Clean_elems q). done.
Qed.

Lemma here_log name : here (logs ++ str "/" ++ name) = false.
Proof.
  destruct (logs_ne Getenv) as [H1 H2]. unfold here in *. apply orb_false_iff in H2 as [_ H2].
  destruct logs as [|a l] eqn:E; [done|]. rewrite !bool_decide_false; [done|..]; intros H; injection H as -> H; by destruct l.
Qed.
(** What the round does before it opens the file. *)
Lemma rotate_due now w : due now (lg w) ->
  logfile (lg (rotate now w)) = None /\ log_name (lg (rotate now w)) now = log_name (lg w) now /\
  names (sys (rotate now w)) = names (sys w) /\ refused (sys (rotate now w)) = refused (sys w).
Proof.
  intros Hd. unfold rotate, due in *. destruct (_ || _ || _) eqn:E.
  - simpl. split_and!; [done..| |]; by destruct (logfile (lg w)).
  - exfalso. apply orb_false_iff in E as [[E1 E2]%orb_false_iff E3].
    apply negb_false_iff, bool_decide_eq_true in E1, E2, E3. destruct Hd as [?|[?|Hn]]; [done..|]. rewrite Hn in E3. by destruct E3.
Qed.
Lemma openFile_opens now w name :
  sound w -> logfile (lg w) = None -> log_name (lg w) now = name -> plain_elem name ->
  node_at (sys w) logs = Some Dir -> refused (sys w) (logs ++ str "/" ++ name) = false ->
  names (sys w) !! (logs ++ str "/" ++ name) <> Some Dir ->
  exists h i, logfile (lg (openFile now w)) = Some h /\ handles (sys (openFile now w)) !! h = Some (File i) /\
    names (sys (openFile now w)) !! (logs ++ str "/" ++ name) = Some (File i).
Proof.
  intros Hs Hf Hn Hp Hd Hr Hnd. unfold Logger.openFile. rewrite Hf, (make_logs_there _ Hd). unfold log_path. rewrite Hn, log_file by done.
  set (path := logs ++ str "/" ++ name) in *.
  pose proof (OpenAppend_handles path (sys w)) as Ho. destruct (OpenAppend path (sys w)) as [s [h|]] eqn:Eo.
  2: { exfalso. unfold OpenAppend, node_at in Eo. rewrite Hr in Eo. unfold path in Eo. rewrite here_log, parent_log in Eo by done.
       destruct (names (sys w) !! _) as [[]|]; [done..|]. unfold node_at in Hd. by rewrite Hd in Eo. }
  destruct Ho as (_ & _ & i & Eh & En). specialize (En (here_log name)).
  set (l := match ParseBool _ with Some v => _ | None => _ end).
  assert (logfile l = Some h) as El by (unfold l; by destruct (ParseBool _)).
  destruct (attach_writers now (mkWorld l s)) as ((N0 & N1 & _) & A1 & _ & _ & A4). destruct (A4 h El) as [Ok _].
  destruct (attach now (mkWorld l s)) as [w' ok]. cbn [fst snd lg sys] in *. subst ok.
  exists h, i. destruct (banner_names now w') as (B0 & B1 & _). rewrite B0, B1, N0, N1, Eh. split_and!; [|apply lookup_insert_eq|done].
  change (lg (opened_banner now w')) with (lg w'). congruence.
Qed.

(** A line goes to the end of the open file, and to the standard output if that is on. *)
Lemma line_written now m w h i :
  sound w -> logfile (lg w) = Some h -> handles (sys w) !! h = Some (File i) ->
  content (sys (Log_Println now m w)) i = content (sys w) i ++ line now m /\
  stdout (sys (Log_Println now m w)) = stdout (sys w) ++ (if confLogStdoutEnabled (lg w) then line now m else []).
Proof.
  intros [_ H2] Hh Hi. destruct (H2 h Hh) as [_ HL]. unfold Log_Println. simpl. rewrite HL. unfold writers_of.
  destruct (confLogStdoutEnabled (lg w)); cbn [write_all write1]; unfold WriteFile; cbn [mbind option_bind]; rewrite Hi; unfold content; simpl; by rewrite lookup_insert_eq, ?app_nil_r.
Qed.

(** C23. A round that has to open a file (a new day, a change of the rotation, or none
    open), when the system lets it, opens the file of the directory of the logs with the
    names and the date of that time; from then to the next round every line, whatever is
    called or set in between (another name of the agent too), goes to the end of that file,
    and to the standard output as well if that is on. *)
Theorem lines_land before after_ s0 now t m :
  handles s0 = ∅ -> Forall allowed before -> Forall quiet after_ ->
  let w := foldl do_op (mkWorld (NewLogger Getenv) s0) before in
  let name := log_name (lg w) now in
  due now (lg w) -> plain_elem name -> openable w (logs ++ str "/" ++ name) ->
  exists i, names (sys (process now w)) !! (logs ++ str "/" ++ name) = Some (File i) /\
  let w' := foldl do_op (process now w) after_ in
  content (sys (Log_Println t m w')) i = content (sys w') i ++ line t m /\
  stdout (sys (Log_Println t m w')) = stdout (sys w') ++ (if confLogStdoutEnabled (lg w') then line t m else []).
Proof.
  intros Hs0 Hb Ha w name Hdue Hp (Hd & Hr & Hnd).
  assert (sound w) as Hs by (by apply ops_sound, logger_sound_init).
  destruct (process_sound now w Hs) as [Hsp _]. revert Hsp. unfold Logger.process. cbv zeta. set (w1 := if (_ <? now)%Z then _ else _).
  assert (due now (lg w1) /\ log_name (lg w1) now = name /\ sound w1 /\ node_at (sys w1) logs = Some Dir /\
    refused (sys w1) = refused (sys w) /\ names (sys w1) !! (logs ++ str "/" ++ name) <> Some Dir) as (D1 & N1 & S1 & L1 & R1 & P1).
  { unfold w1. destruct (_ <? now)%Z; [|done]. set (w0 := w <| lg ::= fun l => l <| last := now |> |>).
    assert (sound w0) as S0 by (by apply (step_sound w)). destruct (clearOldLog_sound now w0 S0) as [S1 _].
    destruct (clearOldLog_keeps now w0) as (El & gone & _ & _ & _ & Er & En). rewrite El, Er. split_and!; [done..| |done|].
    - unfold node_at in *. rewrite (proj2 (logs_ne Getenv)) in *. apply En. split; [done|]. by intros [[i ?] _].
    - intros H. by apply En in H as [H _]. }
  destruct (rotate_due now w1 D1) as (F2 & N2 & M2 & R2). destruct (rotate_sound now w1 S1) as (S2 & _ & _).
  destruct (openFile_opens now (rotate now w1) name S2 F2) as (h & i & Hh & Hi & Hn); [congruence|done| | | |].
  - unfold node_at in *. by rewrite M2.
  - by rewrite R2, R1.
  - by rewrite M2.
  - intros Hsp. exists i. split; [done|]. destruct (quiet_ops after_ _ h i Ha Hsp Hh Hi) as (S3 & H3 & I3). by apply (line_written _ _ _ h).
Qed.
End Land.
