(* ===== verification/LogRead.v ===== *)
(** Reading the logs: the pages of a file, the files that a name reaches, and the list. *)

From S2P Require Import Prelude Hmap CounterTasks UrlPattern TraceCtx Conf ConfFile LogPaths Logger LoggerFacts.

Section Reading.
Context {LM : LinkedMap bytes} {CL : ConfLib} {LL : LogLib}.
Variable Getenv : bytes -> bytes.
Implicit Types (w : World).
#[local] Abbreviation logs := (logs Getenv).
#[local] Abbreviation Read := (Read Getenv).
#[local] Abbreviation read_path := (read_path Getenv).
#[local] Abbreviation zlen l := (Z.of_nat (length l)).

(** * Pages of a log *)

(** A file that may be read by this name, and its text. *)
Definition text_at (w : World) (file c : bytes) : Prop :=
  file <> [] /\ readable_name (lg w) file = true /\ here (read_path file) = false /\ refused (sys w) (read_path file) = false /\
  exists i, names (sys w) !! read_path file = Some (File i) /\ content (sys w) i = c.

Lemma f64_int z : small z -> f64_to_int64 (f64_of_Z z) = z.
Proof.
  intros H. unfold f64_to_int64. rewrite f64_trunc_small by done. unfold small in H.
  by rewrite (proj2 (Z.leb_le _ _)), (proj2 (Z.ltb_lt _ _)) by lia.
Qed.
Lemma max_small a b : small a -> small b -> f64_to_int64 (math_Max (f64_of_Z a) (f64_of_Z b)) = Z.max a b.
Proof.
  intros Ha Hb. unfold math_Max. rewrite f64_ltb_small by done. destruct (Z.ltb_spec b a); rewrite f64_int by done; lia.
Qed.
Lemma min_small a b : small a -> small b -> f64_to_int64 (math_Min (f64_of_Z a) (f64_of_Z b)) = Z.min a b.
Proof.
  intros Ha Hb. unfold math_Min. rewrite f64_ltb_small by done. destruct (Z.ltb_spec a b); rewrite f64_int by done; lia.
Qed.
Lemma make_logs_text s p i : here p = false -> names s !! p = Some (File i) ->
  names (make_logs Getenv s) !! p = Some (File i) /\ refused (make_logs Getenv s) = refused s /\ blocks (make_logs Getenv s) = blocks s.
Proof.
  intros Hh Hp. unfold make_logs, os_Stat, Mkdir. destruct (refused s logs); [done|].
  destruct (node_at s logs) as [n|] eqn:E; [done|]. destruct (node_at s (parent _)) as [[]|]; try done.
  split; [|done]. simpl. rewrite lookup_insert_ne; [done|]. intros <-. unfold node_at in E. rewrite Hh in E. congruence.
Qed.

(** The page before a position, or the last one. *)
Definition page (c : bytes) (endpos len : Z) : LogData :=
  let e := if (endpos <? 0)%Z then zlen c else endpos in
  let start := Z.max 0 (e - len) in
  let n := Z.min (zlen c - start) len in
  mkLogData start (if (zlen c <? start + n + len)%Z then -1 else start + n + len)%Z
    (take (Z.to_nat n) (drop (Z.to_nat start) c)).
Lemma Read_page now file endpos len w c :
  text_at w file c -> (0 < len < 2 ^ 52)%Z -> (zlen c < 2 ^ 52)%Z -> (- 2 ^ 52 < endpos <= zlen c)%Z ->
  (Read now file endpos len w).2 = Ret (Some (page c endpos len)) /\ text_at (Read now file endpos len w).1 file c.
Proof.
  intros (Hne & Hname & Hh & Hr & i & Hi & Hc) Hlen Hsize He. unfold Logger.Read.
  rewrite bool_decide_false, (proj2 (Z.eqb_neq _ _)), Hname by (done || lia). cbn [orb negb]. cbv zeta.
  destruct (make_logs_text (sys w) _ i Hh Hi) as (M1 & M2 & M3). unfold Open, node_at. rewrite M2, Hr, Hh, M1. cbn [new_handle].
  set (s := _ <| next_handle ::= S |>). set (h := next_handle (make_logs Getenv (sys w))).
  assert (handles s !! h = Some (File i)) as Es by apply lookup_insert_eq.
  assert (content s i = c) as Ec by (unfold content; simpl; by rewrite M3).
  unfold fd_size, node_size. rewrite Es, Ec, (proj2 (Z.ltb_ge _ _)) by lia. cbn [lg sys].
  set (e := if (endpos <? 0)%Z then zlen c else endpos).
  assert (0 <= e <= zlen c)%Z as He' by (unfold e; destruct (Z.ltb_spec endpos 0); lia).
  rewrite (int64_id (e - len)), max_small by (unfold small; lia).
  rewrite (int64_id (zlen c - _)), min_small by (unfold small; lia).
  unfold page. fold e. set (start := Z.max 0 (e - len)). set (n := Z.min (zlen c - start) len).
  rewrite (proj2 (Z.ltb_ge n 0)) by lia. unfold ReadAt. rewrite Es, Ec, (proj2 (Z.ltb_ge start 0)) by lia.
  assert (zlen (take (Z.to_nat n) (drop (Z.to_nat start) c)) = n) as -> by (rewrite length_take, length_drop; lia).
  rewrite Z.ltb_irrefl. cbn [orb fst snd]. rewrite (int64_id (start + n)), (int64_id (start + n + len)) by lia.
  split; [done|]. repeat split; try done; simpl; [by rewrite M2|]. exists i. simpl. by rewrite M1.
Qed.

(** The pages that [Next] links from a position on. *)
Fixpoint follow (fuel : nat) (now : Z) (file : bytes) (endpos len : Z) (w : World) : res (list bytes) :=
  match fuel with
  | 0 => OutOfFuel
  | S fuel =>
      let '(w, r) := Read now file endpos len w in
      d ← r;
      match d with
      | None => Ret []
      | Some d =>
          if (Next d =? -1)%Z then Ret [Text d] else ts ← follow fuel now file (Next d) len w; Ret (Text d :: ts)
      end
  end.
Lemma follow_pages now file len c : (0 < len < 2 ^ 51)%Z -> (zlen c < 2 ^ 51)%Z -> forall m j w,
  text_at w file c -> (0 < Z.of_nat m)%Z -> (0 <= j)%Z -> (j + Z.of_nat m = zlen c / len)%Z -> exists ts,
  follow m now file ((j + 1) * len) len w = Ret ts /\
  concat ts = take (Z.to_nat (Z.of_nat m * len)) (drop (Z.to_nat (j * len)) c).
Proof.
  intros Hlen Hc. induction m as [|m IH]; intros j w Hw Hm Hj Hk; [lia|].
  assert (zlen c / len * len <= zlen c)%Z as Hle by (pose proof (Z.mul_div_le (zlen c) len); lia).
  assert (zlen c < (zlen c / len + 1) * len)%Z as Hlt by (pose proof (Z.mul_succ_div_gt (zlen c) len); lia).
  assert ((j + 1) * len <= zlen c)%Z as He by nia.
  destruct (Read_page now file ((j + 1) * len) len w c Hw) as [E Hw']; [lia..|nia|]. cbn [follow].
  destruct (Read now file ((j + 1) * len) len w) as [w' r]. cbn [fst snd] in E, Hw'. subst r. cbn [mbind res_bind].
  unfold page. cbn [Next Text]. rewrite (proj2 (Z.ltb_ge ((j + 1) * len) 0)) by nia.
  replace (Z.max 0 ((j + 1) * len - len)) with (j * len)%Z by nia. replace (Z.min (zlen c - j * len) len) with len by lia.
  destruct m as [|m].
  - rewrite (proj2 (Z.ltb_lt _ _)) by nia. rewrite Z.eqb_refl. eexists. split; [done|]. cbn [concat].
    rewrite app_nil_r. f_equal. lia.
  - rewrite (proj2 (Z.ltb_ge _ _)) by nia. rewrite (proj2 (Z.eqb_neq _ _)) by nia.
    destruct (IH (j + 1)%Z w' Hw') as (ts & Ets & Ect); [lia..|].
    replace (j * len + len + len)%Z with ((j + 1 + 1) * len)%Z by lia. rewrite Ets. cbn [mbind res_bind].
    eexists. split; [done|]. cbn [concat]. rewrite Ect.
    replace (Z.to_nat ((j + 1) * len)) with (Z.to_nat (j * len) + Z.to_nat len) by nia. rewrite <- drop_drop.
    replace (Z.to_nat (Z.of_nat (S (S m)) * len)) with (Z.to_nat len + Z.to_nat (Z.of_nat (S m) * len)) by nia.
    generalize (drop (Z.to_nat (j * len)) c). intros l. by rewrite take_take_drop.
Qed.

(** C36. Reading a log from its first page on, each page at the [Next] of the one before,
    ends, and gives the text in order up to its last whole page; the page at a negative
    position ends with the rest: together they are the file. *)
Theorem Read_pages now file len w c :
  text_at w file c -> (0 < len < 2 ^ 51)%Z -> (len <= zlen c < 2 ^ 51)%Z -> exists ts d,
  follow (Z.to_nat (zlen c / len)) now file len len w = Ret ts /\
  (Read now file (-1) len w).2 = Ret (Some d) /\ length (Text d) = Z.to_nat len /\
  c = concat ts ++ drop (Z.to_nat (len - zlen c mod len)) (Text d).
Proof.
  intros Hw Hlen Hc. assert (1 <= zlen c / len)%Z as Hk by (apply Z.div_le_lower_bound; lia).
  destruct (follow_pages now file len c ltac:(lia) ltac:(lia) (Z.to_nat (zlen c / len)) 0 w Hw) as (ts & E & Ec); [lia..|].
  replace ((0 + 1) * len)%Z with len in E by lia. rewrite drop_0 in Ec.
  destruct (Read_page now file (-1) len w c Hw) as [Er _]; [lia..|].
  exists ts, (page c (-1) len). split; [done|]. split; [done|]. unfold page. cbn [Text].
  rewrite (proj2 (Z.ltb_lt (-1) 0)) by lia. replace (Z.max 0 (zlen c - len)) with (zlen c - len)%Z by lia.
  replace (Z.min (zlen c - (zlen c - len)) len) with len by lia.
  split; [rewrite length_take, length_drop; lia|]. rewrite Ec.
  rewrite (take_ge (drop _ c)) by (rewrite length_drop; lia). rewrite drop_drop.
  pose proof (Z.div_mod (zlen c) len ltac:(lia)). pose proof (Z.mod_pos_bound (zlen c) len ltac:(lia)).
  replace (Z.to_nat (zlen c - len) + Z.to_nat (len - zlen c mod len)) with (Z.to_nat (Z.of_nat (Z.to_nat (zlen c / len)) * len)) by nia.
  by rewrite take_drop.
Qed.

(** ** Files outside the directory of the logs *)

Definition escaping (l : Logger) (p : bytes) : bytes := logID l ++ str "-" ++ oname l ++ str "/../../" ++ p.
(** [Read] takes any name that starts with that of the logger: with two steps up after
    it the name reaches every file from the home directory on. *)
Lemma Read_escapes now w p i c len :
  plain_elem (logID (lg w) ++ str "-" ++ oname (lg w)) ->
  let path := Clean (GetLogHome Getenv ++ str "/" ++ p) in
  here path = false -> refused (sys w) path = false -> names (sys w) !! path = Some (File i) -> content (sys w) i = c ->
  (0 < len < 2 ^ 52)%Z -> (zlen c < 2 ^ 52)%Z ->
  (Read now (escaping (lg w) p) (-1) len w).2 = Ret (Some (page c (-1) len)).
Proof.
  intros Hp path Hh Hr Hi Hc Hlen Hsize. apply Read_page; [|done|done|lia].
  assert (escaping (lg w) p = (logID (lg w) ++ str "-" ++ oname (lg w)) ++ str "/../../" ++ p) as Ee.
  { unfold escaping. by rewrite <- !app_assoc. }
  assert (escaping (lg w) p <> dotnet_log) as Hd.
  { intros E. assert ("/"%char ∈ dotnet_log) as H; [|by apply (bool_decide_unpack ("/"%char ∉ dotnet_log)) in H].
    rewrite <- E, Ee, elem_of_app. right. by left. }
  assert (read_path (escaping (lg w) p) = path) as Ep.
  { unfold Logger.read_path. rewrite bool_decide_false, Ee by done. rewrite Join3; [|apply home_ne|done|by destruct (logID _)].
    apply Clean_escape; [apply home_ne|apply plain_logs|done]. }
  unfold text_at. rewrite Ep. split_and!; [by unfold escaping; destruct (logID _)| |done|done|by exists i].
  unfold readable_name. apply orb_true_iff. right. apply HasPrefix_spec. exists (str "/../../" ++ p). exact Ee.
Qed.

(** ** The list of files *)

Lemma Index_byte_lt s c t : c ∈ s -> exists x, Index (s ++ t) [c] = Some x /\ x < length s.
Proof.
  induction s as [|a s IH]; intros H; [by apply elem_of_nil in H|]. cbn [Index app HasPrefix].
  case_bool_decide as E; [exists 0; split; [done|simpl; lia]|]. apply elem_of_cons in H as [->|H]; [done|].
  destruct (IH H) as (x & -> & Hx). exists (S x). simpl. split; [done|lia].
Qed.
Lemma listed_panics prefix name : "."%char ∈ prefix -> name <> hook_log -> HasPrefix name (prefix ++ str "-") = true ->
  listed prefix name = Panic.
Proof.
  intros Hd Hn Hp. unfold listed. pose proof Hp as (t & E)%HasPrefix_spec. rewrite <- app_assoc in E.
  destruct (Index_byte_lt prefix "."%char (str "-" ++ t) Hd) as (x & Hx & Hlt). rewrite <- E in Hx. change (str ".") with ["."%char].
  rewrite Hx, bool_decide_false, Hp by done. unfold slice. rewrite decide_False by lia. done.
Qed.
(** When the name of the agent has a dot, one log of its own makes the list of the logs
    panic: the date is taken up to the first dot of the name. *)
Lemma GetLogFiles_panics w rest i :
  let prefix := logID (lg w) ++ str "-" ++ oname (lg w) in
  let name := prefix ++ str "-" ++ rest in
  "."%char ∈ oname (lg w) -> "/"%char ∉ name -> name <> hook_log ->
  refused (sys w) logs = false -> names (sys w) !! logs = Some Dir -> names (sys w) !! (logs ++ str "/" ++ name) = Some (File i) ->
  GetLogFiles Getenv w = Panic.
Proof.
  intros prefix name Hdot Hs Hn Hr Hd Hi. unfold GetLogFiles. fold prefix.
  assert ("."%char ∈ prefix) as Hp by (unfold prefix; rewrite !elem_of_app; auto).
  assert ((name, File i) ∈ ReadDir (sys w) logs) as Hin.
  { apply ReadDir_spec; [done|unfold node_at; by rewrite (proj2 (logs_ne Getenv))|]. split_and!; [done| |done].
    unfold name. by destruct prefix. }
  assert (forall fs out, (name, File i) ∈ fs -> (out = [] \/ exists z, out = [(hook_log, z)]) ->
    list_files (sys w) prefix logs out fs = Panic) as Hf.
  { induction fs as [|[m n] fs IH]; intros out Hin' Hout; [by apply elem_of_nil in Hin'|]. cbn [list_files].
    apply elem_of_cons in Hin' as [[= <- <-]|Hin'].
    - rewrite listed_panics; [done..|]. apply HasPrefix_spec. exists rest. unfold name. by rewrite <- app_assoc.
    - destruct n as [|j]; [by apply IH|]. destruct (listed prefix m) as [[]| |] eqn:El; cbn [mbind res_bind]; [|by apply IH|done|].
      + assert (m = hook_log) as ->.
        { destruct (decide (m = hook_log)) as [|Hm]; [done|]. destruct (HasPrefix m (prefix ++ str "-")) eqn:E.
          - rewrite listed_panics in El by done. done.
          - unfold listed in El. rewrite bool_decide_false, E in El by done. by destruct (Index m (str ".")). }
        destruct Hout as [->|[z ->]]; simpl; apply IH; try done; right; eexists; reflexivity.
      + exfalso. unfold listed, slice in El. repeat case_match; done. }
  by rewrite (Hf _ [] Hin (or_introl eq_refl)).
Qed.

(** Turning the standard output on before a file is open takes the log away from it. *)
Lemma stdout_silenced now m w :
  logfile (lg w) = None -> confLogStdoutEnabled (lg w) = false ->
  sys (Log_Println now m (SetLogStdoutEnabled true w)) = sys w.
Proof. intros Hf Hc. unfold SetLogStdoutEnabled. rewrite Hc, bool_decide_false by done. simpl. by rewrite Hf. Qed.
End Reading.

(** * Concrete inputs *)

Module Sample.
#[export] Existing Instance ConfFile.Sample.lib.
#[export] Existing Instance ListMap.list_map.
#[export] Existing Instance ListMap.list_map_laws.
Definition DAY : Z := 86400000.
(** The day of the month is that of the clock, and January is endless. *)
#[export] Instance log_lib : LogLib := {|
  YYYYMMDD now := FormatInt (20240100 + Z.quot now DAY); GetDateUnit now := Z.quot now DAY;
  GetYmdTime d := match Atoi d with Some n => inr ((n - 20240100) * DAY)%Z | None => inl (str "not a date") end;
  TimeStamp := FormatInt; Red t := t; header _ := str "T "; error_text p := p; dir_size _ := 4096%Z
|}.
Definition env (k : bytes) : bytes := [].
Definition old_log : bytes := str "logs/whatap-boot-20240101.log".
Definition new_log : bytes := str "logs/whatap-boot-20240119.log".
Definition os1 : OS := {|
  names := list_to_map [(str "logs", Dir); (old_log, File 0); (new_log, File 1)];
  blocks := list_to_map [(0, str "abcdefghij"); (1, str "klm")]; next_inode := 2;
  handles := ∅; next_handle := 5; stdout := []; stderr := []; refused _ := false |}.
Definition world1 : World := mkWorld (NewLogger env) os1.

Definition calls : list call :=
  [mkCall 20000 (str "A") (str "one"); mkCall 21000 (str "A") (str "two"); mkCall 21500 (str "B") (str "three");
   mkCall 30000 (str "A") (str "four")]%Z.
Lemma Println_spaced_witness : exists kept,
  stdout (sys (foldl call_println world1 calls)) = stdout (foldl (write_call [Stdout]) os1 kept) /\
  text <$> with_id (str "A") kept = [str "one"; str "four"] /\ text <$> with_id (str "B") kept = [str "three"].
Proof.
  destruct (Println_spaced world1 calls 10%Z {[str "A"; str "B"]}) as (kept & _ & E & H).
  - lia.
  - split; [reflexivity|constructor| |].
    + apply Nat.leb_le. vm_compute. reflexivity.
    + intros id. change (last_of world1 id) with 0%Z. lia.
  - assert (forall t id x, id = str "A" \/ id = str "B" -> (0 <= t < 2 ^ 62)%Z -> usable 10%Z {[str "A"; str "B"]} (mkCall t id x)) as Hu.
    { intros t id x Hid Ht. split; [|exact Ht]. simpl. rewrite elem_of_union, !elem_of_singleton. exact Hid. }
    constructor; [apply Hu; [left; reflexivity|lia]|]. constructor; [apply Hu; [left; reflexivity|lia]|].
    constructor; [apply Hu; [right; reflexivity|lia]|]. constructor; [apply Hu; [left; reflexivity|lia]|constructor].
  - exists kept. split; [rewrite E; reflexivity|]. rewrite !H. split; vm_compute; reflexivity.
Defined.

(** The file of the first is old on the twentieth. *)
Lemma clearOldLog_exact_witness : names (sys (clearOldLog env (20 * DAY) world1)) !! old_log <> Some (File 0).
Proof.
  intros H. apply (clearOldLog_exact env (20 * DAY) world1 eq_refl eq_refl eq_refl eq_refl) in H as [_ H]. apply H.
  exists (str "whatap-boot-20240101.log"), 0. split; [reflexivity|]. split; [by apply (bool_decide_unpack (_ ∉ _))|]. split; [vm_compute; reflexivity|].
  exists (str "20240101"), DAY. split; [|split; [vm_compute; reflexivity|split; [vm_compute; reflexivity|reflexivity]]].
  split; [reflexivity|]. split; [reflexivity|]. exists (str "whatap-boot"), (str "log"). split; [reflexivity|].
  split_and!; by apply (bool_decide_unpack (_ ∉ _)).
Defined.

(** The file of the twentieth is opened on that day, and stays the file when the agent is
    named. *)
Lemma lines_land_witness : exists i,
  names (sys (process env (20 * DAY) world1)) !! str "logs/whatap-boot-20240120.log" = Some (File i) /\
  let w := update env (20 * DAY) (str "shop") (process env (20 * DAY) world1) in
  content (sys (Log_Println (20 * DAY) (str "hello") w)) i = content (sys w) i ++ str "T hello" ++ newline.
Proof.
  destruct (lines_land env [] [OUpdate (20 * DAY) (str "shop")] os1 (20 * DAY) (20 * DAY) (str "hello")) as (i & Hn & Hc & _).
  - reflexivity.
  - constructor.
  - repeat constructor.
  - right. right. reflexivity.
  - split_and!; [vm_compute; discriminate..|]. by apply (bool_decide_unpack (_ ∉ _)).
  - split_and!; [vm_compute; reflexivity|reflexivity|vm_compute; discriminate].
  - exists i. split; [exact Hn|exact Hc].
Defined.

Definition name1 : bytes := str "whatap-boot-20240101.log".
Lemma text1 : text_at env world1 name1 (str "abcdefghij").
Proof. split_and!; [discriminate|vm_compute; reflexivity..|]. exists 0. split; vm_compute; reflexivity. Qed.
Lemma Read_pages_witness : exists ts d,
  follow env 2 0 name1 4 4 world1 = Ret ts /\ (Read env 0 name1 (-1) 4 world1).2 = Ret (Some d) /\
  concat ts ++ drop 2 (Text d) = str "abcdefghij".
Proof.
  destruct (Read_pages env 0 name1 4 world1 (str "abcdefghij") text1) as (ts & d & E1 & E2 & _ & E3); [lia|vm_compute; split; congruence|].
  exists ts, d. split; [exact E1|]. split; [exact E2|]. symmetry. exact E3.
Defined.
End Sample.
