(* ===== verification/Control.v ===== *)
(** The commands of the server: [src/agent/agent/control/ControlHandler.go] with the
    numbers of [src/agent/net/ParamDef.go].

    A command acts on the log and the files of the agent ([Logger.World]); what it reads
    elsewhere is in [Host].  The parameters of a command are golib's: [ParamLib].
    [log.Fatal], which [properties.MustLoadFile] calls, ends the process. *)

From S2P Require Import Prelude Hmap CounterTasks UrlPattern TraceCtx Conf ConfFile Logger LoggerFacts LogRead.

(** [src/agent/net/ParamDef.go] *)
Definition CONFIGURE_GET : Z := 4.
Definition GET_ENV : Z := 12.
Definition SET_CONFIG : Z := 14.
Definition AGENT_LOG_LIST : Z := 22.
Definition AGENT_LOG_READ : Z := 23.
Definition GET_ACTIVE_TRANSACTION_LIST : Z := 25.
Definition GET_ACTIVE_TRANSACTION_DETAIL : Z := 26.
Definition GET_TOPOLOGY : Z := 27.
Definition AGENT_STAT : Z := 35.
Definition MODULE_DEPENDENCY : Z := 101.

(** What is put in a pack; [VAny] is a value made elsewhere. *)
Inductive value (A : Type) :=
| VText (t : bytes) | VLong (z : Z) | VTexts (m : list (bytes * bytes)) | VLongs (m : list (bytes * Z))
| VBlob (b : bytes) | VAny (a : A).
Arguments VText {A}. Arguments VLong {A}. Arguments VTexts {A}. Arguments VLongs {A}. Arguments VBlob {A}. Arguments VAny {A}.

(** [pack.ParamPack]. *)
Class ParamLib (A : Type) := {
  param : Type; Id : param -> Z; GetString : param -> bytes -> bytes; GetLong : param -> bytes -> Z;
  GetMap : param -> bytes -> option (list (bytes * bytes)); Put : bytes -> value A -> param -> param;
  SetMapValue : list (bytes * bytes) -> param -> param; ToResponse : param -> param
}.

(** What the commands read: the environment, the pack of the start (its version and build
    number), [phpinfo], the running transactions, the load of the agent, the bytes of the
    network connections, and the texts of a panic and of its stack. *)
Record Host (A : Type) := mkHost {
  Environ : list bytes; BootInfo : option (bytes * bytes); PHPInfo : list (bytes * bytes);
  ActiveTxList : A; SelfStat : A; Topology : option bytes; panic_text : bytes; stack_text : bytes
}.
Arguments mkHost {A}. Arguments Environ {A}. Arguments BootInfo {A}. Arguments PHPInfo {A}. Arguments ActiveTxList {A}.
Arguments SelfStat {A}. Arguments Topology {A}. Arguments panic_text {A}. Arguments stack_text {A}.

(** The end of a command: a pack is sent, or none, or a panic was stopped, or the process
    has ended. *)
Inductive outcome (P : Type) := Response (p : P) | Silent | Stopped | Exit.
Arguments Response {P}. Arguments Silent {P}. Arguments Stopped {P}. Arguments Exit {P}.

Section Control.
Context {LM : LinkedMap bytes} {CL : ConfLib} {SU : StringUtil} {PF : PropFile} {LL : LogLib} {A : Type} {PL : ParamLib A}.
Variable Getenv : bytes -> bytes.
Implicit Types (w : World) (c : Config) (p : param).

(** * The file of settings *)

Definition conf_file (c : Config) : bytes := GetConfFile Getenv c.
(** The inode and the text of a file that can be read. *)
Definition file_text (s : OS) (path : bytes) : option (nat * bytes) :=
  if refused s path then None else
  match node_at s path with Some (File i) => Some (i, content s i) | _ => None end.
Definition load_file (s : OS) (path : bytes) : option properties := '(_, t) ← file_text s path; LoadFile t.
(** [config.SetValues]; the order of [keyValues] is that of a Go map. *)
Definition set_values (now : Z) (c : Config) (keyValues : list (bytes * bytes)) (w : World) : World :=
  match file_text (sys w) (conf_file c) with
  | Some (i, t) =>
      match LoadFile t with
      | Some _ => w <| sys ::= fun s => s <| blocks ::= <[i := SetValues c keyValues true true t]> |> |>
      | None => Print now (Red (build (str "WA21901") (str "error load properties " ++ error_text (conf_file c)))) w
      end
  | None => Print now (Red (build (str "WA21901") (str "error load properties " ++ error_text (conf_file c)))) w
  end.

(** * The commands *)

Definition debug (now : Z) (c : Config) (message : bytes) (w : World) : World :=
  if (the DebugControlEnabled c : bool) then info now (str "[DEBUG]") message w else w.
Definition put_all (kvs : list (bytes * bytes)) (m : list (bytes * bytes)) : list (bytes * bytes) :=
  foldl (fun m kv => map_put m kv.1 kv.2) m kvs.

(** [GET_ENV]: an entry of the environment is cut at every ["="]. *)
Definition env_entry (e : bytes) : res (bytes * bytes) :=
  match SplitByte "="%char e with k :: v :: _ => Ret (k, v) | _ => Panic end.
Definition is_type (c : Config) (types : list Z) : bool := bool_decide (the AppType c ∈ types).
Definition get_env (c : Config) (h : Host A) : res (list (bytes * bytes)) :=
  kvs ← mapM env_entry (Environ h);
  let m := put_all kvs [] in
  let m := match BootInfo h with
           | Some (v, n) => map_put (map_put m (str "whatap.agent_version") v) (str "whatap.agent_buildno") n
           | None => m
           end in
  Ret (if is_type c [APP_TYPE_PHP; APP_TYPE_BSM_PHP] then put_all (PHPInfo h) m else m).

(** [CONFIGURE_GET]. *)
Definition shown (key : bytes) : bool := word_first key && negb (Contains key (str "OID")).
Definition get_conf (f : properties) : res (list (bytes * bytes)) :=
  foldM (fun m key => if shown key then v ← value_of f key; Ret (map_put m key (double v)) else Ret m) [] (prop_Keys f).

Definition READ_MAX : float64 := f64_of_Z 8000.
Definition read_length (len : Z) : Z := f64_to_int64 (math_Min (f64_of_Z len) READ_MAX).
Definition put_log (d : option LogData) (p : param) : param :=
  match d with
  | Some d => Put (str "text") (VText (Text d)) (Put (str "next") (VLong (Next d)) (Put (str "before") (VLong (Before d)) p))
  | None => p
  end.

(** The switch: the new state, and the pack that goes on; a command may end it. *)
Definition run_command (now : Z) (c : Config) (h : Host A) (order : list (bytes * bytes) -> list (bytes * bytes))
    (p : param) (w : World) : World * (res param + outcome param) :=
  if (Id p =? MODULE_DEPENDENCY)%Z then (debug now c (str "MODULE_DEPENDENCY") w, inl (Ret p))
  else if (Id p =? GET_ENV)%Z then
    (debug now c (str "GET_ENV") w, inl (m ← get_env c h; Ret (Put (str "env") (VTexts m) p)))
  else if (Id p =? CONFIGURE_GET)%Z then
    let w := debug now c (str "CONFIGURE_GET") w in
    match load_file (sys w) (conf_file c) with
    | None => (w, inr Exit)
    | Some f => (w, inl (m ← get_conf f; Ret (SetMapValue m p)))
    end
  else if (Id p =? SET_CONFIG)%Z then
    let w := debug now c (str "SET_CONFIG") w in
    (match GetMap p (str "config") with Some kvs => set_values now c (order kvs) w | None => w end, inl (Ret p))
  else if (Id p =? GET_ACTIVE_TRANSACTION_LIST)%Z then
    (debug now c (str "GET_ACTIVE_TRANSACTION_LIST") w, inl (Ret (Put (str "active") (VAny (ActiveTxList h)) p)))
  else if (Id p =? GET_ACTIVE_TRANSACTION_DETAIL)%Z then
    (debug now c (str "GET_ACTIVE_TRANSACTION_DETAIL") w, inr Silent)
  else if (Id p =? AGENT_LOG_LIST)%Z then
    let w := debug now c (str "AGENT_LOG_LIST") w in
    (w, inl (m ← GetLogFiles Getenv w; Ret (Put (str "files") (VLongs m) p)))
  else if (Id p =? AGENT_LOG_READ)%Z then
    let file := GetString p (str "file") in
    let endpos := GetLong p (str "pos") in
    let len := read_length (GetLong p (str "length")) in
    let w := debug now c (str "AGENT_LOG_READ " ++ file ++ str ", " ++ FormatInt endpos ++ str ", " ++ FormatInt len) w in
    let '(w, d) := Read Getenv now file endpos len w in
    (w, inl (d ← d; Ret (put_log d p)))
  else if (Id p =? AGENT_STAT)%Z then
    (debug now c (str "AGENT_STAT ") w, inl (Ret (Put (str "stat") (VAny (SelfStat h)) p)))
  else if (Id p =? GET_TOPOLOGY)%Z then
    (debug now c (str "GET_TOPOLOGY ") w,
     inl (Ret match Topology h with Some b => Put (str "node") (VBlob b) p | None => p end))
  else (w, inl (Ret p)).
(** A panic is written to the log, its stack as the id of a line. *)
Definition process (now : Z) (c : Config) (h : Host A) (order : list (bytes * bytes) -> list (bytes * bytes))
    (p : param) (w : World) : World * outcome param :=
  match run_command now c h order p w with
  | (w, inl (Ret p)) => (debug now c (str "Control Send ") w, Response (ToResponse p))
  | (w, inl _) => (println now (stack_text h) [] (println now (str "WA10601") (str " Recover " ++ panic_text h) w), Stopped)
  | (w, inr o) => (w, o)
  end.

(** * The loop *)

(** [ctx]: whether the loop is told to stop. *)
Record Handler := mkHandler { start_ : bool; ctx : option bool }.
Definition shutdown (h : Handler) : Handler := match ctx h with Some _ => h <| ctx := Some true |> | None => h end.
(** The observer of the settings. *)
Definition Run (c : Config) (h : Handler) : Handler := if (the Fields.Shutdown c : bool) then shutdown h else h.
(** The handler, and whether the loop is started. *)
Definition InitControlHandler (c : Config) (h : Handler) : Handler * bool :=
  if (the Fields.Shutdown c : bool) then (h, false)
  else if start_ h then (h, false) else (mkHandler true (Some false), true).

(** What [select] takes: the end, a command, or a pack of another kind. *)
Inductive received := Done | Command (now : Z) (c : Config) (h : Host A) (p : param) | Other.
(** The packs that are sent, and whether the process has ended. *)
Fixpoint runControl (order : list (bytes * bytes) -> list (bytes * bytes)) (rs : list received)
    (w : World) : World * list param * bool :=
  match rs with
  | [] => (w, [], false)
  | Done :: _ => (w, [], false)
  | Other :: rs => runControl order rs w
  | Command now c h p :: rs =>
      match process now c h order p w with
      | (w, Exit) => (w, [], true)
      | (w, Response p) => let '(w, ps, e) := runControl order rs w in (w, p :: ps, e)
      | (w, _) => runControl order rs w
      end
  end.
End Control.

(** * What is answered *)

Lemma alookup_put {V} (m : list (bytes * V)) k v j :
  alookup (map_put m k v) j = if decide (j = k) then Some v else alookup m j.
Proof.
  unfold map_put. destruct (alookup m k) as [w|] eqn:E.
  - rewrite alookup_awrite. by rewrite E.
  - rewrite alookup_app. simpl. destruct (decide (k = j)) as [<-|Hne].
    + by rewrite E, decide_True.
    + rewrite decide_False by congruence. by destruct (alookup m j).
Qed.

Section Answers.
Context {LM : LinkedMap bytes} {CL : ConfLib} {SU : StringUtil} {PF : PropFile} {LL : LogLib} {A : Type} {PL : ParamLib A}.
Variable Getenv : bytes -> bytes.
Implicit Types (w : World) (c : Config) (p : param).
#[local] Abbreviation process := (process Getenv).
#[local] Abbreviation conf_file := (conf_file Getenv).

(** A log line changes neither names nor the files that it is not written to. *)
Definition not_logged (w : World) (i : nat) : Prop :=
  Forall (fun t => forall h, t = Logfile (Some h) -> handles (sys w) !! h <> Some (File i)) (Log (lg w)).
Lemma write_all_other ts b i : forall s,
  Forall (fun t => forall h, t = Logfile (Some h) -> handles s !! h <> Some (File i)) ts -> content (write_all ts b s) i = content s i.
Proof.
  induction ts as [|t ts IH]; intros s Hts; [done|]. inversion Hts as [|? ? Ht Hts']; subst. cbn [write_all].
  assert (content (write1 t b s).1 i = content s i /\ handles (write1 t b s).1 = handles s) as [E1 E2].
  { destruct t as [|f]; [done|]. cbn [write1]. unfold WriteFile. destruct f as [h|]; [|done]. cbn [mbind option_bind].
    specialize (Ht h eq_refl). destruct (handles s !! h) as [[|j]|] eqn:E; [done| |done]. cbn [fst]. split; [|done].
    unfold content. simpl. rewrite lookup_insert_ne; [done|]. intros ->. by apply Ht. }
  destruct (write1 t b s) as [s' ok]. cbn [fst] in *. destruct ok; [|done]. rewrite IH; [done|]. by rewrite E2.
Qed.
Lemma debug_names now c m w :
  same_names (sys w) (sys (debug now c m w)) /\ lg (debug now c m w) = lg w.
Proof. unfold debug. destruct (the _ _ : bool); [|split; [apply same_names_refl|done]]. split; [apply write_all_names|done]. Qed.
Lemma debug_content now c m w i : not_logged w i -> content (sys (debug now c m w)) i = content (sys w) i.
Proof. intros H. unfold debug. destruct (the _ _ : bool); [|done]. by apply write_all_other. Qed.
Lemma debug_not_logged now c m w i : not_logged w i -> not_logged (debug now c m w) i.
Proof. intros H. unfold not_logged. destruct (debug_names now c m w) as [(_ & E & _) ->]. by rewrite E. Qed.
Lemma same_node s s' q : same_names s s' -> node_at s' q = node_at s q /\ refused s' q = refused s q.
Proof. intros (E & _ & _ & _ & E'). unfold node_at. by rewrite E, E'. Qed.
Lemma file_text_same s s' q i t :
  same_names s s' -> file_text s q = Some (i, t) -> content s' i = t -> file_text s' q = Some (i, t).
Proof.
  intros Hs Ht Hc. unfold file_text in *. destruct (same_node s s' q Hs) as [-> ->]. destruct (refused s q); [done|].
  destruct (node_at s q) as [[|j]|]; [done| |done]. injection Ht as -> _. by rewrite Hc.
Qed.

Lemma foldM_total {S B} (f : S -> B -> res S) (l : list B) : forall s,
  (forall s x, x ∈ l -> returns (f s x)) -> returns (foldM f s l).
Proof.
  induction l as [|x l IH]; intros s Hf; [by exists s|]. cbn [foldM]. apply bind_returns; [apply Hf; by left|].
  intros s' _. apply IH. intros s'' y Hy. apply Hf. by right.
Qed.
Lemma env_entry_returns e : returns (env_entry e) <-> "="%char ∈ e.
Proof.
  unfold env_entry. destruct (decide ("="%char ∈ e)) as [Hi|Hn].
  - split; [done|]. intros _. apply list_elem_of_split in Hi as (l1 & l2 & ->).
    assert (exists k v ps, SplitByte "="%char (l1 ++ "="%char :: l2) = k :: v :: ps) as (k & v & ps & ->); [|by eexists].
    induction l1 as [|a l1 (k & v & ps & IH)]; cbn [SplitByte app].
    + rewrite bool_decide_true by done. destruct (SplitByte _ l2) as [|v ps] eqn:E; [|by eexists _, _, _].
      destruct l2 as [|b l2]; cbn [SplitByte] in E; [done|]. destruct (bool_decide _); [done|]. by destruct (SplitByte _ l2).
    + rewrite IH. destruct (bool_decide _); by eexists _, _, _.
  - rewrite SplitByte_none by done. split; [by intros [? ?]|done].
Qed.
Lemma mapM_returns {B C} (f : B -> res C) l : returns (mapM f l) <-> Forall (fun x => returns (f x)) l.
Proof.
  induction l as [|x l IH]; [split; [constructor|by exists []]|].
  change (mapM f (x :: l)) with (y ← f x; ys ← mapM f l; mret (y :: ys)). rewrite Forall_cons, <- IH. split.
  - intros [y H]. inv_bind. split; eexists; eassumption.
  - intros [[y Hy] [ys Hys]]. rewrite Hy. cbn [mbind res_bind]. rewrite Hys. by eexists.
Qed.
Lemma get_env_returns c (h : Host A) : returns (get_env c h) <-> Forall (fun e => "="%char ∈ e) (Environ h).
Proof.
  unfold get_env. split.
  - intros [m H]. inv_bind. assert (returns (mapM env_entry (Environ h))) as Hr by (by eexists).
    apply mapM_returns in Hr. eapply Forall_impl; [exact Hr|]. intros e. by rewrite env_entry_returns.
  - intros H. apply bind_returns; [|by eexists]. apply mapM_returns. eapply Forall_impl; [exact H|]. intros e. by rewrite env_entry_returns.
Qed.
Lemma get_conf_returns f : returns (get_conf f) <-> Forall (fun key => shown key = true -> returns (value_of f key)) (prop_Keys f).
Proof.
  unfold get_conf. generalize (@nil (bytes * bytes)). induction (prop_Keys f) as [|k ks IH]; intros m; cbn [foldM].
  { split; [constructor|by eexists]. }
  rewrite Forall_cons. destruct (shown k).
  - split.
    + intros [m' H]. inv_bind. split; [intros _; by eexists|]. apply (IH (map_put m k (double a0))). by eexists.
    + intros [[v Hv] H]; [done|]. rewrite Hv. cbn [mbind res_bind]. by apply IH.
  - cbn [mbind res_bind]. rewrite IH. naive_solver.
Qed.

#[export] Instance returns_dec {B} (m : res B) : Decision (returns m).
Proof. destruct m; [left; by eexists|right; by intros []..]. Defined.
Lemma not_Forall {B} (P : B -> Prop) `{!forall x, Decision (P x)} l : ~ Forall P l <-> exists x, x ∈ l /\ ~ P x.
Proof.
  split; [intros Hl; by apply (not_Forall_Exists P), Exists_exists in Hl|].
  intros (x & Hx & Hn) Hl. rewrite Forall_forall in Hl. by apply Hn, Hl.
Qed.
Lemma get_env_panics c (h : Host A) : ~ returns (get_env c h) <-> exists e, e ∈ Environ h /\ "="%char ∉ e.
Proof. rewrite get_env_returns. apply (not_Forall (fun e => "="%char ∈ e)). Qed.
Lemma get_conf_panics f :
  ~ returns (get_conf f) <-> exists key, key ∈ prop_Keys f /\ shown key = true /\ ~ returns (value_of f key).
Proof.
  rewrite get_conf_returns, (not_Forall (fun key => shown key = true -> returns (value_of f key))). split; intros (k & Hk & H); exists k; (split; [done|]).
  - destruct (decide (shown k = true)) as [E|E]; [split; [done|]; intros Hr; by apply H|]. exfalso. apply H. by intros.
  - destruct H as [E H]. intros Hr. by apply H, Hr.
Qed.

(** The state in which a command is carried out. *)
Definition debugged (now : Z) (c : Config) (name : string) (w : World) : World := debug now c (str name) w.
Definition read_debugged (now : Z) (c : Config) (p : param) (w : World) : World :=
  debug now c (str "AGENT_LOG_READ " ++ GetString p (str "file") ++ str ", " ++ FormatInt (GetLong p (str "pos")) ++ str ", " ++
    FormatInt (read_length (GetLong p (str "length")))) w.
(** What makes a command panic. *)
Definition fails (now : Z) (c : Config) (h : Host A) (p : param) (w : World) : Prop :=
  (Id p = GET_ENV /\ exists e, e ∈ Environ h /\ "="%char ∉ e) \/
  (Id p = CONFIGURE_GET /\ exists f key, load_file (sys (debugged now c "CONFIGURE_GET" w)) (conf_file c) = Some f /\
     key ∈ prop_Keys f /\ shown key = true /\ ~ returns (value_of f key)) \/
  (Id p = AGENT_LOG_LIST /\ ~ returns (GetLogFiles Getenv (debugged now c "AGENT_LOG_LIST" w))) \/
  (Id p = AGENT_LOG_READ /\ ~ returns (Read Getenv now (GetString p (str "file")) (GetLong p (str "pos"))
     (read_length (GetLong p (str "length"))) (read_debugged now c p w)).2).
Definition no_settings (now : Z) (c : Config) (p : param) (w : World) : Prop :=
  Id p = CONFIGURE_GET /\ load_file (sys (debugged now c "CONFIGURE_GET" w)) (conf_file c) = None.

Lemma process_inl now c h order p w w' m :
  run_command Getenv now c h order p w = (w', inl m) ->
  (process now c h order p w).2 <> Exit /\ (process now c h order p w).2 <> Silent /\
  ((process now c h order p w).2 = Stopped <-> ~ returns m).
Proof.
  intros E. unfold Control.process. rewrite E. destruct m; simpl; split_and!; try done.
  - split; [done|]. intros H. exfalso. apply H. by eexists.
  - split; [|done]. by intros _ [? ?].
  - split; [|done]. by intros _ [? ?].
Qed.
Lemma process_inr now c h order p w w' o :
  run_command Getenv now c h order p w = (w', inr o) -> (process now c h order p w).2 = o.
Proof. intros E. unfold Control.process. by rewrite E. Qed.
Lemma returns_bind {B C} (m : res B) (f : B -> C) : returns (x ← m; Ret (f x)) <-> returns m.
Proof. destruct m; simpl; split; intros [? ?]; try done; by eexists. Qed.

#[local] Ltac none := intros [[Ei Hi]|[[Ei Hi]|[[Ei Hi]|[Ei Hi]]]]; try discriminate Ei; try exact Hi.
#[local] Ltac answered := split_and!; [|intros [? _]; discriminate|done].
(** The result of a command that goes on, by its id. *)
Lemma fails_iff now c h order p w w' m :
  run_command Getenv now c h order p w = (w', inl m) ->
  (fails now c h p w <-> ~ returns m) /\ ~ no_settings now c p w /\ Id p <> GET_ACTIVE_TRANSACTION_DETAIL.
Proof.
  unfold run_command, no_settings.
  repeat match goal with |- context [if (Id p =? ?n)%Z then _ else _] =>
    destruct (Z.eqb_spec (Id p) n) as [E|?]; [unfold fails; rewrite ?E; clear E|] end.
  - intros [= <- <-]. answered. split; [none|]. intros H. exfalso. apply H. by eexists.
  - intros [= <- <-]. answered. rewrite returns_bind, get_env_panics. split; [none|]. intros H. by left.
  - destruct (load_file _ _) as [f|] eqn:Ef; [|done]. intros [= <- <-]. split_and!; [|by intros [_ [=]]|done].
    rewrite returns_bind, get_conf_panics. split; [none; destruct Hi as (f' & key & Hf & H); exists key; congruence|]. intros (key & H). right. left. split; [done|]. by exists f, key.
  - intros [= <- <-]. answered. split; [none|]. intros H. exfalso. apply H. by eexists.
  - intros [= <- <-]. answered. split; [none|]. intros H. exfalso. apply H. by eexists.
  - done.
  - intros [= <- <-]. answered. rewrite returns_bind. split; [none|]. intros H. right. right. by left.
  - destruct (Read _ _ _ _ _ _) as [w1 d] eqn:Er. intros [= <- <-]. answered. rewrite returns_bind.
    unfold read_debugged. rewrite ?Er. split; [none|]. intros H. right. right. by right.
  - intros [= <- <-]. answered. split; [none|]. intros H. exfalso. apply H. by eexists.
  - intros [= <- <-]. answered. split; [none|]. intros H. exfalso. apply H. by eexists.
  - intros [= <- <-]. unfold fails. split_and!; [|by intros [? _]|done]. split; [by intros [[? _]|[[? _]|[[? _]|[? _]]]]|].
    intros H. exfalso. apply H. by eexists.
Qed.
Lemma ends_iff now c h order p w w' o :
  run_command Getenv now c h order p w = (w', inr o) ->
  (o = Exit /\ no_settings now c p w \/ o = Silent /\ Id p = GET_ACTIVE_TRANSACTION_DETAIL) /\ ~ fails now c h p w.
Proof.
  unfold run_command, no_settings.
  repeat match goal with |- context [if (Id p =? ?n)%Z then _ else _] =>
    destruct (Z.eqb_spec (Id p) n) as [E|?]; [unfold fails; rewrite ?E; clear E|] end; try done.
  - destruct (load_file _ _) as [f|] eqn:Ef; [done|]. intros [= <- <-]. split; [by left|]. none.
    destruct Hi as (f & key & Hf & _). unfold debugged in Hf. congruence.
  - intros [= <- <-]. split; [by right|]. none.
  - by destruct (Read _ _ _ _ _ _).
Qed.

(** C26. The commands that get no answer: the details of a transaction, always; the
    settings, when the file cannot be read, and then the process ends; the environment,
    when an entry has no ["="]; the settings, when a value panics; the list of logs and a
    page of a log, when [GetLogFiles] or [Read] panic.  Every other command gets one. *)
Theorem unanswered now c h order p w :
  let r := (process now c h order p w).2 in
  (r = Exit <-> no_settings now c p w) /\ (r = Silent <-> Id p = GET_ACTIVE_TRANSACTION_DETAIL) /\
  (r = Stopped <-> fails now c h p w) /\
  ((exists p', r = Response p') <-> ~ no_settings now c p w /\ Id p <> GET_ACTIVE_TRANSACTION_DETAIL /\ ~ fails now c h p w).
Proof.
  cbv zeta. destruct (run_command Getenv now c h order p w) as [w' [m|o]] eqn:E.
  - destruct (process_inl _ _ _ _ _ _ _ _ E) as (P1 & P2 & P3). destruct (fails_iff _ _ _ _ _ _ _ _ E) as (F1 & F2 & F3).
    split_and!; [done|done|by rewrite P3, F1|]. rewrite F1, <- P3. destruct (process now c h order p w).2; naive_solver.
  - rewrite (process_inr _ _ _ _ _ _ _ _ E). destruct (ends_iff _ _ _ _ _ _ _ _ E) as [[[-> H]|[-> H]] F]; [|].
    + unfold no_settings in *. split_and!; [done|split; [done|]; intros E'; destruct H as [H _]; rewrite E' in H; discriminate H|done|].
      split; [by intros [? ?]|]. by intros [? _].
    + unfold no_settings. split_and!; [split; [done|]; intros [E' _]; rewrite H in E'; discriminate E'|done|done|].
      split; [by intros [? ?]|]. by intros (_ & ? & _).
Qed.

(** ** What is set is read *)

Context {PLaws : PropLaws PF}.

Lemma word_plain k v : plain_pair k v -> word_first k = true /\ double v = v.
Proof. intros (_ & Hw & (_ & _ & _ & Hb & _) & _). split; [done|by apply double_id]. Qed.
(** The settings that are shown. *)
Definition visible (f : bytes -> option bytes) (key : bytes) : option bytes :=
  if Contains key (str "OID") then None else f key.
Lemma get_conf_plain q f : plain_props q f -> plain_map f ->
  exists m, get_conf q = Ret m /\ forall key, alookup m key = visible f key.
Proof.
  intros Hq Hf. unfold get_conf.
  assert (forall ks m0, (forall k, k ∈ ks -> is_Some (f k)) -> exists m,
    foldM (fun m key => if shown key then v ← value_of q key; Ret (map_put m key (double v)) else Ret m) m0 ks = Ret m /\
    forall key, alookup m key = if bool_decide (key ∈ ks) && negb (Contains key (str "OID")) then f key else alookup m0 key) as Hg.
  { induction ks as [|k ks IH]; intros m0 Hks; cbn [foldM].
    { exists m0. split; [done|]. intros key. by rewrite bool_decide_false by apply not_elem_of_nil. }
    destruct (Hks k) as [v Hv]; [by left|]. destruct (word_plain k v (Hf k v Hv)) as [Hw Hd].
    assert (shown k = negb (Contains k (str "OID"))) as -> by (unfold shown; by rewrite Hw).
    assert (forall k', k' ∈ ks -> is_Some (f k')) as Hks' by (intros k' ?; apply Hks; by right).
    assert (forall key, key <> k -> bool_decide (key ∈ k :: ks) = bool_decide (key ∈ ks)) as Hin.
    { intros key Hne. apply bool_decide_ext. rewrite elem_of_cons. naive_solver. }
    destruct (Contains k (str "OID")) eqn:Ec; cbn [negb].
    - cbn [mbind res_bind]. destruct (IH m0 Hks') as (m & Em & Hm). exists m. split; [done|]. intros key. rewrite Hm.
      destruct (decide (key = k)) as [->|Hne]; [by rewrite Ec, !andb_false_r|].
      by rewrite Hin.
    - rewrite (value_of_plain q f k Hq), Hv. cbn [mbind res_bind default from_option id]. rewrite Hd.
      destruct (IH (map_put m0 k v) Hks') as (m & Em & Hm). exists m. split; [done|]. intros key. rewrite Hm, alookup_put.
      destruct (decide (key = k)) as [->|Hne].
      + rewrite Ec, (bool_decide_true (k ∈ k :: ks)) by by left. cbn [andb negb]. rewrite Hv. by destruct (_ && _).
      + by rewrite Hin. }
  destruct (Hg (prop_Keys q) []) as (m & Em & Hm); [intros k; by apply props_keys|]. exists m. split; [done|]. intros key. rewrite Hm.
  unfold visible. destruct (Contains key (str "OID")); [by rewrite andb_false_r|]. rewrite andb_true_r.
  case_bool_decide as Hk; [done|]. simpl. destruct (f key) eqn:E; [|done]. exfalso. apply Hk. apply (props_keys q f key Hq). by rewrite E.
Qed.

Lemma run_set now c h order p w : Id p = SET_CONFIG ->
  run_command Getenv now c h order p w =
    (let w := debug now c (str "SET_CONFIG") w in
     match GetMap p (str "config") with Some kvs => set_values Getenv now c (order kvs) w | None => w end, inl (Ret p)).
Proof. intros E. unfold run_command. by rewrite E. Qed.
Lemma run_get now c h order p w : Id p = CONFIGURE_GET ->
  run_command Getenv now c h order p w =
    (let w := debug now c (str "CONFIGURE_GET") w in
     match load_file (sys w) (conf_file c) with
     | None => (w, inr Exit)
     | Some f => (w, inl (m ← get_conf f; Ret (SetMapValue m p)))
     end).
Proof. intros E. unfold run_command. by rewrite E. Qed.
Lemma debugged_file now c m w i t :
  file_text (sys w) (conf_file c) = Some (i, t) -> not_logged w i ->
  file_text (sys (debug now c m w)) (conf_file c) = Some (i, t) /\ not_logged (debug now c m w) i.
Proof.
  intros Ht Hn. split; [|by apply debug_not_logged]. destruct (debug_names now c m w) as [Hs _].
  apply (file_text_same _ _ _ _ _ Hs Ht). rewrite debug_content by done. unfold file_text in Ht.
  destruct (refused _ _); [done|]. destruct (node_at _ _) as [[|j]|]; [done| |done]. by injection Ht as -> <-.
Qed.

(** C34. In a file of plain settings and comments that is not itself a log, the settings that
    [CONFIGURE_GET] answers after [SET_CONFIG] are those of the file with the values of the
    call, under the prefix of the agent's kind, but for the keys with ["OID"] in them.  A
    setting is plain ([plain_pair]), in the file and in the call, when it is of ASCII and on
    a line under 4096 bytes, its key starts with a letter, a digit or ["_"] and has no
    blank, tab, form feed, ["="] or [":"], and its value is not empty, has no blanks around it
    and no ["="], escape or reference. *)
Theorem set_then_get now t c h order p1 p2 w i ls kvs :
  file_text (sys w) (conf_file c) = Some (i, text_of ls) -> not_logged w i -> Forall plain_line ls ->
  Id p1 = SET_CONFIG -> GetMap p1 (str "config") = Some kvs ->
  Forall (fun kv => plain_pair (setKey c kv.1) kv.2) (order kvs) -> Id p2 = CONFIGURE_GET ->
  (process now c h order p1 w).2 = Response (ToResponse p1) /\
  exists m, (process t c h order p2 (process now c h order p1 w).1).2 = Response (ToResponse (SetMapValue m p2)) /\
    forall key, alookup m key = visible (after_set c (order kvs) (lookup_last ls)) key.
Proof.
  intros Ht Hn Hls E1 Ek Hkvs E2. destruct (debugged_file now c (str "SET_CONFIG") w i _ Ht Hn) as [Ht1 Hn1].
  destruct (SetValues_text c (order kvs) ls Hls Hkvs) as (ls' & q & Es & _ & El & Hq & Hm & Ef).
  destruct (props_load ls Hls) as (q0 & El0 & _).
  assert (process now c h order p1 w = (debug now c (str "Control Send ")
    ((debug now c (str "SET_CONFIG") w) <| sys ::= fun s => s <| blocks ::= <[i := text_of ls']> |> |>), Response (ToResponse p1))) as Ep.
  { unfold Control.process. rewrite run_set, Ek by done. cbv zeta. unfold set_values. by rewrite Ht1, El0, Es. }
  rewrite Ep. cbn [fst snd]. split; [done|]. set (w1 := (debug now c (str "SET_CONFIG") w) <| sys ::= fun s => s <| blocks ::= <[i := text_of ls']> |> |>).
  assert (file_text (sys w1) (conf_file c) = Some (i, text_of ls') /\ not_logged w1 i) as [Ht2 Hn2].
  { split; [|exact Hn1]. revert Ht1. unfold file_text, node_at, w1. simpl. destruct (refused _ _); [done|].
    destruct (if here _ then _ else _) as [[|j]|]; [done| |done]. intros [= -> _]. unfold content. simpl. by rewrite lookup_insert_eq. }
  destruct (debugged_file now c (str "Control Send ") w1 i _ Ht2 Hn2) as [Ht3 Hn3].
  destruct (debugged_file t c (str "CONFIGURE_GET") _ i _ Ht3 Hn3) as [Ht4 Hn4].
  destruct (get_conf_plain q (lookup_last ls') Hq) as (m & Em & Hv).
  { intros k v. rewrite Ef. apply Hm. }
  exists m. split.
  - unfold Control.process. rewrite run_get by done. cbv zeta. unfold load_file. rewrite Ht4. cbn [mbind option_bind]. by rewrite El, Em.
  - intros key. rewrite Hv. unfold visible. by rewrite Ef.
Qed.
End Answers.

(** * A concrete input *)

Module Sample.
Import ConfFile.Sample LogRead.Sample.
(** The pack is its number and a map. *)
#[export] Instance param_lib : ParamLib unit := {|
  param := (Z * list (bytes * bytes))%type; Id := fst; GetString p k := default [] (alookup p.2 k); GetLong _ _ := 0%Z;
  GetMap p _ := Some p.2; Put _ _ p := p; SetMapValue m p := (p.1, m); ToResponse p := p
|}.
Definition settings : list ConfFile.line := [LText (str "# settings"); LSet (str "enabled") (str "true")].
Definition world2 : World := world1 <| sys ::= fun s =>
  s <| names ::= <[str "whatap.conf" := File 2]> |> <| blocks ::= <[2 := text_of settings]> |> |>.
Definition host1 : Host unit := mkHost [] None [] tt tt None [] [].
Definition set1 : @param unit param_lib := (SET_CONFIG, [(str "mtrace_rate", str "20")]).
Definition get1 : @param unit param_lib := (CONFIGURE_GET, []).
Lemma set_then_get_witness : exists m,
  (process LogRead.Sample.env 0 zero_config host1 (fun kvs => kvs) get1
     (process LogRead.Sample.env 0 zero_config host1 (fun kvs => kvs) set1 world2).1).2
    = Response (SetMapValue m get1) /\
  alookup m (str "enabled") = Some (str "true") /\ alookup m (str "mtrace_rate") = Some (str "20").
Proof.
  destruct (set_then_get LogRead.Sample.env 0 0 zero_config host1 (fun kvs => kvs) set1
    get1 world2 2 settings [(str "mtrace_rate", str "20")]) as (_ & m & E & Hm).
  - vm_compute. reflexivity.
  - repeat constructor. intros h H. discriminate H.
  - constructor; [|constructor; [|constructor]].
    + split_and!; try (by apply (bool_decide_unpack (_ ∉ _))); [apply Nat.ltb_lt; vm_compute; reflexivity|left; reflexivity].
    + apply ConfFile.Sample.pair_check. vm_compute. reflexivity.
  - reflexivity.
  - reflexivity.
  - constructor; [|constructor]. apply ConfFile.Sample.pair_check. vm_compute. reflexivity.
  - reflexivity.
  - exists m. split; [exact E|]. rewrite !Hm. split; vm_compute; reflexivity.
Defined.
End Sample.
