(* ===== verification/Stacks.v ===== *)
(** The stacks of all goroutines: [src/agent/agent/active/GoroutineStack.go].

    [runtime.Stack] writes its text into a buffer of a pool; the blocks of the text are cut
    out of it without a copy, so a string given to the callback is a place in a buffer
    ([view]) and not a text.  The buffers are a heap; [dumps] are the texts that
    [runtime.Stack] has at the successive attempts. *)

From S2P Require Import Prelude TraceCtx TraceCtxFacts.

(** * Blocks *)

Definition newline : ascii := "010"%char.
Definition separator : bytes := [newline; newline].

(** Bytes [off] to [off + len] of a buffer. *)
Record span := mkSpan { off : nat; len : nat }.
Definition cut (buf : bytes) (s : span) : bytes := take (len s) (drop (off s) buf).
Definition shift (n : nat) (s : span) : span := mkSpan (n + off s) (len s).
Definition nil_span : span := mkSpan 0 0.

(** The estimate of the number of blocks. *)
Fixpoint count_from (buf : bytes) : nat :=
  match buf with
  | a :: (b :: rest) as tl => if bool_decide (a = newline /\ b = newline) then S (count_from rest) else count_from tl
  | _ => 0
  end.
Definition countBlocks (buf : bytes) : nat := S (count_from buf).

Definition white (c : ascii) : bool := (byteZ c <=? 32)%Z.
Fixpoint lead (b : bytes) : nat := match b with c :: b => if white c then S (lead b) else 0 | [] => 0 end.
(** The part of a block between its white space. *)
Definition trim (b : bytes) : span :=
  let b' := drop (lead b) b in mkSpan (lead b) (length b' - lead (rev b')).

(** The number that the digits are, as a [uint64], and how many there are. *)
Fixpoint digits (id : Z) (b : bytes) : Z * nat :=
  match b with
  | c :: b =>
      if (48 <=? byteZ c)%Z && (byteZ c <=? 57)%Z
      then let '(id, n) := digits (wrap_u 64 (wrap_u 64 (id * 10) + (byteZ c - 48))) b in (id, S n)
      else (id, 0)
  | [] => (id, 0)
  end.
Fixpoint find_byte (c : ascii) (b : bytes) : option nat :=
  match b with [] => None | x :: b => if bool_decide (x = c) then Some 0 else S <$> find_byte c b end.
(** The text in brackets after the number, the bracket within thirty bytes. *)
Definition state_of (block : bytes) (i : nat) : span :=
  match find_byte "["%char (take 30 (drop i block)) with
  | None => nil_span
  | Some j => let start := i + j + 1 in mkSpan start (default (length block - start) (find_byte "]"%char (drop start block)))
  end.

Definition goroutine : bytes := str "goroutine ".
Record Block := mkBlock { b_id : Z; b_state : span; b_block : span }.
(** The block at the start of a buffer, if it is one, and where the rest starts. *)
Definition parseNextBlock (buf : bytes) : option Block * nat :=
  let '(whole, rest) := match Index buf separator with
                        | Some blockEnd => (take blockEnd buf, blockEnd + 2)
                        | None => (buf, length buf)
                        end in
  let s := trim whole in
  let block := cut whole s in
  (if length block <? 15 then None
   else if negb (HasPrefix block goroutine) then None
   else
     match digits 0 (drop 10 block) with
     | (_, 0) => None
     | (id, n) => Some (mkBlock id (shift (off s) (state_of block (10 + n))) s)
     end, rest).

(** The loop over the blocks; [base] is where [buf] starts. *)
Fixpoint parse_all (fuel base : nat) (buf : bytes) : res (list Block) :=
  match buf, fuel with
  | [], _ => Ret []
  | _, 0 => OutOfFuel
  | _, S fuel =>
      let '(b, rest) := parseNextBlock buf in
      bs ← parse_all fuel (base + rest) (drop rest buf);
      Ret match b with
          | Some b => mkBlock (b_id b) (shift base (b_state b)) (shift base (b_block b)) :: bs
          | None => bs
          end
  end.

(** * Buffers *)

(** [free]: the buffers in the pool. *)
Record Pool := mkPool { bufs : gmap nat bytes; free : list nat; fresh : nat }.
(** A string without a copy: a part of a buffer. *)
Record view := mkView { loc : nat; part : span }.
Definition buffer (p : Pool) (l : nat) : bytes := default [] (bufs p !! l).
Definition read (p : Pool) (v : view) : bytes := cut (buffer p (loc v)) (part v).

Definition NEW_SIZE : N := 2 ^ 20.
Definition make (n : nat) (p : Pool) : nat * Pool :=
  (fresh p, p <| bufs ::= <[fresh p := replicate n zero]> |> <| fresh ::= S |>).
(** [sync.Pool]: any of its buffers, [choice] says which, or a new one. *)
Definition Get (choice : nat) (p : Pool) : nat * Pool :=
  match free p !! choice with
  | Some l => (l, p <| free ::= fun f => take choice f ++ drop (S choice) f |>)
  | None => make (N.to_nat NEW_SIZE) p
  end.
Definition PutBack (l : nat) (p : Pool) : Pool := p <| free ::= cons l |>.
(** [runtime.Stack(buf, true)]: the length of what is written. *)
Definition Stack (dump : bytes) (l : nat) (p : Pool) : nat * Pool :=
  let buf := buffer p l in
  let n := length dump `min` length buf in
  (n, p <| bufs ::= <[l := take n dump ++ drop n buf]> |>).
Fixpoint capture (dumps : list bytes) (l : nat) (p : Pool) : res (nat * nat * Pool) :=
  match dumps with
  | [] => OutOfFuel
  | dump :: dumps =>
      let size := length (buffer p l) in
      let '(n, p) := Stack dump l p in
      if n <? size then Ret (l, n, p)
      else let '(l, p) := make (2 * size) p in capture dumps l p
  end.
Definition captureAllStacks (choice : nat) (dumps : list bytes) (p : Pool) : res (nat * nat * Pool) :=
  let '(l, p) := Get choice p in capture dumps l p.

(** What is made of each block, when the buffer goes back to the pool. *)
Definition collect {A} (f : bytes -> nat -> Block -> A) (choice : nat) (dumps : list bytes) (p : Pool) : res (list A * Pool) :=
  r ← captureAllStacks choice dumps p;
  let l := r.1.1 in
  let buf := take r.1.2 (buffer r.2 l) in
  bs ← parse_all (length buf) 0 buf;
  Ret (map (f buf l) bs, PutBack l r.2).
(** The callback gets the id and two strings that are parts of the buffer. *)
Definition CollectGoroutineStacksCallback : nat -> list bytes -> Pool -> res (list (Z * view * view) * Pool) :=
  collect (fun _ l b => (b_id b, mkView l (b_state b), mkView l (b_block b))).
Record GoroutineInfo := mkInfo { ID : Z; State : bytes; StackText : bytes }.
(** The strings are copied. *)
Definition CollectGoroutineStacksSlice : nat -> list bytes -> Pool -> res (list GoroutineInfo * Pool) :=
  collect (fun buf _ b => mkInfo (b_id b) (cut buf (b_state b)) (cut buf (b_block b))).
(** By id: the last block of an id stays. *)
Definition CollectGoroutineStacks (choice : nat) (dumps : list bytes) (p : Pool) : res (gmap Z GoroutineInfo * Pool) :=
  r ← CollectGoroutineStacksSlice choice dumps p;
  Ret (foldl (fun m i => <[ID i := i]> m) ∅ r.1, r.2).

(** * A dump is read block by block *)

Record Goroutine := mkGo { g_id : N; g_state : bytes; g_frames : bytes }.
Definition block_text (g : Goroutine) : bytes :=
  goroutine ++ str (pretty (g_id g)) ++ str " [" ++ g_state g ++ str "]:" ++ g_frames g.
(** What [runtime.Stack] writes. *)
Fixpoint dump_text (gs : list Goroutine) : bytes :=
  match gs with
  | [] => []
  | [g] => block_text g ++ [newline]
  | g :: gs => block_text g ++ separator ++ dump_text gs
  end.
(** No blank line in a block, no white space at its end, a number of 64 bits. *)
Definition proper (g : Goroutine) : Prop :=
  (Z.of_N (g_id g) < 2 ^ 64)%Z /\ "]"%char ∉ g_state g /\ Index (block_text g) separator = None /\
  match last (block_text g) with Some c => white c = false | None => False end.

Lemma rev_last_lead b c : last b = Some c -> white c = false -> lead (rev b) = 0.
Proof.
  intros H Hw. destruct b as [|a b _] using rev_ind; [done|]. rewrite last_snoc in H. injection H as ->.
  rewrite rev_app_distr. simpl. by rewrite Hw.
Qed.
Lemma digits_read s : forall acc z t, (0 <= acc)%Z -> parse_dec acc s = Some z -> (z < 2 ^ 64)%Z ->
  (forall c, head t = Some c -> (48 <=? byteZ c)%Z && (byteZ c <=? 57)%Z = false) ->
  (acc <= z)%Z /\ digits acc (s ++ t) = (z, length s).
Proof.
  induction s as [|c s IH]; intros acc z t Ha Hp Hz Ht; simpl in *.
  - injection Hp as ->. split; [lia|]. destruct t as [|c t]; [done|]. simpl. by rewrite Ht.
  - destruct ((48 <=? byteZ c)%Z && (byteZ c <=? 57)%Z) eqn:Ec; [|done].
    apply andb_true_iff in Ec as [Ec1%Z.leb_le Ec2%Z.leb_le].
    destruct (IH (acc * 10 + (byteZ c - 48))%Z z t) as [H1 H2]; [lia|done..|].
    assert (wrap_u 64 (wrap_u 64 (acc * 10) + (byteZ c - 48)) = (acc * 10 + (byteZ c - 48)))%Z as ->.
    { unfold wrap_u. rewrite (Z.mod_small (acc * 10)), Z.mod_small by lia. done. }
    rewrite H2. split; [lia|done].
Qed.
Lemma find_byte_app c s t : c ∉ s -> find_byte c (s ++ c :: t) = Some (length s).
Proof.
  induction s as [|a s IH]; intros H; simpl; [by rewrite bool_decide_true|].
  apply not_elem_of_cons in H as [Hc Hs]. by rewrite bool_decide_false, IH.
Qed.

(** The first blank line after a text that has none and does not end a line. *)
Lemma Index_separator s t : Index s separator = None -> (forall c, last s = Some c -> c <> newline) ->
  Index (s ++ separator ++ t) separator = Some (length s).
Proof.
  unfold separator. induction s as [|a s IH]; intros Hs Hl; [done|].
  assert (Index s [newline; newline] = None /\ HasPrefix (a :: s) [newline; newline] = false) as [H1 H2].
  { cbn [Index] in Hs. destruct (HasPrefix (a :: s) _); [done|]. split; [|done]. by destruct (Index s _). }
  cbn [app Index]. assert (HasPrefix (a :: s ++ newline :: newline :: t) [newline; newline] = false) as ->.
  { cbn [HasPrefix] in *. destruct (bool_decide_reflect (newline = a)) as [<-|]; [|done]. cbn [andb] in *.
    destruct s as [|b s]; [by specialize (Hl newline eq_refl)|]. cbn [app HasPrefix] in *. by rewrite andb_true_r in *. }
  cbn [app] in IH. rewrite IH; [done|done|]. intros c Hc. apply Hl. destruct s; [done|]. exact Hc.
Qed.
Lemma Index_newline s : Index s separator = None -> (forall c, last s = Some c -> c <> newline) ->
  Index (s ++ [newline]) separator = None.
Proof.
  unfold separator. induction s as [|a s IH]; intros Hs Hl; [done|].
  assert (Index s [newline; newline] = None /\ HasPrefix (a :: s) [newline; newline] = false) as [H1 H2].
  { cbn [Index] in Hs. destruct (HasPrefix (a :: s) _); [done|]. split; [|done]. by destruct (Index s _). }
  cbn [app Index]. assert (HasPrefix (a :: s ++ [newline]) [newline; newline] = false) as ->.
  { cbn [HasPrefix] in *. destruct (bool_decide_reflect (newline = a)) as [<-|]; [|done]. cbn [andb] in *.
    destruct s as [|b s]; [by specialize (Hl newline eq_refl)|]. cbn [app HasPrefix] in *. by rewrite andb_true_r in *. }
  rewrite IH; [done|done|]. intros c Hc. apply Hl. destruct s; [done|]. exact Hc.
Qed.

Lemma white_newline : white newline = true.
Proof. by vm_compute. Qed.
Lemma proper_last g c : proper g -> last (block_text g) = Some c -> white c = false /\ c <> newline.
Proof.
  intros (_ & _ & _ & H) Hc. rewrite Hc in H. split; [done|]. intros ->. by rewrite white_newline in H.
Qed.
(** A block with no white space before it, and only white space after it. *)
Lemma trim_block g t : proper g -> Forall (fun c => white c = true) t ->
  trim (block_text g ++ t) = mkSpan 0 (length (block_text g)).
Proof.
  intros Hg Ht. unfold trim. assert (lead (block_text g ++ t) = 0) as -> by done. rewrite drop_0, rev_app_distr.
  assert (lead (rev t ++ rev (block_text g)) = length t) as ->.
  { rewrite <- length_rev. assert (Forall (fun c => white c = true) (rev t)) as Hr.
    { rewrite Forall_forall in *. intros c Hc. apply Ht. by rewrite list_elem_of_In, in_rev, <- list_elem_of_In. }
    induction Hr as [|c r Hc _ IH]; cbn [app lead length]; [|by rewrite Hc, IH].
    destruct (last (block_text g)) as [c|] eqn:E; [|by destruct Hg as (_ & _ & _ & H); rewrite E in H].
    apply (rev_last_lead _ c E). by apply (proper_last g). }
  rewrite length_app. f_equal. lia.
Qed.

Definition info_of (g : Goroutine) : GoroutineInfo := mkInfo (Z.of_N (g_id g)) (g_state g) (block_text g).
Definition read_block (buf : bytes) (b : Block) : GoroutineInfo := mkInfo (b_id b) (cut buf (b_state b)) (cut buf (b_block b)).
(** What is found in a block. *)
Definition block_of (g : Goroutine) : Block :=
  let n := length (str (pretty (g_id g))) in
  mkBlock (Z.of_N (g_id g)) (mkSpan (10 + n + 2) (length (g_state g))) (mkSpan 0 (length (block_text g))).
(** The block [g] at the start of a buffer, up to [rest]. *)
Lemma parse_block g t buf rest : proper g -> Forall (fun c => white c = true) t ->
  (Index buf separator = None /\ buf = block_text g ++ t /\ rest = length buf) \/
  (t = [] /\ Index buf separator = Some (length (block_text g)) /\ take (length (block_text g)) buf = block_text g /\
   rest = length (block_text g) + 2) ->
  parseNextBlock buf = (Some (block_of g), rest).
Proof.
  intros Hg Ht Hbuf. unfold parseNextBlock.
  assert (exists t', Forall (fun c => white c = true) t' /\
    match Index buf separator with Some e => (take e buf, e + 2) | None => (buf, length buf) end = (block_text g ++ t', rest)) as (t' & Ht' & ->).
  { destruct Hbuf as [(-> & E & ->)|(-> & -> & -> & ->)]; [by exists t; rewrite <- E|].
    exists []. by rewrite app_nil_r. }
  rewrite trim_block by done. unfold cut. cbn [off len]. rewrite drop_0, take_app_length.
  set (n := length (str (pretty (g_id g)))). destruct Hg as (Hid & Hst & _).
  assert (0 < n) as Hn. { unfold n. pose proof (pretty_nonempty (g_id g)) as H. destruct (pretty (g_id g)); [done|simpl; lia]. }
  assert (length (block_text g) <? 15 = false) as ->.
  { apply Nat.ltb_ge. unfold block_text. rewrite !length_app. fold n. simpl. lia. }
  assert (HasPrefix (block_text g) goroutine = true) as -> by (apply HasPrefix_spec; by eexists). cbn [negb].
  assert (drop 10 (block_text g) = str (pretty (g_id g)) ++ str " [" ++ g_state g ++ str "]:" ++ g_frames g) as -> by done.
  destruct (digits_read (str (pretty (g_id g))) 0 (Z.of_N (g_id g)) (str " [" ++ g_state g ++ str "]:" ++ g_frames g)) as [_ ->];
    [done|apply parse_dec_pretty|done|by intros c [= <-]|]. fold n.
  destruct n as [|n'] eqn:En; [lia|]. rewrite <- En. f_equal. f_equal. unfold block_of. fold n. rewrite En.
  f_equal. unfold shift, state_of. cbn [off len]. rewrite Nat.add_0_l.
  assert (drop (10 + S n') (block_text g) = str " [" ++ g_state g ++ str "]:" ++ g_frames g) as ->.
  { unfold block_text. rewrite app_assoc. replace (10 + S n') with (length (goroutine ++ str (pretty (g_id g)))) by (rewrite length_app; fold n; rewrite En; done).
    by rewrite drop_app_length. }
  assert (find_byte "["%char (take 30 (str " [" ++ g_state g ++ str "]:" ++ g_frames g)) = Some 1) as -> by done.
  assert (drop (10 + S n' + 1 + 1) (block_text g) = g_state g ++ str "]:" ++ g_frames g) as ->.
  { unfold block_text. rewrite !(app_assoc goroutine), (app_assoc (goroutine ++ _)).
    replace (10 + S n' + 1 + 1) with (length ((goroutine ++ str (pretty (g_id g))) ++ str " [")) by (rewrite !length_app; fold n; rewrite En; simpl; lia).
    by rewrite drop_app_length. }
  change (str "]:" ++ g_frames g) with ("]"%char :: ":"%char :: g_frames g). rewrite find_byte_app by done. cbn [default from_option id].
  cbn [off len]. f_equal. lia.
Qed.

(** ** The loop *)

Lemma Index_lt buf n : Index buf separator = Some n -> n + 2 <= length buf.
Proof. intros H%Index_Some. simpl in H. lia. Qed.
Lemma parse_rest buf b rest : buf <> [] -> parseNextBlock buf = (b, rest) -> 0 < rest <= length buf.
Proof.
  unfold parseNextBlock. intros Hne H. destruct (Index buf separator) as [n|] eqn:E.
  - apply Index_lt in E. injection H as _ <-. lia.
  - injection H as _ <-. destruct buf; [done|simpl; lia].
Qed.
(** Enough fuel; every string lies in the buffer; and there are no more blocks than
    [countBlocks] says. *)
Definition inside (n : nat) (s : span) : Prop := off s + len s <= n.
Lemma lead_le b : lead b <= length b.
Proof. induction b as [|c b IH]; simpl; [lia|]. destruct (white c); simpl; lia. Qed.
Lemma digits_le b : forall id, (digits id b).2 <= length b.
Proof.
  induction b as [|c b IH]; intros id; simpl; [lia|]. destruct (_ && _); [|simpl; lia].
  specialize (IH (wrap_u 64 (wrap_u 64 (id * 10) + (byteZ c - 48)))). destruct (digits _ b). simpl in *. lia.
Qed.
Lemma find_byte_lt c b n : find_byte c b = Some n -> n < length b.
Proof.
  revert n. induction b as [|x b IH]; intros n; simpl; [done|]. case_bool_decide; [intros [= <-]; lia|].
  destruct (find_byte c b) as [m|]; [|done]. intros [= <-]. specialize (IH m eq_refl). lia.
Qed.
Lemma state_inside block i : i <= length block -> inside (length block) (state_of block i).
Proof.
  intros Hi. unfold state_of, inside. destruct (find_byte "["%char _) as [j|] eqn:E; [|simpl; lia].
  apply find_byte_lt in E. rewrite length_take, length_drop in E. cbn [off len].
  destruct (find_byte "]"%char _) as [e|] eqn:Ee; cbn [default from_option id]; [|lia].
  apply find_byte_lt in Ee. rewrite length_drop in Ee. lia.
Qed.
Lemma parse_inside buf b rest : parseNextBlock buf = (Some b, rest) ->
  inside (length buf) (b_state b) /\ inside (length buf) (b_block b).
Proof.
  unfold parseNextBlock. intros H.
  assert (exists whole, length whole <= length buf /\
    match Index buf separator with Some e => (take e buf, e + 2) | None => (buf, length buf) end = (whole, rest)) as (whole & Hw & E).
  { destruct (Index buf separator) as [e|]; injection H as _ <-; eexists; (split; [|reflexivity]); [rewrite length_take|]; lia. }
  rewrite E in H. injection H as H. set (s := trim whole) in *. pose proof (lead_le whole).
  assert (off s + len s <= length whole) as Hs by (unfold s, trim; simpl; rewrite length_drop; lia).
  assert (length (cut whole s) = len s) as Hc by (unfold cut; rewrite length_take, length_drop; lia).
  destruct (_ <? 15); [done|]. destruct (negb _); [done|].
  destruct (digits 0 (drop 10 (cut whole s))) as [id [|n]] eqn:Ed; [done|]. injection H as <-. cbn [b_state b_block].
  pose proof (digits_le (drop 10 (cut whole s)) 0) as Hd. rewrite Ed, length_drop, Hc in Hd. cbn [snd] in Hd.
  split; [|unfold inside; lia].
  assert (forall st, inside (len s) st -> inside (length buf) (shift (off s) st)) as Hsh.
  { unfold inside, shift. cbn [off len]. intros st Hst. lia. }
  apply Hsh. rewrite <- Hc. apply state_inside. lia.
Qed.

Lemma parse_all_total fuel : forall base buf, length buf <= fuel -> exists bs, parse_all fuel base buf = Ret bs /\
  Forall (fun b => inside (base + length buf) (b_state b) /\ inside (base + length buf) (b_block b)) bs.
Proof.
  induction fuel as [|fuel IH]; intros base buf Hf; (destruct buf as [|c buf]; [exists []; split; [done|constructor]|]); [simpl in Hf; lia|].
  cbn [parse_all]. destruct (parseNextBlock (c :: buf)) as [b rest] eqn:E.
  pose proof (parse_rest (c :: buf) _ _ ltac:(done) E) as Hr.
  destruct (IH (base + rest) (drop rest (c :: buf))) as (bs & Ebs & Hbs); [rewrite length_drop; lia|]. rewrite Ebs. cbn [mbind res_bind].
  assert (base + rest + length (drop rest (c :: buf)) = base + length (c :: buf)) as El by (rewrite length_drop; lia). rewrite El in Hbs.
  destruct b as [b|]; [|by exists bs]. eexists. split; [done|]. constructor; [|done].
  destruct (parse_inside _ _ _ E) as [H1 H2]. unfold inside, shift in *. cbn [b_state b_block off len]. lia.
Qed.
(** Every blank line ends at most one block. *)
Lemma count_Index buf n : Index buf separator = Some n -> S (count_from (drop (n + 2) buf)) <= count_from buf.
Proof.
  unfold separator. revert n. induction buf as [|a buf IH]; intros n; [done|]. cbn [Index].
  destruct buf as [|b buf]; [simpl; destruct (bool_decide _); done|].
  destruct (HasPrefix (a :: b :: buf) [newline; newline]) eqn:E.
  - intros [= <-]. cbn [HasPrefix] in E. rewrite andb_true_r in E. apply andb_true_iff in E as [E1%bool_decide_eq_true E2%bool_decide_eq_true].
    subst a b. cbn [count_from]. rewrite bool_decide_true by done. change (drop (0 + 2) (newline :: newline :: buf)) with buf. lia.
  - destruct (Index (b :: buf) [newline; newline]) as [m|] eqn:Em; [|done]. intros [= <-]. specialize (IH m eq_refl).
    cbn [count_from]. rewrite bool_decide_false.
    + cbn [Nat.add]. change (drop (S (m + 2)) (a :: b :: buf)) with (drop (m + 2) (b :: buf)). exact IH.
    + intros [-> ->]. cbn [HasPrefix] in E. by rewrite !bool_decide_true in E.
Qed.
Lemma parse_all_count fuel : forall base buf bs, parse_all fuel base buf = Ret bs -> length bs <= countBlocks buf.
Proof.
  induction fuel as [|fuel IH]; intros base buf bs H; (destruct buf as [|c buf]; [injection H as <-; simpl; lia|]); [done|].
  cbn [parse_all] in H. destruct (parseNextBlock (c :: buf)) as [b rest] eqn:E.
  destruct (parse_all fuel (base + rest) (drop rest (c :: buf))) as [bs'| |] eqn:Ebs; [|done..]. injection H as <-.
  specialize (IH _ _ _ Ebs). assert (length bs' <= count_from (c :: buf)) as Hle.
  { unfold parseNextBlock in E. destruct (Index (c :: buf) separator) as [n|] eqn:En.
    - injection E as _ <-. apply count_Index in En. unfold countBlocks in IH. lia.
    - injection E as _ <-. assert (drop (S (length buf)) (c :: buf) = []) as Ed by (apply drop_ge; simpl; lia). 
      change (length (c :: buf)) with (S (length buf)) in Ebs. rewrite Ed in Ebs. destruct fuel; injection Ebs as <-; simpl; lia. }
  unfold countBlocks. destruct b; cbn [length]; lia.
Qed.

Lemma dump_text_cons g g' gs : dump_text (g :: g' :: gs) = block_text g ++ separator ++ dump_text (g' :: gs).
Proof. reflexivity. Qed.
Lemma proper_no_newline g : proper g -> forall c, last (block_text g) = Some c -> c <> newline.
Proof. intros Hg c Hc. by apply (proper_last g c). Qed.
Lemma cut_shift pre buf s : cut (pre ++ buf) (shift (length pre) s) = cut buf s.
Proof. unfold cut, shift. cbn [off len]. by rewrite <- drop_drop, drop_app_length. Qed.
Lemma cut_short buf t s : inside (length buf) s -> cut (buf ++ t) s = cut buf s.
Proof.
  unfold cut, inside. intros H. rewrite drop_app_le by lia. rewrite take_app_le; [done|]. rewrite length_drop. lia.
Qed.
Lemma read_block_of g t : proper g -> read_block (block_text g ++ t) (block_of g) = info_of g.
Proof.
  intros Hg. unfold read_block, block_of, info_of. cbn [b_id b_state b_block]. set (n := length (str (pretty (g_id g)))).
  f_equal; unfold cut; cbn [off len].
  - unfold block_text. assert (10 + n + 2 = length (goroutine ++ str (pretty (g_id g)) ++ str " [")) as ->.
    { rewrite !length_app. fold n. simpl. lia. }
    replace ((goroutine ++ str (pretty (g_id g)) ++ str " [" ++ g_state g ++ str "]:" ++ g_frames g) ++ t)
      with ((goroutine ++ str (pretty (g_id g)) ++ str " [") ++ g_state g ++ str "]:" ++ g_frames g ++ t) by (by rewrite <- !app_assoc).
    by rewrite drop_app_length, take_app_length.
  - by rewrite drop_0, take_app_length.
Qed.
(** The blocks of a dump, read from a buffer that has it after [pre]. *)
Lemma parse_dump gs : Forall proper gs -> forall fuel pre, length (dump_text gs) <= fuel -> exists bs,
  parse_all fuel (length pre) (dump_text gs) = Ret bs /\ map (read_block (pre ++ dump_text gs)) bs = map info_of gs.
Proof.
  induction 1 as [|g gs Hg Hgs IH]; intros fuel pre Hf; [exists []; by destruct fuel|].
  destruct fuel as [|fuel]; [exfalso; destruct gs; simpl in Hf; lia|]. destruct gs as [|g' gs].
  - cbn [dump_text]. assert (parseNextBlock (block_text g ++ [newline]) = (Some (block_of g), length (block_text g ++ [newline]))) as E.
    { apply (parse_block g [newline]); [done|by repeat constructor|]. left. split; [|done].
      apply Index_newline; [apply Hg|by apply proper_no_newline]. }
    destruct (block_text g ++ [newline]) as [|c r] eqn:Er; [by destruct (block_text g)|]. cbn [parse_all]. rewrite E, <- Er.
    rewrite drop_ge by lia. exists [mkBlock (b_id (block_of g)) (shift (length pre) (b_state (block_of g))) (shift (length pre) (b_block (block_of g)))].
    split; [by destruct fuel|]. cbn [map]. f_equal. rewrite <- (read_block_of g [newline]) by done. unfold read_block. cbn [b_id b_state b_block].
    by rewrite !cut_shift.
  - rewrite dump_text_cons in *. set (rest := dump_text (g' :: gs)) in *.
    assert (parseNextBlock (block_text g ++ separator ++ rest) = (Some (block_of g), length (block_text g) + 2)) as E.
    { apply (parse_block g []); [done|constructor|]. right. split; [done|]. split; [|by rewrite take_app_length].
      apply Index_separator; [apply Hg|by apply proper_no_newline]. }
    destruct (IH fuel (pre ++ block_text g ++ separator)) as (bs & Ebs & Hbs); [rewrite !length_app in *; simpl in *; lia|].
    assert (drop (length (block_text g) + 2) (block_text g ++ separator ++ rest) = rest) as Ed.
    { by rewrite <- drop_drop, drop_app_length. }
    destruct (block_text g ++ separator ++ rest) as [|c r] eqn:Er; [by destruct (block_text g)|]. cbn [parse_all]. rewrite E, Ed, <- Er.
    rewrite !length_app in Ebs. change (length separator) with 2 in Ebs. rewrite Ebs. cbn [mbind res_bind].
    eexists. split; [done|]. change (map info_of (g :: g' :: gs)) with (info_of g :: map info_of (g' :: gs)). rewrite <- Hbs. cbn [map]. f_equal.
    + rewrite <- (read_block_of g (separator ++ rest)) by done. unfold read_block. cbn [b_id b_state b_block]. by rewrite !cut_shift.
    + f_equal. f_equal. by rewrite <- !app_assoc.
Qed.

(** ** Captures *)

(** The first dump that is shorter than the buffer, which doubles. *)
Fixpoint fitting (size : nat) (dumps : list bytes) : option bytes :=
  match dumps with
  | [] => None
  | d :: dumps => if length d <? size then Some d else fitting (2 * size) dumps
  end.
Lemma fitting_total dumps : forall size B,
  Forall (fun d => length d < B) dumps -> 0 < size -> B <= 2 ^ pred (length dumps) * size -> dumps <> [] ->
  is_Some (fitting size dumps).
Proof.
  induction dumps as [|d dumps IH]; intros size B HB Hs Hle Hne; [done|]. inversion HB as [|? ? Hd HB']; subst. cbn [fitting].
  destruct (Nat.ltb_spec (length d) size) as [|Hge]; [by eexists|]. destruct dumps as [|d' dumps].
  - simpl in Hle. lia.
  - apply (IH (2 * size) B); [done|lia| |done]. cbn [length pred] in *. rewrite Nat.pow_succ_r' in Hle. lia.
Qed.
Lemma buffer_insert p l b : buffer (p <| bufs ::= <[l := b]> |>) l = b.
Proof. unfold buffer. simpl. by rewrite lookup_insert_eq. Qed.
Lemma make_buffer n p l p' : make n p = (l, p') -> buffer p' l = replicate n zero.
Proof. intros [= <- <-]. unfold buffer. simpl. by rewrite lookup_insert_eq. Qed.
Lemma capture_fitting dumps : forall l p d, fitting (length (buffer p l)) dumps = Some d -> exists l' p',
  capture dumps l p = Ret (l', length d, p') /\ take (length d) (buffer p' l') = d.
Proof.
  induction dumps as [|d0 dumps IH]; intros l p d H; [done|]. cbn [fitting capture] in *. unfold Stack.
  destruct (Nat.ltb_spec (length d0) (length (buffer p l))) as [Hlt|Hge].
  - injection H as ->. rewrite Nat.min_l by lia. rewrite (proj2 (Nat.ltb_lt _ _) Hlt). 
    exists l, (p <| bufs ::= <[l := take (length d) d ++ drop (length d) (buffer p l)]> |>). split; [done|].
    rewrite buffer_insert, firstn_all. by rewrite take_app_length.
  - rewrite Nat.min_r by lia. rewrite Nat.ltb_irrefl. destruct (make _ _) as [l2 p2] eqn:Em. apply IH.
    by rewrite (make_buffer _ _ _ _ Em), length_replicate.
Qed.
Definition read_view (p : Pool) (v : Z * view * view) : GoroutineInfo := mkInfo v.1.1 (read p v.1.2) (read p v.2).
Lemma read_put p l v : read_view (PutBack l p) v = read_view p v.
Proof. done. Qed.
Lemma parse_all_inside n base buf bs : parse_all n base buf = Ret bs -> length buf <= n ->
  Forall (fun b => inside (base + length buf) (b_state b) /\ inside (base + length buf) (b_block b)) bs.
Proof. intros H Hn. destruct (parse_all_total n base buf Hn) as (bs' & E & Hbs). congruence. Qed.

(** C32. From a dump that fits, the collected stacks are those of the goroutines: their
    numbers, states and texts, in the order of the dump.  The strings that the callback
    gets read so too, as long as the buffers are left as they are. *)
Theorem stacks_exact choice dumps p gs :
  Forall proper gs ->
  let '(l, p0) := Get choice p in
  fitting (length (buffer p0 l)) dumps = Some (dump_text gs) ->
  exists vs p', CollectGoroutineStacksSlice choice dumps p = Ret (map info_of gs, p') /\
    CollectGoroutineStacksCallback choice dumps p = Ret (vs, p') /\ map (read_view p') vs = map info_of gs.
Proof.
  intros Hgs. destruct (Get choice p) as [l p0] eqn:Eg. intros Hf.
  destruct (capture_fitting _ _ _ _ Hf) as (l' & p' & Ec & Et).
  destruct (parse_dump gs Hgs (length (dump_text gs)) [] ltac:(lia)) as (bs & Ebs & Hbs). cbn [length app] in Ebs, Hbs.
  unfold CollectGoroutineStacksSlice, CollectGoroutineStacksCallback, collect, captureAllStacks. rewrite Eg, Ec.
  cbn [mbind res_bind fst snd]. rewrite Et, Ebs. cbn [mbind res_bind].
  eexists _, _. split; [by rewrite <- Hbs|]. split; [done|]. rewrite map_map, <- Hbs.
  pose proof (parse_all_inside _ _ _ _ Ebs ltac:(lia)) as Hin. apply map_ext_in. intros b Hb. apply list_elem_of_In in Hb.
  rewrite Forall_forall in Hin. destruct (Hin b Hb) as [H1 H2]. cbn [Nat.add] in H1, H2.
  unfold read_view, read_block, read. cbn [fst snd loc part]. change (buffer (PutBack l' p') l') with (buffer p' l').
  rewrite <- (take_drop (length (dump_text gs)) (buffer p' l')), Et. by rewrite !cut_short.
Qed.

(** The strings of the callback after another collection that takes the same buffer: they
    are cut from the other dump. *)
Lemma views_follow dumps p l d off_ len_ :
  head (free p) = Some l -> fitting (length (buffer p l)) [d] = Some d -> off_ + len_ <= length d ->
  exists r p', CollectGoroutineStacksSlice 0 (d :: dumps) p = Ret (r, p') /\
    read p' (mkView l (mkSpan off_ len_)) = cut d (mkSpan off_ len_).
Proof.
  intros Hl Hf Hin. cbn [fitting] in Hf. destruct (length d <? length (buffer p l)) eqn:E; [|done].
  unfold CollectGoroutineStacksSlice, collect, captureAllStacks, Get. destruct (free p) as [|l0 fr] eqn:Efr; [done|].
  injection Hl as ->. cbn [lookup list_lookup nth_error take drop app]. cbn [capture]. unfold Stack.
  assert (buffer (p <| free ::= fun f => take 0 f ++ drop 1 f |>) l = buffer p l) as Eb by done. rewrite Eb.
  pose proof (proj1 (Nat.ltb_lt _ _) E). rewrite Nat.min_l, E by lia. cbn [mbind res_bind fst snd]. rewrite firstn_all.
  set (p1 := _ <| bufs ::= _ |>).
  destruct (parse_all_total (length (take (length d) (buffer p1 l))) 0 (take (length d) (buffer p1 l)) ltac:(lia)) as (bs & -> & _).
  cbn [mbind res_bind]. eexists _, _. split; [done|]. unfold read. cbn [loc part].
  change (buffer (PutBack l p1) l) with (buffer p1 l).
  assert (buffer p1 l = d ++ drop (length d) (buffer p l)) as -> by apply buffer_insert. by apply cut_short.
Qed.

(** ** A concrete input *)

Module Sample.
Definition go1 : Goroutine := mkGo 1 (str "running") (newline :: str "main.main()").
Definition go2 : Goroutine := mkGo 18 (str "chan receive, 3 minutes") (newline :: str "net.poll()" ++ newline :: str "created by main").
Definition pool1 : Pool := mkPool {[0 := replicate 40 zero]} [0] 1.
(** The first buffer is too small for the dump and is doubled, twice. *)
Definition dumps1 : list bytes := replicate 3 (dump_text [go1; go2]).
Lemma stacks_exact_witness : exists vs p',
  CollectGoroutineStacksSlice 0 dumps1 pool1 = Ret ([info_of go1; info_of go2], p') /\
  CollectGoroutineStacksCallback 0 dumps1 pool1 = Ret (vs, p') /\ map (read_view p') vs = [info_of go1; info_of go2].
Proof.
  assert (forall g, g = go1 \/ g = go2 -> proper g) as Hp.
  { intros g [->| ->]; (split; [reflexivity|]; split; [by apply (bool_decide_unpack (_ ∉ _))|]; split; vm_compute; reflexivity). }
  apply (stacks_exact 0 dumps1 pool1 [go1; go2]).
  - constructor; [apply Hp; left; reflexivity|]. constructor; [apply Hp; right; reflexivity|constructor].
  - vm_compute. reflexivity.
Defined.

(** A string of one collection reads the text of the next one. *)
Lemma views_stale :
  match CollectGoroutineStacksCallback 0 [dump_text [go1]] (mkPool {[0 := replicate 80 zero]} [0] 1) with
  | Ret (vs, p1) =>
      match CollectGoroutineStacksSlice 0 [dump_text [go2]] p1 with
      | Ret (_, p2) =>
          StackText <$> (read_view p1 <$> vs) = [block_text go1] /\
          StackText <$> (read_view p2 <$> vs) = [take (length (block_text go1)) (block_text go2)]
      | _ => False
      end
  | _ => False
  end.
Proof. vm_compute. split; reflexivity. Qed.
End Sample.
