(* ===== verification/ActiveDump.v ===== *)
(** The stacks and the list of the running transactions:
    [src/agent/agent/active/ActiveStackDumpGo.go], [ActiveStackDump.go] and
    [ActiveStats.go].

    A running transaction is a context at a location, and the table gives the location of
    an id, as in TraceManager.v.  A round matches the goroutines of Stacks.v with the
    contexts by thread id; what it sends is kept in [out].  golib's keys, its zip pack and
    the compressor are parameters, and so is the [AddTail] of the collector in use. *)

From S2P Require Import Prelude Hmap UrlPattern TraceCtx TraceContext DataPack DataText CounterTasks Conf ConfFile LogPaths Logger LogRead TraceSamples Stacks.

Record ActiveStackPack := mkActiveStack {
  Time : Z; Seq : Z; a_ProfileSeq : Z; Service : Z; a_Elapsed : Z; CallStack : list Z; CallStackHash : Z
}.
Record ActiveStackStep := mkActiveStep { s_Seq : Z; HasCallstack : bool; s_StartTime : Z }.
Record ZipPack := mkZip {
  z_Pcode : Z; z_Oid : Z; z_Okind : Z; z_Onode : Z; z_Time : Z; Records : bytes; z_Status : Z
}.
(** golib's generator of keys (the n-th key), [SetRecords] and [DoZip]. *)
Class ActiveLib := { key_of : nat -> Z; SetRecords : list ActiveStackPack -> bytes; DoZip : bytes -> option bytes }.

(** What is sent. *)
Inductive sending := SentPack (p : ActiveStackPack) | SentZip (z : ZipPack).

(** A column or a field of a golib map. *)
Inductive cell := CLong (z : Z) | CText (t : bytes) | CTexts (l : list bytes).

Section Dump.
Context {LMz : LinkedMap Z} {SU : StringUtil} {CL : ConfLib} {TT : TextTypes} {RQ : RequestQueue} {UU : UrlUtil}
  {PC : IProfileCollector} {AL : ActiveLib}.
Abbreviation ctx_t := TraceContext.t.
Import TraceContext.
Variable AddTail : ActiveStackStep -> collector -> collector.
(** [PCODE] and [OID] of the security master. *)
Variables PCODE_ OID_ : Z.
Implicit Types (c : Config).

Record World := mkWorld {
  table : lmap nat; heap : gmap nat ctx_t; texts : DataText.t; keys : nat; out : list sending
}.
Definition put (s : sending) (w : World) : World := w <| out ::= fun o => o ++ [s] |>.

(** * A pack of a context and a stack *)

(** The counter and the step that the transaction keeps of it. *)
Definition mark (l : nat) (seq elapsed : Z) (w : World) : World :=
  w <| heap ::= alter (fun x => x <| ProfileActive ::= fun n => int32 (n + 1) |>
                                  <| Profile ::= AddTail (mkActiveStep seq true elapsed) |>) l |>.
Definition new_pack (now : Z) (ctx : ctx_t) (seq : Z) : ActiveStackPack :=
  mkActiveStack now seq (ProfileSeq ctx) (ServiceHash ctx) (int32 (now - StartTime ctx)) [] 0.
(** One line of the stack, whose text is sent. *)
Definition add_line (pt : ActiveStackPack * DataText.t) (line : bytes) : ActiveStackPack * DataText.t :=
  let h := HashStr line in
  (pt.1 <| CallStack ::= fun s => s ++ [h] |> <| CallStackHash ::= fun x => Z.lxor x h |>,
   SendHashText pt.2 TEXT_STACK_ELEMENTS h line).
(** [math.Min(float64(len(se)), float64(conf.TraceActiveCallstackDepth))] *)
Definition depth_of c (se : list bytes) : float64 :=
  math_Min (f64_of_Z (Z.of_nat (length se))) (f64_of_Z (the TraceActiveCallstackDepth c)).
(** The lines of the pack; [order] is how they are taken.  A negative depth is a panic,
    after the transaction is marked. *)
Definition fill (order : list bytes -> list bytes) (now : Z) c (l : nat) (ctx : ctx_t) (s : bytes) (w : World) :
    World * res ActiveStackPack :=
  let p := new_pack now ctx (key_of (keys w)) in
  let w := mark l (Seq p) (a_Elapsed p) (w <| keys ::= S |>) in
  let se := Tokenizer s [newline] in
  let max := depth_of c se in
  if (f64_to_int32 max <? 0)%Z then (w, Panic)
  else
    let '(p, t) := foldl add_line (p, texts w) (order (take (Z.to_nat (f64_to_int64 max)) se)) in
    (w <| texts := t |>, Ret p).
Definition CreateActiveStackPack : Z -> Config -> nat -> ctx_t -> bytes -> World -> World * res ActiveStackPack := fill (fun ls => ls).
(** The lines are turned round but for PHP. *)
Definition SendActiveStack (now : Z) c (txId : Z) (s : bytes) (w : World) : World * res unit :=
  match lm_get (table w) txId with
  | None => (w, Ret tt)
  | Some l =>
      match heap w !! l with
      | None => (w, Ret tt)
      | Some ctx =>
          let php := bool_decide (the AppType c ∈ [APP_TYPE_PHP; APP_TYPE_BSM_PHP]) in
          let '(w, r) := fill (if php then fun ls => ls else @rev bytes) now c l ctx s w in
          match r with Ret p => (put (SentPack p) w, Ret tt) | Panic => (w, Panic) | OutOfFuel => (w, OutOfFuel) end
      end
  end.

(** * A round *)

Definition SendActiveStackPack (p : ActiveStackPack) (w : World) : World := put (SentPack p) w.
(** A pack that cannot be compressed is not sent. *)
Definition SendActiveStackZip (now : Z) c (packs : list ActiveStackPack) (w : World) : World :=
  match packs with
  | [] => w
  | _ =>
      match DoZip (SetRecords packs) with
      | Some z => put (SentZip (mkZip PCODE_ OID_ (the OKIND c) (the ONODE c) now z 1)) w
      | None => w
      end
  end.
Definition stack_map (vs : list (Z * view * view)) : gmap Z view := foldl (fun m v => <[v.1.1 := v.2]> m) ∅ vs.
(** The stack of the goroutine of a context. *)
Definition stack_of (m : gmap Z view) (p : Pool) (ctx : ctx_t) : bytes :=
  match m !! wrap_u 64 (ThreadId ctx) with Some v => read p v | None => [] end.
(** [packs]: those that wait to be zipped; [None] when they are sent one by one. *)
Fixpoint dump_all (now : Z) c (m : gmap Z view) (p : Pool) (maxCount : Z) (en : list nat) (sent : Z)
    (packs : option (list ActiveStackPack)) (w : World) : World * res (option (list ActiveStackPack)) :=
  match en with
  | [] => (w, Ret packs)
  | l :: en =>
      if (sent <? maxCount)%Z then
        match heap w !! l with
        | None => dump_all now c m p maxCount en sent packs w
        | Some ctx =>
            match stack_of m p ctx with
            | [] => dump_all now c m p maxCount en sent packs w
            | stack =>
                let '(w, r) := CreateActiveStackPack now c l ctx stack w in
                match r with
                | Ret a =>
                    match packs with
                    | Some ps =>
                        let ps := ps ++ [a] in
                        if 30 <=? length ps
                        then dump_all now c m p maxCount en (sent + 1) (Some []) (SendActiveStackZip now c ps w)
                        else dump_all now c m p maxCount en (sent + 1) (Some ps) w
                    | None => dump_all now c m p maxCount en (sent + 1) None (SendActiveStackPack a w)
                    end
                | Panic => (w, Panic)
                | OutOfFuel => (w, OutOfFuel)
                end
            end
        end
      else (w, Ret packs)
  end.
Definition send_rest (now : Z) c (packs : option (list ActiveStackPack)) (w : World) : World :=
  match packs with
  | None | Some [] => w
  | Some [a] => SendActiveStackPack a w
  | Some ps => SendActiveStackZip now c ps w
  end.
Definition max_count c : Z := if (the ActiveStackCount c <=? 0)%Z then 100 else the ActiveStackCount c.
(** [en]: the locations in the order of the enumeration. *)
Definition send_stacks (now : Z) c (m : gmap Z view) (p : Pool) (en : list nat) (w : World) : World * res unit :=
  if bool_decide (m = ∅) then (w, Ret tt)
  else
    let packs := if (the ActiveStackZipEnabled c : bool) then Some [] else None in
    match dump_all now c m p (max_count c) en 0 packs w with
    | (w, Ret packs) => (send_rest now c packs w, Ret tt)
    | (w, Panic) => (w, Panic)
    | (w, OutOfFuel) => (w, OutOfFuel)
    end.
Definition process (now : Z) c (choice : nat) (dumps : list bytes) (p : Pool) (en : list nat) (w : World) :
    res (World * res unit * Pool) :=
  r ← CollectGoroutineStacksCallback choice dumps p;
  Ret (send_stacks now c (stack_map r.1) r.2 en w, r.2).
(** [run]: the wait, and a round, whose panics are ignored. *)
Definition interval c : Z := if (the ActiveStackSecond c <? 2)%Z then 2 else the ActiveStackSecond c.
Definition run_once (now : Z) c (choice : nat) (dumps : list bytes) (p : Pool) (en : list nat) (w : World) : res (World * Pool) :=
  if (the ActiveStackEnabled c : bool) then r ← process now c choice dumps p en w; Ret (r.1.1, r.2) else Ret (w, p).

(** * The list of transactions *)

(** The columns in their order, and what a context has in each. *)
Definition columns (now : Z) : list (bytes * (ctx_t -> cell)) :=
  [(str "time", fun _ => CLong now);
   (str "tx_hash", fun x => CLong (ServiceHash x));
   (str "tx_name", fun x => CText (ServiceName x));
   (str "profile", fun x => CLong (ProfileSeq x));
   (str "ip", fun x => CLong (RemoteIp x));
   (str "userid", fun x => CLong (WClientId x));
   (str "wclientId", fun x => CLong (WClientId x));
   (str "elapsed", fun x => CLong (int64 (now - StartTime x)));
   (str "cputime", fun x => CLong (let t := int64 (EndCpu x - StartCpu x) in if (t <? 0)%Z then 0 else t));
   (str "malloc", fun x => CLong (int64 (EndMalloc x - StartMalloc x)));
   (str "sqlCount", fun x => CLong (SqlCount x));
   (str "sqlTime", fun x => CLong (SqlTime x));
   (str "httpcCount", fun x => CLong (HttpcCount x));
   (str "httpcTime", fun x => CLong (HttpcTime x));
   (str "threadId", fun x => CLong (ThreadId x));
   (str "act_dbc", fun x => CLong (ActiveDbc x));
   (str "act_sql", fun x => CLong (ActiveSqlhash x));
   (str "act_httpc", fun x => CLong (ActiveHttpcHash x))].
Definition GetActiveTxList (now : Z) (en : list nat) (w : World) : list (bytes * list cell) :=
  (fun col => (col.1, col.2 <$> omap (fun l => heap w !! l) en)) <$> columns now.

(** [if cond { put }] *)
Definition put_when (b : bool) (kvs : list (bytes * cell)) (m : list (bytes * cell)) : list (bytes * cell) :=
  if b then foldl (fun m kv => map_put m kv.1 kv.2) m kvs else m.
Definition detail (now : Z) (x : ctx_t) (threadStack : bytes) : list (bytes * cell) :=
  let act := [(str "act_dbc", CLong (ActiveDbc x)); (str "act_sql", CLong (ActiveSqlhash x))] in
  let se := SplitByte newline threadStack in
  put_when (1 <? length se) [(str "callstack", CTexts se)] $
  put_when (negb (Mtid x =? 0)%Z) [(str "mtid", CLong (Mtid x)); (str "mdepth", CLong (Mdepth x));
    (str "mcaller", CLong (McallerTxid x)); (str "mcaller_pcode", CLong (McallerPcode x))] $
  put_when true [(str "method", CText (HttpMethod x))] $
  put_when (negb (ActiveHttpcHash x =? 0)%Z) [(str "act_httpc", CLong (ActiveHttpcHash x))] $
  put_when (negb (ActiveSqlhash x =? 0)%Z) act $
  put_when (negb (ActiveSqlhash x =? 0)%Z) act $
  put_when (nonempty (HttpcUrl x)) [(str "httpURL", CText (HttpcUrl x))] $
  put_when (nonempty (HttpContentType x)) [(str "httpContentType", CText (HttpContentType x))] $
  put_when (nonempty (HttpHost x)) [(str "httpHost", CText (HttpHost x))] $
  put_when true
    [(str "time", CLong now); (str "tx_hash", CLong (ServiceHash x)); (str "tx_name", CText (ServiceName x));
     (str "profile", CLong (ProfileSeq x)); (str "ip", CLong (RemoteIp x)); (str "userid", CLong (WClientId x));
     (str "wclientId", CLong (WClientId x)); (str "elapsed", CLong (int64 (now - StartTime x)));
     (str "cputime", CLong (int64 (EndCpu x - StartCpu x))); (str "malloc", CLong (int64 (EndMalloc x - StartMalloc x)));
     (str "sqlCount", CLong (SqlCount x)); (str "sqlTime", CLong (SqlTime x)); (str "fetchCount", CLong (FetchCount x));
     (str "fetchTime", CLong (FetchTime x)); (str "httpcCount", CLong (HttpcCount x)); (str "httpcTime", CLong (HttpcTime x));
     (str "threadId", CLong (ThreadId x)); (str "threadStat", CLong 0)] [].
Definition GetCurrentStackDetail (now txId : Z) (threadStack : bytes) (w : World) : list (bytes * cell) :=
  match (l ← lm_get (table w) txId; heap w !! l) with
  | Some x => if (ProfileSeq x =? txId)%Z then detail now x threadStack else []
  | None => []
  end.
End Dump.

(** * The counts of other processes *)

(** [receipts]: what the channel gives at each wait, [None] when the time is over; then the
    last counts received are still in the variable. *)
Fixpoint sum_stats (n : nat) (receipts : list (option (list Z))) (stats : list Z) (acc : list Z) : list Z :=
  match n with
  | 0 => acc
  | S n =>
      let '(r, receipts) := match receipts with r :: rs => (r, rs) | [] => (None, []) end in
      let stats := default stats r in
      sum_stats n receipts stats
        (if length stats =? 5 then zip_with (fun a b => wrap_s 16 (a + b)) acc stats else acc)
  end.
Definition GetActiveStats (instanceCount : Z) (receipts : list (option (list Z))) : option (list Z) :=
  if (instanceCount <? 1)%Z then None else Some (sum_stats (Z.to_nat instanceCount) receipts [] [0; 0; 0; 0; 0]%Z).
(** A time that is over counts the counts before it once more. *)
Lemma GetActiveStats_stale : GetActiveStats 2 [Some [1; 2; 3; 4; 5]%Z; None] = Some [2; 4; 6; 8; 10]%Z.
Proof. reflexivity. Qed.

(** * What a round sends *)

Section Facts.
Context {LMz : LinkedMap Z} {SU : StringUtil} {CL : ConfLib} {TT : TextTypes} {RQ : RequestQueue} {UU : UrlUtil}
  {PC : IProfileCollector} {AL : ActiveLib}.
#[local] Abbreviation ctx_t := TraceContext.t.
Import TraceContext.
Variable AddTail : ActiveStackStep -> collector -> collector.
Variables PCODE_ OID_ : Z.
Implicit Types (c : Config) (w : World).

(** The lines of a stack that are kept, and the pack of them. *)
Definition lines_of c (stack : bytes) : list bytes :=
  take (Z.to_nat (the TraceActiveCallstackDepth c)) (Tokenizer stack [newline]).
Definition pack_of (now : Z) (seq : Z) (ctx : ctx_t) (lines : list bytes) : ActiveStackPack :=
  mkActiveStack now seq (ProfileSeq ctx) (ServiceHash ctx) (int32 (now - StartTime ctx)) (HashStr <$> lines)
    (foldl (fun x line => Z.lxor x (HashStr line)) 0%Z lines).
Definition send_texts (t : DataText.t) (lines : list bytes) : DataText.t :=
  foldl (fun t line => SendHashText t TEXT_STACK_ELEMENTS (HashStr line) line) t lines.
Lemma add_lines_spec lines : forall p t, foldl add_line (p, t) lines =
  (p <| CallStack ::= fun s => s ++ (HashStr <$> lines) |>
     <| CallStackHash ::= fun x => foldl (fun x line => Z.lxor x (HashStr line)) x lines |>, send_texts t lines).
Proof.
  induction lines as [|line lines IH]; intros p t; cbn [foldl].
  - destruct p. simpl. by rewrite app_nil_r.
  - unfold add_line at 2. cbn [fst snd]. rewrite IH. simpl. by rewrite <- app_assoc.
Qed.

Definition usable_depth c : Prop := (0 <= the TraceActiveCallstackDepth c < 2 ^ 31)%Z.
Definition usable_stack (stack : bytes) : Prop := (Z.of_nat (length (Tokenizer stack [newline])) < 2 ^ 31)%Z.
Lemma fill_pack now c l ctx s w : usable_depth c -> usable_stack s ->
  CreateActiveStackPack AddTail now c l ctx s w =
    ((mark AddTail l (key_of (keys w)) (int32 (now - StartTime ctx)) (w <| keys ::= S |>)) <| texts := send_texts (texts w) (lines_of c s) |>,
     Ret (pack_of now (key_of (keys w)) ctx (lines_of c s))).
Proof.
  unfold usable_depth, usable_stack. intros Hd Hs. unfold CreateActiveStackPack, fill, depth_of.
  set (n := Z.of_nat (length (Tokenizer s [newline]))) in *. set (d := the TraceActiveCallstackDepth c) in *.
  rewrite min_small by (unfold small; lia).
  assert (f64_to_int32 (math_Min (f64_of_Z n) (f64_of_Z d)) = Z.min n d) as ->.
  { unfold math_Min. rewrite f64_ltb_small by (unfold small; lia). unfold f64_to_int32.
    destruct (Z.ltb_spec n d); rewrite f64_trunc_small by (unfold small; lia); rewrite (proj2 (Z.leb_le _ _)), (proj2 (Z.ltb_lt _ _)) by lia; cbn [andb]; lia. }
  rewrite (proj2 (Z.ltb_ge _ _)) by lia. rewrite add_lines_spec.
  assert (take (Z.to_nat (Z.min n d)) (Tokenizer s [newline]) = lines_of c s) as ->.
  { unfold lines_of. fold d. destruct (Z.le_gt_cases n d); [|by rewrite Z.min_r by lia].
    rewrite Z.min_l by lia. rewrite !take_ge by lia. done. }
  done.
Qed.

(** The contexts whose goroutine has a stack, with it. *)
Definition found w (m : gmap Z view) (p : Pool) (l : nat) : option (nat * ctx_t * bytes) :=
  ctx ← heap w !! l; match stack_of m p ctx with [] => None | stack => Some (l, ctx, stack) end.
Definition packs_of (now : Z) c (k : nat) (sel : list (nat * ctx_t * bytes)) : list ActiveStackPack :=
  imap (fun i x => pack_of now (key_of (k + i)) x.1.2 (lines_of c x.2)) sel.
Lemma packs_of_cons now c k x sel :
  packs_of now c k (x :: sel) = pack_of now (key_of k) x.1.2 (lines_of c x.2) :: packs_of now c (S k) sel.
Proof.
  unfold packs_of. rewrite imap_cons, Nat.add_0_r. f_equal. apply imap_ext. intros i y _. simpl. by rewrite Nat.add_succ_r.
Qed.
(** A zip of some packs, and what is sent at the end of those that wait. *)
Definition zip_out (now : Z) c (ps : list ActiveStackPack) : list sending :=
  match ps with
  | [] => []
  | _ => match DoZip (SetRecords ps) with Some z => [SentZip (mkZip PCODE_ OID_ (the OKIND c) (the ONODE c) now z 1)] | None => [] end
  end.
Definition rest_out (now : Z) c (ps : list ActiveStackPack) : list sending :=
  match ps with [a] => [SentPack a] | _ => zip_out now c ps end.
Lemma SendZip_out now c ps w : SendActiveStackZip PCODE_ OID_ now c ps w = w <| out ::= fun o => o ++ zip_out now c ps |>.
Proof.
  unfold SendActiveStackZip, zip_out. destruct ps as [|a ps]; [destruct w; simpl; by rewrite app_nil_r|].
  destruct (DoZip _); [done|]. destruct w; simpl. by rewrite app_nil_r.
Qed.

(** One more context is marked. *)
Lemma found_mark w l seq e m p l' : l' <> l -> forall t, found ((mark AddTail l seq e (w <| keys ::= S |>)) <| texts := t |>) m p l' = found w m p l'.
Proof. intros Hne t. unfold found, mark. simpl. by rewrite lookup_alter_ne. Qed.
Lemma omap_found_ext w w' m p (en : list nat) : (forall l, l ∈ en -> found w' m p l = found w m p l) -> omap (found w' m p) en = omap (found w m p) en.
Proof.
  induction en as [|l en IH]; intros H; [done|]. cbn [omap list_omap]. rewrite (H l) by by left.
  destruct (found w m p l); [f_equal|]; apply IH; intros; apply H; by right.
Qed.

(** What the loop has sent and what still waits. *)
Definition looped (now : Z) c (ps : list ActiveStackPack) (packs packs' : option (list ActiveStackPack)) (w w' : World) : Prop :=
  match packs with
  | None => packs' = None /\ out w' = out w ++ (SentPack <$> ps)
  | Some qs => exists gs qs', packs' = Some qs' /\ Forall (fun g => length g = 30) gs /\ length qs' < 30 /\
      concat gs ++ qs' = qs ++ ps /\ out w' = out w ++ concat (zip_out now c <$> gs)
  end.
Lemma dump_all_spec now c m p n : usable_depth c -> forall en sent packs w,
  NoDup en -> Forall (fun x => usable_stack x.2) (omap (found w m p) en) -> match packs with Some qs => length qs < 30 | None => True end ->
  let sel := take (Z.to_nat (n - sent)) (omap (found w m p) en) in
  let ps := packs_of now c (keys w) sel in
  exists w' packs', dump_all AddTail PCODE_ OID_ now c m p n en sent packs w = (w', Ret packs') /\
    texts w' = send_texts (texts w) (concat ((fun x => lines_of c x.2) <$> sel)) /\ keys w' = keys w + length sel /\
    looped now c ps packs packs' w w'.
Proof.
  intros Hd. induction en as [|l en IH]; intros sent packs w Hnd Hst Hqs; cbv zeta.
  { cbn [omap list_omap dump_all]. rewrite take_nil. exists w, packs. split_and!; [done|done|simpl; lia|].
    destruct packs as [qs|]; simpl; [|by rewrite app_nil_r]. exists [], qs. simpl. by rewrite !app_nil_r. }
  inversion Hnd as [|? ? Hl Hnd']; subst. cbn [dump_all omap list_omap]. cbn [omap list_omap] in Hst.
  destruct (Z.ltb_spec sent n) as [Hlt|Hge].
  2: { replace (Z.to_nat (n - sent)) with 0 by lia. rewrite take_0. exists w, packs. split_and!; [done|done|simpl; lia|].
       destruct packs as [qs|]; simpl; [|by rewrite app_nil_r]. exists [], qs. simpl. by rewrite !app_nil_r. }
  assert (found w m p l = match heap w !! l with
    | None => None | Some ctx => match stack_of m p ctx with [] => None | stack => Some (l, ctx, stack) end end) as Ef
    by (unfold found; by destruct (heap w !! l)).
  rewrite Ef in *. clear Ef.
  destruct (heap w !! l) as [ctx|] eqn:El; cbn [mbind option_bind] in *; [|by apply IH].
  destruct (stack_of m p ctx) as [|b stack] eqn:Es; [by apply IH|]. set (st := b :: stack) in *.
  apply Forall_cons in Hst as [Hst1 Hst]. cbn [snd] in Hst1. rewrite (fill_pack now c l ctx st w Hd Hst1).
  set (w1 := (mark _ _ _ _ _) <| texts := _ |>).
  assert (forall w2, heap w2 = heap w1 -> omap (found w2 m p) en = omap (found w m p) en) as Hext.
  { intros w2 E2. apply omap_found_ext. intros l' Hl'. unfold found. rewrite E2. apply found_mark. by intros ->. }
  assert (exists k, Z.to_nat (n - sent) = S k /\ k = Z.to_nat (n - (sent + 1))) as (k & -> & ->) by (exists (Z.to_nat (n - (sent + 1))); lia).
  cbn [take]. rewrite packs_of_cons. cbn [fst snd]. set (a := pack_of _ _ _ _).
  assert (forall packs1 w2, heap w2 = heap w1 -> texts w2 = texts w1 -> keys w2 = S (keys w) -> match packs1 with Some qs => length qs < 30 | None => True end ->
    let sel := take (Z.to_nat (n - (sent + 1))) (omap (found w m p) en) in
    exists w' packs', dump_all AddTail PCODE_ OID_ now c m p n en (sent + 1) packs1 w2 = (w', Ret packs') /\
    texts w' = send_texts (texts w) (concat ((fun x => lines_of c x.2) <$> (l, ctx, st) :: sel)) /\ keys w' = keys w + length ((l, ctx, st) :: sel) /\
    looped now c (packs_of now c (S (keys w)) sel) packs1 packs' w2 w') as Hnext.
  { intros packs1 w2 E1 E2 E3 Hp. destruct (IH (sent + 1)%Z packs1 w2 Hnd') as (w' & packs' & A1 & A2 & A3 & A4); [by rewrite Hext|done|].
    rewrite Hext, E3 in * by done. exists w', packs'. split_and!; [done| | |done].
    - rewrite A2, E2. unfold w1, send_texts. simpl. by rewrite foldl_app.
    - rewrite A3. simpl. lia. }
  destruct packs as [qs|].
  - rewrite length_app. cbn [length]. destruct (Nat.leb_spec 30 (length qs + 1)) as [H30|H30].
    + rewrite SendZip_out. destruct (Hnext (Some []) (w1 <| out ::= fun o => o ++ zip_out now c (qs ++ [a]) |>)) as (w' & packs' & A1 & A2 & A3 & gs & qs' & B1 & B2 & B3 & B4 & B5);
        [done|done|done|simpl; lia|]. exists w', packs'. split_and!; [done|done|done|]. exists ((qs ++ [a]) :: gs), qs'. split_and!; [done| |done| |].
      * constructor; [rewrite length_app; simpl; lia|done].
      * cbn [concat]. rewrite <- app_assoc, B4. cbn [app]. by rewrite <- app_assoc.
      * rewrite B5. simpl. by rewrite <- app_assoc.
    + destruct (Hnext (Some (qs ++ [a])) w1) as (w' & packs' & A1 & A2 & A3 & gs & qs' & B1 & B2 & B3 & B4 & B5);
        [done|done|done|rewrite length_app; simpl; lia|]. exists w', packs'. split_and!; [done|done|done|]. exists gs, qs'. split_and!; [done..| |done].
      by rewrite B4, <- app_assoc.
  - destruct (Hnext None (SendActiveStackPack a w1)) as (w' & packs' & A1 & A2 & A3 & B1 & B2); [done..|].
    exists w', packs'. split_and!; [done|done|done|]. split; [done|]. rewrite B2. simpl. by rewrite <- app_assoc.
Qed.

(** The contexts of a round: the first of those with a stack, up to the limit. *)
Definition selected c (m : gmap Z view) (p : Pool) (en : list nat) w : list (nat * ctx_t * bytes) :=
  take (Z.to_nat (max_count c)) (omap (found w m p) en).
(** C21. A round makes one pack for each of the first transactions, up to the limit, whose
    goroutine has a stack, with the hashes of its first lines, and sends the texts of the
    lines; without zips it sends the packs one by one, and with them it sends the same packs
    thirty to a zip, and at the end those that are left in a zip, or one alone as it is. *)
Theorem send_stacks_exact now c m p en w :
  usable_depth c -> NoDup en -> Forall (fun x => usable_stack x.2) (omap (found w m p) en) ->
  let sel := selected c m p en w in
  let ps := packs_of now c (keys w) sel in
  exists w', send_stacks AddTail PCODE_ OID_ now c m p en w = (w', Ret tt) /\
    texts w' = send_texts (texts w) (concat ((fun x => lines_of c x.2) <$> sel)) /\
    if the ActiveStackZipEnabled c : bool
    then exists gs rest, concat gs ++ rest = ps /\ Forall (fun g => length g = 30) gs /\ length rest < 30 /\
           out w' = out w ++ concat (zip_out now c <$> gs) ++ rest_out now c rest
    else out w' = out w ++ (SentPack <$> ps).
Proof.
  intros Hd Hnd Hst sel ps. unfold send_stacks. destruct (bool_decide_reflect (m = ∅)) as [->|_].
  { assert (omap (found w ∅ p) en = []) as E.
    { clear. induction en as [|l en IH]; [done|]. cbn [omap list_omap]. rewrite IH. unfold found, stack_of.
      destruct (heap w !! l); [|done]. cbn [mbind option_bind]. by rewrite lookup_empty. }
    unfold ps, sel, selected. rewrite E, take_nil. exists w. split_and!; [done|done|]. destruct (the ActiveStackZipEnabled c : bool); simpl.
    - exists [], []. split_and!; [done|done|simpl; lia|]. simpl. by rewrite app_nil_r.
    - by rewrite app_nil_r. }
  destruct (dump_all_spec now c m p (max_count c) Hd en 0 (if the ActiveStackZipEnabled c : bool then Some [] else None) w Hnd Hst) as (w' & packs' & E & Et & _ & Hl).
  { destruct (the ActiveStackZipEnabled c : bool); simpl; [lia|done]. }
  rewrite Z.sub_0_r in *. cbv zeta. rewrite E. fold (selected c m p en w) in Hl, Et. fold sel ps in Hl, Et.
  destruct (the ActiveStackZipEnabled c : bool); simpl in Hl.
  - destruct Hl as (gs & rest & -> & Hgs & Hr & Hc & Ho). eexists. split; [done|].
    assert (send_rest PCODE_ OID_ now c (Some rest) w' = w' <| out ::= fun o => o ++ rest_out now c rest |>) as ->.
    { unfold send_rest, rest_out. destruct rest as [|a [|b rest]]; [destruct w'; simpl; by rewrite app_nil_r|done|]. apply SendZip_out. }
    split; [done|]. exists gs, rest. split_and!; [done..|]. simpl. by rewrite Ho, <- app_assoc.
  - destruct Hl as [-> Ho]. exists w'. done.
Qed.
End Facts.

(** * A concrete input *)

Module Sample.
Import ConfFile.Sample.
#[export] Instance active_lib : ActiveLib := {|
  key_of n := (100 + Z.of_nat n)%Z; SetRecords ps := replicate (length ps) "p"%char; DoZip t := Some t
|}.
Definition conf1 (zip : bool) : Config :=
  set_field ActiveStackZipEnabled zip (set_field TraceActiveCallstackDepth 2%Z (set_field ActiveStackCount 10%Z zero_config)).
(** The pool after a dump of two goroutines, and their views. *)
Definition pool1 : Pool := mkPool {[0 := str "goroutine 7 [running]:" ++ newline :: str "main.main()"]} [0] 1.
Definition map1 : gmap Z view := {[7%Z := mkView 0 (mkSpan 0 34)]}.
Definition ctx_of (thread seq : Z) : TraceContext.t :=
  (TraceContext.NewTraceContext 1) <| TraceContext.ThreadId := thread |> <| TraceContext.ProfileSeq := seq |>.
Definition world_a : World := mkWorld (lm_new 10) (list_to_map [(0, ctx_of 5 50); (1, ctx_of 7 70)]) (DataText.initial 10 0 0) 0 [].
(** Two transactions run, one of them in a goroutine of the dump. *)
Lemma send_stacks_exact_witness : exists w' p,
  send_stacks (fun _ l => l) 1 2 1000 (conf1 false) map1 pool1 [0; 1] world_a = (w', Ret tt) /\
  out w' = [SentPack p] /\ a_ProfileSeq p = 70%Z /\ length (CallStack p) = 2.
Proof.
  destruct (send_stacks_exact (fun _ l => l) 1 2 1000 (conf1 false) map1 pool1 [0; 1] world_a) as (w' & E & _ & Ho).
  - unfold usable_depth. vm_compute. split; [discriminate|reflexivity].
  - apply NoDup_cons. split; [intros H; apply list_elem_of_singleton in H; discriminate|apply NoDup_singleton].
  - assert (omap (found world_a map1 pool1) [0; 1] = [(1, ctx_of 7 70, read pool1 (mkView 0 (mkSpan 0 34)))]) as -> by (vm_compute; reflexivity).
    constructor; [|constructor]. unfold usable_stack. vm_compute. reflexivity.
  - change (the ActiveStackZipEnabled (conf1 false) : bool) with false in Ho. cbv iota in Ho.
    eexists w', _. split; [exact E|]. split; [rewrite Ho; vm_compute; reflexivity|]. split; vm_compute; reflexivity.
Defined.
End Sample.
